(* ===== verification/_CoqProject ===== *)
-Q . S2P
Prelude.v
Riscv.v
Machine.v
Spinlock.v
PhysMem.v
Kalloc.v
PageTable.v
Vm.v
VmSpec.v
VmFree.v
VmCopy.v
VmAlloc.v
Kernel.v
Sched.v
Sleeplock.v
Bio.v
Bytes.v
Uart.v
Printf.v
Log.v
Fs.v
Pipe.v
Console.v
File.v
Proc.v
Exec.v
Sysfile.v
Virtio.v
Trap.v
Asm.v
AsmSpec.v
Thread.v
BioRing.v
BioSpec.v
LogDisk.v
LogSpec.v
Demo.v
SleepSmp.v
SchedSpec.v
ProcVm.v
ProcSpec.v
PipeSpec.v
PgAccess.v
FsTx.v
FsBlocks.v
FsFile.v
FsWrite.v
FsDir.v
FsLink.v
FsInode.v
FsPath.v
KernelWitness.v
FileWitness.v
Mkfs.v
MkfsSpec.v
MkfsAppend.v
MkfsImage.v
MkfsBoot.v
PathWitness.v
LogSmp.v
Ulib.v
UlibSpec.v
Grep.v
GrepSpec.v
GrepIO.v
Umalloc.v
UmallocSpec.v
UmallocHeap.v
UmallocAlloc.v
Sh.v
ShSpec.v
ShGrammar.v
ShParse.v
ShRun.v
Uprintf.v
UprintfSpec.v
Wc.v
WcSpec.v
Umain.v
UserWitness.v
