(* ===== verification/Prelude.v ===== *)
(** * A verification development for xv6-riscv (page-table lab)

    xv6 is a small Unix: a kernel for RISC-V multiprocessors ([kernel/]), user
    programs ([user/]) and the host program that makes the disk image
    ([mkfs/]). This library translates the C code into Rocq functions, file
    by file, and proves what the parts promise to each other and to their
    users. This file holds what all parts share.

    ** How C code is translated

    A C function becomes a function in the monad [M S A] of this file, over
    the state [S] of its part; the outcome is a result with the new state
    ([Ok]), a [panic], undefined behaviour ([Undef]: an access out of bounds,
    a missing argument), a context switch ([Switch], which holds the rest of
    the thread), waiting for what only another hart or a device changes
    ([Spin]), or [NoFuel]. Integers are [Z], cut to their width by [u8], [u16], [u32],
    [u64], [s16] and [s32] where C converts. Names are those of the source;
    the body of a long loop is a definition of its own.

    Loops over tables and ranges are structural. Other loops have fuel: in
    the kernel [wait_fuel] bounds the turns of a loop that sleeps, and the
    fixed bounds are the lengths that the code itself allows; a loop of a user
    program through its memory gets one turn more than there are mapped bytes
    ([ufuel]); loops that read a file get the number of reads as an argument.
    The theorems say that the code returns with this fuel, or with any fuel
    above the length of the input; none holds only because fuel runs out.

    ** The machine and memory management

    - [Riscv.v]: constants, Sv39 macros, control registers ([kernel/riscv.h],
      [memlayout.h], [param.h]). [Machine.v]: harts, CPUs, spin locks, physical
      memory. [PhysMem.v]: little-endian accesses, [kernel/string.c].
    - [Spinlock.v]: [kernel/spinlock.c], and any number of harts that run
      [acquire] and [release] interleaved: mutual exclusion.
    - [Kalloc.v]: [kernel/kalloc.c]; the free list threaded through the pages
      refines a list of distinct pages; [kinit], [kfree], [kalloc].
    - [PageTable.v], [Vm.v]: [kernel/vm.c]. [VmSpec.v], [VmAlloc.v],
      [VmFree.v], [VmCopy.v]: the table as a map from virtual pages to
      entries; [walk], [mappages], [uvmalloc], [uvmcopy] (all or nothing when
      memory runs out), freeing (every page exactly once), and the page-wise
      copies as equal to the byte-wise view of user memory.
    - [Asm.v]: the instructions of [entry.S], [swtch.S], [kernelvec.S] and
      [trampoline.S] on the registers, control registers and memory of a hart.
      [AsmSpec.v]: [swtch] exchanges exactly the registers of [struct context];
      [uservec] and [userret] together keep every user register, whatever the
      kernel did with the registers in between; [kernelvec] resumes the
      interrupted code with its registers, whatever [kerneltrap] changed.

    ** The kernel above

    [Kernel.v] is the record of all static variables; the hardware is the
    class [Platform], the linker's symbols [Linker], the fuel [Fuel].

    - [Sched.v], [Sleeplock.v], [Proc.v]: [kernel/proc.c], [sleeplock.c].
      [SchedSpec.v]: [sleep], [wakeup] and the scheduler. [SleepSmp.v]: any
      number of threads on a sleep lock, in any interleaving: exclusion and no
      lost wake-up. [ProcVm.v], [ProcSpec.v], [PgAccess.v]: page tables of
      processes, [allocproc], [freeproc], [kill], and the lab's [pgaccess].
      [Thread.v]: their shared vocabulary.
    - [Bio.v]: [kernel/bio.c] over the interface [DiskDriver]. [BioRing.v],
      [BioSpec.v]: the LRU list and the cache, with the invariant [bio_inv]
      that the file system relies on; the driver is used through the laws of
      [DiskLaws] (a transfer moves one block and is finished on return).
    - [Log.v]: [kernel/log.c]. [LogDisk.v], [LogSpec.v]: [commit] and
      recovery are atomic with respect to crashes after any of their block
      writes, recovery also with respect to crashes of its own; one block
      write is taken to be atomic. [LogSmp.v]: [begin_op], [log_write] and
      [end_op] of any number of threads in any interleaving: no panic, no
      commit during an operation, every waiting thread can begin, and without
      new operations all threads leave the log after a bounded number of
      critical sections, under every schedule; and the bound on the blocks of
      an operation for which this holds.
    - [Bytes.v], [Fs.v]: [kernel/fs.c] with its on-disk structures. [FsTx.v]:
      the view of the blocks in a transaction. [FsBlocks.v], [FsFile.v],
      [FsWrite.v]: block allocation, [readi], [writei], inodes. [FsDir.v],
      [FsLink.v]: a directory as a map from names to inode numbers, which
      [dirlookup] searches and [dirlink] extends. [FsInode.v]: the table of
      inodes in memory, and the types of the fields of inodes on disk.
      [FsPath.v]: [namex] as a search through the directories as maps, with
      every lock and reference given back.
    - [Pipe.v], [File.v], [Console.v], [Uart.v], [Printf.v], [Exec.v],
      [Sysfile.v], [Virtio.v], [Trap.v]: the C files of these names,
      [syscall.c], [sysproc.c], [plic.c], [start.c] and [main.c]. Of these,
      [PipeSpec.v] proves that a pipe is a bounded queue and specifies
      [piperead] and [pipewrite]; the others are definitions that run.
    - [Demo.v], [KernelWitness.v], [FileWitness.v], [PathWitness.v]: concrete
      machines, kernels and disks for these theorems.

    ** The disk image

    [Mkfs.v]: [mkfs/mkfs.c]. [MkfsSpec.v], [MkfsAppend.v], [MkfsImage.v]:
    for files that fit, the image is a file system as the definitions of
    [Fs.v] read it. [MkfsBoot.v]: on such an image the kernel's [namei] finds
    every file under its name, and [ilock] and [readi] give back its contents,
    unless the entries of the root directory end at a block boundary, where
    the size that [mkfs] writes is wrong.

    ** User programs

    A program runs on the bytes of its address space; system calls are the
    class [UserSys], with the rest of the system as an abstract [world].
    What a program relies on is a class of laws ([FileIO]: [read] returns
    the next bytes of its input, in pieces of any size, and [write] appends
    to its output), which [UserWitness.v] instantiates.

    - [Ulib.v], [UlibSpec.v]: [user/ulib.c]. [Uprintf.v], [UprintfSpec.v]:
      [user/printf.c]: the text of every conversion, and [atoi] reads it back.
    - [Umalloc.v], [UmallocSpec.v], [UmallocHeap.v], [UmallocAlloc.v]:
      [user/umalloc.c]: blocks in use are disjoint and untouched, [malloc] and
      [free] return, for every program that uses them.
    - [Grep.v], [GrepSpec.v], [GrepIO.v]: [user/grep.c]: matching is membership
      in the pattern's language, and the output is the matching lines.
      [Wc.v], [WcSpec.v]: [user/wc.c] and [user/cat.c]. [Umain.v]: the [main]
      functions of these programs and of [echo], [kill], [ln], [mkdir], [rm]
      and [ls]; what [cat], [grep] and [echo] print, and [fmtname] of [ls].
    - [Sh.v], [ShSpec.v], [ShGrammar.v], [ShParse.v]: the parser of
      [user/sh.c] is sound, complete and total for an unambiguous grammar.
      [ShRun.v]: [runcmd] as processes in any interleaving: which programs run,
      with which descriptors.

    ** Not modelled

    The stubs that [usys.pl] generates, [initcode.S] and the linker scripts:
    the C code's use of them is a parameter ([UserSys], [Linker]). The C code
    calls the assembly routines through outcomes of the monad ([Switch]) and
    the trap handlers as functions; that both views fit together is not
    stated. [ramdisk.c] is not part of the build. The memory model is
    sequentially consistent, and memory barriers and the flushes of the TLB do
    nothing. The prompt loop of the shell, [init] and [zombie], which fork
    outside the model of [ShRun.v]. The test programs ([usertests],
    [forktest], [grind], [stressfs], [pgtbltest]) test the running system, and
    the grading scripts run them. *)

From stdpp Require Export base tactics numbers list gmap strings.
From Stdlib Require Export ZArith Lia FunctionalExtensionality.

#[global] Open Scope Z_scope.

(** ** C integer types

    A [w]-bit C integer is a [Z]; the wrap-around of each conversion is
    written with one of the functions below ([kernel/types.h]). *)

Definition u8 (x : Z) : Z := x mod 2 ^ 8.

Definition u16 (x : Z) : Z := x mod 2 ^ 16.

Definition u32 (x : Z) : Z := x mod 2 ^ 32.

Definition u64 (x : Z) : Z := x mod 2 ^ 64.

(** Conversion to a signed 32-bit [int] and a signed 16-bit [short]
    (two's complement, as gcc defines it). *)
Definition s32 (x : Z) : Z := (x + 2 ^ 31) mod 2 ^ 32 - 2 ^ 31.

Definition s16 (x : Z) : Z := (x + 2 ^ 15) mod 2 ^ 16 - 2 ^ 15.

(** A signed [char] as RISC-V gcc has it is unsigned; [char] is [u8]. *)

(** Truth value of a C integer. *)
Definition ctrue (x : Z) : bool := negb (x =? 0).

(** ** The outcome-state monad

    A C function with effects on a state [S] is a function from [S] to an
    [outcome]:
    - [Ok a s]: it returned [a] in state [s];
    - [Panic msg s]: it called [panic(msg)];
    - [Undef msg s]: C undefined behaviour (null or out-of-range access);
    - [Switch s k]: the running thread called [swtch] in state [s] and left
      the processor; when another [swtch] comes back to it in state [s'] it
      continues as [k s'];
    - [Spin s]: it spins on something only another hart or a device changes;
    - [NoFuel]: the model's fuel ran out (excluded by theorems). *)

Inductive outcome (S A : Type) : Type :=
| Ok (a : A) (s : S)
| Panic (msg : string) (s : S)
| Undef (msg : string) (s : S)
| Switch (s : S) (k : S -> outcome S A)
| Spin (s : S)
| NoFuel.

Arguments Ok {S A} a s.
Arguments Panic {S A} msg s.
Arguments Undef {S A} msg s.
Arguments Switch {S A} s k.
Arguments Spin {S A} s.
Arguments NoFuel {S A}.

Definition M (S A : Type) : Type := S -> outcome S A.

Definition ret {S A} (a : A) : M S A := fun s => Ok a s.

Fixpoint obind {S A B} (o : outcome S A) (f : A -> M S B) : outcome S B :=
  match o with
  | Ok a s => f a s
  | Panic msg s => Panic msg s
  | Undef msg s => Undef msg s
  | Switch s k => Switch s (fun s' => obind (k s') f)
  | Spin s => Spin s
  | NoFuel => NoFuel
  end.

Definition bind {S A B} (m : M S A) (f : A -> M S B) : M S B := fun s => obind (m s) f.

Definition panic {S A} (msg : string) : M S A := fun s => Panic msg s.

Definition undef {S A} (msg : string) : M S A := fun s => Undef msg s.

Definition spin {S A} : M S A := fun s => Spin s.

Definition nofuel {S A} : M S A := fun _ => NoFuel.

Definition gets {S A} (f : S -> A) : M S A := fun s => Ok (f s) s.

Definition modify {S} (f : S -> S) : M S unit := fun s => Ok tt (f s).

Definition when {S} (b : bool) (m : M S unit) : M S unit :=
  if b then m else ret tt.

(** The call of [swtch] itself. *)
Definition switch {S} : M S unit := fun s => Switch s (fun s' => Ok tt s').

(** Running an operation of a component on its part of a larger state. *)
Fixpoint ozoom {S T A} (get : T -> S) (put : S -> T -> T) (t : T) (o : outcome S A) : outcome T A :=
  match o with
  | Ok a s => Ok a (put s t)
  | Panic msg s => Panic msg (put s t)
  | Undef msg s => Undef msg (put s t)
  | Switch s k => Switch (put s t) (fun t' => ozoom get put t' (k (get t')))
  | Spin s => Spin (put s t)
  | NoFuel => NoFuel
  end.

Definition zoom {S T A} (get : T -> S) (put : S -> T -> T) (m : M S A) : M T A :=
  fun t => ozoom get put t (m (get t)).

(** [for] loops over a table: [for_each] visits all entries; [scan] stops at
    the first one for which the body returns a result ([return], [goto]). *)
Fixpoint for_each {S A} (l : list A) (f : A -> M S unit) : M S unit :=
  match l with
  | [] => ret tt
  | x :: l' => bind (f x) (fun _ => for_each l' f)
  end.

Fixpoint scan {S A B} (l : list A) (f : A -> M S (option B)) : M S (option B) :=
  match l with
  | [] => ret None
  | x :: l' => bind (f x) (fun r =>
      match r with Some b => ret (Some b) | None => scan l' f end)
  end.

(** A general [for] or [while] loop with loop variables of type [X]: the body
    continues with new values ([inl]) or leaves the loop with a result
    ([inr]). *)
Fixpoint iter {S X A} (fuel : nat) (body : X -> M S (X + A)) (x : X) : M S A :=
  match fuel with
  | O => nofuel
  | Datatypes.S fuel' => bind (body x) (fun r =>
      match r with inl x' => iter fuel' body x' | inr a => ret a end)
  end.

Definition continue {S X A} (x : X) : M S (X + A) := ret (inl x).

Definition leave {S X A} (a : A) : M S (X + A) := ret (inr a).

(** Bound on the number of times a loop that waits for other threads
    ([while(cond) sleep(...)]) goes round. *)
Class Fuel := wait_fuel : nat.

Arguments ret {S A} a s : simpl never.
Arguments bind {S A B} m f s : simpl never.
Arguments panic {S A} msg s : simpl never.
Arguments gets {S A} f s : simpl never.
Arguments modify {S} f s : simpl never.
Arguments when {S} b m s : simpl never.
Arguments switch {S} s : simpl never.
Arguments zoom {S T A} get put m t : simpl never.

Declare Scope cmonad_scope.
Delimit Scope cmonad_scope with cmonad.
#[global] Open Scope cmonad_scope.

Notation "x <- m ;; f" := (bind m (fun x => f))
  (at level 100, m at next level, right associativity) : cmonad_scope.
Notation "m ;; f" := (bind m (fun _ => f))
  (at level 100, right associativity) : cmonad_scope.

(** ** Functional record update

    [r <| f := v |>] is the C assignment [r.f = v] on a record value. Each
    record declares its eta-expansion once; the setter of a projection is
    computed from it. *)

Class Eta (R : Type) := eta : R -> R.

Class Setter {R T : Type} (proj : R -> T) := upd : (T -> T) -> R -> R.

Arguments upd {R T} proj {Setter} g r : simpl nomatch.

Ltac solve_setter :=
  match goal with
  | |- @Setter ?R ?T ?proj =>
      let inst := constr:(_ : Eta R) in
      let body := eval hnf in inst in
      match eval pattern proj in body with
      | ?F _ =>
          let s := constr:(fun g : T -> T => F (fun r : R => g (proj r))) in
          let s' := eval cbv beta in s in
          exact s'
      end
  end.

#[export] Hint Extern 1 (@Setter _ _ _) => solve_setter : typeclass_instances.

Notation "r <| f := v |>" := (upd f (fun _ => v) r)
  (at level 1, f at next level, v at level 200, left associativity) : cmonad_scope.
Notation "r <| f ::= g |>" := (upd f g r)
  (at level 1, f at next level, g at level 200, left associativity) : cmonad_scope.

(** ** Lemmas on the monad *)

Lemma bind_ok {S A B} (m : M S A) (f : A -> M S B) s a s' :
  m s = Ok a s' -> (x <- m ;; f x) s = f a s'.
Proof. intros H. unfold bind. by rewrite H. Qed.

Lemma bind_panic {S A B} (m : M S A) (f : A -> M S B) s msg s' :
  m s = Panic msg s' -> (x <- m ;; f x) s = Panic msg s'.
Proof. intros H. unfold bind. by rewrite H. Qed.

Lemma bind_ret {S A B} (a : A) (f : A -> M S B) s : (x <- ret a ;; f x) s = f a s.
Proof. done. Qed.

Lemma bind_gets {S A B} (g : S -> A) (f : A -> M S B) s : (x <- gets g ;; f x) s = f (g s) s.
Proof. done. Qed.

Lemma bind_modify {S B} (g : S -> S) (f : unit -> M S B) s :
  (x <- modify g ;; f x) s = f tt (g s).
Proof. done. Qed.

Lemma obind_obind {S A B C} (o : outcome S A) (f : A -> M S B) (g : B -> M S C) :
  obind (obind o f) g = obind o (fun x => bind (f x) g).
Proof.
  induction o as [| | |s k IH| |]; try done. cbn. f_equal. apply functional_extensionality. done.
Qed.

Lemma bind_bind {S A B C} (m : M S A) (f : A -> M S B) (g : B -> M S C) s :
  (y <- (x <- m ;; f x) ;; g y) s = (x <- m ;; y <- f x ;; g y) s.
Proof. apply obind_obind. Qed.

Lemma bind_inv {S A B} (m : M S A) (f : A -> M S B) s b s' :
  (x <- m ;; f x) s = Ok b s' -> exists a t, m s = Ok a t /\ f a t = Ok b s'.
Proof. unfold bind. destruct (m s) eqn:E; intros H; try discriminate. eauto. Qed.

(** One round of a loop. *)
Lemma iter_continue {S X A} n (body : X -> M S (X + A)) x x' s s' :
  body x s = Ok (inl x') s' -> iter (Datatypes.S n) body x s = iter n body x' s'.
Proof. intros H. cbn. by erewrite bind_ok by exact H. Qed.

Lemma iter_leave {S X A} n (body : X -> M S (X + A)) x a s s' :
  body x s = Ok (inr a) s' -> iter (Datatypes.S n) body x s = Ok a s'.
Proof. intros H. cbn. by erewrite bind_ok by exact H. Qed.

(** The loop over a table stops at the first entry with the property [Q]. *)
Lemma scan_app {S A B} (f : A -> M S (option B)) l1 l2 s :
  (forall x, x ∈ l1 -> f x s = Ok None s) -> scan (l1 ++ l2) f s = scan l2 f s.
Proof.
  induction l1 as [|x l1 IH]; intros Hn; [done|]. cbn [scan app].
  erewrite bind_ok by (apply Hn; left). apply IH. intros y Hy. apply Hn. by right.
Qed.

Lemma scan_find {S A B} (Q : A -> Prop) `{!forall x, Decision (Q x)} (f : nat -> M S (option B)) tbl n s :
  length tbl = n -> (forall i x, tbl !! i = Some x -> ~ Q x -> f i s = Ok None s) ->
  match list_find Q tbl with
  | Some (i, _) => forall b s', f i s = Ok (Some b) s' -> scan (seq 0 n) f s = Ok (Some b) s'
  | None => scan (seq 0 n) f s = Ok None s
  end.
Proof.
  intros Hlen Hno. destruct (list_find Q tbl) as [[i p]|] eqn:E.
  - apply list_find_Some in E as (Hi & Hq & Hmin). intros b s' Hf.
    pose proof (lookup_lt_Some _ _ _ Hi) as Hlt. rewrite Hlen in Hlt.
    replace n with (i + Datatypes.S (n - Datatypes.S i))%nat by lia. rewrite seq_app, scan_app.
    + cbn [seq scan Nat.add]. by erewrite bind_ok by exact Hf.
    + intros j [_ Hj]%elem_of_seq. destruct (lookup_lt_is_Some_2 tbl j) as [q Hq']; [lia|].
      eapply Hno; [exact Hq'|]. eapply Hmin; [exact Hq'|lia].
  - apply list_find_None in E. rewrite <- (app_nil_r (seq 0 _)), scan_app; [done|].
    intros j [_ Hj]%elem_of_seq. destruct (lookup_lt_is_Some_2 tbl j) as [q Hq']; [lia|].
    eapply Hno; [exact Hq'|]. by eapply Forall_lookup_1 in E.
Qed.

Lemma zoom_ok {S T A} (get : T -> S) (put : S -> T -> T) (m : M S A) t a s' :
  m (get t) = Ok a s' -> zoom get put m t = Ok a (put s' t).
Proof. intros H. unfold zoom. by rewrite H. Qed.

(** [mstep H] runs the first statement of a monadic goal with the equation
    [H : m s = Ok a s']; [mrun] runs the administrative ones. *)
Tactic Notation "mstep" uconstr(H) := erewrite bind_ok by (eapply H; eauto with xv6).

Ltac mrun :=
  repeat first
    [ rewrite bind_bind
    | rewrite bind_ret
    | rewrite bind_gets
    | rewrite bind_modify ].

(** ** Integer ranges *)

Create HintDb xv6 discriminated.
#[export] Hint Constants Opaque : xv6.
#[export] Hint Extern 5 (_ <= _ < _) => lia : xv6.
#[export] Hint Extern 5 (_ <= _) => lia : xv6.
#[export] Hint Extern 5 (_ < _) => lia : xv6.

Lemma u64_range x : 0 <= u64 x < 2 ^ 64.
Proof. apply Z.mod_pos_bound. lia. Qed.

Lemma u32_range x : 0 <= u32 x < 2 ^ 32.
Proof. apply Z.mod_pos_bound. lia. Qed.

Lemma u8_range x : 0 <= u8 x < 256.
Proof. apply (Z.mod_pos_bound x 256). lia. Qed.

Lemma u64_small x : 0 <= x < 2 ^ 64 -> u64 x = x.
Proof. apply Z.mod_small. Qed.

Lemma u32_small x : 0 <= x < 2 ^ 32 -> u32 x = x.
Proof. apply Z.mod_small. Qed.

Lemma u8_small x : 0 <= x < 256 -> u8 x = x.
Proof. apply Z.mod_small. Qed.

Lemma s32_small x : - 2 ^ 31 <= x < 2 ^ 31 -> s32 x = x.
Proof. intros H. unfold s32. rewrite Z.mod_small; lia. Qed.

Lemma s32_range x : - 2 ^ 31 <= s32 x < 2 ^ 31.
Proof. unfold s32. pose proof (Z.mod_pos_bound (x + 2 ^ 31) (2 ^ 32)). lia. Qed.

(** ** Lists *)

Lemma list_alter_insert {A} (f : A -> A) (l : list A) i x :
  l !! i = Some x -> alter f i l = <[i := f x]> l.
Proof.
  intros H. apply list_eq. intros j. destruct (decide (i = j)) as [->|Hne].
  - rewrite list_lookup_alter_eq, H, list_lookup_insert_eq; [done|].
    by eapply lookup_lt_Some.
  - by rewrite list_lookup_alter_ne, list_lookup_insert_ne.
Qed.

Lemma submseteq_NoDup {A} (k l : list A) : NoDup l -> k ⊆+ l -> NoDup k.
Proof. intros Hl (k' & Hk)%submseteq_Permutation. rewrite Hk in Hl. by apply NoDup_app in Hl as (? & _ & _). Qed.

(** A list of pages built by concatenating the pages of each entry. *)

Section bind.
Context {A B : Type}.
Implicit Types (f g : A -> list B) (l : list A).

Lemma bind_NoDup_elem f l x : NoDup (l ≫= f) -> x ∈ l -> NoDup (f x).
Proof.
  induction l as [|y l IH]; [by intros _ ?%not_elem_of_nil|].
  cbn. intros (H1 & _ & H2)%NoDup_app [->|Hx]%elem_of_cons; auto.
Qed.

Lemma bind_NoDup_inj f l x y z :
  NoDup (l ≫= f) -> x ∈ l -> y ∈ l -> z ∈ f x -> z ∈ f y -> x = y.
Proof.
  induction l as [|w l IH]; [by intros _ ?%not_elem_of_nil|].
  cbn. intros (H1 & Hd & H2)%NoDup_app Hx Hy Hzx Hzy.
  apply elem_of_cons in Hx as [->|Hx]; apply elem_of_cons in Hy as [->|Hy]; auto;
    exfalso; eapply Hd; try done; apply list_elem_of_bind; eauto.
Qed.

Lemma bind_ext f g l : (forall x, x ∈ l -> f x = g x) -> l ≫= f = l ≫= g.
Proof.
  induction l as [|x l IH]; intros H; [done|]. cbn.
  rewrite (H x) by left. f_equal. apply IH. intros y Hy. apply H. by right.
Qed.

Lemma bind_update_perm f g l x k :
  NoDup l -> x ∈ l -> (forall y, y ∈ l -> y <> x -> g y = f y) -> g x ≡ₚ f x ++ k ->
  l ≫= g ≡ₚ (l ≫= f) ++ k.
Proof.
  intros Hnd Hx Hne Hxk. induction l as [|y l IH]; [by apply not_elem_of_nil in Hx|].
  apply NoDup_cons in Hnd as [Hy Hnd]. cbn.
  apply elem_of_cons in Hx as [->|Hx].
  - rewrite Hxk, (bind_ext g f l).
    + rewrite <- !app_assoc. f_equiv. apply Permutation_app_comm.
    + intros z Hz. apply Hne; [by right|congruence].
  - rewrite (Hne y) by (try left; congruence).
    rewrite IH by (first [done | intros; apply Hne; [by right|done]]). by rewrite app_assoc.
Qed.

End bind.
