(* ===== verification/Riscv.v ===== *)
(** * The RISC-V platform

    Constants of [kernel/param.h] and [kernel/memlayout.h], the Sv39 macros
    and the control and status registers of [kernel/riscv.h], with the
    arithmetic facts of the address and page-table-entry encodings. *)

From S2P Require Import Prelude.

(** ** kernel/param.h *)

Definition NPROC : Z := 64.

Definition NCPU : Z := 8.

Definition NOFILE : Z := 16.

Definition NFILE : Z := 100.

Definition NINODE : Z := 50.

Definition NDEV : Z := 10.

Definition ROOTDEV : Z := 1.

Definition MAXARG : Z := 32.

Definition MAXOPBLOCKS : Z := 10.

Definition LOGSIZE : Z := MAXOPBLOCKS * 3.

Definition NBUF : Z := MAXOPBLOCKS * 3.

Definition FSSIZE : Z := 2000.

Definition MAXPATH : Z := 128.

(** ** Sv39 paging (kernel/riscv.h) *)

Definition PGSIZE : Z := 4096.

Definition PGSHIFT : Z := 12.

Definition PGROUNDUP (sz : Z) : Z := Z.land (u64 (sz + PGSIZE - 1)) (Z.lnot (PGSIZE - 1)).

Definition PGROUNDDOWN (a : Z) : Z := Z.land a (Z.lnot (PGSIZE - 1)).

Definition PTE_V : Z := Z.shiftl 1 0.

Definition PTE_R : Z := Z.shiftl 1 1.

Definition PTE_W : Z := Z.shiftl 1 2.

Definition PTE_X : Z := Z.shiftl 1 3.

Definition PTE_U : Z := Z.shiftl 1 4.

Definition PTE_A : Z := Z.shiftl 1 6.

Definition PA2PTE (pa : Z) : Z := u64 (Z.shiftl (Z.shiftr pa 12) 10).

Definition PTE2PA (pte : Z) : Z := u64 (Z.shiftl (Z.shiftr pte 10) 12).

Definition PTE_FLAGS (pte : Z) : Z := Z.land pte 0x3FF.

Definition PXMASK : Z := 0x1FF.

Definition PXSHIFT (level : Z) : Z := PGSHIFT + 9 * level.

Definition PX (level va : Z) : Z := Z.land (Z.shiftr va (PXSHIFT level)) PXMASK.

Definition MAXVA : Z := Z.shiftl 1 (9 + 9 + 9 + 12 - 1).

Definition SATP_SV39 : Z := Z.shiftl 8 60.

Definition MAKE_SATP (pagetable : Z) : Z := Z.lor SATP_SV39 (Z.shiftr pagetable 12).

(** ** kernel/memlayout.h *)

Definition UART0 : Z := 0x10000000.

Definition UART0_IRQ : Z := 10.

Definition VIRTIO0 : Z := 0x10001000.

Definition VIRTIO0_IRQ : Z := 1.

Definition CLINT : Z := 0x2000000.

Definition CLINT_MTIMECMP (hartid : Z) : Z := CLINT + 0x4000 + 8 * hartid.

Definition PLIC : Z := 0x0c000000.

Definition PLIC_SENABLE (hart : Z) : Z := PLIC + 0x2080 + hart * 0x100.

Definition PLIC_SPRIORITY (hart : Z) : Z := PLIC + 0x201000 + hart * 0x2000.

Definition PLIC_SCLAIM (hart : Z) : Z := PLIC + 0x201004 + hart * 0x2000.

Definition KERNBASE : Z := 0x80000000.

Definition PHYSTOP : Z := KERNBASE + 128 * 1024 * 1024.

Definition TRAMPOLINE : Z := MAXVA - PGSIZE.

Definition KSTACK (p : Z) : Z := TRAMPOLINE - p * 2 * PGSIZE - 3 * PGSIZE.

Definition TRAPFRAME : Z := TRAMPOLINE - PGSIZE.

Definition USYSCALL : Z := TRAPFRAME - PGSIZE.

(** ** Control and status registers (kernel/riscv.h)

    The registers of one hart. [r_x] and [w_x] are the inline assembly
    accessors. *)

(** Fields of [mstatus] and [sie]. *)
Inductive mstatus_bit := MSTATUS_MPP_MASK | MSTATUS_MPP_S | MSTATUS_MIE.

Definition mstatus_val (b : mstatus_bit) : Z :=
  match b with MSTATUS_MPP_MASK => Z.shiftl 3 11 | MSTATUS_MPP_S => Z.shiftl 1 11 | MSTATUS_MIE => Z.shiftl 1 3 end.

Coercion mstatus_val : mstatus_bit >-> Z.

Inductive sie_bit := SIE_SEIE | SIE_STIE | SIE_SSIE.

Definition sie_val (b : sie_bit) : Z :=
  match b with SIE_SEIE => Z.shiftl 1 9 | SIE_STIE => Z.shiftl 1 5 | SIE_SSIE => Z.shiftl 1 1 end.

Coercion sie_val : sie_bit >-> Z.

Definition SSTATUS_SPP : Z := Z.shiftl 1 8.

Definition SSTATUS_SPIE : Z := Z.shiftl 1 5.

Definition SSTATUS_SIE : Z := Z.shiftl 1 1.

Definition MIE_MTIE : Z := Z.shiftl 1 7.

Record hart := mkhart {
  mhartid : Z; mstatus : Z; mepc : Z; sstatus : Z; sip : Z; sie : Z; mie : Z;
  sepc : Z; medeleg : Z; mideleg : Z; stvec : Z; mtvec : Z; pmpcfg0 : Z;
  pmpaddr0 : Z; satp : Z; mscratch : Z; scause : Z; stval : Z; tp : Z }.

#[export] Instance eta_hart : Eta hart := fun h =>
  mkhart (mhartid h) (mstatus h) (mepc h) (sstatus h) (sip h) (sie h) (mie h)
    (sepc h) (medeleg h) (mideleg h) (stvec h) (mtvec h) (pmpcfg0 h)
    (pmpaddr0 h) (satp h) (mscratch h) (scause h) (stval h) (tp h).

Definition r_mhartid (h : hart) : Z := mhartid h.

Definition r_mstatus (h : hart) : Z := mstatus h.

Definition w_mstatus (x : Z) (h : hart) : hart := h <| mstatus := x |>.

Definition w_mepc (x : Z) (h : hart) : hart := h <| mepc := x |>.

Definition r_sstatus (h : hart) : Z := sstatus h.

Definition w_sstatus (x : Z) (h : hart) : hart := h <| sstatus := x |>.

Definition r_sip (h : hart) : Z := sip h.

Definition w_sip (x : Z) (h : hart) : hart := h <| sip := x |>.

Definition r_sie (h : hart) : Z := sie h.

Definition w_sie (x : Z) (h : hart) : hart := h <| sie := x |>.

Definition r_mie (h : hart) : Z := mie h.

Definition w_mie (x : Z) (h : hart) : hart := h <| mie := x |>.

Definition w_sepc (x : Z) (h : hart) : hart := h <| sepc := x |>.

Definition r_sepc (h : hart) : Z := sepc h.

Definition w_medeleg (x : Z) (h : hart) : hart := h <| medeleg := x |>.

Definition w_mideleg (x : Z) (h : hart) : hart := h <| mideleg := x |>.

Definition w_stvec (x : Z) (h : hart) : hart := h <| stvec := x |>.

Definition w_mtvec (x : Z) (h : hart) : hart := h <| mtvec := x |>.

Definition w_pmpcfg0 (x : Z) (h : hart) : hart := h <| pmpcfg0 := x |>.

Definition w_pmpaddr0 (x : Z) (h : hart) : hart := h <| pmpaddr0 := x |>.

Definition w_satp (x : Z) (h : hart) : hart := h <| satp := x |>.

Definition r_satp (h : hart) : Z := satp h.

Definition w_mscratch (x : Z) (h : hart) : hart := h <| mscratch := x |>.

Definition r_scause (h : hart) : Z := scause h.

Definition r_stval (h : hart) : Z := stval h.

Definition r_tp (h : hart) : Z := tp h.

Definition w_tp (x : Z) (h : hart) : hart := h <| tp := x |>.

Definition intr_on (h : hart) : hart := w_sstatus (Z.lor (r_sstatus h) SSTATUS_SIE) h.

Definition intr_off (h : hart) : hart :=
  w_sstatus (Z.land (r_sstatus h) (Z.lnot SSTATUS_SIE)) h.

Definition intr_get (h : hart) : bool := ctrue (Z.land (r_sstatus h) SSTATUS_SIE).

(** ** Facts *)

Lemma testbit_pow2 (k i : Z) : 0 <= k -> Z.testbit (Z.shiftl 1 k) i = (k =? i).
Proof. intros H. rewrite Z.shiftl_1_l. by apply Z.pow2_bits_eqb. Qed.

Lemma intr_get_bit h : intr_get h = Z.testbit (sstatus h) 1.
Proof.
  unfold intr_get, ctrue, r_sstatus, SSTATUS_SIE.
  destruct (Z.testbit (sstatus h) 1) eqn:E.
  - rewrite negb_true_iff, Z.eqb_neq. intros H.
    assert (Z.testbit (Z.land (sstatus h) (Z.shiftl 1 1)) 1 = true) as Hb
      by by rewrite Z.land_spec, E.
    by rewrite H, Z.bits_0 in Hb.
  - rewrite negb_false_iff, Z.eqb_eq. apply Z.bits_inj'. intros i Hi.
    rewrite Z.land_spec, testbit_pow2, Z.bits_0 by lia.
    destruct (1 =? i) eqn:Ei; [|by rewrite andb_false_r].
    apply Z.eqb_eq in Ei. subst i. by rewrite E.
Qed.

Lemma sstatus_intr_off h i :
  0 <= i -> Z.testbit (sstatus (intr_off h)) i = Z.testbit (sstatus h) i && negb (1 =? i).
Proof.
  intros Hi. unfold intr_off, w_sstatus, r_sstatus, SSTATUS_SIE. simpl sstatus.
  by rewrite Z.land_spec, Z.lnot_spec, testbit_pow2 by lia.
Qed.

Lemma sstatus_intr_on h i :
  Z.testbit (sstatus (intr_on h)) i = Z.testbit (sstatus h) i || (1 =? i).
Proof.
  unfold intr_on, w_sstatus, r_sstatus, SSTATUS_SIE. simpl sstatus.
  by rewrite Z.lor_spec, testbit_pow2 by lia.
Qed.

Lemma intr_get_off h : intr_get (intr_off h) = false.
Proof. rewrite intr_get_bit, sstatus_intr_off by lia. apply andb_false_r. Qed.

Lemma intr_get_on h : intr_get (intr_on h) = true.
Proof. rewrite intr_get_bit, sstatus_intr_on. apply orb_true_r. Qed.

Lemma hart_eq h1 h2 :
  sstatus h1 = sstatus h2 ->
  h1 <| sstatus := 0 |> = h2 <| sstatus := 0 |> -> h1 = h2.
Proof. destruct h1, h2. unfold upd. simpl. intros -> [= ]. by subst. Qed.

Lemma intr_off_id h : intr_get h = false -> intr_off h = h.
Proof.
  rewrite intr_get_bit. intros E. apply hart_eq; [|done].
  apply Z.bits_inj'. intros i Hi. rewrite sstatus_intr_off by done.
  destruct (1 =? i) eqn:Ei; [|by rewrite andb_true_r].
  apply Z.eqb_eq in Ei. subst i. by rewrite E.
Qed.

Lemma intr_on_off h : intr_get h = true -> intr_on (intr_off h) = h.
Proof.
  rewrite intr_get_bit. intros E. apply hart_eq; [|done].
  apply Z.bits_inj'. intros i Hi. rewrite sstatus_intr_on, sstatus_intr_off by done.
  destruct (1 =? i) eqn:Ei; [|by rewrite andb_true_r, orb_false_r].
  apply Z.eqb_eq in Ei. subst i. by rewrite E.
Qed.

Lemma intr_off_off h : intr_off (intr_off h) = intr_off h.
Proof. apply intr_off_id, intr_get_off. Qed.

Lemma tp_intr_off h : tp (intr_off h) = tp h.
Proof. done. Qed.

Lemma tp_intr_on h : tp (intr_on h) = tp h.
Proof. done. Qed.

(** Page rounding. *)

Lemma PGROUNDDOWN_eq a : PGROUNDDOWN a = a / 4096 * 4096.
Proof.
  unfold PGROUNDDOWN, PGSIZE. change (4096 - 1) with (Z.ones 12).
  rewrite <- Z.ldiff_land, Z.ldiff_ones_r, Z.shiftl_mul_pow2, Z.shiftr_div_pow2 by lia.
  done.
Qed.

Lemma PGROUNDUP_eq sz :
  0 <= sz <= 2 ^ 64 - 4096 -> PGROUNDUP sz = (sz + 4095) / 4096 * 4096.
Proof.
  intros H. unfold PGROUNDUP. rewrite u64_small by (unfold PGSIZE; lia).
  change (Z.land ?x _) with (PGROUNDDOWN x). rewrite PGROUNDDOWN_eq. unfold PGSIZE.
  f_equal. f_equal. lia.
Qed.

Lemma PGROUNDDOWN_aligned a : PGROUNDDOWN a mod 4096 = 0.
Proof. rewrite PGROUNDDOWN_eq. apply Z.mod_mul. lia. Qed.

Lemma PGROUNDDOWN_bounds a : PGROUNDDOWN a <= a < PGROUNDDOWN a + 4096.
Proof.
  rewrite PGROUNDDOWN_eq. pose proof (Z.div_mod a 4096). pose proof (Z.mod_pos_bound a 4096). lia.
Qed.

Lemma PGROUNDDOWN_id a : a mod 4096 = 0 -> PGROUNDDOWN a = a.
Proof. rewrite PGROUNDDOWN_eq. pose proof (Z.div_mod a 4096). lia. Qed.

(** Virtual address fields. *)

Lemma PX_eq l va : 0 <= l -> PX l va = va / 2 ^ (12 + 9 * l) mod 512.
Proof.
  intros Hl. unfold PX, PXSHIFT, PXMASK, PGSHIFT. change 0x1FF with (Z.ones 9).
  rewrite Z.land_ones, Z.shiftr_div_pow2 by lia. done.
Qed.

Lemma PX_range l va : 0 <= l -> 0 <= PX l va < 512.
Proof. intros. rewrite PX_eq by done. apply Z.mod_pos_bound. lia. Qed.

Lemma va_fields va :
  0 <= va < 2 ^ 39 ->
  va = PX 2 va * 2 ^ 30 + PX 1 va * 2 ^ 21 + PX 0 va * 2 ^ 12 + va mod 2 ^ 12.
Proof.
  intros H. rewrite !PX_eq by lia. simpl Z.add. simpl Z.mul.
  Z.div_mod_to_equations. lia.
Qed.

(** Page-table entries. *)

Lemma PA2PTE_eq pa :
  0 <= pa < 2 ^ 56 -> pa mod 4096 = 0 -> PA2PTE pa = pa / 4096 * 1024.
Proof.
  intros H Ha. unfold PA2PTE.
  rewrite Z.shiftl_mul_pow2, Z.shiftr_div_pow2 by lia.
  rewrite u64_small; [done|]. Z.div_mod_to_equations. lia.
Qed.

Lemma lor_low a f n : 0 <= n -> 0 <= f < 2 ^ n -> Z.lor (a * 2 ^ n) f = a * 2 ^ n + f.
Proof.
  intros Hn Hf. rewrite <- Z.add_lor_land.
  assert (Z.land (a * 2 ^ n) f = 0) as ->; [|lia].
  apply Z.bits_inj'. intros i Hi. rewrite Z.land_spec, Z.bits_0.
  destruct (Z.lt_ge_cases i n).
  - by rewrite Z.mul_pow2_bits_low.
  - rewrite <- (Z.mod_small f (2 ^ n)), Z.mod_pow2_bits_high by lia. apply andb_false_r.
Qed.

Lemma PTE2PA_make pa f :
  0 <= pa < 2 ^ 56 -> pa mod 4096 = 0 -> 0 <= f < 1024 ->
  PTE2PA (Z.lor (PA2PTE pa) f) = pa.
Proof.
  intros H Ha Hf. rewrite PA2PTE_eq by done. rewrite (lor_low _ _ 10) by lia.
  unfold PTE2PA. rewrite Z.shiftl_mul_pow2, Z.shiftr_div_pow2 by lia.
  rewrite u64_small; Z.div_mod_to_equations; lia.
Qed.

Lemma PTE_FLAGS_make pa f :
  0 <= pa < 2 ^ 56 -> pa mod 4096 = 0 -> 0 <= f < 1024 ->
  PTE_FLAGS (Z.lor (PA2PTE pa) f) = f.
Proof.
  intros H Ha Hf. rewrite PA2PTE_eq by done. rewrite (lor_low _ _ 10) by lia.
  unfold PTE_FLAGS. change 0x3FF with (Z.ones 10). rewrite Z.land_ones by lia.
  Z.div_mod_to_equations. lia.
Qed.

Lemma pte_make_range pa f :
  0 <= pa < 2 ^ 56 -> pa mod 4096 = 0 -> 0 <= f < 1024 ->
  0 <= Z.lor (PA2PTE pa) f < 2 ^ 64.
Proof.
  intros H Ha Hf. rewrite PA2PTE_eq by done. rewrite (lor_low _ _ 10) by lia.
  Z.div_mod_to_equations. lia.
Qed.
