(* ===== verification/Machine.v ===== *)
(** * The machine state

    What the low-level kernel code works on: the executing hart's registers
    and the per-CPU records ([struct cpu] of [kernel/proc.h]), the spin locks
    ([struct spinlock] of [kernel/spinlock.h]), physical memory, and the
    page allocator's free list ([kmem] of [kernel/kalloc.c]). *)

From S2P Require Import Prelude Riscv.

(** The spin locks of the kernel, by the object that embeds them: C code
    names a lock by its address, the model by this identity. *)
Inductive lockid :=
| kmem_lock | pid_lock | wait_lock | tickslock | bcache_lock | itable_lock
| ftable_lock | log_lock | cons_lock | uart_tx_lock | pr_lock | vdisk_lock
| proc_lock (i : nat)
| pipe_lock (pi : Z)
| buf_lk (i : nat)
| inode_lk (i : nat).

#[export] Instance lockid_eq_dec : EqDecision lockid.
Proof. solve_decision. Defined.

Definition lockid_code (l : lockid) : nat * Z :=
  match l with
  | kmem_lock => (0%nat, 0) | pid_lock => (1%nat, 0) | wait_lock => (2%nat, 0)
  | tickslock => (3%nat, 0) | bcache_lock => (4%nat, 0) | itable_lock => (5%nat, 0)
  | ftable_lock => (6%nat, 0) | log_lock => (7%nat, 0) | cons_lock => (8%nat, 0)
  | uart_tx_lock => (9%nat, 0) | pr_lock => (10%nat, 0) | vdisk_lock => (11%nat, 0)
  | proc_lock i => (12%nat, Z.of_nat i) | pipe_lock pi => (13%nat, pi)
  | buf_lk i => (14%nat, Z.of_nat i) | inode_lk i => (15%nat, Z.of_nat i)
  end.

Definition lockid_decode (c : nat * Z) : lockid :=
  match c with
  | (0%nat, _) => kmem_lock | (1%nat, _) => pid_lock | (2%nat, _) => wait_lock
  | (3%nat, _) => tickslock | (4%nat, _) => bcache_lock | (5%nat, _) => itable_lock
  | (6%nat, _) => ftable_lock | (7%nat, _) => log_lock | (8%nat, _) => cons_lock
  | (9%nat, _) => uart_tx_lock | (10%nat, _) => pr_lock | (11%nat, _) => vdisk_lock
  | (12%nat, i) => proc_lock (Z.to_nat i) | (13%nat, pi) => pipe_lock pi
  | (14%nat, i) => buf_lk (Z.to_nat i) | (_, i) => inode_lk (Z.to_nat i)
  end.

#[export] Instance lockid_countable : Countable lockid.
Proof.
  apply (inj_countable' lockid_code lockid_decode).
  intros []; simpl; rewrite ?Nat2Z.id; done.
Defined.

(** [struct spinlock]; [lk_cpu] is the index of the holding CPU in [cpus]. *)
Record spinlock := mkspinlock { locked : Z; lk_name : string; lk_cpu : option Z }.

#[export] Instance eta_spinlock : Eta spinlock := fun l =>
  mkspinlock (locked l) (lk_name l) (lk_cpu l).

(** [struct context]: [ra], [sp] and the callee-saved [s0..s11]. *)
Record context := mkcontext { ctx_ra : Z; ctx_sp : Z; ctx_s : list Z }.

#[export] Instance eta_context : Eta context := fun c =>
  mkcontext (ctx_ra c) (ctx_sp c) (ctx_s c).

(** [struct cpu]; [c_proc] is the index of the running process in [proc]. *)
Record cpu := mkcpu {
  c_proc : option nat; c_context : context; c_noff : Z; c_intena : Z }.

#[export] Instance eta_cpu : Eta cpu := fun c =>
  mkcpu (c_proc c) (c_context c) (c_noff c) (c_intena c).

(** The executing hart and the table [cpus]. *)
Record core := mkcore { c_hart : hart; c_cpus : list cpu }.

#[export] Instance eta_core : Eta core := fun c => mkcore (c_hart c) (c_cpus c).

Record machine := mkmachine {
  m_core : core;
  m_locks : gmap lockid spinlock;
  m_mem : gmap Z Z;               (* physical memory, by byte address *)
  m_freelist : Z                  (* kmem.freelist *) }.

#[export] Instance eta_machine : Eta machine := fun m =>
  mkmachine (m_core m) (m_locks m) (m_mem m) (m_freelist m).

(** Symbols the linker script and the assembly files define: addresses the
    C code refers to with [extern char x[]] or takes of assembly routines. *)
Class Linker := {
  end_ : Z;            (* first address after the kernel image *)
  etext : Z;           (* end of kernel text *)
  trampoline : Z;      (* the trampoline page *)
  uservec : Z;
  userret : Z;
  kernelvec : Z;
  timervec : Z;
  usertrap_addr : Z;   (* address of usertrap() *)
  forkret_addr : Z;    (* address of forkret() *)
  main_addr : Z        (* address of main() *)
}.

(** Accessors used by the translation of C statements. *)
Definition get_hart : M machine hart := gets (fun m => c_hart (m_core m)).

Definition set_hart (f : hart -> hart) : M machine unit :=
  modify (fun m => m <| m_core ::= fun c => c <| c_hart ::= f |> |>).

(** [cpus[id]], undefined outside the array. *)
Definition get_cpu (id : Z) : M machine cpu := fun m =>
  if id <? 0 then Undef "cpus index" m else
  match c_cpus (m_core m) !! Z.to_nat id with
  | Some c => Ok c m
  | None => Undef "cpus index" m
  end.

Definition set_cpu (id : Z) (c : cpu) : M machine unit :=
  modify (fun m => m <| m_core ::= fun co => co <| c_cpus ::= fun l => <[Z.to_nat id := c]> l |> |>).

Definition zero_spinlock : spinlock := mkspinlock 0 "" None.

Definition get_lock (lk : lockid) : M machine spinlock :=
  gets (fun m => default zero_spinlock (m_locks m !! lk)).

Definition set_lock (lk : lockid) (l : spinlock) : M machine unit :=
  modify (fun m => m <| m_locks ::= fun t => <[lk := l]> t |>).
