(* ===== verification/Spinlock.v ===== *)
(** * Spin locks ([kernel/spinlock.c]) and the current CPU ([kernel/proc.c])

    [acquire] and [release] with interrupt nesting, as the code runs them on
    one hart; and the interleaving of several harts at the granularity of
    the shared-memory accesses, with mutual exclusion. *)

From S2P Require Import Prelude Riscv Machine.

Definition cpuid : M machine Z := h <- get_hart ;; ret (s32 (r_tp h)).

(** [&cpus[id]], as the index [id]. *)
Definition mycpu : M machine Z := cpuid.

Definition push_off : M machine unit :=
  h <- get_hart ;;
  let old := intr_get h in
  set_hart intr_off ;;
  id <- mycpu ;;
  c <- get_cpu id ;;
  when (c_noff c =? 0) (set_cpu id (c <| c_intena := Z.b2z old |>)) ;;
  c <- get_cpu id ;;
  set_cpu id (c <| c_noff ::= fun n => n + 1 |>).

Definition pop_off : M machine unit :=
  id <- mycpu ;;
  h <- get_hart ;;
  if intr_get h then panic "pop_off - interruptible" else
  c <- get_cpu id ;;
  if c_noff c <? 1 then panic "pop_off" else
  set_cpu id (c <| c_noff ::= fun n => n - 1 |>) ;;
  c <- get_cpu id ;;
  when ((c_noff c =? 0) && ctrue (c_intena c)) (set_hart intr_on).

Definition initlock (lk : lockid) (name : string) : M machine unit :=
  set_lock lk (mkspinlock 0 name None).

Definition holding (lk : lockid) : M machine bool :=
  l <- get_lock lk ;;
  id <- mycpu ;;
  ret (ctrue (locked l) && bool_decide (lk_cpu l = Some id)).

(** The atomic swap leaves 1 in [locked] also when the lock was taken: then
    the hart spins until another hart releases it. *)
Definition acquire (lk : lockid) : M machine unit :=
  push_off ;;
  held <- holding lk ;;
  if held then panic "acquire" else
  l <- get_lock lk ;;
  set_lock lk (l <| locked := 1 |>) ;;
  if ctrue (locked l) then spin else
  id <- mycpu ;;
  l <- get_lock lk ;;
  set_lock lk (l <| lk_cpu := Some id |>).

Definition release (lk : lockid) : M machine unit :=
  held <- holding lk ;;
  if negb held then panic "release" else
  l <- get_lock lk ;;
  set_lock lk (l <| lk_cpu := None |>) ;;
  l <- get_lock lk ;;
  set_lock lk (l <| locked := 0 |>) ;;
  pop_off.

Definition myproc : M machine (option nat) :=
  push_off ;;
  id <- mycpu ;;
  c <- get_cpu id ;;
  let p := c_proc c in
  pop_off ;;
  ret p.

(** ** Specification of the interrupt nesting *)

Definition core_id (c : core) : Z := tp (c_hart c).

Definition core_cpu (c : core) : option cpu := c_cpus c !! Z.to_nat (core_id c).

(** A core between kernel instructions: the hart number is valid, and
    interrupts are off while the nesting depth is positive. *)
Definition core_wf (c : core) : Prop :=
  0 <= core_id c < NCPU /\
  exists u, core_cpu c = Some u /\ 0 <= c_noff u /\ (0 < c_noff u -> intr_get (c_hart c) = false).

Definition upd_cpu (f : cpu -> cpu) (c : core) : core :=
  c <| c_cpus ::= fun l => alter f (Z.to_nat (core_id c)) l |>.

(** The effect of [push_off], of a matched [push_off]/[pop_off] pair, and
    the cores on which such a pair has no effect at all. *)
Definition pushed (c : core) : core :=
  (upd_cpu (fun u => mkcpu (c_proc u) (c_context u) (c_noff u + 1)
              (if c_noff u =? 0 then Z.b2z (intr_get (c_hart c)) else c_intena u)) c)
    <| c_hart ::= intr_off |>.

Definition settle (c : core) : core :=
  upd_cpu (fun u => if c_noff u =? 0 then u <| c_intena := Z.b2z (intr_get (c_hart c)) |> else u) c.

Definition settled (c : core) : Prop :=
  core_wf c /\
  forall u, core_cpu c = Some u -> c_noff u = 0 -> c_intena u = Z.b2z (intr_get (c_hart c)).

Definition lock_free (lk : lockid) (m : machine) : Prop :=
  exists name, m_locks m !! lk = Some (mkspinlock 0 name None).

Definition lock_held (lk : lockid) (m : machine) : Prop :=
  exists name, m_locks m !! lk = Some (mkspinlock 1 name (Some (core_id (m_core m)))).

(** ** Several harts

    The same lock used by several harts, one shared-memory access of
    [acquire] and [release] per step. [Outside]: not in the lock code;
    [Trying]: past the [holding] check, in the swap loop; [Taken]: the swap
    returned 0, [lk->cpu] not yet set; [Inside]: the critical section;
    [Leaving]: [lk->cpu] cleared, [locked] not yet. *)

Inductive lock_pc := Outside | Trying | Taken | Inside | Leaving.

#[export] Instance lock_pc_eq_dec : EqDecision lock_pc.
Proof. solve_decision. Defined.

Record smp := mksmp { s_pc : list lock_pc; s_lock : spinlock }.

Definition smp_holding (l : spinlock) (i : nat) : bool :=
  ctrue (locked l) && bool_decide (lk_cpu l = Some (Z.of_nat i)).

Inductive smp_step : smp -> smp -> Prop :=
| step_try pcs l i :
    pcs !! i = Some Outside -> smp_holding l i = false ->
    smp_step (mksmp pcs l) (mksmp (<[i := Trying]> pcs) l)
| step_swap_got pcs l i :
    pcs !! i = Some Trying -> ctrue (locked l) = false ->
    smp_step (mksmp pcs l) (mksmp (<[i := Taken]> pcs) (l <| locked := 1 |>))
| step_swap_spin pcs l i :
    pcs !! i = Some Trying -> ctrue (locked l) = true ->
    smp_step (mksmp pcs l) (mksmp pcs (l <| locked := 1 |>))
| step_set_cpu pcs l i :
    pcs !! i = Some Taken ->
    smp_step (mksmp pcs l) (mksmp (<[i := Inside]> pcs) (l <| lk_cpu := Some (Z.of_nat i) |>))
| step_clear_cpu pcs l i :
    pcs !! i = Some Inside -> smp_holding l i = true ->
    smp_step (mksmp pcs l) (mksmp (<[i := Leaving]> pcs) (l <| lk_cpu := None |>))
| step_unlock pcs l i :
    pcs !! i = Some Leaving ->
    smp_step (mksmp pcs l) (mksmp (<[i := Outside]> pcs) (l <| locked := 0 |>)).

Definition smp_init (n : nat) (name : string) : smp :=
  mksmp (replicate n Outside) (mkspinlock 0 name None).

Definition owns (p : lock_pc) : bool :=
  match p with Taken | Inside | Leaving => true | _ => false end.

(** The lock word tells whether a hart owns the lock, and the owner is
    unique; [lk->cpu] names it exactly while it is in its critical section. *)
Definition smp_inv (s : smp) : Prop :=
  (locked (s_lock s) = 0 /\ lk_cpu (s_lock s) = None /\
   forall j q, s_pc s !! j = Some q -> owns q = false) \/
  (locked (s_lock s) = 1 /\
   exists i p, s_pc s !! i = Some p /\ owns p = true /\
     (forall j q, s_pc s !! j = Some q -> owns q = true -> j = i) /\
     lk_cpu (s_lock s) = if decide (p = Inside) then Some (Z.of_nat i) else None).

(** ** Lemmas *)

Lemma core_eq c1 c2 : c_hart c1 = c_hart c2 -> c_cpus c1 = c_cpus c2 -> c1 = c2.
Proof. destruct c1, c2. simpl. congruence. Qed.

Lemma machine_eq m1 m2 :
  m_core m1 = m_core m2 -> m_locks m1 = m_locks m2 ->
  m_mem m1 = m_mem m2 -> m_freelist m1 = m_freelist m2 -> m1 = m2.
Proof. destruct m1, m2. simpl. congruence. Qed.

(** Equality of two results with the machine states compared by field. *)
Ltac ok_eq := apply (f_equal2 Ok); [done|apply machine_eq; cbn; try done].

Lemma core_id_pushed c : core_id (pushed c) = core_id c.
Proof. done. Qed.

Lemma cpuid_run m : 0 <= core_id (m_core m) < NCPU -> cpuid m = Ok (core_id (m_core m)) m.
Proof.
  intros H. unfold cpuid, get_hart, core_id, NCPU in *. mrun. unfold ret, r_tp.
  by rewrite s32_small by lia.
Qed.

Lemma mycpu_run m : core_wf (m_core m) -> mycpu m = Ok (core_id (m_core m)) m.
Proof. intros [H _]. by apply cpuid_run. Qed.

Lemma get_cpu_run m id u :
  0 <= id -> c_cpus (m_core m) !! Z.to_nat id = Some u -> get_cpu id m = Ok u m.
Proof. intros H Hu. unfold get_cpu. destruct (Z.ltb_spec id 0); [lia|]. by rewrite Hu. Qed.

Lemma core_cpu_pushed c u :
  core_cpu c = Some u ->
  core_cpu (pushed c) =
    Some (mkcpu (c_proc u) (c_context u) (c_noff u + 1)
            (if c_noff u =? 0 then Z.b2z (intr_get (c_hart c)) else c_intena u)).
Proof.
  intros H. unfold core_cpu, pushed, upd_cpu, core_id in *. simpl.
  by rewrite list_lookup_alter_eq, H.
Qed.

Lemma core_wf_pushed c : core_wf c -> core_wf (pushed c).
Proof.
  intros [Hid (u & Hu & Hn & _)]. split; [done|].
  eexists. rewrite (core_cpu_pushed _ _ Hu). split; [done|]. simpl.
  split; [lia|]. intros _. apply intr_get_off.
Qed.

Lemma push_off_run m :
  core_wf (m_core m) -> push_off m = Ok tt (m <| m_core := pushed (m_core m) |>).
Proof.
  intros [Hid (u & Hu & Hn & Hi)]. unfold core_cpu in Hu. unfold push_off, get_hart, set_hart, mycpu.
  mrun. erewrite bind_ok by (apply cpuid_run; done).
  change (core_id _) with (core_id (m_core m)).
  erewrite bind_ok by (apply get_cpu_run; [lia|exact Hu]).
  assert (forall x, <[Z.to_nat (core_id (m_core m)) := x]> (c_cpus (m_core m))
            !! Z.to_nat (core_id (m_core m)) = Some x) as Hins.
  { intros x. apply list_lookup_insert_eq. by eapply lookup_lt_Some. }
  unfold when. destruct (c_noff u =? 0) eqn:E; unfold set_cpu; mrun.
  - erewrite bind_ok by (apply get_cpu_run; [apply Hid|apply Hins]).
    unfold modify. f_equal. apply machine_eq; [|done..]. apply core_eq; [done|].
    simpl. rewrite list_insert_insert_eq. erewrite list_alter_insert by exact Hu.
    by rewrite E.
  - erewrite bind_ok by (apply get_cpu_run; [apply Hid|exact Hu]).
    unfold modify. f_equal. apply machine_eq; [|done..]. apply core_eq; [done|].
    simpl. erewrite list_alter_insert by exact Hu. by rewrite E.
Qed.

Lemma pop_off_run m c :
  core_wf c -> m_core m = pushed c -> pop_off m = Ok tt (m <| m_core := settle c |>).
Proof.
  intros Hwf Hm. pose proof Hwf as [Hid (u & Hu & Hn & Hi)].
  unfold pop_off. erewrite bind_ok by (apply mycpu_run; rewrite Hm; by apply core_wf_pushed).
  unfold get_hart. mrun. rewrite Hm.
  change (c_hart (pushed c)) with (intr_off (c_hart c)). rewrite intr_get_off.
  erewrite bind_ok by (apply get_cpu_run; [rewrite core_id_pushed; lia|];
                       rewrite Hm; apply (core_cpu_pushed _ _ Hu)).
  cbn [c_noff]. destruct (Z.ltb_spec (c_noff u + 1) 1); [lia|].
  rewrite core_id_pushed. unfold set_cpu. mrun.
  erewrite bind_ok.
  2: { apply get_cpu_run; [lia|]. simpl. rewrite Hm. apply list_lookup_insert_eq.
       apply (lookup_lt_Some _ _ _ (core_cpu_pushed _ _ Hu)). }
  cbn [c_noff c_intena upd]. replace (c_noff u + 1 - 1) with (c_noff u) by lia.
  unfold core_cpu in Hu.
  unfold when, settle. destruct (c_noff u =? 0) eqn:E; simpl.
  - destruct (intr_get (c_hart c)) eqn:Eg; simpl; unfold set_hart, modify, ret; f_equal;
      (apply machine_eq; [|done..]); apply core_eq; cbn; rewrite ?Hm; cbn.
    + by apply intr_on_off.
    + unfold upd_cpu. simpl. erewrite !list_alter_insert by exact Hu.
      rewrite list_insert_insert_eq, E. f_equal. unfold upd; simpl. f_equal; lia.
    + by apply intr_off_id.
    + unfold upd_cpu. simpl. erewrite !list_alter_insert by exact Hu.
      rewrite list_insert_insert_eq, E. f_equal. unfold upd; simpl. f_equal; lia.
  - apply Z.eqb_neq in E. unfold ret. f_equal. apply machine_eq; [|done..].
    apply core_eq; cbn; rewrite ?Hm; cbn.
    + apply intr_off_id, Hi. lia.
    + unfold upd_cpu. simpl. erewrite !list_alter_insert by exact Hu.
      rewrite list_insert_insert_eq. destruct (Z.eqb_spec (c_noff u) 0); [lia|].
      f_equal. destruct u. unfold upd; simpl. f_equal. lia.
Qed.

Lemma core_cpu_settle c u :
  core_cpu c = Some u ->
  core_cpu (settle c) =
    Some (if c_noff u =? 0 then u <| c_intena := Z.b2z (intr_get (c_hart c)) |> else u).
Proof.
  intros H. unfold core_cpu, settle, upd_cpu, core_id in *. cbn.
  by rewrite list_lookup_alter_eq, H.
Qed.

Lemma settled_settle c : core_wf c -> settled (settle c).
Proof.
  intros [Hid (u & Hu & Hn & Hi)]. split; [split; [done|]|].
  - eexists. rewrite (core_cpu_settle _ _ Hu). split; [done|].
    destruct (c_noff u =? 0); done.
  - intros u'. rewrite (core_cpu_settle _ _ Hu). intros [= <-].
    destruct (Z.eqb_spec (c_noff u) 0); done.
Qed.

Lemma settle_id c : settled c -> settle c = c.
Proof.
  intros [[Hid (u & Hu & Hn & Hi)] Hs]. apply core_eq; [done|]. cbn.
  unfold core_cpu in *. erewrite list_alter_insert by exact Hu.
  apply list_insert_id. rewrite Hu. f_equal.
  destruct (Z.eqb_spec (c_noff u) 0) as [E|]; [|done].
  specialize (Hs u Hu E). destruct u. cbn in *. by rewrite <- Hs.
Qed.

Lemma settled_wf c : settled c -> core_wf c.
Proof. by intros [H _]. Qed.

Lemma settled_pushed c : core_wf c -> settled (pushed c).
Proof.
  intros Hwf. split; [by apply core_wf_pushed|].
  destruct Hwf as [Hid (u & Hu & Hn & _)]. intros u'. rewrite (core_cpu_pushed _ _ Hu).
  intros [= <-] E. cbn in E. lia.
Qed.

Lemma lock_free_get lk m :
  lock_free lk m ->
  exists name, m_locks m !! lk = Some (mkspinlock 0 name None) /\
    get_lock lk m = Ok (mkspinlock 0 name None) m.
Proof. intros [name H]. exists name. unfold get_lock, gets. by rewrite H. Qed.

(** The state in which the body of a critical section runs. *)
Definition locking (lk : lockid) (m : machine) : machine :=
  m <| m_core := pushed (m_core m) |>
    <| m_locks ::= fun t =>
         <[lk := mkspinlock 1 (lk_name (default zero_spinlock (t !! lk)))
                   (Some (core_id (m_core m)))]> t |>.

Lemma lock_held_locking lk m : lock_held lk (locking lk m).
Proof. eexists. cbn. by rewrite lookup_insert_eq. Qed.

Lemma lock_free_locking lk lk' m : lk <> lk' -> lock_free lk' m -> lock_free lk' (locking lk m).
Proof. intros Hne [name H]. exists name. cbn. by rewrite lookup_insert_ne. Qed.

Lemma holding_run lk m b :
  core_wf (m_core m) ->
  ctrue (locked (default zero_spinlock (m_locks m !! lk))) &&
    bool_decide (lk_cpu (default zero_spinlock (m_locks m !! lk)) = Some (core_id (m_core m))) = b ->
  holding lk m = Ok b m.
Proof.
  intros Hwf Hb. unfold holding, get_lock. mrun.
  erewrite bind_ok by by apply mycpu_run. unfold ret. by rewrite Hb.
Qed.

Lemma acquire_run lk m :
  core_wf (m_core m) -> lock_free lk m -> acquire lk m = Ok tt (locking lk m).
Proof.
  intros Hwf [name Hl]. unfold acquire.
  erewrite bind_ok by by apply push_off_run.
  erewrite bind_ok.
  2: { apply (holding_run _ _ false); [by apply core_wf_pushed|]. cbn. by rewrite Hl. }
  cbv iota. unfold get_lock, set_lock. mrun. cbn. rewrite Hl. cbn.
  erewrite bind_ok by (apply mycpu_run; cbn; by apply core_wf_pushed).
  mrun. unfold modify. f_equal. apply machine_eq; [done| |done..].
  cbn. rewrite lookup_insert_eq, Hl. cbn. by rewrite insert_insert_eq.
Qed.

Lemma acquire_deadlock lk m :
  core_wf (m_core m) -> lock_held lk m ->
  acquire lk m = Panic "acquire" (m <| m_core := pushed (m_core m) |>).
Proof.
  intros Hwf [name Hl]. unfold acquire.
  erewrite bind_ok by by apply push_off_run.
  erewrite bind_ok; [|apply (holding_run _ _ true); [by apply core_wf_pushed|]].
  { done. }
  cbn. rewrite Hl. cbn. by rewrite bool_decide_eq_true_2.
Qed.

(** [release] undoes [locking], whatever the critical section did to the
    rest of the machine. *)
Lemma release_run lk m m0 :
  core_wf (m_core m0) -> m_core m = pushed (m_core m0) -> lock_held lk m ->
  release lk m =
    Ok tt (m <| m_core := settle (m_core m0) |>
             <| m_locks ::= fun t =>
                  <[lk := mkspinlock 0 (lk_name (default zero_spinlock (t !! lk))) None]> t |>).
Proof.
  intros Hwf Hc [name Hl]. unfold release.
  erewrite bind_ok.
  2: { apply (holding_run _ _ true); [rewrite Hc; by apply core_wf_pushed|].
       rewrite Hl. cbn. by rewrite bool_decide_eq_true_2. }
  cbn [negb]. unfold get_lock, set_lock. mrun. cbn.
  erewrite pop_off_run; [|exact Hwf|done].
  f_equal. apply machine_eq; [done| |done..]. cbn.
  rewrite lookup_insert_eq, Hl. cbn. by rewrite insert_insert_eq.
Qed.

Lemma myproc_run m u :
  core_wf (m_core m) -> core_cpu (m_core m) = Some u ->
  myproc m = Ok (c_proc u) (m <| m_core ::= settle |>).
Proof.
  intros Hwf Hu. unfold myproc. erewrite bind_ok by by apply push_off_run.
  erewrite bind_ok by (apply mycpu_run; cbn; by apply core_wf_pushed).
  erewrite bind_ok.
  2: { apply get_cpu_run; [apply Hwf|]. apply (core_cpu_pushed _ _ Hu). }
  cbn. by erewrite bind_ok by (eapply pop_off_run; [exact Hwf|done]).
Qed.

Lemma smp_inv_init n name : smp_inv (smp_init n name).
Proof. left. split_and!; [done..|]. intros j q [-> _]%lookup_replicate. done. Qed.

(** A hart that is not the owner may move between non-owning points. *)
Lemma smp_inv_outsider pcs l i p q :
  smp_inv (mksmp pcs l) -> pcs !! i = Some p -> owns p = false -> owns q = false ->
  smp_inv (mksmp (<[i := q]> pcs) l).
Proof.
  intros [(Hl & Hc & Hall)|(Hl & k & pk & Hk & Ho & Hu & Hc)] Hi Hp Hq; cbn in *.
  - left. split_and!; [done..|]. cbn. intros j r [(-> & -> & _)|[_ Hj]]%list_lookup_insert_Some; eauto.
  - right. split; [done|]. exists k, pk. cbn. assert (i <> k) as Hne by congruence.
    split_and!; [by rewrite list_lookup_insert_ne|done| |done].
    intros j r [(-> & -> & _)|[_ Hj]]%list_lookup_insert_Some; [congruence|eauto].
Qed.

(** The owner moves to another owning point, updating [lk->cpu]. *)
Lemma smp_inv_owner pcs l l' i p q :
  smp_inv (mksmp pcs l) -> pcs !! i = Some p -> owns p = true -> owns q = true ->
  locked l' = locked l ->
  lk_cpu l' = (if decide (q = Inside) then Some (Z.of_nat i) else None) ->
  smp_inv (mksmp (<[i := q]> pcs) l').
Proof.
  intros [(Hl & Hc & Hall)|(Hl & k & pk & Hk & Ho & Hu & Hc)] Hi Hp Hq El Ec; cbn in *.
  { apply Hall in Hi. congruence. }
  pose proof (Hu i p Hi Hp) as ->. right. cbn. rewrite El. split; [done|].
  exists k, q. split_and!; [|done| |done].
  - apply list_lookup_insert_eq. by eapply lookup_lt_Some.
  - intros j r [(-> & -> & _)|[_ Hj]]%list_lookup_insert_Some; eauto.
Qed.

Lemma smp_inv_step s s' : smp_inv s -> smp_step s s' -> smp_inv s'.
Proof.
  intros Hinv Hstep. destruct Hstep as [pcs l i Hi Hh|pcs l i Hi Hl|pcs l i Hi Hl|pcs l i Hi|pcs l i Hi Hh|pcs l i Hi].
  - by eapply smp_inv_outsider.
  - destruct Hinv as [(El & Hc & Hall)|(El & _)]; [|cbn in El; rewrite El in Hl; done].
    right. split; [done|]. exists i, Taken. cbn. cbn in Hc, Hall. rewrite Hc. split_and!; [|done| |done].
    + apply list_lookup_insert_eq. by eapply lookup_lt_Some.
    + intros j q [(<- & <- & _)|[_ Hj]]%list_lookup_insert_Some; [done|].
      apply Hall in Hj. congruence.
  - destruct Hinv as [(El & _)|(El & Hrest)]; [cbn in El; rewrite El in Hl; done|].
    right. done.
  - by eapply smp_inv_owner.
  - by eapply smp_inv_owner.
  - destruct Hinv as [(El & Hc & Hall)|(El & k & pk & Hk & Ho & Hu & Hc)]; cbn in *.
    { apply Hall in Hi. done. }
    pose proof (Hu i Leaving Hi eq_refl) as ->. left. cbn. split_and!; [done| |].
    + by simplify_eq.
    + intros j q [(<- & <- & _)|[Hne Hj]]%list_lookup_insert_Some; [done|].
      destruct (owns q) eqn:E; [|done]. exfalso. apply Hne. symmetry. eauto.
Qed.

Lemma smp_inv_reachable n name s : rtc smp_step (smp_init n name) s -> smp_inv s.
Proof.
  intros H. remember (smp_init n name) as s0 eqn:E.
  assert (smp_inv s0) as H0 by (subst; apply smp_inv_init). clear E.
  induction H; eauto using smp_inv_step.
Qed.

(** C31: on any number of harts and under any interleaving of the
    shared-memory accesses of [acquire] and [release], two harts never own
    the same lock, and a hart in its critical section passes the [holding]
    check of [release] (so [release] does not panic). *)
Theorem spinlock_mutual_exclusion n name s :
  rtc smp_step (smp_init n name) s ->
  (forall i j p q, s_pc s !! i = Some p -> s_pc s !! j = Some q ->
     owns p = true -> owns q = true -> i = j) /\
  (forall i, s_pc s !! i = Some Inside -> smp_holding (s_lock s) i = true).
Proof.
  intros H%smp_inv_reachable. destruct H as [(_ & _ & Hall)|(Hl & k & pk & Hk & Ho & Hu & Hc)].
  - split; [intros i j p q Hi _ Hp|intros i Hi]; apply Hall in Hi; [congruence|done].
  - split.
    + intros i j p q Hi Hj Hp Hq. rewrite (Hu i p), (Hu j q); done.
    + intros i Hi. pose proof (Hu i Inside Hi eq_refl) as ->. simplify_eq.
      unfold smp_holding. rewrite Hl, Hc. cbn. by rewrite bool_decide_eq_true_2.
Qed.

(** Releasing a lock taken in [m], whatever memory the critical section wrote. *)
Lemma release_held lk m m1 :
  core_wf (m_core m) -> lock_free lk m -> m_core m1 = pushed (m_core m) -> m_locks m1 = m_locks (locking lk m) ->
  release lk m1 = Ok tt (m1 <| m_core := settle (m_core m) |> <| m_locks := m_locks m |>).
Proof.
  intros Hwf [name Hn] Hc Hl. erewrite release_run; [|exact Hwf|exact Hc|].
  2: { destruct (lock_held_locking lk m) as [nm E]. exists nm. rewrite Hl, Hc. exact E. }
  f_equal. apply machine_eq; [done| |done..]. cbn. rewrite Hl. cbn.
  rewrite lookup_insert_eq, Hn. cbn. rewrite insert_insert_eq. by apply insert_id.
Qed.

(** On one hart, [acquire] of a free lock followed by any critical
    section that leaves the interrupt state and the lock alone, then
    [release], returns with the lock free again and the interrupt state
    restored: only [intena] is refreshed, when no lock was held before. *)
Theorem acquire_release_balanced lk (body : M machine unit) m m' :
  core_wf (m_core m) -> lock_free lk m ->
  body (locking lk m) = Ok tt m' ->
  m_core m' = m_core (locking lk m) -> m_locks m' = m_locks (locking lk m) ->
  (acquire lk ;; body ;; release lk) m =
    Ok tt (m' <| m_core := settle (m_core m) |> <| m_locks := m_locks m |>).
Proof.
  intros Hwf Hf Hb Hc Hl.
  erewrite bind_ok by by apply acquire_run. erewrite bind_ok by exact Hb. by apply release_held.
Qed.
