(* ===== verification/PhysMem.v ===== *)
(** * Physical memory and [kernel/string.c]

    Memory is a finite map from byte addresses to bytes. Multi-byte accesses
    are little-endian, as on RISC-V. [memset], [memmove] and [memcmp] are the
    loops of [kernel/string.c] on memory; the functions on C strings work on
    [char] arrays, as lists of bytes, and are [None] where the C code would
    read or write outside an array. *)

From S2P Require Import Prelude.

Definition load8 (m : gmap Z Z) (a : Z) : Z := u8 (default 0 (m !! a)).

Definition store8 (a v : Z) (m : gmap Z Z) : gmap Z Z := <[a := u8 v]> m.

Fixpoint load_le (n : nat) (m : gmap Z Z) (a : Z) : Z :=
  match n with
  | O => 0
  | S n' => load8 m a + 256 * load_le n' m (a + 1)
  end.

Fixpoint store_le (n : nat) (a v : Z) (m : gmap Z Z) : gmap Z Z :=
  match n with
  | O => m
  | S n' => store_le n' (a + 1) (v / 256) (store8 a v m)
  end.

Definition load32 (m : gmap Z Z) (a : Z) : Z := load_le 4 m a.

Definition load64 (m : gmap Z Z) (a : Z) : Z := load_le 8 m a.

Definition store32 (a v : Z) (m : gmap Z Z) : gmap Z Z := store_le 4 a v m.

Definition store64 (a v : Z) (m : gmap Z Z) : gmap Z Z := store_le 8 a v m.

(** [n] bytes from address [a]. *)
Definition read_bytes (m : gmap Z Z) (a : Z) (n : nat) : list Z :=
  (fun i => load8 m (a + Z.of_nat i)) <$> seq 0 n.

Fixpoint write_bytes (a : Z) (bs : list Z) (m : gmap Z Z) : gmap Z Z :=
  match bs with
  | [] => m
  | b :: bs' => write_bytes (a + 1) bs' (store8 a b m)
  end.

(** ** kernel/string.c on memory *)

Fixpoint memset_loop (n : nat) (i dst c : Z) (m : gmap Z Z) : gmap Z Z :=
  match n with
  | O => m
  | S n' => memset_loop n' (i + 1) dst c (store8 (dst + i) c m)
  end.

Definition memset (dst c n : Z) (m : gmap Z Z) : gmap Z Z :=
  memset_loop (Z.to_nat n) 0 dst c m.

Fixpoint memcmp_loop (n : nat) (s1 s2 : Z) (m : gmap Z Z) : Z :=
  match n with
  | O => 0
  | S n' =>
      if load8 m s1 =? load8 m s2 then memcmp_loop n' (s1 + 1) (s2 + 1) m
      else load8 m s1 - load8 m s2
  end.

Definition memcmp (v1 v2 n : Z) (m : gmap Z Z) : Z := memcmp_loop (Z.to_nat n) v1 v2 m.

Fixpoint copy_up (n : nat) (d s : Z) (m : gmap Z Z) : gmap Z Z :=
  match n with
  | O => m
  | S n' => copy_up n' (d + 1) (s + 1) (store8 d (load8 m s) m)
  end.

Fixpoint copy_down (n : nat) (d s : Z) (m : gmap Z Z) : gmap Z Z :=
  match n with
  | O => m
  | S n' => copy_down n' (d - 1) (s - 1) (store8 (d - 1) (load8 m (s - 1)) m)
  end.

Definition memmove (dst src n : Z) (m : gmap Z Z) : gmap Z Z :=
  if n =? 0 then m
  else if (src <? dst) && (dst <? src + n)
  then copy_down (Z.to_nat n) (dst + n) (src + n) m
  else copy_up (Z.to_nat n) dst src m.

Definition memcpy (dst src n : Z) (m : gmap Z Z) : gmap Z Z := memmove dst src n m.

(** ** kernel/string.c on character arrays *)

(** [strncmp(p, q, n)], reading both arrays from index [i]. *)
Fixpoint strncmp_from (i : nat) (p q : list Z) (n : nat) : option Z :=
  match n with
  | O => Some 0
  | S n' =>
      match p !! i, q !! i with
      | Some a, Some b =>
          if negb (a =? 0) && (a =? b) then strncmp_from (S i) p q n' else Some (a - b)
      | _, _ => None
      end
  end.

Definition strncmp (p q : list Z) (n : Z) : option Z := strncmp_from 0 p q (Z.to_nat n).

(** An assignment [s[i] = c] to an array. *)
Definition set_char (s : list Z) (i : nat) (c : Z) : option (list Z) :=
  if decide (i < length s)%nat then Some (<[i := c]> s) else None.

Fixpoint zero_fill (n i : nat) (s : list Z) : option (list Z) :=
  match n with
  | O => Some s
  | S n' => match set_char s i 0 with Some s' => zero_fill n' (S i) s' | None => None end
  end.

Fixpoint strncpy_from (n i : nat) (s t : list Z) : option (list Z) :=
  match n with
  | O => Some s
  | S n' =>
      match t !! i with
      | None => None
      | Some c =>
          match set_char s i c with
          | None => None
          | Some s' => if c =? 0 then zero_fill n' (S i) s' else strncpy_from n' (S i) s' t
          end
      end
  end.

Definition strncpy (s t : list Z) (n : Z) : option (list Z) := strncpy_from (Z.to_nat n) 0 s t.

(** [while(--n > 0 && ( *s++ = *t++ ) != 0); *s = 0]: [k] copies remain
    before the terminator. When a NUL was copied, [s] has moved past it. *)
Fixpoint safestrcpy_from (k i : nat) (s t : list Z) : option (list Z) :=
  match k with
  | O => set_char s i 0
  | S k' =>
      match t !! i with
      | None => None
      | Some c =>
          match set_char s i c with
          | None => None
          | Some s' => if c =? 0 then set_char s' (S i) 0 else safestrcpy_from k' (S i) s' t
          end
      end
  end.

Definition safestrcpy (s t : list Z) (n : Z) : option (list Z) :=
  if n <=? 0 then Some s else safestrcpy_from (Z.to_nat (n - 1)) 0 s t.

(** [strlen(s)]: the index of the first NUL; [None] when the array has none. *)
Fixpoint strlen (s : list Z) : option Z :=
  match s with
  | [] => None
  | c :: s' => if c =? 0 then Some 0 else option_map (fun n => n + 1) (strlen s')
  end.

(** The C string a string literal denotes, with its terminating NUL. *)
Definition chars (s : string) : list Z :=
  (fun c => Z.of_N (Ascii.N_of_ascii c)) <$> String.list_ascii_of_string s.

Definition cstr (s : string) : list Z := chars s ++ [0].

Arguments load8 m a : simpl never.
Arguments store8 a v m : simpl never.
Arguments load32 m a : simpl never.
Arguments load64 m a : simpl never.
Arguments store32 a v m : simpl never.
Arguments store64 a v m : simpl never.
Arguments memset dst c n m : simpl never.
Arguments memmove dst src n m : simpl never.
Arguments read_bytes m a n : simpl never.

(** ** Lemmas on loads and stores *)

Lemma load8_range m a : 0 <= load8 m a < 256.
Proof. apply u8_range. Qed.

Lemma u8_u8 x : u8 (u8 x) = u8 x.
Proof. apply Z.mod_mod. lia. Qed.

Lemma load8_store8_eq m a v : load8 (store8 a v m) a = u8 v.
Proof. unfold load8, store8. rewrite lookup_insert_eq. apply u8_u8. Qed.

Lemma load8_store8_ne m a b v : a <> b -> load8 (store8 a v m) b = load8 m b.
Proof. intros H. unfold load8, store8. by rewrite lookup_insert_ne. Qed.

Lemma u8_load8 m a : u8 (load8 m a) = load8 m a.
Proof. apply u8_u8. Qed.

Lemma load_le_range n m a : 0 <= load_le n m a < 256 ^ Z.of_nat n.
Proof.
  revert a. induction n as [|n IH]; intros a; cbn [load_le]; [lia|].
  rewrite Nat2Z.inj_succ, Z.pow_succ_r by lia.
  pose proof (load8_range m a). specialize (IH (a + 1)). lia.
Qed.

Lemma load64_range m a : 0 <= load64 m a < 2 ^ 64.
Proof. apply (load_le_range 8). Qed.

Lemma load32_range m a : 0 <= load32 m a < 2 ^ 32.
Proof. apply (load_le_range 4). Qed.

Lemma load_le_ext n m m' a b :
  (forall i, 0 <= i < Z.of_nat n -> load8 m (a + i) = load8 m' (b + i)) ->
  load_le n m a = load_le n m' b.
Proof.
  revert a b. induction n as [|n IH]; intros a b H; [done|]. cbn [load_le]. f_equal.
  - specialize (H 0). rewrite !Z.add_0_r in H. apply H. lia.
  - f_equal. apply IH. intros i Hi. rewrite <- !Z.add_assoc. apply H. lia.
Qed.

Lemma load8_store_le_out n m a v b :
  ~ (a <= b < a + Z.of_nat n) -> load8 (store_le n a v m) b = load8 m b.
Proof.
  revert m a v. induction n as [|n IH]; intros m a v H; [done|]. cbn [store_le].
  rewrite IH by lia. apply load8_store8_ne. lia.
Qed.

Lemma load_le_store_le n m a v : load_le n (store_le n a v m) a = v mod 256 ^ Z.of_nat n.
Proof.
  revert m a v. induction n as [|n IH]; intros m a v; [cbn; by rewrite Z.mod_1_r|].
  cbn [store_le load_le]. rewrite IH, load8_store_le_out, load8_store8_eq by lia.
  rewrite Nat2Z.inj_succ, Z.pow_succ_r by lia. unfold u8. change (2 ^ 8) with 256.
  rewrite Z.rem_mul_r by lia. done.
Qed.

Lemma load_le_store_le_out k n m a v b :
  b + Z.of_nat k <= a \/ a + Z.of_nat n <= b ->
  load_le k (store_le n a v m) b = load_le k m b.
Proof. intros H. apply load_le_ext. intros i Hi. apply load8_store_le_out. lia. Qed.

Lemma load64_store64 m a v : 0 <= v < 2 ^ 64 -> load64 (store64 a v m) a = v.
Proof. intros H. unfold load64, store64. rewrite load_le_store_le. by apply Z.mod_small. Qed.

Lemma load64_store64_out m a v b :
  b + 8 <= a \/ a + 8 <= b -> load64 (store64 a v m) b = load64 m b.
Proof. intros H. by apply load_le_store_le_out. Qed.

Lemma load8_store64_out m a v b :
  ~ (a <= b < a + 8) -> load8 (store64 a v m) b = load8 m b.
Proof. intros H. by apply load8_store_le_out. Qed.

Lemma load64_ext m m' a :
  (forall b, a <= b < a + 8 -> load8 m b = load8 m' b) -> load64 m a = load64 m' a.
Proof. intros H. apply load_le_ext. intros i Hi. apply H. lia. Qed.

(** ** [memset], [memmove] *)

Lemma load8_memset_loop n i dst c m a :
  load8 (memset_loop n i dst c m) a =
    if bool_decide (dst + i <= a < dst + i + Z.of_nat n) then u8 c else load8 m a.
Proof.
  revert i m. induction n as [|n IH]; intros i m; cbn [memset_loop].
  { rewrite bool_decide_eq_false_2 by lia. done. }
  rewrite IH. case_bool_decide as H1; case_bool_decide as H2; try lia.
  - assert (a = dst + i) as -> by lia. apply load8_store8_eq.
  - apply load8_store8_ne. lia.
Qed.

Lemma load8_memset dst c n m a :
  0 <= n ->
  load8 (memset dst c n m) a = if bool_decide (dst <= a < dst + n) then u8 c else load8 m a.
Proof.
  intros H. unfold memset. rewrite load8_memset_loop, Z.add_0_r, Z2Nat.id by lia. done.
Qed.

Lemma load64_memset_zero dst n m a :
  0 <= n -> dst <= a -> a + 8 <= dst + n -> load64 (memset dst 0 n m) a = 0.
Proof.
  intros Hn H1 H2.
  assert (load64 (memset dst 0 n m) a = load64 ∅ a) as ->; [|done].
  apply load64_ext. intros b Hb. rewrite load8_memset, bool_decide_eq_true_2 by lia. done.
Qed.

Lemma load8_copy_up n d s m a :
  d <= s \/ s + Z.of_nat n <= d ->
  load8 (copy_up n d s m) a =
    if bool_decide (d <= a < d + Z.of_nat n) then load8 m (s + (a - d)) else load8 m a.
Proof.
  revert d s m. induction n as [|n IH]; intros d s m H; cbn [copy_up].
  { rewrite bool_decide_eq_false_2 by lia. done. }
  rewrite IH by lia. case_bool_decide as H1; case_bool_decide as H2; try lia.
  - rewrite load8_store8_ne by lia. f_equal. lia.
  - assert (a = d) as -> by lia. rewrite load8_store8_eq, u8_load8. f_equal. lia.
  - apply load8_store8_ne. lia.
Qed.

Lemma load8_copy_down n d s m a :
  s <= d \/ d + Z.of_nat n <= s ->
  load8 (copy_down n (d + Z.of_nat n) (s + Z.of_nat n) m) a =
    if bool_decide (d <= a < d + Z.of_nat n) then load8 m (s + (a - d)) else load8 m a.
Proof.
  revert m. induction n as [|n IH]; intros m H; cbn [copy_down].
  { rewrite bool_decide_eq_false_2 by lia. done. }
  replace (d + Z.of_nat (S n) - 1) with (d + Z.of_nat n) by lia.
  replace (s + Z.of_nat (S n) - 1) with (s + Z.of_nat n) by lia.
  rewrite IH by lia. case_bool_decide as H1; case_bool_decide as H2; try lia.
  - apply load8_store8_ne. lia.
  - assert (a = d + Z.of_nat n) as -> by lia.
    rewrite load8_store8_eq, u8_load8. f_equal. lia.
  - apply load8_store8_ne. lia.
Qed.

Lemma load8_memmove dst src n m a :
  0 <= n ->
  load8 (memmove dst src n m) a =
    if bool_decide (dst <= a < dst + n) then load8 m (src + (a - dst)) else load8 m a.
Proof.
  intros Hn. unfold memmove. destruct (Z.eqb_spec n 0) as [->|Hn0].
  { rewrite bool_decide_eq_false_2 by lia. done. }
  destruct (Z.ltb_spec src dst), (Z.ltb_spec dst (src + n)); cbn [andb].
  2-4: rewrite load8_copy_up, Z2Nat.id by lia; done.
  rewrite <- (Z2Nat.id n) at 2 3 by lia. rewrite load8_copy_down by lia.
  rewrite Z2Nat.id by lia. done.
Qed.

Lemma length_read_bytes m a n : length (read_bytes m a n) = n.
Proof. unfold read_bytes. by rewrite length_fmap, length_seq. Qed.

Lemma lookup_read_bytes m a n i b :
  read_bytes m a n !! i = Some b <-> (i < n)%nat /\ b = load8 m (a + Z.of_nat i).
Proof.
  unfold read_bytes. rewrite list_lookup_fmap_Some. split.
  - intros (j & -> & [-> Hi]%lookup_seq). done.
  - intros [Hi ->]. exists i. split; [done|]. by apply lookup_seq.
Qed.

Lemma load8_write_bytes bs a m c :
  load8 (write_bytes a bs m) c =
    if decide (a <= c < a + Z.of_nat (length bs))
    then u8 (default 0 (bs !! Z.to_nat (c - a))) else load8 m c.
Proof.
  revert a m. induction bs as [|b bs IH]; intros a m; cbn [write_bytes length].
  { by rewrite decide_False by lia. }
  rewrite IH. destruct (decide (a + 1 <= c < a + 1 + Z.of_nat (length bs))).
  - rewrite decide_True by lia.
    replace (Z.to_nat (c - a)) with (S (Z.to_nat (c - (a + 1)))) by lia. done.
  - destruct (decide (c = a)) as [->|Hne].
    + rewrite decide_True by lia. rewrite Z.sub_diag, load8_store8_eq. done.
    + rewrite decide_False by lia. by apply load8_store8_ne.
Qed.

(** Conversion must not unfold memory accesses. *)
#[global] Opaque memset memmove load8 store8 load32 load64 store32 store64 read_bytes write_bytes.
