(* ===== verification/Kalloc.v ===== *)
(** * The physical page allocator ([kernel/kalloc.c])

    [kmem.freelist] is a linked list threaded through the free pages
    themselves: the first eight bytes of a free page hold the address of the
    next one. *)

From S2P Require Import Prelude Riscv Machine Spinlock PhysMem.

(** Statements on memory. *)
Definition mem_op (f : gmap Z Z -> gmap Z Z) : M machine unit :=
  modify (fun m => m <| m_mem ::= f |>).

Definition mload64 (a : Z) : M machine Z := gets (fun m => load64 (m_mem m) a).

Definition mstore64 (a v : Z) : M machine unit := mem_op (store64 a v).

Section kalloc.
Context `{Linker}.

Definition kfree (pa : Z) : M machine unit :=
  if negb (pa mod PGSIZE =? 0) || (pa <? end_) || (PHYSTOP <=? pa) then panic "kfree" else
  mem_op (memset pa 1 PGSIZE) ;;
  let r := pa in
  acquire kmem_lock ;;
  fl <- gets m_freelist ;;
  mstore64 r fl ;;
  modify (fun m => m <| m_freelist := r |>) ;;
  release kmem_lock.

Definition kalloc : M machine Z :=
  acquire kmem_lock ;;
  r <- gets m_freelist ;;
  when (ctrue r) (next <- mload64 r ;; modify (fun m => m <| m_freelist := next |>)) ;;
  release kmem_lock ;;
  when (ctrue r) (mem_op (memset r 5 PGSIZE)) ;;
  ret r.

Fixpoint freerange_loop (fuel : nat) (p pa_end : Z) : M machine unit :=
  match fuel with
  | O => nofuel
  | S fuel' =>
      if p + PGSIZE <=? pa_end
      then kfree p ;; freerange_loop fuel' (p + PGSIZE) pa_end
      else ret tt
  end.

(** The fuel is one more than the number of whole pages in the range. *)
Definition freerange (pa_start pa_end : Z) : M machine unit :=
  let p := PGROUNDUP pa_start in
  freerange_loop (S (Z.to_nat ((pa_end - p) / PGSIZE))) p pa_end.

Definition kinit : M machine unit :=
  initlock kmem_lock "kmem" ;;
  freerange end_ PHYSTOP.

(** ** Specification *)

(** A page the allocator may hand out. *)
Definition page_ok (a : Z) : Prop := a mod 4096 = 0 /\ end_ <= a < PHYSTOP.

#[export] Instance page_ok_dec a : Decision (page_ok a).
Proof. unfold page_ok. apply _. Defined.

(** [l] is the list of free pages, in the order [kalloc] returns them. *)
Fixpoint freelist_at (m : gmap Z Z) (head : Z) (l : list Z) : Prop :=
  match l with
  | [] => head = 0
  | a :: l' => head = a /\ freelist_at m (load64 m a) l'
  end.

Definition kmem_inv (m : machine) (l : list Z) : Prop :=
  freelist_at (m_mem m) (m_freelist m) l /\ NoDup l /\ Forall page_ok l.

(** The states between two statements of a thread that holds no [kmem.lock]
    and whose interrupt nesting is settled. *)
Definition quiet (m : machine) : Prop := settled (m_core m) /\ lock_free kmem_lock m.

End kalloc.

(** The kernel image is linked at [KERNBASE] ([kernel/kernel.ld]) and fits
    below [PHYSTOP]; the trampoline is a page of its text. *)
Class KernelLayout `{Linker} : Prop := {
  end_low : KERNBASE < end_;
  end_high : end_ <= PHYSTOP;
  trampoline_aligned : trampoline mod 4096 = 0;
  trampoline_range : KERNBASE <= trampoline < end_
}.

Section kalloc_facts.
Context `{KernelLayout}.

Lemma page_ok_nonzero a : page_ok a -> a <> 0.
Proof. intros [_ Ha]. pose proof end_low. unfold KERNBASE in *. lia. Qed.

Lemma page_ok_range a : page_ok a -> 0 < a < 2 ^ 56.
Proof.
  intros [_ Ha]. pose proof end_low. pose proof end_high. unfold PHYSTOP, KERNBASE in *. lia.
Qed.

Lemma aligned_disjoint a b :
  a mod 4096 = 0 -> b mod 4096 = 0 -> a <> b -> a + 4096 <= b \/ b + 4096 <= a.
Proof. intros. Z.div_mod_to_equations. lia. Qed.

Lemma freelist_at_ext m m' head l :
  (forall a b, a ∈ l -> a <= b < a + 8 -> load8 m b = load8 m' b) ->
  freelist_at m head l -> freelist_at m' head l.
Proof.
  revert head. induction l as [|a l IH]; intros head Hext; [done|].
  intros [-> Hl]. split; [done|].
  rewrite <- (load64_ext m m' a); [|intros b; apply Hext; left].
  apply IH; [|done]. intros c b Hc. apply Hext. by right.
Qed.

Lemma mem_eq_frame_page a b c m :
  page_ok a -> page_ok b -> a <> b -> b <= c < b + 4096 ->
  load8 (memset a 5 PGSIZE m) c = load8 m c.
Proof.
  intros [Ha _] [Hb _] Hne Hc. rewrite load8_memset by (unfold PGSIZE; lia).
  pose proof (aligned_disjoint a b Ha Hb Hne).
  rewrite bool_decide_eq_false_2; [done|]. unfold PGSIZE. lia.
Qed.

(** The machine after [kalloc] returned the page [a]. *)
Definition kalloced (a : Z) (m : machine) : machine :=
  m <| m_mem ::= memset a 5 PGSIZE |> <| m_freelist := load64 (m_mem m) a |>.

(** The machine after [kfree(a)]. *)
Definition kfreed (a : Z) (m : machine) : machine :=
  m <| m_mem ::= fun mm => store64 a (m_freelist m) (memset a 1 PGSIZE mm) |> <| m_freelist := a |>.

Lemma release_quiet m m1 :
  quiet m -> m_core m1 = pushed (m_core m) -> m_locks m1 = m_locks (locking kmem_lock m) ->
  release kmem_lock m1 = Ok tt (m1 <| m_core := m_core m |> <| m_locks := m_locks m |>).
Proof.
  intros [Hs Hf] Hc Hl. erewrite release_held; [|by apply settled_wf|exact Hf|exact Hc|exact Hl].
  by rewrite settle_id.
Qed.

Lemma kalloc_empty m : quiet m -> kmem_inv m [] -> kalloc m = Ok 0 m.
Proof.
  intros Hq [Hf _]. cbn in Hf. unfold kalloc.
  erewrite bind_ok by (apply acquire_run; [apply settled_wf, Hq|apply Hq]).
  mrun. cbn. rewrite Hf. cbn. unfold when. mrun.
  erewrite bind_ok by (by apply (release_quiet m)). mrun.
  unfold ret. ok_eq.
Qed.

Lemma kalloc_cons m a l : quiet m -> kmem_inv m (a :: l) -> kalloc m = Ok a (kalloced a m).
Proof.
  intros Hq (Hf & _ & Hok). cbn in Hf. destruct Hf as [Hf _].
  apply Forall_cons in Hok as [Hok _]. apply page_ok_nonzero in Hok.
  unfold kalloc.
  erewrite bind_ok by (apply acquire_run; [apply settled_wf, Hq|apply Hq]).
  mrun. cbn. rewrite Hf. unfold ctrue. destruct (Z.eqb_spec a 0); [done|]. cbn.
  unfold when, mload64, mem_op. mrun.
  erewrite bind_ok by (by apply (release_quiet m)). mrun.
  unfold ret. ok_eq.
Qed.

Lemma kmem_inv_kalloced m a l : kmem_inv m (a :: l) -> kmem_inv (kalloced a m) l.
Proof.
  intros (Hf & [Hnin Hnd]%NoDup_cons & Hok). cbn in Hf. destruct Hf as [_ Hf].
  apply Forall_cons in Hok as [Ha Hok]. split_and!; [|done..].
  eapply freelist_at_ext; [|exact Hf]. intros b c Hb Hin. cbn. symmetry.
  apply (mem_eq_frame_page _ b); [done| |congruence|lia].
  by eapply Forall_forall in Hok.
Qed.

Lemma kfree_run m a : quiet m -> page_ok a -> kfree a m = Ok tt (kfreed a m).
Proof.
  intros Hq [Ha Hr]. unfold kfree, PGSIZE. rewrite Ha.
  destruct (Z.ltb_spec a end_); [lia|]. destruct (Z.leb_spec PHYSTOP a); [lia|]. cbn.
  unfold mem_op, mstore64, mem_op. mrun.
  erewrite bind_ok.
  2: { apply acquire_run; [apply (settled_wf (m_core m)), Hq|apply Hq]. }
  mrun. erewrite (release_quiet (m <| m_mem ::= memset a 1 4096 |>)); [|exact Hq|cbn; reflexivity..].
  ok_eq.
Qed.

Lemma kmem_inv_kfreed m a l :
  kmem_inv m l -> page_ok a -> a ∉ l -> kmem_inv (kfreed a m) (a :: l).
Proof.
  intros (Hf & Hnd & Hok) Ha Hnin. split_and!; [|by constructor..].
  cbn. split; [done|].
  assert (0 <= m_freelist m < 2 ^ 64) as Hr.
  { destruct l as [|b l]; cbn in Hf; [lia|]. destruct Hf as [-> _].
    apply Forall_cons in Hok as [Hb _]. apply page_ok_range in Hb. lia. }
  rewrite load64_store64 by done.
  eapply freelist_at_ext; [|exact Hf]. intros b c Hb Hc.
  assert (page_ok b) as Hbok by by eapply Forall_forall in Hok.
  assert (a <> b) as Hne by congruence.
  pose proof (aligned_disjoint a b (proj1 Ha) (proj1 Hbok) Hne).
  rewrite load8_store64_out, load8_memset by (unfold PGSIZE; lia).
  by rewrite bool_decide_eq_false_2 by (unfold PGSIZE; lia).
Qed.

Lemma kfree_invalid m a :
  a mod 4096 <> 0 \/ a < end_ \/ PHYSTOP <= a -> kfree a m = Panic "kfree" m.
Proof.
  intros Ha. unfold kfree, PGSIZE.
  destruct (Z.eqb_spec (a mod 4096) 0), (Z.ltb_spec a end_), (Z.leb_spec PHYSTOP a); cbn; try done.
  lia.
Qed.

(** The free list survives changes of memory outside its pages. *)
Lemma kmem_inv_frame m m' l :
  kmem_inv m l -> m_freelist m' = m_freelist m ->
  (forall p c, p ∈ l -> p <= c < p + 4096 -> load8 (m_mem m') c = load8 (m_mem m) c) ->
  kmem_inv m' l.
Proof.
  intros (Hf & Hnd & Hok) Efl Hext. split_and!; [|done..]. rewrite Efl.
  eapply freelist_at_ext; [|exact Hf]. intros a b Ha Hab. symmetry. apply (Hext a); [done|lia].
Qed.

Lemma quiet_kalloced m a : quiet m -> quiet (kalloced a m).
Proof. done. Qed.

Lemma quiet_kfreed m a : quiet m -> quiet (kfreed a m).
Proof. done. Qed.

(** Memory outside the page is untouched by [kalloc] and [kfree]. *)
Lemma kalloced_frame m a c :
  ~ (a <= c < a + 4096) -> load8 (m_mem (kalloced a m)) c = load8 (m_mem m) c.
Proof.
  intros Hc. cbn. rewrite load8_memset by (unfold PGSIZE; lia).
  by rewrite bool_decide_eq_false_2 by (unfold PGSIZE; lia).
Qed.

Lemma kfreed_frame m a c :
  ~ (a <= c < a + 4096) -> load8 (m_mem (kfreed a m)) c = load8 (m_mem m) c.
Proof.
  intros Hc. cbn. rewrite load8_store64_out, load8_memset by (unfold PGSIZE; lia).
  by rewrite bool_decide_eq_false_2 by (unfold PGSIZE; lia).
Qed.

(** The pages from [p] on, last one first: the order in which [freerange]
    leaves them on the free list. *)
Fixpoint pages_down (n : nat) (p : Z) : list Z :=
  match n with
  | O => []
  | S n' => p + PGSIZE * Z.of_nat n' :: pages_down n' p
  end.

Lemma pages_down_shift n p :
  pages_down (S n) p = pages_down n (p + PGSIZE) ++ [p].
Proof.
  induction n as [|n IH].
  - cbn. f_equal. lia.
  - cbn [pages_down] in *. rewrite IH. cbn. f_equal. lia.
Qed.

Lemma pages_down_complete n p a :
  p mod 4096 = 0 -> PHYSTOP = p + PGSIZE * Z.of_nat n -> end_ <= p < end_ + 4096 ->
  page_ok a <-> a ∈ pages_down n p.
Proof.
  intros Hp Hn He.
  assert (forall k, a ∈ pages_down k p <-> exists i, a = p + PGSIZE * Z.of_nat i /\ (i < k)%nat) as ->.
  { induction k as [|k IH]; cbn [pages_down].
    - split; [by intros ?%not_elem_of_nil|intros (i & _ & Hi); lia].
    - rewrite elem_of_cons, IH. split.
      + intros [->|(i & -> & Hi)]; eauto with lia.
      + intros (i & -> & Hi). destruct (decide (i = k)) as [->|]; [by left|right; eauto with lia]. }
  unfold page_ok, PGSIZE in *. split.
  - intros [Ha Hr]. exists (Z.to_nat ((a - p) / 4096)). Z.div_mod_to_equations. lia.
  - intros (i & -> & Hi). Z.div_mod_to_equations. lia.
Qed.

Lemma freerange_run n p pa_end m l :
  quiet m -> kmem_inv m l -> Forall (fun a => a < p) l ->
  p mod 4096 = 0 -> end_ <= p ->
  p + PGSIZE * Z.of_nat n <= pa_end < p + PGSIZE * Z.of_nat (S n) -> pa_end <= PHYSTOP ->
  exists m', freerange_loop (S n) p pa_end m = Ok tt m' /\ quiet m' /\
    kmem_inv m' (pages_down n p ++ l).
Proof.
  unfold PGSIZE. revert p m l. induction n as [|n IH]; intros p m l Hq Hi Hl Hp Hlo Hn Hhi.
  - exists m. cbn [freerange_loop]. unfold PGSIZE. destruct (Z.leb_spec (p + 4096) pa_end); [lia|done].
  - assert (page_ok p) as Hok by (split; lia).
    assert (p ∉ l) as Hnin.
    { intros Hin. eapply Forall_forall in Hl; [|exact Hin]. lia. }
    destruct (IH (p + 4096) (kfreed p m) (p :: l)) as (m' & Hrun & Hq' & Hi'); try done; try lia.
    + by apply kmem_inv_kfreed.
    + constructor; [lia|]. eapply Forall_impl; [exact Hl|]. cbn. lia.
    + rewrite Z.add_mod, Hp by lia. done.
    + exists m'. split_and!; [|done|].
      * cbn [freerange_loop]. unfold PGSIZE. destruct (Z.leb_spec (p + 4096) pa_end); [|lia].
        erewrite bind_ok by (by apply kfree_run). exact Hrun.
      * rewrite pages_down_shift, <- app_assoc. exact Hi'.
Qed.

(** Booting the allocator: [kinit] returns, and afterwards every whole
    page between the end of the kernel image and [PHYSTOP] is on the free
    list exactly once. *)
Theorem kinit_spec m :
  settled (m_core m) -> m_freelist m = 0 ->
  exists m', kinit m = Ok tt m' /\ quiet m' /\
    kmem_inv m' (pages_down (Z.to_nat ((PHYSTOP - PGROUNDUP end_) / PGSIZE)) (PGROUNDUP end_)) /\
    (forall a, page_ok a <->
       a ∈ pages_down (Z.to_nat ((PHYSTOP - PGROUNDUP end_) / PGSIZE)) (PGROUNDUP end_)).
Proof.
  intros Hs Hf. unfold kinit, initlock, set_lock. mrun. unfold freerange.
  pose proof end_low as Hlo. pose proof end_high as Hhi.
  assert (PGROUNDUP end_ = (end_ + 4095) / 4096 * 4096) as Hup.
  { apply PGROUNDUP_eq. unfold PHYSTOP, KERNBASE in *. lia. }
  assert (end_ <= PGROUNDUP end_ <= PHYSTOP /\ PGROUNDUP end_ mod 4096 = 0 /\
          PGROUNDUP end_ < end_ + 4096) as (Hb & Hal & Hlt).
  { rewrite Hup. unfold PHYSTOP, KERNBASE in *. Z.div_mod_to_equations. lia. }
  set (n := Z.to_nat ((PHYSTOP - PGROUNDUP end_) / PGSIZE)).
  assert (PHYSTOP = PGROUNDUP end_ + PGSIZE * Z.of_nat n) as Hn.
  { unfold n, PGSIZE. rewrite Z2Nat.id by (apply Z.div_pos; lia).
    unfold PHYSTOP, KERNBASE in *. Z.div_mod_to_equations. lia. }
  edestruct (freerange_run n (PGROUNDUP end_) PHYSTOP) with (l := @nil Z) as (m' & Hrun & Hq & Hi).
  4: exact Hal. 4: lia. 4: unfold PGSIZE in *; lia. 4: lia.
  3: by constructor.
  3: { exists m'. split_and!; [exact Hrun|done|by rewrite app_nil_r in Hi|].
       intros a. apply pages_down_complete; [exact Hal|exact Hn|lia]. }
  - split; [exact Hs|]. eexists. cbn. by rewrite lookup_insert_eq.
  - split_and!; [exact Hf|constructor..].
Qed.

(** With no free page it returns 0 and changes nothing;
    otherwise it returns the head of the free list, removes just that page,
    fills it with junk and touches no other byte of memory; the lock and the
    interrupt state are as before. *)
Theorem kalloc_spec m l :
  quiet m -> kmem_inv m l ->
  match l with
  | [] => kalloc m = Ok 0 m
  | a :: l' =>
      exists m', kalloc m = Ok a m' /\ quiet m' /\ kmem_inv m' l' /\ (a ∉ l') /\ page_ok a /\
        (forall c, a <= c < a + PGSIZE -> load8 (m_mem m') c = 5) /\
        (forall c, ~ (a <= c < a + PGSIZE) -> load8 (m_mem m') c = load8 (m_mem m) c)
  end.
Proof.
  intros Hq Hi. destruct l as [|a l]; [by apply kalloc_empty|].
  exists (kalloced a m). pose proof Hi as (_ & [Hnin _]%NoDup_cons & [Ha _]%Forall_cons).
  split_and!; try done.
  - by apply kalloc_cons in Hi.
  - by apply kmem_inv_kalloced.
  - intros c Hc. cbn. rewrite load8_memset by (unfold PGSIZE; lia).
    by rewrite bool_decide_eq_true_2.
  - intros c. apply kalloced_frame.
Qed.

(** [kfree] of an allocatable page that is not already free puts that
    page, and only it, at the head of the free list; of anything else (not
    page aligned, below the end of the kernel or beyond [PHYSTOP]) it panics
    before touching memory; and a page just freed is what [kalloc] returns. *)
Theorem kfree_spec m l a :
  quiet m -> kmem_inv m l ->
  if decide (page_ok a)
  then a ∉ l -> exists m', kfree a m = Ok tt m' /\ quiet m' /\ kmem_inv m' (a :: l) /\
         (forall c, ~ (a <= c < a + PGSIZE) -> load8 (m_mem m') c = load8 (m_mem m) c) /\
         exists m'', kalloc m' = Ok a m'' /\ kmem_inv m'' l
  else kfree a m = Panic "kfree" m.
Proof.
  intros Hq Hi. destruct (decide (page_ok a)) as [Ha|Ha].
  - intros Hnin. exists (kfreed a m). pose proof (kmem_inv_kfreed m a l Hi Ha Hnin) as Hi'.
    split_and!; [by apply kfree_run|done|done|intros c; apply kfreed_frame|].
    exists (kalloced a (kfreed a m)). split; [by eapply kalloc_cons|by apply kmem_inv_kalloced].
  - apply kfree_invalid. unfold page_ok in Ha. lia.
Qed.

End kalloc_facts.

(** From here on the allocator is used through its lemmas. *)
#[global] Opaque kalloc kfree.
