(* ===== verification/PageTable.v ===== *)
(** * Sv39 page tables ([walk] of [kernel/vm.c])

    A page table is a tree of pages in physical memory. This file models
    [walk], defines the pages a table occupies and the page-table entry it
    assigns to a virtual address, and proves how stores and [walk] itself
    affect them. *)

From S2P Require Import Prelude Riscv Machine Spinlock PhysMem Kalloc.

(** [*pte & PTE_V] and the like. *)
Definition has_flag (pte flag : Z) : bool := ctrue (Z.land pte flag).

Section walk.
Context `{Linker}.

(** The loop of [walk] from level [level] down; it returns the address of
    the leaf entry, or 0. *)
Fixpoint walk_loop (level : nat) (pagetable va : Z) (alloc : bool) : M machine Z :=
  match level with
  | O => ret (pagetable + 8 * PX 0 va)
  | S level' =>
      let pte := pagetable + 8 * PX (Z.of_nat level) va in
      v <- mload64 pte ;;
      if has_flag v PTE_V then walk_loop level' (PTE2PA v) va alloc
      else if negb alloc then ret 0
      else
        pagetable <- kalloc ;;
        if pagetable =? 0 then ret 0 else
        mem_op (memset pagetable 0 PGSIZE) ;;
        mstore64 pte (Z.lor (PA2PTE pagetable) PTE_V) ;;
        walk_loop level' pagetable va alloc
  end.

Definition walk (pagetable va : Z) (alloc : bool) : M machine Z :=
  if MAXVA <=? va then panic "walk" else walk_loop 2 pagetable va alloc.

End walk.

(** ** What a page table denotes *)

(** The entry [i] of the table page [pt]. *)
Definition entry (m : gmap Z Z) (pt i : Z) : Z := load64 m (pt + 8 * i).

(** The pages of the table with [l] levels below its root page. *)
Fixpoint pt_pages (l : nat) (m : gmap Z Z) (pt : Z) : list Z :=
  pt ::
  match l with
  | O => []
  | S l' => seqZ 0 512 ≫= fun i =>
      if has_flag (entry m pt i) PTE_V then pt_pages l' m (PTE2PA (entry m pt i)) else []
  end.

(** The address of the leaf entry of [va], when the path to it exists. *)
Fixpoint leaf_addr (l : nat) (m : gmap Z Z) (pt va : Z) : option Z :=
  match l with
  | O => Some (pt + 8 * PX 0 va)
  | S l' =>
      let v := entry m pt (PX (Z.of_nat l) va) in
      if has_flag v PTE_V then leaf_addr l' m (PTE2PA v) va else None
  end.

(** The valid leaf entry of [va]: the address space a table implements. *)
Definition lookup_pte (l : nat) (m : gmap Z Z) (pt va : Z) : option Z :=
  a ← leaf_addr l m pt va; if has_flag (load64 m a) PTE_V then Some (load64 m a) else None.

Definition pt_lookup (m : gmap Z Z) (pt va : Z) : option Z := lookup_pte 2 m pt va.

Definition PTE_RWX : Z := Z.lor (Z.lor PTE_R PTE_W) PTE_X.

(** The inner entries point to tables: they have no access bit set. *)
Fixpoint dirs_ok (l : nat) (m : gmap Z Z) (pt : Z) : Prop :=
  match l with
  | O => True
  | S l' => forall i, 0 <= i < 512 -> has_flag (entry m pt i) PTE_V = true ->
      has_flag (entry m pt i) PTE_RWX = false /\ dirs_ok l' m (PTE2PA (entry m pt i))
  end.

Definition in_page (p c : Z) : Prop := p <= c < p + 4096.

(** A table whose pages are allocated, distinct, and not on the free list. *)
Definition pt_wf `{Linker} (l : nat) (m : gmap Z Z) (pt : Z) (fl : list Z) : Prop :=
  NoDup (pt_pages l m pt ++ fl) /\ Forall page_ok (pt_pages l m pt).

Arguments entry m pt i : simpl never.

(** ** Lemmas *)

Lemma has_flag_bit v k : 0 <= k -> has_flag v (Z.shiftl 1 k) = Z.testbit v k.
Proof.
  intros Hk. unfold has_flag, ctrue. destruct (Z.testbit v k) eqn:E.
  - rewrite negb_true_iff, Z.eqb_neq. intros H0.
    assert (Z.testbit (Z.land v (Z.shiftl 1 k)) k = true) as Hb
      by (rewrite Z.land_spec, E, testbit_pow2 by lia; cbn; lia).
    by rewrite H0, Z.bits_0 in Hb.
  - rewrite negb_false_iff, Z.eqb_eq. apply Z.bits_inj'. intros i Hi.
    rewrite Z.land_spec, testbit_pow2, Z.bits_0 by lia.
    destruct (Z.eqb_spec k i) as [->|]; [by rewrite E|by rewrite andb_false_r].
Qed.

Lemma has_V v : has_flag v PTE_V = Z.testbit v 0.
Proof. by apply (has_flag_bit v 0). Qed.

Lemma has_V_0 : has_flag 0 PTE_V = false.
Proof. done. Qed.

Lemma has_V_make x : has_flag (Z.lor x PTE_V) PTE_V = true.
Proof. rewrite has_V, Z.lor_spec. apply orb_true_r. Qed.

Lemma has_flag_flags v f : 0 <= f < 1024 -> has_flag v f = has_flag (PTE_FLAGS v) f.
Proof.
  intros Hf. unfold has_flag, PTE_FLAGS. f_equal. rewrite <- Z.land_assoc. f_equal.
  change 0x3FF with (Z.ones 10). rewrite Z.land_comm, Z.land_ones, Z.mod_small; lia.
Qed.

Lemma entry_ext m m' pt i :
  0 <= i < 512 -> (forall c, in_page pt c -> load8 m c = load8 m' c) ->
  entry m pt i = entry m' pt i.
Proof. intros Hi Hext. apply load64_ext. intros b Hb. apply Hext. unfold in_page. lia. Qed.

Lemma pt_pages_root l m pt : pt ∈ pt_pages l m pt.
Proof. destruct l; left. Qed.

Lemma pt_pages_child l m pt i p :
  0 <= i < 512 -> has_flag (entry m pt i) PTE_V = true ->
  p ∈ pt_pages l m (PTE2PA (entry m pt i)) -> p ∈ pt_pages (S l) m pt.
Proof.
  intros Hi HV Hp. right. apply list_elem_of_bind. exists i.
  rewrite HV. split; [done|]. by apply elem_of_seqZ.
Qed.

(** The table depends only on the contents of its own pages. *)
Lemma pt_pages_ext l m m' pt :
  (forall p c, p ∈ pt_pages l m pt -> in_page p c -> load8 m c = load8 m' c) ->
  pt_pages l m' pt = pt_pages l m pt.
Proof.
  revert pt. induction l as [|l IH]; intros pt Hext; [done|].
  cbn [pt_pages]. f_equal. apply bind_ext. intros i Hi%elem_of_seqZ.
  rewrite <- (entry_ext m m' pt i) by (try lia; intros c; apply Hext, pt_pages_root).
  destruct (has_flag (entry m pt i) PTE_V) eqn:E; [|done].
  apply IH. intros p c Hp. apply Hext. by apply (pt_pages_child l m pt i).
Qed.

Lemma dirs_ok_ext l m m' pt :
  (forall p c, p ∈ pt_pages l m pt -> in_page p c -> load8 m c = load8 m' c) ->
  dirs_ok l m pt -> dirs_ok l m' pt.
Proof.
  revert pt. induction l as [|l IH]; intros pt Hext Hd; [done|].
  cbn [dirs_ok] in *. intros i Hi.
  rewrite <- (entry_ext m m' pt i) by (try lia; intros c; apply Hext, pt_pages_root).
  intros HV. destruct (Hd i Hi HV) as [Hf Hc]. split; [done|].
  apply IH; [|done]. intros p c Hp. apply Hext. by apply (pt_pages_child l m pt i).
Qed.

Lemma leaf_addr_ext l m m' pt va :
  (forall p c, p ∈ pt_pages l m pt -> in_page p c -> load8 m c = load8 m' c) ->
  leaf_addr l m' pt va = leaf_addr l m pt va.
Proof.
  revert pt. induction l as [|l IH]; intros pt Hext; [done|].
  cbn [leaf_addr]. pose proof (PX_range (Z.of_nat (S l)) va ltac:(lia)) as Hi.
  set (i := PX (Z.of_nat (S l)) va) in *.
  rewrite <- (entry_ext m m' pt i) by (try lia; intros c; apply Hext, pt_pages_root).
  destruct (has_flag (entry m pt i) PTE_V) eqn:E; [|done].
  apply IH. intros p c Hp. apply Hext. by apply (pt_pages_child l m pt i).
Qed.

Lemma leaf_addr_page l m pt va a :
  leaf_addr l m pt va = Some a ->
  exists p, p ∈ pt_pages l m pt /\ a = p + 8 * PX 0 va /\ p <= a /\ a + 8 <= p + 4096.
Proof.
  revert pt. induction l as [|l IH]; intros pt Ha; cbn [leaf_addr] in Ha.
  - exists pt. pose proof (PX_range 0 va ltac:(lia)). split; [left|]. simplify_eq. lia.
  - set (i := PX (Z.of_nat (S l)) va) in *.
    destruct (has_flag (entry m pt i) PTE_V) eqn:E; [|done].
    destruct (IH _ Ha) as (p & Hp & Hrest). exists p. split; [|done].
    apply (pt_pages_child l m pt i); [|done..]. apply PX_range. lia.
Qed.

Lemma lookup_pte_ext l m m' pt va :
  (forall p c, p ∈ pt_pages l m pt -> in_page p c -> load8 m c = load8 m' c) ->
  lookup_pte l m' pt va = lookup_pte l m pt va.
Proof.
  intros Hext. unfold lookup_pte. rewrite (leaf_addr_ext _ _ _ _ _ Hext).
  destruct (leaf_addr l m pt va) as [a|] eqn:Ea; [|done]. cbn.
  apply leaf_addr_page in Ea as (p & Hp & _ & H1 & H2).
  rewrite (load64_ext m' m a); [done|]. intros b Hb. symmetry.
  apply (Hext p); [done|]. unfold in_page. lia.
Qed.

(** ** Subtrees *)

(** What hangs below entry [i] of [pt]: pages, and lookups through it. *)
Definition sub_pages (l : nat) (m : gmap Z Z) (pt i : Z) : list Z :=
  if has_flag (entry m pt i) PTE_V then pt_pages l m (PTE2PA (entry m pt i)) else [].

Definition sub_lookup (l : nat) (m : gmap Z Z) (pt i va : Z) : option Z :=
  if has_flag (entry m pt i) PTE_V then lookup_pte l m (PTE2PA (entry m pt i)) va else None.

Lemma pt_pages_S l m pt : pt_pages (S l) m pt = pt :: (seqZ 0 512 ≫= sub_pages l m pt).
Proof. done. Qed.

Lemma lookup_pte_S l m pt va :
  lookup_pte (S l) m pt va = sub_lookup l m pt (PX (Z.of_nat (S l)) va) va.
Proof. unfold lookup_pte, sub_lookup. cbn [leaf_addr]. by case_match. Qed.

Lemma sub_pages_ext l m m' pt i :
  entry m' pt i = entry m pt i ->
  (forall p c, p ∈ sub_pages l m pt i -> in_page p c -> load8 m c = load8 m' c) ->
  sub_pages l m' pt i = sub_pages l m pt i.
Proof.
  unfold sub_pages. intros ->. destruct (has_flag _ _); [|done]. apply pt_pages_ext.
Qed.

Lemma sub_lookup_ext l m m' pt i va :
  entry m' pt i = entry m pt i ->
  (forall p c, p ∈ sub_pages l m pt i -> in_page p c -> load8 m c = load8 m' c) ->
  sub_lookup l m' pt i va = sub_lookup l m pt i va.
Proof.
  unfold sub_pages, sub_lookup. intros ->. destruct (has_flag _ _); [|done]. apply lookup_pte_ext.
Qed.

Lemma sub_pages_incl l m pt i p :
  0 <= i < 512 -> p ∈ sub_pages l m pt i -> p ∈ pt_pages (S l) m pt.
Proof.
  intros Hi Hp. rewrite pt_pages_S. right. apply list_elem_of_bind. exists i.
  split; [done|]. by apply elem_of_seqZ.
Qed.

Lemma sub_pages_inj l m pt i j p :
  NoDup (pt_pages (S l) m pt) -> 0 <= i < 512 -> 0 <= j < 512 ->
  p ∈ sub_pages l m pt i -> p ∈ sub_pages l m pt j -> i = j.
Proof.
  rewrite pt_pages_S. intros [_ Hnd]%NoDup_cons Hi Hj.
  eapply bind_NoDup_inj; [exact Hnd|by apply elem_of_seqZ..].
Qed.

Lemma sub_pages_not_root l m pt i p :
  NoDup (pt_pages (S l) m pt) -> 0 <= i < 512 -> p ∈ sub_pages l m pt i -> p <> pt.
Proof.
  rewrite pt_pages_S. intros [Hr _]%NoDup_cons Hi Hp ->. apply Hr.
  apply list_elem_of_bind. exists i. split; [done|]. by apply elem_of_seqZ.
Qed.

Lemma sub_pages_NoDup l m pt i :
  NoDup (pt_pages (S l) m pt) -> 0 <= i < 512 -> NoDup (sub_pages l m pt i).
Proof.
  rewrite pt_pages_S. intros [_ Hnd]%NoDup_cons Hi.
  eapply bind_NoDup_elem; [exact Hnd|by apply elem_of_seqZ].
Qed.

(** Changing one subtree changes the table by just that subtree. *)
Lemma pt_pages_update l m m' pt i k :
  0 <= i < 512 ->
  (forall j, 0 <= j < 512 -> j <> i -> sub_pages l m' pt j = sub_pages l m pt j) ->
  sub_pages l m' pt i ≡ₚ sub_pages l m pt i ++ k ->
  pt_pages (S l) m' pt ≡ₚ pt_pages (S l) m pt ++ k.
Proof.
  intros Hi Hj Hk. rewrite !pt_pages_S. cbn. f_equiv.
  apply (bind_update_perm _ _ _ i); [apply NoDup_seqZ|by apply elem_of_seqZ| |done].
  intros y Hy%elem_of_seqZ. apply Hj. lia.
Qed.

Section wf.
Context `{KernelLayout}.

Lemma page_disjoint p q c : page_ok p -> page_ok q -> p <> q -> in_page p c -> ~ in_page q c.
Proof.
  intros [Hp _] [Hq _] Hne. pose proof (aligned_disjoint p q Hp Hq Hne). unfold in_page. lia.
Qed.

Lemma pt_wf_ok l m pt fl p : pt_wf l m pt fl -> p ∈ pt_pages l m pt -> page_ok p.
Proof. intros [_ Hok] Hp. by eapply Forall_forall in Hok. Qed.

Lemma pt_wf_NoDup l m pt fl : pt_wf l m pt fl -> NoDup (pt_pages l m pt).
Proof. by intros [(Hnd & _ & _)%NoDup_app _]. Qed.

Lemma pt_wf_free l m pt fl p : pt_wf l m pt fl -> p ∈ pt_pages l m pt -> p ∉ fl.
Proof. intros [(_ & Hd & _)%NoDup_app _]. apply Hd. Qed.

Lemma sub_wf l m pt i fl :
  pt_wf (S l) m pt fl -> 0 <= i < 512 -> has_flag (entry m pt i) PTE_V = true ->
  pt_wf l m (PTE2PA (entry m pt i)) fl.
Proof.
  intros Hwf Hi HV. pose proof Hwf as [(Hnd & Hd & Hfl)%NoDup_app Hok].
  pose proof (sub_pages_NoDup l m pt i Hnd Hi) as Hs.
  assert (forall p, p ∈ pt_pages l m (PTE2PA (entry m pt i)) -> p ∈ pt_pages (S l) m pt) as Hincl.
  { intros p Hp. eapply sub_pages_incl; [exact Hi|]. unfold sub_pages. by rewrite HV. }
  unfold sub_pages in Hs. rewrite HV in Hs. split.
  - apply NoDup_app. split_and!; [done| |done]. intros p Hp. apply Hd. auto.
  - apply Forall_forall. intros p Hp. eapply Forall_forall in Hok; [exact Hok|auto].
Qed.

(** A store inside one subtree leaves the root and the others alone. *)
Lemma sub_frame l m m' pt i j :
  pt_wf (S l) m pt [] -> 0 <= i < 512 -> 0 <= j < 512 -> j <> i ->
  (forall c, (forall p, p ∈ sub_pages l m pt i -> ~ in_page p c) ->
     in_page pt c \/ (exists p, p ∈ sub_pages l m pt j /\ in_page p c) -> load8 m' c = load8 m c) ->
  sub_pages l m' pt j = sub_pages l m pt j /\
  forall va, sub_lookup l m' pt j va = sub_lookup l m pt j va.
Proof.
  intros Hwf Hi Hj Hne Hfr. pose proof (pt_wf_NoDup _ _ _ _ Hwf) as Hnd.
  assert (forall p, p ∈ pt_pages (S l) m pt -> page_ok p) as Hok by (intros; by eapply pt_wf_ok).
  assert (entry m' pt j = entry m pt j) as He.
  { apply entry_ext; [done|]. intros c Hc. apply Hfr; [|by left]. intros p Hp.
    apply (page_disjoint pt p); [apply Hok, pt_pages_root|by apply Hok, (sub_pages_incl l m pt i)| |done].
    intros ->. by apply (sub_pages_not_root _ _ _ _ _ Hnd Hi) in Hp. }
  assert (forall p c, p ∈ sub_pages l m pt j -> in_page p c -> load8 m c = load8 m' c) as Hs.
  { intros p c Hp Hc. symmetry. apply Hfr; [|eauto]. intros q Hq.
    apply (page_disjoint p q); [by apply Hok, (sub_pages_incl l m pt j)|by apply Hok, (sub_pages_incl l m pt i)| |done].
    intros ->. apply Hne. eapply sub_pages_inj; [exact Hnd|done..]. }
  split; [by apply sub_pages_ext|]. intros va. by apply sub_lookup_ext.
Qed.

Lemma pt_pages_zero l m n :
  (forall i, 0 <= i < 512 -> entry m n i = 0) -> pt_pages l m n = [n].
Proof.
  intros Hz. destruct l as [|l]; [done|]. rewrite pt_pages_S. f_equal.
  rewrite (bind_ext _ (fun _ => [])).
  - by induction (seqZ 0 512).
  - intros i Hi%elem_of_seqZ. unfold sub_pages. by rewrite Hz by lia.
Qed.

Lemma lookup_pte_zero l m n va :
  (forall i, 0 <= i < 512 -> entry m n i = 0) -> lookup_pte l m n va = None.
Proof.
  intros Hz. unfold lookup_pte. destruct l as [|l]; cbn.
  - change (load64 m (n + 8 * PX 0 va)) with (entry m n (PX 0 va)).
    by rewrite Hz by (apply PX_range; lia).
  - by rewrite Hz by (apply PX_range; lia).
Qed.

Lemma dirs_ok_zero l m n : (forall i, 0 <= i < 512 -> entry m n i = 0) -> dirs_ok l m n.
Proof. intros Hz. destruct l as [|l]; [done|]. intros i Hi. by rewrite Hz. Qed.

(** One level of [walk]: [m0] is reached from [m] by (possibly) installing a
    child table at entry [i], [m'] from [m0] by changes below that child. *)
Lemma walk_lift l m m0 m' pt i child used0 used1 fl :
  pt_wf (S l) m pt (used0 ++ used1 ++ fl) -> Forall page_ok (used0 ++ used1) -> 0 <= i < 512 ->
  has_flag (entry m0 pt i) PTE_V = true -> PTE2PA (entry m0 pt i) = child ->
  (forall c, ~ (pt + 8 * i <= c < pt + 8 * i + 8) -> (forall p, p ∈ used0 -> ~ in_page p c) ->
     load8 m0 c = load8 m c) ->
  pt_pages l m0 child ≡ₚ sub_pages l m pt i ++ used0 ->
  (forall va, lookup_pte l m0 child va = sub_lookup l m pt i va) ->
  pt_pages l m' child ≡ₚ pt_pages l m0 child ++ used1 ->
  (forall va, lookup_pte l m' child va = lookup_pte l m0 child va) ->
  (forall c, (forall p, p ∈ pt_pages l m0 child ++ used1 -> ~ in_page p c) -> load8 m' c = load8 m0 c) ->
  entry m' pt i = entry m0 pt i /\
  pt_pages (S l) m' pt ≡ₚ pt_pages (S l) m pt ++ used0 ++ used1 /\
  (forall va, lookup_pte (S l) m' pt va = lookup_pte (S l) m pt va) /\
  (forall c, (forall p, p ∈ pt_pages (S l) m pt ++ used0 ++ used1 -> ~ in_page p c) ->
     load8 m' c = load8 m c) /\
  (forall j, 0 <= j < 512 -> j <> i -> entry m' pt j = entry m pt j /\
     forall p c, p ∈ sub_pages l m pt j -> in_page p c -> load8 m c = load8 m' c).
Proof.
  intros Hwf Hused Hi HV Hchild Hf0 Hp0 Hl0 Hp1 Hl1 Hf1.
  pose proof (pt_wf_NoDup _ _ _ _ Hwf) as Hnd.
  assert (page_ok pt) as Hpt by (eapply pt_wf_ok; [exact Hwf|apply pt_pages_root]).
  assert (forall p, p ∈ used0 ++ used1 -> page_ok p /\ p ∉ pt_pages (S l) m pt) as Hu.
  { intros p Hp. split; [by eapply Forall_forall in Hused|]. intros Hin.
    eapply pt_wf_free; [exact Hwf|exact Hin|]. rewrite app_assoc. rewrite elem_of_app. by left. }
  (* pages below the child are distinct from the root and the other subtrees *)
  assert (forall p, p ∈ pt_pages l m0 child ++ used1 ->
            page_ok p /\ (p ∈ sub_pages l m pt i \/ p ∈ used0 ++ used1)) as Hbelow.
  { intros p. rewrite Hp0, !elem_of_app. intros [[Hp|Hp]|Hp].
    - split; [|by left]. eapply pt_wf_ok; [exact Hwf|]. by eapply sub_pages_incl.
    - split; [apply Hu; rewrite elem_of_app; by left|right; by left].
    - split; [apply Hu; rewrite elem_of_app; by right|right; by right]. }
  assert (forall q c, (q = pt \/ exists j, 0 <= j < 512 /\ j <> i /\ q ∈ sub_pages l m pt j) ->
            in_page q c -> ~ (pt + 8 * i <= c < pt + 8 * i + 8) -> load8 m' c = load8 m c) as Hother.
  { intros q c Hq Hqc Hne.
    assert (page_ok q /\ q ∈ pt_pages (S l) m pt /\ q ∉ sub_pages l m pt i) as (Hqok & Hqin & Hqi).
    { destruct Hq as [->|(j & Hj & Hji & Hq)].
      - split_and!; [done|apply pt_pages_root|]. intros Hin.
        by apply (sub_pages_not_root _ _ _ _ _ Hnd Hi) in Hin.
      - assert (q ∈ pt_pages (S l) m pt) by by eapply sub_pages_incl.
        split_and!; [by eapply pt_wf_ok|done|]. intros Hin. apply Hji. by eapply sub_pages_inj. }
    rewrite Hf1, Hf0; [done|done| |].
    - intros p Hp. assert (p ∈ used0 ++ used1) as Hp' by (rewrite elem_of_app; by left).
      apply (page_disjoint q p); [done|by apply Hu| |done]. intros ->. by apply (Hu p).
    - intros p [Hpok Hp]%Hbelow. apply (page_disjoint q p); [done..| |done].
      intros ->. destruct Hp as [Hp|Hp]; [done|]. by apply (Hu p). }
  assert (entry m' pt i = entry m0 pt i) as Hent.
  { apply load64_ext. intros c Hc. apply Hf1. intros p [Hpok Hp]%Hbelow.
    apply (page_disjoint pt p); [done..| |unfold in_page; lia].
    intros ->. destruct Hp as [Hp|Hp].
    - by apply (sub_pages_not_root _ _ _ _ _ Hnd Hi) in Hp.
    - apply (Hu p); [done|apply pt_pages_root]. }
  assert (forall j, 0 <= j < 512 -> j <> i -> entry m' pt j = entry m pt j) as Hentj.
  { intros j Hj Hji. apply load64_ext. intros c Hc. apply (Hother pt); [by left| |lia].
    unfold in_page. lia. }
  assert (forall j, 0 <= j < 512 -> j <> i ->
            forall p c, p ∈ sub_pages l m pt j -> in_page p c -> load8 m c = load8 m' c) as Hsubj.
  { intros j Hj Hji p c Hp Hc. symmetry. apply (Hother p); [eauto|done|]. intros Hin.
    assert (p ∈ pt_pages (S l) m pt) by by eapply sub_pages_incl.
    eapply (page_disjoint p pt); [by eapply pt_wf_ok|done| |exact Hc|unfold in_page; lia].
    intros ->. by apply (sub_pages_not_root _ _ _ _ _ Hnd Hj) in Hp. }
  split_and!.
  - done.
  - apply (pt_pages_update l m m' pt i); [done| |].
    + intros j Hj Hji. apply sub_pages_ext; [by apply Hentj|by apply Hsubj].
    + unfold sub_pages at 1. rewrite Hent, HV, Hchild, Hp1, Hp0. by rewrite app_assoc.
  - intros va. rewrite !lookup_pte_S. set (j := PX (Z.of_nat (S l)) va).
    assert (0 <= j < 512) as Hj by (apply PX_range; lia).
    destruct (decide (j = i)) as [->|Hji].
    + unfold sub_lookup at 1. by rewrite Hent, HV, Hchild, Hl1, Hl0.
    + apply sub_lookup_ext; [by apply Hentj|by apply Hsubj].
  - intros c Hc. rewrite Hf1, Hf0; [done| | |].
    + intros Hin. apply (Hc pt); [|unfold in_page; lia]. rewrite elem_of_app. left. apply pt_pages_root.
    + intros p Hp. apply Hc. rewrite !elem_of_app. auto.
    + intros p [_ [Hp|Hp]]%Hbelow; apply Hc; rewrite elem_of_app; [left|by right].
      by eapply sub_pages_incl.
  - intros j Hj Hji. split; [by apply Hentj|by apply Hsubj].
Qed.

Lemma dirs_ok_update l m m' pt i :
  dirs_ok (S l) m pt ->
  (forall j, 0 <= j < 512 -> j <> i -> entry m' pt j = entry m pt j /\
     forall p c, p ∈ sub_pages l m pt j -> in_page p c -> load8 m c = load8 m' c) ->
  has_flag (entry m' pt i) PTE_RWX = false -> dirs_ok l m' (PTE2PA (entry m' pt i)) ->
  dirs_ok (S l) m' pt.
Proof.
  intros Hd Hj Hf Hi j Hjr HV. destruct (decide (j = i)) as [->|Hji]; [done|].
  destruct (Hj j Hjr Hji) as [He Hs]. rewrite He in *. destruct (Hd j Hjr HV) as [Hf' Hd'].
  split; [done|]. eapply dirs_ok_ext; [|exact Hd']. intros p c Hp. apply Hs.
  unfold sub_pages. by rewrite HV.
Qed.

Lemma walk_loop_noalloc l pt va m :
  walk_loop l pt va false m = Ok (default 0 (leaf_addr l (m_mem m) pt va)) m.
Proof.
  revert pt. induction l as [|l IH]; intros pt; [done|].
  cbn [walk_loop leaf_addr]. unfold mload64. mrun.
  change (load64 (m_mem m) (pt + 8 * PX (Z.of_nat (S l)) va))
    with (entry (m_mem m) pt (PX (Z.of_nat (S l)) va)).
  by destruct (has_flag _ _).
Qed.

(** The state in which [walk] continues below a table page [n] it has just
    taken from the free list and installed at entry [i] of [pt]. *)
Definition installed (pt i n : Z) (m : machine) : machine :=
  (kalloced n m)
    <| m_mem ::= fun mm => store64 (pt + 8 * i) (Z.lor (PA2PTE n) PTE_V) (memset n 0 PGSIZE mm) |>.

Lemma m_mem_installed pt i n m :
  m_mem (installed pt i n m) =
    store64 (pt + 8 * i) (Z.lor (PA2PTE n) PTE_V) (memset n 0 PGSIZE (memset n 5 PGSIZE (m_mem m))).
Proof. done. Qed.

Lemma quiet_installed pt i n m : quiet m -> quiet (installed pt i n m).
Proof. intros [Hs Hl]. by split. Qed.

Lemma m_core_installed pt i n m : m_core (installed pt i n m) = m_core m.
Proof. cbn. reflexivity. Qed.

Lemma m_locks_installed pt i n m : m_locks (installed pt i n m) = m_locks m.
Proof. cbn. reflexivity. Qed.

Lemma installed_frame pt i n m c :
  ~ (pt + 8 * i <= c < pt + 8 * i + 8) -> ~ in_page n c ->
  load8 (m_mem (installed pt i n m)) c = load8 (m_mem m) c.
Proof.
  intros H1 H2. unfold in_page in H2. rewrite m_mem_installed.
  rewrite load8_store64_out, !load8_memset by (unfold PGSIZE; lia).
  by rewrite !bool_decide_eq_false_2 by (unfold PGSIZE; lia).
Qed.

Lemma installed_entry pt i n m :
  page_ok n ->
  has_flag (entry (m_mem (installed pt i n m)) pt i) PTE_V = true /\
  PTE2PA (entry (m_mem (installed pt i n m)) pt i) = n /\
  has_flag (entry (m_mem (installed pt i n m)) pt i) PTE_RWX = false.
Proof.
  intros Hn. pose proof (page_ok_range n Hn). destruct Hn as [Hn _].
  unfold entry. rewrite m_mem_installed, load64_store64 by (apply pte_make_range; change PTE_V with 1; lia).
  split_and!; [apply has_V_make|apply PTE2PA_make; change PTE_V with 1; lia|].
  rewrite has_flag_flags, PTE_FLAGS_make by (change PTE_V with 1; first [done|lia]). done.
Qed.

Lemma installed_zero pt i n m j :
  page_ok pt -> page_ok n -> pt <> n -> 0 <= i < 512 -> 0 <= j < 512 ->
  entry (m_mem (installed pt i n m)) n j = 0.
Proof.
  intros [Hpt _] [Hn _] Hne Hi Hj. pose proof (aligned_disjoint pt n Hpt Hn Hne).
  unfold entry. rewrite m_mem_installed, load64_store64_out by lia.
  apply load64_memset_zero; unfold PGSIZE; lia.
Qed.

Lemma kmem_inv_installed pt i n fl m :
  page_ok pt -> pt ∉ fl -> 0 <= i < 512 -> kmem_inv m (n :: fl) -> kmem_inv (installed pt i n m) fl.
Proof.
  intros Hpt Hptfl Hi Hk. apply (kmem_inv_frame (kalloced n m)).
  - by apply kmem_inv_kalloced.
  - cbn. reflexivity.
  - intros p c Hp Hc. destruct Hk as (_ & [Hn Hnd]%NoDup_cons & [Hnok Hok]%Forall_cons).
    assert (page_ok p) as Hpok by (eapply Forall_forall in Hok; eauto).
    assert (~ in_page n c) by (apply (page_disjoint p n); [done..|congruence|done]).
    assert (~ in_page pt c) by (apply (page_disjoint p pt); [done..|congruence|done]).
    unfold in_page in *. rewrite installed_frame, kalloced_frame; unfold in_page; [done|lia..].
Qed.

#[local] Opaque installed.

Definition walk_post (l : nat) (pt va : Z) (fl : list Z) (m : machine) (r : Z) (m' : machine) : Prop :=
  exists used fl', fl = used ++ fl' /\ (length used <= l)%nat /\
    m_core m' = m_core m /\ m_locks m' = m_locks m /\ kmem_inv m' fl' /\
    pt_pages l (m_mem m') pt ≡ₚ pt_pages l (m_mem m) pt ++ used /\
    (forall va', lookup_pte l (m_mem m') pt va' = lookup_pte l (m_mem m) pt va') /\
    (if decide (r = 0) then fl' = [] else leaf_addr l (m_mem m') pt va = Some r) /\
    (dirs_ok l (m_mem m) pt -> dirs_ok l (m_mem m') pt) /\
    (forall c, (forall p, p ∈ pt_pages l (m_mem m) pt ++ used -> ~ in_page p c) ->
       load8 (m_mem m') c = load8 (m_mem m) c).

Lemma walk_post_fail l pt va m : kmem_inv m [] -> walk_post l pt va [] m 0 m.
Proof.
  intros Hi. exists [], []. cbn. rewrite app_nil_r. split_and!; done || lia.
Qed.

(** Lifting the result below a child to the parent. *)
Lemma walk_post_lift l pt va used0 fl m m0 m' child r :
  pt_wf (S l) (m_mem m) pt (used0 ++ fl) -> Forall page_ok (used0 ++ fl) -> (length used0 <= 1)%nat ->
  m_core m0 = m_core m -> m_locks m0 = m_locks m ->
  let i := PX (Z.of_nat (S l)) va in
  has_flag (entry (m_mem m0) pt i) PTE_V = true -> PTE2PA (entry (m_mem m0) pt i) = child ->
  (forall c, ~ (pt + 8 * i <= c < pt + 8 * i + 8) -> (forall p, p ∈ used0 -> ~ in_page p c) ->
     load8 (m_mem m0) c = load8 (m_mem m) c) ->
  pt_pages l (m_mem m0) child ≡ₚ sub_pages l (m_mem m) pt i ++ used0 ->
  (forall va', lookup_pte l (m_mem m0) child va' = sub_lookup l (m_mem m) pt i va') ->
  (dirs_ok (S l) (m_mem m) pt ->
     has_flag (entry (m_mem m0) pt i) PTE_RWX = false /\ dirs_ok l (m_mem m0) child) ->
  walk_post l child va fl m0 r m' ->
  walk_post (S l) pt va (used0 ++ fl) m r m'.
Proof.
  intros Hwf Hok Hlen Hc Hl i HV Hchild Hf0 Hp0 Hl0 Hd0 (used1 & fl' & -> & Hlen1 & Hc' & Hl' & Hk & Hp1 & Hl1 & Hr & Hd1 & Hf1).
  rewrite app_assoc, Forall_app in Hok. destruct Hok as [Hok _].
  assert (0 <= i < 512) as Hi by (apply PX_range; lia).
  destruct (walk_lift l (m_mem m) (m_mem m0) (m_mem m') pt i child used0 used1 fl')
    as (He & Hpp & Hll & Hff & Hjj); try done.
  exists (used0 ++ used1), fl'. split_and!; try done; [by rewrite app_assoc|rewrite length_app; lia|congruence..| |].
  - case_decide; [done|]. cbn [leaf_addr]. fold i. by rewrite He, HV, Hchild.
  - intros Hd. destruct (Hd0 Hd) as [Hrwx Hdc].
    eapply dirs_ok_update; [exact Hd|exact Hjj|by rewrite He|]. rewrite He, Hchild. auto.
Qed.

Lemma walk_loop_alloc l pt va fl m :
  quiet m -> kmem_inv m fl -> pt_wf l (m_mem m) pt fl ->
  exists r m', walk_loop l pt va true m = Ok r m' /\ walk_post l pt va fl m r m'.
Proof.
  revert pt fl m. induction l as [|l IH]; intros pt fl m Hq Hi Hwf.
  - exists (pt + 8 * PX 0 va), m. split; [done|]. exists [], fl. cbn.
    assert (page_ok pt) as [_ Hpt] by (eapply pt_wf_ok; [exact Hwf|left]).
    pose proof (PX_range 0 va ltac:(lia)). pose proof end_low.
    split_and!; try done. case_decide; [unfold KERNBASE in *; lia|done].
  - cbn [walk_loop]. unfold mload64. mrun. set (i := PX (Z.of_nat (S l)) va).
    assert (0 <= i < 512) as Hir by (apply PX_range; lia).
    assert (Forall page_ok fl) as Hokfl by apply Hi.
    change (load64 (m_mem m) (pt + 8 * i)) with (entry (m_mem m) pt i).
    destruct (has_flag (entry (m_mem m) pt i) PTE_V) eqn:HV.
    + destruct (IH (PTE2PA (entry (m_mem m) pt i)) fl m) as (r & m' & Hrun & Hpost);
        [done..|by apply sub_wf|].
      exists r, m'. split; [done|]. change fl with ([] ++ fl).
      eapply (walk_post_lift l pt va [] fl m m); try done; [cbn; lia|..].
      * by rewrite app_nil_r; unfold sub_pages; fold i; rewrite HV.
      * intros va'. unfold sub_lookup. fold i. by rewrite HV.
      * intros Hd. by apply (Hd i).
    + cbn [negb]. destruct fl as [|n fl].
      { erewrite bind_ok by by apply kalloc_empty. exists 0, m. split; [done|].
        by apply walk_post_fail. }
      erewrite bind_ok by by eapply kalloc_cons.
      apply Forall_cons in Hokfl as [Hn Hokfl].
      destruct (Z.eqb_spec n 0) as [->|_]; [by apply page_ok_nonzero in Hn|].
      unfold mstore64, mem_op. mrun.
      match goal with |- context [walk_loop l n va true ?s] =>
        replace s with (installed pt i n m) by (apply machine_eq; cbn; reflexivity) end.
      assert (page_ok pt) as Hpt by (eapply pt_wf_ok; [exact Hwf|apply pt_pages_root]).
      assert (n ∉ pt_pages (S l) (m_mem m) pt) as Hnin.
      { intros Hin. eapply pt_wf_free; [exact Hwf|exact Hin|left]. }
      assert (pt <> n) as Hne by (intros ->; apply Hnin, pt_pages_root).
      assert (forall j, 0 <= j < 512 -> entry (m_mem (installed pt i n m)) n j = 0) as Hz.
      { intros j Hj. by apply installed_zero. }
      destruct (installed_entry pt i n m Hn) as (HV' & Hchild & Hrwx).
      destruct (IH n fl (installed pt i n m)) as (r & m' & Hrun & Hpost).
      * by apply quiet_installed.
      * apply kmem_inv_installed; [done| |done|done]. intros Hin.
        eapply pt_wf_free; [exact Hwf|apply pt_pages_root|by right].
      * split; rewrite (pt_pages_zero _ _ _ Hz); [by destruct Hi as (_ & Hnd & _)|by apply Forall_singleton].
      * exists r, m'. split; [done|]. change (n :: fl) with ([n] ++ fl).
        apply (walk_post_lift l pt va [n] fl m (installed pt i n m) m' n); try assumption.
        -- by constructor.
        -- done.
        -- apply m_core_installed.
        -- apply m_locks_installed.
        -- intros c Hc Hcn. apply installed_frame; [done|]. apply Hcn. left.
        -- rewrite (pt_pages_zero _ _ _ Hz). unfold sub_pages. fold i. by rewrite HV.
        -- intros va'. rewrite (lookup_pte_zero _ _ _ _ Hz). unfold sub_lookup. fold i. by rewrite HV.
        -- intros _. split; [done|]. by apply dirs_ok_zero.
Qed.

(** ** Stores to leaf entries *)

Definition same_leaf (l : nat) (va va' : Z) : Prop :=
  forall k, (k <= l)%nat -> PX (Z.of_nat k) va = PX (Z.of_nat k) va'.

Lemma same_leaf_S l va va' :
  PX (Z.of_nat (S l)) va = PX (Z.of_nat (S l)) va' -> same_leaf l va va' -> same_leaf (S l) va va'.
Proof.
  intros HS Hl k Hk. destruct (decide (k = S l)) as [->|]; [done|]. apply Hl. lia.
Qed.

(** The leaf entries of two addresses are the same word or disjoint. *)
Lemma leaf_addr_inj l m pt va va' a a' :
  pt_wf l m pt [] -> leaf_addr l m pt va = Some a -> leaf_addr l m pt va' = Some a' ->
  (same_leaf l va va' /\ a = a') \/ (~ same_leaf l va va' /\ (a + 8 <= a' \/ a' + 8 <= a)).
Proof.
  revert pt. induction l as [|l IH]; intros pt Hwf Ha Ha'.
  - cbn [leaf_addr] in Ha, Ha'. injection Ha as Ha. injection Ha' as Ha'.
    destruct (decide (PX 0 va = PX 0 va')) as [E|E].
    + left. split; [|lia]. intros k Hk. by replace k with 0%nat by lia.
    + right. split; [|lia]. intros Hs. by apply E, (Hs 0%nat).
  - cbn [leaf_addr] in Ha, Ha'. set (i := PX (Z.of_nat (S l)) va) in *.
    set (j := PX (Z.of_nat (S l)) va') in *.
    assert (0 <= i < 512) as Hi by (apply PX_range; lia).
    assert (0 <= j < 512) as Hj by (apply PX_range; lia).
    destruct (has_flag (entry m pt i) PTE_V) eqn:Vi; [|done].
    destruct (has_flag (entry m pt j) PTE_V) eqn:Vj; [|done].
    destruct (decide (i = j)) as [E|E].
    + rewrite <- E in Ha'. destruct (IH _ (sub_wf _ _ _ _ _ Hwf Hi Vi) Ha Ha') as [[Hs ->]|[Hs Hd]].
      * left. split; [|done]. by apply same_leaf_S.
      * right. split; [|done]. intros Hs'. apply Hs. intros k Hk. apply Hs'. lia.
    + right. split; [intros Hs; by apply E, Hs|].
      apply leaf_addr_page in Ha as (p & Hp & _ & H1 & H2).
      apply leaf_addr_page in Ha' as (p' & Hp' & _ & H1' & H2').
      assert (p ∈ sub_pages l m pt i) as Hpi by (unfold sub_pages; by rewrite Vi).
      assert (p' ∈ sub_pages l m pt j) as Hpj by (unfold sub_pages; by rewrite Vj).
      assert (p <> p') as Hne.
      { intros <-. apply E. eapply sub_pages_inj; [exact (pt_wf_NoDup _ _ _ _ Hwf)|..]; done. }
      assert (page_ok p) as [Hpa _] by (eapply pt_wf_ok; [exact Hwf|by apply (sub_pages_incl l m pt i)]).
      assert (page_ok p') as [Hpa' _] by (eapply pt_wf_ok; [exact Hwf|by apply (sub_pages_incl l m pt j)]).
      pose proof (aligned_disjoint p p' Hpa Hpa' Hne). lia.
Qed.

(** A store to a leaf entry does not change the shape of the table. *)
Lemma store_leaf_shape l m pt va a v :
  pt_wf l m pt [] -> leaf_addr l m pt va = Some a ->
  pt_pages l (store64 a v m) pt = pt_pages l m pt /\
  (forall va', leaf_addr l (store64 a v m) pt va' = leaf_addr l m pt va') /\
  (dirs_ok l m pt -> dirs_ok l (store64 a v m) pt).
Proof.
  revert pt. induction l as [|l IH]; intros pt Hwf Ha; [done|].
  cbn [leaf_addr] in Ha. set (i := PX (Z.of_nat (S l)) va) in *.
  assert (0 <= i < 512) as Hi by (apply PX_range; lia).
  destruct (has_flag (entry m pt i) PTE_V) eqn:Vi; [|done].
  pose proof (leaf_addr_page _ _ _ _ _ Ha) as (p & Hp & _ & H1 & H2).
  assert (p ∈ sub_pages l m pt i) as Hpi by (unfold sub_pages; by rewrite Vi).
  destruct (IH _ (sub_wf _ _ _ _ _ Hwf Hi Vi) Ha) as (IHp & IHl & IHd).
  assert (forall c, ~ in_page p c -> load8 (store64 a v m) c = load8 m c) as Hfr.
  { intros c Hc. apply load8_store64_out. unfold in_page in Hc. lia. }
  assert (page_ok pt) as Hpt by (eapply pt_wf_ok; [exact Hwf|apply pt_pages_root]).
  assert (page_ok p) as Hpok by (eapply pt_wf_ok; [exact Hwf|by apply (sub_pages_incl l m pt i)]).
  assert (forall j, 0 <= j < 512 -> entry (store64 a v m) pt j = entry m pt j) as He.
  { intros j Hj. apply entry_ext; [done|]. intros c Hc. apply Hfr.
    apply (page_disjoint pt p); [done..| |done]. intros ->.
    eapply sub_pages_not_root; [exact (pt_wf_NoDup _ _ _ _ Hwf)|exact Hi|exact Hpi|done]. }
  assert (forall j q c, 0 <= j < 512 -> j <> i -> q ∈ sub_pages l m pt j -> in_page q c ->
            load8 m c = load8 (store64 a v m) c) as Hsub.
  { intros j q c Hj Hji Hq Hc. symmetry. apply Hfr.
    apply (page_disjoint q p); [eapply pt_wf_ok; [exact Hwf|by apply (sub_pages_incl l m pt j)]|done| |done].
    intros ->. apply Hji. eapply sub_pages_inj; [exact (pt_wf_NoDup _ _ _ _ Hwf)|..]; done. }
  split_and!.
  - rewrite !pt_pages_S. f_equal. apply bind_ext. intros j Hj%elem_of_seqZ.
    destruct (decide (j = i)) as [->|Hji].
    + unfold sub_pages. by rewrite He, Vi, IHp.
    + apply sub_pages_ext; [apply He; lia|]. intros q c. apply Hsub; [lia|done].
  - intros va'. cbn [leaf_addr]. set (j := PX (Z.of_nat (S l)) va').
    assert (0 <= j < 512) as Hj by (apply PX_range; lia). rewrite He by done.
    destruct (has_flag (entry m pt j) PTE_V) eqn:Vj; [|done].
    destruct (decide (j = i)) as [->|Hji]; [done|].
    apply leaf_addr_ext. intros q c Hq. apply (Hsub j); [done..|].
    unfold sub_pages. by rewrite Vj.
  - intros Hd. apply (dirs_ok_update l m _ pt i); [done| | |].
    + intros j Hj Hji. split; [by apply He|]. intros p' c. by apply Hsub.
    + rewrite He by done. by apply Hd.
    + rewrite He by done. by apply IHd, Hd.
Qed.

(** The entry depends only on the page of the address. *)
Lemma same_leaf_addr l m pt va va' :
  same_leaf l va va' -> leaf_addr l m pt va' = leaf_addr l m pt va.
Proof.
  revert pt. induction l as [|l IH]; intros pt Hs; cbn [leaf_addr].
  - pose proof (Hs 0%nat ltac:(lia)) as E. change (Z.of_nat 0) with 0 in E. by rewrite E.
  - rewrite (Hs (S l)) by done. case_match; [|done]. apply IH. intros k Hk. apply Hs. lia.
Qed.

Lemma store_leaf_lookup l m pt va a v va' :
  pt_wf l m pt [] -> leaf_addr l m pt va = Some a -> 0 <= v < 2 ^ 64 ->
  (same_leaf l va va' ->
     lookup_pte l (store64 a v m) pt va' = if has_flag v PTE_V then Some v else None) /\
  (~ same_leaf l va va' -> lookup_pte l (store64 a v m) pt va' = lookup_pte l m pt va').
Proof.
  intros Hwf Ha Hv. destruct (store_leaf_shape l m pt va a v Hwf Ha) as (_ & Hl & _).
  unfold lookup_pte. rewrite Hl. split.
  - intros Hs. assert (leaf_addr l m pt va' = Some a) as ->.
    { by rewrite (same_leaf_addr l m pt va va'). }
    cbn. by rewrite load64_store64.
  - intros Hs. destruct (leaf_addr l m pt va') as [a'|] eqn:Ha'; [|done]. cbn.
    destruct (leaf_addr_inj _ _ _ _ _ _ _ Hwf Ha Ha') as [[? _]|[_ Hd]]; [done|].
    rewrite load64_store64_out; [done|lia].
Qed.

Lemma same_leaf_page va va' :
  0 <= va < 2 ^ 39 -> 0 <= va' < 2 ^ 39 -> same_leaf 2 va va' <-> va / 4096 = va' / 4096.
Proof.
  intros Hva Hva'. split.
  - intros Hs. pose proof (va_fields va ltac:(lia)) as E. pose proof (va_fields va' ltac:(lia)) as E'.
    pose proof (Hs 0%nat ltac:(lia)) as E0. pose proof (Hs 1%nat ltac:(lia)) as E1.
    pose proof (Hs 2%nat ltac:(lia)) as E2. 
    change (Z.of_nat 0) with 0 in E0. change (Z.of_nat 1) with 1 in E1. change (Z.of_nat 2) with 2 in E2.
    rewrite <- E0, <- E1, <- E2 in E'. Z.div_mod_to_equations. lia.
  - intros E k _. rewrite !PX_eq by lia.
    replace (2 ^ (12 + 9 * Z.of_nat k)) with (4096 * 2 ^ (9 * Z.of_nat k)) by (rewrite Z.pow_add_r; lia).
    by rewrite <- !Z.div_div, E by lia.
Qed.

End wf.

Lemma lookup_leaf m pt va a :
  leaf_addr 2 m pt va = Some a ->
  pt_lookup m pt va = if has_flag (load64 m a) PTE_V then Some (load64 m a) else None.
Proof. intros Ha. unfold pt_lookup, lookup_pte. by rewrite Ha. Qed.

Lemma lookup_no_leaf m pt va : leaf_addr 2 m pt va = None -> pt_lookup m pt va = None.
Proof. intros Ha. unfold pt_lookup, lookup_pte. by rewrite Ha. Qed.

Lemma lookup_pte_page m pt va va' :
  0 <= va < 2 ^ 39 -> 0 <= va' < 2 ^ 39 -> va / 4096 = va' / 4096 ->
  pt_lookup m pt va' = pt_lookup m pt va.
Proof.
  intros Hva Hva' E. unfold pt_lookup, lookup_pte. rewrite (same_leaf_addr 2 m pt va va'); [done|].
  by apply same_leaf_page.
Qed.

Lemma walk_noalloc `{Linker} pt va m :
  va < MAXVA -> walk pt va false m = Ok (default 0 (leaf_addr 2 (m_mem m) pt va)) m.
Proof.
  intros Hva. unfold walk. destruct (Z.leb_spec MAXVA va); [lia|]. apply walk_loop_noalloc.
Qed.

Lemma walk_leaf `{Linker} pt va m r :
  va < MAXVA -> leaf_addr 2 (m_mem m) pt va = Some r -> walk pt va false m = Ok r m.
Proof. intros Hva Hr. rewrite walk_noalloc by done. by rewrite Hr. Qed.

Lemma pt_pages_O m pt : pt_pages 0 m pt = [pt].
Proof. done. Qed.

Lemma dirs_ok_S l m pt i :
  dirs_ok (S l) m pt -> 0 <= i < 512 -> has_flag (entry m pt i) PTE_V = true ->
  has_flag (entry m pt i) PTE_RWX = false /\ dirs_ok l m (PTE2PA (entry m pt i)).
Proof. intros Hd. apply Hd. Qed.

(** No valid leaf entry. *)
Fixpoint no_leaf (l : nat) (m : gmap Z Z) (pt : Z) : Prop :=
  match l with
  | O => forall i, 0 <= i < 512 -> has_flag (entry m pt i) PTE_V = false
  | S l' => forall i, 0 <= i < 512 -> has_flag (entry m pt i) PTE_V = true ->
      no_leaf l' m (PTE2PA (entry m pt i))
  end.

Lemma no_leaf_ext l m m' pt :
  (forall p c, p ∈ pt_pages l m pt -> in_page p c -> load8 m c = load8 m' c) ->
  no_leaf l m pt -> no_leaf l m' pt.
Proof.
  revert pt. induction l as [|l IH]; intros pt Hext Hd; cbn [no_leaf] in *; intros i Hi;
    rewrite <- (entry_ext m m' pt i) by (try lia; intros c; apply Hext, pt_pages_root); [auto|].
  intros HV. apply IH; [|auto]. intros p c Hp. apply Hext. by apply (pt_pages_child l m pt i).
Qed.

(** A table with no mapping has no valid leaf entry. *)
Lemma no_leaf_lookup m pt :
  (forall va, 0 <= va < 2 ^ 39 -> pt_lookup m pt va = None) -> no_leaf 2 m pt.
Proof.
  intros Hn i Hi HV j Hj HV' k Hk. apply not_true_iff_false. intros HVk.
  set (va := i * 2 ^ 30 + j * 2 ^ 21 + k * 2 ^ 12).
  assert (PX 2 va = i /\ PX 1 va = j /\ PX 0 va = k) as (E2 & E1 & E0).
  { subst va. rewrite !PX_eq by lia. simpl Z.add. simpl Z.mul. Z.div_mod_to_equations. lia. }
  specialize (Hn va ltac:(lia)). unfold pt_lookup, lookup_pte in Hn. cbn [leaf_addr] in Hn.
  change (Z.of_nat 2) with 2 in Hn. change (Z.of_nat 1) with 1 in Hn.
  rewrite E2, HV, E1, HV', E0 in Hn. cbn in Hn. unfold entry in Hn, HVk.
  by rewrite HVk in Hn.
Qed.

(** From here on tables are used through the lemmas above. *)
#[global] Opaque pt_pages lookup_pte leaf_addr dirs_ok walk_loop.
