(* ===== verification/Vm.v ===== *)
(** * Virtual memory ([kernel/vm.c])

    Mapping, unmapping, growing, copying and freeing address spaces, and the
    copies between kernel and user memory. Kernel buffers that are not in
    physical-memory bytes of the model are lists of bytes: [copyout] takes
    the bytes to copy, [copyin] and [copyinstr] return the bytes they stored
    at [dst]. *)

From S2P Require Import Prelude Riscv Machine Spinlock PhysMem Kalloc PageTable.

Section vm.
Context `{Linker}.

Definition walkaddr (pagetable va : Z) : M machine Z :=
  if MAXVA <=? va then ret 0 else
  pte <- walk pagetable va false ;;
  if pte =? 0 then ret 0 else
  v <- mload64 pte ;;
  if negb (has_flag v PTE_V) then ret 0 else
  if negb (has_flag v PTE_U) then ret 0 else
  ret (PTE2PA v).

(** The value [mappages] stores: [PA2PTE(pa) | perm | PTE_V]. *)
Definition make_pte (pa perm : Z) : Z := u64 (Z.lor (Z.lor (PA2PTE pa) perm) PTE_V).

Fixpoint mappages_loop (fuel : nat) (pagetable a last pa perm : Z) : M machine Z :=
  match fuel with
  | O => nofuel
  | S fuel' =>
      pte <- walk pagetable a true ;;
      if pte =? 0 then ret (-1) else
      v <- mload64 pte ;;
      if has_flag v PTE_V then panic "mappages: remap" else
      mstore64 pte (make_pte pa perm) ;;
      if a =? last then ret 0 else
      mappages_loop fuel' pagetable (u64 (a + PGSIZE)) last (u64 (pa + PGSIZE)) perm
  end.

(** Fuel: the pages from [a] to [last]; when the range wraps around, [walk]
    panics at the latest at [MAXVA]. *)
Definition mappages (pagetable va size pa perm : Z) : M machine Z :=
  if size =? 0 then panic "mappages: size" else
  let a := PGROUNDDOWN va in
  let last := PGROUNDDOWN (u64 (va + size - 1)) in
  let top := if a <=? last then last else MAXVA in
  mappages_loop (S (S (Z.to_nat ((top - a) / PGSIZE)))) pagetable a last pa perm.

Definition kvmmap (kpgtbl va pa sz perm : Z) : M machine unit :=
  r <- mappages kpgtbl va sz pa perm ;;
  if negb (r =? 0) then panic "kvmmap" else ret tt.

Fixpoint uvmunmap_loop (fuel : nat) (pagetable a last : Z) (do_free : bool) : M machine unit :=
  match fuel with
  | O => nofuel
  | S fuel' =>
      if negb (a <? last) then ret tt else
      pte <- walk pagetable a false ;;
      if pte =? 0 then panic "uvmunmap: walk" else
      v <- mload64 pte ;;
      if negb (has_flag v PTE_V) then panic "uvmunmap: not mapped" else
      if PTE_FLAGS v =? PTE_V then panic "uvmunmap: not a leaf" else
      when do_free (kfree (PTE2PA v)) ;;
      mstore64 pte 0 ;;
      uvmunmap_loop fuel' pagetable (u64 (a + PGSIZE)) last do_free
  end.

(** Fuel: one iteration per page and the final test; [walk] panics at
    [MAXVA] before [a] can wrap around. *)
Definition uvmunmap (pagetable va npages : Z) (do_free : bool) : M machine unit :=
  if negb (va mod PGSIZE =? 0) then panic "uvmunmap: not aligned" else
  let last := u64 (va + npages * PGSIZE) in
  uvmunmap_loop (S (S (Z.to_nat ((last - va) / PGSIZE)))) pagetable va last do_free.

Definition uvmcreate : M machine Z :=
  pagetable <- kalloc ;;
  if pagetable =? 0 then ret 0 else
  mem_op (memset pagetable 0 PGSIZE) ;;
  ret pagetable.

(** [src] is the [initcode] byte array, [sz] its size. *)
Definition uvmfirst (pagetable : Z) (src : list Z) (sz : Z) : M machine unit :=
  if PGSIZE <=? sz then panic "uvmfirst: more than a page" else
  mem <- kalloc ;;
  mem_op (memset mem 0 PGSIZE) ;;
  mappages pagetable 0 PGSIZE mem (Z.lor (Z.lor (Z.lor PTE_W PTE_R) PTE_X) PTE_U) ;;
  mem_op (write_bytes mem (take (Z.to_nat sz) src)).

Definition uvmdealloc (pagetable oldsz newsz : Z) : M machine Z :=
  if oldsz <=? newsz then ret oldsz else
  when (PGROUNDUP newsz <? PGROUNDUP oldsz)
    (let npages := s32 ((PGROUNDUP oldsz - PGROUNDUP newsz) / PGSIZE) in
     uvmunmap pagetable (PGROUNDUP newsz) (u64 npages) true) ;;
  ret newsz.

Fixpoint uvmalloc_loop (fuel : nat) (pagetable a oldsz newsz xperm : Z) : M machine Z :=
  match fuel with
  | O => nofuel
  | S fuel' =>
      if negb (a <? newsz) then ret newsz else
      mem <- kalloc ;;
      if mem =? 0 then uvmdealloc pagetable a oldsz ;; ret 0 else
      mem_op (memset mem 0 PGSIZE) ;;
      r <- mappages pagetable a PGSIZE mem (Z.lor (Z.lor PTE_R PTE_U) xperm) ;;
      if negb (r =? 0) then kfree mem ;; uvmdealloc pagetable a oldsz ;; ret 0 else
      uvmalloc_loop fuel' pagetable (u64 (a + PGSIZE)) oldsz newsz xperm
  end.

Definition uvmalloc (pagetable oldsz newsz xperm : Z) : M machine Z :=
  if newsz <? oldsz then ret oldsz else
  let oldsz := PGROUNDUP oldsz in
  uvmalloc_loop (S (S (Z.to_nat ((newsz - oldsz) / PGSIZE)))) pagetable oldsz oldsz newsz xperm.

(** The loop of [freewalk] over the entries from [i] on; [rec] is the
    recursive call. *)
Fixpoint freewalk_loop (rec : Z -> M machine unit) (n : nat) (pagetable i : Z) : M machine unit :=
  match n with
  | O => ret tt
  | S n' =>
      pte <- mload64 (pagetable + 8 * i) ;;
      (if has_flag pte PTE_V && negb (has_flag pte PTE_RWX) then
         rec (PTE2PA pte) ;; mstore64 (pagetable + 8 * i) 0
       else if has_flag pte PTE_V then panic "freewalk: leaf"
       else ret tt) ;;
      freewalk_loop rec n' pagetable (i + 1)
  end.

(** Fuel: the recursion depth. *)
Fixpoint freewalk_rec (depth : nat) (pagetable : Z) : M machine unit :=
  match depth with
  | O => nofuel
  | S depth' => freewalk_loop (freewalk_rec depth') 512 pagetable 0 ;; kfree pagetable
  end.

(** A page table has three levels. *)
Definition freewalk (pagetable : Z) : M machine unit := freewalk_rec 3 pagetable.

Definition uvmfree (pagetable sz : Z) : M machine unit :=
  when (0 <? sz) (uvmunmap pagetable 0 (PGROUNDUP sz / PGSIZE) true) ;;
  freewalk pagetable.

Fixpoint uvmcopy_loop (fuel : nat) (old new i sz : Z) : M machine Z :=
  match fuel with
  | O => nofuel
  | S fuel' =>
      let err := uvmunmap new 0 (i / PGSIZE) true ;; ret (-1) in
      if negb (i <? sz) then ret 0 else
      pte <- walk old i false ;;
      if pte =? 0 then panic "uvmcopy: pte should exist" else
      v <- mload64 pte ;;
      if negb (has_flag v PTE_V) then panic "uvmcopy: page not present" else
      let pa := PTE2PA v in
      let flags := PTE_FLAGS v in
      mem <- kalloc ;;
      if mem =? 0 then err else
      mem_op (memmove mem pa PGSIZE) ;;
      r <- mappages new i PGSIZE mem flags ;;
      if negb (r =? 0) then kfree mem ;; err else
      uvmcopy_loop fuel' old new (u64 (i + PGSIZE)) sz
  end.

Definition uvmcopy (old new sz : Z) : M machine Z :=
  uvmcopy_loop (S (S (Z.to_nat (sz / PGSIZE)))) old new 0 sz.

Definition uvmclear (pagetable va : Z) : M machine unit :=
  pte <- walk pagetable va false ;;
  if pte =? 0 then panic "uvmclear" else
  v <- mload64 pte ;;
  mstore64 pte (Z.land v (Z.lnot PTE_U)).

(** ** Copies between kernel and user memory *)

Fixpoint copyout_loop (fuel : nat) (pagetable dstva : Z) (src : list Z) : M machine Z :=
  match fuel with
  | O => nofuel
  | S fuel' =>
      let len := Z.of_nat (length src) in
      if negb (0 <? len) then ret 0 else
      let va0 := PGROUNDDOWN dstva in
      pa0 <- walkaddr pagetable va0 ;;
      if pa0 =? 0 then ret (-1) else
      let n := PGSIZE - (dstva - va0) in
      let n := if len <? n then len else n in
      mem_op (write_bytes (pa0 + (dstva - va0)) (take (Z.to_nat n) src)) ;;
      copyout_loop fuel' pagetable (u64 (va0 + PGSIZE)) (drop (Z.to_nat n) src)
  end.

(** Fuel: every iteration but the first and the last copies a page. *)
Definition copyout (pagetable dstva : Z) (src : list Z) : M machine Z :=
  copyout_loop (S (S (S (Z.to_nat (Z.of_nat (length src) / PGSIZE))))) pagetable dstva src.

Fixpoint copyin_loop (fuel : nat) (pagetable : Z) (dst : list Z) (srcva len : Z) :
    M machine (Z * list Z) :=
  match fuel with
  | O => nofuel
  | S fuel' =>
      if negb (0 <? len) then ret (0, dst) else
      let va0 := PGROUNDDOWN srcva in
      pa0 <- walkaddr pagetable va0 ;;
      if pa0 =? 0 then ret (-1, dst) else
      let n := PGSIZE - (srcva - va0) in
      let n := if len <? n then len else n in
      bytes <- gets (fun m => read_bytes (m_mem m) (pa0 + (srcva - va0)) (Z.to_nat n)) ;;
      copyin_loop fuel' pagetable (dst ++ bytes) (u64 (va0 + PGSIZE)) (len - n)
  end.

(** The return value and the bytes stored at [dst]. *)
Definition copyin (pagetable srcva len : Z) : M machine (Z * list Z) :=
  copyin_loop (S (S (S (Z.to_nat (len / PGSIZE))))) pagetable [] srcva len.

(** The inner loop of [copyinstr] over [n] bytes at [p]: the bytes stored,
    what is left of [max], and [got_null]. *)
Fixpoint copyinstr_page (n : nat) (p : Z) (m : gmap Z Z) : list Z * bool :=
  match n with
  | O => ([], false)
  | S n' =>
      let c := load8 m p in
      if c =? 0 then ([0], true)
      else let '(bytes, got_null) := copyinstr_page n' (p + 1) m in (c :: bytes, got_null)
  end.

Fixpoint copyinstr_loop (fuel : nat) (pagetable : Z) (dst : list Z) (srcva max : Z)
    (got_null : bool) : M machine (Z * list Z) :=
  match fuel with
  | O => nofuel
  | S fuel' =>
      if got_null then ret (0, dst) else
      if negb (0 <? max) then ret (-1, dst) else
      let va0 := PGROUNDDOWN srcva in
      pa0 <- walkaddr pagetable va0 ;;
      if pa0 =? 0 then ret (-1, dst) else
      let n := PGSIZE - (srcva - va0) in
      let n := if max <? n then max else n in
      page <- gets (fun m => copyinstr_page (Z.to_nat n) (pa0 + (srcva - va0)) (m_mem m)) ;;
      let '(bytes, got) := page in
      copyinstr_loop fuel' pagetable (dst ++ bytes) (u64 (va0 + PGSIZE)) (max - n) got
  end.

Definition copyinstr (pagetable srcva max : Z) : M machine (Z * list Z) :=
  copyinstr_loop (S (S (S (Z.to_nat (max / PGSIZE))))) pagetable [] srcva max false.

End vm.
