(* ===== verification/VmSpec.v ===== *)
(** * Specification of the address-space operations of [kernel/vm.c]

    [vm_inv D fl pt m]: the page table rooted at [pt] is well formed, the
    free list is [fl], and the pages in [D] (data pages, other tables) are
    none of these. Each operation is specified by what it does to
    [pt_lookup], by the conservation of pages between table, data and free
    list, and by a frame: memory outside named pages is untouched. *)

From S2P Require Import Prelude Riscv Machine Spinlock PhysMem Kalloc PageTable Vm.

(** Permutations of concatenations of lists of pages, by counting. *)
Lemma count_cons_app (x : Z) l a :
  count_occ Z.eq_dec (x :: l) a = (count_occ Z.eq_dec [x] a + count_occ Z.eq_dec l a)%nat.
Proof. apply (count_occ_app Z.eq_dec [x] l a). Qed.

Lemma count_reverse l a : count_occ Z.eq_dec (reverse l) a = count_occ Z.eq_dec l a.
Proof. apply Permutation_count_occ. by rewrite reverse_Permutation. Qed.

Ltac perm_count a :=
  repeat match goal with
  | H : _ ≡ₚ _ |- _ => rewrite (Permutation_count_occ Z.eq_dec) in H; specialize (H a)
  end;
  repeat (rewrite ?count_occ_app, ?count_reverse in *;
    match goal with
    | H : context [count_occ Z.eq_dec (?x :: ?l) a] |- _ =>
        lazymatch l with [] => fail | _ => rewrite (count_cons_app x l a) in H end
    | |- context [count_occ Z.eq_dec (?x :: ?l) a] =>
        lazymatch l with [] => fail | _ => rewrite (count_cons_app x l a) end
    end);
  rewrite ?count_occ_app, ?count_reverse, ?count_occ_nil in *; lia.

Ltac perm := apply (Permutation_count_occ Z.eq_dec); let a := fresh in intros a; perm_count a.

Section spec.
Context `{KernelLayout}.

Definition vm_inv (D fl : list Z) (pt : Z) (m : machine) : Prop :=
  quiet m /\ kmem_inv m fl /\ pt_wf 2 (m_mem m) pt (D ++ fl) /\ dirs_ok 2 (m_mem m) pt.

(** Only memory in the pages [K] differs. *)
Definition vm_frame (K : list Z) (m m' : machine) : Prop :=
  m_core m' = m_core m /\ m_locks m' = m_locks m /\
  forall c, (forall p, p ∈ K -> ~ in_page p c) -> load8 (m_mem m') c = load8 (m_mem m) c.

Lemma vm_frame_refl K m : vm_frame K m m.
Proof. done. Qed.

Lemma vm_frame_trans K m1 m2 m3 : vm_frame K m1 m2 -> vm_frame K m2 m3 -> vm_frame K m1 m3.
Proof.
  intros (Hc & Hl & Hm) (Hc' & Hl' & Hm'). split_and!; [congruence..|].
  intros c Hk. by rewrite Hm', Hm.
Qed.

Lemma vm_frame_mono K K' m m' : (forall p, p ∈ K -> p ∈ K') -> vm_frame K m m' -> vm_frame K' m m'.
Proof. intros Hs (Hc & Hl & Hm). split_and!; [done..|]. intros c Hk. apply Hm. auto. Qed.

Lemma quiet_frame K m m' : vm_frame K m m' -> quiet m -> quiet m'.
Proof.
  intros (Hc & Hl & _) [Hs [name Hf]]. split; [by rewrite Hc|]. exists name. by rewrite Hl.
Qed.

(** Pages outside [K] keep their bytes, and words in them. *)
Lemma frame_page K m m' p c :
  vm_frame K m m' -> Forall page_ok K -> page_ok p -> p ∉ K -> in_page p c ->
  load8 (m_mem m') c = load8 (m_mem m) c.
Proof.
  intros (_ & _ & Hm) HK Hp Hn Hc. apply Hm. intros q Hq.
  eapply Forall_forall in HK; [|exact Hq]. apply (page_disjoint p q); [done..| |done]. by intros ->.
Qed.

Lemma vm_inv_pages_ok D fl pt m p : vm_inv D fl pt m -> p ∈ pt_pages 2 (m_mem m) pt -> page_ok p.
Proof. intros (_ & _ & [_ Hok] & _) Hp. by eapply Forall_forall in Hok. Qed.

Lemma vm_inv_fl_ok D fl pt m : vm_inv D fl pt m -> Forall page_ok fl.
Proof. by intros (_ & (_ & _ & Hok) & _). Qed.

Lemma vm_inv_NoDup D fl pt m : vm_inv D fl pt m -> NoDup (pt_pages 2 (m_mem m) pt ++ D ++ fl).
Proof. by intros (_ & _ & [Hnd _] & _). Qed.

Lemma pt_wf_weaken l m pt L L' : L' ⊆+ L -> pt_wf l m pt L -> pt_wf l m pt L'.
Proof.
  intros Hs [Hnd Hok]. split; [|done]. eapply submseteq_NoDup; [exact Hnd|].
  by apply submseteq_app.
Qed.

Lemma vm_inv_wf0 D fl pt m : vm_inv D fl pt m -> pt_wf 2 (m_mem m) pt [].
Proof. intros (_ & _ & Hwf & _). eapply pt_wf_weaken; [|exact Hwf]. apply submseteq_nil_l. Qed.

(** Reordering and forgetting the pages held elsewhere. *)
Lemma vm_inv_sub D D' fl pt m : D' ⊆+ D -> vm_inv D fl pt m -> vm_inv D' fl pt m.
Proof.
  intros Hs (Hq & Hk & Hwf & Hd). split_and!; [done..| |done].
  eapply pt_wf_weaken; [|exact Hwf]. by apply submseteq_app.
Qed.

(** ** Allocation around a table *)

Lemma vm_kalloc D fl pt m a :
  vm_inv D (a :: fl) pt m ->
  exists m', kalloc m = Ok a m' /\ vm_inv (a :: D) fl pt m' /\ vm_frame [a] m m' /\
    page_ok a /\ (forall va, pt_lookup (m_mem m') pt va = pt_lookup (m_mem m) pt va) /\
    pt_pages 2 (m_mem m') pt = pt_pages 2 (m_mem m) pt.
Proof.
  intros (Hq & Hk & Hwf & Hd). exists (kalloced a m).
  pose proof Hk as (_ & _ & [Ha _]%Forall_cons).
  assert (vm_frame [a] m (kalloced a m)) as Hf.
  { split_and!; [done..|]. intros c Hc. apply kalloced_frame. apply Hc. left. }
  assert (forall p c, p ∈ pt_pages 2 (m_mem m) pt -> in_page p c ->
            load8 (m_mem m) c = load8 (m_mem (kalloced a m)) c) as He.
  { intros p c Hp Hc. symmetry. eapply frame_page; [exact Hf|by apply Forall_singleton| | |exact Hc].
    - by eapply pt_wf_ok.
    - intros ->%list_elem_of_singleton. eapply pt_wf_free; [exact Hwf|exact Hp|]. rewrite elem_of_app. right. left. }
  pose proof (pt_pages_ext _ _ _ _ He) as Hpp.
  split; [by eapply kalloc_cons|]. split; [|split_and!; [exact Hf|exact Ha| |exact Hpp]].
  - split_and!; [by apply quiet_kalloced|by apply kmem_inv_kalloced| |by eapply dirs_ok_ext].
    destruct Hwf as [Hnd Hok]. split; rewrite Hpp; [|done].
    eapply submseteq_NoDup; [exact Hnd|]. apply submseteq_app; [done|]. cbn.
    by rewrite Permutation_middle.
  - intros va. by apply lookup_pte_ext.
Qed.

Lemma vm_kfree D fl pt m a :
  vm_inv (a :: D) fl pt m -> page_ok a ->
  exists m', kfree a m = Ok tt m' /\ vm_inv D (a :: fl) pt m' /\ vm_frame [a] m m' /\
    (forall va, pt_lookup (m_mem m') pt va = pt_lookup (m_mem m) pt va) /\
    (forall va, leaf_addr 2 (m_mem m') pt va = leaf_addr 2 (m_mem m) pt va) /\
    pt_pages 2 (m_mem m') pt = pt_pages 2 (m_mem m) pt.
Proof.
  intros (Hq & Hk & Hwf & Hd) Ha. exists (kfreed a m).
  assert (vm_frame [a] m (kfreed a m)) as Hf.
  { split_and!; [done..|]. intros c Hc. apply kfreed_frame. apply Hc. left. }
  assert (forall p c, p ∈ pt_pages 2 (m_mem m) pt -> in_page p c ->
            load8 (m_mem m) c = load8 (m_mem (kfreed a m)) c) as He.
  { intros p c Hp Hc. symmetry. eapply frame_page; [exact Hf|by apply Forall_singleton| | |exact Hc].
    - by eapply pt_wf_ok.
    - intros ->%list_elem_of_singleton. eapply pt_wf_free; [exact Hwf|exact Hp|]. left. }
  pose proof (pt_pages_ext _ _ _ _ He) as Hpp.
  split; [by apply kfree_run|]. split; [|split_and!; [exact Hf| | |exact Hpp]].
  - destruct Hwf as [Hnd Hok]. split_and!; [by apply quiet_kfreed| | |by eapply dirs_ok_ext].
    + apply kmem_inv_kfreed; [done..|]. apply NoDup_app in Hnd as (_ & _ & Hnd).
      cbn in Hnd. apply NoDup_cons in Hnd as [Hnin _]. intros Hin. apply Hnin.
      rewrite elem_of_app. by right.
    + split; rewrite Hpp; [|done].
      eapply submseteq_NoDup; [exact Hnd|]. apply submseteq_app; [done|]. cbn.
      by rewrite Permutation_middle.
  - intros va. by apply lookup_pte_ext.
  - intros va. by apply leaf_addr_ext.
Qed.

(** Writes to pages held elsewhere do not affect the table. *)
Lemma vm_inv_data K D fl pt m m' :
  vm_inv D fl pt m -> vm_frame K m m' -> m_freelist m' = m_freelist m ->
  Forall page_ok K -> (forall p, p ∈ K -> p ∈ D) ->
  vm_inv D fl pt m' /\ pt_pages 2 (m_mem m') pt = pt_pages 2 (m_mem m) pt /\
  (forall va, pt_lookup (m_mem m') pt va = pt_lookup (m_mem m) pt va).
Proof.
  intros Hinv Hf Efl HK HKD. pose proof (vm_inv_NoDup _ _ _ _ Hinv) as (_ & Hdis & (_ & Hdis' & _)%NoDup_app)%NoDup_app.
  pose proof (vm_inv_fl_ok _ _ _ _ Hinv) as Hflok.
  assert (forall p c, p ∈ pt_pages 2 (m_mem m) pt -> in_page p c -> load8 (m_mem m) c = load8 (m_mem m') c) as He.
  { intros p c Hp Hc. symmetry. eapply frame_page; [exact Hf|exact HK| | |exact Hc].
    - by eapply vm_inv_pages_ok.
    - intros HpK. apply (Hdis p Hp). rewrite elem_of_app. left. auto. }
  destruct Hinv as (Hq & Hk & Hwf & Hd). pose proof (pt_pages_ext _ _ _ _ He) as Hpp.
  split_and!; [|exact Hpp|intros va; by apply lookup_pte_ext]. split_and!.
  - by eapply quiet_frame.
  - eapply kmem_inv_frame; [exact Hk|exact Efl|]. intros p c Hp Hc.
    eapply frame_page; [exact Hf|exact HK| | |exact Hc].
    + by eapply Forall_forall in Hflok.
    + intros HpK. apply (Hdis' p); auto.
  - destruct Hwf as [Hnd Hok]. split; by rewrite Hpp.
  - by eapply dirs_ok_ext.
Qed.

(** From [fl], [m] to [fl'], [m'] the table may have taken pages from the
    free list; only table and free pages changed. *)
Definition vm_grows (D : list Z) (pt : Z) (fl : list Z) (m : machine) (fl' : list Z) (m' : machine) : Prop :=
  vm_inv D fl' pt m' /\ vm_frame (pt_pages 2 (m_mem m) pt ++ fl) m m' /\
  pt_pages 2 (m_mem m') pt ++ fl' ≡ₚ pt_pages 2 (m_mem m) pt ++ fl.

Lemma vm_grows_trans D pt fl1 m1 fl2 m2 fl3 m3 :
  vm_grows D pt fl1 m1 fl2 m2 -> vm_grows D pt fl2 m2 fl3 m3 -> vm_grows D pt fl1 m1 fl3 m3.
Proof.
  intros (_ & Hf & Hp) (Hi' & Hf' & Hp'). split_and!; [done| |by rewrite Hp'].
  eapply vm_frame_trans; [exact Hf|]. eapply vm_frame_mono; [|exact Hf'].
  intros p. by rewrite Hp.
Qed.

(** ** [walk] *)

Lemma vm_walk D fl pt m va :
  vm_inv D fl pt m -> va < MAXVA ->
  exists r m' fl', walk pt va true m = Ok r m' /\ vm_grows D pt fl m fl' m' /\
    (length fl <= length fl' + 2)%nat /\
    (forall va', pt_lookup (m_mem m') pt va' = pt_lookup (m_mem m) pt va') /\
    (if decide (r = 0) then fl' = [] else leaf_addr 2 (m_mem m') pt va = Some r).
Proof.
  intros (Hq & Hk & Hwf & Hd) Hva. unfold walk. destruct (Z.leb_spec MAXVA va); [lia|].
  destruct (walk_loop_alloc 2 pt va fl m) as (r & m' & Hrun & used & fl' & -> & Hlen & Hc & Hl & Hk' & Hp & Hlk & Hr & Hd' & Hf).
  { done. } { done. }
  { eapply pt_wf_weaken; [|exact Hwf]. by apply submseteq_inserts_l. }
  exists r, m', fl'. split; [done|]. split; [split_and!|split; [rewrite length_app; lia|done]].
  - split_and!; [|done| |by apply Hd'].
    + destruct Hq as [Hs [name Hfr]]. split; [by rewrite Hc|]. exists name. by rewrite Hl.
    + destruct Hwf as [Hnd Hok]. split.
      * rewrite Hp. eapply submseteq_NoDup; [exact Hnd|]. rewrite <- app_assoc.
        apply submseteq_app; [done|]. rewrite (Permutation_app_swap_app used D fl'). done.
      * rewrite Hp, Forall_app. split; [done|]. destruct Hk as (_ & _ & [Hu _]%Forall_app). done.
  - split_and!; [done..|]. intros c Hout. apply Hf. intros p Hp'. apply Hout.
    rewrite app_assoc, elem_of_app. by left.
  - rewrite Hp. by rewrite app_assoc.
Qed.

(** ** Storing a leaf entry *)

Definition stored (a v : Z) (m : machine) : machine := m <| m_mem ::= store64 a v |>.

Lemma mstore64_run a v m : mstore64 a v m = Ok tt (stored a v m).
Proof. done. Qed.

Lemma vm_store_leaf D fl pt m va a v :
  vm_inv D fl pt m -> 0 <= va < MAXVA -> leaf_addr 2 (m_mem m) pt va = Some a -> 0 <= v < 2 ^ 64 ->
  vm_grows D pt fl m fl (stored a v m) /\
  vm_frame (pt_pages 2 (m_mem m) pt) m (stored a v m) /\
  pt_pages 2 (m_mem (stored a v m)) pt = pt_pages 2 (m_mem m) pt /\
  (forall va', 0 <= va' < 2 ^ 39 -> pt_lookup (m_mem (stored a v m)) pt va' =
     if decide (va / 4096 = va' / 4096) then (if has_flag v PTE_V then Some v else None)
     else pt_lookup (m_mem m) pt va').
Proof.
  intros Hinv Hva Ha Hv. pose proof (vm_inv_wf0 _ _ _ _ Hinv) as Hwf0.
  destruct (leaf_addr_page _ _ _ _ _ Ha) as (p & Hp & _ & H1 & H2).
  destruct (store_leaf_shape 2 _ pt va a v Hwf0 Ha) as (Hpp & Hll & Hdd).
  destruct Hinv as (Hq & Hk & Hwf & Hd).
  assert (vm_frame [p] m (stored a v m)) as Hf.
  { split_and!; [done..|]. intros c Hc. cbn. apply load8_store64_out.
    specialize (Hc p ltac:(left)). unfold in_page in Hc. lia. }
  assert (page_ok p) as Hpok by (eapply pt_wf_ok; [exact Hwf|exact Hp]).
  split; [split; [split_and!|split]|split_and!].
  - exact Hq.
  - eapply kmem_inv_frame; [exact Hk|done|]. intros q c Hq' Hc.
    eapply frame_page; [exact Hf|by apply Forall_singleton| | |exact Hc].
    + destruct Hk as (_ & _ & Hok). by eapply Forall_forall in Hok.
    + intros ->%list_elem_of_singleton. eapply pt_wf_free; [exact Hwf|exact Hp|].
      rewrite elem_of_app. by right.
  - destruct Hwf as [Hnd Hok]. split; cbn; by rewrite Hpp.
  - by apply Hdd.
  - eapply vm_frame_mono; [|exact Hf]. intros q ->%list_elem_of_singleton.
    rewrite elem_of_app. by left.
  - cbn. by rewrite Hpp.
  - eapply vm_frame_mono; [|exact Hf]. by intros q ->%list_elem_of_singleton.
  - exact Hpp.
  - intros va' Hva'. destruct (store_leaf_lookup 2 _ pt va a v va' Hwf0 Ha Hv) as [Hsame Hdiff].
    change MAXVA with (2 ^ 38) in Hva.
    pose proof (same_leaf_page va va' ltac:(lia) Hva') as Hiff. unfold pt_lookup. cbn.
    destruct (decide (va / 4096 = va' / 4096)) as [E|E]; rewrite <- Hiff in E; auto.
Qed.

(** ** [mappages] *)

Lemma make_pte_facts pa perm :
  0 <= pa < 2 ^ 56 -> pa mod 4096 = 0 -> 0 <= perm < 1024 ->
  make_pte pa perm = Z.lor (PA2PTE pa) (Z.lor perm PTE_V) /\ 0 <= make_pte pa perm < 2 ^ 64 /\
  has_flag (make_pte pa perm) PTE_V = true /\ PTE2PA (make_pte pa perm) = pa /\
  PTE_FLAGS (make_pte pa perm) = Z.lor perm PTE_V.
Proof.
  intros Hpa Hal Hperm.
  assert (0 <= Z.lor perm PTE_V < 1024) as Hr.
  { split; [apply Z.lor_nonneg; split; [lia|done]|].
    destruct (decide (perm = 0)) as [->|]; [done|].
    apply Z.log2_lt_cancel. rewrite Z.log2_lor; [|lia|done].
    change (Z.log2 1024) with 10.
    apply Z.max_lub_lt; [|done]. apply Z.log2_lt_pow2; lia. }
  assert (make_pte pa perm = Z.lor (PA2PTE pa) (Z.lor perm PTE_V)) as E.
  { unfold make_pte. rewrite Z.lor_assoc. apply u64_small. rewrite <- Z.lor_assoc.
    by apply pte_make_range. }
  rewrite E. split_and!; [done|by apply pte_make_range..| |by apply PTE2PA_make|by apply PTE_FLAGS_make].
  rewrite Z.lor_assoc. apply has_V_make.
Qed.

(** One iteration: a page is mapped, or there is no page for the table. *)
Lemma map_step D fl pt m a v :
  vm_inv D fl pt m -> 0 <= a < MAXVA -> pt_lookup (m_mem m) pt a = None ->
  0 <= v < 2 ^ 64 -> has_flag v PTE_V = true ->
  exists r m1 fl', walk pt a true m = Ok r m1 /\ (length fl <= length fl' + 2)%nat /\
  if decide (r = 0)
  then fl' = [] /\ vm_grows D pt fl m fl' m1 /\
       forall va', pt_lookup (m_mem m1) pt va' = pt_lookup (m_mem m) pt va'
  else has_flag (load64 (m_mem m1) r) PTE_V = false /\ vm_grows D pt fl m fl' (stored r v m1) /\
       forall va', 0 <= va' < 2 ^ 39 -> pt_lookup (m_mem (stored r v m1)) pt va' =
         if decide (a / 4096 = va' / 4096) then Some v else pt_lookup (m_mem m) pt va'.
Proof.
  intros Hinv Ha Hnone Hv HV.
  destruct (vm_walk D fl pt m a Hinv) as (r & m1 & fl' & Hw & Hg & Hlen & Hl & Hr); [lia|].
  exists r, m1, fl'. split; [done|]. split; [done|]. case_decide; [done|].
  destruct (vm_store_leaf D fl' pt m1 a r v) as (Hg' & _ & _ & Hl'); [by destruct Hg|done..|].
  split_and!.
  - rewrite <- Hl, (lookup_leaf _ _ _ _ Hr) in Hnone. by destruct (has_flag _ _).
  - by eapply vm_grows_trans.
  - intros va' Hva'. rewrite Hl', HV, Hl by done. done.
Qed.

(** What mapping [k] pages from [a] on to the pages from [pa] on does. *)
Definition mapped (m m' : machine) (pt a pa perm : Z) (k : nat) : Prop :=
  forall va', 0 <= va' < 2 ^ 39 -> pt_lookup (m_mem m') pt va' =
    if decide (a <= va' < a + 4096 * Z.of_nat k)
    then Some (make_pte (pa + (va' / 4096 * 4096 - a)) perm)
    else pt_lookup (m_mem m) pt va'.

Lemma mappages_loop_run D pt perm n fuel a last pa fl m :
  vm_inv D fl pt m -> 0 <= a -> a mod 4096 = 0 -> last = a + 4096 * Z.of_nat n -> last < MAXVA ->
  0 <= pa -> pa mod 4096 = 0 -> pa + 4096 * Z.of_nat n < 2 ^ 56 -> 0 <= perm < 1024 ->
  (forall va, a <= va < last + 4096 -> pt_lookup (m_mem m) pt va = None) -> (n < fuel)%nat ->
  exists r m' fl' k, mappages_loop fuel pt a last pa perm m = Ok r m' /\ vm_grows D pt fl m fl' m' /\
    (length fl <= length fl' + 2 * S n)%nat /\
    (r = 0 /\ k = S n \/ r = -1 /\ fl' = [] /\ (k <= n)%nat) /\ mapped m m' pt a pa perm k.
Proof.
  revert n a pa fl m. induction fuel as [|fuel IH];
    intros n a pa fl m Hinv Ha Hal Hlast Hmax Hpa Hpal Hpmax Hperm Hnone Hfuel; [lia|].
  cbn [mappages_loop]. change MAXVA with (2 ^ 38) in *.
  destruct (make_pte_facts pa perm) as (_ & Hv & HV & _); [lia|done..|].
  destruct (map_step D fl pt m a (make_pte pa perm)) as (r & m1 & fl1 & Hw & Hlen & Hstep);
    [done|change MAXVA with (2 ^ 38); lia|apply Hnone; lia|done..|].
  erewrite bind_ok by exact Hw. case_decide as Hr.
  { destruct Hstep as (-> & Hg & Hl). subst r. exists (-1), m1, [], 0%nat.
    split_and!; [done|done|lia|right; split_and!; [done|done|lia]|].
    intros va' _. rewrite Hl. by rewrite decide_False by lia. }
  destruct Hstep as (HnV & Hg & Hl). apply Z.eqb_neq in Hr. rewrite Hr.
  unfold mload64. mrun. rewrite HnV. erewrite bind_ok by apply mstore64_run.
  destruct (Z.eqb_spec a last) as [El|El].
  - assert (n = 0%nat) as -> by lia. exists 0, (stored r (make_pte pa perm) m1), fl1, 1%nat.
    split_and!; [done|done|lia|by left|]. intros va' Hva'. rewrite Hl by done.
    destruct (decide (a / 4096 = va' / 4096)) as [E|E].
    + rewrite decide_True by (Z.div_mod_to_equations; lia). do 2 f_equal. Z.div_mod_to_equations; lia.
    + rewrite decide_False by (Z.div_mod_to_equations; lia). done.
  - destruct n as [|n]; [lia|]. rewrite !u64_small by (unfold PGSIZE; lia).
    destruct (IH n (a + PGSIZE) (pa + PGSIZE) fl1 (stored r (make_pte pa perm) m1))
      as (r' & m' & fl' & k & Hrun & Hg' & Hlen' & Hr' & Hmap); unfold PGSIZE; try lia; try done.
    + by destruct Hg.
    + rewrite Z.add_mod, Hal by lia. done.
    + rewrite Z.add_mod, Hpal by lia. done.
    + intros va Hva. rewrite Hl by (clear -Ha Hal Hlast Hmax Hva; Z.div_mod_to_equations; lia).
      rewrite decide_False by (Z.div_mod_to_equations; lia). apply Hnone. lia.
    + exists r', m', fl', (S k). split_and!; [exact Hrun|by eapply vm_grows_trans|lia| |].
      * destruct Hr' as [[-> ->]|(-> & -> & Hk)]; [by left|right; split_and!; [done|done|lia]].
      * intros va' Hva'. rewrite (Hmap va' Hva'), (Hl va' Hva'). unfold PGSIZE.
        destruct (decide (a / 4096 = va' / 4096)) as [E|E].
        -- rewrite decide_False by (Z.div_mod_to_equations; lia).
           rewrite decide_True by (Z.div_mod_to_equations; lia).
           do 2 f_equal. Z.div_mod_to_equations; lia.
        -- destruct (decide (a + 4096 <= va' < a + 4096 + 4096 * Z.of_nat k)).
           ++ rewrite decide_True by lia. do 2 f_equal. lia.
           ++ rewrite decide_False by (Z.div_mod_to_equations; lia). done.
Qed.

Lemma mappages_run D pt va size pa perm fl m :
  vm_inv D fl pt m -> 0 <= va -> 0 < size -> va + size <= MAXVA ->
  0 <= pa -> pa mod 4096 = 0 -> pa + size + 4096 < 2 ^ 56 -> 0 <= perm < 1024 ->
  (forall va', PGROUNDDOWN va <= va' < PGROUNDDOWN (va + size - 1) + 4096 ->
     pt_lookup (m_mem m) pt va' = None) ->
  exists r m' fl' k, mappages pt va size pa perm m = Ok r m' /\ vm_grows D pt fl m fl' m' /\
    Z.of_nat (length fl) <= Z.of_nat (length fl') + 2 * ((PGROUNDDOWN (va + size - 1) - PGROUNDDOWN va) / 4096 + 1) /\
    (r = 0 /\ PGROUNDDOWN va + 4096 * Z.of_nat k = PGROUNDDOWN (va + size - 1) + 4096 \/
     r = -1 /\ fl' = [] /\ PGROUNDDOWN va + 4096 * Z.of_nat k <= PGROUNDDOWN (va + size - 1)) /\
    mapped m m' pt (PGROUNDDOWN va) pa perm k.
Proof.
  intros Hinv Hva Hsz Hmax Hpa Hpal Hpmax Hperm Hnone. unfold mappages.
  change MAXVA with (2 ^ 38) in Hmax.
  destruct (Z.eqb_spec size 0) as [|_]; [lia|]. rewrite u64_small by lia.
  pose proof (PGROUNDDOWN_bounds va). pose proof (PGROUNDDOWN_aligned va).
  pose proof (PGROUNDDOWN_bounds (va + size - 1)). pose proof (PGROUNDDOWN_aligned (va + size - 1)).
  set (a := PGROUNDDOWN va) in *. set (last := PGROUNDDOWN (va + size - 1)) in *.
  assert (0 <= a /\ a <= last) as [Ha Hle] by (Z.div_mod_to_equations; lia).
  destruct (Z.leb_spec a last); [|lia].
  assert (last = a + 4096 * Z.of_nat (Z.to_nat ((last - a) / PGSIZE))) as Hn.
  { rewrite Z2Nat.id; unfold PGSIZE; Z.div_mod_to_equations; lia. }
  set (n := Z.to_nat ((last - a) / PGSIZE)) in *.
  destruct (mappages_loop_run D pt perm n (S (S n)) a last pa fl m)
    as (r & m' & fl' & k & Hrun & Hg & Hlen & Hr & Hm); try done; try lia.
  { change MAXVA with (2 ^ 38). lia. }
  exists r, m', fl', k. split_and!; [done|done| | |done].
  { assert ((last - a) / 4096 = Z.of_nat n) by (unfold n, PGSIZE; rewrite Z2Nat.id; Z.div_mod_to_equations; lia). lia. }
  destruct Hr as [[-> ->]|(-> & -> & Hk)]; [left|right]; split_and!; try done; lia.
Qed.

(** A single page. *)
Lemma mappages_one D pt a pa perm fl m :
  vm_inv D fl pt m -> 0 <= a < MAXVA -> a mod 4096 = 0 -> 0 <= pa < PHYSTOP -> pa mod 4096 = 0 -> 0 <= perm < 1024 ->
  pt_lookup (m_mem m) pt a = None ->
  exists r m' fl', mappages pt a PGSIZE pa perm m = Ok r m' /\ vm_grows D pt fl m fl' m' /\ (length fl <= length fl' + 2)%nat /\
    if decide (r = 0)
    then forall va', 0 <= va' < 2 ^ 39 -> pt_lookup (m_mem m') pt va' =
           if decide (a / 4096 = va' / 4096) then Some (make_pte pa perm) else pt_lookup (m_mem m) pt va'
    else r = -1 /\ fl' = [] /\
         forall va', 0 <= va' < 2 ^ 39 -> pt_lookup (m_mem m') pt va' = pt_lookup (m_mem m) pt va'.
Proof.
  intros Hinv Ha Hal Hpa Hpal Hperm Hnone.
  assert (PGROUNDDOWN a = a) as Ea by (by apply PGROUNDDOWN_id).
  assert (PGROUNDDOWN (a + PGSIZE - 1) = a) as El.
  { rewrite PGROUNDDOWN_eq. unfold PGSIZE. Z.div_mod_to_equations. lia. }
  assert (forall va', a <= va' < a + 4096 -> pt_lookup (m_mem m) pt va' = None) as Hn.
  { intros va' Hva'. rewrite <- Hnone. apply lookup_pte_page; change MAXVA with (2 ^ 38) in *;
      Z.div_mod_to_equations; lia. }
  unfold PHYSTOP, KERNBASE in Hpa. change MAXVA with (2 ^ 38) in *.
  destruct (mappages_run D pt a PGSIZE pa perm fl m) as (r & m' & fl' & k & Hrun & Hg & Hlen & Hk & Hm);
    rewrite ?Ea, ?El; unfold PGSIZE; change MAXVA with (2 ^ 38); try done; try lia.
  { Z.div_mod_to_equations; lia. }
  rewrite Ea, El, Z.sub_diag in Hlen. rewrite Ea, El in Hk. rewrite Ea in Hm. exists r, m', fl'.
  split_and!; [done|done|change (0 / 4096) with 0 in Hlen; lia|].
  destruct Hk as [[-> Hk]|(-> & -> & Hk)]; cbn.
  - assert (k = 1%nat) as -> by lia. intros va' Hva'. rewrite Hm by done.
    destruct (decide (a / 4096 = va' / 4096)).
    + rewrite decide_True by (Z.div_mod_to_equations; lia). do 2 f_equal. Z.div_mod_to_equations; lia.
    + rewrite decide_False by (Z.div_mod_to_equations; lia). done.
  - split_and!; [done..|]. assert (k = 0%nat) as -> by lia. intros va' Hva'. rewrite Hm by done.
    by rewrite decide_False by lia.
Qed.

(** A page of the allocator, as [uvmalloc] and [uvmcopy] map it. *)
Lemma mappages_page D pt a pa perm fl m :
  vm_inv D fl pt m -> 0 <= a < MAXVA -> a mod 4096 = 0 -> page_ok pa -> 0 <= perm < 1024 ->
  pt_lookup (m_mem m) pt a = None ->
  exists r m' fl', mappages pt a PGSIZE pa perm m = Ok r m' /\ vm_grows D pt fl m fl' m' /\ (length fl <= length fl' + 2)%nat /\
    if decide (r = 0)
    then forall va', 0 <= va' < 2 ^ 39 -> pt_lookup (m_mem m') pt va' =
           if decide (a / 4096 = va' / 4096) then Some (make_pte pa perm) else pt_lookup (m_mem m) pt va'
    else r = -1 /\ fl' = [] /\
         forall va', 0 <= va' < 2 ^ 39 -> pt_lookup (m_mem m') pt va' = pt_lookup (m_mem m) pt va'.
Proof.
  intros Hinv Ha Hal [Hpal Hpa]. apply mappages_one; [done|done|done| |done].
  pose proof end_low. unfold KERNBASE in *. lia.
Qed.

(** ** [uvmunmap] *)

Lemma lookup_addr pt m va v :
  pt_wf 2 m pt [] -> pt_lookup m pt va = Some v ->
  exists r, leaf_addr 2 m pt va = Some r /\ r <> 0 /\ load64 m r = v /\ has_flag v PTE_V = true.
Proof.
  intros Hwf Hv. destruct (leaf_addr 2 m pt va) as [r|] eqn:Hr.
  - rewrite (lookup_leaf _ _ _ _ Hr) in Hv. exists r.
    destruct (has_flag (load64 m r) PTE_V) eqn:E; [|done]. injection Hv as <-. split_and!; try done.
    apply leaf_addr_page in Hr as (p & Hp & _ & H1 & _).
    pose proof (pt_wf_ok _ _ _ _ _ Hwf Hp) as Hok%page_ok_range. lia.
  - by rewrite (lookup_no_leaf _ _ _ Hr) in Hv.
Qed.

(** [uvmunmap] with [do_free]: the pages mapped in the range go to the free
    list, the last one first. *)
Lemma uvmunmap_loop_free pt vs fuel D fl a last m :
  vm_inv ((PTE2PA <$> vs) ++ D) fl pt m -> Forall page_ok (PTE2PA <$> vs) ->
  0 <= a -> a mod 4096 = 0 -> last = a + 4096 * Z.of_nat (length vs) -> last <= MAXVA ->
  (forall i v, vs !! i = Some v ->
     pt_lookup (m_mem m) pt (a + 4096 * Z.of_nat i) = Some v /\ PTE_FLAGS v <> PTE_V) ->
  (length vs < fuel)%nat ->
  exists m', uvmunmap_loop fuel pt a last true m = Ok tt m' /\
    vm_inv D (reverse (PTE2PA <$> vs) ++ fl) pt m' /\
    vm_frame (pt_pages 2 (m_mem m) pt ++ (PTE2PA <$> vs)) m m' /\
    pt_pages 2 (m_mem m') pt = pt_pages 2 (m_mem m) pt /\
    (forall va', 0 <= va' < 2 ^ 39 -> pt_lookup (m_mem m') pt va' =
       if decide (a <= va' < last) then None else pt_lookup (m_mem m) pt va').
Proof.
  revert fuel fl a m. induction vs as [|v vs IH];
    intros fuel fl a m Hinv Hok Ha Hal Hlast Hmax Hvs Hfuel;
    (destruct fuel as [|fuel]; [cbn in *; lia|]); cbn [uvmunmap_loop].
  { cbn in Hlast. destruct (Z.ltb_spec a last); [lia|]. exists m. cbn.
    split_and!; [done|done|apply vm_frame_refl|done|]. intros va' _. by rewrite decide_False by lia. }
  cbn [length] in *. destruct (Z.ltb_spec a last); [|lia]. cbn [negb].
  cbn in Hinv, Hok. apply Forall_cons in Hok as [Hpok Hok].
  destruct (Hvs 0%nat v eq_refl) as [Hv Hfl]. replace (a + 4096 * Z.of_nat 0) with a in Hv by lia.
  destruct (lookup_addr _ _ _ _ (vm_inv_wf0 _ _ _ _ Hinv) Hv) as (r & Hr & Hr0 & Hload & HV).
  erewrite bind_ok by (apply walk_leaf; [lia|exact Hr]). apply Z.eqb_neq in Hr0. rewrite Hr0. unfold mload64. mrun. rewrite Hload, HV. cbn [negb].
  apply Z.eqb_neq in Hfl. rewrite Hfl. unfold when.
  destruct (vm_kfree ((PTE2PA <$> vs) ++ D) fl pt m (PTE2PA v)) as (m1 & Hrun1 & Hinv1 & Hf1 & Hl1 & Ha1 & Hp1);
    [done..|]. erewrite bind_ok by exact Hrun1. erewrite bind_ok by apply mstore64_run.
  destruct (vm_store_leaf ((PTE2PA <$> vs) ++ D) (PTE2PA v :: fl) pt m1 a r 0)
    as ((Hinv2 & _) & Hf2 & Hp2 & Hl2); [done|lia|by rewrite Ha1|lia|].
  rewrite u64_small by (change MAXVA with (2 ^ 38) in *; unfold PGSIZE; lia).
  destruct (IH fuel (PTE2PA v :: fl) (a + PGSIZE) (stored r 0 m1)) as (m' & Hrun & Hinv' & Hf' & Hp' & Hl');
    [done|done|unfold PGSIZE; lia|unfold PGSIZE; by rewrite Z.add_mod, Hal by lia|unfold PGSIZE; lia|done| |lia|].
  { intros i w Hw. destruct (Hvs (S i) w Hw) as [Hlk Hfw]. split; [|done].
    assert (i < length vs)%nat by (by eapply lookup_lt_Some). unfold PGSIZE.
    change MAXVA with (2 ^ 38) in *.
    rewrite Hl2, Hl1, decide_False by (Z.div_mod_to_equations; lia).
    rewrite <- Hlk. f_equal. lia. }
  exists m'. split_and!; [exact Hrun| | | |].
  - by rewrite fmap_cons, reverse_cons, <- app_assoc.
  - eapply vm_frame_trans; [|eapply vm_frame_trans].
    + eapply vm_frame_mono; [|exact Hf1]. intros p ->%list_elem_of_singleton. cbn.
      rewrite elem_of_app. right. left.
    + eapply vm_frame_mono; [|exact Hf2]. intros p Hp. rewrite Hp1 in Hp. rewrite elem_of_app. by left.
    + eapply vm_frame_mono; [|exact Hf']. intros p. rewrite Hp2, Hp1, !elem_of_app. cbn.
      intros [Hp|Hp]; [by left|right; by right].
  - by rewrite Hp', Hp2, Hp1.
  - intros va' Hva'. rewrite Hl', Hl2, Hl1 by done. unfold PGSIZE.
    destruct (decide (a / 4096 = va' / 4096)).
    + rewrite (decide_True (P := a <= va' < last)) by (Z.div_mod_to_equations; lia). by case_decide.
    + destruct (decide (a + 4096 <= va' < last)).
      * by rewrite decide_True by lia.
      * by rewrite decide_False by (Z.div_mod_to_equations; lia).
Qed.

Lemma uvmunmap_free pt vs D fl a npages m :
  vm_inv ((PTE2PA <$> vs) ++ D) fl pt m -> Forall page_ok (PTE2PA <$> vs) ->
  0 <= a -> a mod 4096 = 0 -> npages = Z.of_nat (length vs) -> a + 4096 * npages <= MAXVA ->
  (forall i v, vs !! i = Some v ->
     pt_lookup (m_mem m) pt (a + 4096 * Z.of_nat i) = Some v /\ PTE_FLAGS v <> PTE_V) ->
  exists m', uvmunmap pt a npages true m = Ok tt m' /\
    vm_inv D (reverse (PTE2PA <$> vs) ++ fl) pt m' /\
    vm_frame (pt_pages 2 (m_mem m) pt ++ (PTE2PA <$> vs)) m m' /\
    pt_pages 2 (m_mem m') pt = pt_pages 2 (m_mem m) pt /\
    (forall va', 0 <= va' < 2 ^ 39 -> pt_lookup (m_mem m') pt va' =
       if decide (a <= va' < a + 4096 * npages) then None else pt_lookup (m_mem m) pt va').
Proof.
  intros Hinv Hok Ha Hal -> Hmax Hvs. unfold uvmunmap, PGSIZE. rewrite Hal. cbn [negb Z.eqb].
  rewrite u64_small, (Z.mul_comm _ 4096) by (change MAXVA with (2 ^ 38) in *; lia).
  apply (uvmunmap_loop_free pt vs _ D fl a _ m); try done.
  replace (a + 4096 * Z.of_nat (length vs) - a) with (Z.of_nat (length vs) * 4096) by lia.
  rewrite Z.div_mul, Nat2Z.id by lia. lia.
Qed.

Lemma uvmdealloc_run pt vs D fl oldsz newsz m :
  vm_inv ((PTE2PA <$> vs) ++ D) fl pt m -> Forall page_ok (PTE2PA <$> vs) ->
  0 <= newsz <= oldsz -> oldsz <= MAXVA ->
  PGROUNDUP oldsz = PGROUNDUP newsz + 4096 * Z.of_nat (length vs) ->
  (forall i v, vs !! i = Some v ->
     pt_lookup (m_mem m) pt (PGROUNDUP newsz + 4096 * Z.of_nat i) = Some v /\ PTE_FLAGS v <> PTE_V) ->
  exists m', uvmdealloc pt oldsz newsz m = Ok newsz m' /\
    vm_inv D (reverse (PTE2PA <$> vs) ++ fl) pt m' /\
    vm_frame (pt_pages 2 (m_mem m) pt ++ (PTE2PA <$> vs)) m m' /\
    pt_pages 2 (m_mem m') pt = pt_pages 2 (m_mem m) pt /\
    (forall va', 0 <= va' < 2 ^ 39 -> pt_lookup (m_mem m') pt va' =
       if decide (PGROUNDUP newsz <= va' < PGROUNDUP oldsz) then None
       else pt_lookup (m_mem m) pt va').
Proof.
  intros Hinv Hok Hsz Hmax Hlen Hvs. unfold uvmdealloc. change MAXVA with (2 ^ 38) in Hmax.
  pose proof (PGROUNDUP_eq newsz ltac:(lia)) as En. pose proof (PGROUNDUP_eq oldsz ltac:(lia)) as Eo.
  assert (0 <= PGROUNDUP newsz /\ PGROUNDUP oldsz <= 2 ^ 38 /\ PGROUNDUP newsz mod 4096 = 0)
    as (H1 & H2 & H3) by (rewrite En, Eo; Z.div_mod_to_equations; lia).
  destruct (Z.leb_spec oldsz newsz) as [Hle|Hlt]; [|destruct (Z.ltb_spec (PGROUNDUP newsz) (PGROUNDUP oldsz))].
  1,3: assert (vs = []) as -> by (apply nil_length_inv;
      first [lia | replace oldsz with newsz in Hlen by lia; lia]);
    exists m; cbn; cbn in Hlen; split_and!; [|done|apply vm_frame_refl|done|
      intros va' _; by rewrite decide_False by lia]; unfold when, ret; try done.
  { f_equal. lia. }
  unfold when. rewrite Hlen.
  replace (PGROUNDUP newsz + 4096 * Z.of_nat (length vs) - PGROUNDUP newsz)
    with (Z.of_nat (length vs) * PGSIZE) by (unfold PGSIZE; lia).
  rewrite Z.div_mul, s32_small, u64_small by (unfold PGSIZE; lia).
  destruct (uvmunmap_free pt vs D fl (PGROUNDUP newsz) (Z.of_nat (length vs)) m)
    as (m' & Hrun & Hrest); try done; [change MAXVA with (2 ^ 38); lia|].
  exists m'. split; [by erewrite bind_ok by exact Hrun|done].
Qed.

(** ** Pages before they are mapped *)

(** [kalloc] and an operation that fills the new page. *)
Lemma alloc_filled D fl pt m a (f : gmap Z Z -> gmap Z Z) :
  vm_inv D (a :: fl) pt m ->
  (forall mm c, ~ in_page a c -> load8 (f mm) c = load8 mm c) ->
  exists m1, kalloc m = Ok a m1 /\ vm_frame [a] m m1 /\
    let m2 := m1 <| m_mem ::= f |> in
    mem_op f m1 = Ok tt m2 /\
    vm_inv (a :: D) fl pt m2 /\ vm_frame [a] m m2 /\ page_ok a /\
    (forall va, pt_lookup (m_mem m2) pt va = pt_lookup (m_mem m) pt va) /\
    pt_pages 2 (m_mem m2) pt = pt_pages 2 (m_mem m) pt.
Proof.
  intros Hinv Hff. destruct (vm_kalloc _ _ _ _ _ Hinv) as (m1 & Hrun & Hinv1 & Hf1 & Ha & Hl1 & Hp1).
  exists m1. split_and!; [done..|]. intros m2.
  assert (vm_frame [a] m1 m2) as Hf2.
  { split_and!; [done..|]. intros c Hc. apply Hff. apply Hc. left. }
  destruct (vm_inv_data [a] (a :: D) fl pt m1 m2 Hinv1 Hf2) as (Hinv2 & Hp2 & Hl2).
  { done. } { by apply Forall_singleton. } { intros p ->%list_elem_of_singleton. left. }
  split_and!; [done|done|by eapply vm_frame_trans|done|intros va; by rewrite Hl2|by rewrite Hp2].
Qed.

Lemma vm_inv_perm D D' fl pt m : D' ≡ₚ D -> vm_inv D fl pt m -> vm_inv D' fl pt m.
Proof. intros Hp. apply vm_inv_sub. by rewrite Hp. Qed.

(** Data pages are neither table nor free pages. *)
Lemma vm_inv_data_fresh D fl pt m p :
  vm_inv D fl pt m -> p ∈ D -> p ∉ pt_pages 2 (m_mem m) pt ++ fl.
Proof.
  intros Hinv Hp. apply vm_inv_NoDup in Hinv as (_ & Hd & (_ & Hd' & _)%NoDup_app)%NoDup_app.
  rewrite elem_of_app. intros [Hin|Hin].
  - apply (Hd p Hin). rewrite elem_of_app. by left.
  - by apply (Hd' p).
Qed.

Lemma vm_inv_sys_ok D fl pt m : vm_inv D fl pt m -> Forall page_ok (pt_pages 2 (m_mem m) pt ++ fl).
Proof.
  intros Hinv. rewrite Forall_app. split; [by destruct Hinv as (_ & _ & [_ ?] & _)|].
  by eapply vm_inv_fl_ok.
Qed.

Lemma PGROUNDUP_id a : 0 <= a <= 2 ^ 38 -> a mod 4096 = 0 -> PGROUNDUP a = a.
Proof. intros Hr Ha. rewrite PGROUNDUP_eq by lia. Z.div_mod_to_equations. lia. Qed.

(** [walk]: an address at or above [MAXVA] panics; without [alloc] it
    changes nothing and returns the address of the leaf entry, or 0 when the
    path to it is missing; with [alloc] it changes no mapping, builds the
    missing tables from at most two free pages, keeps the table well formed, and
    returns the leaf entry, or 0 only after using up the free list. *)
Theorem walk_spec D fl pt m va :
  vm_inv D fl pt m -> 0 <= va ->
  (MAXVA <= va -> forall alloc, walk pt va alloc m = Panic "walk" m) /\
  (va < MAXVA ->
     walk pt va false m = Ok (default 0 (leaf_addr 2 (m_mem m) pt va)) m /\
     exists r m' fl', walk pt va true m = Ok r m' /\ vm_grows D pt fl m fl' m' /\
       (length fl <= length fl' + 2)%nat /\
       (forall va', pt_lookup (m_mem m') pt va' = pt_lookup (m_mem m) pt va') /\
       (if decide (r = 0) then fl' = [] else leaf_addr 2 (m_mem m') pt va = Some r)).
Proof.
  intros Hinv Hva. split.
  - intros Hge alloc. unfold walk. by destruct (Z.leb_spec MAXVA va); [|lia].
  - intros Hlt. split; [by apply walk_noalloc|by apply vm_walk].
Qed.

(** [mappages] on an unmapped range: it returns 0 with exactly the
    pages of the range mapped, to consecutive physical pages with the given
    permissions, or -1 with a prefix of them mapped and no free page left;
    other mappings are unchanged, only table and free pages are written, and at
    most two pages are taken for each page mapped. *)
Theorem mappages_spec D pt va size pa perm fl m :
  vm_inv D fl pt m -> 0 <= va -> 0 < size -> va + size <= MAXVA ->
  0 <= pa -> pa mod 4096 = 0 -> pa + size + 4096 < 2 ^ 56 -> 0 <= perm < 1024 ->
  (forall va', PGROUNDDOWN va <= va' < PGROUNDDOWN (va + size - 1) + 4096 ->
     pt_lookup (m_mem m) pt va' = None) ->
  exists r m' fl' k, mappages pt va size pa perm m = Ok r m' /\ vm_grows D pt fl m fl' m' /\
    Z.of_nat (length fl) <= Z.of_nat (length fl') + 2 * ((PGROUNDDOWN (va + size - 1) - PGROUNDDOWN va) / 4096 + 1) /\
    (r = 0 /\ PGROUNDDOWN va + 4096 * Z.of_nat k = PGROUNDDOWN (va + size - 1) + 4096 \/
     r = -1 /\ fl' = [] /\ PGROUNDDOWN va + 4096 * Z.of_nat k <= PGROUNDDOWN (va + size - 1)) /\
    mapped m m' pt (PGROUNDDOWN va) pa perm k /\
    (forall p, page_ok p -> 0 <= perm < 1024 ->
       PTE2PA (make_pte p perm) = p /\ PTE_FLAGS (make_pte p perm) = Z.lor perm PTE_V).
Proof.
  intros Hinv Hva Hsz Hmax Hpa Hpal Hpmax Hperm Hnone.
  destruct (mappages_run D pt va size pa perm fl m) as (r & m' & fl' & k & Hrun & Hg & Hlen & Hr & Hm); try done.
  exists r, m', fl', k. split_and!; try done. intros p Hp _.
  pose proof (page_ok_range p Hp). destruct Hp as [Hpal' _].
  destruct (make_pte_facts p perm) as (_ & _ & _ & E & E'); [lia|done..].
Qed.

End spec.
