(* ===== verification/VmFree.v ===== *)
(** * Freeing page tables ([freewalk] and [uvmfree] of [kernel/vm.c])

    [freewalk] returns every page of a table without leaf mappings to the
    free list, and nothing else. *)

From S2P Require Import Prelude Riscv Machine Spinlock PhysMem Kalloc PageTable Vm VmSpec.

Section free.
Context `{KernelLayout}.

(** What [freewalk] promises for a table with [l] levels below its root. *)
Definition frees_table (l : nat) (rec : Z -> M machine unit) : Prop :=
  forall pt fl m, quiet m -> kmem_inv m fl -> pt_wf l (m_mem m) pt fl ->
    dirs_ok l (m_mem m) pt -> no_leaf l (m_mem m) pt ->
    exists m' fl', rec pt m = Ok tt m' /\ kmem_inv m' fl' /\
      fl' ≡ₚ pt_pages l (m_mem m) pt ++ fl /\ vm_frame (pt_pages l (m_mem m) pt) m m'.

(** The state of the loop of [freewalk] before entry [i]: the subtrees of
    the entries below [i] are freed, and only their pages and the words of
    those entries have changed. *)
Definition freeing (l : nat) (pt : Z) (fl0 : list Z) (m0 : machine) (i : Z) (fl : list Z) (m : machine) : Prop :=
  m_core m = m_core m0 /\ m_locks m = m_locks m0 /\ kmem_inv m fl /\
  fl ≡ₚ (seqZ 0 i ≫= sub_pages l (m_mem m0) pt) ++ fl0 /\
  forall c, ~ (pt <= c < pt + 8 * i) ->
    (forall p, p ∈ (seqZ 0 i ≫= sub_pages l (m_mem m0) pt) -> ~ in_page p c) ->
    load8 (m_mem m) c = load8 (m_mem m0) c.

Lemma seqZ_bind_snoc {A} (f : Z -> list A) i :
  0 <= i -> seqZ 0 (i + 1) ≫= f = (seqZ 0 i ≫= f) ++ f i.
Proof.
  intros Hi. rewrite seqZ_app by lia. rewrite bind_app. f_equal.
  change (seqZ (0 + i) 1) with [0 + (0 + i)]. cbn. by rewrite app_nil_r.
Qed.

Lemma elem_of_seqZ_bind {A} (f : Z -> list A) n x :
  x ∈ (seqZ 0 n ≫= f) <-> exists j, 0 <= j < n /\ x ∈ f j.
Proof.
  rewrite list_elem_of_bind. split.
  - intros (j & Hx & Hj%elem_of_seqZ). exists j. split; [lia|done].
  - intros (j & Hj & Hx). exists j. split; [done|]. apply elem_of_seqZ. lia.
Qed.

Lemma pt_pages_split l m pt i :
  0 <= i < 512 -> exists rest,
  pt_pages (S l) m pt = pt :: (seqZ 0 i ≫= sub_pages l m pt) ++ sub_pages l m pt i ++ rest.
Proof.
  intros Hi. exists (seqZ (i + 1) (511 - i) ≫= sub_pages l m pt).
  rewrite pt_pages_S. f_equal. rewrite app_assoc, <- seqZ_bind_snoc, <- bind_app by lia.
  f_equal. replace 512 with ((i + 1) + (511 - i)) by lia. by rewrite seqZ_app by lia.
Qed.

Lemma freeing_pages l pt fl0 m0 i fl m p c :
  pt_wf (S l) (m_mem m0) pt fl0 -> freeing l pt fl0 m0 i fl m -> 0 <= i < 512 ->
  (p = pt /\ pt + 8 * i <= c \/ p ∈ sub_pages l (m_mem m0) pt i) -> in_page p c ->
  load8 (m_mem m) c = load8 (m_mem m0) c.
Proof.
  intros Hwf (_ & _ & _ & _ & Hf) Hi Hp Hc.
  pose proof (pt_wf_NoDup _ _ _ _ Hwf) as Hnd.
  assert (page_ok pt) as Hpt by (eapply pt_wf_ok; [exact Hwf|apply pt_pages_root]).
  assert (page_ok p) as Hpok.
  { destruct Hp as [[-> _]|Hp]; [done|]. eapply pt_wf_ok; [exact Hwf|]. by apply (sub_pages_incl l _ _ i). }
  apply Hf.
  - destruct Hp as [[-> Hp]|Hp]; [lia|]. intros Hin.
    apply (page_disjoint p pt c Hpok Hpt); [|done|unfold in_page; lia].
    by apply (sub_pages_not_root l (m_mem m0) pt i).
  - intros q (j & Hj & Hq)%elem_of_seqZ_bind.
    apply (page_disjoint p q); [done| | |done].
    + eapply pt_wf_ok; [exact Hwf|]. by apply (sub_pages_incl l _ _ j); [lia|].
    + intros ->. destruct Hp as [[-> _]|Hp].
      * by eapply (sub_pages_not_root l (m_mem m0) pt j) in Hq; [|done|lia].
      * assert (i = j); [|lia]. eapply (sub_pages_inj l (m_mem m0) pt i j q); [done..|lia|done|done].
Qed.

(** The subtree of entry [i] is still intact before it is freed. *)
Lemma freeing_sub l pt fl0 m0 i fl m :
  pt_wf (S l) (m_mem m0) pt fl0 -> freeing l pt fl0 m0 i fl m -> 0 <= i < 512 ->
  dirs_ok (S l) (m_mem m0) pt -> no_leaf (S l) (m_mem m0) pt ->
  has_flag (entry (m_mem m0) pt i) PTE_V = true ->
  let child := PTE2PA (entry (m_mem m0) pt i) in
  pt_pages l (m_mem m) child = sub_pages l (m_mem m0) pt i /\
  pt_wf l (m_mem m) child fl /\ dirs_ok l (m_mem m) child /\ no_leaf l (m_mem m) child.
Proof.
  intros Hwf Hfr Hi Hd Hn HV child.
  assert (sub_pages l (m_mem m0) pt i = pt_pages l (m_mem m0) child) as Es.
  { unfold sub_pages. by rewrite HV. }
  assert (forall p c, p ∈ pt_pages l (m_mem m0) child -> in_page p c ->
            load8 (m_mem m0) c = load8 (m_mem m) c) as He.
  { intros p c Hp Hc. symmetry. eapply freeing_pages; [exact Hwf|exact Hfr|exact Hi| |exact Hc].
    right. by rewrite Es. }
  pose proof (pt_pages_ext _ _ _ _ He) as Hpp.
  split_and!.
  - by rewrite Hpp.
  - destruct Hwf as [Hnd Hok]. destruct (pt_pages_split l (m_mem m0) pt i Hi) as (rest & Esp).
    rewrite Esp in Hnd, Hok. destruct Hfr as (_ & _ & _ & Hfl & _). split; rewrite Hpp, <- Es.
    + eapply submseteq_NoDup; [exact Hnd|]. rewrite Hfl. rewrite <- app_comm_cons, <- !app_assoc.
      apply submseteq_cons. rewrite (Permutation_app_swap_app (sub_pages l (m_mem m0) pt i)).
      apply submseteq_app; [done|]. apply submseteq_app; [done|]. by apply submseteq_inserts_l.
    + apply Forall_cons in Hok as [_ Hok]. rewrite !Forall_app in Hok. apply Hok.
  - eapply dirs_ok_ext; [exact He|]. by eapply dirs_ok_S.
  - eapply no_leaf_ext; [exact He|]. by apply Hn.
Qed.

Lemma freeing_not_root l pt fl0 m0 i fl m :
  pt_wf (S l) (m_mem m0) pt fl0 -> freeing l pt fl0 m0 i fl m -> 0 <= i <= 512 -> pt ∉ fl.
Proof.
  intros Hwf (_ & _ & _ & Hfl & _) Hi. rewrite Hfl, elem_of_app. intros [Hin|Hin].
  - apply elem_of_seqZ_bind in Hin as (j & Hj & Hin).
    by eapply (sub_pages_not_root l (m_mem m0) pt j) in Hin; [|by eapply pt_wf_NoDup|lia].
  - eapply pt_wf_free; [exact Hwf|apply pt_pages_root|exact Hin].
Qed.

Lemma freeing_step_valid l rec pt fl0 m0 i fl m :
  frees_table l rec -> quiet m0 -> pt_wf (S l) (m_mem m0) pt fl0 ->
  dirs_ok (S l) (m_mem m0) pt -> no_leaf (S l) (m_mem m0) pt -> 0 <= i < 512 ->
  freeing l pt fl0 m0 i fl m -> has_flag (entry (m_mem m0) pt i) PTE_V = true ->
  exists m1 fl1, rec (PTE2PA (entry (m_mem m0) pt i)) m = Ok tt m1 /\
    freeing l pt fl0 m0 (i + 1) fl1 (stored (pt + 8 * i) 0 m1).
Proof.
  intros Hrec Hq Hwf Hd Hn Hi Hfr HV.
  destruct (freeing_sub l pt fl0 m0 i fl m) as (Hpp & Hwf' & Hd' & Hn'); [done..|].
  pose proof Hfr as (Hc & Hl & Hk & Hfl & Hf).
  destruct (Hrec (PTE2PA (entry (m_mem m0) pt i)) fl m) as (m1 & fl1 & Hrun & Hk1 & Hfl1 & Hc1 & Hl1 & Hf1); [|done..|].
  { destruct Hq as [Hs [nm Hlf]]. split; [by rewrite Hc|]. exists nm. by rewrite Hl. }
  exists m1, fl1. split; [done|]. rewrite Hpp in Hfl1, Hf1.
  assert (page_ok pt) as Hpt by (eapply pt_wf_ok; [exact Hwf|apply pt_pages_root]).
  assert (Forall page_ok fl1) as Hok1 by (by destruct Hk1 as (_ & _ & ?)).
  assert (fl1 ≡ₚ (seqZ 0 (i + 1) ≫= sub_pages l (m_mem m0) pt) ++ fl0) as Hfl1'.
  { rewrite seqZ_bind_snoc by lia. rewrite Hfl1, Hfl. clear. perm. }
  split_and!.
  - cbn. congruence.
  - cbn. congruence.
  - eapply kmem_inv_frame; [exact Hk1|done|]. intros p c Hp Hpc. cbn. apply load8_store64_out.
    assert (page_ok p) as Hpok by by eapply Forall_forall in Hok1.
    assert (p <> pt).
    { intros ->. rewrite Hfl1', elem_of_app in Hp. destruct Hp as [Hp|Hp].
      - apply elem_of_seqZ_bind in Hp as (j & Hj & Hp).
        by eapply (sub_pages_not_root l (m_mem m0) pt j) in Hp; [|by eapply pt_wf_NoDup|lia].
      - eapply pt_wf_free; [exact Hwf|apply pt_pages_root|exact Hp]. }
    pose proof (page_disjoint p pt c Hpok Hpt ltac:(done) Hpc) as Hd1. unfold in_page in Hd1. lia.
  - done.
  - intros c Hcr Hcp. cbn. rewrite load8_store64_out by lia.
    rewrite seqZ_bind_snoc in Hcp by lia. rewrite Hf1, Hf; [done|lia| |].
    + intros p Hp. apply Hcp. rewrite elem_of_app. by left.
    + intros p Hp. apply Hcp. rewrite elem_of_app. by right.
Qed.

Lemma freewalk_loop_run l rec pt fl0 m0 :
  frees_table l rec -> quiet m0 -> pt_wf (S l) (m_mem m0) pt fl0 ->
  dirs_ok (S l) (m_mem m0) pt -> no_leaf (S l) (m_mem m0) pt ->
  forall n i fl m, i + Z.of_nat n = 512 -> 0 <= i -> freeing l pt fl0 m0 i fl m ->
  exists m' fl', freewalk_loop rec n pt i m = Ok tt m' /\ freeing l pt fl0 m0 512 fl' m'.
Proof.
  intros Hrec Hq Hwf Hd Hn. induction n as [|n IH]; intros i fl m Hin Hi Hfr; cbn [freewalk_loop].
  { exists m, fl. replace 512 with i by lia. done. }
  assert (load64 (m_mem m) (pt + 8 * i) = entry (m_mem m0) pt i) as He.
  { apply load64_ext. intros c Hc. eapply (freeing_pages l pt fl0 m0 i fl m pt); [done..|lia|left; lia|].
    unfold in_page. lia. }
  unfold mload64. mrun. rewrite He.
  destruct (has_flag (entry (m_mem m0) pt i) PTE_V) eqn:HV.
  - destruct (dirs_ok_S l (m_mem m0) pt i Hd) as [-> _]; [lia|done|]. cbn [andb negb].
    destruct (freeing_step_valid l rec pt fl0 m0 i fl m) as (m1 & fl1 & Hrun & Hfr1); [done..|lia|done|done|].
    rewrite bind_bind. erewrite bind_ok by exact Hrun. erewrite bind_ok by apply mstore64_run.
    apply (IH (i + 1) fl1); [lia|lia|done].
  - cbn [andb]. mrun. apply (IH (i + 1) fl); [lia|lia|].
    assert (seqZ 0 (i + 1) ≫= sub_pages l (m_mem m0) pt = seqZ 0 i ≫= sub_pages l (m_mem m0) pt) as Es.
    { rewrite seqZ_bind_snoc by lia. unfold sub_pages at 2. by rewrite HV, app_nil_r. }
    destruct Hfr as (Hc & Hl & Hk & Hfl & Hf). split_and!; [done..|by rewrite Es|].
    rewrite Es. intros c Hcr. apply Hf. lia.
Qed.

Lemma freewalk_loop_leaf rec pt m n i :
  no_leaf 0 (m_mem m) pt -> i + Z.of_nat n = 512 -> 0 <= i -> freewalk_loop rec n pt i m = Ok tt m.
Proof.
  intros Hn. revert i. induction n as [|n IH]; intros i Hin Hi; [done|]. cbn [freewalk_loop].
  unfold mload64. mrun. rewrite (Hn i ltac:(lia) : has_flag (load64 (m_mem m) (pt + 8 * i)) PTE_V = false).
  cbn [andb]. mrun. apply IH; lia.
Qed.

Lemma freewalk_rec_run l : frees_table l (freewalk_rec (S l)).
Proof.
  induction l as [|l IH]; intros pt fl m Hq Hk Hwf Hd Hn; cbn [freewalk_rec].
  - assert (page_ok pt) as Hpt by (eapply pt_wf_ok; [exact Hwf|apply pt_pages_root]).
    assert (pt ∉ fl) as Hnin by (eapply pt_wf_free; [exact Hwf|apply pt_pages_root]).
    erewrite bind_ok by (by apply freewalk_loop_leaf). rewrite pt_pages_O.
    exists (kfreed pt m), (pt :: fl). split_and!;
      [by apply kfree_run|by apply kmem_inv_kfreed|done|].
    split_and!; [done..|]. intros c Hc. apply kfreed_frame. apply Hc. left.
  - destruct (freewalk_loop_run l (freewalk_rec (S l)) pt fl m IH Hq Hwf Hd Hn 512 0 fl m)
      as (m' & fl' & Hrun & Hfr); [done|done|by split_and!|].
    erewrite bind_ok by exact Hrun.
    assert (page_ok pt) as Hpt by (eapply pt_wf_ok; [exact Hwf|apply pt_pages_root]).
    assert (pt ∉ fl') as Hnin by (eapply freeing_not_root; [exact Hwf|exact Hfr|lia]).
    destruct Hfr as (Hc & Hl & Hk' & Hfl & Hf).
    exists (kfreed pt m'), (pt :: fl'). split_and!.
    + apply kfree_run; [|done]. destruct Hq as [Hs [nm Hlf]]. split; [by rewrite Hc|]. exists nm. by rewrite Hl.
    + by apply kmem_inv_kfreed.
    + by rewrite pt_pages_S, Hfl.
    + split_and!; [exact Hc|exact Hl|]. intros c Hout. rewrite kfreed_frame.
      * apply Hf.
        -- intros Hin. apply (Hout pt); [apply pt_pages_root|unfold in_page; lia].
        -- intros p Hp. apply Hout. rewrite pt_pages_S. by right.
      * intros Hin. apply (Hout pt); [apply pt_pages_root|unfold in_page; lia].
Qed.

Lemma uvmfree_run pt vs D fl sz m :
  vm_inv ((PTE2PA <$> vs) ++ D) fl pt m -> Forall page_ok (PTE2PA <$> vs) ->
  0 <= sz <= MAXVA -> PGROUNDUP sz = 4096 * Z.of_nat (length vs) ->
  (forall i v, vs !! i = Some v ->
     pt_lookup (m_mem m) pt (4096 * Z.of_nat i) = Some v /\ PTE_FLAGS v <> PTE_V) ->
  (forall va, PGROUNDUP sz <= va < 2 ^ 39 -> pt_lookup (m_mem m) pt va = None) ->
  exists m' fl', uvmfree pt sz m = Ok tt m' /\ quiet m' /\ kmem_inv m' fl' /\
    fl' ≡ₚ pt_pages 2 (m_mem m) pt ++ (PTE2PA <$> vs) ++ fl /\
    vm_frame (pt_pages 2 (m_mem m) pt ++ (PTE2PA <$> vs)) m m'.
Proof.
  intros Hinv Hok Hsz Hlen Hvs Htop. unfold uvmfree, when.
  assert (exists m1, (if 0 <? sz then uvmunmap pt 0 (PGROUNDUP sz / PGSIZE) true else ret tt) m = Ok tt m1 /\
    vm_inv D (reverse (PTE2PA <$> vs) ++ fl) pt m1 /\
    vm_frame (pt_pages 2 (m_mem m) pt ++ (PTE2PA <$> vs)) m m1 /\
    pt_pages 2 (m_mem m1) pt = pt_pages 2 (m_mem m) pt /\
    (forall va, 0 <= va < 2 ^ 39 -> pt_lookup (m_mem m1) pt va = None))
    as (m1 & Hrun1 & Hinv1 & Hf1 & Hp1 & Hl1).
  { change MAXVA with (2 ^ 38) in Hsz. pose proof (PGROUNDUP_eq sz ltac:(lia)) as Eup.
    destruct (Z.ltb_spec 0 sz).
    - destruct (uvmunmap_free pt vs D fl 0 (PGROUNDUP sz / PGSIZE) m) as (m1 & Hrun & Hi & Hf & Hp & Hl);
        try done; try lia.
      + rewrite Hlen, (Z.mul_comm 4096). unfold PGSIZE. by rewrite Z.div_mul by lia.
      + rewrite Eup. change MAXVA with (2 ^ 38). unfold PGSIZE. Z.div_mod_to_equations. lia.
      + exists m1. split_and!; [done..|]. intros va Hva. rewrite Hl by done. case_decide as E; [done|].
        apply Htop. split; [|lia]. rewrite Eup in *. unfold PGSIZE in E. rewrite Z.div_mul in E by lia. lia.
    - assert (sz = 0) as -> by lia. assert (vs = []) as ->.
      { apply nil_length_inv. change (PGROUNDUP 0) with 0 in Hlen. lia. }
      exists m. cbn. rewrite app_nil_r. split_and!; [done..|]. intros va Hva. apply Htop. exact Hva. }
  erewrite bind_ok by exact Hrun1. pose proof Hinv1 as (Hq1 & Hk1 & Hwf1 & Hd1).
  destruct (freewalk_rec_run 2 pt (reverse (PTE2PA <$> vs) ++ fl) m1) as (m' & fl' & Hrun & Hk' & Hfl' & Hf');
    [done|done| |done|by apply no_leaf_lookup|].
  { eapply pt_wf_weaken; [|exact Hwf1]. by apply submseteq_inserts_l. }
  exists m', fl'. rewrite Hp1 in *. split_and!; [exact Hrun|by eapply quiet_frame|done| |].
  - clear -Hfl'. perm.
  - eapply vm_frame_trans; [exact Hf1|]. eapply vm_frame_mono; [|exact Hf'].
    intros p Hp. rewrite elem_of_app. by left.
Qed.

(** C30: freeing a user address space: when the pages mapped in
    [0, PGROUNDUP(sz)) are [vs] and nothing is mapped above, [uvmfree]
    terminates without panicking and puts every data page and every page of
    the page table on the free list, exactly once; memory outside these
    pages, the locks and the interrupt state are untouched. *)
Theorem uvmfree_spec pt vs D fl sz m :
  vm_inv ((PTE2PA <$> vs) ++ D) fl pt m -> Forall page_ok (PTE2PA <$> vs) ->
  0 <= sz <= MAXVA -> PGROUNDUP sz = 4096 * Z.of_nat (length vs) ->
  (forall i v, vs !! i = Some v ->
     pt_lookup (m_mem m) pt (4096 * Z.of_nat i) = Some v /\ PTE_FLAGS v <> PTE_V) ->
  (forall va, PGROUNDUP sz <= va < 2 ^ 39 -> pt_lookup (m_mem m) pt va = None) ->
  exists m' fl', uvmfree pt sz m = Ok tt m' /\ quiet m' /\ kmem_inv m' fl' /\
    fl' ≡ₚ pt_pages 2 (m_mem m) pt ++ (PTE2PA <$> vs) ++ fl /\
    vm_frame (pt_pages 2 (m_mem m) pt ++ (PTE2PA <$> vs)) m m'.
Proof. apply uvmfree_run. Qed.

End free.
