(* ===== verification/VmCopy.v ===== *)
(** * Copies between kernel and user memory ([copyin], [copyout] and
      [copyinstr] of [kernel/vm.c])

    [ubyte m pt va] is the byte a user program reads at [va], as the kernel
    sees it through the page table. The loops of [kernel/vm.c] work page by
    page; they are proved equal to the byte-by-byte view. *)

From S2P Require Import Prelude Riscv Machine Spinlock PhysMem Kalloc PageTable Vm VmSpec.

(** The physical page of a user-accessible address. *)
Definition upage (m : gmap Z Z) (pt va : Z) : option Z :=
  if MAXVA <=? va then None else
  v ← pt_lookup m pt va;
  if has_flag v PTE_U && negb (PTE2PA v =? 0) then Some (PTE2PA v) else None.

Definition upa (m : gmap Z Z) (pt va : Z) : option Z := pa ← upage m pt va; Some (pa + va mod 4096).

Definition ubyte (m : gmap Z Z) (pt va : Z) : option Z := a ← upa m pt va; Some (load8 m a).

Section copy.
Context `{KernelLayout}.

Lemma walkaddr_run pt va m :
  pt_wf 2 (m_mem m) pt [] -> walkaddr pt va m = Ok (default 0 (upage (m_mem m) pt va)) m.
Proof.
  intros Hwf. unfold walkaddr, upage. destruct (Z.leb_spec MAXVA va); [done|].
  erewrite bind_ok by (by apply walk_noalloc).
  destruct (leaf_addr 2 (m_mem m) pt va) as [r|] eqn:Hr; cbn [from_option id].
  - apply leaf_addr_page in Hr as Hp. destruct Hp as (p & Hp & _ & H2 & _).
    pose proof (pt_wf_ok _ _ _ _ _ Hwf Hp) as Hok%page_ok_range.
    rewrite (lookup_leaf _ _ _ _ Hr). destruct (Z.eqb_spec r 0); [lia|].
    unfold mload64. mrun. destruct (has_flag (load64 (m_mem m) r) PTE_V); [|done].
    cbn. destruct (has_flag _ PTE_U); [|done]. cbn.
    by destruct (Z.eqb_spec (PTE2PA (load64 (m_mem m) r)) 0) as [->|].
  - by rewrite (lookup_no_leaf _ _ _ Hr).
Qed.

Lemma upage_page m pt va va' :
  0 <= va -> 0 <= va' -> va / 4096 = va' / 4096 -> upage m pt va' = upage m pt va.
Proof.
  intros Hva Hva' E. unfold upage. change MAXVA with (2 ^ 38).
  destruct (Z.leb_spec (2 ^ 38) va), (Z.leb_spec (2 ^ 38) va'); try done;
    try (exfalso; Z.div_mod_to_equations; lia).
  rewrite (lookup_pte_page m pt va va'); [done|lia|lia|done].
Qed.

Lemma upage_nonzero m pt va pa : upage m pt va = Some pa -> pa <> 0 /\ va < MAXVA.
Proof.
  unfold upage. destruct (Z.leb_spec MAXVA va); [done|].
  destruct (pt_lookup m pt va); [|done]. cbn. destruct (has_flag _ _); [|done]. cbn.
  destruct (Z.eqb_spec (PTE2PA z) 0); [done|]. cbn. by intros [= <-].
Qed.

(** The bytes one iteration handles lie in one page. *)
Lemma chunk_bounds va len :
  0 <= va -> 0 < len ->
  let va0 := PGROUNDDOWN va in
  let n := if len <? PGSIZE - (va - va0) then len else PGSIZE - (va - va0) in
  0 < n <= len /\ va - va0 = va mod 4096 /\ va mod 4096 + n <= 4096 /\
  (n < len -> va + n = va0 + 4096) /\ va0 / 4096 = va / 4096 /\ 0 <= va0.
Proof.
  intros Hva Hlen va0 n. pose proof (PGROUNDDOWN_eq va) as E. fold va0 in E. unfold n, PGSIZE.
  destruct (Z.ltb_spec len (4096 - (va - va0))); Z.div_mod_to_equations; lia.
Qed.

Lemma upa_chunk m pt va i :
  0 <= va -> 0 <= i -> va mod 4096 + i < 4096 ->
  upa m pt (va + i) = pa ← upage m pt va; Some (pa + va mod 4096 + i).
Proof.
  intros Hva Hi Hlt. unfold upa. rewrite (upage_page m pt va (va + i)); [|lia|lia|].
  - destruct (upage m pt va); [|done]. cbn. f_equal. Z.div_mod_to_equations. lia.
  - Z.div_mod_to_equations. lia.
Qed.

Lemma copyin_loop_run pt m fuel dst srcva len :
  pt_wf 2 (m_mem m) pt [] -> 0 <= srcva < 2 ^ 64 -> 0 <= len ->
  srcva mod 4096 + len <= 4096 * Z.of_nat fuel ->
  exists r bs, copyin_loop (S fuel) pt dst srcva len m = Ok (r, dst ++ bs) m /\
    (forall i b, bs !! i = Some b -> ubyte (m_mem m) pt (srcva + Z.of_nat i) = Some b) /\
    (r = 0 /\ Z.of_nat (length bs) = len \/
     r = -1 /\ Z.of_nat (length bs) < len /\
       ubyte (m_mem m) pt (srcva + Z.of_nat (length bs)) = None).
Proof.
  intros Hwf. revert dst srcva len. induction fuel as [|fuel IH]; intros dst srcva len Hsrc Hlen Hfuel;
    [|remember (S fuel) as f eqn:Ef]; cbn [copyin_loop]; (destruct (Z.ltb_spec 0 len) as [Hpos|Hpos]; cbn [negb];
      [|exists 0, []; rewrite app_nil_r; split_and!; [done|by intros i b ?|left; cbn; lia]]).
  { Z.div_mod_to_equations. lia. }
  pose proof (chunk_bounds srcva len ltac:(lia) Hpos) as Hch. cbv zeta in Hch.
  destruct Hch as (Hn & Hoff & Hfit & Hnext & Hpage & Hva0).
  erewrite bind_ok by (by apply walkaddr_run). rewrite (upage_page _ pt srcva (PGROUNDDOWN srcva)) by lia.
  set (n := if len <? PGSIZE - (srcva - PGROUNDDOWN srcva) then len
            else PGSIZE - (srcva - PGROUNDDOWN srcva)) in *. cbv zeta. fold n.
  destruct (upage (m_mem m) pt srcva) as [pa|] eqn:Hpa; cbn [from_option id].
  2: { exists (-1), []. rewrite app_nil_r. split_and!; [done|by intros i b ?|right; split_and!; [done|cbn; lia|]].
       unfold ubyte, upa. cbn. by rewrite Z.add_0_r, Hpa. }
  destruct (upage_nonzero _ _ _ _ Hpa) as [Hnz Hmax]. destruct (Z.eqb_spec pa 0); [done|].
  mrun. set (bytes := read_bytes (m_mem m) (pa + (srcva - PGROUNDDOWN srcva)) (Z.to_nat n)).
  assert (length bytes = Z.to_nat n) as Hlb by apply length_read_bytes.
  assert (forall i b, bytes !! i = Some b -> ubyte (m_mem m) pt (srcva + Z.of_nat i) = Some b) as Hb.
  { intros i b [Hi ->]%lookup_read_bytes. unfold ubyte. rewrite upa_chunk, Hpa by lia. cbn.
    do 2 f_equal. lia. }
  change MAXVA with (2 ^ 38) in Hmax. pose proof (PGROUNDDOWN_bounds srcva). rewrite u64_small by (unfold PGSIZE; lia).
  pose proof (PGROUNDDOWN_aligned srcva) as Hal.
  destruct (IH (dst ++ bytes) (PGROUNDDOWN srcva + PGSIZE) (len - n)) as (r & bs & Hrun & Hbs & Hr).
  { unfold PGSIZE. lia. } { lia. }
  { unfold PGSIZE. rewrite Z.add_mod, Hal, ?Ef by lia. cbn. Z.div_mod_to_equations. lia. }
  assert (bs <> [] \/ n < len -> srcva + n = PGROUNDDOWN srcva + PGSIZE) as Hnext'.
  { intros Hc. apply Hnext. destruct Hc as [Hc|]; [|done]. destruct bs; [done|]. cbn in Hr. lia. }
  exists r, (bytes ++ bs). split_and!.
  - by rewrite Hrun, app_assoc.
  - intros i b [Hi|[Hge Hi]]%lookup_app_Some; [by apply Hb|].
    apply Hbs in Hi as Hu. rewrite <- Hu. f_equal. rewrite <- Hnext'; [lia|]. left. by intros ->.
  - rewrite length_app, Hlb. destruct Hr as [[-> Hl]|(-> & Hl & Hu)]; [left; lia|right].
    split_and!; [done|lia|]. rewrite <- Hu. f_equal. rewrite <- Hnext' by lia. lia.
Qed.

(** User pages are data pages, each mapped at one place. *)
Definition umap_ok (D : list Z) (m : gmap Z Z) (pt : Z) : Prop :=
  (forall va pa, 0 <= va -> upage m pt va = Some pa -> page_ok pa /\ pa ∈ D) /\
  (forall va va' pa, 0 <= va -> 0 <= va' -> upage m pt va = Some pa -> upage m pt va' = Some pa ->
     va / 4096 = va' / 4096).

(** One [memmove] into a user page. *)
Lemma write_chunk D fl pt m va pa bs :
  vm_inv D fl pt m -> umap_ok D (m_mem m) pt -> 0 <= va -> upage (m_mem m) pt va = Some pa ->
  va mod 4096 + Z.of_nat (length bs) <= 4096 -> Forall (fun b => 0 <= b < 256) bs ->
  let m' := m <| m_mem ::= write_bytes (pa + va mod 4096) bs |> in
  vm_inv D fl pt m' /\ vm_frame D m m' /\
  (forall va', pt_lookup (m_mem m') pt va' = pt_lookup (m_mem m) pt va') /\
  (forall va', 0 <= va' -> ubyte (m_mem m') pt va' =
     if decide (va <= va' < va + Z.of_nat (length bs)) then bs !! Z.to_nat (va' - va)
     else ubyte (m_mem m) pt va').
Proof.
  intros Hinv [Hd Hinj] Hva Hpa Hfit Hbs m'. destruct (Hd va pa Hva Hpa) as [Hok HpaD].
  pose proof (Z.mod_pos_bound va 4096 ltac:(lia)) as Hmod.
  assert (vm_frame [pa] m m') as Hf.
  { split_and!; [done..|]. intros c Hc. specialize (Hc pa ltac:(left)). unfold in_page in Hc. cbn.
    rewrite load8_write_bytes, decide_False by lia. done. }
  destruct (vm_inv_data [pa] D fl pt m m' Hinv Hf) as (Hinv' & _ & Hl).
  { done. } { by apply Forall_singleton. } { by intros p ->%list_elem_of_singleton. }
  split_and!; [done| |done|].
  { eapply vm_frame_mono; [|exact Hf]. by intros p ->%list_elem_of_singleton. }
  intros va' Hva'. unfold ubyte, upa.
  assert (upage (m_mem m') pt va' = upage (m_mem m) pt va') as -> by (unfold upage; by rewrite Hl).
  destruct (upage (m_mem m) pt va') as [q|] eqn:Hq; cbn.
  - destruct (Hd va' q Hva' Hq) as [Hqok _]. rewrite load8_write_bytes.
    pose proof (Z.mod_pos_bound va' 4096 ltac:(lia)) as Hmod'.
    destruct (decide (q = pa)) as [->|Hne].
    + pose proof (Hinj va va' pa Hva Hva' Hpa Hq) as E.
      destruct (decide (va <= va' < va + Z.of_nat (length bs))) as [Hin|Hout].
      * rewrite decide_True by (Z.div_mod_to_equations; lia).
        replace (Z.to_nat (pa + va' mod 4096 - (pa + va mod 4096))) with (Z.to_nat (va' - va))
          by (Z.div_mod_to_equations; lia).
        destruct (lookup_lt_is_Some_2 bs (Z.to_nat (va' - va)) ltac:(lia)) as [b Hb]. rewrite Hb.
        cbn. f_equal. apply u8_small. by eapply Forall_lookup in Hbs.
      * rewrite decide_False by (Z.div_mod_to_equations; lia). done.
    + pose proof (page_disjoint q pa (q + va' mod 4096) Hqok Hok Hne ltac:(unfold in_page; lia)) as Hdis.
      unfold in_page in Hdis. rewrite !decide_False; [done| |lia]. intros Hin.
      apply Hne. assert (va / 4096 = va' / 4096) as E by (Z.div_mod_to_equations; lia).
      rewrite (upage_page _ pt va va' Hva Hva' E), Hpa in Hq. by injection Hq.
  - rewrite decide_False; [done|]. intros Hin.
    assert (va / 4096 = va' / 4096) as E by (Z.div_mod_to_equations; lia).
    by rewrite (upage_page _ pt va va' Hva Hva' E), Hpa in Hq.
Qed.

Lemma umap_ok_lookup D m m' pt :
  (forall va, pt_lookup m' pt va = pt_lookup m pt va) -> umap_ok D m pt -> umap_ok D m' pt.
Proof.
  intros Hl. assert (forall va, upage m' pt va = upage m pt va) as Hu.
  { intros va. unfold upage. by rewrite Hl. }
  intros [Hd Hi]. split; [intros va pa|intros va va' pa]; rewrite !Hu; eauto.
Qed.

Lemma copyout_loop_run D fl pt fuel dstva src m :
  vm_inv D fl pt m -> umap_ok D (m_mem m) pt -> 0 <= dstva < 2 ^ 64 ->
  Forall (fun b => 0 <= b < 256) src ->
  dstva mod 4096 + Z.of_nat (length src) <= 4096 * Z.of_nat fuel ->
  exists r m' k, copyout_loop (S fuel) pt dstva src m = Ok r m' /\ vm_inv D fl pt m' /\
    vm_frame D m m' /\ (forall va, pt_lookup (m_mem m') pt va = pt_lookup (m_mem m) pt va) /\
    (forall va, 0 <= va -> ubyte (m_mem m') pt va =
       if decide (dstva <= va < dstva + Z.of_nat k) then src !! Z.to_nat (va - dstva)
       else ubyte (m_mem m) pt va) /\
    (r = 0 /\ k = length src \/
     r = -1 /\ (k < length src)%nat /\ ubyte (m_mem m) pt (dstva + Z.of_nat k) = None).
Proof.
  revert dstva src m. induction fuel as [|fuel IH]; intros dstva src m Hinv Hu Hdst Hsrc Hfuel;
    [|remember (S fuel) as f eqn:Ef]; cbn [copyout_loop];
    (destruct (Z.ltb_spec 0 (Z.of_nat (length src))) as [Hpos|Hpos]; cbn [negb];
      [|exists 0, m, 0%nat; split_and!; [done|done|apply vm_frame_refl|done| |left; split; [done|lia]];
        intros va _; by rewrite decide_False by lia]).
  { Z.div_mod_to_equations. lia. }
  pose proof (chunk_bounds dstva (Z.of_nat (length src)) ltac:(lia) Hpos) as Hch. cbv zeta in Hch.
  destruct Hch as (Hn & Hoff & Hfit & Hnext & Hpage & Hva0).
  erewrite bind_ok by (apply walkaddr_run; by eapply vm_inv_wf0).
  rewrite (upage_page _ pt dstva (PGROUNDDOWN dstva)) by lia.
  set (n := if Z.of_nat (length src) <? PGSIZE - (dstva - PGROUNDDOWN dstva) then Z.of_nat (length src)
            else PGSIZE - (dstva - PGROUNDDOWN dstva)) in *. cbv zeta. fold n.
  destruct (upage (m_mem m) pt dstva) as [pa|] eqn:Hpa; cbn [from_option id].
  2: { exists (-1), m, 0%nat. split_and!; [done|done|apply vm_frame_refl|done| |right; split_and!; [done|lia|]].
       - intros va _. by rewrite decide_False by lia.
       - unfold ubyte, upa. by rewrite Z.add_0_r, Hpa. }
  destruct (upage_nonzero _ _ _ _ Hpa) as [Hnz Hmax]. destruct (Z.eqb_spec pa 0) as [|_]; [done|].
  set (bs := take (Z.to_nat n) src). unfold mem_op. mrun. rewrite Hoff.
  assert (length bs = Z.to_nat n) as Hlb by (unfold bs; rewrite length_take; lia).
  destruct (write_chunk D fl pt m dstva pa bs) as (Hinv1 & Hf1 & Hl1 & Hb1);
    [done|done|lia|done|lia|by apply Forall_take|].
  set (m1 := m <| m_mem ::= write_bytes (pa + dstva mod 4096) bs |>) in *.
  change MAXVA with (2 ^ 38) in Hmax. pose proof (PGROUNDDOWN_bounds dstva).
  pose proof (PGROUNDDOWN_aligned dstva) as Hal. rewrite u64_small by (unfold PGSIZE; lia).
  destruct (IH (PGROUNDDOWN dstva + PGSIZE) (drop (Z.to_nat n) src) m1)
    as (r & m' & k & Hrun & Hinv' & Hf' & Hl' & Hb' & Hr).
  { done. } { by eapply umap_ok_lookup. } { unfold PGSIZE. lia. } { by apply Forall_drop. }
  { unfold PGSIZE. rewrite Z.add_mod, Hal, length_drop by lia. cbn. Z.div_mod_to_equations. lia. }
  rewrite length_drop in Hr.
  assert (k <> 0%nat \/ n < Z.of_nat (length src) -> dstva + n = PGROUNDDOWN dstva + PGSIZE) as Hnext'.
  { intros Hc. apply Hnext. lia. }
  exists r, m', (Z.to_nat n + k)%nat. split_and!.
  - exact Hrun.
  - done.
  - by eapply vm_frame_trans.
  - intros va. by rewrite Hl'.
  - intros va Hva. rewrite Hb', Hb1, Hlb by done. unfold bs.
    destruct (decide (PGROUNDDOWN dstva + PGSIZE <= va < PGROUNDDOWN dstva + PGSIZE + Z.of_nat k)).
    + rewrite decide_True by lia. rewrite lookup_drop. f_equal. lia.
    + destruct (decide (dstva <= va < dstva + Z.of_nat (Z.to_nat n))).
      * rewrite decide_True by lia. by rewrite lookup_take_lt by lia.
      * by rewrite decide_False by lia.
  - destruct Hr as [[-> Hk]|(-> & Hk & Hnone)]; [left; lia|right]. split_and!; [done|lia|].
    rewrite Hb1 in Hnone by (unfold PGSIZE; lia). rewrite decide_False in Hnone by lia.
    rewrite <- Hnone. f_equal. lia.
Qed.

Lemma copyinstr_page_run n p m bs got :
  copyinstr_page n p m = (bs, got) ->
  (forall i b, bs !! i = Some b -> b = load8 m (p + Z.of_nat i)) /\ (length bs <= n)%nat /\
  if got then exists s, bs = s ++ [0] /\ Forall (fun b => b <> 0) s
  else length bs = n /\ Forall (fun b => b <> 0) bs.
Proof.
  revert p bs. induction n as [|n IH]; intros p bs; cbn [copyinstr_page].
  { intros [= <- <-]. split_and!; [by intros i b ?|done|done|constructor]. }
  destruct (Z.eqb_spec (load8 m p) 0) as [E|E].
  - intros [= <- <-]. split_and!; [|cbn; lia|by exists []].
    intros [|i] b; cbn; [|done]. intros [= <-]. by rewrite Z.add_0_r.
  - destruct (copyinstr_page n (p + 1) m) as [bs' got'] eqn:Er. intros [= <- <-].
    destruct (IH _ _ Er) as (Hb & Hlen & Hgot). split_and!; [|cbn; lia|].
    + intros [|i] b; cbn.
      * intros [= <-]. by rewrite Z.add_0_r.
      * intros Hi%Hb. rewrite Hi. f_equal. lia.
    + destruct got'.
      * destruct Hgot as (s & -> & Hs). exists (load8 m p :: s). split; [done|]. by constructor.
      * destruct Hgot as [Hl Hs]. split; [cbn; lia|]. by constructor.
Qed.

Lemma copyinstr_loop_run pt m fuel dst srcva max got :
  pt_wf 2 (m_mem m) pt [] -> 0 <= srcva < 2 ^ 64 -> 0 <= max ->
  srcva mod 4096 + max <= 4096 * Z.of_nat fuel ->
  exists r bs, copyinstr_loop (S fuel) pt dst srcva max got m = Ok (r, dst ++ bs) m /\
    (forall i b, bs !! i = Some b -> ubyte (m_mem m) pt (srcva + Z.of_nat i) = Some b) /\
    Z.of_nat (length bs) <= max /\
    if got then r = 0 /\ bs = [] else
    (r = 0 /\ (exists s, bs = s ++ [0] /\ Forall (fun b => b <> 0) s) \/
     r = -1 /\ Forall (fun b => b <> 0) bs /\
       (Z.of_nat (length bs) = max \/
        ubyte (m_mem m) pt (srcva + Z.of_nat (length bs)) = None)).
Proof.
  intros Hwf. revert dst srcva max got.
  induction fuel as [|fuel IH]; intros dst srcva max got Hsrc Hmx Hfuel;
    [|remember (S fuel) as f eqn:Ef]; cbn [copyinstr_loop];
    (destruct got; [exists 0, []; rewrite app_nil_r; split_and!; [done|by intros i b ?|cbn; lia|done|done]|]);
    (destruct (Z.ltb_spec 0 max) as [Hpos|Hpos]; cbn [negb];
      [|exists (-1), []; rewrite app_nil_r; split_and!;
        [done|by intros i b ?|cbn; lia|right; split_and!; [done|constructor|left; cbn; lia]]]).
  { Z.div_mod_to_equations. lia. }
  pose proof (chunk_bounds srcva max ltac:(lia) Hpos) as Hch. cbv zeta in Hch.
  destruct Hch as (Hn & Hoff & Hfit & Hnext & Hpage & Hva0).
  erewrite bind_ok by (by apply walkaddr_run). rewrite (upage_page _ pt srcva (PGROUNDDOWN srcva)) by lia.
  set (n := if max <? PGSIZE - (srcva - PGROUNDDOWN srcva) then max
            else PGSIZE - (srcva - PGROUNDDOWN srcva)) in *. cbv zeta. fold n.
  destruct (upage (m_mem m) pt srcva) as [pa|] eqn:Hpa; cbn [from_option id].
  2: { exists (-1), []. rewrite app_nil_r.
       split_and!; [done|by intros i b ?|cbn; lia|right; split_and!; [done|constructor|right]].
       unfold ubyte, upa. cbn. by rewrite Z.add_0_r, Hpa. }
  destruct (upage_nonzero _ _ _ _ Hpa) as [Hnz Hmax]. destruct (Z.eqb_spec pa 0); [done|].
  mrun. destruct (copyinstr_page _ _ _) as [bytes got] eqn:Hp.
  apply copyinstr_page_run in Hp as (Hb & Hlb & Hgot).
  assert (forall i b, bytes !! i = Some b -> ubyte (m_mem m) pt (srcva + Z.of_nat i) = Some b) as Hub.
  { intros i b Hi. pose proof (lookup_lt_Some _ _ _ Hi). apply Hb in Hi. subst b. unfold ubyte.
    rewrite upa_chunk, Hpa by lia. cbn. do 2 f_equal. lia. }
  change MAXVA with (2 ^ 38) in Hmax. pose proof (PGROUNDDOWN_bounds srcva).
  rewrite u64_small by (unfold PGSIZE; lia). pose proof (PGROUNDDOWN_aligned srcva) as Hal.
  destruct (IH (dst ++ bytes) (PGROUNDDOWN srcva + PGSIZE) (max - n) got) as (r & bs & Hrun & Hbs & Hlbs & Hr).
  { unfold PGSIZE. lia. } { lia. }
  { unfold PGSIZE. rewrite Z.add_mod, Hal by lia. cbn. Z.div_mod_to_equations. lia. }
  exists r, (bytes ++ bs). rewrite app_assoc. split; [done|]. destruct got.
  - destruct Hr as [-> ->]. rewrite app_nil_r. split_and!; [done|lia|by left].
  - destruct Hgot as [Hlen Hnz'].
    assert (bs <> [] \/ n < max -> srcva + n = PGROUNDDOWN srcva + PGSIZE) as Hnext'.
    { intros Hc. apply Hnext. destruct Hc as [Hc|]; [|done]. destruct bs; [done|]. cbn in Hlbs. lia. }
    split_and!.
    + intros i b [Hi|[Hge Hi]]%lookup_app_Some; [by apply Hub|].
      apply Hbs in Hi as Hu. rewrite <- Hu. f_equal. rewrite <- Hnext'; [lia|]. left. by intros ->.
    + rewrite length_app. lia.
    + rewrite length_app. destruct Hr as [[-> (s & -> & Hs)]|(-> & Hs & Hend)]; [left|right].
      * split; [done|]. exists (bytes ++ s). rewrite <- app_assoc. split; [done|]. by apply Forall_app.
      * split_and!; [done|by apply Forall_app|]. destruct Hend as [Hend|Hend]; [left; lia|].
        destruct (decide (n < max)).
        -- right. rewrite <- Hend. f_equal. rewrite <- Hnext' by lia. lia.
        -- left. lia.
Qed.

Lemma copyin_run pt srcva len m :
  pt_wf 2 (m_mem m) pt [] -> 0 <= srcva < 2 ^ 64 -> 0 <= len ->
  exists r bs, copyin pt srcva len m = Ok (r, bs) m /\
    (forall i b, bs !! i = Some b -> ubyte (m_mem m) pt (srcva + Z.of_nat i) = Some b) /\
    (r = 0 /\ Z.of_nat (length bs) = len \/
     r = -1 /\ Z.of_nat (length bs) < len /\
       ubyte (m_mem m) pt (srcva + Z.of_nat (length bs)) = None).
Proof.
  intros Hwf Hsrc Hlen. apply (copyin_loop_run pt m _ []); [done..|].
  pose proof (Z.mod_pos_bound srcva 4096 ltac:(lia)). unfold PGSIZE.
  Z.div_mod_to_equations. lia.
Qed.

(** [copyin] never touches memory, and returns either 0 and the [len]
    bytes the user sees at [srcva], or -1 when one of the bytes is not
    mapped readable for the user, having copied exactly the bytes before the
    page of the first such byte. *)
Theorem copyin_spec pt srcva len m :
  pt_wf 2 (m_mem m) pt [] -> 0 <= srcva < 2 ^ 64 -> 0 <= len ->
  exists r bs, copyin pt srcva len m = Ok (r, bs) m /\
    (forall i b, bs !! i = Some b -> ubyte (m_mem m) pt (srcva + Z.of_nat i) = Some b) /\
    (r = 0 /\ Z.of_nat (length bs) = len \/
     r = -1 /\ Z.of_nat (length bs) < len /\
       ubyte (m_mem m) pt (srcva + Z.of_nat (length bs)) = None).
Proof. apply copyin_run. Qed.

Lemma copyout_run D fl pt dstva src m :
  vm_inv D fl pt m -> umap_ok D (m_mem m) pt -> 0 <= dstva < 2 ^ 64 ->
  Forall (fun b => 0 <= b < 256) src ->
  exists r m' k, copyout pt dstva src m = Ok r m' /\ vm_inv D fl pt m' /\ vm_frame D m m' /\
    (forall va, pt_lookup (m_mem m') pt va = pt_lookup (m_mem m) pt va) /\
    (forall va, 0 <= va -> ubyte (m_mem m') pt va =
       if decide (dstva <= va < dstva + Z.of_nat k) then src !! Z.to_nat (va - dstva)
       else ubyte (m_mem m) pt va) /\
    (r = 0 /\ k = length src /\ copyin pt dstva (Z.of_nat (length src)) m' = Ok (0, src) m' \/
     r = -1 /\ (k < length src)%nat /\ ubyte (m_mem m) pt (dstva + Z.of_nat k) = None).
Proof.
  intros Hinv Hu Hdst Hsrc. pose proof (Z.mod_pos_bound dstva 4096 ltac:(lia)) as Hmod.
  assert (dstva mod 4096 + Z.of_nat (length src) <=
            4096 * Z.of_nat (S (S (Z.to_nat (Z.of_nat (length src) / PGSIZE))))) as Hfuel.
  { unfold PGSIZE. Z.div_mod_to_equations. lia. }
  destruct (copyout_loop_run D fl pt _ dstva src m Hinv Hu Hdst Hsrc Hfuel)
    as (r & m' & k & Hrun & Hinv' & Hf & Hl & Hb & Hr).
  exists r, m', k. split_and!; [done..|]. destruct Hr as [[-> ->]|Hr]; [left|by right].
  split_and!; [done..|].
  destruct (copyin_loop_run pt m' (S (S (Z.to_nat (Z.of_nat (length src) / PGSIZE)))) [] dstva
    (Z.of_nat (length src)) (vm_inv_wf0 _ _ _ _ Hinv') Hdst) as (r & bs & Hrun' & Hbs & Hr); [lia|done|]. clear Hl.
  unfold copyin. rewrite Hrun'. cbn.
  destruct Hr as [[-> Hl]|(-> & Hl & Hnone)].
  - do 2 f_equal. apply list_eq. intros i. destruct (bs !! i) as [b|] eqn:Hi.
    + pose proof (lookup_lt_Some _ _ _ Hi). apply Hbs in Hi.
      rewrite Hb, decide_True in Hi by lia. rewrite <- Hi. f_equal. lia.
    + symmetry. apply lookup_ge_None. apply lookup_ge_None in Hi. lia.
  - rewrite Hb, decide_True in Hnone by lia. apply lookup_ge_None in Hnone. lia.
Qed.

(** C32: [copyout] followed by [copyin] of the same range returns the bytes
    written; no other byte of the user's memory changes, and nothing outside
    the data pages does. When a page of the range is not mapped for the user
    it returns -1, having written exactly the bytes before that page. *)
Theorem copyout_spec D fl pt dstva src m :
  vm_inv D fl pt m -> umap_ok D (m_mem m) pt -> 0 <= dstva < 2 ^ 64 ->
  Forall (fun b => 0 <= b < 256) src ->
  exists r m' k, copyout pt dstva src m = Ok r m' /\ vm_inv D fl pt m' /\ vm_frame D m m' /\
    (forall va, 0 <= va -> ubyte (m_mem m') pt va =
       if decide (dstva <= va < dstva + Z.of_nat k) then src !! Z.to_nat (va - dstva)
       else ubyte (m_mem m) pt va) /\
    (r = 0 /\ k = length src /\ copyin pt dstva (Z.of_nat (length src)) m' = Ok (0, src) m' \/
     r = -1 /\ (k < length src)%nat /\ ubyte (m_mem m) pt (dstva + Z.of_nat k) = None).
Proof.
  intros Hinv Hu Hdst Hsrc. destruct (copyout_run D fl pt dstva src m) as (r & m' & k & ? & ? & ? & _ & ? & ?); [done..|].
  by exists r, m', k.
Qed.

(** [copyinstr] returns 0 exactly when a NUL lies within the first
    [max] bytes and all bytes up to it are mapped for the user; then it has
    stored the string with its NUL. Otherwise it returns -1. Memory is not
    touched in either case. *)
Theorem copyinstr_spec pt srcva max m :
  pt_wf 2 (m_mem m) pt [] -> 0 <= srcva < 2 ^ 64 -> 0 <= max ->
  exists r bs, copyinstr pt srcva max m = Ok (r, bs) m /\ Z.of_nat (length bs) <= max /\
    (forall i b, bs !! i = Some b -> ubyte (m_mem m) pt (srcva + Z.of_nat i) = Some b) /\
    (r = 0 /\ (exists s, bs = s ++ [0] /\ Forall (fun b => b <> 0) s) \/
     r = -1 /\ Forall (fun b => b <> 0) bs /\
       (Z.of_nat (length bs) = max \/
        ubyte (m_mem m) pt (srcva + Z.of_nat (length bs)) = None)).
Proof.
  intros Hwf Hsrc Hmax. pose proof (Z.mod_pos_bound srcva 4096 ltac:(lia)) as Hmod.
  destruct (copyinstr_loop_run pt m (S (S (Z.to_nat (max / PGSIZE)))) [] srcva max false)
    as (r & bs & Hrun & Hb & Hl & Hr); [done..| |].
  { unfold PGSIZE. Z.div_mod_to_equations. lia. }
  exists r, bs. done.
Qed.

End copy.
