(* ===== verification/VmAlloc.v ===== *)
(** * Growing and copying address spaces ([uvmalloc] and [uvmcopy] of
      [kernel/vm.c])

    Both map fresh pages one after the other and undo everything when
    memory runs out. [grown] describes the state after [length pas] pages. *)

From S2P Require Import Prelude Riscv Machine Spinlock PhysMem Kalloc PageTable Vm VmSpec.

Section alloc.
Context `{KernelLayout}.

(** The pages [pas] are mapped from [base] on, the [i]-th with permissions
    [perm i] and contents [cont i]; everything else is as in the state [m0]
    with free list [fl0]. *)
Definition grown (D : list Z) (pt base : Z) (perm : nat -> Z) (cont : nat -> Z -> Z)
    (fl0 : list Z) (m0 : machine) (pas fl : list Z) (m : machine) : Prop :=
  vm_inv (pas ++ D) fl pt m /\ Forall page_ok pas /\
  vm_frame (pt_pages 2 (m_mem m0) pt ++ fl0) m0 m /\
  pt_pages 2 (m_mem m) pt ++ pas ++ fl ≡ₚ pt_pages 2 (m_mem m0) pt ++ fl0 /\
  (forall i p c, pas !! i = Some p -> in_page p c -> load8 (m_mem m) c = cont i (c - p)) /\
  (forall va, 0 <= va < 2 ^ 39 -> pt_lookup (m_mem m) pt va =
     if decide (base <= va < base + 4096 * Z.of_nat (length pas))
     then (fun pa => make_pte pa (perm (Z.to_nat ((va - base) / 4096)))) <$>
            pas !! Z.to_nat ((va - base) / 4096)
     else pt_lookup (m_mem m0) pt va).

Lemma grown_index {A} base pas (x va : Z) (f : nat -> Z -> A) (old : option A) :
  base mod 4096 = 0 ->
  (if decide ((base + 4096 * Z.of_nat (length pas)) / 4096 = va / 4096) then Some (f (length pas) x)
   else if decide (base <= va < base + 4096 * Z.of_nat (length pas))
        then f (Z.to_nat ((va - base) / 4096)) <$> pas !! Z.to_nat ((va - base) / 4096) else old) =
  if decide (base <= va < base + 4096 * Z.of_nat (length pas + 1))
  then f (Z.to_nat ((va - base) / 4096)) <$> (pas ++ [x]) !! Z.to_nat ((va - base) / 4096) else old.
Proof.
  intros Hbal. destruct (decide ((base + 4096 * Z.of_nat (length pas)) / 4096 = va / 4096)) as [E|E].
  - rewrite decide_True by (Z.div_mod_to_equations; lia).
    replace (Z.to_nat ((va - base) / 4096)) with (length pas) by (Z.div_mod_to_equations; lia).
    by rewrite lookup_app_r, Nat.sub_diag by lia.
  - destruct (decide (base <= va < base + 4096 * Z.of_nat (length pas))) as [Hin|Hout].
    + rewrite decide_True by lia. rewrite lookup_app_l; [done|]. Z.div_mod_to_equations; lia.
    + by rewrite decide_False by (Z.div_mod_to_equations; lia).
Qed.

Section grown.
Context (D : list Z) (pt base : Z) (perm : nat -> Z) (cont : nat -> Z -> Z) (fl0 : list Z) (m0 : machine).
Context (Hbase : 0 <= base) (Hbal : base mod 4096 = 0).
Context (Hperm : forall i, 0 <= perm i < 1024).

Abbreviation grown := (grown D pt base perm cont fl0 m0).

Lemma grown_nil : vm_inv D fl0 pt m0 -> grown [] fl0 m0.
Proof.
  intros Hinv. split_and!; [done..|apply vm_frame_refl|done|by intros i p c ?|].
  intros va _. cbn. by rewrite decide_False by lia.
Qed.

(** The page [x] was taken from the free list and filled: [mappages] adds
    it, or fails and [kfree] gives it back. *)
Lemma grown_map pas fl m x m2 :
  grown pas (x :: fl) m ->
  let a := base + 4096 * Z.of_nat (length pas) in
  a < MAXVA -> pt_lookup (m_mem m0) pt a = None ->
  vm_inv (x :: pas ++ D) fl pt m2 -> vm_frame [x] m m2 -> page_ok x ->
  (forall va, pt_lookup (m_mem m2) pt va = pt_lookup (m_mem m) pt va) ->
  pt_pages 2 (m_mem m2) pt = pt_pages 2 (m_mem m) pt ->
  (forall c, in_page x c -> load8 (m_mem m2) c = cont (length pas) (c - x)) ->
  exists r m3, mappages pt a PGSIZE x (perm (length pas)) m2 = Ok r m3 /\
    if decide (r = 0)
    then exists fl3, grown (pas ++ [x]) fl3 m3 /\ (length fl <= length fl3 + 2)%nat
    else exists m4, kfree x m3 = Ok tt m4 /\ grown pas [x] m4 /\ (length fl <= 2)%nat.
Proof.
  intros (Hinv & Hok & Hf & Hp & Hz & Hl) a Ha Hnone Hinv2 Hf2 Hx Hl2 Hp2 Hz2.
  assert (pt_lookup (m_mem m2) pt a = None) as Hn2.
  { rewrite Hl2, Hl, decide_False by (change MAXVA with (2 ^ 38) in *; lia). done. }
  destruct (mappages_page (x :: pas ++ D) pt a x (perm (length pas)) fl m2)
    as (r & m3 & fl3 & Hr3 & (Hinv3 & Hf3 & Hp3) & Hlen & Hl3);
    [done|lia|subst a; by rewrite Z.add_mod, (Z.mul_comm 4096), Z.mod_mul, Hbal by lia|done..|].
  exists r, m3. split; [done|].
  assert (x ∉ pas) as Hxpas.
  { intros Hin. eapply (vm_inv_data_fresh _ _ _ _ x Hinv); rewrite elem_of_app; [by left|right; left]. }
  assert (vm_frame (pt_pages 2 (m_mem m0) pt ++ fl0) m0 m3) as Hf03.
  { eapply vm_frame_trans; [exact Hf|]. eapply vm_frame_trans.
    - eapply vm_frame_mono; [|exact Hf2]. intros p ->%list_elem_of_singleton. rewrite <- Hp.
      rewrite !elem_of_app. right. right. left.
    - eapply vm_frame_mono; [|exact Hf3]. intros p. rewrite Hp2, <- Hp, !elem_of_app.
      intros [?|?]; [by left|right; right; by right]. }
  assert (forall i p c, (pas ++ [x]) !! i = Some p -> in_page p c -> load8 (m_mem m3) c = cont i (c - p)) as Hz3.
  { intros i p c Hi Hc.
    assert (p ∈ x :: pas ++ D /\ page_ok p) as [HpD Hpok].
    { apply lookup_app_Some in Hi as [Hi|[_ ->%list_elem_of_lookup_2%list_elem_of_singleton]]; [|by split; [left|]].
      split; [right; rewrite elem_of_app; left; by eapply list_elem_of_lookup_2|by eapply Forall_lookup in Hok]. }
    erewrite (frame_page _ m2 m3 p c Hf3); [|by eapply vm_inv_sys_ok|done|by eapply vm_inv_data_fresh|done].
    apply lookup_app_Some in Hi as [Hi|[Hge Hi]].
    - erewrite (frame_page [x] m m2 p c Hf2); [by apply Hz|by apply Forall_singleton|done| |done].
      intros ->%list_elem_of_singleton. apply Hxpas. by eapply list_elem_of_lookup_2.
    - apply list_lookup_singleton_Some in Hi as [Hi <-].
      replace i with (length pas) by lia. by apply Hz2. }
  case_decide as Hr.
  - exists fl3. split; [|done]. split_and!; [|by rewrite Forall_app, Forall_singleton|done| |done|].
    + eapply vm_inv_perm; [|exact Hinv3]. perm.
    + rewrite Hp2 in Hp3. perm.
    + intros va Hva. rewrite Hl3, Hl2, Hl, length_app by done. cbn [length].
      by apply (grown_index base pas x va (fun i pa => make_pte pa (perm i))).
  - destruct Hl3 as (-> & -> & Hl3).
    destruct (vm_kfree (pas ++ D) [] pt m3 x) as (m4 & Hr4 & Hinv4 & Hf4 & Hl4 & _ & Hp4); [done..|].
    exists m4. split; [done|]. split; [|done]. split_and!; [done|done| | | |].
    + eapply vm_frame_trans; [exact Hf03|]. eapply vm_frame_mono; [|exact Hf4].
      intros p ->%list_elem_of_singleton. rewrite <- Hp, !elem_of_app. right. right. left.
    + rewrite Hp4. rewrite Hp2 in Hp3. perm.
    + intros i p c Hi Hc.
      erewrite (frame_page [x] m3 m4 p c Hf4); [|by apply Forall_singleton|by eapply Forall_lookup in Hok| |done].
      * apply Hz3; [|done]. by apply lookup_app_l_Some.
      * intros ->%list_elem_of_singleton. apply Hxpas. by eapply list_elem_of_lookup_2.
    + intros va Hva. by rewrite Hl4, Hl3, Hl2, Hl.
Qed.

(** The entries of the mapped pages, as [uvmunmap] finds them. *)
Lemma grown_ptes pas fl m :
  grown pas fl m -> base + 4096 * Z.of_nat (length pas) <= MAXVA ->
  (forall i, Z.lor (perm i) PTE_V <> PTE_V) ->
  exists vs, PTE2PA <$> vs = pas /\
    forall i v, vs !! i = Some v ->
      pt_lookup (m_mem m) pt (base + 4096 * Z.of_nat i) = Some v /\ PTE_FLAGS v <> PTE_V.
Proof.
  intros (_ & Hok & _ & _ & _ & Hl) Hmax Hleaf. exists (imap (fun i pa => make_pte pa (perm i)) pas).
  assert (forall i pa, page_ok pa -> PTE2PA (make_pte pa (perm i)) = pa /\
            PTE_FLAGS (make_pte pa (perm i)) = Z.lor (perm i) PTE_V) as Hpte.
  { intros i pa Hpa. pose proof (page_ok_range pa Hpa). destruct Hpa as [Hal _].
    by destruct (make_pte_facts pa (perm i)) as (_ & _ & _ & E & E'); [lia|done..|]. }
  split.
  - apply list_eq. intros i. rewrite list_lookup_fmap, list_lookup_imap.
    destruct (pas !! i) as [pa|] eqn:Hi; [|done]. cbn. f_equal. apply Hpte. by eapply Forall_lookup in Hok.
  - intros i v. rewrite list_lookup_imap. destruct (pas !! i) as [pa|] eqn:Hi; [|done]. intros [= <-].
    pose proof (lookup_lt_Some _ _ _ Hi). change MAXVA with (2 ^ 38) in Hmax. split.
    + rewrite Hl, decide_True by lia.
      replace (Z.to_nat ((base + 4096 * Z.of_nat i - base) / 4096)) with i; [by rewrite Hi|].
      replace (base + 4096 * Z.of_nat i - base) with (Z.of_nat i * 4096) by lia.
      by rewrite Z.div_mul, Nat2Z.id by lia.
    + eapply Forall_lookup in Hok; [|exact Hi]. by rewrite (proj2 (Hpte i pa Hok)).
Qed.

(** Unmapping and freeing all of them restores the initial mappings. *)
Lemma grown_freed pas fl m m' :
  grown pas fl m ->
  (forall va, base <= va < base + 4096 * Z.of_nat (length pas) -> pt_lookup (m_mem m0) pt va = None) ->
  vm_inv D (reverse pas ++ fl) pt m' -> vm_frame (pt_pages 2 (m_mem m) pt ++ pas) m m' ->
  pt_pages 2 (m_mem m') pt = pt_pages 2 (m_mem m) pt ->
  (forall va, 0 <= va < 2 ^ 39 -> pt_lookup (m_mem m') pt va =
     if decide (base <= va < base + 4096 * Z.of_nat (length pas)) then None
     else pt_lookup (m_mem m) pt va) ->
  grown [] (reverse pas ++ fl) m'.
Proof.
  intros (Hinv & Hok & Hf & Hp & Hz & Hl) Hnone Hinv' Hf' Hp' Hl'. split_and!; [done..| | | |].
  - eapply vm_frame_trans; [exact Hf|]. eapply vm_frame_mono; [|exact Hf'].
    intros p. rewrite <- Hp, !elem_of_app. intros [?|?]; auto.
  - rewrite Hp'. perm.
  - by intros i p c ?.
  - intros va Hva. rewrite Hl', Hl by done. cbn [length].
    rewrite (decide_False (P := base <= va < base + 4096 * Z.of_nat 0)) by lia.
    case_decide; [|done]. symmetry. by apply Hnone.
Qed.

Lemma grown_undo pas fl m :
  grown pas fl m -> base + 4096 * Z.of_nat (length pas) <= MAXVA ->
  (forall i, Z.lor (perm i) PTE_V <> PTE_V) ->
  (forall va, base <= va < base + 4096 * Z.of_nat (length pas) -> pt_lookup (m_mem m0) pt va = None) ->
  (exists m', uvmdealloc pt (base + 4096 * Z.of_nat (length pas)) base m = Ok base m' /\
     grown [] (reverse pas ++ fl) m') /\
  (exists m', uvmunmap pt base (Z.of_nat (length pas)) true m = Ok tt m' /\
     grown [] (reverse pas ++ fl) m').
Proof.
  intros Hg Hmax Hleaf Hnone. destruct (grown_ptes pas fl m Hg Hmax Hleaf) as (vs & Epas & Hvs).
  pose proof Hg as (Hinv & Hok & _).
  assert (length vs = length pas) as Elen by (rewrite <- Epas; by rewrite length_fmap).
  assert (PGROUNDUP base = base) as Eb by (apply PGROUNDUP_id; [change MAXVA with (2 ^ 38) in *; lia|done]).
  assert (PGROUNDUP (base + 4096 * Z.of_nat (length pas)) = base + 4096 * Z.of_nat (length pas)) as Ea.
  { apply PGROUNDUP_id; [change MAXVA with (2 ^ 38) in *; lia|].
    by rewrite Z.add_mod, (Z.mul_comm 4096), Z.mod_mul, Hbal by lia. }
  split.
  - destruct (uvmdealloc_run pt vs D fl (base + 4096 * Z.of_nat (length pas)) base m)
      as (m' & Hrun & Hinv' & Hf' & Hp' & Hl'); rewrite ?Epas, ?Eb, ?Ea, ?Elen; try done; [lia|].
    rewrite Epas, Eb, Ea in *. exists m'. split; [done|]. by eapply grown_freed.
  - destruct (uvmunmap_free pt vs D fl base (Z.of_nat (length pas)) m)
      as (m' & Hrun & Hinv' & Hf' & Hp' & Hl'); rewrite ?Epas, ?Elen; try done.
    rewrite Epas in *. exists m'. split; [done|]. by eapply grown_freed.
Qed.

End grown.

(** ** [uvmalloc] *)

Definition uvmalloc_perm (xperm : Z) : Z := Z.lor (Z.lor PTE_R PTE_U) xperm.

Lemma uvmalloc_perm_ok xperm :
  0 <= xperm < 1024 -> 0 <= uvmalloc_perm xperm < 1024 /\ Z.lor (uvmalloc_perm xperm) PTE_V <> PTE_V.
Proof.
  intros Hx. unfold uvmalloc_perm. split.
  - split; [apply Z.lor_nonneg; split; [done|lia]|].
    destruct (decide (xperm = 0)) as [->|]; [done|].
    apply Z.log2_lt_cancel. rewrite Z.log2_lor; [|done|lia]. change (Z.log2 1024) with 10.
    apply Z.max_lub_lt; [done|]. apply Z.log2_lt_pow2; lia.
  - intros E. apply (f_equal (fun z => Z.testbit z 1)) in E. rewrite !Z.lor_spec in E. done.
Qed.

Lemma memset_page x mm c :
  (~ in_page x c -> load8 (memset x 0 PGSIZE mm) c = load8 mm c) /\
  (in_page x c -> load8 (memset x 0 PGSIZE mm) c = 0).
Proof.
  unfold in_page. rewrite load8_memset by (unfold PGSIZE; lia). unfold PGSIZE.
  split; intros; [by rewrite bool_decide_eq_false_2 by lia|by rewrite bool_decide_eq_true_2 by lia].
Qed.

Lemma uvmalloc_loop_run D pt base newsz top xperm fl0 m0 :
  0 <= base -> base mod 4096 = 0 -> top <= MAXVA -> 0 <= xperm < 1024 ->
  newsz <= top < newsz + 4096 -> top mod 4096 = 0 ->
  (forall va, base <= va < top -> pt_lookup (m_mem m0) pt va = None) ->
  forall fuel pas fl m a,
  grown D pt base (fun _ => uvmalloc_perm xperm) (fun _ _ => 0) fl0 m0 pas fl m ->
  (length fl0 <= length fl + 3 * length pas)%nat -> a = base + 4096 * Z.of_nat (length pas) ->
  a <= MAXVA -> (a <= top \/ a = base) -> newsz - a <= 4096 * Z.of_nat fuel ->
  exists r m' pas' fl', uvmalloc_loop (S fuel) pt a base newsz xperm m = Ok r m' /\
    grown D pt base (fun _ => uvmalloc_perm xperm) (fun _ _ => 0) fl0 m0 pas' fl' m' /\
    (r = newsz /\ newsz <= base + 4096 * Z.of_nat (length pas') /\
       (base + 4096 * Z.of_nat (length pas') <= top \/ pas' = []) \/
     r = 0 /\ pas' = [] /\ 4096 * Z.of_nat (length fl0) <= 3 * (top - base)).
Proof.
  intros Hb Hal Hmax Hx Htop Htal Hnone. destruct (uvmalloc_perm_ok xperm Hx) as [Hperm Hleaf].
  assert (forall (pas : list Z) a, a = base + 4096 * Z.of_nat (length pas) ->
            a <= top \/ a = base -> a <= MAXVA ->
            forall va, base <= va < base + 4096 * Z.of_nat (length pas) -> pt_lookup (m_mem m0) pt va = None)
    as Hnone'.
  { intros pas a -> Hlt Hle va Hva. apply Hnone; lia. }
  induction fuel as [|fuel IH]; intros pas fl m a Hg Hlen Ea Ha Hlt Hfuel;
    [|remember (S fuel) as f eqn:Ef]; cbn [uvmalloc_loop];
    (destruct (Z.ltb_spec a newsz) as [Hn|Hn]; cbn [negb];
      [|exists newsz, m, pas, fl; split_and!; [done..|left; split_and!; [done|lia|]; destruct Hlt; [left; lia|];
          right; apply nil_length_inv; lia]]).
  { lia. }
  destruct fl as [|x fl].
  - erewrite bind_ok by (apply kalloc_empty; [by destruct Hg as ((? & _) & _)|by destruct Hg as ((_ & ? & _) & _)]).
    cbn [Z.eqb].
    destruct (grown_undo D pt base _ _ fl0 m0 Hb Hal (fun _ => Hperm) pas [] m Hg) as [(m' & Hrun & Hg') _];
      [lia|done|by eapply Hnone'|].
    rewrite <- Ea in Hrun. erewrite bind_ok by exact Hrun.
    exists 0, m', [], (reverse pas ++ []). split_and!; [reflexivity|exact Hg'|right; split_and!; [reflexivity|reflexivity|cbn [length] in *; lia]].
  - destruct (alloc_filled (pas ++ D) fl pt m x (memset x 0 PGSIZE)) as (m1 & Hr1 & _ & Hr2 & Hi2 & Hf2 & Hxok & Hl2 & Hp2);
      [by destruct Hg|intros mm c; apply memset_page|].
    destruct (grown_map D pt base _ _ fl0 m0 Hb Hal (fun _ => Hperm) pas fl m x
        (m1 <| m_mem ::= memset x 0 PGSIZE |>) Hg) as (r & m3 & Hr3 & Hr); [lia|apply Hnone; lia|done..|intros c; cbn; apply memset_page|].
    rewrite <- Ea in Hr3. erewrite bind_ok by exact Hr1.
    apply page_ok_nonzero, Z.eqb_neq in Hxok. rewrite Hxok.
    erewrite bind_ok by exact Hr2. erewrite bind_ok by exact Hr3. case_decide as E.
    + rewrite E. cbn [Z.eqb negb]. destruct Hr as (fl3 & Hg3 & Hlen3).
      rewrite u64_small by (change MAXVA with (2 ^ 38) in *; unfold PGSIZE; lia).
      apply (IH (pas ++ [x]) fl3 m3 (a + PGSIZE) Hg3); rewrite ?length_app; cbn [length] in *; unfold PGSIZE; try lia.
      all: change MAXVA with (2 ^ 38) in *; rewrite Ea in *; Z.div_mod_to_equations; lia.
    + apply Z.eqb_neq in E. rewrite E. cbn [negb]. destruct Hr as (m4 & Hr4 & Hg4 & Hlen4).
      erewrite bind_ok by exact Hr4.
      destruct (grown_undo D pt base _ _ fl0 m0 Hb Hal (fun _ => Hperm) pas [x] m4 Hg4) as [(m' & Hrun & Hg') _];
        [lia|done|by eapply Hnone'|].
      rewrite <- Ea in Hrun. erewrite bind_ok by exact Hrun.
      exists 0, m', [], (reverse pas ++ [x]). split_and!; [reflexivity|exact Hg'|right; split_and!; [reflexivity|reflexivity|cbn [length] in *; Z.div_mod_to_equations; lia]].
Qed.

(** C33: growing a process: when nothing is mapped between the old and the
    new size, [uvmalloc] either returns [newsz] with every new page mapped
    user-readable (plus [xperm]) to a distinct fresh zeroed page, or returns
    0 with all mappings as before and every page it took either back on the
    free list or part of the page table; with more than three free pages for
    each page to add it does not fail. Old mappings and memory outside the
    table and the free list are untouched. *)
Theorem uvmalloc_spec D pt oldsz newsz xperm fl m :
  vm_inv D fl pt m -> 0 <= oldsz <= newsz -> newsz <= MAXVA -> 0 <= xperm < 1024 ->
  (forall va, PGROUNDUP oldsz <= va < PGROUNDUP newsz -> pt_lookup (m_mem m) pt va = None) ->
  exists r m' pas fl', uvmalloc pt oldsz newsz xperm m = Ok r m' /\
    grown D pt (PGROUNDUP oldsz) (fun _ => uvmalloc_perm xperm) (fun _ _ => 0) fl m pas fl' m' /\
    (r = newsz /\ PGROUNDUP oldsz + 4096 * Z.of_nat (length pas) = PGROUNDUP newsz \/
     r = 0 /\ pas = [] /\ 4096 * Z.of_nat (length fl) <= 3 * (PGROUNDUP newsz - PGROUNDUP oldsz)).
Proof.
  intros Hinv Hsz Hmax Hx Hnone. unfold uvmalloc. destruct (Z.ltb_spec newsz oldsz); [lia|].
  change MAXVA with (2 ^ 38) in *.
  pose proof (PGROUNDUP_eq oldsz ltac:(lia)) as Eo. pose proof (PGROUNDUP_eq newsz ltac:(lia)) as En.
  destruct (uvmalloc_loop_run D pt (PGROUNDUP oldsz) newsz (PGROUNDUP newsz) xperm fl m)
    with (fuel := S (Z.to_nat ((newsz - PGROUNDUP oldsz) / PGSIZE))) (pas := @nil Z) (fl := fl) (m := m)
         (a := PGROUNDUP oldsz) as (r & m' & pas & fl' & Hrun & Hg & Hr);
    change MAXVA with (2 ^ 38); cbn [length]; try done; try lia.
  6: by apply grown_nil.
  1-7: unfold PGSIZE; rewrite ?Eo, ?En; Z.div_mod_to_equations; lia.
  exists r, m', pas, fl'. split_and!; [done..|]. destruct Hr as [(-> & Hle & Hlt)|Hr]; [left|by right].
  split; [done|]. destruct Hlt as [Hlt| ->]; rewrite Eo, En in *; cbn [length] in *;
    Z.div_mod_to_equations; lia.
Qed.

(** ** [uvmcopy] *)

(** The parent's table [old]: its pages and the data pages it maps are in
    [D]; the page at [4096 * i] is mapped by [vs !! i]. *)
Definition parent_ok (D : list Z) (old : Z) (vs : list Z) (m : gmap Z Z) : Prop :=
  pt_wf 2 m old [] /\ (forall p, p ∈ pt_pages 2 m old -> p ∈ D) /\
  (forall i v, vs !! i = Some v -> pt_lookup m old (4096 * Z.of_nat i) = Some v /\
     PTE_FLAGS v <> PTE_V /\ page_ok (PTE2PA v) /\ PTE2PA v ∈ D).

Definition copy_perm (vs : list Z) (i : nat) : Z :=
  match vs !! i with Some v => PTE_FLAGS v | None => PTE_R end.

Definition copy_cont (vs : list Z) (m : gmap Z Z) (i : nat) (o : Z) : Z :=
  load8 m (PTE2PA (default 0 (vs !! i)) + o).

Lemma copy_perm_ok vs i : 0 <= copy_perm vs i < 1024.
Proof.
  unfold copy_perm. destruct (vs !! i) as [v|]; [|done]. unfold PTE_FLAGS.
  change 0x3FF with (Z.ones 10). rewrite Z.land_ones by lia. apply Z.mod_pos_bound. lia.
Qed.

Lemma flags_V v : has_flag v PTE_V = true -> Z.lor (PTE_FLAGS v) PTE_V = PTE_FLAGS v.
Proof.
  intros HV. rewrite has_V in HV. unfold PTE_FLAGS. apply Z.bits_inj'. intros k Hk.
  rewrite Z.lor_spec, Z.land_spec. unfold PTE_V. rewrite testbit_pow2 by lia.
  destruct (Z.eqb_spec 0 k) as [<-|]; [by rewrite HV|]. by rewrite orb_false_r.
Qed.

(** The parent's table and pages are the same at every step of the copy. *)
Lemma parent_frame D new old vs fl0 m0 m :
  vm_inv D fl0 new m0 -> parent_ok D old vs (m_mem m0) ->
  vm_frame (pt_pages 2 (m_mem m0) new ++ fl0) m0 m ->
  (forall p c, p ∈ D -> page_ok p -> in_page p c -> load8 (m_mem m) c = load8 (m_mem m0) c) /\
  parent_ok D old vs (m_mem m).
Proof.
  intros Hinv (Hwf & Hpg & Hvs) Hf.
  assert (forall p c, p ∈ D -> page_ok p -> in_page p c -> load8 (m_mem m) c = load8 (m_mem m0) c) as He.
  { intros p c HpD Hok Hc. eapply frame_page; [exact Hf|by eapply vm_inv_sys_ok|done| |done].
    by eapply vm_inv_data_fresh. }
  assert (forall p c, p ∈ pt_pages 2 (m_mem m0) old -> in_page p c -> load8 (m_mem m0) c = load8 (m_mem m) c) as He'.
  { intros p c Hp Hc. symmetry. apply (He p); [auto| |done]. by eapply pt_wf_ok. }
  split; [done|]. pose proof (pt_pages_ext _ _ _ _ He') as Hpp. split_and!.
  - destruct Hwf as [Hnd Hok]. split; by rewrite Hpp.
  - intros p. rewrite Hpp. apply Hpg.
  - intros i v Hi. destruct (Hvs i v Hi) as (Hl & Hrest). split; [|done].
    rewrite <- Hl. by apply lookup_pte_ext.
Qed.

Lemma copy_perm_leaf D old vs m i : parent_ok D old vs m -> Z.lor (copy_perm vs i) PTE_V <> PTE_V.
Proof.
  intros (Hwf & _ & Hvs). unfold copy_perm. destruct (vs !! i) as [v|] eqn:Hi; [|done].
  destruct (Hvs i v Hi) as (Hl & Hfl & _).
  destruct (lookup_addr _ _ _ _ Hwf Hl) as (_ & _ & _ & _ & HV). by rewrite flags_V.
Qed.

Lemma memmove_page x pa mm c :
  (~ in_page x c -> load8 (memmove x pa PGSIZE mm) c = load8 mm c) /\
  (in_page x c -> load8 (memmove x pa PGSIZE mm) c = load8 mm (pa + (c - x))).
Proof.
  unfold in_page. rewrite load8_memmove by (unfold PGSIZE; lia). unfold PGSIZE.
  split; intros; [by rewrite bool_decide_eq_false_2 by lia|by rewrite bool_decide_eq_true_2 by lia].
Qed.

Lemma uvmcopy_loop_run D old new sz vs fl0 m0 :
  vm_inv D fl0 new m0 -> parent_ok D old vs (m_mem m0) ->
  sz <= 4096 * Z.of_nat (length vs) < sz + 4096 -> sz <= MAXVA ->
  (forall va, 0 <= va < 4096 * Z.of_nat (length vs) -> pt_lookup (m_mem m0) new va = None) ->
  forall fuel pas fl m i,
  grown D new 0 (copy_perm vs) (copy_cont vs (m_mem m0)) fl0 m0 pas fl m ->
  (length fl0 <= length fl + 3 * length pas)%nat ->
  i = 4096 * Z.of_nat (length pas) -> (length pas <= length vs)%nat ->
  (length vs - length pas <= fuel)%nat ->
  exists r m' pas' fl', uvmcopy_loop (S fuel) old new i sz m = Ok r m' /\
    grown D new 0 (copy_perm vs) (copy_cont vs (m_mem m0)) fl0 m0 pas' fl' m' /\
    (r = 0 /\ length pas' = length vs \/ r = -1 /\ pas' = [] /\ (length fl0 <= 3 * length vs)%nat).
Proof.
  intros Hinv0 Hpar0 Hsz Hmax Hnone. change MAXVA with (2 ^ 38) in Hmax.
  assert (forall pas fl m, (length pas <= length vs)%nat ->
    grown D new 0 (copy_perm vs) (copy_cont vs (m_mem m0)) fl0 m0 pas fl m ->
    exists m', (uvmunmap new 0 (4096 * Z.of_nat (length pas) / PGSIZE) true ;; ret (-1)) m = Ok (-1) m' /\
      grown D new 0 (copy_perm vs) (copy_cont vs (m_mem m0)) fl0 m0 [] (reverse pas ++ fl) m') as Herr.
  { intros pas fl m Hle Hg.
    destruct (grown_undo D new 0 _ _ fl0 m0 ltac:(lia) eq_refl (copy_perm_ok vs) pas fl m Hg) as [_ (m' & Hrun & Hg')];
      [change MAXVA with (2 ^ 38); Z.div_mod_to_equations; lia|
       intros i; by eapply copy_perm_leaf|intros va Hva; apply Hnone; lia|].
    unfold PGSIZE. rewrite (Z.mul_comm 4096), Z.div_mul by lia.
    exists m'. split; [|exact Hg']. by erewrite bind_ok by exact Hrun. }
  induction fuel as [|fuel IH]; intros pas fl m i Hg Hlen Ei Hle Hfuel;
    [|remember (S fuel) as f eqn:Ef]; cbn [uvmcopy_loop];
    (destruct (Z.ltb_spec i sz) as [Hi|Hi]; cbn [negb];
      [|exists 0, m, pas, fl; split_and!; [reflexivity|exact Hg|left; split; [reflexivity|lia]]]).
  { lia. }
  destruct (lookup_lt_is_Some_2 vs (length pas) ltac:(lia)) as [v Hv].
  destruct (parent_frame D new old vs fl0 m0 m) as [HeD Hpar]; [done|done|by destruct Hg as (_ & _ & ? & _)|].
  pose proof Hpar as (Hwf & _ & Hvs). destruct (Hvs _ _ Hv) as (Hl & Hfl & Hpaok & HpaD).
  rewrite <- Ei in Hl. destruct (lookup_addr _ _ _ _ Hwf Hl) as (r & Hr & Hr0 & Hload & HV).
  erewrite bind_ok by (apply walk_leaf; [change MAXVA with (2 ^ 38); lia|exact Hr]).
  apply Z.eqb_neq in Hr0. rewrite Hr0. unfold mload64. mrun. rewrite Hload, HV. cbn [negb].
  destruct fl as [|x fl].
  - erewrite bind_ok by (apply kalloc_empty; [by destruct Hg as ((? & _) & _)|by destruct Hg as ((_ & ? & _) & _)]).
    cbn [Z.eqb]. destruct (Herr pas [] m Hle Hg) as (m' & Hrun & Hg'). rewrite <- Ei in Hrun.
    exists (-1), m', [], (reverse pas ++ []). split_and!; [exact Hrun|exact Hg'|right; split_and!; [reflexivity|reflexivity|cbn [length] in *; lia]].
  - destruct (alloc_filled (pas ++ D) fl new m x (memmove x (PTE2PA v) PGSIZE))
      as (m1 & Hr1 & Hf1 & Hr2 & Hi2 & Hf2 & Hxok & Hl2 & Hp2);
      [by destruct Hg|intros mm c; apply memmove_page|].
    assert (PTE2PA v <> x) as Hne.
    { intros E. destruct Hg as (Hinv & _). apply (vm_inv_data_fresh _ _ _ _ (PTE2PA v) Hinv).
      - rewrite elem_of_app. by right.
      - rewrite E, elem_of_app. right. left. }
    destruct (grown_map D new 0 _ _ fl0 m0 ltac:(lia) eq_refl (copy_perm_ok vs) pas fl m x
        (m1 <| m_mem ::= memmove x (PTE2PA v) PGSIZE |>) Hg) as (r' & m3 & Hr3 & Hres);
      [change MAXVA with (2 ^ 38); lia|apply Hnone; lia|done..| |].
    { intros c Hc. cbn. rewrite (proj2 (memmove_page x (PTE2PA v) (m_mem m1) c) Hc).
      unfold copy_cont. rewrite Hv. cbn. unfold in_page in Hc.
      assert (in_page (PTE2PA v) (PTE2PA v + (c - x))) as Hin by (unfold in_page; lia).
      rewrite (frame_page [x] m m1 (PTE2PA v) _ Hf1); [by apply (HeD (PTE2PA v))|by apply Forall_singleton|done| |done].
      by intros ?%list_elem_of_singleton. }
    replace (copy_perm vs (length pas)) with (PTE_FLAGS v) in Hr3 by (unfold copy_perm; by rewrite Hv).
    replace (0 + 4096 * Z.of_nat (length pas)) with i in Hr3 by lia.
    erewrite bind_ok by exact Hr1. apply page_ok_nonzero, Z.eqb_neq in Hxok. rewrite Hxok.
    erewrite bind_ok by exact Hr2. erewrite bind_ok by exact Hr3. case_decide as E.
    + rewrite E. cbn [Z.eqb negb]. destruct Hres as (fl3 & Hg3 & Hlen3). rewrite u64_small by (unfold PGSIZE; lia).
      apply (IH (pas ++ [x]) fl3 m3 (i + PGSIZE) Hg3); rewrite ?length_app; cbn [length] in *; unfold PGSIZE; lia.
    + apply Z.eqb_neq in E. rewrite E. cbn [negb]. destruct Hres as (m4 & Hr4 & Hg4 & Hlen4).
      erewrite bind_ok by exact Hr4. destruct (Herr pas [x] m4 Hle Hg4) as (m' & Hrun & Hg'). rewrite <- Ei in Hrun.
      exists (-1), m', [], (reverse pas ++ [x]). split_and!; [exact Hrun|exact Hg'|right; split_and!; [reflexivity|reflexivity|cbn [length] in *; lia]].
Qed.

(** C11: copying an address space for [fork]: with the parent's pages
    [0, sz) mapped by [vs] and nothing mapped there in the child, [uvmcopy]
    either returns 0 and the child maps, at the same addresses and with the
    same permission bits, distinct fresh pages with the parent's contents;
    or returns -1 with the child's mappings as before and no page lost, which
    needs a free list of at most three pages per page to copy. The
    parent's table and pages are unchanged in both cases. *)
Theorem uvmcopy_spec D old new sz vs fl m :
  vm_inv D fl new m -> parent_ok D old vs (m_mem m) ->
  0 <= sz <= MAXVA -> PGROUNDUP sz = 4096 * Z.of_nat (length vs) ->
  (forall va, 0 <= va < PGROUNDUP sz -> pt_lookup (m_mem m) new va = None) ->
  exists r m' pas fl', uvmcopy old new sz m = Ok r m' /\
    grown D new 0 (copy_perm vs) (copy_cont vs (m_mem m)) fl m pas fl' m' /\
    parent_ok D old vs (m_mem m') /\
    (forall p c, p ∈ D -> page_ok p -> in_page p c -> load8 (m_mem m') c = load8 (m_mem m) c) /\
    (r = 0 /\ length pas = length vs \/ r = -1 /\ pas = [] /\ (length fl <= 3 * length vs)%nat).
Proof.
  intros Hinv Hpar Hsz Hlen Hnone. change MAXVA with (2 ^ 38) in Hsz.
  pose proof (PGROUNDUP_eq sz ltac:(lia)) as Eup.
  assert (sz <= 4096 * Z.of_nat (length vs) < sz + 4096) as Hb
    by (rewrite <- Hlen, Eup; Z.div_mod_to_equations; lia).
  destruct (uvmcopy_loop_run D old new sz vs fl m Hinv Hpar) with
    (fuel := S (Z.to_nat (sz / PGSIZE))) (pas := @nil Z) (fl := fl) (m := m) (i := 0)
    as (r & m' & pas & fl' & Hrun & Hg & Hr); [done|change MAXVA with (2 ^ 38); lia|
      by rewrite <- Hlen|by apply grown_nil|cbn; lia|done|cbn; lia|cbn [length]|].
  { unfold PGSIZE. Z.div_mod_to_equations. lia. }
  destruct (parent_frame D new old vs fl m m') as [HeD Hpar']; [done|done|by destruct Hg as (_ & _ & ? & _)|].
  exists r, m', pas, fl'. split_and!; done.
Qed.

End alloc.
