(* ===== verification/Kernel.v ===== *)
(** * The kernel's global state

    The static variables of the C files, in one record: the machine of
    [Machine.v] and, per component, the tables of [kernel/proc.h],
    [kernel/buf.h], [kernel/log.c], [kernel/fs.h], [kernel/file.h],
    [kernel/pipe.c], [kernel/console.c], [kernel/uart.c],
    [kernel/virtio_disk.c] and [kernel/printf.c]. A C pointer into one of the
    static tables is the index of the entry; a pointer to a [struct pipe] is
    the address of its page. *)

From S2P Require Import Prelude Riscv Machine Spinlock PhysMem Kalloc.

(** ** Devices

    Memory-mapped device registers (UART, PLIC, virtio disk) are hardware:
    their state and the effect of a load or store on it are parameters. *)
Class Platform := {
  device : Type;
  mmio_read : Z -> device -> Z * device;
  mmio_write : Z -> Z -> device -> device
}.

(** ** Processes *)

Inductive procstate := UNUSED | USED | SLEEPING | RUNNABLE | RUNNING | ZOMBIE.

#[export] Instance procstate_eq_dec : EqDecision procstate.
Proof. solve_decision. Defined.

(** What a process can sleep on: C uses the address of some object. *)
Inductive chan :=
| ch_proc (i : nat)          (* a [struct proc], in [wait] *)
| ch_ticks                   (* [&ticks] *)
| ch_log                     (* [&log] *)
| ch_sleeplock_buf (i : nat) (* [&b->lock] *)
| ch_sleeplock_inode (i : nat) (* [&ip->lock] *)
| ch_nread (pi : Z)          (* [&pi->nread] *)
| ch_nwrite (pi : Z)         (* [&pi->nwrite] *)
| ch_cons_r                  (* [&cons.r] *)
| ch_uart_tx_r               (* [&uart_tx_r] *)
| ch_disk_free               (* [&disk.free[0]] *)
| ch_buf (i : nat).          (* a [struct buf], in the disk driver *)

#[export] Instance chan_eq_dec : EqDecision chan.
Proof. solve_decision. Defined.

(** [struct proc], without its lock, which is [proc_lock i]. *)
Record proc := mkproc {
  p_state : procstate;
  p_chan : option chan;
  p_killed : Z;
  p_xstate : Z;
  p_pid : Z;
  p_parent : option nat;
  p_kstack : Z;
  p_sz : Z;
  p_pagetable : Z;
  p_trapframe : Z;
  p_usyscall : Z;
  p_context : context;
  p_ofile : list (option nat);
  p_cwd : option nat;
  p_name : list Z }.

#[export] Instance eta_proc : Eta proc := fun p =>
  mkproc (p_state p) (p_chan p) (p_killed p) (p_xstate p) (p_pid p) (p_parent p) (p_kstack p)
    (p_sz p) (p_pagetable p) (p_trapframe p) (p_usyscall p) (p_context p) (p_ofile p) (p_cwd p)
    (p_name p).

(** ** Sleep locks *)

(** The sleep locks, by the object that embeds them. *)
Inductive slockid := buf_sleeplock (i : nat) | inode_sleeplock (i : nat).

#[export] Instance slockid_eq_dec : EqDecision slockid.
Proof. solve_decision. Defined.

#[export] Instance slockid_countable : Countable slockid.
Proof.
  apply (inj_countable' (fun l => match l with buf_sleeplock i => inl i | inode_sleeplock i => inr i end)
    (fun c => match c with inl i => buf_sleeplock i | inr i => inode_sleeplock i end)).
  by intros [].
Defined.

(** [struct sleeplock], without the spin lock [lk]. *)
Record sleeplock := mksleeplock { sl_locked : Z; sl_name : string; sl_pid : Z }.

#[export] Instance eta_sleeplock : Eta sleeplock := fun l =>
  mksleeplock (sl_locked l) (sl_name l) (sl_pid l).

(** ** Buffers, log, inodes and files *)

(** [struct buf]; [prev] and [next] are indices into [bcache.buf], and
    [NBUF] stands for [&bcache.head]. *)
Record buf := mkbuf {
  b_valid : Z;
  b_disk : Z;
  b_dev : Z;
  b_blockno : Z;
  b_refcnt : Z;
  b_prev : nat;
  b_next : nat;
  b_data : list Z }.

#[export] Instance eta_buf : Eta buf := fun b =>
  mkbuf (b_valid b) (b_disk b) (b_dev b) (b_blockno b) (b_refcnt b) (b_prev b) (b_next b) (b_data b).

(** [struct log] with its [struct logheader]; [lh_block] has [LOGSIZE]
    entries. *)
Record log := mklog {
  l_start : Z;
  l_size : Z;
  l_outstanding : Z;
  l_committing : Z;
  l_dev : Z;
  lh_n : Z;
  lh_block : list Z }.

#[export] Instance eta_log : Eta log := fun l =>
  mklog (l_start l) (l_size l) (l_outstanding l) (l_committing l) (l_dev l) (lh_n l) (lh_block l).

Record superblock := mksuperblock {
  sb_magic : Z;
  sb_size : Z;
  sb_nblocks : Z;
  sb_ninodes : Z;
  sb_nlog : Z;
  sb_logstart : Z;
  sb_inodestart : Z;
  sb_bmapstart : Z }.

(** [struct inode] *)
Record inode := mkinode {
  i_dev : Z;
  i_inum : Z;
  i_ref : Z;
  i_valid : Z;
  i_type : Z;
  i_major : Z;
  i_minor : Z;
  i_nlink : Z;
  i_size : Z;
  i_addrs : list Z }.

#[export] Instance eta_inode : Eta inode := fun i =>
  mkinode (i_dev i) (i_inum i) (i_ref i) (i_valid i) (i_type i) (i_major i) (i_minor i)
    (i_nlink i) (i_size i) (i_addrs i).

Inductive filetype := FD_NONE | FD_PIPE | FD_INODE | FD_DEVICE.

#[export] Instance filetype_eq_dec : EqDecision filetype.
Proof. solve_decision. Defined.

Record file := mkfile {
  f_type : filetype;
  f_ref : Z;
  f_readable : Z;
  f_writable : Z;
  f_pipe : Z;
  f_ip : option nat;
  f_off : Z;
  f_major : Z }.

#[export] Instance eta_file : Eta file := fun f =>
  mkfile (f_type f) (f_ref f) (f_readable f) (f_writable f) (f_pipe f) (f_ip f) (f_off f) (f_major f).

(** The device functions a [struct devsw] entry can hold. *)
Inductive devfns := console_device.

Record pipe := mkpipe {
  pi_data : list Z;
  pi_nread : Z;
  pi_nwrite : Z;
  pi_readopen : Z;
  pi_writeopen : Z }.

#[export] Instance eta_pipe : Eta pipe := fun p =>
  mkpipe (pi_data p) (pi_nread p) (pi_nwrite p) (pi_readopen p) (pi_writeopen p).

(** ** Console and UART *)

Record consbuf := mkcons { cons_buf : list Z; cons_r : Z; cons_w : Z; cons_e : Z }.

#[export] Instance eta_consbuf : Eta consbuf := fun c =>
  mkcons (cons_buf c) (cons_r c) (cons_w c) (cons_e c).

Record uartbuf := mkuart { uart_tx_buf : list Z; uart_tx_w : Z; uart_tx_r : Z }.

#[export] Instance eta_uartbuf : Eta uartbuf := fun u =>
  mkuart (uart_tx_buf u) (uart_tx_w u) (uart_tx_r u).

(** ** The disk driver *)

(** [struct virtio_blk_req] *)
Record virtio_blk_req := mkreq { vr_type : Z; vr_reserved : Z; vr_sector : Z }.

(** [struct disk] of [kernel/virtio_disk.c] without its lock: the addresses
    of the three queue pages, the free flags, and per descriptor the buffer
    and status of [info] and the request header of [ops]. *)
Record disk := mkdisk {
  d_desc : Z;
  d_avail : Z;
  d_used : Z;
  d_free : list Z;
  d_used_idx : Z;
  d_info_b : list (option nat);
  d_info_status : list Z;
  d_ops : list virtio_blk_req }.

#[export] Instance eta_disk : Eta disk := fun d =>
  mkdisk (d_desc d) (d_avail d) (d_used d) (d_free d) (d_used_idx d) (d_info_b d)
    (d_info_status d) (d_ops d).

(** ** The kernel *)

Record kernel `{Platform} := mkkernel {
  k_m : machine;
  k_kernel_pagetable : Z;
  k_proc : list proc;
  k_initproc : option nat;
  k_nextpid : Z;
  k_first : Z;                  (* [first] of [forkret] *)
  k_ticks : Z;
  k_sleeplocks : gmap slockid sleeplock;
  k_bcache : list buf;          (* [bcache.buf], then [bcache.head] *)
  k_log : log;
  k_sb : superblock;
  k_itable : list inode;
  k_ftable : list file;
  k_devsw : list (option devfns);
  k_pipes : gmap Z pipe;
  k_cons : consbuf;
  k_uart : uartbuf;
  k_pr_locking : Z;
  k_panicked : Z;
  k_disk : disk;
  k_device : device }.

#[export] Instance eta_kernel `{Platform} : Eta kernel := fun k =>
  mkkernel _ (k_m k) (k_kernel_pagetable k) (k_proc k) (k_initproc k) (k_nextpid k) (k_first k)
    (k_ticks k) (k_sleeplocks k) (k_bcache k) (k_log k) (k_sb k) (k_itable k) (k_ftable k)
    (k_devsw k) (k_pipes k) (k_cons k) (k_uart k) (k_pr_locking k) (k_panicked k)
    (k_disk k) (k_device k).

Section kernel.
Context `{Platform}.

(** An operation of the machine layer, run in the kernel. *)
Definition mach {A} (op : M machine A) : M kernel A :=
  zoom k_m (fun m k => k <| k_m := m |>) op.

(** Entry [i] of a static table; C code never leaves the tables, an index
    outside is undefined behaviour. *)
Definition entry_of {A} (tbl : kernel -> list A) (i : nat) : M kernel A := fun k =>
  match tbl k !! i with Some x => Ok x k | None => Undef "table index" k end.

Definition get_proc (i : nat) : M kernel proc := entry_of k_proc i.

Definition set_proc (i : nat) (f : proc -> proc) : M kernel unit :=
  modify (fun k => k <| k_proc ::= fun l => alter f i l |>).

Definition get_buf (i : nat) : M kernel buf := entry_of k_bcache i.

Definition set_buf (i : nat) (f : buf -> buf) : M kernel unit :=
  modify (fun k => k <| k_bcache ::= fun l => alter f i l |>).

Definition get_inode (i : nat) : M kernel inode := entry_of k_itable i.

Definition set_inode (i : nat) (f : inode -> inode) : M kernel unit :=
  modify (fun k => k <| k_itable ::= fun l => alter f i l |>).

Definition get_file (i : nat) : M kernel file := entry_of k_ftable i.

Definition set_file (i : nat) (f : file -> file) : M kernel unit :=
  modify (fun k => k <| k_ftable ::= fun l => alter f i l |>).

(** A [struct pipe] at address [pi]. *)
Definition get_pipe (pi : Z) : M kernel pipe := fun k =>
  match k_pipes k !! pi with Some x => Ok x k | None => Undef "pipe pointer" k end.

Definition set_pipe (pi : Z) (f : pipe -> pipe) : M kernel unit :=
  modify (fun k => k <| k_pipes ::= fun t => alter f pi t |>).

(** A pointer the code dereferences without a null check. *)
Definition deref {A} (p : option A) : M kernel A :=
  match p with Some x => ret x | None => undef "null pointer" end.

(** Device registers. *)
Definition reg_read (a : Z) : M kernel Z := fun k =>
  let '(v, d) := mmio_read a (k_device k) in Ok v (k <| k_device := d |>).

Definition reg_write (a v : Z) : M kernel unit :=
  modify (fun k => k <| k_device ::= mmio_write a v |>).

End kernel.
