(* ===== verification/Sched.v ===== *)
(** * Context switching, sleep and wakeup ([kernel/proc.c])

    [swtch] saves the running thread's registers and loads another thread's;
    in the model the saved context of a thread is the continuation in its
    [Switch] outcome. *)

From S2P Require Import Prelude Riscv Machine Spinlock PhysMem Kalloc Vm Kernel.

Section sched.
Context `{Linker} `{Platform}.

(** All indices of the process table. *)
Definition procs : list nat := seq 0 (Z.to_nat NPROC).

(** [myproc()] dereferenced. *)
Definition curproc : M kernel nat := p <- mach myproc ;; deref p.

Definition sched : M kernel unit :=
  p <- curproc ;;
  held <- mach (holding (proc_lock p)) ;;
  if negb held then panic "sched p->lock" else
  id <- mach mycpu ;;
  c <- mach (get_cpu id) ;;
  if negb (c_noff c =? 1) then panic "sched locks" else
  pr <- get_proc p ;;
  if decide (p_state pr = RUNNING) then panic "sched running" else
  h <- mach get_hart ;;
  if intr_get h then panic "sched interruptible" else
  id <- mach mycpu ;;
  c <- mach (get_cpu id) ;;
  let intena := c_intena c in
  switch ;;
  id <- mach mycpu ;;
  c <- mach (get_cpu id) ;;
  mach (set_cpu id (c <| c_intena := intena |>)).

Definition yield : M kernel unit :=
  p <- curproc ;;
  mach (acquire (proc_lock p)) ;;
  set_proc p (fun q => q <| p_state := RUNNABLE |>) ;;
  sched ;;
  mach (release (proc_lock p)).

Definition sleep (ch : chan) (lk : lockid) : M kernel unit :=
  p <- curproc ;;
  mach (acquire (proc_lock p)) ;;
  mach (release lk) ;;
  set_proc p (fun q => q <| p_chan := Some ch |> <| p_state := SLEEPING |>) ;;
  sched ;;
  set_proc p (fun q => q <| p_chan := None |>) ;;
  mach (release (proc_lock p)) ;;
  mach (acquire lk).

(** The body of the loop of [wakeup]; [ch] is [None] for a null channel. *)
Definition wakeup_one (ch : option chan) (i : nat) : M kernel unit :=
  me <- mach myproc ;;
  if decide (me = Some i) then ret tt else
  mach (acquire (proc_lock i)) ;;
  p <- get_proc i ;;
  when (bool_decide (p_state p = SLEEPING) && bool_decide (p_chan p = ch))
    (set_proc i (fun q => q <| p_state := RUNNABLE |>)) ;;
  mach (release (proc_lock i)).

Definition wakeup (ch : option chan) : M kernel unit := for_each procs (wakeup_one ch).

Definition kill_one (pid : Z) (i : nat) : M kernel (option Z) :=
  mach (acquire (proc_lock i)) ;;
  p <- get_proc i ;;
  if p_pid p =? pid then
    set_proc i (fun q => q <| p_killed := 1 |>) ;;
    p <- get_proc i ;;
    when (bool_decide (p_state p = SLEEPING))
      (set_proc i (fun q => q <| p_state := RUNNABLE |>)) ;;
    mach (release (proc_lock i)) ;;
    ret (Some 0)
  else
    mach (release (proc_lock i)) ;;
    ret None.

Definition kill (pid : Z) : M kernel Z :=
  r <- scan procs (kill_one pid) ;;
  ret (default (-1) r).

Definition setkilled (i : nat) : M kernel unit :=
  mach (acquire (proc_lock i)) ;;
  set_proc i (fun q => q <| p_killed := 1 |>) ;;
  mach (release (proc_lock i)).

Definition killed (i : nat) : M kernel Z :=
  mach (acquire (proc_lock i)) ;;
  p <- get_proc i ;;
  mach (release (proc_lock i)) ;;
  ret (p_killed p).

(** One round of the loop of [scheduler] on CPU [id] at process [i];
    [switch] runs the process until it switches back. *)
Definition scheduler_one (id : Z) (i : nat) : M kernel unit :=
  mach (acquire (proc_lock i)) ;;
  p <- get_proc i ;;
  when (bool_decide (p_state p = RUNNABLE))
    (set_proc i (fun q => q <| p_state := RUNNING |>) ;;
     c <- mach (get_cpu id) ;;
     mach (set_cpu id (c <| c_proc := Some i |>)) ;;
     switch ;;
     c <- mach (get_cpu id) ;;
     mach (set_cpu id (c <| c_proc := None |>))) ;;
  mach (release (proc_lock i)).

(** [n] passes over the process table. *)
Fixpoint scheduler_loop (n : nat) (id : Z) : M kernel unit :=
  match n with
  | O => nofuel
  | S n' =>
      mach (set_hart intr_on) ;;
      for_each procs (scheduler_one id) ;;
      scheduler_loop n' id
  end.

Definition scheduler (n : nat) : M kernel unit :=
  id <- mach mycpu ;;
  c <- mach (get_cpu id) ;;
  mach (set_cpu id (c <| c_proc := None |>)) ;;
  scheduler_loop n id.

(** ** Copies to and from "either" a user or a kernel address

    A kernel address is physical memory, or a local object of the caller:
    then the bytes are passed by value. *)

Inductive kdst := UserDst (va : Z) | PhysDst (pa : Z) | LocalDst.

Inductive ksrc := UserSrc (va : Z) | LocalSrc (bytes : list Z).

Definition either_copyout (dst : kdst) (src : list Z) : M kernel Z :=
  p <- mach myproc ;;
  match dst with
  | UserDst va => i <- deref p ;; pr <- get_proc i ;; mach (copyout (p_pagetable pr) va src)
  | PhysDst pa => mach (mem_op (write_bytes pa src)) ;; ret 0
  | LocalDst => ret 0
  end.

(** The result and the bytes stored at the destination. *)
Definition either_copyin (src : ksrc) (len : Z) : M kernel (Z * list Z) :=
  p <- mach myproc ;;
  match src with
  | UserSrc va => i <- deref p ;; pr <- get_proc i ;; mach (copyin (p_pagetable pr) va len)
  | LocalSrc bytes => ret (0, take (Z.to_nat len) bytes)
  end.

(** Address arithmetic on the two kinds of pointers. *)
Definition dst_add (d : kdst) (n : Z) : kdst :=
  match d with UserDst va => UserDst (u64 (va + n)) | PhysDst pa => PhysDst (pa + n) | LocalDst => LocalDst end.

Definition src_add (s : ksrc) (n : Z) : ksrc :=
  match s with
  | UserSrc va => UserSrc (u64 (va + n))
  | LocalSrc bytes => LocalSrc (drop (Z.to_nat n) bytes)
  end.

End sched.
