(* ===== verification/Sleeplock.v ===== *)
(** * Sleep locks ([kernel/sleeplock.c]) *)

From S2P Require Import Prelude Riscv Machine Spinlock PhysMem Kalloc Vm Kernel Sched.

Section sleeplock.
Context `{Linker} `{Platform} `{Fuel}.

(** The spin lock [lk->lk] of a sleep lock, and its address as a channel. *)
Definition slock_spin (l : slockid) : lockid :=
  match l with buf_sleeplock i => buf_lk i | inode_sleeplock i => inode_lk i end.

Definition slock_chan (l : slockid) : chan :=
  match l with buf_sleeplock i => ch_sleeplock_buf i | inode_sleeplock i => ch_sleeplock_inode i end.

Definition zero_sleeplock : sleeplock := mksleeplock 0 "" 0.

Definition get_slock (l : slockid) : M kernel sleeplock :=
  gets (fun k => default zero_sleeplock (k_sleeplocks k !! l)).

Definition set_slock (l : slockid) (s : sleeplock) : M kernel unit :=
  modify (fun k => k <| k_sleeplocks ::= fun t => <[l := s]> t |>).

Definition initsleeplock (l : slockid) (name : string) : M kernel unit :=
  mach (initlock (slock_spin l) "sleep lock") ;;
  set_slock l (mksleeplock 0 name 0).

Fixpoint acquiresleep_wait (fuel : nat) (l : slockid) : M kernel unit :=
  match fuel with
  | O => nofuel
  | S fuel' =>
      s <- get_slock l ;;
      if ctrue (sl_locked s) then
        sleep (slock_chan l) (slock_spin l) ;;
        acquiresleep_wait fuel' l
      else ret tt
  end.

Definition acquiresleep (l : slockid) : M kernel unit :=
  mach (acquire (slock_spin l)) ;;
  acquiresleep_wait wait_fuel l ;;
  s <- get_slock l ;;
  set_slock l (s <| sl_locked := 1 |>) ;;
  i <- curproc ;;
  p <- get_proc i ;;
  s <- get_slock l ;;
  set_slock l (s <| sl_pid := p_pid p |>) ;;
  mach (release (slock_spin l)).

Definition releasesleep (l : slockid) : M kernel unit :=
  mach (acquire (slock_spin l)) ;;
  s <- get_slock l ;;
  set_slock l (s <| sl_locked := 0 |> <| sl_pid := 0 |>) ;;
  wakeup (Some (slock_chan l)) ;;
  mach (release (slock_spin l)).

Definition holdingsleep (l : slockid) : M kernel bool :=
  mach (acquire (slock_spin l)) ;;
  s <- get_slock l ;;
  r <- (if ctrue (sl_locked s) then
          i <- curproc ;; p <- get_proc i ;; ret (sl_pid s =? p_pid p)
        else ret false) ;;
  mach (release (slock_spin l)) ;;
  ret r.

End sleeplock.
