(* ===== verification/Bio.v ===== *)
(** * The buffer cache ([kernel/bio.c])

    The disk driver is an interface here ([DiskDriver]): [virtio_disk_rw]
    transfers one block between a buffer and the disk. *)

From S2P Require Import Prelude Riscv Machine Spinlock PhysMem Kalloc Vm Kernel Sched Sleeplock.

Definition BSIZE : Z := 1024.

(** What the rest of the kernel uses of [kernel/virtio_disk.c]. *)
Class DiskDriver `{Platform} := {
  virtio_disk_init : M kernel unit;
  virtio_disk_rw : nat -> bool -> M kernel unit;
  virtio_disk_intr : M kernel unit
}.

Section bio.
Context `{Linker} `{Platform} `{Fuel} `{!DiskDriver}.

(** The index that stands for [&bcache.head]. *)
Definition HEAD : nat := Z.to_nat NBUF.

Definition bufs : list nat := seq 0 HEAD.

Definition binit_one (b : nat) : M kernel unit :=
  h <- get_buf HEAD ;;
  set_buf b (fun x => x <| b_next := b_next h |> <| b_prev := HEAD |>) ;;
  initsleeplock (buf_sleeplock b) "buffer" ;;
  set_buf (b_next h) (fun x => x <| b_prev := b |>) ;;
  set_buf HEAD (fun x => x <| b_next := b |>).

Definition binit : M kernel unit :=
  mach (initlock bcache_lock "bcache") ;;
  set_buf HEAD (fun x => x <| b_prev := HEAD |> <| b_next := HEAD |>) ;;
  for_each bufs binit_one.

(** The two searches of [bget]: along [next] for the block, along [prev] for
    an unused buffer. The list has [NBUF] buffers. *)
Fixpoint bget_find (fuel : nat) (b : nat) (dev blockno : Z) : M kernel (option nat) :=
  match fuel with
  | O => nofuel
  | S fuel' =>
      if decide (b = HEAD) then ret None else
      x <- get_buf b ;;
      if (b_dev x =? dev) && (b_blockno x =? blockno) then ret (Some b)
      else bget_find fuel' (b_next x) dev blockno
  end.

Fixpoint bget_recycle (fuel : nat) (b : nat) : M kernel (option nat) :=
  match fuel with
  | O => nofuel
  | S fuel' =>
      if decide (b = HEAD) then ret None else
      x <- get_buf b ;;
      if b_refcnt x =? 0 then ret (Some b)
      else bget_recycle fuel' (b_prev x)
  end.

Definition bget (dev blockno : Z) : M kernel nat :=
  mach (acquire bcache_lock) ;;
  h <- get_buf HEAD ;;
  found <- bget_find (S HEAD) (b_next h) dev blockno ;;
  match found with
  | Some b =>
      set_buf b (fun x => x <| b_refcnt ::= fun n => u32 (n + 1) |>) ;;
      mach (release bcache_lock) ;;
      acquiresleep (buf_sleeplock b) ;;
      ret b
  | None =>
      free <- bget_recycle (S HEAD) (b_prev h) ;;
      match free with
      | Some b =>
          set_buf b (fun x => x <| b_dev := dev |> <| b_blockno := blockno |>
                               <| b_valid := 0 |> <| b_refcnt := 1 |>) ;;
          mach (release bcache_lock) ;;
          acquiresleep (buf_sleeplock b) ;;
          ret b
      | None => panic "bget: no buffers"
      end
  end.

Definition bread (dev blockno : Z) : M kernel nat :=
  b <- bget dev blockno ;;
  x <- get_buf b ;;
  when (negb (ctrue (b_valid x)))
    (virtio_disk_rw b false ;;
     set_buf b (fun x => x <| b_valid := 1 |>)) ;;
  ret b.

Definition bwrite (b : nat) : M kernel unit :=
  held <- holdingsleep (buf_sleeplock b) ;;
  if negb held then panic "bwrite" else
  virtio_disk_rw b true.

Definition brelse (b : nat) : M kernel unit :=
  held <- holdingsleep (buf_sleeplock b) ;;
  if negb held then panic "brelse" else
  releasesleep (buf_sleeplock b) ;;
  mach (acquire bcache_lock) ;;
  set_buf b (fun x => x <| b_refcnt ::= fun n => u32 (n - 1) |>) ;;
  x <- get_buf b ;;
  when (b_refcnt x =? 0)
    (x <- get_buf b ;;
     set_buf (b_next x) (fun y => y <| b_prev := b_prev x |>) ;;
     x <- get_buf b ;;
     set_buf (b_prev x) (fun y => y <| b_next := b_next x |>) ;;
     h <- get_buf HEAD ;;
     set_buf b (fun y => y <| b_next := b_next h |> <| b_prev := HEAD |>) ;;
     h <- get_buf HEAD ;;
     set_buf (b_next h) (fun y => y <| b_prev := b |>) ;;
     set_buf HEAD (fun y => y <| b_next := b |>)) ;;
  mach (release bcache_lock).

Definition bpin (b : nat) : M kernel unit :=
  mach (acquire bcache_lock) ;;
  set_buf b (fun x => x <| b_refcnt ::= fun n => u32 (n + 1) |>) ;;
  mach (release bcache_lock).

Definition bunpin (b : nat) : M kernel unit :=
  mach (acquire bcache_lock) ;;
  set_buf b (fun x => x <| b_refcnt ::= fun n => u32 (n - 1) |>) ;;
  mach (release bcache_lock).

End bio.
