(* ===== verification/Bytes.v ===== *)
(** * Little-endian integers in byte arrays

    C code casts byte buffers ([b->data], a page of memory) to structures.
    A structure field is read and written with [get_le] and [set_le] at its
    offset; the offsets are those of the RISC-V ABI. *)

From S2P Require Import Prelude.

(** The unsigned [n]-byte integer at offset [off]; bytes outside the array
    do not occur in the code and read as 0. *)
Fixpoint get_le (n : nat) (data : list Z) (off : nat) : Z :=
  match n with
  | O => 0
  | S n' => u8 (default 0 (data !! off)) + 256 * get_le n' data (S off)
  end.

Fixpoint set_le (n : nat) (data : list Z) (off : nat) (v : Z) : list Z :=
  match n with
  | O => data
  | S n' => set_le n' (<[off := u8 v]> data) (S off) (v / 256)
  end.

Definition get16 (data : list Z) (off : Z) : Z := get_le 2 data (Z.to_nat off).

Definition get32 (data : list Z) (off : Z) : Z := get_le 4 data (Z.to_nat off).

Definition get64 (data : list Z) (off : Z) : Z := get_le 8 data (Z.to_nat off).

Definition set16 (data : list Z) (off v : Z) : list Z := set_le 2 data (Z.to_nat off) v.

Definition set32 (data : list Z) (off v : Z) : list Z := set_le 4 data (Z.to_nat off) v.

(** Copying [bs] over the array at offset [off] ([memmove] into a buffer). *)
Definition splice (data : list Z) (off : Z) (bs : list Z) : list Z :=
  take (Z.to_nat off) data ++ bs ++ drop (Z.to_nat off + length bs) data.

(** [n] bytes from offset [off]. *)
Definition slice (data : list Z) (off n : Z) : list Z :=
  take (Z.to_nat n) (drop (Z.to_nat off) data).

(** ** Lemmas *)

Lemma length_set_le n data off v : length (set_le n data off v) = length data.
Proof. revert data off v. induction n; intros; cbn; [done|]. by rewrite IHn, length_insert. Qed.

Lemma set_le_bytes n data off v :
  Forall (fun b => 0 <= b < 256) data -> Forall (fun b => 0 <= b < 256) (set_le n data off v).
Proof.
  revert data off v. induction n as [|n IH]; intros data off v Hd; [done|]. cbn [set_le].
  apply IH, Forall_insert; [done|apply u8_range].
Qed.

Lemma lookup_set_le_out n data off v j :
  (j < off \/ off + n <= j)%nat -> set_le n data off v !! j = data !! j.
Proof.
  revert data off v. induction n as [|n IH]; intros data off v Hj; cbn; [done|].
  rewrite IH by lia. by rewrite list_lookup_insert_ne by lia.
Qed.

Lemma get_le_ext n data data' off :
  (forall j, (off <= j < off + n)%nat -> data !! j = data' !! j) -> get_le n data off = get_le n data' off.
Proof.
  revert off. induction n as [|n IH]; intros off Hj; cbn; [done|].
  rewrite (Hj off) by lia. f_equal. f_equal. apply IH. intros j Hj'. apply Hj. lia.
Qed.

Lemma get_set_le n data off v :
  (off + n <= length data)%nat -> get_le n (set_le n data off v) off = v mod 256 ^ Z.of_nat n.
Proof.
  revert data off v. induction n as [|n IH]; intros data off v Hlen; cbn [get_le set_le].
  { cbn. by rewrite Z.mod_1_r. }
  rewrite lookup_set_le_out by lia. rewrite list_lookup_insert_eq by lia. cbn [from_option id].
  rewrite IH by (rewrite length_insert; lia).
  replace (u8 (u8 v)) with (u8 v) by (unfold u8; by rewrite Zmod_mod).
  rewrite Nat2Z.inj_succ, Z.pow_succ_r by lia.
  rewrite (Z.rem_mul_r v 256) by lia. done.
Qed.

Lemma get_set_le_out k n data off off' v :
  (off' + k <= off \/ off + n <= off')%nat -> get_le k (set_le n data off v) off' = get_le k data off'.
Proof. intros H. apply get_le_ext. intros j Hj. apply lookup_set_le_out. lia. Qed.

Lemma get_le_range n data off : 0 <= get_le n data off < 256 ^ Z.of_nat n.
Proof.
  revert off. induction n as [|n IH]; intros off; cbn [get_le]; [done|].
  rewrite Nat2Z.inj_succ, Z.pow_succ_r by lia. specialize (IH (S off)).
  pose proof (u8_range (default 0 (data !! off))). lia.
Qed.

Lemma get32_set32 data off v :
  0 <= off -> (Z.to_nat off + 4 <= length data)%nat -> get32 (set32 data off v) off = u32 v.
Proof. intros _ H. by apply get_set_le. Qed.

Lemma get32_set32_out data off off' v :
  0 <= off -> 0 <= off' -> off' + 4 <= off \/ off + 4 <= off' ->
  get32 (set32 data off v) off' = get32 data off'.
Proof. intros. apply get_set_le_out. lia. Qed.

Lemma length_set32 data off v : length (set32 data off v) = length data.
Proof. apply length_set_le. Qed.

Lemma length_splice data off bs :
  0 <= off -> (Z.to_nat off + length bs <= length data)%nat -> length (splice data off bs) = length data.
Proof. intros H0 H. unfold splice. rewrite !length_app, length_take, length_drop. lia. Qed.

Lemma lookup_splice data off bs j :
  0 <= off -> (Z.to_nat off + length bs <= length data)%nat ->
  splice data off bs !! j =
    if decide (Z.to_nat off <= j < Z.to_nat off + length bs)%nat then bs !! (j - Z.to_nat off)%nat
    else data !! j.
Proof.
  intros H0 H. unfold splice. destruct (decide (j < Z.to_nat off)%nat).
  - rewrite lookup_app_l by (rewrite length_take; lia). rewrite lookup_take_lt by done.
    by rewrite decide_False by lia.
  - rewrite lookup_app_r by (rewrite length_take; lia).
    rewrite length_take_le by lia. case_decide as E.
    + by rewrite lookup_app_l by lia.
    + rewrite lookup_app_r by lia. rewrite lookup_drop. f_equal. lia.
Qed.

Lemma lookup_slice data off n j :
  0 <= off -> slice data off n !! j = if decide (j < Z.to_nat n)%nat then data !! (Z.to_nat off + j)%nat else None.
Proof.
  intros H. unfold slice. case_decide.
  - by rewrite lookup_take_lt, lookup_drop by done.
  - by rewrite lookup_take_ge by lia.
Qed.

Lemma slice_splice data off bs :
  0 <= off -> (Z.to_nat off + length bs <= length data)%nat ->
  slice (splice data off bs) off (Z.of_nat (length bs)) = bs.
Proof.
  intros H0 H. apply list_eq. intros j. rewrite lookup_slice by done.
  case_decide as E.
  - rewrite lookup_splice, decide_True by lia. f_equal. lia.
  - symmetry. apply lookup_ge_None. lia.
Qed.

#[global] Opaque get_le set_le.
