(* ===== verification/Uart.v ===== *)
(** * The UART driver ([kernel/uart.c])

    [uartintr] is in [Console.v], with the console handler it calls. *)

From S2P Require Import Prelude Riscv Machine Spinlock PhysMem Kalloc Vm Kernel Sched.

(** The control registers. *)
Inductive uart_reg := RHR | THR | IER | FCR | LCR | LSR.

Definition uart_off (r : uart_reg) : Z :=
  match r with RHR => 0 | THR => 0 | IER => 1 | FCR => 2 | LCR => 3 | LSR => 5 end.

(** Bits of the registers. *)
Inductive uart_bit := IER_RX_ENABLE | IER_TX_ENABLE | FCR_FIFO_ENABLE | FCR_FIFO_CLEAR | LCR_EIGHT_BITS | LCR_BAUD_LATCH | LSR_TX_IDLE.

Definition uart_bit_val (b : uart_bit) : Z :=
  match b with
  | IER_RX_ENABLE => Z.shiftl 1 0
  | IER_TX_ENABLE => Z.shiftl 1 1
  | FCR_FIFO_ENABLE => Z.shiftl 1 0
  | FCR_FIFO_CLEAR => Z.shiftl 3 1
  | LCR_EIGHT_BITS => Z.shiftl 3 0
  | LCR_BAUD_LATCH => Z.shiftl 1 7
  | LSR_TX_IDLE => Z.shiftl 1 5
  end.

Coercion uart_bit_val : uart_bit >-> Z.

Definition UART_TX_BUF_SIZE : Z := 32.

Section uart.
Context `{Linker} `{Platform} `{Fuel}.

Definition ReadReg (reg : Z) : M kernel Z := v <- reg_read (UART0 + reg) ;; ret (u8 v).

Definition WriteReg (reg v : Z) : M kernel unit := reg_write (UART0 + reg) (u8 v).

Definition get_uart : M kernel uartbuf := gets k_uart.

Definition set_uart (f : uartbuf -> uartbuf) : M kernel unit := modify (fun k => k <| k_uart ::= f |>).

Definition uartinit : M kernel unit :=
  WriteReg (uart_off IER) 0x00 ;;
  WriteReg (uart_off LCR) LCR_BAUD_LATCH ;;
  WriteReg 0 0x03 ;;
  WriteReg 1 0x00 ;;
  WriteReg (uart_off LCR) LCR_EIGHT_BITS ;;
  WriteReg (uart_off FCR) (Z.lor FCR_FIFO_ENABLE FCR_FIFO_CLEAR) ;;
  WriteReg (uart_off IER) (Z.lor IER_TX_ENABLE IER_RX_ENABLE) ;;
  mach (initlock uart_tx_lock "uart").

(** The loop of [uartstart]: each iteration that does not return takes a
    character out of the buffer, so there are at most [UART_TX_BUF_SIZE]. *)
Fixpoint uartstart_loop (fuel : nat) : M kernel unit :=
  match fuel with
  | O => nofuel
  | S fuel' =>
      u <- get_uart ;;
      if uart_tx_w u =? uart_tx_r u then ret tt else
      lsr <- ReadReg (uart_off LSR) ;;
      if Z.land lsr LSR_TX_IDLE =? 0 then ret tt else
      let c := default 0 (uart_tx_buf u !! Z.to_nat (uart_tx_r u mod UART_TX_BUF_SIZE)) in
      set_uart (fun u => u <| uart_tx_r ::= fun r => u64 (r + 1) |>) ;;
      wakeup (Some ch_uart_tx_r) ;;
      WriteReg (uart_off THR) c ;;
      uartstart_loop fuel'
  end.

Definition uartstart : M kernel unit := uartstart_loop (S (Z.to_nat UART_TX_BUF_SIZE)).

Fixpoint uartputc_wait (fuel : nat) : M kernel unit :=
  match fuel with
  | O => nofuel
  | S fuel' =>
      u <- get_uart ;;
      if uart_tx_w u =? u64 (uart_tx_r u + UART_TX_BUF_SIZE)
      then sleep ch_uart_tx_r uart_tx_lock ;; uartputc_wait fuel'
      else ret tt
  end.

Definition uartputc (c : Z) : M kernel unit :=
  mach (acquire uart_tx_lock) ;;
  p <- gets k_panicked ;;
  if ctrue p then spin else
  uartputc_wait wait_fuel ;;
  set_uart (fun u => u <| uart_tx_buf ::= fun b =>
              <[Z.to_nat (uart_tx_w u mod UART_TX_BUF_SIZE) := u8 c]> b |>) ;;
  set_uart (fun u => u <| uart_tx_w ::= fun w => u64 (w + 1) |>) ;;
  uartstart ;;
  mach (release uart_tx_lock).

(** Polling the line status; only the device ends this loop. *)
Fixpoint wait_tx_idle (fuel : nat) : M kernel unit :=
  match fuel with
  | O => spin
  | S fuel' =>
      lsr <- ReadReg (uart_off LSR) ;;
      if Z.land lsr LSR_TX_IDLE =? 0 then wait_tx_idle fuel' else ret tt
  end.

Definition uartputc_sync (c : Z) : M kernel unit :=
  mach push_off ;;
  p <- gets k_panicked ;;
  if ctrue p then spin else
  wait_tx_idle wait_fuel ;;
  WriteReg (uart_off THR) c ;;
  mach pop_off.

Definition uartgetc : M kernel Z :=
  lsr <- ReadReg (uart_off LSR) ;;
  if ctrue (Z.land lsr 0x01) then ReadReg (uart_off RHR) else ret (-1).

(** [consputc] of [kernel/console.c]. *)
Definition BACKSPACE : Z := 0x100.

Definition consputc (c : Z) : M kernel unit :=
  if c =? BACKSPACE then
    uartputc_sync 8 ;; uartputc_sync 32 ;; uartputc_sync 8
  else uartputc_sync c.

End uart.
