(* ===== verification/Printf.v ===== *)
(** * Formatted console output ([kernel/printf.c]) and the page-table dump
      ([vmprint] of [kernel/vm.c]) *)

From S2P Require Import Prelude Riscv Machine Spinlock PhysMem Kalloc PageTable Vm Kernel Sched Uart.

(** Arguments of [printf]; [AStr None] is a null string pointer. *)
Inductive fmt_arg := AInt (x : Z) | APtr (x : Z) | AStr (s : option (list Z)).

(** [digits[i]] *)
Definition digit (i : Z) : Z := if i <? 10 then 48 + i else 97 + (i - 10).

(** The digits of [x], least significant first ([buf] of [printint]). *)
Fixpoint digits_rev (fuel : nat) (x base : Z) : list Z :=
  match fuel with
  | O => []
  | S fuel' =>
      digit (x mod base) :: if x / base =? 0 then [] else digits_rev fuel' (x / base) base
  end.

(** The characters [printint] prints; [buf] has 16 bytes, which is enough
    for a 32-bit number in base 10 or 16. *)
Definition printint_chars (xx base : Z) (sign : bool) : list Z :=
  let neg := sign && (xx <? 0) in
  let x := if neg then u32 (- xx) else u32 xx in
  reverse (digits_rev 16 x base ++ if neg then [45] else []).

(** The characters [printptr] prints: 16 hexadecimal digits. *)
Fixpoint printptr_digits (n : nat) (x : Z) : list Z :=
  match n with
  | O => []
  | S n' => digit (Z.shiftr x 60) :: printptr_digits n' (u64 (Z.shiftl x 4))
  end.

Definition printptr_chars (x : Z) : list Z := 48 :: 120 :: printptr_digits 16 x.

Section printf.
Context `{Linker} `{Platform} `{Fuel}.

Definition puts (cs : list Z) : M kernel unit := for_each cs consputc.

Definition printint (xx base : Z) (sign : bool) : M kernel unit := puts (printint_chars xx base sign).

Definition printptr (x : Z) : M kernel unit := puts (printptr_chars x).

(** The loop of [printf] over the format; a missing or ill-typed argument
    is undefined behaviour. *)
Fixpoint printf_loop (fmt : list Z) (args : list fmt_arg) : M kernel unit :=
  match fmt with
  | [] => ret tt
  | c :: fmt' =>
      if negb (c =? 37) then consputc c ;; printf_loop fmt' args else
      match fmt' with
      | [] => ret tt
      | c :: fmt'' =>
          if c =? 100 then
            match args with
            | AInt x :: args' => printint (s32 x) 10 true ;; printf_loop fmt'' args'
            | _ => undef "printf: %d"
            end
          else if c =? 120 then
            match args with
            | AInt x :: args' => printint (s32 x) 16 true ;; printf_loop fmt'' args'
            | _ => undef "printf: %x"
            end
          else if c =? 112 then
            match args with
            | APtr x :: args' => printptr x ;; printf_loop fmt'' args'
            | _ => undef "printf: %p"
            end
          else if c =? 115 then
            match args with
            | AStr s :: args' =>
                puts (default (chars "(null)") s) ;; printf_loop fmt'' args'
            | _ => undef "printf: %s"
            end
          else if c =? 37 then consputc 37 ;; printf_loop fmt'' args
          else consputc 37 ;; consputc c ;; printf_loop fmt'' args
      end
  end.

(** [fmt] without its NUL. *)
Definition printf (fmt : string) (args : list fmt_arg) : M kernel unit :=
  locking <- gets k_pr_locking ;;
  when (ctrue locking) (mach (acquire pr_lock)) ;;
  printf_loop (chars fmt) args ;;
  when (ctrue locking) (mach (release pr_lock)).

Definition printfinit : M kernel unit :=
  mach (initlock pr_lock "pr") ;;
  modify (fun k => k <| k_pr_locking := 1 |>).

(** ** [vmprint] *)

Definition newline : string := String (Ascii.ascii_of_nat 10) "".

(** The loop of [printwalk] over the entries from [i] on. *)
Fixpoint printwalk_loop (rec : Z -> M kernel unit) (n : nat) (pt i dep : Z) : M kernel unit :=
  match n with
  | O => ret tt
  | S n' =>
      pte <- mach (mload64 (pt + 8 * i)) ;;
      when (has_flag pte PTE_V)
        (for_each (seqZ 0 (dep - 1)) (fun _ => printf ".. " []) ;;
         printf "..%d: pte %p " [AInt i; APtr pte] ;;
         let child := PTE2PA pte in
         printf ("pa %p" ++ newline) [APtr child] ;;
         when (negb (has_flag pte PTE_RWX)) (rec child)) ;;
      printwalk_loop rec n' pt (i + 1) dep
  end.

(** Fuel: the depth of the recursion. *)
Fixpoint printwalk (depth : nat) (pt dep : Z) : M kernel unit :=
  match depth with
  | O => nofuel
  | S depth' => printwalk_loop (fun child => printwalk depth' child (dep + 1)) 512 pt 0 dep
  end.

Definition vmprint (pt : Z) : M kernel unit :=
  printf ("page table %p" ++ newline) [APtr pt] ;;
  printwalk 3 pt 1.

End printf.
