(* ===== verification/Log.v ===== *)
(** * The write-ahead log ([kernel/log.c]) *)

From S2P Require Import Prelude Riscv Machine Spinlock PhysMem Kalloc Vm Kernel Sched Sleeplock Bio Bytes.

Section log.
Context `{Linker} `{Platform} `{Fuel} `{!DiskDriver}.

Definition get_log : M kernel log := gets k_log.

Definition set_log (f : log -> log) : M kernel unit := modify (fun k => k <| k_log ::= f |>).

(** [log.lh.block[i]] *)
Definition log_block (i : Z) : M kernel Z :=
  l <- get_log ;;
  match lh_block l !! Z.to_nat i with Some b => ret b | None => undef "log.lh.block" end.

Definition set_log_block (i b : Z) : M kernel unit :=
  l <- get_log ;;
  if decide (Z.to_nat i < length (lh_block l))%nat
  then set_log (fun l => l <| lh_block ::= fun bl => <[Z.to_nat i := b]> bl |>)
  else undef "log.lh.block".

(** [struct logheader] in a block: [n] at offset 0, [block[i]] at [4 + 4*i]. *)
Definition hdr_n (data : list Z) : Z := s32 (get32 data 0).

Definition hdr_block (data : list Z) (i : Z) : Z := s32 (get32 data (4 + 4 * i)).

(** The copying loops run at most [LOGSIZE] times before they would leave
    the array. *)
Definition log_fuel : nat := S (Z.to_nat LOGSIZE).

Fixpoint install_trans_loop (fuel : nat) (recovering : bool) (tail : Z) : M kernel unit :=
  match fuel with
  | O => nofuel
  | S fuel' =>
      l <- get_log ;;
      if negb (tail <? lh_n l) then ret tt else
      lbuf <- bread (u32 (l_dev l)) (u32 (l_start l + tail + 1)) ;;
      bno <- log_block tail ;;
      l <- get_log ;;
      dbuf <- bread (u32 (l_dev l)) (u32 bno) ;;
      lb <- get_buf lbuf ;;
      set_buf dbuf (fun x => x <| b_data := b_data lb |>) ;;
      bwrite dbuf ;;
      when (negb recovering) (bunpin dbuf) ;;
      brelse lbuf ;;
      brelse dbuf ;;
      install_trans_loop fuel' recovering (tail + 1)
  end.

Definition install_trans (recovering : bool) : M kernel unit :=
  install_trans_loop log_fuel recovering 0.

Fixpoint read_head_loop (fuel : nat) (data : list Z) (i : Z) : M kernel unit :=
  match fuel with
  | O => nofuel
  | S fuel' =>
      l <- get_log ;;
      if negb (i <? lh_n l) then ret tt else
      set_log_block i (hdr_block data i) ;;
      read_head_loop fuel' data (i + 1)
  end.

Definition read_head : M kernel unit :=
  l <- get_log ;;
  b <- bread (u32 (l_dev l)) (u32 (l_start l)) ;;
  x <- get_buf b ;;
  set_log (fun l => l <| lh_n := hdr_n (b_data x) |>) ;;
  read_head_loop log_fuel (b_data x) 0 ;;
  brelse b.

Fixpoint write_head_loop (fuel : nat) (b : nat) (i : Z) : M kernel unit :=
  match fuel with
  | O => nofuel
  | S fuel' =>
      l <- get_log ;;
      if negb (i <? lh_n l) then ret tt else
      bno <- log_block i ;;
      set_buf b (fun x => x <| b_data ::= fun d => set32 d (4 + 4 * i) bno |>) ;;
      write_head_loop fuel' b (i + 1)
  end.

Definition write_head : M kernel unit :=
  l <- get_log ;;
  b <- bread (u32 (l_dev l)) (u32 (l_start l)) ;;
  l <- get_log ;;
  set_buf b (fun x => x <| b_data ::= fun d => set32 d 0 (lh_n l) |>) ;;
  write_head_loop log_fuel b 0 ;;
  bwrite b ;;
  brelse b.

Definition recover_from_log : M kernel unit :=
  read_head ;;
  install_trans true ;;
  set_log (fun l => l <| lh_n := 0 |>) ;;
  write_head.

(** [sizeof(struct logheader)] *)
Definition sizeof_logheader : Z := 4 + 4 * LOGSIZE.

Definition initlog (dev : Z) (sb : superblock) : M kernel unit :=
  if BSIZE <=? sizeof_logheader then panic "initlog: too big logheader" else
  mach (initlock log_lock "log") ;;
  set_log (fun l => l <| l_start := s32 (sb_logstart sb) |> <| l_size := s32 (sb_nlog sb) |>
                      <| l_dev := dev |>) ;;
  recover_from_log.

Fixpoint begin_op_loop (fuel : nat) : M kernel unit :=
  match fuel with
  | O => nofuel
  | S fuel' =>
      l <- get_log ;;
      if ctrue (l_committing l) then sleep ch_log log_lock ;; begin_op_loop fuel'
      else if LOGSIZE <? lh_n l + (l_outstanding l + 1) * MAXOPBLOCKS then
        sleep ch_log log_lock ;; begin_op_loop fuel'
      else
        set_log (fun l => l <| l_outstanding ::= fun n => n + 1 |>) ;;
        mach (release log_lock)
  end.

Definition begin_op : M kernel unit :=
  mach (acquire log_lock) ;;
  begin_op_loop wait_fuel.

Fixpoint write_log_loop (fuel : nat) (tail : Z) : M kernel unit :=
  match fuel with
  | O => nofuel
  | S fuel' =>
      l <- get_log ;;
      if negb (tail <? lh_n l) then ret tt else
      to <- bread (u32 (l_dev l)) (u32 (l_start l + tail + 1)) ;;
      bno <- log_block tail ;;
      l <- get_log ;;
      from <- bread (u32 (l_dev l)) (u32 bno) ;;
      fb <- get_buf from ;;
      set_buf to (fun x => x <| b_data := b_data fb |>) ;;
      bwrite to ;;
      brelse from ;;
      brelse to ;;
      write_log_loop fuel' (tail + 1)
  end.

Definition write_log : M kernel unit := write_log_loop log_fuel 0.

Definition commit : M kernel unit :=
  l <- get_log ;;
  when (0 <? lh_n l)
    (write_log ;;
     write_head ;;
     install_trans false ;;
     set_log (fun l => l <| lh_n := 0 |>) ;;
     write_head).

Definition end_op : M kernel unit :=
  mach (acquire log_lock) ;;
  set_log (fun l => l <| l_outstanding ::= fun n => n - 1 |>) ;;
  l <- get_log ;;
  if ctrue (l_committing l) then panic "log.committing" else
  let do_commit := l_outstanding l =? 0 in
  (if do_commit then set_log (fun l => l <| l_committing := 1 |>)
   else wakeup (Some ch_log)) ;;
  mach (release log_lock) ;;
  when do_commit
    (commit ;;
     mach (acquire log_lock) ;;
     set_log (fun l => l <| l_committing := 0 |>) ;;
     wakeup (Some ch_log) ;;
     mach (release log_lock)).

(** The search of [log_write] for [blockno]: the index found, or [n]. *)
Fixpoint log_write_find (bl : list Z) (n : nat) (i : Z) (blockno : Z) : Z :=
  match n, bl with
  | S n', b :: bl' => if u32 b =? blockno then i else log_write_find bl' n' (i + 1) blockno
  | _, _ => i
  end.

Definition log_write (b : nat) : M kernel unit :=
  mach (acquire log_lock) ;;
  l <- get_log ;;
  if (LOGSIZE <=? lh_n l) || (l_size l - 1 <=? lh_n l) then panic "too big a transaction" else
  if l_outstanding l <? 1 then panic "log_write outside of trans" else
  x <- get_buf b ;;
  let i := log_write_find (lh_block l) (Z.to_nat (lh_n l)) 0 (b_blockno x) in
  set_log_block i (s32 (b_blockno x)) ;;
  when (i =? lh_n l)
    (bpin b ;;
     set_log (fun l => l <| lh_n ::= fun n => n + 1 |>)) ;;
  mach (release log_lock).

End log.
