(* ===== verification/Fs.v ===== *)
(** * The file system ([kernel/fs.c])

    Blocks, inodes, file contents, directories and path names. Buffers hold
    the on-disk structures as bytes; a directory entry or other local object
    that C passes by address is passed by value. *)

From S2P Require Import Prelude Riscv Machine Spinlock PhysMem Kalloc PageTable Vm Kernel Sched Sleeplock Bio Bytes Uart Printf Log.

(** ** [kernel/fs.h] and [kernel/stat.h] *)

Definition ROOTINO : Z := 1.

Definition FSMAGIC : Z := 0x10203040.

Definition NDIRECT : Z := 12.

Definition NINDIRECT : Z := BSIZE / 4.

Definition MAXFILE : Z := NDIRECT + NINDIRECT.

(** [sizeof(struct dinode)] *)
Definition sizeof_dinode : Z := 64.

Definition IPB : Z := BSIZE / sizeof_dinode.

Definition IBLOCK (i : Z) (sb : superblock) : Z := u32 (i / IPB + sb_inodestart sb).

Definition BPB : Z := BSIZE * 8.

Definition BBLOCK (b : Z) (sb : superblock) : Z := u32 (b / BPB + sb_bmapstart sb).

Definition DIRSIZ : Z := 14.

(** [sizeof(struct dirent)] *)
Definition sizeof_dirent : Z := 16.

Definition T_DIR : Z := 1.

Definition T_FILE : Z := 2.

Definition T_DEVICE : Z := 3.

(** [struct superblock] in block 1. *)
Definition decode_sb (data : list Z) : superblock :=
  mksuperblock (get32 data 0) (get32 data 4) (get32 data 8) (get32 data 12)
    (get32 data 16) (get32 data 20) (get32 data 24) (get32 data 28).

(** [struct dinode] at offset [o] of a block: [type], [major], [minor],
    [nlink], [size], [addrs]. *)
Definition read_dinode (data : list Z) (o : Z) (ip : inode) : inode :=
  mkinode (i_dev ip) (i_inum ip) (i_ref ip) (i_valid ip)
    (s16 (get16 data o)) (s16 (get16 data (o + 2))) (s16 (get16 data (o + 4)))
    (s16 (get16 data (o + 6))) (get32 data (o + 8))
    ((fun i => get32 data (o + 12 + 4 * i)) <$> seqZ 0 (NDIRECT + 1)).

Fixpoint write_addrs (data : list Z) (o : Z) (addrs : list Z) : list Z :=
  match addrs with
  | [] => data
  | a :: addrs' => write_addrs (set32 data o a) (o + 4) addrs'
  end.

Definition write_dinode (data : list Z) (o : Z) (ip : inode) : list Z :=
  let data := set16 data o (i_type ip) in
  let data := set16 data (o + 2) (i_major ip) in
  let data := set16 data (o + 4) (i_minor ip) in
  let data := set16 data (o + 6) (i_nlink ip) in
  let data := set32 data (o + 8) (i_size ip) in
  write_addrs data (o + 12) (i_addrs ip).

(** The offset of inode [inum] in its block. *)
Definition dinode_off (inum : Z) : Z := inum mod IPB * sizeof_dinode.

(** [struct dirent]: [inum] and [name]. *)
Record dirent := mkdirent { de_inum : Z; de_name : list Z }.

Definition decode_dirent (bytes : list Z) : dirent := mkdirent (get16 bytes 0) (slice bytes 2 DIRSIZ).

Definition encode_dirent (de : dirent) : list Z :=
  u8 (de_inum de) :: u8 (de_inum de / 256) :: de_name de.

(** [struct stat] *)
Record stat := mkstat { st_dev : Z; st_ino : Z; st_type : Z; st_nlink : Z; st_size : Z }.

Section fs.
Context `{Linker} `{Platform} `{Fuel} `{!DiskDriver}.

Definition get_sb : M kernel superblock := gets k_sb.

Definition readsb (dev : Z) : M kernel unit :=
  bp <- bread (u32 dev) 1 ;;
  b <- get_buf bp ;;
  modify (fun k => k <| k_sb := decode_sb (b_data b) |>) ;;
  brelse bp.

Definition fsinit (dev : Z) : M kernel unit :=
  readsb dev ;;
  sb <- get_sb ;;
  if negb (sb_magic sb =? FSMAGIC) then panic "invalid file system" else
  initlog dev sb.

Definition bzero (dev bno : Z) : M kernel unit :=
  bp <- bread (u32 dev) (u32 bno) ;;
  set_buf bp (fun b => b <| b_data := replicate (Z.to_nat BSIZE) 0 |>) ;;
  log_write bp ;;
  brelse bp.

(** ** Blocks *)

(** The bit of block [bi] in a bitmap block. *)
Definition bit_mask (bi : Z) : Z := Z.shiftl 1 (bi mod 8).

Definition bit_used (data : list Z) (bi : Z) : bool :=
  ctrue (Z.land (default 0 (data !! Z.to_nat (bi / 8))) (bit_mask bi)).

Definition set_bit (data : list Z) (bi : Z) : list Z :=
  alter (fun x => Z.lor x (bit_mask bi)) (Z.to_nat (bi / 8)) data.

Definition clear_bit (data : list Z) (bi : Z) : list Z :=
  alter (fun x => Z.land x (Z.lnot (bit_mask bi))) (Z.to_nat (bi / 8)) data.

(** The inner loop of [balloc]: the first free bit from [bi] on. *)
Fixpoint balloc_find (n : nat) (data : list Z) (b bi size : Z) : option Z :=
  match n with
  | O => None
  | S n' =>
      if negb (b + bi <? size) then None
      else if negb (bit_used data bi) then Some bi
      else balloc_find n' data b (bi + 1) size
  end.

Fixpoint balloc_loop (fuel : nat) (dev b : Z) : M kernel Z :=
  match fuel with
  | O => nofuel
  | S fuel' =>
      sb <- get_sb ;;
      if negb (b <? sb_size sb) then
        printf ("balloc: out of blocks" ++ newline) [] ;; ret 0
      else
        bp <- bread dev (BBLOCK b sb) ;;
        x <- get_buf bp ;;
        match balloc_find (Z.to_nat BPB) (b_data x) b 0 (sb_size sb) with
        | Some bi =>
            set_buf bp (fun x => x <| b_data ::= fun d => set_bit d bi |>) ;;
            log_write bp ;;
            brelse bp ;;
            bzero dev (b + bi) ;;
            ret (u32 (b + bi))
        | None => brelse bp ;; balloc_loop fuel' dev (b + BPB)
        end
  end.

Definition balloc (dev : Z) : M kernel Z :=
  sb <- get_sb ;;
  balloc_loop (S (S (Z.to_nat (sb_size sb / BPB)))) dev 0.

Definition bfree (dev b : Z) : M kernel unit :=
  sb <- get_sb ;;
  bp <- bread (u32 dev) (BBLOCK b sb) ;;
  let bi := b mod BPB in
  x <- get_buf bp ;;
  if negb (bit_used (b_data x) bi) then panic "freeing free block" else
  set_buf bp (fun x => x <| b_data ::= fun d => clear_bit d bi |>) ;;
  log_write bp ;;
  brelse bp.

(** ** Inodes *)

Definition inodes : list nat := seq 0 (Z.to_nat NINODE).

Definition iinit : M kernel unit :=
  mach (initlock itable_lock "itable") ;;
  for_each inodes (fun i => initsleeplock (inode_sleeplock i) "inode").

(** The loop of [iget]: an entry for the inode, or the first empty one. *)
Fixpoint iget_scan (l : list nat) (empty : option nat) (dev inum : Z) : M kernel (nat + option nat) :=
  match l with
  | [] => ret (inr empty)
  | i :: l' =>
      ip <- get_inode i ;;
      if (0 <? i_ref ip) && (i_dev ip =? dev) && (i_inum ip =? inum) then ret (inl i) else
      let empty := match empty with
                   | None => if i_ref ip =? 0 then Some i else None
                   | _ => empty
                   end in
      iget_scan l' empty dev inum
  end.

Definition iget (dev inum : Z) : M kernel nat :=
  mach (acquire itable_lock) ;;
  r <- iget_scan inodes None dev inum ;;
  match r with
  | inl i =>
      set_inode i (fun ip => ip <| i_ref ::= fun n => n + 1 |>) ;;
      mach (release itable_lock) ;;
      ret i
  | inr None => panic "iget: no inodes"
  | inr (Some i) =>
      set_inode i (fun ip => ip <| i_dev := dev |> <| i_inum := inum |> <| i_ref := 1 |>
                               <| i_valid := 0 |>) ;;
      mach (release itable_lock) ;;
      ret i
  end.

Fixpoint ialloc_loop (fuel : nat) (dev type inum : Z) : M kernel (option nat) :=
  match fuel with
  | O => nofuel
  | S fuel' =>
      sb <- get_sb ;;
      if negb (inum <? sb_ninodes sb) then
        printf ("ialloc: no inodes" ++ newline) [] ;; ret None
      else
        bp <- bread dev (IBLOCK inum sb) ;;
        x <- get_buf bp ;;
        let o := dinode_off inum in
        if get16 (b_data x) o =? 0 then
          set_buf bp (fun x => x <| b_data ::= fun d =>
                        set16 (splice d o (replicate (Z.to_nat sizeof_dinode) 0)) o type |>) ;;
          log_write bp ;;
          brelse bp ;;
          i <- iget dev inum ;;
          ret (Some i)
        else
          brelse bp ;;
          ialloc_loop fuel' dev type (inum + 1)
  end.

Definition ialloc (dev type : Z) : M kernel (option nat) :=
  sb <- get_sb ;;
  ialloc_loop (S (Z.to_nat (sb_ninodes sb))) dev type 1.

Definition iupdate (i : nat) : M kernel unit :=
  ip <- get_inode i ;;
  sb <- get_sb ;;
  bp <- bread (i_dev ip) (IBLOCK (i_inum ip) sb) ;;
  ip <- get_inode i ;;
  set_buf bp (fun x => x <| b_data ::= fun d => write_dinode d (dinode_off (i_inum ip)) ip |>) ;;
  log_write bp ;;
  brelse bp.

Definition idup (i : nat) : M kernel nat :=
  mach (acquire itable_lock) ;;
  set_inode i (fun ip => ip <| i_ref ::= fun n => n + 1 |>) ;;
  mach (release itable_lock) ;;
  ret i.

(** [None] is a null pointer. *)
Definition ilock (p : option nat) : M kernel unit :=
  match p with
  | None => panic "ilock"
  | Some i =>
      ip <- get_inode i ;;
      if i_ref ip <? 1 then panic "ilock" else
      acquiresleep (inode_sleeplock i) ;;
      ip <- get_inode i ;;
      when (i_valid ip =? 0)
        (sb <- get_sb ;;
         bp <- bread (i_dev ip) (IBLOCK (i_inum ip) sb) ;;
         x <- get_buf bp ;;
         set_inode i (read_dinode (b_data x) (dinode_off (i_inum ip))) ;;
         brelse bp ;;
         set_inode i (fun ip => ip <| i_valid := 1 |>) ;;
         ip <- get_inode i ;;
         if i_type ip =? 0 then panic "ilock: no type" else ret tt)
  end.

Definition iunlock (p : option nat) : M kernel unit :=
  match p with
  | None => panic "iunlock"
  | Some i =>
      held <- holdingsleep (inode_sleeplock i) ;;
      if negb held then panic "iunlock" else
      ip <- get_inode i ;;
      if i_ref ip <? 1 then panic "iunlock" else
      releasesleep (inode_sleeplock i)
  end.

(** [ip->addrs[j]] *)
Definition get_addr (i : nat) (j : Z) : M kernel Z :=
  ip <- get_inode i ;; ret (default 0 (i_addrs ip !! Z.to_nat j)).

Definition set_addr (i : nat) (j a : Z) : M kernel unit :=
  set_inode i (fun ip => ip <| i_addrs ::= fun l => <[Z.to_nat j := a]> l |>).

Definition itrunc_direct (i : nat) (j : Z) : M kernel unit :=
  a <- get_addr i j ;;
  when (ctrue a)
    (ip <- get_inode i ;;
     bfree (s32 (i_dev ip)) a ;;
     set_addr i j 0).

Definition itrunc_indirect (i bp : nat) (j : Z) : M kernel unit :=
  x <- get_buf bp ;;
  let a := get32 (b_data x) (4 * j) in
  when (ctrue a) (ip <- get_inode i ;; bfree (s32 (i_dev ip)) a).

Definition itrunc (i : nat) : M kernel unit :=
  for_each (seqZ 0 NDIRECT) (itrunc_direct i) ;;
  a <- get_addr i NDIRECT ;;
  when (ctrue a)
    (ip <- get_inode i ;;
     bp <- bread (i_dev ip) a ;;
     for_each (seqZ 0 NINDIRECT) (itrunc_indirect i bp) ;;
     brelse bp ;;
     ip <- get_inode i ;;
     a <- get_addr i NDIRECT ;;
     bfree (s32 (i_dev ip)) a ;;
     set_addr i NDIRECT 0) ;;
  set_inode i (fun ip => ip <| i_size := 0 |>) ;;
  iupdate i.

Definition iput (i : nat) : M kernel unit :=
  mach (acquire itable_lock) ;;
  ip <- get_inode i ;;
  when ((i_ref ip =? 1) && ctrue (i_valid ip) && (i_nlink ip =? 0))
    (acquiresleep (inode_sleeplock i) ;;
     mach (release itable_lock) ;;
     itrunc i ;;
     set_inode i (fun ip => ip <| i_type := 0 |>) ;;
     iupdate i ;;
     set_inode i (fun ip => ip <| i_valid := 0 |>) ;;
     releasesleep (inode_sleeplock i) ;;
     mach (acquire itable_lock)) ;;
  set_inode i (fun ip => ip <| i_ref ::= fun n => n - 1 |>) ;;
  mach (release itable_lock).

Definition iunlockput (i : nat) : M kernel unit := iunlock (Some i) ;; iput i.

(** ** File contents *)

Definition bmap (i : nat) (bn : Z) : M kernel Z :=
  if bn <? NDIRECT then
    addr <- get_addr i bn ;;
    if addr =? 0 then
      ip <- get_inode i ;;
      addr <- balloc (i_dev ip) ;;
      if addr =? 0 then ret 0 else
      set_addr i bn addr ;;
      ret addr
    else ret addr
  else
  let bn := bn - NDIRECT in
  if bn <? NINDIRECT then
    addr <- get_addr i NDIRECT ;;
    addr <- (if addr =? 0 then
               ip <- get_inode i ;;
               addr <- balloc (i_dev ip) ;;
               if addr =? 0 then ret 0 else
               set_addr i NDIRECT addr ;;
               ret addr
             else ret addr) ;;
    if addr =? 0 then ret 0 else
    ip <- get_inode i ;;
    bp <- bread (i_dev ip) addr ;;
    x <- get_buf bp ;;
    let addr := get32 (b_data x) (4 * bn) in
    addr <- (if addr =? 0 then
               ip <- get_inode i ;;
               addr <- balloc (i_dev ip) ;;
               when (ctrue addr)
                 (set_buf bp (fun x => x <| b_data ::= fun d => set32 d (4 * bn) addr |>) ;;
                  log_write bp) ;;
               ret addr
             else ret addr) ;;
    brelse bp ;;
    ret addr
  else panic "bmap: out of range".

Definition stati (i : nat) : M kernel stat :=
  ip <- get_inode i ;;
  ret (mkstat (s32 (i_dev ip)) (i_inum ip) (i_type ip) (i_nlink ip) (i_size ip)).

(** The loop of [readi]: the result [tot] and the bytes read. *)
Fixpoint readi_loop (fuel : nat) (i : nat) (dst : kdst) (off n tot : Z) (acc : list Z) :
    M kernel (Z * list Z) :=
  match fuel with
  | O => nofuel
  | S fuel' =>
      if negb (tot <? n) then ret (tot, acc) else
      addr <- bmap i (off / BSIZE) ;;
      if addr =? 0 then ret (tot, acc) else
      ip <- get_inode i ;;
      bp <- bread (i_dev ip) addr ;;
      let m := Z.min (n - tot) (BSIZE - off mod BSIZE) in
      x <- get_buf bp ;;
      let bytes := slice (b_data x) (off mod BSIZE) m in
      r <- either_copyout dst bytes ;;
      if r =? -1 then brelse bp ;; ret (u32 (-1), acc) else
      brelse bp ;;
      readi_loop fuel' i (dst_add dst m) (off + m) n (tot + m) (acc ++ bytes)
  end.

(** The return value and, for a local destination, the bytes stored. *)
Definition readi (i : nat) (dst : kdst) (off n : Z) : M kernel (Z * list Z) :=
  ip <- get_inode i ;;
  if (i_size ip <? off) || (u32 (off + n) <? off) then ret (0, []) else
  let n := if i_size ip <? u32 (off + n) then u32 (i_size ip - off) else n in
  r <- readi_loop (S (S (S (Z.to_nat (n / BSIZE))))) i dst off n 0 [] ;;
  ret (s32 (fst r), snd r).

(** The loop of [writei]: [tot] and the final [off]. A failing
    [either_copyin] may have stored some bytes into the buffer. *)
Fixpoint writei_loop (fuel : nat) (i : nat) (src : ksrc) (off n tot : Z) : M kernel (Z * Z) :=
  match fuel with
  | O => nofuel
  | S fuel' =>
      if negb (tot <? n) then ret (tot, off) else
      addr <- bmap i (off / BSIZE) ;;
      if addr =? 0 then ret (tot, off) else
      ip <- get_inode i ;;
      bp <- bread (i_dev ip) addr ;;
      let m := Z.min (n - tot) (BSIZE - off mod BSIZE) in
      r <- either_copyin src m ;;
      set_buf bp (fun x => x <| b_data ::= fun d => splice d (off mod BSIZE) (snd r) |>) ;;
      if fst r =? -1 then brelse bp ;; ret (tot, off) else
      log_write bp ;;
      brelse bp ;;
      writei_loop fuel' i (src_add src m) (off + m) n (tot + m)
  end.

Definition writei (i : nat) (src : ksrc) (off n : Z) : M kernel Z :=
  ip <- get_inode i ;;
  if (i_size ip <? off) || (u32 (off + n) <? off) then ret (-1) else
  if MAXFILE * BSIZE <? u32 (off + n) then ret (-1) else
  r <- writei_loop (S (S (S (Z.to_nat (n / BSIZE))))) i src off n 0 ;;
  let '(tot, off) := r in
  ip <- get_inode i ;;
  when (i_size ip <? off) (set_inode i (fun ip => ip <| i_size := off |>)) ;;
  iupdate i ;;
  ret (s32 tot).

(** ** Directories *)

(** Names are [char] arrays; reading past the end of one is undefined. *)
Definition namecmp (s t : list Z) : M kernel Z :=
  match strncmp s t DIRSIZ with Some r => ret r | None => undef "namecmp" end.

Fixpoint dirlookup_loop (fuel : nat) (dp : nat) (name : list Z) (off : Z) : M kernel (option (nat * Z)) :=
  match fuel with
  | O => nofuel
  | S fuel' =>
      d <- get_inode dp ;;
      if negb (off <? i_size d) then ret None else
      r <- readi dp LocalDst off sizeof_dirent ;;
      if negb (fst r =? sizeof_dirent) then panic "dirlookup read" else
      let de := decode_dirent (snd r) in
      if de_inum de =? 0 then dirlookup_loop fuel' dp name (u32 (off + sizeof_dirent)) else
      c <- namecmp name (de_name de) ;;
      if c =? 0 then
        d <- get_inode dp ;;
        ip <- iget (i_dev d) (de_inum de) ;;
        ret (Some (ip, off))
      else dirlookup_loop fuel' dp name (u32 (off + sizeof_dirent))
  end.

(** The inode found and the offset of its entry ([*poff]). *)
Definition dirlookup (dp : nat) (name : list Z) : M kernel (option (nat * Z)) :=
  d <- get_inode dp ;;
  if negb (i_type d =? T_DIR) then panic "dirlookup not DIR" else
  dirlookup_loop (S (S (Z.to_nat (i_size d / sizeof_dirent)))) dp name 0.

(** The search of [dirlink] for an empty entry; [dirlink] does not use the
    entry's old contents. *)
Fixpoint dirlink_find (fuel : nat) (dp : nat) (off : Z) : M kernel Z :=
  match fuel with
  | O => nofuel
  | S fuel' =>
      d <- get_inode dp ;;
      if negb (off <? i_size d) then ret off else
      r <- readi dp LocalDst off sizeof_dirent ;;
      if negb (fst r =? sizeof_dirent) then panic "dirlink read" else
      if de_inum (decode_dirent (snd r)) =? 0 then ret off
      else dirlink_find fuel' dp (u32 (off + sizeof_dirent))
  end.

Definition dirlink (dp : nat) (name : list Z) (inum : Z) : M kernel Z :=
  r <- dirlookup dp name ;;
  match r with
  | Some (ip, _) => iput ip ;; ret (-1)
  | None =>
      d <- get_inode dp ;;
      off <- dirlink_find (S (S (Z.to_nat (i_size d / sizeof_dirent)))) dp 0 ;;
      match strncpy (replicate (Z.to_nat DIRSIZ) 0) name DIRSIZ with
      | None => undef "strncpy"
      | Some nm =>
          w <- writei dp (LocalSrc (encode_dirent (mkdirent (u16 inum) nm))) off sizeof_dirent ;;
          if negb (w =? sizeof_dirent) then ret (-1) else ret 0
      end
  end.

(** ** Path names

    A path is the list of its bytes up to the NUL; [name] is the caller's
    [DIRSIZ]-byte buffer. *)

Fixpoint skip_slashes (path : list Z) : list Z :=
  match path with
  | c :: path' => if c =? 47 then skip_slashes path' else path
  | [] => []
  end.

Fixpoint take_elem (path : list Z) : list Z * list Z :=
  match path with
  | c :: path' =>
      if c =? 47 then ([], path)
      else let '(e, rest) := take_elem path' in (c :: e, rest)
  | [] => ([], [])
  end.

Definition skipelem (path name : list Z) : option (list Z * list Z) :=
  let path := skip_slashes path in
  match path with
  | [] => None
  | _ =>
      let '(s, path) := take_elem path in
      let len := Z.of_nat (length s) in
      let name :=
        if DIRSIZ <=? len then splice name 0 (take (Z.to_nat DIRSIZ) s)
        else <[Z.to_nat len := 0]> (splice name 0 s) in
      Some (skip_slashes path, name)
  end.

Fixpoint namex_loop (fuel : nat) (ip : nat) (path : list Z) (nameiparent : bool) (name : list Z) :
    M kernel (option nat * list Z) :=
  match fuel with
  | O => nofuel
  | S fuel' =>
      match skipelem path name with
      | None =>
          if nameiparent then iput ip ;; ret (None, name) else ret (Some ip, name)
      | Some (path, name) =>
          ilock (Some ip) ;;
          x <- get_inode ip ;;
          if negb (i_type x =? T_DIR) then iunlockput ip ;; ret (None, name) else
          if nameiparent && bool_decide (path = []) then iunlock (Some ip) ;; ret (Some ip, name) else
          r <- dirlookup ip name ;;
          match r with
          | None => iunlockput ip ;; ret (None, name)
          | Some (next, _) => iunlockput ip ;; namex_loop fuel' next path nameiparent name
          end
      end
  end.

(** The inode and the final contents of [name]. Every element takes at
    least one byte of the path. *)
Definition namex (path : list Z) (nameiparent : bool) (name : list Z) : M kernel (option nat * list Z) :=
  ip <- (match path with
         | 47 :: _ => iget ROOTDEV ROOTINO
         | _ => p <- curproc ;; pr <- get_proc p ;; cwd <- deref (p_cwd pr) ;; idup cwd
         end) ;;
  namex_loop (S (length path)) ip path nameiparent name.

Definition namei (path : list Z) : M kernel (option nat) :=
  r <- namex path false (replicate (Z.to_nat DIRSIZ) 0) ;;
  ret (fst r).

Definition nameiparent (path name : list Z) : M kernel (option nat * list Z) := namex path true name.

End fs.
