(* ===== verification/Pipe.v ===== *)
(** * Pipes ([kernel/pipe.c])

    [pipealloc] is in [File.v]. A [struct pipe] fills a page taken with
    [kalloc]; the model keeps it as a record under the page's address. *)

From S2P Require Import Prelude Riscv Machine Spinlock PhysMem Kalloc Vm Kernel Sched.

Definition PIPESIZE : Z := 512.

Section pipe.
Context `{Linker} `{Platform} `{Fuel}.

(** [kfree((char* )pi)] *)
Definition free_pipe (pi : Z) : M kernel unit :=
  mach (kfree pi) ;;
  modify (fun k => k <| k_pipes ::= delete pi |>).

Definition pipeclose (pi : Z) (writable : bool) : M kernel unit :=
  mach (acquire (pipe_lock pi)) ;;
  (if writable then
     set_pipe pi (fun p => p <| pi_writeopen := 0 |>) ;;
     wakeup (Some (ch_nread pi))
   else
     set_pipe pi (fun p => p <| pi_readopen := 0 |>) ;;
     wakeup (Some (ch_nwrite pi))) ;;
  p <- get_pipe pi ;;
  if (pi_readopen p =? 0) && (pi_writeopen p =? 0) then
    mach (release (pipe_lock pi)) ;;
    free_pipe pi
  else mach (release (pipe_lock pi)).

(** [pi->data[pi->nwrite++ % PIPESIZE] = ch] *)
Definition pipe_put (ch : Z) (p : pipe) : pipe :=
  p <| pi_data ::= fun d => <[Z.to_nat (pi_nwrite p mod PIPESIZE) := ch]> d |>
    <| pi_nwrite ::= fun n => u32 (n + 1) |>.

(** [ch = pi->data[pi->nread % PIPESIZE]] and [pi->nread++] *)
Definition pipe_front (p : pipe) : Z := default 0 (pi_data p !! Z.to_nat (pi_nread p mod PIPESIZE)).

Definition pipe_take (p : pipe) : pipe := p <| pi_nread ::= fun n => u32 (n + 1) |>.

Definition pipe_full (p : pipe) : bool := pi_nwrite p =? u32 (pi_nread p + PIPESIZE).

Definition pipe_empty (p : pipe) : bool := pi_nread p =? pi_nwrite p.

(** The loop of [pipewrite]: [inl i] when it ends with [i] bytes written,
    [inr tt] for the early [return -1]. Every iteration writes a byte or
    sleeps: the fuel bounds the number of both together. *)
Fixpoint pipewrite_loop (fuel : nat) (pr : nat) (pi addr n i : Z) : M kernel (Z + unit) :=
  match fuel with
  | O => nofuel
  | S fuel' =>
      if negb (i <? n) then ret (inl i) else
      p <- get_pipe pi ;;
      dead <- (if pi_readopen p =? 0 then ret true else kd <- killed pr ;; ret (ctrue kd)) ;;
      if dead then
        mach (release (pipe_lock pi)) ;;
        ret (inr tt)
      else
      p <- get_pipe pi ;;
      if pipe_full p then
        wakeup (Some (ch_nread pi)) ;;
        sleep (ch_nwrite pi) (pipe_lock pi) ;;
        pipewrite_loop fuel' pr pi addr n i
      else
        q <- get_proc pr ;;
        r <- mach (copyin (p_pagetable q) (u64 (addr + i)) 1) ;;
        match r with
        | (0, [ch]) =>
            set_pipe pi (pipe_put ch) ;;
            pipewrite_loop fuel' pr pi addr n (i + 1)
        | _ => ret (inl i)
        end
  end.

Definition pipewrite (pi addr n : Z) : M kernel Z :=
  pr <- curproc ;;
  mach (acquire (pipe_lock pi)) ;;
  r <- pipewrite_loop (Z.to_nat n + wait_fuel) pr pi addr n 0 ;;
  match r with
  | inr _ => ret (-1)
  | inl i =>
      wakeup (Some (ch_nread pi)) ;;
      mach (release (pipe_lock pi)) ;;
      ret i
  end.

(** The waiting loop of [piperead]; [true] for the early [return -1]. *)
Fixpoint piperead_wait (fuel : nat) (pr : nat) (pi : Z) : M kernel bool :=
  match fuel with
  | O => nofuel
  | S fuel' =>
      p <- get_pipe pi ;;
      if pipe_empty p && ctrue (pi_writeopen p) then
        kd <- killed pr ;;
        if ctrue kd then mach (release (pipe_lock pi)) ;; ret true else
        sleep (ch_nread pi) (pipe_lock pi) ;;
        piperead_wait fuel' pr pi
      else ret false
  end.

(** The copying loop: at most [n] bytes. *)
Fixpoint piperead_copy (left : nat) (pr : nat) (pi addr i : Z) : M kernel Z :=
  match left with
  | O => ret i
  | S left' =>
      p <- get_pipe pi ;;
      if pipe_empty p then ret i else
      let ch := pipe_front p in
      set_pipe pi pipe_take ;;
      q <- get_proc pr ;;
      r <- mach (copyout (p_pagetable q) (u64 (addr + i)) [ch]) ;;
      if r =? -1 then ret i else piperead_copy left' pr pi addr (i + 1)
  end.

Definition piperead (pi addr n : Z) : M kernel Z :=
  pr <- curproc ;;
  mach (acquire (pipe_lock pi)) ;;
  dead <- piperead_wait wait_fuel pr pi ;;
  if dead then ret (-1) else
  i <- piperead_copy (Z.to_nat n) pr pi addr 0 ;;
  wakeup (Some (ch_nwrite pi)) ;;
  mach (release (pipe_lock pi)) ;;
  ret i.

End pipe.
