(* ===== verification/Console.v ===== *)
(** * The console ([kernel/console.c]), [procdump] of [kernel/proc.c] and
      [uartintr] of [kernel/uart.c] *)

From S2P Require Import Prelude Riscv Machine Spinlock PhysMem Kalloc Vm Kernel Sched Uart Printf.

Definition INPUT_BUF_SIZE : Z := 128.

(** [C(x)] for a character code. *)
Definition Ctrl (x : Z) : Z := x - 64.

Section console.
Context `{Linker} `{Platform} `{Fuel}.

Definition get_cons : M kernel consbuf := gets k_cons.

Definition set_cons (f : consbuf -> consbuf) : M kernel unit := modify (fun k => k <| k_cons ::= f |>).

Fixpoint consolewrite_loop (left : nat) (src : ksrc) (i : Z) : M kernel Z :=
  match left with
  | O => ret i
  | S left' =>
      r <- either_copyin (src_add src i) 1 ;;
      match r with
      | (0, [c]) => uartputc c ;; consolewrite_loop left' src (i + 1)
      | _ => ret i
      end
  end.

Definition consolewrite (src : ksrc) (n : Z) : M kernel Z := consolewrite_loop (Z.to_nat n) src 0.

(** The inner waiting loop of [consoleread]; [true] for [return -1]. *)
Fixpoint consoleread_wait (fuel : nat) : M kernel bool :=
  match fuel with
  | O => nofuel
  | S fuel' =>
      c <- get_cons ;;
      if cons_r c =? cons_w c then
        p <- curproc ;;
        kd <- killed p ;;
        if ctrue kd then mach (release cons_lock) ;; ret true else
        sleep ch_cons_r cons_lock ;;
        consoleread_wait fuel'
      else ret false
  end.

(** The outer loop: [inl n] with what is left of [n], [inr tt] for
    [return -1]. *)
Fixpoint consoleread_loop (left : nat) (dst : kdst) (target n : Z) : M kernel (Z + unit) :=
  match left with
  | O => ret (inl n)
  | S left' =>
      dead <- consoleread_wait wait_fuel ;;
      if dead then ret (inr tt) else
      b <- get_cons ;;
      let c := default 0 (cons_buf b !! Z.to_nat (cons_r b mod INPUT_BUF_SIZE)) in
      set_cons (fun b => b <| cons_r ::= fun r => u32 (r + 1) |>) ;;
      if c =? Ctrl 68 then
        when (n <? target) (set_cons (fun b => b <| cons_r ::= fun r => u32 (r - 1) |>)) ;;
        ret (inl n)
      else
      r <- either_copyout dst [c] ;;
      if r =? -1 then ret (inl n) else
      if c =? 10 then ret (inl (n - 1))
      else consoleread_loop left' (dst_add dst 1) target (n - 1)
  end.

(** [target] is [n] as an unsigned number. *)
Definition consoleread (dst : kdst) (n : Z) : M kernel Z :=
  mach (acquire cons_lock) ;;
  r <- consoleread_loop (Z.to_nat n) dst (u32 n) n ;;
  match r with
  | inr _ => ret (-1)
  | inl n1 =>
      mach (release cons_lock) ;;
      ret (s32 (u32 n - n1))
  end.

(** [procdump]'s [states[]] *)
Definition state_name (s : procstate) : string :=
  match s with
  | UNUSED => "unused" | USED => "used" | SLEEPING => "sleep " | RUNNABLE => "runble"
  | RUNNING => "run   " | ZOMBIE => "zombie"
  end.

(** The characters of a NUL-terminated array. *)
Fixpoint cstring (s : list Z) : list Z :=
  match s with
  | [] => []
  | c :: s' => if c =? 0 then [] else c :: cstring s'
  end.

Definition procdump : M kernel unit :=
  printf newline [] ;;
  for_each procs (fun i =>
    p <- get_proc i ;;
    if decide (p_state p = UNUSED) then ret tt else
    printf "%d %s %s" [AInt (p_pid p); AStr (Some (chars (state_name (p_state p))));
                        AStr (Some (cstring (p_name p)))] ;;
    printf newline []).

(** The [C('U')] case; each iteration moves [cons.e] back towards [cons.w]. *)
Fixpoint kill_line (fuel : nat) : M kernel unit :=
  match fuel with
  | O => nofuel
  | S fuel' =>
      c <- get_cons ;;
      if negb (cons_e c =? cons_w c) &&
         negb (default 0 (cons_buf c !! Z.to_nat (u32 (cons_e c - 1) mod INPUT_BUF_SIZE)) =? 10)
      then
        set_cons (fun c => c <| cons_e ::= fun e => u32 (e - 1) |>) ;;
        consputc BACKSPACE ;;
        kill_line fuel'
      else ret tt
  end.

Definition consoleintr (c : Z) : M kernel unit :=
  mach (acquire cons_lock) ;;
  (if c =? Ctrl 80 then procdump
   else if c =? Ctrl 85 then kill_line (S (Z.to_nat INPUT_BUF_SIZE))
   else if (c =? Ctrl 72) || (c =? 127) then
     b <- get_cons ;;
     when (negb (cons_e b =? cons_w b))
       (set_cons (fun b => b <| cons_e ::= fun e => u32 (e - 1) |>) ;;
        consputc BACKSPACE)
   else
     b <- get_cons ;;
     when (negb (c =? 0) && (u32 (cons_e b - cons_r b) <? INPUT_BUF_SIZE))
       (let c := if c =? 13 then 10 else c in
        consputc c ;;
        set_cons (fun b =>
          b <| cons_buf ::= fun l => <[Z.to_nat (cons_e b mod INPUT_BUF_SIZE) := u8 c]> l |>
            <| cons_e ::= fun e => u32 (e + 1) |>) ;;
        b <- get_cons ;;
        when ((c =? 10) || (c =? Ctrl 68) || (u32 (cons_e b - cons_r b) =? INPUT_BUF_SIZE))
          (set_cons (fun b => b <| cons_w := cons_e b |>) ;;
           wakeup (Some ch_cons_r)))) ;;
  mach (release cons_lock).

Definition CONSOLE : Z := 1.

Definition consoleinit : M kernel unit :=
  mach (initlock cons_lock "cons") ;;
  uartinit ;;
  modify (fun k => k <| k_devsw ::= fun l => <[Z.to_nat CONSOLE := Some console_device]> l |>).

(** The receive loop ends when the device has no more input. *)
Definition uartintr : M kernel unit :=
  iter wait_fuel (fun _ =>
    c <- uartgetc ;;
    if c =? -1 then leave tt else consoleintr c ;; continue tt) tt ;;
  mach (acquire uart_tx_lock) ;;
  uartstart ;;
  mach (release uart_tx_lock).

End console.
