(* ===== verification/File.v ===== *)
(** * Files ([kernel/file.c]) and [pipealloc] of [kernel/pipe.c] *)

From S2P Require Import Prelude Riscv Machine Spinlock PhysMem Kalloc PageTable Vm Kernel Sched Sleeplock Bio Bytes Uart Printf Log Fs Pipe Console.

Section file.
Context `{Linker} `{Platform} `{Fuel} `{!DiskDriver}.

Definition files : list nat := seq 0 (Z.to_nat NFILE).

Definition fileinit : M kernel unit := mach (initlock ftable_lock "ftable").

Definition filealloc : M kernel (option nat) :=
  mach (acquire ftable_lock) ;;
  r <- scan files (fun i =>
    f <- get_file i ;;
    if f_ref f =? 0 then
      set_file i (fun f => f <| f_ref := 1 |>) ;;
      mach (release ftable_lock) ;;
      ret (Some i)
    else ret None) ;;
  match r with
  | Some i => ret (Some i)
  | None => mach (release ftable_lock) ;; ret None
  end.

Definition filedup (i : nat) : M kernel nat :=
  mach (acquire ftable_lock) ;;
  f <- get_file i ;;
  if f_ref f <? 1 then panic "filedup" else
  set_file i (fun f => f <| f_ref ::= fun n => n + 1 |>) ;;
  mach (release ftable_lock) ;;
  ret i.

Definition fileclose (i : nat) : M kernel unit :=
  mach (acquire ftable_lock) ;;
  f <- get_file i ;;
  if f_ref f <? 1 then panic "fileclose" else
  set_file i (fun f => f <| f_ref ::= fun n => n - 1 |>) ;;
  ff <- get_file i ;;
  if 0 <? f_ref ff then mach (release ftable_lock) else
  set_file i (fun f => f <| f_ref := 0 |> <| f_type := FD_NONE |>) ;;
  mach (release ftable_lock) ;;
  if decide (f_type ff = FD_PIPE) then pipeclose (f_pipe ff) (ctrue (f_writable ff))
  else if decide (f_type ff = FD_INODE \/ f_type ff = FD_DEVICE) then
    begin_op ;;
    ip <- deref (f_ip ff) ;;
    iput ip ;;
    end_op
  else ret tt.

(** The bytes of a [struct stat]; the four padding bytes before [size] are
    unspecified in C and 0 here. *)
Definition encode_stat (st : stat) : list Z :=
  let d := replicate 24 0 in
  let d := set32 d 0 (st_dev st) in
  let d := set32 d 4 (st_ino st) in
  let d := set16 d 8 (st_type st) in
  let d := set16 d 10 (st_nlink st) in
  set_le 8 d 16 (st_size st).

Definition filestat (i : nat) (addr : Z) : M kernel Z :=
  p <- curproc ;;
  f <- get_file i ;;
  if decide (f_type f = FD_INODE \/ f_type f = FD_DEVICE) then
    ilock (f_ip f) ;;
    ip <- deref (f_ip f) ;;
    st <- stati ip ;;
    iunlock (f_ip f) ;;
    pr <- get_proc p ;;
    r <- mach (copyout (p_pagetable pr) addr (encode_stat st)) ;;
    if r <? 0 then ret (-1) else ret 0
  else ret (-1).

(** [devsw[f->major]] *)
Definition get_devsw (major : Z) : M kernel (option devfns) :=
  gets (fun k => default None (k_devsw k !! Z.to_nat major)).

Definition fileread (i : nat) (addr n : Z) : M kernel Z :=
  f <- get_file i ;;
  if f_readable f =? 0 then ret (-1) else
  match f_type f with
  | FD_PIPE => piperead (f_pipe f) addr n
  | FD_DEVICE =>
      if (f_major f <? 0) || (NDEV <=? f_major f) then ret (-1) else
      d <- get_devsw (f_major f) ;;
      match d with
      | None => ret (-1)
      | Some console_device => consoleread (UserDst addr) n
      end
  | FD_INODE =>
      ilock (f_ip f) ;;
      ip <- deref (f_ip f) ;;
      f <- get_file i ;;
      r <- readi ip (UserDst addr) (f_off f) (u32 n) ;;
      when (0 <? fst r) (set_file i (fun f => f <| f_off ::= fun o => u32 (o + fst r) |>)) ;;
      iunlock (Some ip) ;;
      ret (fst r)
  | FD_NONE => panic "fileread"
  end.

(** The loop of [filewrite] for inodes: the final [i]. *)
Fixpoint filewrite_loop (fuel : nat) (fi : nat) (addr n i : Z) : M kernel Z :=
  match fuel with
  | O => nofuel
  | S fuel' =>
      if negb (i <? n) then ret i else
      let max := ((MAXOPBLOCKS - 1 - 1 - 2) / 2) * BSIZE in
      let n1 := if max <? n - i then max else n - i in
      begin_op ;;
      f <- get_file fi ;;
      ilock (f_ip f) ;;
      ip <- deref (f_ip f) ;;
      f <- get_file fi ;;
      r <- writei ip (UserSrc (u64 (addr + i))) (f_off f) (u32 n1) ;;
      when (0 <? r) (set_file fi (fun f => f <| f_off ::= fun o => u32 (o + r) |>)) ;;
      iunlock (Some ip) ;;
      end_op ;;
      if negb (r =? n1) then ret i else filewrite_loop fuel' fi addr n (i + r)
  end.

Definition filewrite (i : nat) (addr n : Z) : M kernel Z :=
  f <- get_file i ;;
  if f_writable f =? 0 then ret (-1) else
  match f_type f with
  | FD_PIPE => pipewrite (f_pipe f) addr n
  | FD_DEVICE =>
      if (f_major f <? 0) || (NDEV <=? f_major f) then ret (-1) else
      d <- get_devsw (f_major f) ;;
      match d with
      | None => ret (-1)
      | Some console_device => consolewrite (UserSrc addr) n
      end
  | FD_INODE =>
      r <- filewrite_loop (S (S (Z.to_nat (n / (((MAXOPBLOCKS - 1 - 1 - 2) / 2) * BSIZE))))) i addr n 0 ;;
      ret (if r =? n then n else -1)
  | FD_NONE => panic "filewrite"
  end.

(** ** [pipealloc] *)

Definition new_pipe : pipe := mkpipe (replicate (Z.to_nat PIPESIZE) 5) 0 0 1 1.

(** The two files, or [None] for -1; [kalloc] fills a page with 5s. *)
Definition pipealloc : M kernel (option (nat * nat)) :=
  let bad (f0 f1 : option nat) :=
    match f0 with Some f => fileclose f | None => ret tt end ;;
    match f1 with Some f => fileclose f | None => ret tt end ;;
    ret None in
  r0 <- filealloc ;;
  match r0 with
  | None => bad None None
  | Some f0 =>
      r1 <- filealloc ;;
      match r1 with
      | None => bad (Some f0) None
      | Some f1 =>
          pi <- mach kalloc ;;
          if pi =? 0 then bad (Some f0) (Some f1) else
          modify (fun k => k <| k_pipes ::= fun t => <[pi := new_pipe]> t |>) ;;
          mach (initlock (pipe_lock pi) "pipe") ;;
          set_file f0 (fun f => f <| f_type := FD_PIPE |> <| f_readable := 1 |>
                                  <| f_writable := 0 |> <| f_pipe := pi |>) ;;
          set_file f1 (fun f => f <| f_type := FD_PIPE |> <| f_readable := 0 |>
                                  <| f_writable := 1 |> <| f_pipe := pi |>) ;;
          ret (Some (f0, f1))
      end
  end.

End file.
