(* ===== verification/Proc.v ===== *)
(** * Processes ([kernel/proc.c])

    The process table: allocation, address spaces, [fork], [exit], [wait]
    and [pgaccess]; the creation of the kernel page table ([kvmmake] of
    [kernel/vm.c]) is here because it maps the kernel stacks. The scheduler
    is in [Sched.v], [procdump] in [Console.v] and [forkret] in [Trap.v]. *)

From S2P Require Import Prelude Riscv Machine Spinlock PhysMem Kalloc PageTable Vm Kernel Sched Sleeplock Bio Bytes Uart Printf Log Fs Pipe Console File.

(** The fields of [struct trapframe] ([kernel/proc.h]) that C code uses;
    [tf_a i] is [a0] to [a7]. *)
Inductive tf_field :=
| tf_kernel_satp | tf_kernel_sp | tf_kernel_trap | tf_epc | tf_kernel_hartid | tf_sp | tf_a (i : Z).

Definition tf_off (f : tf_field) : Z :=
  match f with
  | tf_kernel_satp => 0
  | tf_kernel_sp => 8
  | tf_kernel_trap => 16
  | tf_epc => 24
  | tf_kernel_hartid => 32
  | tf_sp => 48
  | tf_a i => 112 + 8 * i
  end.

Definition sizeof_trapframe : Z := 288.

(** ** The kernel page table *)

Section kvm.
Context `{Linker}.

Definition proc_mapstacks (kpgtbl : Z) : M machine unit :=
  for_each procs (fun i =>
    pa <- kalloc ;;
    if pa =? 0 then panic "kalloc" else
    kvmmap kpgtbl (KSTACK (Z.of_nat i)) pa PGSIZE (Z.lor PTE_R PTE_W)).

(** [kvmmake] does not check the result of its first [kalloc]. *)
Definition kvmmake : M machine Z :=
  kpgtbl <- kalloc ;;
  if kpgtbl =? 0 then undef "memset of a null page" else
  mem_op (memset kpgtbl 0 PGSIZE) ;;
  kvmmap kpgtbl UART0 UART0 PGSIZE (Z.lor PTE_R PTE_W) ;;
  kvmmap kpgtbl VIRTIO0 VIRTIO0 PGSIZE (Z.lor PTE_R PTE_W) ;;
  kvmmap kpgtbl PLIC PLIC 0x400000 (Z.lor PTE_R PTE_W) ;;
  kvmmap kpgtbl KERNBASE KERNBASE (etext - KERNBASE) (Z.lor PTE_R PTE_X) ;;
  kvmmap kpgtbl etext etext (PHYSTOP - etext) (Z.lor PTE_R PTE_W) ;;
  kvmmap kpgtbl TRAMPOLINE trampoline PGSIZE (Z.lor PTE_R PTE_X) ;;
  proc_mapstacks kpgtbl ;;
  ret kpgtbl.

(** [proc_pagetable(p)], given [p->trapframe] and [p->usyscall]. *)
Definition proc_pagetable (trapframe usyscall : Z) : M machine Z :=
  pagetable <- uvmcreate ;;
  if pagetable =? 0 then ret 0 else
  r <- mappages pagetable TRAMPOLINE PGSIZE trampoline (Z.lor PTE_R PTE_X) ;;
  if r <? 0 then uvmfree pagetable 0 ;; ret 0 else
  r <- mappages pagetable TRAPFRAME PGSIZE trapframe (Z.lor PTE_R PTE_W) ;;
  if r <? 0 then
    uvmunmap pagetable TRAMPOLINE 1 false ;;
    uvmfree pagetable 0 ;;
    ret 0
  else
  r <- mappages pagetable USYSCALL PGSIZE usyscall (Z.lor PTE_R PTE_U) ;;
  if r <? 0 then
    uvmunmap pagetable TRAMPOLINE 1 false ;;
    uvmunmap pagetable TRAPFRAME 1 false ;;
    uvmfree pagetable 0 ;;
    ret 0
  else ret pagetable.

Definition proc_freepagetable (pagetable sz : Z) : M machine unit :=
  uvmunmap pagetable TRAMPOLINE 1 false ;;
  uvmunmap pagetable TRAPFRAME 1 false ;;
  uvmunmap pagetable USYSCALL 1 false ;;
  uvmfree pagetable sz.

(** The loop of [pgaccess] from page [i] on, with [left] pages to go: the
    final [bitmasks]. [*pte && PTE_V] is a logical and; [1 << i] is a 32-bit
    [int], on RISC-V shifted by the low five bits of [i]. *)
Fixpoint pgaccess_loop (left : nat) (pagetable va i bitmasks : Z) : M machine Z :=
  match left with
  | O => ret bitmasks
  | S left' =>
      pte <- walk pagetable (u64 (va + i * PGSIZE)) false ;;
      v <- mload64 pte ;;
      if ctrue pte && (ctrue v && ctrue PTE_V) && has_flag v PTE_A then
        mstore64 pte (Z.land v (Z.lnot PTE_A)) ;;
        pgaccess_loop left' pagetable va (i + 1) (Z.lor bitmasks (u32 (Z.shiftl 1 (i mod 32))))
      else pgaccess_loop left' pagetable va (i + 1) bitmasks
  end.

(** [pgaccess] for the page table of the current process. *)
Definition pgaccess_pt (pagetable va n access_abits : Z) : M machine Z :=
  bitmasks <- pgaccess_loop (Z.to_nat n) pagetable va 0 0 ;;
  copyout pagetable access_abits (set32 (replicate 4 0) 0 bitmasks) ;;
  ret 0.

End kvm.

(** ** The process table *)

Section proc.
Context `{Linker} `{Platform} `{Fuel} `{!DiskDriver}.

Definition kvminit : M kernel unit :=
  pt <- mach kvmmake ;;
  modify (fun k => k <| k_kernel_pagetable := pt |>).

(** The TLB flushes are not visible in the model. *)
Definition kvminithart : M kernel unit :=
  pt <- gets k_kernel_pagetable ;;
  mach (set_hart (w_satp (MAKE_SATP pt))).

Definition procinit : M kernel unit :=
  mach (initlock pid_lock "nextpid") ;;
  mach (initlock wait_lock "wait_lock") ;;
  for_each procs (fun i =>
    mach (initlock (proc_lock i) "proc") ;;
    set_proc i (fun p => p <| p_state := UNUSED |> <| p_kstack := KSTACK (Z.of_nat i) |>)).

Definition allocpid : M kernel Z :=
  mach (acquire pid_lock) ;;
  pid <- gets k_nextpid ;;
  modify (fun k => k <| k_nextpid := s32 (pid + 1) |>) ;;
  mach (release pid_lock) ;;
  ret pid.

(** A field of the trapframe of process [i]. *)
Definition tf_get (i : nat) (f : tf_field) : M kernel Z :=
  p <- get_proc i ;; mach (mload64 (p_trapframe p + tf_off f)).

Definition tf_set (i : nat) (f : tf_field) (v : Z) : M kernel unit :=
  p <- get_proc i ;; mach (mstore64 (p_trapframe p + tf_off f) v).

Definition freeproc (i : nat) : M kernel unit :=
  p <- get_proc i ;;
  when (ctrue (p_trapframe p)) (mach (kfree (p_trapframe p))) ;;
  set_proc i (fun p => p <| p_trapframe := 0 |>) ;;
  when (ctrue (p_usyscall p)) (mach (kfree (p_usyscall p))) ;;
  set_proc i (fun p => p <| p_usyscall := 0 |>) ;;
  when (ctrue (p_pagetable p)) (mach (proc_freepagetable (p_pagetable p) (p_sz p))) ;;
  set_proc i (fun p => p <| p_pagetable := 0 |> <| p_sz := 0 |> <| p_pid := 0 |>
    <| p_parent := None |> <| p_name ::= fun s => <[0%nat := 0]> s |> <| p_chan := None |>
    <| p_killed := 0 |> <| p_xstate := 0 |> <| p_state := UNUSED |>).

(** The search of [allocproc]; it leaves the lock of the entry it finds held. *)
Definition allocproc_find (i : nat) : M kernel (option nat) :=
  mach (acquire (proc_lock i)) ;;
  p <- get_proc i ;;
  if decide (p_state p = UNUSED) then ret (Some i)
  else mach (release (proc_lock i)) ;; ret None.

Definition allocproc_fail (i : nat) : M kernel (option nat) :=
  freeproc i ;;
  mach (release (proc_lock i)) ;;
  ret None.

Definition allocproc : M kernel (option nat) :=
  r <- scan procs allocproc_find ;;
  match r with
  | None => ret None
  | Some i =>
      pid <- allocpid ;;
      set_proc i (fun p => p <| p_pid := pid |> <| p_state := USED |>) ;;
      tf <- mach kalloc ;;
      set_proc i (fun p => p <| p_trapframe := tf |>) ;;
      if tf =? 0 then allocproc_fail i else
      us <- mach kalloc ;;
      set_proc i (fun p => p <| p_usyscall := us |>) ;;
      if us =? 0 then allocproc_fail i else
      mach (mem_op (store32 us (u32 pid))) ;;
      pt <- mach (proc_pagetable tf us) ;;
      set_proc i (fun p => p <| p_pagetable := pt |>) ;;
      if pt =? 0 then allocproc_fail i else
      set_proc i (fun p => p <| p_context :=
        mkcontext forkret_addr (u64 (p_kstack p + PGSIZE)) (replicate 12 0) |>) ;;
      ret (Some i)
  end.

Definition initcode : list Z :=
  [0x17; 0x05; 0x00; 0x00; 0x13; 0x05; 0x45; 0x02;
   0x97; 0x05; 0x00; 0x00; 0x93; 0x85; 0x35; 0x02;
   0x93; 0x08; 0x70; 0x00; 0x73; 0x00; 0x00; 0x00;
   0x93; 0x08; 0x20; 0x00; 0x73; 0x00; 0x00; 0x00;
   0xef; 0xf0; 0x9f; 0xff; 0x2f; 0x69; 0x6e; 0x69;
   0x74; 0x00; 0x00; 0x24; 0x00; 0x00; 0x00; 0x00;
   0x00; 0x00; 0x00; 0x00].

(** [safestrcpy(p->name, s, sizeof(p->name))]. *)
Definition set_name (i : nat) (s : list Z) : M kernel unit :=
  p <- get_proc i ;;
  match safestrcpy (p_name p) s 16 with
  | Some nm => set_proc i (fun p => p <| p_name := nm |>)
  | None => undef "safestrcpy"
  end.

Definition userinit : M kernel unit :=
  r <- allocproc ;;
  modify (fun k => k <| k_initproc := r |>) ;;
  i <- deref r ;;
  p <- get_proc i ;;
  mach (uvmfirst (p_pagetable p) initcode (Z.of_nat (length initcode))) ;;
  set_proc i (fun p => p <| p_sz := PGSIZE |>) ;;
  tf_set i tf_epc 0 ;;
  tf_set i tf_sp PGSIZE ;;
  set_name i (cstr "initcode") ;;
  cwd <- namei (chars "/") ;;
  set_proc i (fun p => p <| p_cwd := cwd |> <| p_state := RUNNABLE |>) ;;
  mach (release (proc_lock i)).

Definition growproc (n : Z) : M kernel Z :=
  i <- curproc ;;
  p <- get_proc i ;;
  let sz := p_sz p in
  if 0 <? n then
    sz <- mach (uvmalloc (p_pagetable p) sz (u64 (sz + n)) PTE_W) ;;
    if sz =? 0 then ret (-1) else
    set_proc i (fun p => p <| p_sz := sz |>) ;; ret 0
  else if n <? 0 then
    sz <- mach (uvmdealloc (p_pagetable p) sz (u64 (sz + n))) ;;
    set_proc i (fun p => p <| p_sz := sz |>) ;; ret 0
  else
    set_proc i (fun p => p <| p_sz := sz |>) ;; ret 0.

(** [p->ofile[fd]] *)
Definition get_ofile (i : nat) (fd : Z) : M kernel (option nat) :=
  p <- get_proc i ;; ret (default None (p_ofile p !! Z.to_nat fd)).

Definition set_ofile (i : nat) (fd : Z) (f : option nat) : M kernel unit :=
  set_proc i (fun p => p <| p_ofile ::= fun l => <[Z.to_nat fd := f]> l |>).

Definition fork : M kernel Z :=
  i <- curproc ;;
  r <- allocproc ;;
  match r with
  | None => ret (-1)
  | Some np =>
      p <- get_proc i ;;
      n <- get_proc np ;;
      r <- mach (uvmcopy (p_pagetable p) (p_pagetable n) (p_sz p)) ;;
      if r <? 0 then
        freeproc np ;;
        mach (release (proc_lock np)) ;;
        ret (-1)
      else
      set_proc np (fun q => q <| p_sz := p_sz p |>) ;;
      mach (mem_op (fun m => write_bytes (p_trapframe n)
              (read_bytes m (p_trapframe p) (Z.to_nat sizeof_trapframe)) m)) ;;
      tf_set np (tf_a 0) 0 ;;
      for_each (seqZ 0 NOFILE) (fun fd =>
        r <- get_ofile i fd ;;
        match r with
        | Some f => f' <- filedup f ;; set_ofile np fd (Some f')
        | None => ret tt
        end) ;;
      cwd <- deref (p_cwd p) ;;
      cwd' <- idup cwd ;;
      set_proc np (fun q => q <| p_cwd := Some cwd' |>) ;;
      set_name np (p_name p) ;;
      n <- get_proc np ;;
      let pid := p_pid n in
      mach (release (proc_lock np)) ;;
      mach (acquire wait_lock) ;;
      set_proc np (fun q => q <| p_parent := Some i |>) ;;
      mach (release wait_lock) ;;
      mach (acquire (proc_lock np)) ;;
      set_proc np (fun q => q <| p_state := RUNNABLE |>) ;;
      mach (release (proc_lock np)) ;;
      ret pid
  end.

Definition reparent (i : nat) : M kernel unit :=
  for_each procs (fun pp =>
    q <- get_proc pp ;;
    init <- gets k_initproc ;;
    when (bool_decide (p_parent q = Some i))
      (set_proc pp (fun q => q <| p_parent := init |>) ;;
       wakeup (ch_proc <$> init))).

Definition exit (status : Z) : M kernel unit :=
  i <- curproc ;;
  init <- gets k_initproc ;;
  if decide (init = Some i) then panic "init exiting" else
  for_each (seqZ 0 NOFILE) (fun fd =>
    r <- get_ofile i fd ;;
    match r with
    | Some f => fileclose f ;; set_ofile i fd None
    | None => ret tt
    end) ;;
  begin_op ;;
  p <- get_proc i ;;
  cwd <- deref (p_cwd p) ;;
  iput cwd ;;
  end_op ;;
  set_proc i (fun p => p <| p_cwd := None |>) ;;
  mach (acquire wait_lock) ;;
  reparent i ;;
  p <- get_proc i ;;
  wakeup (ch_proc <$> p_parent p) ;;
  mach (acquire (proc_lock i)) ;;
  set_proc i (fun p => p <| p_xstate := status |> <| p_state := ZOMBIE |>) ;;
  mach (release wait_lock) ;;
  sched ;;
  panic "zombie exit".

(** One pass of [wait] over the table: [inl r] for [return r], [inr h] with
    [havekids]. *)
Fixpoint wait_scan (l : list nat) (i : nat) (addr : Z) (havekids : bool) : M kernel (Z + bool) :=
  match l with
  | [] => ret (inr havekids)
  | pp :: l' =>
      q <- get_proc pp ;;
      if decide (p_parent q = Some i) then
        mach (acquire (proc_lock pp)) ;;
        q <- get_proc pp ;;
        if decide (p_state q = ZOMBIE) then
          let pid := p_pid q in
          p <- get_proc i ;;
          r <- (if addr =? 0 then ret 0
                else mach (copyout (p_pagetable p) addr (set32 (replicate 4 0) 0 (u32 (p_xstate q))))) ;;
          if r <? 0 then
            mach (release (proc_lock pp)) ;;
            mach (release wait_lock) ;;
            ret (inl (-1))
          else
            freeproc pp ;;
            mach (release (proc_lock pp)) ;;
            mach (release wait_lock) ;;
            ret (inl pid)
        else
          mach (release (proc_lock pp)) ;;
          wait_scan l' i addr true
      else wait_scan l' i addr havekids
  end.

Fixpoint wait_loop (fuel : nat) (i : nat) (addr : Z) : M kernel Z :=
  match fuel with
  | O => nofuel
  | S fuel' =>
      r <- wait_scan procs i addr false ;;
      match r with
      | inl pid => ret pid
      | inr havekids =>
          kd <- (if havekids then killed i else ret 1) ;;
          if negb havekids || ctrue kd then mach (release wait_lock) ;; ret (-1) else
          sleep (ch_proc i) wait_lock ;;
          wait_loop fuel' i addr
      end
  end.

Definition wait (addr : Z) : M kernel Z :=
  i <- curproc ;;
  mach (acquire wait_lock) ;;
  wait_loop wait_fuel i addr.

Definition pgaccess (va n access_abits : Z) : M kernel Z :=
  i <- curproc ;;
  p <- get_proc i ;;
  mach (pgaccess_pt (p_pagetable p) va n access_abits).

End proc.
