(* ===== verification/Exec.v ===== *)
(** * [kernel/exec.c]: replacing a process image by an ELF program

    ELF headers are decoded from the bytes [readi] returns; argument strings
    are in pages of physical memory, as [sys_exec] leaves them. *)

From S2P Require Import Prelude Riscv Machine Spinlock PhysMem Kalloc PageTable Vm Kernel Sched Sleeplock Bio Bytes Uart Printf Log Fs Pipe Console File Proc.

Definition ELF_MAGIC : Z := 0x464C457F.

Definition ELF_PROG_LOAD : Z := 1.

(** [struct elfhdr], the fields [exec] uses. *)
Record elfhdr := mkelfhdr { e_magic : Z; e_entry : Z; e_phoff : Z; e_phnum : Z }.

Definition sizeof_elfhdr : Z := 64.

Definition decode_elfhdr (bs : list Z) : elfhdr :=
  mkelfhdr (get32 bs 0) (get64 bs 24) (get64 bs 32) (get16 bs 56).

(** [struct proghdr] *)
Record proghdr := mkproghdr {
  ph_type : Z; ph_flags : Z; ph_off : Z; ph_vaddr : Z; ph_paddr : Z; ph_filesz : Z;
  ph_memsz : Z; ph_align : Z }.

Definition sizeof_proghdr : Z := 56.

Definition decode_proghdr (bs : list Z) : proghdr :=
  mkproghdr (get32 bs 0) (get32 bs 4) (get64 bs 8) (get64 bs 16) (get64 bs 24) (get64 bs 32)
    (get64 bs 40) (get64 bs 48).

Definition flags2perm (flags : Z) : Z :=
  let perm := if ctrue (Z.land flags 0x1) then PTE_X else 0 in
  if ctrue (Z.land flags 0x2) then Z.lor perm PTE_W else perm.

(** The program name: what follows the last slash of the path. *)
Fixpoint last_elem (s last : list Z) : list Z :=
  match s with
  | [] => last
  | c :: s' => last_elem s' (if c =? 47 then s' else last)
  end.

(** The bytes of an array of [uint64]. *)
Definition bytes64 (l : list Z) : list Z := l ≫= (fun v => set_le 8 (replicate 8 0) 0 v).

(** The C string at [a], with its NUL; strings are inside one page. *)
Definition mem_cstr (m : gmap Z Z) (a : Z) : option (list Z) :=
  let bs := read_bytes m a (Z.to_nat PGSIZE) in
  n ← strlen bs; Some (take (Z.to_nat (n + 1)) bs).

Section push_args.
Context `{Linker}.

(** The loop that pushes the argument strings: [sp] and [ustack], or [None]
    for [goto bad]. *)
Fixpoint push_args (argv : list Z) (pagetable sp stackbase : Z) (ustack : list Z) :
    M machine (option (Z * list Z)) :=
  match argv with
  | [] => ret (Some (sp, ustack))
  | a :: argv' =>
      if MAXARG <=? Z.of_nat (length ustack) then ret None else
      s <- gets (fun m => mem_cstr (m_mem m) a) ;;
      match s with
      | None => undef "strlen"
      | Some s =>
          let sp := u64 (sp - Z.of_nat (length s)) in
          let sp := u64 (sp - sp mod 16) in
          if sp <? stackbase then ret None else
          r <- copyout pagetable sp s ;;
          if r <? 0 then ret None else
          push_args argv' pagetable sp stackbase (ustack ++ [sp])
      end
  end.

End push_args.

Section exec.
Context `{Linker} `{Platform} `{Fuel} `{!DiskDriver}.

Fixpoint loadseg_loop (fuel : nat) (pagetable va : Z) (ip : nat) (offset sz i : Z) : M kernel Z :=
  match fuel with
  | O => nofuel
  | S fuel' =>
      if negb (i <? sz) then ret 0 else
      pa <- mach (walkaddr pagetable (u64 (va + i))) ;;
      if pa =? 0 then panic "loadseg: address should exist" else
      let n := if sz - i <? PGSIZE then sz - i else PGSIZE in
      r <- readi ip (PhysDst pa) (u32 (offset + i)) n ;;
      if negb (fst r =? n) then ret (-1) else
      loadseg_loop fuel' pagetable va ip offset sz (u32 (i + PGSIZE))
  end.

Definition loadseg (pagetable va : Z) (ip : nat) (offset sz : Z) : M kernel Z :=
  loadseg_loop (S (S (Z.to_nat (sz / PGSIZE)))) pagetable va ip offset sz 0.

(** The loop over program headers with [left] headers to go: whether it
    completes, and the final [sz]. *)
Fixpoint exec_load (left : nat) (ip : nat) (pagetable off sz : Z) : M kernel (bool * Z) :=
  match left with
  | O => ret (true, sz)
  | S left' =>
      r <- readi ip LocalDst (u32 off) sizeof_proghdr ;;
      if negb (fst r =? sizeof_proghdr) then ret (false, sz) else
      let ph := decode_proghdr (snd r) in
      let off := s32 (off + sizeof_proghdr) in
      if negb (ph_type ph =? ELF_PROG_LOAD) then exec_load left' ip pagetable off sz else
      if ph_memsz ph <? ph_filesz ph then ret (false, sz) else
      if u64 (ph_vaddr ph + ph_memsz ph) <? ph_vaddr ph then ret (false, sz) else
      if negb (ph_vaddr ph mod PGSIZE =? 0) then ret (false, sz) else
      sz1 <- mach (uvmalloc pagetable sz (u64 (ph_vaddr ph + ph_memsz ph)) (flags2perm (ph_flags ph))) ;;
      if sz1 =? 0 then ret (false, sz) else
      l <- loadseg pagetable (ph_vaddr ph) ip (u32 (ph_off ph)) (u32 (ph_filesz ph)) ;;
      if l <? 0 then ret (false, sz1) else
      exec_load left' ip pagetable off sz1
  end.

Definition exec_bad (pagetable sz : Z) (ip : option nat) : M kernel Z :=
  when (ctrue pagetable) (mach (proc_freepagetable pagetable sz)) ;;
  match ip with Some ip => iunlockput ip ;; end_op | None => ret tt end ;;
  ret (-1).

(** The second half of [exec], after the segments are loaded. *)
Definition exec_commit (i : nat) (path : list Z) (argv : list Z) (entry pagetable sz : Z) : M kernel Z :=
  p <- get_proc i ;;
  let oldsz := p_sz p in
  let sz := PGROUNDUP sz in
  sz1 <- mach (uvmalloc pagetable sz (u64 (sz + 2 * PGSIZE)) PTE_W) ;;
  if sz1 =? 0 then exec_bad pagetable sz None else
  let sz := sz1 in
  mach (uvmclear pagetable (u64 (sz - 2 * PGSIZE))) ;;
  let stackbase := u64 (sz - PGSIZE) in
  r <- mach (push_args argv pagetable sz stackbase []) ;;
  match r with
  | None => exec_bad pagetable sz None
  | Some (sp, ustack) =>
      let argc := Z.of_nat (length ustack) in
      if MAXARG <=? argc then undef "ustack index" else
      let sp := u64 (sp - (argc + 1) * 8) in
      let sp := u64 (sp - sp mod 16) in
      if sp <? stackbase then exec_bad pagetable sz None else
      r <- mach (copyout pagetable sp (bytes64 (ustack ++ [0]))) ;;
      if r <? 0 then exec_bad pagetable sz None else
      tf_set i (tf_a 1) sp ;;
      set_name i (last_elem path path ++ [0]) ;;
      p <- get_proc i ;;
      let oldpagetable := p_pagetable p in
      set_proc i (fun p => p <| p_pagetable := pagetable |> <| p_sz := sz |>) ;;
      tf_set i tf_epc entry ;;
      tf_set i tf_sp sp ;;
      mach (proc_freepagetable oldpagetable oldsz) ;;
      p <- get_proc i ;;
      when (p_pid p =? 1) (vmprint (p_pagetable p)) ;;
      ret argc
  end.

Definition exec (path : list Z) (argv : list Z) : M kernel Z :=
  i <- curproc ;;
  begin_op ;;
  r <- namei path ;;
  match r with
  | None => end_op ;; ret (-1)
  | Some ip =>
      ilock (Some ip) ;;
      r <- readi ip LocalDst 0 sizeof_elfhdr ;;
      if negb (fst r =? sizeof_elfhdr) then exec_bad 0 0 (Some ip) else
      let elf := decode_elfhdr (snd r) in
      if negb (e_magic elf =? ELF_MAGIC) then exec_bad 0 0 (Some ip) else
      p <- get_proc i ;;
      pagetable <- mach (proc_pagetable (p_trapframe p) (p_usyscall p)) ;;
      if pagetable =? 0 then exec_bad 0 0 (Some ip) else
      r <- exec_load (Z.to_nat (e_phnum elf)) ip pagetable (s32 (e_phoff elf)) 0 ;;
      let '(ok, sz) := r in
      if negb ok then exec_bad pagetable sz (Some ip) else
      iunlockput ip ;;
      end_op ;;
      i <- curproc ;;
      exec_commit i path argv (e_entry elf) pagetable sz
  end.

End exec.
