(* ===== verification/Sysfile.v ===== *)
(** * System-call arguments ([kernel/syscall.c]), [kernel/sysproc.c] and
      [kernel/sysfile.c]

    A system call returns its C result as a signed number; [syscall] stores
    it in the trapframe modulo [2^64]. *)

From S2P Require Import Prelude Riscv Machine Spinlock PhysMem Kalloc PageTable Vm Kernel Sched Sleeplock Bio Bytes Uart Printf Log Fs Pipe Console File Proc Exec.

(** The flags of [open]. *)
Inductive open_flag := O_RDONLY | O_WRONLY | O_RDWR | O_CREATE | O_TRUNC.

Definition open_flag_val (f : open_flag) : Z :=
  match f with O_RDONLY => 0x000 | O_WRONLY => 0x001 | O_RDWR => 0x002 | O_CREATE => 0x200 | O_TRUNC => 0x400 end.

Coercion open_flag_val : open_flag >-> Z.

Section sysfile.
Context `{Linker} `{Platform} `{Fuel} `{!DiskDriver}.

(** ** Arguments *)

(** The [uint64] at [addr], or [None] for -1. *)
Definition fetchaddr (addr : Z) : M kernel (option Z) :=
  i <- curproc ;;
  p <- get_proc i ;;
  if (p_sz p <=? addr) || (p_sz p <? u64 (addr + 8)) then ret None else
  r <- mach (copyin (p_pagetable p) addr 8) ;;
  if negb (fst r =? 0) then ret None else ret (Some (get64 (snd r) 0)).

(** The result and the bytes stored in [buf]. *)
Definition fetchstr (addr max : Z) : M kernel (Z * list Z) :=
  i <- curproc ;;
  p <- get_proc i ;;
  r <- mach (copyinstr (p_pagetable p) addr max) ;;
  if fst r <? 0 then ret (-1, snd r) else
  match strlen (snd r) with
  | Some n => ret (n, snd r)
  | None => undef "strlen"
  end.

Definition argraw (n : Z) : M kernel Z :=
  i <- curproc ;;
  if (0 <=? n) && (n <=? 5) then tf_get i (tf_a n) else panic "argraw".

Definition argint (n : Z) : M kernel Z := x <- argraw n ;; ret (s32 x).

Definition argaddr (n : Z) : M kernel Z := argraw n.

Definition argstr (n max : Z) : M kernel (Z * list Z) :=
  addr <- argaddr n ;;
  fetchstr addr max.

(** A path argument: its bytes without the NUL, or [None] for an error. *)
Definition argpath (n : Z) : M kernel (option (list Z)) :=
  r <- argstr n MAXPATH ;;
  if fst r <? 0 then ret None else ret (Some (take (Z.to_nat (fst r)) (snd r))).

(** ** kernel/sysproc.c *)

Definition sys_exit : M kernel Z :=
  n <- argint 0 ;;
  exit n ;;
  ret 0.

Definition sys_getpid : M kernel Z :=
  i <- curproc ;;
  p <- get_proc i ;;
  ret (p_pid p).

Definition sys_fork : M kernel Z := fork.

Definition sys_wait : M kernel Z := p <- argaddr 0 ;; wait p.

Definition sys_sbrk : M kernel Z :=
  n <- argint 0 ;;
  i <- curproc ;;
  p <- get_proc i ;;
  let addr := p_sz p in
  r <- growproc n ;;
  if r <? 0 then ret (-1) else ret addr.

(** [ticks - ticks0 < n] compares as [uint]. *)
Fixpoint sys_sleep_loop (fuel : nat) (ticks0 n : Z) : M kernel Z :=
  match fuel with
  | O => nofuel
  | S fuel' =>
      t <- gets k_ticks ;;
      if u32 (t - ticks0) <? u32 n then
        i <- curproc ;;
        kd <- killed i ;;
        if ctrue kd then mach (release tickslock) ;; ret (-1) else
        sleep ch_ticks tickslock ;;
        sys_sleep_loop fuel' ticks0 n
      else
        mach (release tickslock) ;; ret 0
  end.

Definition sys_sleep : M kernel Z :=
  n <- argint 0 ;;
  mach (acquire tickslock) ;;
  ticks0 <- gets k_ticks ;;
  sys_sleep_loop wait_fuel ticks0 n.

Definition sys_pgaccess : M kernel Z :=
  va <- argaddr 0 ;;
  n <- argint 1 ;;
  access_abits <- argaddr 2 ;;
  if (n <=? 0) || (512 <? n) then ret (-1) else
  pgaccess va n access_abits.

Definition sys_kill : M kernel Z := pid <- argint 0 ;; kill pid.

Definition sys_uptime : M kernel Z :=
  mach (acquire tickslock) ;;
  xticks <- gets k_ticks ;;
  mach (release tickslock) ;;
  ret xticks.

(** ** kernel/sysfile.c *)

(** The descriptor and its file, or [None] for -1. *)
Definition argfd (n : Z) : M kernel (option (Z * nat)) :=
  fd <- argint n ;;
  if (fd <? 0) || (NOFILE <=? fd) then ret None else
  i <- curproc ;;
  f <- get_ofile i fd ;;
  ret ((fun f => (fd, f)) <$> f).

Definition fdalloc (f : nat) : M kernel Z :=
  i <- curproc ;;
  r <- scan (seqZ 0 NOFILE) (fun fd =>
    r <- get_ofile i fd ;;
    match r with
    | None => set_ofile i fd (Some f) ;; ret (Some fd)
    | Some _ => ret None
    end) ;;
  ret (default (-1) r).

Definition sys_dup : M kernel Z :=
  r <- argfd 0 ;;
  match r with
  | None => ret (-1)
  | Some (_, f) =>
      fd <- fdalloc f ;;
      if fd <? 0 then ret (-1) else
      filedup f ;;
      ret fd
  end.

Definition sys_read : M kernel Z :=
  p <- argaddr 1 ;;
  n <- argint 2 ;;
  r <- argfd 0 ;;
  match r with None => ret (-1) | Some (_, f) => fileread f p n end.

Definition sys_write : M kernel Z :=
  p <- argaddr 1 ;;
  n <- argint 2 ;;
  r <- argfd 0 ;;
  match r with None => ret (-1) | Some (_, f) => filewrite f p n end.

Definition sys_close : M kernel Z :=
  r <- argfd 0 ;;
  match r with
  | None => ret (-1)
  | Some (fd, f) =>
      i <- curproc ;;
      set_ofile i fd None ;;
      fileclose f ;;
      ret 0
  end.

Definition sys_fstat : M kernel Z :=
  st <- argaddr 1 ;;
  r <- argfd 0 ;;
  match r with None => ret (-1) | Some (_, f) => filestat f st end.

(** [ip->nlink += d; iupdate(ip)] *)
Definition add_nlink (ip : nat) (d : Z) : M kernel unit :=
  set_inode ip (fun x => x <| i_nlink ::= fun n => s16 (n + d) |>) ;;
  iupdate ip.

(** A local [char name[DIRSIZ]]. *)
Definition name_buf : list Z := replicate (Z.to_nat DIRSIZ) 0.

Definition sys_link : M kernel Z :=
  old <- argpath 0 ;;
  match old with
  | None => ret (-1)
  | Some old =>
      new <- argpath 1 ;;
      match new with
      | None => ret (-1)
      | Some new =>
          begin_op ;;
          r <- namei old ;;
          match r with
          | None => end_op ;; ret (-1)
          | Some ip =>
              ilock (Some ip) ;;
              x <- get_inode ip ;;
              if i_type x =? T_DIR then iunlockput ip ;; end_op ;; ret (-1) else
              add_nlink ip 1 ;;
              iunlock (Some ip) ;;
              let bad := ilock (Some ip) ;; add_nlink ip (-1) ;; iunlockput ip ;; end_op ;; ret (-1) in
              r <- nameiparent new name_buf ;;
              match r with
              | (None, _) => bad
              | (Some dp, name) =>
                  ilock (Some dp) ;;
                  d <- get_inode dp ;;
                  x <- get_inode ip ;;
                  r <- (if negb (i_dev d =? i_dev x) then ret (-1)
                        else dirlink dp name (i_inum x)) ;;
                  if r <? 0 then iunlockput dp ;; bad else
                  iunlockput dp ;;
                  iput ip ;;
                  end_op ;;
                  ret 0
              end
          end
      end
  end.

Fixpoint isdirempty_loop (fuel : nat) (dp : nat) (off : Z) : M kernel bool :=
  match fuel with
  | O => nofuel
  | S fuel' =>
      d <- get_inode dp ;;
      if negb (off <? i_size d) then ret true else
      r <- readi dp LocalDst off sizeof_dirent ;;
      if negb (fst r =? sizeof_dirent) then panic "isdirempty: readi" else
      if negb (de_inum (decode_dirent (snd r)) =? 0) then ret false else
      isdirempty_loop fuel' dp (u32 (off + sizeof_dirent))
  end.

Definition isdirempty (dp : nat) : M kernel bool :=
  d <- get_inode dp ;;
  isdirempty_loop (S (S (Z.to_nat (i_size d / sizeof_dirent)))) dp (2 * sizeof_dirent).

Definition sys_unlink_bad (dp : nat) : M kernel Z :=
  iunlockput dp ;;
  end_op ;;
  ret (-1).

(** The part of [sys_unlink] after the entry was found at [off]. *)
Definition unlink_entry (dp ip : nat) (off : Z) : M kernel Z :=
  ilock (Some ip) ;;
  x <- get_inode ip ;;
  if i_nlink x <? 1 then panic "unlink: nlink < 1" else
  empty <- (if i_type x =? T_DIR then isdirempty ip else ret true) ;;
  if negb empty then iunlockput ip ;; sys_unlink_bad dp else
  w <- writei dp (LocalSrc (replicate (Z.to_nat sizeof_dirent) 0)) off sizeof_dirent ;;
  if negb (w =? sizeof_dirent) then panic "unlink: writei" else
  x <- get_inode ip ;;
  when (i_type x =? T_DIR) (add_nlink dp (-1)) ;;
  iunlockput dp ;;
  add_nlink ip (-1) ;;
  iunlockput ip ;;
  end_op ;;
  ret 0.

Definition sys_unlink : M kernel Z :=
  path <- argpath 0 ;;
  match path with
  | None => ret (-1)
  | Some path =>
      begin_op ;;
      r <- nameiparent path name_buf ;;
      match r with
      | (None, _) => end_op ;; ret (-1)
      | (Some dp, name) =>
          ilock (Some dp) ;;
          c1 <- namecmp name (cstr ".") ;;
          if c1 =? 0 then sys_unlink_bad dp else
          c2 <- namecmp name (cstr "..") ;;
          if c2 =? 0 then sys_unlink_bad dp else
          r <- dirlookup dp name ;;
          match r with
          | None => sys_unlink_bad dp
          | Some (ip, off) => unlink_entry dp ip off
          end
      end
  end.

(** The part of [create] that makes the new inode [ip] in [dp]. *)
Definition create_new (dp ip : nat) (name : list Z) (type major minor : Z) : M kernel (option nat) :=
  ilock (Some ip) ;;
  set_inode ip (fun x => x <| i_major := major |> <| i_minor := minor |> <| i_nlink := 1 |>) ;;
  iupdate ip ;;
  let fail :=
    set_inode ip (fun x => x <| i_nlink := 0 |>) ;; iupdate ip ;; iunlockput ip ;; iunlockput dp ;; ret None in
  x <- get_inode ip ;;
  d <- get_inode dp ;;
  dots <- (if type =? T_DIR then
             r <- dirlink ip (cstr ".") (i_inum x) ;;
             if r <? 0 then ret (-1) else dirlink ip (cstr "..") (i_inum d)
           else ret 0) ;;
  if dots <? 0 then fail else
  r <- dirlink dp name (i_inum x) ;;
  if r <? 0 then fail else
  when (type =? T_DIR) (add_nlink dp 1) ;;
  iunlockput dp ;;
  ret (Some ip).

Definition create (path : list Z) (type major minor : Z) : M kernel (option nat) :=
  r <- nameiparent path name_buf ;;
  match r with
  | (None, _) => ret None
  | (Some dp, name) =>
      ilock (Some dp) ;;
      r <- dirlookup dp name ;;
      match r with
      | Some (ip, _) =>
          iunlockput dp ;;
          ilock (Some ip) ;;
          x <- get_inode ip ;;
          if (type =? T_FILE) && ((i_type x =? T_FILE) || (i_type x =? T_DEVICE)) then ret (Some ip) else
          iunlockput ip ;;
          ret None
      | None =>
          d <- get_inode dp ;;
          r <- ialloc (i_dev d) type ;;
          match r with
          | None => iunlockput dp ;; ret None
          | Some ip => create_new dp ip name type major minor
          end
      end
  end.

(** The inode [sys_open] opens, locked. *)
Definition open_inode (path : list Z) (omode : Z) : M kernel (option nat) :=
  if ctrue (Z.land omode O_CREATE) then create path T_FILE 0 0 else
  r <- namei path ;;
  match r with
  | None => ret None
  | Some ip =>
      ilock (Some ip) ;;
      x <- get_inode ip ;;
      if (i_type x =? T_DIR) && negb (omode =? O_RDONLY)
      then iunlockput ip ;; ret None
      else ret (Some ip)
  end.

Definition open_file (ip f : nat) (fd omode : Z) : M kernel Z :=
  x <- get_inode ip ;;
  (if i_type x =? T_DEVICE
   then set_file f (fun g => g <| f_type := FD_DEVICE |> <| f_major := i_major x |>)
   else set_file f (fun g => g <| f_type := FD_INODE |> <| f_off := 0 |>)) ;;
  set_file f (fun g => g <| f_ip := Some ip |>
    <| f_readable := if ctrue (Z.land omode O_WRONLY) then 0 else 1 |>
    <| f_writable := if ctrue (Z.land omode O_WRONLY) || ctrue (Z.land omode O_RDWR) then 1 else 0 |>) ;;
  when (ctrue (Z.land omode O_TRUNC) && (i_type x =? T_FILE)) (itrunc ip) ;;
  iunlock (Some ip) ;;
  end_op ;;
  ret fd.

Definition sys_open : M kernel Z :=
  omode <- argint 1 ;;
  path <- argpath 0 ;;
  match path with
  | None => ret (-1)
  | Some path =>
      begin_op ;;
      r <- open_inode path omode ;;
      match r with
      | None => end_op ;; ret (-1)
      | Some ip =>
          x <- get_inode ip ;;
          if (i_type x =? T_DEVICE) && ((i_major x <? 0) || (NDEV <=? i_major x))
          then iunlockput ip ;; end_op ;; ret (-1) else
          r <- filealloc ;;
          match r with
          | None => iunlockput ip ;; end_op ;; ret (-1)
          | Some f =>
              fd <- fdalloc f ;;
              if fd <? 0 then fileclose f ;; iunlockput ip ;; end_op ;; ret (-1) else
              open_file ip f fd omode
          end
      end
  end.

Definition sys_mkdir : M kernel Z :=
  begin_op ;;
  path <- argpath 0 ;;
  r <- match path with None => ret None | Some path => create path T_DIR 0 0 end ;;
  match r with
  | None => end_op ;; ret (-1)
  | Some ip => iunlockput ip ;; end_op ;; ret 0
  end.

Definition sys_mknod : M kernel Z :=
  begin_op ;;
  major <- argint 1 ;;
  minor <- argint 2 ;;
  path <- argpath 0 ;;
  r <- match path with None => ret None | Some path => create path T_DEVICE (s16 major) (s16 minor) end ;;
  match r with
  | None => end_op ;; ret (-1)
  | Some ip => iunlockput ip ;; end_op ;; ret 0
  end.

Definition sys_chdir : M kernel Z :=
  i <- curproc ;;
  begin_op ;;
  path <- argpath 0 ;;
  r <- (match path with None => ret None | Some path => namei path end) ;;
  match r with
  | None => end_op ;; ret (-1)
  | Some ip =>
      ilock (Some ip) ;;
      x <- get_inode ip ;;
      if negb (i_type x =? T_DIR) then iunlockput ip ;; end_op ;; ret (-1) else
      iunlock (Some ip) ;;
      p <- get_proc i ;;
      cwd <- deref (p_cwd p) ;;
      iput cwd ;;
      end_op ;;
      set_proc i (fun p => p <| p_cwd := Some ip |>) ;;
      ret 0
  end.

(** The loop of [sys_exec] that fetches the arguments, with [left] entries
    of [argv] to go: whether it succeeded, and the pages allocated. *)
Fixpoint sys_exec_args (left : nat) (uargv i : Z) (argv : list Z) : M kernel (bool * list Z) :=
  match left with
  | O => ret (false, argv)
  | S left' =>
      u <- fetchaddr (u64 (uargv + 8 * i)) ;;
      match u with
      | None => ret (false, argv)
      | Some uarg =>
          if uarg =? 0 then ret (true, argv) else
          pg <- mach kalloc ;;
          if pg =? 0 then ret (false, argv) else
          s <- fetchstr uarg PGSIZE ;;
          mach (mem_op (write_bytes pg (snd s))) ;;
          if fst s <? 0 then ret (false, argv ++ [pg]) else
          sys_exec_args left' uargv (i + 1) (argv ++ [pg])
      end
  end.

Definition sys_exec : M kernel Z :=
  uargv <- argaddr 1 ;;
  path <- argpath 0 ;;
  match path with
  | None => ret (-1)
  | Some path =>
      r <- sys_exec_args (Z.to_nat MAXARG) uargv 0 [] ;;
      let '(ok, argv) := r in
      result <- (if ok : bool then exec path argv else ret (-1)) ;;
      for_each argv (fun pg => mach (kfree pg)) ;;
      ret result
  end.

Definition int_bytes (x : Z) : list Z := set32 (replicate 4 0) 0 (u32 x).

Definition sys_pipe : M kernel Z :=
  i <- curproc ;;
  fdarray <- argaddr 0 ;;
  r <- pipealloc ;;
  match r with
  | None => ret (-1)
  | Some (rf, wf) =>
      fd0 <- fdalloc rf ;;
      fd1 <- (if fd0 <? 0 then ret (-1) else fdalloc wf) ;;
      if fd1 <? 0 then
        when (0 <=? fd0) (set_ofile i fd0 None) ;;
        fileclose rf ;;
        fileclose wf ;;
        ret (-1)
      else
      p <- get_proc i ;;
      r <- mach (copyout (p_pagetable p) fdarray (int_bytes fd0)) ;;
      r <- (if r <? 0 then ret (-1)
            else mach (copyout (p_pagetable p) (u64 (fdarray + 4)) (int_bytes fd1))) ;;
      if r <? 0 then
        set_ofile i fd0 None ;;
        set_ofile i fd1 None ;;
        fileclose rf ;;
        fileclose wf ;;
        ret (-1)
      else ret 0
  end.

End sysfile.
