(* ===== verification/Virtio.v ===== *)
(** * The virtio disk driver ([kernel/virtio_disk.c], [kernel/virtio.h])

    The queue pages are in physical memory, where the device reads and
    writes them; [struct disk] is part of the kernel state. What the device
    does happens while the driver is switched out, or before an interrupt.
    Memory barriers have no effect in the model. *)

From S2P Require Import Prelude Riscv Machine Spinlock PhysMem Kalloc PageTable Vm Kernel Sched Sleeplock Bio.

(** The memory-mapped registers and their offsets. *)
Inductive virtio_reg :=
| VIRTIO_MMIO_MAGIC_VALUE
| VIRTIO_MMIO_VERSION
| VIRTIO_MMIO_DEVICE_ID
| VIRTIO_MMIO_VENDOR_ID
| VIRTIO_MMIO_DEVICE_FEATURES
| VIRTIO_MMIO_DRIVER_FEATURES
| VIRTIO_MMIO_QUEUE_SEL
| VIRTIO_MMIO_QUEUE_NUM_MAX
| VIRTIO_MMIO_QUEUE_NUM
| VIRTIO_MMIO_QUEUE_READY
| VIRTIO_MMIO_QUEUE_NOTIFY
| VIRTIO_MMIO_INTERRUPT_STATUS
| VIRTIO_MMIO_INTERRUPT_ACK
| VIRTIO_MMIO_STATUS
| VIRTIO_MMIO_QUEUE_DESC_LOW
| VIRTIO_MMIO_QUEUE_DESC_HIGH
| VIRTIO_MMIO_DRIVER_DESC_LOW
| VIRTIO_MMIO_DRIVER_DESC_HIGH
| VIRTIO_MMIO_DEVICE_DESC_LOW
| VIRTIO_MMIO_DEVICE_DESC_HIGH.

Definition virtio_reg_off (r : virtio_reg) : Z :=
  match r with
  | VIRTIO_MMIO_MAGIC_VALUE => 0x000
  | VIRTIO_MMIO_VERSION => 0x004
  | VIRTIO_MMIO_DEVICE_ID => 0x008
  | VIRTIO_MMIO_VENDOR_ID => 0x00c
  | VIRTIO_MMIO_DEVICE_FEATURES => 0x010
  | VIRTIO_MMIO_DRIVER_FEATURES => 0x020
  | VIRTIO_MMIO_QUEUE_SEL => 0x030
  | VIRTIO_MMIO_QUEUE_NUM_MAX => 0x034
  | VIRTIO_MMIO_QUEUE_NUM => 0x038
  | VIRTIO_MMIO_QUEUE_READY => 0x044
  | VIRTIO_MMIO_QUEUE_NOTIFY => 0x050
  | VIRTIO_MMIO_INTERRUPT_STATUS => 0x060
  | VIRTIO_MMIO_INTERRUPT_ACK => 0x064
  | VIRTIO_MMIO_STATUS => 0x070
  | VIRTIO_MMIO_QUEUE_DESC_LOW => 0x080
  | VIRTIO_MMIO_QUEUE_DESC_HIGH => 0x084
  | VIRTIO_MMIO_DRIVER_DESC_LOW => 0x090
  | VIRTIO_MMIO_DRIVER_DESC_HIGH => 0x094
  | VIRTIO_MMIO_DEVICE_DESC_LOW => 0x0a0
  | VIRTIO_MMIO_DEVICE_DESC_HIGH => 0x0a4
  end.

(** Bits of the status register. *)
Inductive virtio_status :=
| VIRTIO_CONFIG_S_ACKNOWLEDGE | VIRTIO_CONFIG_S_DRIVER | VIRTIO_CONFIG_S_DRIVER_OK | VIRTIO_CONFIG_S_FEATURES_OK.

Definition virtio_status_val (s : virtio_status) : Z :=
  match s with
  | VIRTIO_CONFIG_S_ACKNOWLEDGE => 1
  | VIRTIO_CONFIG_S_DRIVER => 2
  | VIRTIO_CONFIG_S_DRIVER_OK => 4
  | VIRTIO_CONFIG_S_FEATURES_OK => 8
  end.

Coercion virtio_status_val : virtio_status >-> Z.

(** The feature bits the driver refuses: [VIRTIO_BLK_F_RO], [.._SCSI],
    [.._CONFIG_WCE], [.._MQ], [VIRTIO_F_ANY_LAYOUT],
    [VIRTIO_RING_F_EVENT_IDX], [VIRTIO_RING_F_INDIRECT_DESC]. *)
Definition refused_features : list Z := [5; 7; 11; 12; 27; 29; 28].

Definition NUM : Z := 8.

(** Flags of a descriptor, and the types of a request. *)
Inductive desc_flag := VRING_DESC_F_NEXT | VRING_DESC_F_WRITE.

Definition desc_flag_val (f : desc_flag) : Z := match f with VRING_DESC_F_NEXT => 1 | VRING_DESC_F_WRITE => 2 end.

Coercion desc_flag_val : desc_flag >-> Z.

Inductive blk_type := VIRTIO_BLK_T_IN | VIRTIO_BLK_T_OUT.

Definition blk_type_val (t : blk_type) : Z := match t with VIRTIO_BLK_T_IN => 0 | VIRTIO_BLK_T_OUT => 1 end.

Coercion blk_type_val : blk_type >-> Z.

(** Addresses of static objects the device is told about: [b->data],
    [disk.ops[i]] and [disk.info[i].status]. *)
Class DiskAddrs := {
  buf_data_addr : nat -> Z;
  ops_addr : Z -> Z;
  status_addr : Z -> Z
}.

Section virtio.
Context `{Linker} `{Platform} `{Fuel} `{DiskAddrs}.

(** [*R(r)] *)
Definition R_read (r : virtio_reg) : M kernel Z := v <- reg_read (VIRTIO0 + virtio_reg_off r) ;; ret (u32 v).

Definition R_write (r : virtio_reg) (v : Z) : M kernel unit := reg_write (VIRTIO0 + virtio_reg_off r) (u32 v).

Definition get_disk : M kernel disk := gets k_disk.

Definition set_disk (f : disk -> disk) : M kernel unit := modify (fun k => k <| k_disk ::= f |>).

(** Resetting the device and negotiating features: the final [status]. *)
Definition virtio_negotiate : M kernel Z :=
  R_write VIRTIO_MMIO_STATUS 0 ;;
  let status := VIRTIO_CONFIG_S_ACKNOWLEDGE in
  R_write VIRTIO_MMIO_STATUS status ;;
  let status := Z.lor status VIRTIO_CONFIG_S_DRIVER in
  R_write VIRTIO_MMIO_STATUS status ;;
  features <- R_read VIRTIO_MMIO_DEVICE_FEATURES ;;
  R_write VIRTIO_MMIO_DRIVER_FEATURES
    (foldl (fun fs b => Z.land fs (Z.lnot (Z.shiftl 1 b))) features refused_features) ;;
  let status := Z.lor status VIRTIO_CONFIG_S_FEATURES_OK in
  R_write VIRTIO_MMIO_STATUS status ;;
  status <- R_read VIRTIO_MMIO_STATUS ;;
  if negb (ctrue (Z.land status VIRTIO_CONFIG_S_FEATURES_OK))
  then panic "virtio disk FEATURES_OK unset" else
  ret status.

(** Allocating the queue pages and telling the device about them. *)
Definition virtio_queue : M kernel unit :=
  desc <- mach kalloc ;;
  set_disk (fun d => d <| d_desc := desc |>) ;;
  avail <- mach kalloc ;;
  set_disk (fun d => d <| d_avail := avail |>) ;;
  used <- mach kalloc ;;
  set_disk (fun d => d <| d_used := used |>) ;;
  if (desc =? 0) || (avail =? 0) || (used =? 0) then panic "virtio disk kalloc" else
  mach (mem_op (memset desc 0 PGSIZE)) ;;
  mach (mem_op (memset avail 0 PGSIZE)) ;;
  mach (mem_op (memset used 0 PGSIZE)) ;;
  R_write VIRTIO_MMIO_QUEUE_NUM NUM ;;
  R_write VIRTIO_MMIO_QUEUE_DESC_LOW desc ;;
  R_write VIRTIO_MMIO_QUEUE_DESC_HIGH (Z.shiftr desc 32) ;;
  R_write VIRTIO_MMIO_DRIVER_DESC_LOW avail ;;
  R_write VIRTIO_MMIO_DRIVER_DESC_HIGH (Z.shiftr avail 32) ;;
  R_write VIRTIO_MMIO_DEVICE_DESC_LOW used ;;
  R_write VIRTIO_MMIO_DEVICE_DESC_HIGH (Z.shiftr used 32) ;;
  R_write VIRTIO_MMIO_QUEUE_READY 0x1.

(** [virtio_disk_init]; the four identification registers are read in order,
    stopping at the first that does not match. *)
Definition disk_init : M kernel unit :=
  mach (initlock vdisk_lock "virtio_disk") ;;
  bad <- scan [(VIRTIO_MMIO_MAGIC_VALUE, 0x74726976); (VIRTIO_MMIO_VERSION, 2);
               (VIRTIO_MMIO_DEVICE_ID, 2); (VIRTIO_MMIO_VENDOR_ID, 0x554d4551)]
    (fun '(r, expected) => v <- R_read r ;; ret (if v =? expected then None else Some tt)) ;;
  match bad with
  | Some _ => panic "could not find virtio disk"
  | None =>
      status <- virtio_negotiate ;;
      R_write VIRTIO_MMIO_QUEUE_SEL 0 ;;
      ready <- R_read VIRTIO_MMIO_QUEUE_READY ;;
      if ctrue ready then panic "virtio disk should not be ready" else
      max <- R_read VIRTIO_MMIO_QUEUE_NUM_MAX ;;
      if max =? 0 then panic "virtio disk has no queue 0" else
      if max <? NUM then panic "virtio disk max queue too short" else
      virtio_queue ;;
      set_disk (fun d => d <| d_free := replicate (Z.to_nat NUM) 1 |>) ;;
      R_write VIRTIO_MMIO_STATUS (Z.lor status VIRTIO_CONFIG_S_DRIVER_OK)
  end.

(** ** Descriptors *)

(** [disk.free[i]] *)
Definition desc_free (d : disk) (i : Z) : bool := ctrue (default 0 (d_free d !! Z.to_nat i)).

Definition alloc_desc : M kernel Z :=
  r <- scan (seqZ 0 NUM) (fun i =>
         d <- get_disk ;;
         if desc_free d i then
           set_disk (fun d => d <| d_free ::= fun l => <[Z.to_nat i := 0]> l |>) ;;
           ret (Some i)
         else ret None) ;;
  ret (default (-1) r).

(** The address of [disk.desc[i]]; its fields are [addr] at 0, [len] at 8,
    [flags] at 12 and [next] at 14. *)
Definition desc_addr (d : disk) (i : Z) : Z := d_desc d + 16 * i.

Definition set_desc (d : disk) (i addr len flags next : Z) : M kernel unit :=
  mach (mem_op (store_le 8 (desc_addr d i) addr)) ;;
  mach (mem_op (store_le 4 (desc_addr d i + 8) len)) ;;
  mach (mem_op (store_le 2 (desc_addr d i + 12) flags)) ;;
  mach (mem_op (store_le 2 (desc_addr d i + 14) next)).

Definition desc_flags (d : disk) (m : gmap Z Z) (i : Z) : Z := load_le 2 m (desc_addr d i + 12).

Definition desc_next (d : disk) (m : gmap Z Z) (i : Z) : Z := load_le 2 m (desc_addr d i + 14).

Definition free_desc (i : Z) : M kernel unit :=
  if NUM <=? i then panic "free_desc 1" else
  d <- get_disk ;;
  if desc_free d i then panic "free_desc 2" else
  set_desc d i 0 0 0 0 ;;
  set_disk (fun d => d <| d_free ::= fun l => <[Z.to_nat i := 1]> l |>) ;;
  wakeup (Some ch_disk_free).

(** Every round frees a descriptor that was not free, so at most [NUM]
    rounds end without a panic. *)
Fixpoint free_chain_loop (fuel : nat) (i : Z) : M kernel unit :=
  match fuel with
  | O => nofuel
  | S fuel' =>
      d <- get_disk ;;
      flag <- gets (fun k => desc_flags d (m_mem (k_m k)) i) ;;
      nxt <- gets (fun k => desc_next d (m_mem (k_m k)) i) ;;
      free_desc i ;;
      if ctrue (Z.land flag VRING_DESC_F_NEXT) then free_chain_loop fuel' nxt else ret tt
  end.

Definition free_chain (i : Z) : M kernel unit := free_chain_loop (S (Z.to_nat NUM)) i.

(** The loop of [alloc3_desc]; [idx] are the descriptors allocated so far. *)
Fixpoint alloc3_loop (left : nat) (idx : list Z) : M kernel (option (list Z)) :=
  match left with
  | O => ret (Some idx)
  | S left' =>
      i <- alloc_desc ;;
      if i <? 0 then for_each idx free_desc ;; ret None
      else alloc3_loop left' (idx ++ [i])
  end.

Definition alloc3_desc : M kernel (option (list Z)) := alloc3_loop 3 [].

(** ** Transfers *)

Fixpoint rw_alloc (fuel : nat) : M kernel (list Z) :=
  match fuel with
  | O => nofuel
  | S fuel' =>
      r <- alloc3_desc ;;
      match r with
      | Some idx => ret idx
      | None => sleep ch_disk_free vdisk_lock ;; rw_alloc fuel'
      end
  end.

(** Formatting the request for buffer [b] in descriptors [i0], [i1], [i2]. *)
Definition rw_format (b : nat) (write : bool) (sector i0 i1 i2 : Z) : M kernel unit :=
  let req := mkreq (if write then VIRTIO_BLK_T_OUT else VIRTIO_BLK_T_IN) 0 sector in
  set_disk (fun d => d <| d_ops ::= fun l => <[Z.to_nat i0 := req]> l |>) ;;
  d <- get_disk ;;
  set_desc d i0 (ops_addr i0) 16 VRING_DESC_F_NEXT i1 ;;
  set_desc d i1 (buf_data_addr b) BSIZE
    (Z.lor (if write then 0 else VRING_DESC_F_WRITE) VRING_DESC_F_NEXT) i2 ;;
  set_disk (fun d => d <| d_info_status ::= fun l => <[Z.to_nat i0 := 0xff]> l |>) ;;
  set_desc d i2 (status_addr i0) 1 VRING_DESC_F_WRITE 0 ;;
  set_buf b (fun x => x <| b_disk := 1 |>) ;;
  set_disk (fun d => d <| d_info_b ::= fun l => <[Z.to_nat i0 := Some b]> l |>).

(** Publishing the chain in the avail ring: [idx] at 2, [ring] at 4. *)
Definition rw_publish (i0 : Z) : M kernel unit :=
  d <- get_disk ;;
  idx <- gets (fun k => load_le 2 (m_mem (k_m k)) (d_avail d + 2)) ;;
  mach (mem_op (store_le 2 (d_avail d + 4 + 2 * (idx mod NUM)) i0)) ;;
  mach (mem_op (store_le 2 (d_avail d + 2) (u16 (idx + 1)))) ;;
  R_write VIRTIO_MMIO_QUEUE_NOTIFY 0.

Definition disk_rw (b : nat) (write : bool) : M kernel unit :=
  x <- get_buf b ;;
  let sector := u32 (b_blockno x * (BSIZE / 512)) in
  mach (acquire vdisk_lock) ;;
  idx <- rw_alloc wait_fuel ;;
  match idx with
  | [i0; i1; i2] =>
      rw_format b write sector i0 i1 i2 ;;
      rw_publish i0 ;;
      iter wait_fuel (fun _ =>
        x <- get_buf b ;;
        if b_disk x =? 1 then sleep (ch_buf b) vdisk_lock ;; continue tt else leave tt) tt ;;
      set_disk (fun d => d <| d_info_b ::= fun l => <[Z.to_nat i0 := None]> l |>) ;;
      free_chain i0 ;;
      mach (release vdisk_lock)
  | _ => undef "idx[3]"
  end.

(** The completion loop: [used->idx] at 2, [used->ring[k].id] at [4 + 8 k].
    The driver has at most [NUM] requests in flight. *)
Fixpoint disk_intr_loop (fuel : nat) : M kernel unit :=
  match fuel with
  | O => nofuel
  | S fuel' =>
      d <- get_disk ;;
      idx <- gets (fun k => load_le 2 (m_mem (k_m k)) (d_used d + 2)) ;;
      if d_used_idx d =? idx then ret tt else
      id <- gets (fun k => load_le 4 (m_mem (k_m k)) (d_used d + 4 + 8 * (d_used_idx d mod NUM))) ;;
      match d_info_status d !! Z.to_nat id, d_info_b d !! Z.to_nat id with
      | Some st, Some b =>
          if negb (st =? 0) then panic "virtio_disk_intr status" else
          b <- deref b ;;
          set_buf b (fun x => x <| b_disk := 0 |>) ;;
          wakeup (Some (ch_buf b)) ;;
          set_disk (fun d => d <| d_used_idx ::= fun i => u16 (i + 1) |>) ;;
          disk_intr_loop fuel'
      | _, _ => undef "info index"
      end
  end.

Definition disk_intr : M kernel unit :=
  mach (acquire vdisk_lock) ;;
  st <- R_read VIRTIO_MMIO_INTERRUPT_STATUS ;;
  R_write VIRTIO_MMIO_INTERRUPT_ACK (Z.land st 0x3) ;;
  disk_intr_loop wait_fuel ;;
  mach (release vdisk_lock).

(** The driver implements the interface the rest of the kernel uses. *)
#[export] Instance virtio_driver : DiskDriver := {
  virtio_disk_init := disk_init;
  virtio_disk_rw := disk_rw;
  virtio_disk_intr := disk_intr
}.

End virtio.
