(* ===== verification/Trap.v ===== *)
(** * System-call dispatch, traps, interrupts and boot

    [syscall] of [kernel/syscall.c], [kernel/trap.c], [kernel/plic.c],
    [forkret] of [kernel/proc.c], [kernel/start.c] and [kernel/main.c]. *)

From S2P Require Import Prelude Riscv Machine Spinlock PhysMem Kalloc PageTable Vm Kernel Sched Sleeplock Bio Bytes Uart Printf Log Fs Pipe Console File Proc Exec Sysfile.

(** ** kernel/syscall.h *)

Inductive sysnum :=
| SYS_fork | SYS_exit | SYS_wait | SYS_pipe | SYS_read | SYS_kill | SYS_exec | SYS_fstat
| SYS_chdir | SYS_dup | SYS_getpid | SYS_sbrk | SYS_sleep | SYS_uptime | SYS_open | SYS_write
| SYS_mknod | SYS_unlink | SYS_link | SYS_mkdir | SYS_close | SYS_pgaccess.

Definition sys_no (c : sysnum) : Z :=
  match c with
  | SYS_fork => 1 | SYS_exit => 2 | SYS_wait => 3 | SYS_pipe => 4 | SYS_read => 5
  | SYS_kill => 6 | SYS_exec => 7 | SYS_fstat => 8 | SYS_chdir => 9 | SYS_dup => 10
  | SYS_getpid => 11 | SYS_sbrk => 12 | SYS_sleep => 13 | SYS_uptime => 14 | SYS_open => 15
  | SYS_write => 16 | SYS_mknod => 17 | SYS_unlink => 18 | SYS_link => 19 | SYS_mkdir => 20
  | SYS_close => 21 | SYS_pgaccess => 30
  end.

(** The array [syscalls]: index 0 and 22 to 29 hold null pointers. *)
Definition syscalls : list (option sysnum) :=
  [None; Some SYS_fork; Some SYS_exit; Some SYS_wait; Some SYS_pipe; Some SYS_read;
   Some SYS_kill; Some SYS_exec; Some SYS_fstat; Some SYS_chdir; Some SYS_dup; Some SYS_getpid;
   Some SYS_sbrk; Some SYS_sleep; Some SYS_uptime; Some SYS_open; Some SYS_write; Some SYS_mknod;
   Some SYS_unlink; Some SYS_link; Some SYS_mkdir; Some SYS_close;
   None; None; None; None; None; None; None; None; Some SYS_pgaccess].

(** The handler [syscall] selects for the contents of register [a7]. *)
Definition syscall_lookup (a7 : Z) : option sysnum :=
  let num := s32 a7 in
  if (0 <? num) && (num <? Z.of_nat (length syscalls))
  then default None (syscalls !! Z.to_nat num) else None.

Section trap.
Context `{Linker} `{Platform} `{Fuel} `{!DiskDriver}.

Definition run_syscall (c : sysnum) : M kernel Z :=
  match c with
  | SYS_fork => sys_fork | SYS_exit => sys_exit | SYS_wait => sys_wait | SYS_pipe => sys_pipe
  | SYS_read => sys_read | SYS_kill => sys_kill | SYS_exec => sys_exec | SYS_fstat => sys_fstat
  | SYS_chdir => sys_chdir | SYS_dup => sys_dup | SYS_getpid => sys_getpid | SYS_sbrk => sys_sbrk
  | SYS_sleep => sys_sleep | SYS_uptime => sys_uptime | SYS_open => sys_open
  | SYS_write => sys_write | SYS_mknod => sys_mknod | SYS_unlink => sys_unlink
  | SYS_link => sys_link | SYS_mkdir => sys_mkdir | SYS_close => sys_close
  | SYS_pgaccess => sys_pgaccess
  end.

Definition syscall : M kernel unit :=
  i <- curproc ;;
  a7 <- tf_get i (tf_a 7) ;;
  match syscall_lookup a7 with
  | Some c =>
      r <- run_syscall c ;;
      tf_set i (tf_a 0) (u64 r)
  | None =>
      p <- get_proc i ;;
      printf ("%d %s: unknown sys call %d" ++ newline)
        [AInt (p_pid p); AStr (Some (cstring (p_name p))); AInt (s32 a7)] ;;
      tf_set i (tf_a 0) (u64 (-1))
  end.

(** ** kernel/plic.c *)

Definition plicinit : M kernel unit :=
  reg_write (PLIC + UART0_IRQ * 4) 1 ;;
  reg_write (PLIC + VIRTIO0_IRQ * 4) 1.

Definition plicinithart : M kernel unit :=
  hart <- mach cpuid ;;
  reg_write (PLIC_SENABLE hart) (Z.lor (Z.shiftl 1 UART0_IRQ) (Z.shiftl 1 VIRTIO0_IRQ)) ;;
  reg_write (PLIC_SPRIORITY hart) 0.

Definition plic_claim : M kernel Z :=
  hart <- mach cpuid ;;
  irq <- reg_read (PLIC_SCLAIM hart) ;;
  ret (s32 irq).

Definition plic_complete (irq : Z) : M kernel unit :=
  hart <- mach cpuid ;;
  reg_write (PLIC_SCLAIM hart) (u32 irq).

(** ** kernel/trap.c *)

Definition trapinit : M kernel unit := mach (initlock tickslock "time").

Definition trapinithart : M kernel unit := mach (set_hart (w_stvec kernelvec)).

Definition clockintr : M kernel unit :=
  mach (acquire tickslock) ;;
  modify (fun k => k <| k_ticks ::= fun t => u32 (t + 1) |>) ;;
  wakeup (Some ch_ticks) ;;
  mach (release tickslock).

(** What [scause] says the trap is. *)
Inductive cause := ExternalIntr | TimerIntr | OtherCause.

Definition classify (scause : Z) : cause :=
  if ctrue (Z.land scause 0x8000000000000000) && (Z.land scause 0xff =? 9) then ExternalIntr
  else if scause =? 0x8000000000000001 then TimerIntr
  else OtherCause.

Definition devintr : M kernel Z :=
  h <- mach get_hart ;;
  match classify (r_scause h) with
  | ExternalIntr =>
      irq <- plic_claim ;;
      (if irq =? UART0_IRQ then uartintr
       else if irq =? VIRTIO0_IRQ then virtio_disk_intr
       else when (ctrue irq) (printf ("unexpected interrupt irq=%d" ++ newline) [AInt irq])) ;;
      when (ctrue irq) (plic_complete irq) ;;
      ret 1
  | TimerIntr =>
      id <- mach cpuid ;;
      when (id =? 0) clockintr ;;
      mach (set_hart (fun h => w_sip (Z.land (r_sip h) (Z.lnot 2)) h)) ;;
      ret 2
  | OtherCause => ret 0
  end.

(** [usertrapret] ends in a jump to [userret] in the trampoline page: its
    address and the argument [satp]. *)
Definition usertrapret : M kernel (Z * Z) :=
  i <- curproc ;;
  mach (set_hart intr_off) ;;
  mach (set_hart (w_stvec (u64 (TRAMPOLINE + (uservec - trampoline))))) ;;
  h <- mach get_hart ;;
  p <- get_proc i ;;
  tf_set i tf_kernel_satp (r_satp h) ;;
  tf_set i tf_kernel_sp (u64 (p_kstack p + PGSIZE)) ;;
  tf_set i tf_kernel_trap usertrap_addr ;;
  tf_set i tf_kernel_hartid (r_tp h) ;;
  mach (set_hart (fun h =>
    w_sstatus (Z.lor (Z.land (r_sstatus h) (Z.lnot SSTATUS_SPP)) SSTATUS_SPIE) h)) ;;
  epc <- tf_get i tf_epc ;;
  mach (set_hart (w_sepc epc)) ;;
  ret (u64 (TRAMPOLINE + (userret - trampoline)), MAKE_SATP (p_pagetable p)).

Definition usertrap : M kernel (Z * Z) :=
  h <- mach get_hart ;;
  if ctrue (Z.land (r_sstatus h) SSTATUS_SPP) then panic "usertrap: not from user mode" else
  mach (set_hart (w_stvec kernelvec)) ;;
  i <- curproc ;;
  h <- mach get_hart ;;
  tf_set i tf_epc (r_sepc h) ;;
  which_dev <-
    (if r_scause h =? 8 then
       kd <- killed i ;;
       when (ctrue kd) (exit (-1)) ;;
       epc <- tf_get i tf_epc ;;
       tf_set i tf_epc (u64 (epc + 4)) ;;
       mach (set_hart intr_on) ;;
       syscall ;;
       ret 0
     else
       which_dev <- devintr ;;
       if negb (which_dev =? 0) then ret which_dev else
       h <- mach get_hart ;;
       p <- get_proc i ;;
       printf ("usertrap(): unexpected scause %p pid=%d" ++ newline) [APtr (r_scause h); AInt (p_pid p)] ;;
       printf ("            sepc=%p stval=%p" ++ newline) [APtr (r_sepc h); APtr (r_stval h)] ;;
       setkilled i ;;
       ret 0) ;;
  kd <- killed i ;;
  when (ctrue kd) (exit (-1)) ;;
  when (which_dev =? 2) yield ;;
  usertrapret.

Definition kerneltrap : M kernel unit :=
  h <- mach get_hart ;;
  let sepc := r_sepc h in
  let sstatus := r_sstatus h in
  let scause := r_scause h in
  if negb (ctrue (Z.land sstatus SSTATUS_SPP)) then panic "kerneltrap: not from supervisor mode" else
  if intr_get h then panic "kerneltrap: interrupts enabled" else
  which_dev <- devintr ;;
  if which_dev =? 0 then
    printf ("scause %p" ++ newline) [APtr scause] ;;
    h <- mach get_hart ;;
    printf ("sepc=%p stval=%p" ++ newline) [APtr (r_sepc h); APtr (r_stval h)] ;;
    panic "kerneltrap"
  else
  (if which_dev =? 2 then
     me <- mach myproc ;;
     match me with
     | None => ret tt
     | Some i => p <- get_proc i ;; when (bool_decide (p_state p = RUNNING)) yield
     end
   else ret tt) ;;
  mach (set_hart (w_sepc sepc)) ;;
  mach (set_hart (w_sstatus sstatus)).

(** [forkret] of [kernel/proc.c]. *)
Definition forkret : M kernel (Z * Z) :=
  i <- curproc ;;
  mach (release (proc_lock i)) ;;
  first <- gets k_first ;;
  when (ctrue first)
    (modify (fun k => k <| k_first := 0 |>) ;;
     fsinit ROOTDEV) ;;
  usertrapret.

(** ** kernel/main.c *)

(** [main] on the boot hart; [n] bounds the passes of the scheduler. *)
Definition main_boot : M kernel unit :=
  consoleinit ;;
  printfinit ;;
  printf newline [] ;;
  printf ("xv6 kernel is booting" ++ newline) [] ;;
  printf newline [] ;;
  mach kinit ;;
  kvminit ;;
  kvminithart ;;
  procinit ;;
  trapinit ;;
  trapinithart ;;
  plicinit ;;
  plicinithart ;;
  binit ;;
  iinit ;;
  fileinit ;;
  virtio_disk_init ;;
  userinit.

(** The other harts, once [started] is set. *)
Definition main_other : M kernel unit :=
  id <- mach cpuid ;;
  printf ("hart %d starting" ++ newline) [AInt id] ;;
  kvminithart ;;
  trapinithart ;;
  plicinithart.

Definition main (started : bool) (n : nat) : M kernel unit :=
  id <- mach cpuid ;;
  (if id =? 0 then main_boot else if started then main_other else spin) ;;
  scheduler n.

End trap.

(** ** kernel/start.c

    Machine-mode set-up of a hart: registers, the CLINT's timer and this
    hart's row of [timer_scratch]. *)

Section start.
Context `{Linker}.

(** The registers after [timerinit], what it stores in [MTIMECMP], and the
    two words of [timer_scratch[id]] it sets; [mtime] is the CLINT's clock
    and [scratch] the address of the row. *)
Definition timerinit (mtime scratch : Z) (h : hart) : hart * Z * (Z * Z) :=
  let id := s32 (r_mhartid h) in
  let interval := 1000000 in
  let h := w_mscratch scratch h in
  let h := w_mtvec timervec h in
  let h := w_mstatus (Z.lor (r_mstatus h) MSTATUS_MIE) h in
  let h := w_mie (Z.lor (r_mie h) MIE_MTIE) h in
  (h, u64 (mtime + interval), (CLINT_MTIMECMP id, interval)).

(** The registers [start] has set when it executes [mret]. *)
Definition start (mtime scratch : Z) (h : hart) : hart :=
  let x := Z.land (r_mstatus h) (Z.lnot MSTATUS_MPP_MASK) in
  let h := w_mstatus (Z.lor x MSTATUS_MPP_S) h in
  let h := w_mepc main_addr h in
  let h := w_satp 0 h in
  let h := w_medeleg 0xffff h in
  let h := w_mideleg 0xffff h in
  let h := w_sie (Z.lor (Z.lor (Z.lor (r_sie h) SIE_SEIE) SIE_STIE) SIE_SSIE) h in
  let h := w_pmpaddr0 0x3fffffffffffff h in
  let h := w_pmpcfg0 0xf h in
  let '(h, _, _) := timerinit mtime scratch h in
  w_tp (s32 (r_mhartid h)) h.

End start.
