(* ===== verification/Asm.v ===== *)
(** * The assembly code of the kernel

    [kernel/entry.S], [kernel/swtch.S], [kernel/kernelvec.S] and
    [kernel/trampoline.S] as lists of instructions, with the semantics of the
    RISC-V instructions that they use. The code runs from its first
    instruction to the one that leaves it: a jump, a call or a return from a
    trap. There is no cache of translations, so that [sfence.vma] does
    nothing; the code has no addresses, so that a call leaves [ra], which the
    callee may change, as it is. *)

From stdpp Require Import functions.
From S2P Require Import Prelude Riscv PhysMem.

(** ** Registers and instructions *)

Inductive reg :=
| ra | sp | gp | tp | t0 | t1 | t2 | s0 | s1 | a0 | a1 | a2 | a3 | a4 | a5 | a6 | a7
| s2 | s3 | s4 | s5 | s6 | s7 | s8 | s9 | s10 | s11 | t3 | t4 | t5 | t6.

#[export] Instance reg_eq_dec : EqDecision reg.
Proof. solve_decision. Defined.

(** The control registers that the code uses. *)
Inductive csr := csr_mhartid | csr_mscratch | csr_sip | csr_sscratch | csr_satp.

#[export] Instance csr_eq_dec : EqDecision csr.
Proof. solve_decision. Defined.

Inductive instr :=
| SD (rs : reg) (off : Z) (base : reg)    (* sd rs, off(base) *)
| LD (rd : reg) (off : Z) (base : reg)    (* ld rd, off(base) *)
| LI (rd : reg) (v : Z)                   (* li, and la of a symbol at v *)
| ADDI (rd rs : reg) (imm : Z)
| ADD (rd rs1 rs2 : reg)
| MUL (rd rs1 rs2 : reg)
| CSRR (rd : reg) (c : csr)
| CSRW (c : csr) (rs : reg)
| CSRRW (rd : reg) (c : csr) (rs : reg)
| SFENCE                                  (* sfence.vma zero, zero *)
| JR (rs : reg)
| CALL (f : string)
| RET
| SRET
| MRET.

(** The state of a hart; [a_mmode]: in machine mode, where addresses are not
    translated. *)
Record astate := mkastate { a_reg : reg -> Z; a_csr : csr -> Z; a_mem : gmap Z Z; a_mmode : bool }.

#[export] Instance eta_astate : Eta astate := fun s => mkastate (a_reg s) (a_csr s) (a_mem s) (a_mmode s).

(** How the code is left. *)
Inductive leave_by := ByJump (pc : Z) | ByCall (f : string) | BySret | ByMret.

(** [mmu satp va] is the physical address of [va] under the page table in
    [satp]. *)
Section asm.
Context (mmu : Z -> Z -> option Z).

(** The physical address of an aligned doubleword. *)
Definition paddr (s : astate) (va : Z) : option Z :=
  if negb (va mod 8 =? 0) then None else if a_mmode s then Some va else mmu (a_csr s csr_satp) va.

Definition set_reg (r : reg) (v : Z) (s : astate) : astate := s <| a_reg ::= <[r := v]> |>.

Definition set_csr (c : csr) (v : Z) (s : astate) : astate := s <| a_csr ::= <[c := v]> |>.

(** An instruction that does not leave the code; [None] is a fault. *)
Definition exec_instr (i : instr) (s : astate) : option astate :=
  match i with
  | SD rs off b => pa ← paddr s (u64 (a_reg s b + off)); Some (s <| a_mem ::= store64 pa (a_reg s rs) |>)
  | LD rd off b => pa ← paddr s (u64 (a_reg s b + off)); Some (set_reg rd (load64 (a_mem s) pa) s)
  | LI rd v => Some (set_reg rd (u64 v) s)
  | ADDI rd rs imm => Some (set_reg rd (u64 (a_reg s rs + imm)) s)
  | ADD rd rs1 rs2 => Some (set_reg rd (u64 (a_reg s rs1 + a_reg s rs2)) s)
  | MUL rd rs1 rs2 => Some (set_reg rd (u64 (a_reg s rs1 * a_reg s rs2)) s)
  | CSRR rd c => Some (set_reg rd (a_csr s c) s)
  | CSRW c rs => Some (set_csr c (a_reg s rs) s)
  | CSRRW rd c rs => Some (set_reg rd (a_csr s c) (set_csr c (a_reg s rs) s))
  | _ => Some s
  end.

(** How the code is left, the state there, and the instructions to which a
    call returns. *)
Fixpoint run (code : list instr) (s : astate) : option (leave_by * astate * list instr) :=
  match code with
  | [] => None
  | JR rs :: code => Some (ByJump (a_reg s rs), s, code)
  | RET :: code => Some (ByJump (a_reg s ra), s, code)
  | CALL f :: code => Some (ByCall f, s, code)
  | SRET :: code => Some (BySret, s, code)
  | MRET :: code => Some (ByMret, s, code)
  | i :: code => s' ← exec_instr i s; run code s'
  end.
End asm.

(** ** The structures that the code fills ([kernel/proc.h]) *)

(** [struct context]: the register in each doubleword. *)
Definition context_regs : list reg := [ra; sp; s0; s1; s2; s3; s4; s5; s6; s7; s8; s9; s10; s11].

(** [struct trapframe]: the registers from offset 40 on. *)
Definition trapframe_regs : list reg :=
  [ra; sp; gp; tp; t0; t1; t2; s0; s1; a0; a1; a2; a3; a4; a5; a6; a7; s2; s3; s4; s5; s6; s7; s8; s9; s10; s11; t3; t4; t5; t6].

(** ** [kernel/entry.S] *)

(** [stack0] is the address of the array. *)
Definition _entry (stack0 : Z) : list instr :=
  [LI sp stack0; LI a0 (1024 * 4); CSRR a1 csr_mhartid; ADDI a1 a1 1; MUL a0 a0 a1; ADD sp sp a0; CALL "start"].

(** ** [kernel/swtch.S] *)

Definition swtch : list instr :=
  [SD ra 0 a0; SD sp 8 a0; SD s0 16 a0; SD s1 24 a0; SD s2 32 a0; SD s3 40 a0; SD s4 48 a0; SD s5 56 a0;
   SD s6 64 a0; SD s7 72 a0; SD s8 80 a0; SD s9 88 a0; SD s10 96 a0; SD s11 104 a0;
   LD ra 0 a1; LD sp 8 a1; LD s0 16 a1; LD s1 24 a1; LD s2 32 a1; LD s3 40 a1; LD s4 48 a1; LD s5 56 a1;
   LD s6 64 a1; LD s7 72 a1; LD s8 80 a1; LD s9 88 a1; LD s10 96 a1; LD s11 104 a1;
   RET].

(** ** [kernel/kernelvec.S] *)

Definition kernelvec : list instr :=
  [ADDI sp sp (-256);
   SD ra 0 sp; SD sp 8 sp; SD gp 16 sp; SD tp 24 sp; SD t0 32 sp; SD t1 40 sp; SD t2 48 sp; SD s0 56 sp;
   SD s1 64 sp; SD a0 72 sp; SD a1 80 sp; SD a2 88 sp; SD a3 96 sp; SD a4 104 sp; SD a5 112 sp; SD a6 120 sp;
   SD a7 128 sp; SD s2 136 sp; SD s3 144 sp; SD s4 152 sp; SD s5 160 sp; SD s6 168 sp; SD s7 176 sp; SD s8 184 sp;
   SD s9 192 sp; SD s10 200 sp; SD s11 208 sp; SD t3 216 sp; SD t4 224 sp; SD t5 232 sp; SD t6 240 sp;
   CALL "kerneltrap";
   LD ra 0 sp; LD sp 8 sp; LD gp 16 sp; LD t0 32 sp; LD t1 40 sp; LD t2 48 sp; LD s0 56 sp;
   LD s1 64 sp; LD a0 72 sp; LD a1 80 sp; LD a2 88 sp; LD a3 96 sp; LD a4 104 sp; LD a5 112 sp; LD a6 120 sp;
   LD a7 128 sp; LD s2 136 sp; LD s3 144 sp; LD s4 152 sp; LD s5 160 sp; LD s6 168 sp; LD s7 176 sp; LD s8 184 sp;
   LD s9 192 sp; LD s10 200 sp; LD s11 208 sp; LD t3 216 sp; LD t4 224 sp; LD t5 232 sp; LD t6 240 sp;
   ADDI sp sp 256;
   SRET].

Definition timervec : list instr :=
  [CSRRW a0 csr_mscratch a0; SD a1 0 a0; SD a2 8 a0; SD a3 16 a0;
   LD a1 24 a0; LD a2 32 a0; LD a3 0 a1; ADD a3 a3 a2; SD a3 0 a1;
   LI a1 2; CSRW csr_sip a1;
   LD a3 16 a0; LD a2 8 a0; LD a1 0 a0; CSRRW a0 csr_mscratch a0;
   MRET].

(** ** [kernel/trampoline.S] *)

Definition uservec : list instr :=
  [CSRW csr_sscratch a0; LI a0 TRAPFRAME;
   SD ra 40 a0; SD sp 48 a0; SD gp 56 a0; SD tp 64 a0; SD t0 72 a0; SD t1 80 a0; SD t2 88 a0; SD s0 96 a0;
   SD s1 104 a0; SD a1 120 a0; SD a2 128 a0; SD a3 136 a0; SD a4 144 a0; SD a5 152 a0; SD a6 160 a0; SD a7 168 a0;
   SD s2 176 a0; SD s3 184 a0; SD s4 192 a0; SD s5 200 a0; SD s6 208 a0; SD s7 216 a0; SD s8 224 a0; SD s9 232 a0;
   SD s10 240 a0; SD s11 248 a0; SD t3 256 a0; SD t4 264 a0; SD t5 272 a0; SD t6 280 a0;
   CSRR t0 csr_sscratch; SD t0 112 a0;
   LD sp 8 a0; LD tp 32 a0; LD t0 16 a0; LD t1 0 a0;
   SFENCE; CSRW csr_satp t1; SFENCE;
   JR t0].

Definition userret : list instr :=
  [SFENCE; CSRW csr_satp a0; SFENCE; LI a0 TRAPFRAME;
   LD ra 40 a0; LD sp 48 a0; LD gp 56 a0; LD tp 64 a0; LD t0 72 a0; LD t1 80 a0; LD t2 88 a0; LD s0 96 a0;
   LD s1 104 a0; LD a1 120 a0; LD a2 128 a0; LD a3 136 a0; LD a4 144 a0; LD a5 152 a0; LD a6 160 a0; LD a7 168 a0;
   LD s2 176 a0; LD s3 184 a0; LD s4 192 a0; LD s5 200 a0; LD s6 208 a0; LD s7 216 a0; LD s8 224 a0; LD s9 232 a0;
   LD s10 240 a0; LD s11 248 a0; LD t3 256 a0; LD t4 264 a0; LD t5 272 a0; LD t6 280 a0;
   LD a0 112 a0;
   SRET].
