(* ===== verification/AsmSpec.v ===== *)
(** * What the assembly code does

    The registers that a context switch, a trap from user space and a trap
    in the kernel save and restore. *)

From stdpp Require Import functions.
From S2P Require Import Prelude Riscv PhysMem Asm.

(** ** Saving and loading registers *)

Definition saves (b : reg) (l : list (reg * Z)) : list instr := (fun '(r, o) => SD r o b) <$> l.

Definition loads (b : reg) (l : list (reg * Z)) : list instr := (fun '(r, o) => LD r o b) <$> l.

Definition store_all (base : Z) (l : list (reg * Z)) (f : reg -> Z) (m : gmap Z Z) : gmap Z Z :=
  foldl (fun m '(r, o) => store64 (base + o) (f r) m) m l.

Definition load_all (base : Z) (l : list (reg * Z)) (m : gmap Z Z) (f : reg -> Z) : reg -> Z :=
  foldl (fun f '(r, o) => <[r := load64 m (base + o)]> f) f l.

(** A list of registers and the offsets of their doublewords. *)
Definition layout (l : list (reg * Z)) : Prop := NoDup l.*1 /\ NoDup l.*2 /\ Forall (fun x => x.2 mod 8 = 0) l.

#[export] Instance layout_dec l : Decision (layout l).
Proof. unfold layout. apply _. Defined.

(** The registers [rs] from offset [o] on. *)
Definition at_offsets (o : Z) (rs : list reg) : list (reg * Z) := imap (fun i r => (r, o + 8 * Z.of_nat i)) rs.

Definition regs_ok (s : astate) : Prop := forall r, 0 <= a_reg s r < 2 ^ 64.

(** The [n] bytes at virtual address [va] are at [pa]. *)
Definition maps (mmu : Z -> Z -> option Z) (s : astate) (va pa n : Z) : Prop :=
  forall o, 0 <= o < n -> o mod 8 = 0 -> paddr mmu s (u64 (va + o)) = Some (pa + o).

Section save.
Context (mmu : Z -> Z -> option Z).
Implicit Types (s : astate) (l : list (reg * Z)).

Lemma run_saves b base n rest : forall l s,
  maps mmu s (a_reg s b) base n -> Forall (fun x => 0 <= x.2 < n /\ x.2 mod 8 = 0) l ->
  run mmu (saves b l ++ rest) s = run mmu rest (s <| a_mem := store_all base l (a_reg s) (a_mem s) |>).
Proof.
  induction l as [|[r o] l IH]; intros s Hm Hl; [by destruct s|]. apply Forall_cons in Hl as [[Ho H8] Hl]. cbn [snd] in *.
  cbn [saves fmap list_fmap app run exec_instr]. rewrite (Hm o Ho H8). cbn [mbind option_bind]. rewrite (IH (s <| a_mem ::= _ |>)); done.
Qed.

Lemma run_loads b base n rest : forall l s,
  maps mmu s (a_reg s b) base n -> Forall (fun x => 0 <= x.2 < n /\ x.2 mod 8 = 0) l ->
  (forall o, (b, o) ∈ l -> load64 (a_mem s) (base + o) = a_reg s b) ->
  run mmu (loads b l ++ rest) s = run mmu rest (s <| a_reg := load_all base l (a_mem s) (a_reg s) |>).
Proof.
  induction l as [|[r o] l IH]; intros s Hm Hl Hb; [by destruct s|]. apply Forall_cons in Hl as [[Ho H8] Hl]. cbn [snd] in *.
  cbn [loads fmap list_fmap app run exec_instr]. rewrite (Hm o Ho H8). cbn [mbind option_bind].
  assert (a_reg (set_reg r (load64 (a_mem s) (base + o)) s) b = a_reg s b) as Eb.
  { unfold set_reg. cbn. destruct (decide (b = r)) as [->|Hne]; [rewrite fn_lookup_insert; apply Hb; left|by rewrite fn_lookup_insert_ne]. }
  rewrite IH; [done|by rewrite Eb|done|]. intros o' Ho'. rewrite Eb. apply Hb. by right.
Qed.

End save.

(** What the doublewords hold. *)
Lemma load_store_all_out base f a : forall l m,
  (forall r o, (r, o) ∈ l -> a + 8 <= base + o \/ base + o + 8 <= a) -> load64 (store_all base l f m) a = load64 m a.
Proof.
  induction l as [|[r o] l IH]; intros m Hl; [done|]. cbn [store_all foldl]. fold (store_all base l f (store64 (base + o) (f r) m)).
  rewrite IH by (intros r' o' Hin; apply (Hl r'); by right). apply load64_store64_out. specialize (Hl r o (list_elem_of_here _ _)). lia.
Qed.

Lemma layout_apart l r o r' o' : layout l -> (r, o) ∈ l -> (r', o') ∈ l -> o <> o' -> o + 8 <= o' \/ o' + 8 <= o.
Proof.
  intros (_ & _ & H8) Hin Hin' Hne. rewrite Forall_forall in H8. pose proof (H8 _ Hin) as E1. pose proof (H8 _ Hin') as E2. cbn in *.
  Z.div_mod_to_equations. lia.
Qed.

Lemma load_store_all base f r o : forall l m,
  layout l -> (r, o) ∈ l -> 0 <= f r < 2 ^ 64 -> load64 (store_all base l f m) (base + o) = f r.
Proof.
  induction l as [|[r' o'] l IH]; intros m Hlay Hin Hf; [by apply elem_of_nil in Hin|].
  cbn [store_all foldl]. fold (store_all base l f (store64 (base + o') (f r') m)). pose proof Hlay as (N1 & N2 & H8).
  apply NoDup_cons in N1 as [Hr N1]. apply NoDup_cons in N2 as [Ho N2]. pose proof H8 as H8'. apply Forall_cons in H8' as [_ H8']. cbn [snd fst] in *.
  apply elem_of_cons in Hin as [[= -> ->]|Hin]; [|by apply IH].
  rewrite load_store_all_out, load64_store64; [done|done|]. intros r1 o1 Hin1.
  assert (o1 <> o') by (intros ->; apply Ho; apply list_elem_of_fmap; by exists (r1, o')).
  destruct (layout_apart _ r' o' r1 o1 Hlay) as [?|?]; [left|by right|done|lia|lia].
Qed.

Lemma load_all_other base m r : forall l f, r ∉ l.*1 -> load_all base l m f r = f r.
Proof.
  induction l as [|[r' o] l IH]; intros f Hr; [done|]. cbn [load_all foldl]. fold (load_all base l m (<[r' := load64 m (base + o)]> f)).
  apply not_elem_of_cons in Hr as [Hne Hr]. rewrite IH by done. by rewrite fn_lookup_insert_ne.
Qed.

Lemma load_all_in base m r o : forall l f, NoDup l.*1 -> (r, o) ∈ l -> load_all base l m f r = load64 m (base + o).
Proof.
  induction l as [|[r' o'] l IH]; intros f Hnd Hin; [by apply elem_of_nil in Hin|].
  cbn [load_all foldl]. fold (load_all base l m (<[r' := load64 m (base + o')]> f)). apply NoDup_cons in Hnd as [Hr Hnd].
  apply elem_of_cons in Hin as [[= -> ->]|Hin]; [|by apply IH]. rewrite load_all_other by done. by rewrite fn_lookup_insert.
Qed.

Lemma at_offsets_elem o rs r a : (r, a) ∈ at_offsets o rs <-> exists i, rs !! i = Some r /\ a = o + 8 * Z.of_nat i.
Proof.
  unfold at_offsets. rewrite list_elem_of_lookup. setoid_rewrite list_lookup_imap. split.
  - intros (i & Hi). apply fmap_Some in Hi as (x & Hx & [= -> ->]). eauto.
  - intros (i & Hi & ->). exists i. by rewrite Hi.
Qed.

Lemma maps_ext mmu s s' va pa n :
  a_csr s' csr_satp = a_csr s csr_satp -> a_mmode s' = a_mmode s -> maps mmu s va pa n -> maps mmu s' va pa n.
Proof. intros Ec Em Hm o Ho H8. rewrite <- (Hm o Ho H8). unfold paddr. by rewrite Ec, Em. Qed.

Lemma maps_sub mmu s va pa n va' d n' : maps mmu s va pa n -> 0 <= d -> d mod 8 = 0 -> d + n' <= n -> va' = va + d -> maps mmu s va' (pa + d) n'.
Proof.
  intros Hm Hd H8 Hn -> o Ho Ho8. rewrite <- !Z.add_assoc. apply Hm; [lia|]. rewrite Z.add_mod, H8, Ho8 by lia. done.
Qed.

(** Memory outside the [n] bytes at [a]. *)
Definition same_outside (a n : Z) (m m' : gmap Z Z) : Prop :=
  forall b, b + 8 <= a \/ a + n <= b -> load64 m' b = load64 m b.

Lemma at_offsets_range o n rs : 0 <= o -> o mod 8 = 0 -> o + 8 * Z.of_nat (length rs) <= n ->
  Forall (fun x => 0 <= x.2 < n /\ x.2 mod 8 = 0) (at_offsets o rs).
Proof.
  intros Ho H8 Hn. apply Forall_forall. intros [r a] (i & Hi & ->)%at_offsets_elem. apply lookup_lt_Some in Hi. cbn.
  split; [lia|]. rewrite Z.mul_comm, Z_mod_plus_full. done.
Qed.

Lemma store_all_outside a o rs f m n :
  0 <= o -> o + 8 * Z.of_nat (length rs) <= n -> same_outside a n m (store_all a (at_offsets o rs) f m).
Proof.
  intros Ho Hn b Hb. apply load_store_all_out. intros r x (i & Hi & ->)%at_offsets_elem. apply lookup_lt_Some in Hi. lia.
Qed.

Section spec.
Context (mmu : Z -> Z -> option Z).
Implicit Types s : astate.

(** C25: [swtch(old, new)] saves [ra], [sp] and the callee-saved registers in
    [*old], in the order of [struct context], loads them from [*new], and
    returns to the [ra] that it loaded; it changes no other register and no
    memory outside [*old]. So a later switch to [old] resumes there with the
    same registers. *)
Theorem swtch_spec s old new :
  a_reg s a0 = old -> a_reg s a1 = new -> regs_ok s -> maps mmu s old old 112 -> maps mmu s new new 112 ->
  old + 112 <= new \/ new + 112 <= old ->
  exists s', run mmu swtch s = Some (ByJump (load64 (a_mem s) new), s', []) /\
    (forall i r, context_regs !! i = Some r ->
       load64 (a_mem s') (old + 8 * Z.of_nat i) = a_reg s r /\ a_reg s' r = load64 (a_mem s) (new + 8 * Z.of_nat i)) /\
    (forall r, r ∉ context_regs -> a_reg s' r = a_reg s r) /\ a_csr s' = a_csr s /\ same_outside old 112 (a_mem s) (a_mem s').
Proof.
  intros E0 E1 Hr Hmo Hmn Hd. set (l := at_offsets 0 context_regs).
  assert (layout l) as Hlay by (apply (bool_decide_unpack _); by vm_compute).
  assert (Forall (fun x => 0 <= x.2 < 112 /\ x.2 mod 8 = 0) l) as Hrng by (by apply at_offsets_range).
  set (m' := store_all old l (a_reg s) (a_mem s)). set (u1 := s <| a_mem := m' |>).
  assert (same_outside old 112 (a_mem s) m') as Hout by (by apply store_all_outside).
  exists (u1 <| a_reg := load_all new l m' (a_reg s) |>).
  assert (forall i r, context_regs !! i = Some r -> (r, 8 * Z.of_nat i) ∈ l) as Hin by (intros i r Hi; apply at_offsets_elem; eauto).
  assert (forall i r, context_regs !! i = Some r -> load64 m' (new + 8 * Z.of_nat i) = load64 (a_mem s) (new + 8 * Z.of_nat i)) as Hnew.
  { intros i r Hi. apply lookup_lt_Some in Hi. cbn in Hi. apply Hout. lia. }
  assert (forall i r, context_regs !! i = Some r -> load_all new l m' (a_reg s) r = load64 (a_mem s) (new + 8 * Z.of_nat i)) as Hload.
  { intros i r Hi. rewrite (load_all_in _ _ _ (8 * Z.of_nat i)); [by eapply Hnew|apply Hlay|by apply Hin]. }
  split_and!; [| | |done|done].
  - change swtch with (saves a0 l ++ loads a1 l ++ [RET]). rewrite (run_saves _ _ old 112) by (by rewrite ?E0).
    rewrite (run_loads _ _ new 112); [|cbn; by rewrite E1|done|].
    + change (Some (ByJump (load_all new l m' (a_reg s) ra), u1 <| a_reg := load_all new l m' (a_reg s) |>, @nil instr) =
        Some (ByJump (load64 (a_mem s) new), u1 <| a_reg := load_all new l m' (a_reg s) |>, [])).
      rewrite (Hload 0%nat ra eq_refl). by rewrite Z.add_0_r.
    + intros o (i & Hi & _)%at_offsets_elem. by do 14 (destruct i as [|i]; [done|]).
  - intros i r Hi. split; [|by apply Hload]. change (load64 m' (old + 8 * Z.of_nat i) = a_reg s r). 
    apply (load_store_all old (a_reg s) r (8 * Z.of_nat i) l); [exact Hlay|by apply Hin|apply Hr].
  - intros r Hnr. change (load_all new l m' (a_reg s) r = a_reg s r). apply load_all_other. intros (x & -> & (j & Hj)%list_elem_of_lookup)%list_elem_of_fmap. apply Hnr.
    destruct x as [r' o]. assert ((r', o) ∈ l) as (i & Hi & _)%at_offsets_elem by (by eapply list_elem_of_lookup_2).
    by eapply list_elem_of_lookup_2.
Qed.

Lemma a_reg_set r v s : a_reg (set_reg r v s) = <[r := v]> (a_reg s).
Proof. done. Qed.

Lemma a_reg_put f s : a_reg (s <| a_reg := f |>) = f.
Proof. done. Qed.

(** ** Single instructions *)

Lemma run_ld s rd off b rest va pa n :
  maps mmu s va pa n -> a_reg s b = va -> 0 <= off < n -> off mod 8 = 0 ->
  run mmu (LD rd off b :: rest) s = run mmu rest (set_reg rd (load64 (a_mem s) (pa + off)) s).
Proof. intros Hm Hb Ho H8. cbn [run exec_instr]. by rewrite Hb, (Hm off Ho H8). Qed.

Lemma run_sd s rs off b rest va pa n :
  maps mmu s va pa n -> a_reg s b = va -> 0 <= off < n -> off mod 8 = 0 ->
  run mmu (SD rs off b :: rest) s = run mmu rest (s <| a_mem ::= store64 (pa + off) (a_reg s rs) |>).
Proof. intros Hm Hb Ho H8. cbn [run exec_instr]. by rewrite Hb, (Hm off Ho H8). Qed.

Lemma run_addi s rd rs imm rest : run mmu (ADDI rd rs imm :: rest) s = run mmu rest (set_reg rd (u64 (a_reg s rs + imm)) s).
Proof. done. Qed.

Lemma run_call s f rest : run mmu (CALL f :: rest) s = Some (ByCall f, s, rest).
Proof. done. Qed.

Lemma run_sret s rest : run mmu (SRET :: rest) s = Some (BySret, s, rest).
Proof. done. Qed.

(** ** Traps from user space *)

(** The page table in [satp] maps the trap frame at [tf]. *)
Definition maps_trapframe (satp tf : Z) : Prop :=
  forall o, 0 <= o < 288 -> o mod 8 = 0 -> mmu satp (TRAPFRAME + o) = Some (tf + o).

Lemma trapframe_maps s tf : a_mmode s = false -> maps_trapframe (a_csr s csr_satp) tf -> maps mmu s TRAPFRAME tf 288.
Proof.
  intros Hm Ht o Ho H8. unfold maps_trapframe in Ht. change TRAPFRAME with 274877898752 in *. unfold paddr. rewrite u64_small by lia.
  rewrite Hm, (Ht o Ho H8). rewrite Z.add_mod, H8 by lia. done.
Qed.

(** All registers but [a0]. *)
Definition tf_saved : list (reg * Z) := filter (fun x => x.1 <> a0) (at_offsets 40 trapframe_regs).

Lemma tf_saved_layout : layout tf_saved.
Proof. apply (bool_decide_unpack _). by vm_compute. Qed.

Lemma tf_saved_range : Forall (fun x => 0 <= x.2 < 288 /\ x.2 mod 8 = 0) tf_saved.
Proof. apply (bool_decide_unpack _). by vm_compute. Qed.

Lemma tf_saved_elem i r : trapframe_regs !! i = Some r -> r <> a0 -> (r, 40 + 8 * Z.of_nat i) ∈ tf_saved.
Proof. intros Hi Hr. apply list_elem_of_filter. split; [done|]. apply at_offsets_elem. eauto. Qed.

Lemma tf_a0 i : trapframe_regs !! i = Some a0 -> i = 9%nat.
Proof. by do 31 (destruct i as [|i]; [done|]). Qed.

Lemma tf_all r : exists i, trapframe_regs !! i = Some r.
Proof. apply list_elem_of_lookup. destruct r; apply (bool_decide_unpack _); by vm_compute. Qed.

(** The words that [uservec] does not write. *)
Lemma tf_saved_out r o : (r, o) ∈ tf_saved -> 40 <= o <= 280 /\ (o + 8 <= 112 \/ 120 <= o).
Proof.
  intros Hin. assert (Forall (fun x => 40 <= x.2 <= 280 /\ (x.2 + 8 <= 112 \/ 120 <= x.2)) tf_saved) as Hall
    by (apply (bool_decide_unpack _); by vm_compute).
  rewrite Forall_forall in Hall. exact (Hall _ Hin).
Qed.

(** The memory after [uservec]. *)
Definition tf_stored (tf : Z) (s : astate) : gmap Z Z :=
  store64 (tf + 112) (a_reg s a0) (store_all tf tf_saved (a_reg s) (a_mem s)).

Lemma store_all_regs base f f' : forall l m, (forall r o, (r, o) ∈ l -> f r = f' r) -> store_all base l f m = store_all base l f' m.
Proof.
  induction l as [|[r o] l IH]; intros m He; [done|]. cbn [store_all foldl].
  fold (store_all base l f (store64 (base + o) (f r) m)). fold (store_all base l f' (store64 (base + o) (f' r) m)).
  rewrite (He r o) by left. apply IH. intros r' o' Hin. apply (He r' o'). by right.
Qed.

Lemma tf_stored_reg tf s i r : regs_ok s -> trapframe_regs !! i = Some r -> load64 (tf_stored tf s) (tf + 40 + 8 * Z.of_nat i) = a_reg s r.
Proof.
  intros Hr Hi. unfold tf_stored. destruct (decide (r = a0)) as [->|Hne].
  - apply tf_a0 in Hi as ->. change (tf + 40 + 8 * Z.of_nat 9) with (tf + 40 + 72). replace (tf + 40 + 72) with (tf + 112) by lia.
    by apply load64_store64.
  - pose proof (tf_saved_elem i r Hi Hne) as Hin. pose proof (tf_saved_out _ _ Hin). rewrite load64_store64_out by lia.
    rewrite <- Z.add_assoc. apply load_store_all; [apply tf_saved_layout|done|apply Hr].
Qed.

Lemma tf_stored_out tf s a : a + 8 <= tf + 40 \/ tf + 288 <= a -> load64 (tf_stored tf s) a = load64 (a_mem s) a.
Proof.
  intros Ha. unfold tf_stored. rewrite load64_store64_out by lia. apply load_store_all_out.
  intros r o Hin. pose proof (tf_saved_out _ _ Hin). lia.
Qed.

Lemma uservec_run s tf :
  a_mmode s = false -> maps_trapframe (a_csr s csr_satp) tf -> regs_ok s ->
  let m := a_mem s in
  exists s', run mmu uservec s = Some (ByJump (load64 m (tf + 16)), s', []) /\ a_mem s' = tf_stored tf s /\ a_mmode s' = false /\
    a_reg s' sp = load64 m (tf + 8) /\ a_reg s' tp = load64 m (tf + 32) /\ a_csr s' csr_satp = load64 m (tf + 0).
Proof.
  intros Hmode Hmap Hr m. change uservec with ([CSRW csr_sscratch a0; LI a0 TRAPFRAME] ++ saves a0 tf_saved ++
    [CSRR t0 csr_sscratch; SD t0 112 a0; LD sp 8 a0; LD tp 32 a0; LD t0 16 a0; LD t1 0 a0; SFENCE; CSRW csr_satp t1; SFENCE; JR t0]).
  cbn [app run exec_instr mbind option_bind]. set (u := set_reg a0 (u64 TRAPFRAME) (set_csr csr_sscratch (a_reg s a0) s)).
  assert (forall v, a_mmode v = false -> a_csr v csr_satp = a_csr s csr_satp -> maps mmu v TRAPFRAME tf 288) as Hmaps.
  { intros v Ev Ec. apply trapframe_maps; [done|]. by rewrite Ec. }
  assert (maps mmu u (a_reg u a0) tf 288) as Hu by (by apply Hmaps). rewrite (run_saves mmu a0 tf 288 _ tf_saved u Hu tf_saved_range).
  set (u1 := u <| a_mem := _ |>).
  assert (a_mem u1 = store_all tf tf_saved (a_reg s) m) as Em1.
  { change (store_all tf tf_saved (a_reg u) (a_mem u) = store_all tf tf_saved (a_reg s) m). apply store_all_regs.
    intros r o [Hne _]%list_elem_of_filter. change ((<[a0 := u64 TRAPFRAME]> (a_reg s)) r = a_reg s r). by rewrite fn_lookup_insert_ne by (cbn in Hne; congruence). }
  set (u2 := set_reg t0 (a_csr u1 csr_sscratch) u1).
  change (run mmu (CSRR t0 csr_sscratch :: ?r) u1) with (run mmu r u2).
  rewrite (run_sd u2 t0 112 a0 _ TRAPFRAME tf 288); [|by apply Hmaps|done|lia|done].
  set (u3 := u2 <| a_mem ::= _ |>). assert (a_mem u3 = tf_stored tf s) as Em3.
  { change (a_mem u3) with (store64 (tf + 112) (a_reg s a0) (a_mem u1)). by rewrite Em1. }
  rewrite (run_ld u3 sp 8 a0 _ TRAPFRAME tf 288); [|by apply Hmaps|done|lia|done].
  rewrite (run_ld (set_reg sp _ u3) tp 32 a0 _ TRAPFRAME tf 288); [|by apply Hmaps|done|lia|done].
  rewrite (run_ld (set_reg tp _ _) t0 16 a0 _ TRAPFRAME tf 288); [|by apply Hmaps|done|lia|done].
  rewrite (run_ld (set_reg t0 _ _) t1 0 a0 _ TRAPFRAME tf 288); [|by apply Hmaps|done|lia|done].
  cbn [run exec_instr mbind option_bind].
  match goal with |- exists s', Some (_, ?v, _) = _ /\ _ => exists v end. split; [|split; [exact Em3|]].
  - rewrite <- (tf_stored_out tf s) by lia. rewrite <- Em3. reflexivity.
  - rewrite <- !(tf_stored_out tf s) by lia. rewrite <- Em3. done.
Qed.

Lemma userret_run s tf :
  a_mmode s = false -> maps_trapframe (a_reg s a0) tf ->
  exists s', run mmu userret s = Some (BySret, s', []) /\ a_csr s' csr_satp = a_reg s a0 /\ a_mem s' = a_mem s /\
    forall i r, trapframe_regs !! i = Some r -> a_reg s' r = load64 (a_mem s) (tf + 40 + 8 * Z.of_nat i).
Proof.
  intros Hmode Hmap. change userret with ([SFENCE; CSRW csr_satp a0; SFENCE; LI a0 TRAPFRAME] ++ loads a0 tf_saved ++ [LD a0 112 a0; SRET]).
  cbn [app run exec_instr mbind option_bind]. set (u := set_reg a0 (u64 TRAPFRAME) (set_csr csr_satp (a_reg s a0) s)).
  assert (maps mmu u (a_reg u a0) tf 288) as Hu by (by apply trapframe_maps).
  assert (a0 ∉ tf_saved.*1) as Hno by (apply (bool_decide_unpack _); by vm_compute).
  rewrite (run_loads mmu a0 tf 288 _ tf_saved u Hu tf_saved_range).
  2: { intros o Ho. destruct Hno. apply list_elem_of_fmap. by exists (a0, o). }
  set (u1 := u <| a_reg := _ |>). assert (a_reg u1 a0 = TRAPFRAME) as E0.
  { change (load_all tf tf_saved (a_mem u) (a_reg u) a0 = TRAPFRAME). by rewrite load_all_other. }
  rewrite (run_ld u1 a0 112 a0 _ TRAPFRAME tf 288); [|by eapply maps_ext; [..|exact Hu]|done|lia|done].
  cbn [run]. match goal with |- exists s', Some (_, ?v, _) = _ /\ _ => exists v end. split_and!; [done..|].
  intros i r Hi. destruct (decide (r = a0)) as [->|Hne].
  - apply tf_a0 in Hi as ->. change (load64 (a_mem s) (tf + 112) = load64 (a_mem s) (tf + 40 + 72)). f_equal. lia.
  - change ((<[a0 := load64 (a_mem s) (tf + 112)]> (load_all tf tf_saved (a_mem s) (a_reg u))) r = load64 (a_mem s) (tf + 40 + 8 * Z.of_nat i)).
    rewrite fn_lookup_insert_ne by congruence. rewrite (load_all_in _ _ _ (40 + 8 * Z.of_nat i)).
    + by rewrite Z.add_assoc.
    + apply tf_saved_layout.
    + by apply tf_saved_elem.
Qed.

(** C12: A trap from user space keeps the registers of the program. [uservec]
    stores all 31 registers in the process's trap frame, in the order of
    [struct trapframe], switches to the kernel's stack, hart and page table
    that the trap frame names, and jumps to [usertrap]; it writes no other
    memory. [userret] with the program's page table switches to it and loads
    all registers from the trap frame. So the program resumes with the
    registers it had, except for those that the kernel changed in the trap
    frame. *)
Theorem trap_registers s tf :
  a_mmode s = false -> maps_trapframe (a_csr s csr_satp) tf -> regs_ok s ->
  let m := a_mem s in
  exists s1, run mmu uservec s = Some (ByJump (load64 m (tf + 16)), s1, []) /\
    a_reg s1 sp = load64 m (tf + 8) /\ a_reg s1 tp = load64 m (tf + 32) /\ a_csr s1 csr_satp = load64 m (tf + 0) /\
    (forall i r, trapframe_regs !! i = Some r -> load64 (a_mem s1) (tf + 40 + 8 * Z.of_nat i) = a_reg s r) /\
    same_outside (tf + 40) 248 m (a_mem s1) /\
    forall s2, a_mmode s2 = false -> a_reg s2 a0 = a_csr s csr_satp ->
      exists s3, run mmu userret s2 = Some (BySret, s3, []) /\ a_csr s3 csr_satp = a_csr s csr_satp /\ a_mem s3 = a_mem s2 /\
        (forall i r, trapframe_regs !! i = Some r -> a_reg s3 r = load64 (a_mem s2) (tf + 40 + 8 * Z.of_nat i)) /\
        ((forall a, tf + 40 <= a -> a + 8 <= tf + 288 -> load64 (a_mem s2) a = load64 (a_mem s1) a) -> forall r, a_reg s3 r = a_reg s r).
Proof.
  intros Hmode Hmap Hr m. destruct (uservec_run s tf Hmode Hmap Hr) as (s1 & E1 & Em & _ & Hsp & Htp & Hsatp). exists s1.
  assert (forall i r, trapframe_regs !! i = Some r -> load64 (a_mem s1) (tf + 40 + 8 * Z.of_nat i) = a_reg s r) as Hregs.
  { intros i r Hi. rewrite Em. by apply tf_stored_reg. }
  split_and!; [done..| |].
  - intros a Ha. rewrite Em. apply tf_stored_out. lia.
  - intros s2 Hm2 Ha0. destruct (userret_run s2 tf Hm2) as (s3 & E3 & Hs3 & Em3 & Hl3); [by rewrite Ha0|]. exists s3.
    split_and!; [done|congruence|done|done|]. intros Hsame r. destruct (tf_all r) as [i Hi]. pose proof (lookup_lt_Some _ _ _ Hi) as Hlt. cbn in Hlt.
    rewrite (Hl3 i r Hi), Hsame by lia. by apply Hregs.
Qed.

(** ** Traps in the kernel *)

Definition kv_saved : list (reg * Z) := at_offsets 0 trapframe_regs.

(** [tp] is not restored. *)
Definition kv_loaded : list (reg * Z) := filter (fun x => x.1 <> tp) kv_saved.

Lemma kv_saved_ok : layout kv_saved /\ Forall (fun x => 0 <= x.2 < 256 /\ x.2 mod 8 = 0) kv_saved.
Proof. split; apply (bool_decide_unpack _); by vm_compute. Qed.

Lemma kv_loaded_ok : layout kv_loaded /\ Forall (fun x => 0 <= x.2 < 256 /\ x.2 mod 8 = 0) kv_loaded.
Proof. split; apply (bool_decide_unpack _); by vm_compute. Qed.

Lemma kv_elem r : exists i, trapframe_regs !! i = Some r /\ (i < 31)%nat /\ (r, 8 * Z.of_nat i) ∈ kv_saved /\ (r <> tp -> (r, 8 * Z.of_nat i) ∈ kv_loaded).
Proof.
  destruct (tf_all r) as [i Hi]. pose proof (lookup_lt_Some _ _ _ Hi) as Hlt. exists i. assert ((r, 8 * Z.of_nat i) ∈ kv_saved) as Hin.
  { apply at_offsets_elem. eauto. }
  split_and!; [done|exact Hlt|done|]. intros Hne. by apply list_elem_of_filter.
Qed.

(** [kernelvec] up to the call, and after it. *)
Lemma kernelvec_split : exists rest, kernelvec = ADDI sp sp (-256) :: saves sp kv_saved ++ CALL "kerneltrap" :: rest /\
  rest = loads sp kv_loaded ++ [ADDI sp sp 256; SRET].
Proof. by eexists. Qed.


(** ** Timer interrupts *)

Lemma mmode_maps s a n : a_mmode s = true -> 0 <= a -> a + n < 2 ^ 64 -> a mod 8 = 0 -> maps mmu s a a n.
Proof.
  intros Hm Ha Hn H8 o Ho Ho8. unfold paddr. rewrite u64_small by lia. rewrite Z.add_mod, H8, Ho8, Hm by lia. done.
Qed.

(** [timervec], with the scratch area at [scr] as [timerinit] leaves it: it adds
    the interval to the compare register and raises a software interrupt; it
    keeps all registers and writes nothing else but the three words that it
    saves registers in. *)
Lemma timervec_run s scr cmp :
  a_mmode s = true -> a_csr s csr_mscratch = scr -> 0 <= scr -> scr + 40 < 2 ^ 64 -> scr mod 8 = 0 -> regs_ok s ->
  let m := a_mem s in
  load64 m (scr + 24) = cmp -> cmp mod 8 = 0 -> cmp + 8 < 2 ^ 64 -> cmp + 8 <= scr \/ scr + 40 <= cmp ->
  exists s', run mmu timervec s = Some (ByMret, s', []) /\ (forall r, a_reg s' r = a_reg s r) /\
    a_csr s' csr_mscratch = scr /\ a_csr s' csr_sip = 2 /\ load64 (a_mem s') cmp = u64 (load64 m cmp + load64 m (scr + 32)) /\
    (forall a, a + 8 <= scr \/ scr + 24 <= a -> a + 8 <= cmp \/ cmp + 8 <= a -> load64 (a_mem s') a = load64 m a).
Proof.
  intros Hmode Hscr H0 H1 H8 Hr m Hcmp Hc8 Hc1 Hd. pose proof (load64_range m (scr + 24)) as Hcr. rewrite Hcmp in Hcr.
  assert (forall v, a_mmode v = true -> maps mmu v scr scr 40) as Hs by (intros v Hv; by apply mmode_maps).
  assert (forall v, a_mmode v = true -> maps mmu v cmp cmp 8) as Hc by (intros v Hv; apply mmode_maps; [done|lia..|done]).
  set (m1 := store64 (scr + 0) (a_reg s a1) m). set (m2 := store64 (scr + 8) (a_reg s a2) m1). set (m3 := store64 (scr + 16) (a_reg s a3) m2).
  set (t := u64 (load64 m cmp + load64 m (scr + 32))). set (m4 := store64 (cmp + 0) t m3).
  assert (forall a, a + 8 <= scr \/ scr + 24 <= a -> load64 m3 a = load64 m a) as H3.
  { intros a Ha. unfold m3, m2, m1. by rewrite !load64_store64_out by lia. }
  assert (load64 m4 (scr + 0) = a_reg s a1 /\ load64 m4 (scr + 8) = a_reg s a2 /\ load64 m4 (scr + 16) = a_reg s a3) as (L0 & L1 & L2).
  { unfold m4, m3, m2, m1. rewrite !(load64_store64_out _ (cmp + 0)) by lia. split_and!.
    - by rewrite !load64_store64_out, load64_store64 by (lia || apply Hr).
    - by rewrite load64_store64_out, load64_store64 by (lia || apply Hr).
    - apply load64_store64, Hr. }
  assert (load64 m3 (scr + 24) = cmp /\ load64 m3 (scr + 32) = load64 m (scr + 32) /\ load64 m3 (cmp + 0) = load64 m cmp) as (K0 & K1 & K2).
  { rewrite !H3 by lia. by rewrite Z.add_0_r. }
  set (f := <[a0 := a_reg s a0]> (<[a1 := a_reg s a1]> (<[a2 := a_reg s a2]> (<[a3 := a_reg s a3]> (<[a1 := 2]> (<[a3 := t]>
    (<[a3 := load64 m cmp]> (<[a2 := load64 m (scr + 32)]> (<[a1 := cmp]> (<[a0 := scr]> (a_reg s))))))))))).
  exists (mkastate f (<[csr_mscratch := scr]> (<[csr_sip := 2]> (<[csr_mscratch := a_reg s a0]> (a_csr s)))) m4 true). split.
  - unfold timervec. change (run mmu (CSRRW a0 csr_mscratch a0 :: ?r) s) with (run mmu r (set_reg a0 (a_csr s csr_mscratch) (set_csr csr_mscratch (a_reg s a0) s))).
    rewrite Hscr. do 3 (erewrite (run_sd _ _ _ a0 _ scr scr 40); [|by apply Hs|done|lia|done]).
    erewrite (run_ld _ a1 _ a0 _ scr scr 40); [|by apply Hs|done|lia|done].
    change (a_mem (_ <| a_mem ::= store64 (scr + 16) _ |>)) with m3. rewrite K0.
    erewrite (run_ld _ a2 _ a0 _ scr scr 40); [|by apply Hs|done|lia|done].
    change (a_mem (set_reg a1 _ _)) with m3. rewrite K1.
    erewrite (run_ld _ a3 _ a1 _ cmp cmp 8); [|by apply Hc|done|lia|done].
    change (a_mem (set_reg a2 _ _)) with m3. rewrite K2.
    change (run mmu (ADD a3 a3 a2 :: ?r) ?v) with (run mmu r (set_reg a3 t v)).
    erewrite (run_sd _ a3 _ a1 _ cmp cmp 8); [|by apply Hc|done|lia|done].
    change (run mmu (LI a1 2 :: CSRW csr_sip a1 :: ?r) ?v) with (run mmu r (set_csr csr_sip 2 (set_reg a1 2 v))).
    erewrite (run_ld _ a3 _ a0 _ scr scr 40); [|by apply Hs|done|lia|done].
    change (a_mem (set_csr csr_sip 2 _)) with m4. rewrite L2.
    erewrite (run_ld _ a2 _ a0 _ scr scr 40); [|by apply Hs|done|lia|done].
    change (a_mem (set_reg a3 _ _)) with m4. rewrite L1.
    erewrite (run_ld _ a1 _ a0 _ scr scr 40); [|by apply Hs|done|lia|done].
    change (a_mem (set_reg a2 _ _)) with m4. rewrite L0. rewrite <- Hmode. reflexivity.
  - split_and!; [|done|done| |].
    + intros r. unfold f. by destruct r.
    + cbn [a_mem]. unfold m4. rewrite Z.add_0_r. apply load64_store64. apply Z.mod_pos_bound. lia.
    + intros a Ha Ha'. cbn [a_mem]. unfold m4. rewrite load64_store64_out by lia. by apply H3.
Qed.

(** [_entry] gives hart [mhartid] the top of its 4096 bytes of [stack0]. *)
Lemma entry_run s stack0 :
  0 <= a_csr s csr_mhartid -> 0 <= stack0 -> stack0 + 4096 * (a_csr s csr_mhartid + 1) < 2 ^ 64 ->
  exists s', run mmu (_entry stack0) s = Some (ByCall "start", s', []) /\ a_reg s' sp = stack0 + 4096 * (a_csr s csr_mhartid + 1) /\
    a_mem s' = a_mem s /\ a_csr s' = a_csr s.
Proof.
  intros Hh Hs Hlt. eexists. split; [reflexivity|]. split_and!; [|done|done].
  change (u64 (u64 stack0 + u64 (u64 (1024 * 4) * u64 (a_csr s csr_mhartid + 1))) = stack0 + 4096 * (a_csr s csr_mhartid + 1)).
  rewrite !(u64_small stack0), (u64_small (1024 * 4)), (u64_small (a_csr s csr_mhartid + 1)) by lia.
  replace (1024 * 4) with 4096 by lia. rewrite (u64_small (4096 * _)) by lia. apply u64_small. lia.
Qed.
End spec.

(** ** The theorems, applied *)

(** Register [i] holds [100 + i]. *)
Definition demo_regs (r : reg) : Z := 100 + Z.of_nat (default 0%nat (fst <$> list_find (fun x => x = r) trapframe_regs)).

Lemma demo_regs_ok r : 0 <= demo_regs r < 2 ^ 64.
Proof. by destruct r. Qed.

Definition demo_hart (f : reg -> Z) : astate := mkastate f (fun _ => 0) (store64 8192 7 ∅) false.

Definition identity (satp va : Z) : option Z := Some va.

Lemma identity_maps f a n : 0 <= a -> a + n < 2 ^ 64 -> a mod 8 = 0 -> maps identity (demo_hart f) a a n.
Proof. intros Ha Hn H8 o Ho Ho8. unfold paddr. rewrite u64_small by lia. rewrite Z.add_mod, H8, Ho8 by lia. done. Qed.

Definition switch_regs : reg -> Z := <[a0 := 4096]> (<[a1 := 8192]> demo_regs).

Lemma swtch_spec_witness :
  exists s', run identity swtch (demo_hart switch_regs) = Some (ByJump 7, s', []) /\ load64 (a_mem s') 4104 = demo_regs sp.
Proof.
  destruct (swtch_spec identity (demo_hart switch_regs) 4096 8192) as (s' & E & Hr & _).
  - reflexivity.
  - reflexivity.
  - intros r. by destruct r.
  - apply identity_maps; [lia|lia|reflexivity].
  - apply identity_maps; [lia|lia|reflexivity].
  - lia.
  - exists s'. split.
    + rewrite E. change (a_mem (demo_hart switch_regs)) with (store64 8192 7 ∅). rewrite load64_store64 by lia. reflexivity.
    + destruct (Hr 1%nat sp eq_refl) as [Hsp _]. exact Hsp.
Defined.

(** The page tables of a process whose trap frame is at 8192. *)
Definition user_mmu (satp va : Z) : option Z :=
  if bool_decide (TRAPFRAME <= va < TRAPFRAME + 4096) then Some (8192 + (va - TRAPFRAME)) else None.

Lemma trap_registers_witness :
  exists s1, run user_mmu uservec (demo_hart demo_regs) = Some (ByJump (load64 (store64 8192 7 ∅) 8208), s1, []) /\
    a_csr s1 csr_satp = 7 /\ load64 (a_mem s1) (8192 + 112) = demo_regs a0 /\
    exists s3, run user_mmu userret (mkastate (fun _ => 0) (fun _ => 0) (a_mem s1) false) = Some (BySret, s3, []) /\
      forall r, a_reg s3 r = demo_regs r.
Proof.
  destruct (trap_registers user_mmu (demo_hart demo_regs) 8192) as (s1 & E & _ & _ & Hsatp & Hr & _ & Hret).
  - reflexivity.
  - intros o Ho _. unfold user_mmu. rewrite bool_decide_eq_true_2 by lia. f_equal. lia.
  - exact demo_regs_ok.
  - exists s1. split; [exact E|]. split.
    { rewrite Hsatp. change (a_mem (demo_hart demo_regs)) with (store64 8192 7 ∅). by rewrite load64_store64 by lia. }
    split; [exact (Hr 9%nat a0 eq_refl)|].
    destruct (Hret (mkastate (fun _ => 0) (fun _ => 0) (a_mem s1) false)) as (s3 & E3 & _ & _ & _ & Hsame); [reflexivity..|].
    exists s3. split; [exact E3|]. apply Hsame. reflexivity.
Defined.

