(* ===== verification/Thread.v ===== *)
(** * Kernel threads between switches

    Shared vocabulary for the theorems about kernel code that runs in a
    process: the calm states, in which the running thread holds no spin lock
    of interest and a current process exists; what taking and releasing a
    spin lock does to the kernel state; the effect of [wakeup]; and the
    frame of operations that only touch the buffer layer. *)

From S2P Require Import Prelude Riscv Machine Spinlock PhysMem Kalloc Vm Kernel Sched Sleeplock.

(** [q] is [p], possibly woken up. *)
Definition woken1 (p q : proc) : Prop :=
  q = p \/ (p_state p = SLEEPING /\ q = p <| p_state := RUNNABLE |>).

Definition woken (l l' : list proc) : Prop := Forall2 woken1 l l'.

#[export] Instance woken1_preorder : PreOrder woken1.
Proof.
  split; [by left|]. intros p q r [->|[Hs ->]] Hr; [done|].
  destruct Hr as [->|[Hs' _]]; [by right|done].
Qed.

#[export] Instance woken_preorder : PreOrder woken.
Proof. change (PreOrder (Forall2 woken1)). apply _. Qed.

Lemma woken_lookup l l' i p :
  woken l l' -> l !! i = Some p -> exists q, l' !! i = Some q /\ woken1 p q.
Proof. intros H Hp. by eapply Forall2_lookup_l. Qed.

Lemma woken_length l l' : woken l l' -> length l' = length l.
Proof. intros H. symmetry. by eapply Forall2_length. Qed.

Section thread.
Context `{Linker} `{Platform} `{Fuel}.
Implicit Types (k : kernel) (lk : lockid).

(** The spin locks of the static objects. *)
Definition static_lock (lk : lockid) : Prop :=
  match lk with
  | pipe_lock _ => False
  | proc_lock i => (i < Z.to_nat NPROC)%nat
  | buf_lk i => (i < Z.to_nat NBUF)%nat
  | inode_lk i => (i < Z.to_nat NINODE)%nat
  | _ => True
  end.

(** Process [me] runs on the executing hart. *)
Definition running (me : nat) (k : kernel) : Prop :=
  exists u, core_cpu (m_core (k_m k)) = Some u /\ c_proc u = Some me.

(** A state of a thread of process [me] that holds no static spin lock
    outside [held]. *)
Definition calm (held : list lockid) (me : nat) (k : kernel) : Prop :=
  settled (m_core (k_m k)) /\
  (forall lk, static_lock lk -> lk ∉ held -> lock_free lk (k_m k)) /\
  running me k /\ length (k_proc k) = Z.to_nat NPROC /\ (me < Z.to_nat NPROC)%nat.

(** The state inside the critical section of [lk]. *)
Definition klocking (lk : lockid) (k : kernel) : kernel := k <| k_m ::= locking lk |>.

Lemma mach_ok {A} (op : M machine A) k a m' :
  op (k_m k) = Ok a m' -> mach op k = Ok a (k <| k_m := m' |>).
Proof. intros E. exact (zoom_ok k_m (fun m k => k <| k_m := m |>) op k a m' E). Qed.

Lemma upd_m_id k : k <| k_m := k_m k |> = k.
Proof. by destruct k. Qed.

(** Taking a free lock, and releasing it whatever else changed. *)
Lemma kacquire lk k :
  settled (m_core (k_m k)) -> lock_free lk (k_m k) -> mach (acquire lk) k = Ok tt (klocking lk k).
Proof. intros [Hwf _] Hl. apply mach_ok. by apply acquire_run. Qed.

Lemma release_locking lk m :
  settled (m_core m) -> lock_free lk m -> release lk (locking lk m) = Ok tt m.
Proof.
  intros Hs Hl. erewrite release_held; [|by apply settled_wf|exact Hl|done|done].
  rewrite settle_id by done. by destruct m.
Qed.

Lemma krelease lk k m :
  settled (m_core m) -> lock_free lk m -> k_m k = locking lk m ->
  mach (release lk) k = Ok tt (k <| k_m := m |>).
Proof. intros Hs Hl E. apply mach_ok. rewrite E. by apply release_locking. Qed.

(** Releasing the outer of two locks first, as [sleep] does. *)
Lemma release_outer lk lk' m :
  settled (m_core m) -> lock_free lk m -> lk <> lk' ->
  release lk (locking lk' (locking lk m)) = Ok tt (locking lk' m).
Proof.
  intros Hs [name Hl] Hne. pose proof (settled_wf _ Hs) as Hwf.
  rewrite (release_run lk (locking lk' (locking lk m)) (locking lk m)).
  - f_equal. apply machine_eq; [|cbn|done..].
    + apply (settle_id (pushed (m_core m))). by apply settled_pushed.
    + apply map_eq. intros i. destruct (decide (i = lk)) as [->|]; [|destruct (decide (i = lk')) as [->|]];
        by simplify_map_eq.
  - by apply core_wf_pushed.
  - done.
  - eexists. cbn. rewrite (lookup_insert_ne _ lk' lk) by done. by rewrite lookup_insert_eq.
Qed.

Lemma running_cpu me k : running me k -> exists u, core_cpu (m_core (k_m k)) = Some u /\ c_proc u = Some me.
Proof. done. Qed.

Lemma myproc_calm me k :
  settled (m_core (k_m k)) -> running me k -> mach myproc k = Ok (Some me) k.
Proof.
  intros Hs (u & Hu & Hp). erewrite mach_ok.
  2: { apply myproc_run; [by apply settled_wf|exact Hu]. }
  rewrite Hp. f_equal. transitivity (k <| k_m := k_m k |>); [|apply upd_m_id].
  apply (f_equal (fun m => k <| k_m := m |>)). apply machine_eq; [cbn; by apply settle_id|done..].
Qed.

Lemma curproc_calm me k :
  settled (m_core (k_m k)) -> running me k -> curproc k = Ok me k.
Proof. intros Hs Hr. unfold curproc. by erewrite bind_ok by by apply myproc_calm. Qed.

Lemma settled_klocking lk k : settled (m_core (k_m k)) -> settled (m_core (k_m (klocking lk k))).
Proof. intros Hs. by apply settled_pushed, settled_wf. Qed.

Lemma running_klocking me lk k : running me k -> running me (klocking lk k).
Proof. intros (u & Hu & Hp). eexists. split; [apply (core_cpu_pushed _ _ Hu)|done]. Qed.

Lemma calm_klocking held me lk k : calm held me k -> calm (lk :: held) me (klocking lk k).
Proof.
  intros (Hs & Hl & Hr & Hn & Hm). split_and!; [by apply settled_klocking| |by apply running_klocking|done..].
  intros lk' Hst Hne. apply not_elem_of_cons in Hne as [Hne Hh]. cbn.
  apply lock_free_locking; [done|]. by apply Hl.
Qed.

Lemma get_entry {A} (tbl : kernel -> list A) i x k :
  tbl k !! i = Some x -> entry_of tbl i k = Ok x k.
Proof. intros E. unfold entry_of. by rewrite E. Qed.

(** ** [wakeup] *)

(** What [wakeup(ch)] does to process [i] when [me] calls it. *)
Definition wake (me : nat) (ch : option chan) (i : nat) (p : proc) : proc :=
  if bool_decide (i <> me) && bool_decide (p_state p = SLEEPING) && bool_decide (p_chan p = ch)
  then p <| p_state := RUNNABLE |> else p.

Lemma wakeup_one_run held me ch i k :
  calm held me k -> proc_lock i ∉ held -> (i < Z.to_nat NPROC)%nat ->
  wakeup_one ch i k = Ok tt (k <| k_proc ::= alter (wake me ch i) i |>).
Proof.
  intros (Hs & Hl & Hr & Hn & Hm) Hh Hi. unfold wakeup_one.
  erewrite bind_ok by by apply myproc_calm.
  destruct (decide (Some me = Some i)) as [[= <-]|Hne].
  { unfold ret. f_equal. unfold upd. cbn -[alter]. rewrite list_alter_id; [by destruct k|].
    intros x. unfold wake. by rewrite bool_decide_eq_false_2 by tauto. }
  erewrite bind_ok by (apply kacquire; [done|apply Hl; done]).
  destruct (lookup_lt_is_Some_2 (k_proc k) i) as [p Hp]; [lia|].
  unfold get_proc, set_proc. erewrite bind_ok by by apply get_entry.
  assert (forall k', k_m k' = k_m (klocking (proc_lock i) k) ->
    mach (release (proc_lock i)) k' = Ok tt (k' <| k_m := k_m k |>)) as Hrel.
  { intros k' E. apply krelease; [done|by apply Hl|done]. }
  assert (alter (wake me ch i) i (k_proc k) = <[i := wake me ch i p]> (k_proc k)) as Ha
    by by apply list_alter_insert.
  assert (k <| k_proc ::= alter (wake me ch i) i |> = k <| k_proc := <[i := wake me ch i p]> (k_proc k) |>)
    as -> by (unfold upd; cbn -[alter]; by rewrite Ha).
  unfold wake, when. assert (i <> me) as Hni by congruence.
  rewrite (bool_decide_eq_true_2 (i <> me)) by done. cbn [andb].
  destruct (bool_decide (p_state p = SLEEPING) && bool_decide (p_chan p = ch)).
  - mrun. rewrite Hrel by done. f_equal. unfold upd. cbn -[alter].
    by erewrite (list_alter_insert _ (k_proc k) i p) by done.
  - mrun. rewrite Hrel by done. f_equal. unfold upd. cbn -[alter].
    rewrite list_insert_id by done. by destruct k.
Qed.

Lemma calm_upd_proc held me f k :
  length (f (k_proc k)) = length (k_proc k) -> calm held me k -> calm held me (k <| k_proc ::= f |>).
Proof. intros Hf (Hs & Hl & Hr & Hn & Hm). split_and!; try done. cbn. by rewrite Hf. Qed.

Lemma wakeup_loop held me ch a n k :
  calm held me k -> (forall i, proc_lock i ∉ held) -> (a + n <= Z.to_nat NPROC)%nat ->
  exists P, for_each (seq a n) (wakeup_one ch) k = Ok tt (k <| k_proc := P |>) /\
    forall i, P !! i = if decide (a <= i < a + n)%nat then wake me ch i <$> k_proc k !! i
                       else k_proc k !! i.
Proof.
  revert a k. induction n as [|n IH]; intros a k Hc Hh Hn.
  { exists (k_proc k). split; [by destruct k|]. intros i. by rewrite decide_False by lia. }
  cbn [seq for_each]. erewrite bind_ok by (apply (wakeup_one_run held me); [done|done|lia]).
  destruct (IH (S a) (k <| k_proc ::= alter (wake me ch a) a |>)) as (P & EP & HP); [|done|lia|].
  { apply calm_upd_proc; [|done]. by rewrite length_alter. }
  exists P. rewrite EP. split; [done|]. intros i. rewrite HP. cbn -[alter].
  destruct (decide (i = a)) as [->|Hne].
  - rewrite decide_False, decide_True by lia. by rewrite list_lookup_alter_eq.
  - rewrite list_lookup_alter_ne by done. by repeat case_decide; try lia.
Qed.

(** [wakeup(ch)] makes runnable exactly the other processes that sleep on
    [ch], and changes nothing else. *)
Lemma wakeup_run held me ch k :
  calm held me k -> (forall i, proc_lock i ∉ held) ->
  wakeup ch k = Ok tt (k <| k_proc ::= imap (wake me ch) |>).
Proof.
  intros Hc Hh. unfold wakeup, procs.
  destruct (wakeup_loop held me ch 0 (Z.to_nat NPROC) k Hc Hh) as (P & EP & HP); [lia|].
  rewrite EP. f_equal. change (k <| k_proc := P |> = k <| k_proc := imap (wake me ch) (k_proc k) |>).
  apply (f_equal (fun P => k <| k_proc := P |>)). apply list_eq. intros i. rewrite HP, list_lookup_imap.
  destruct Hc as (_ & _ & _ & Hn & _). case_decide as Hi; [done|].
  by rewrite (lookup_ge_None_2 (k_proc k) i) by lia.
Qed.

Lemma wake_woken1 me ch i p : woken1 p (wake me ch i p).
Proof.
  unfold wake. repeat case_bool_decide; cbn [andb]; try by left. by right.
Qed.

Lemma imap_wake_woken me ch l : woken l (imap (wake me ch) l).
Proof.
  apply Forall2_same_length_lookup_2; [by rewrite length_imap|].
  intros i p q Hp. rewrite list_lookup_imap, Hp. intros [= <-]. apply wake_woken1.
Qed.

Lemma wake_me me ch p : wake me ch me p = p.
Proof. unfold wake. by rewrite bool_decide_eq_false_2 by tauto. Qed.

Lemma killed_run held me i k p :
  calm held me k -> proc_lock i ∉ held -> k_proc k !! i = Some p -> killed i k = Ok (p_killed p) k.
Proof.
  intros (Hs & Hl & _ & Hn & _) Hh Hp. unfold killed.
  assert (lock_free (proc_lock i) (k_m k)) as Hf by (apply Hl; [cbn; apply lookup_lt_Some in Hp; lia|done]).
  erewrite bind_ok by by apply kacquire. unfold get_proc. erewrite bind_ok by by apply get_entry.
  erewrite bind_ok by (eapply krelease; [exact Hs|exact Hf|done]). unfold ret, klocking. by destruct k.
Qed.

(** ** Sleep locks *)

Definition slock_static (l : slockid) : Prop := static_lock (slock_spin l).

Definition slock (k : kernel) (l : slockid) : sleeplock := default zero_sleeplock (k_sleeplocks k !! l).

(** The process table entry of [me]. *)
Lemma me_entry held me k : calm held me k -> exists p, k_proc k !! me = Some p.
Proof. intros (_ & _ & _ & Hn & Hm). apply lookup_lt_is_Some_2. lia. Qed.

Lemma acquiresleep_run held me l p k :
  calm held me k -> slock_static l -> slock_spin l ∉ held -> wait_fuel <> O ->
  k_proc k !! me = Some p -> sl_locked (slock k l) = 0 ->
  acquiresleep l k =
    Ok tt (k <| k_sleeplocks ::= fun t => <[l := mksleeplock 1 (sl_name (slock k l)) (p_pid p)]> t |>).
Proof.
  intros (Hs & Hl & Hr & Hn & Hm) Hst Hh Hf Hp Hlk. unfold acquiresleep.
  erewrite bind_ok by (apply kacquire; [done|by apply Hl]).
  erewrite bind_ok.
  2: { destruct wait_fuel; [done|]. cbn [acquiresleep_wait]. unfold get_slock. mrun.
       change (default zero_sleeplock _) with (slock k l). by rewrite Hlk. }
  unfold get_slock, set_slock. mrun.
  erewrite bind_ok by (apply curproc_calm; [by apply settled_klocking|by apply running_klocking]).
  unfold get_proc. erewrite bind_ok by by apply get_entry.
  mrun. erewrite krelease; [|exact Hs|by apply Hl|done].
  f_equal. unfold upd. cbn. by rewrite lookup_insert_eq, insert_insert_eq.
Qed.

Lemma releasesleep_run held me l k :
  calm held me k -> slock_static l -> slock_spin l ∉ held -> (forall i, proc_lock i ∉ held) ->
  releasesleep l k =
    Ok tt (k <| k_sleeplocks ::= fun t => <[l := mksleeplock 0 (sl_name (slock k l)) 0]> t |>
             <| k_proc ::= imap (wake me (Some (slock_chan l))) |>).
Proof.
  intros Hc Hst Hh Hp. pose proof Hc as (Hs & Hl & Hr & Hn & Hm). unfold releasesleep.
  erewrite bind_ok by (apply kacquire; [done|by apply Hl]).
  unfold get_slock, set_slock. mrun.
  erewrite bind_ok.
  2: { apply (wakeup_run (slock_spin l :: held) me).
       - exact (calm_klocking held me (slock_spin l) k Hc).
       - intros i. apply not_elem_of_cons. split; [by destruct l|done]. }
  erewrite krelease; [done|exact Hs|by apply Hl|done].
Qed.

Lemma holdingsleep_run held me l p k :
  calm held me k -> slock_static l -> slock_spin l ∉ held -> k_proc k !! me = Some p ->
  holdingsleep l k = Ok (ctrue (sl_locked (slock k l)) && (sl_pid (slock k l) =? p_pid p)) k.
Proof.
  intros (Hs & Hl & Hr & Hn & Hm) Hst Hh Hp. unfold holdingsleep.
  erewrite bind_ok by (apply kacquire; [done|by apply Hl]).
  unfold get_slock. mrun. change (default zero_sleeplock _) with (slock k l).
  assert (forall b : bool, (mach (release (slock_spin l)) ;; ret b) (klocking (slock_spin l) k) = Ok b k) as Hrel.
  { intros b. erewrite bind_ok by (eapply krelease; [exact Hs|by apply Hl|done]).
    unfold ret. f_equal. by destruct k. }
  destruct (ctrue (sl_locked (slock k l))); cbn [andb]; mrun; [|apply Hrel].
  erewrite bind_ok by (apply curproc_calm; [by apply settled_klocking|by apply running_klocking]).
  unfold get_proc. rewrite bind_bind. erewrite bind_ok by by apply get_entry. mrun. apply Hrel.
Qed.

End thread.
