(* ===== verification/BioRing.v ===== *)
(** * The LRU list of the buffer cache

    [bcache.buf] is threaded on a circular doubly linked list through
    [bcache.head]. [ring bc order] says that following [next] from the head
    visits [order] and following [prev] visits it backwards; [relink] is the
    pointer surgery of [brelse], which moves a buffer to the front. *)

From S2P Require Import Prelude Riscv Machine Spinlock PhysMem Kalloc Vm Kernel Sched Sleeplock Bio.

(** Following [f] from [a] visits [l] and ends in [z]. *)
Fixpoint path (f : nat -> nat) (a : nat) (l : list nat) (z : nat) : Prop :=
  match l with
  | [] => f a = z
  | x :: l' => f a = x /\ path f x l' z
  end.

Lemma path_app f a l1 x l2 z : path f a (l1 ++ x :: l2) z <-> path f a l1 x /\ path f x l2 z.
Proof.
  revert a. induction l1 as [|y l1 IH]; intros a; cbn; [done|]. rewrite IH. tauto.
Qed.

Lemma path_snoc f a l x z : path f a (l ++ [x]) z <-> path f a l x /\ f x = z.
Proof. apply path_app. Qed.

(** A path stays one when [f] changes off it, or its start is replaced. *)
Lemma path_from f f' a a' l z :
  f' a' = f a -> (forall x, x ∈ l -> f' x = f x) -> path f a l z -> path f' a' l z.
Proof.
  revert a a'. induction l as [|x l IH]; intros a a' Ha Hl; cbn; [by rewrite Ha|].
  intros [E Hp]. split; [by rewrite Ha|]. apply (IH x); [apply Hl; by left| |done].
  intros y Hy. apply Hl. by right.
Qed.

Definition nxt (bc : list buf) (i : nat) : nat := from_option b_next HEAD (bc !! i).

Definition prv (bc : list buf) (i : nat) : nat := from_option b_prev HEAD (bc !! i).

Definition ring (bc : list buf) (order : list nat) : Prop :=
  length bc = S HEAD /\ order ≡ₚ bufs /\
  path (nxt bc) HEAD order HEAD /\ path (prv bc) HEAD (reverse order) HEAD.

(** Everything of a buffer but its links. *)
Definition payload (x : buf) : buf := x <| b_prev := O |> <| b_next := O |>.

Definition same_payload (bc bc' : list buf) : Prop :=
  forall i, payload <$> bc' !! i = payload <$> bc !! i.

(** The statements of [brelse] that move [b] to the front of the list. *)
Definition relink (b : nat) (bc : list buf) : list buf :=
  let bc1 := alter (fun y => y <| b_prev := prv bc b |>) (nxt bc b) bc in
  let bc2 := alter (fun y => y <| b_next := nxt bc1 b |>) (prv bc1 b) bc1 in
  let bc3 := alter (fun y => y <| b_next := nxt bc2 HEAD |> <| b_prev := HEAD |>) b bc2 in
  let bc4 := alter (fun y => y <| b_prev := b |>) (nxt bc3 HEAD) bc3 in
  alter (fun y => y <| b_next := b |>) HEAD bc4.

(** ** Lemmas *)

Lemma ring_NoDup bc order : ring bc order -> NoDup (HEAD :: order).
Proof.
  intros (_ & Hp & _). apply NoDup_cons. split.
  - rewrite Hp. unfold bufs. rewrite elem_of_seq. lia.
  - rewrite Hp. apply NoDup_seq.
Qed.

Lemma ring_elem bc order b : ring bc order -> b ∈ order <-> (b < HEAD)%nat.
Proof. intros (_ & Hp & _). rewrite Hp. unfold bufs. rewrite elem_of_seq. lia. Qed.

Lemma nxt_alter f i bc j :
  nxt (alter f i bc) j = if decide (i = j) then from_option (fun x => b_next (f x)) HEAD (bc !! i) else nxt bc j.
Proof.
  unfold nxt. case_decide as E.
  - subst j. rewrite list_lookup_alter_eq. by destruct (bc !! i).
  - by rewrite list_lookup_alter_ne.
Qed.

Lemma prv_alter f i bc j :
  prv (alter f i bc) j = if decide (i = j) then from_option (fun x => b_prev (f x)) HEAD (bc !! i) else prv bc j.
Proof.
  unfold prv. case_decide as E.
  - subst j. rewrite list_lookup_alter_eq. by destruct (bc !! i).
  - by rewrite list_lookup_alter_ne.
Qed.

Lemma nxt_set_prev v i bc j : nxt (alter (fun y => y <| b_prev := v |>) i bc) j = nxt bc j.
Proof. rewrite nxt_alter. case_decide; [subst|done]. unfold nxt. by destruct (bc !! j). Qed.

Lemma prv_set_next v i bc j : prv (alter (fun y => y <| b_next := v |>) i bc) j = prv bc j.
Proof. rewrite prv_alter. case_decide; [subst|done]. unfold prv. by destruct (bc !! j). Qed.

Lemma nxt_set_next v i bc j :
  (i < length bc)%nat ->
  nxt (alter (fun y => y <| b_next := v |>) i bc) j = if decide (i = j) then v else nxt bc j.
Proof. intros Hi. rewrite nxt_alter. case_decide; [|done]. by destruct (lookup_lt_is_Some_2 bc i Hi) as [x ->]. Qed.

Lemma prv_set_prev v i bc j :
  (i < length bc)%nat ->
  prv (alter (fun y => y <| b_prev := v |>) i bc) j = if decide (i = j) then v else prv bc j.
Proof. intros Hi. rewrite prv_alter. case_decide; [|done]. by destruct (lookup_lt_is_Some_2 bc i Hi) as [x ->]. Qed.

Lemma nxt_set_both v w i bc j :
  (i < length bc)%nat ->
  nxt (alter (fun y => y <| b_next := v |> <| b_prev := w |>) i bc) j = if decide (i = j) then v else nxt bc j.
Proof. intros Hi. rewrite nxt_alter. case_decide; [|done]. by destruct (lookup_lt_is_Some_2 bc i Hi) as [x ->]. Qed.

Lemma prv_set_both v w i bc j :
  (i < length bc)%nat ->
  prv (alter (fun y => y <| b_next := v |> <| b_prev := w |>) i bc) j = if decide (i = j) then w else prv bc j.
Proof. intros Hi. rewrite prv_alter. case_decide; [|done]. by destruct (lookup_lt_is_Some_2 bc i Hi) as [x ->]. Qed.

(** The link functions after [relink], for any ring containing [b]. *)
Lemma relink_links bc b n p :
  (b < length bc)%nat -> (n < length bc)%nat -> (p < length bc)%nat -> (HEAD < length bc)%nat ->
  (nxt bc HEAD < length bc)%nat ->
  n = nxt bc b -> p = prv bc b -> n <> b -> p <> b -> b <> HEAD ->
  let first := if decide (p = HEAD) then n else nxt bc HEAD in
  (forall j, nxt (relink b bc) j =
     if decide (HEAD = j) then b else if decide (b = j) then first else if decide (p = j) then n else nxt bc j) /\
  (forall j, prv (relink b bc) j =
     if decide (first = j) then b else if decide (b = j) then HEAD else if decide (n = j) then p else prv bc j).
Proof.
  intros Hb Hn Hp Hh Hf En Ep Hnb Hpb HbH first. unfold relink.
  rewrite <- En, <- Ep, nxt_set_prev, <- En.
  rewrite prv_set_prev, decide_False, <- Ep by done.
  set (bc1 := alter _ n bc). set (bc2 := alter _ p bc1).
  assert (length bc1 = length bc) as L1 by apply length_alter.
  assert (length bc2 = length bc) as L2 by (etransitivity; [apply length_alter|done]).
  assert (nxt bc2 HEAD = first) as E2.
  { unfold bc2. rewrite nxt_set_next by lia. unfold bc1. by rewrite nxt_set_prev. }
  rewrite E2. set (bc3 := alter _ b bc2).
  assert (length bc3 = length bc) as L3 by (etransitivity; [apply length_alter|done]).
  assert (nxt bc3 HEAD = first) as E3.
  { unfold bc3. rewrite nxt_set_both by lia. by rewrite decide_False. }
  rewrite E3.
  assert (first < length bc)%nat as Hfirst by (unfold first; by case_decide).
  split; intros j.
  - rewrite nxt_set_next by (rewrite length_alter; lia). case_decide; [done|].
    rewrite nxt_set_prev. unfold bc3. rewrite nxt_set_both by lia.
    case_decide; [done|]. unfold bc2. rewrite nxt_set_next by lia.
    case_decide; [done|]. apply nxt_set_prev.
  - rewrite prv_set_next, prv_set_prev by lia. case_decide; [done|].
    unfold bc3. rewrite prv_set_both by lia. case_decide; [done|].
    unfold bc2. rewrite prv_set_next. unfold bc1. by rewrite prv_set_prev by lia.
Qed.

(** The neighbours of [b] in the ring. *)
Lemma path_hd f a l z : path f a l z -> f a = hd z l.
Proof. destruct l; cbn; [done|by intros [-> _]]. Qed.

Lemma path_last f a l z : path f a l z -> f (List.last l a) = z.
Proof.
  destruct l as [|x l _] using rev_ind; [done|]. intros [_ Hx]%path_snoc. by rewrite List.last_last.
Qed.

(** Moving [b] to the front: the [next] links. *)
Lemma relink_next_path f f' h b l1 l2 :
  NoDup (h :: l1 ++ b :: l2) -> path f h (l1 ++ b :: l2) h ->
  let p := List.last l1 h in let n := hd h l2 in
  let first := hd h (l1 ++ l2) in
  (forall j, f' j = if decide (h = j) then b else if decide (b = j) then first
                    else if decide (p = j) then n else f j) ->
  path f' h (b :: l1 ++ l2) h.
Proof.
  intros Hnd [Hp1 Hp2]%path_app p n first Hf'.
  apply NoDup_cons in Hnd as [Hh Hnd]. apply NoDup_app in Hnd as (Hn1 & Hd & Hnd2).
  apply NoDup_cons in Hnd2 as [Hb2 Hn2].
  assert (b <> h) as Hbh by (intros ->; apply Hh, elem_of_app; right; left).
  assert (f' b = first) as Eb by (rewrite Hf'; by rewrite decide_False, decide_True).
  cbn [path]. split; [rewrite Hf'; by rewrite decide_True|].
  assert (forall x, x ∈ l2 -> x <> h /\ x <> b /\ x <> p) as Hx2.
  { intros x Hx. split_and!.
    - intros ->. apply Hh, elem_of_app. right. by right.
    - intros ->. done.
    - intros ->. destruct (decide (l1 = [])) as [E1|E1]; [by subst l1; apply Hh; cbn; right|].
      assert (p ∈ l1) as Hp by (unfold p; rewrite (List.app_removelast_last h E1) at 2;
        apply elem_of_app; right; by left).
      apply (Hd p Hp). by right. }
  destruct (decide (l1 = [])) as [->|Hne].
  { cbn [app]. apply (path_from f f' b b); [|intros x Hx|done].
    - rewrite Eb. unfold first. cbn. by rewrite (path_hd f b l2 h).
    - destruct (Hx2 x Hx) as (? & ? & ?). rewrite Hf'. by rewrite !decide_False by done. }
  destruct (exists_last Hne) as (l1' & q & E1). subst l1.
  assert (p = q) as Epq by apply List.last_last.
  apply path_snoc in Hp1 as [Hp1 Hq]. rewrite <- app_assoc. cbn [app].
  assert (forall x, x ∈ l1' -> x <> h /\ x <> b /\ x <> q) as Hx1.
  { intros x Hx. split_and!.
    - intros ->. apply Hh. rewrite !elem_of_app. by left; left.
    - intros ->. apply (Hd b); [apply elem_of_app; by left|by left].
    - intros ->. apply NoDup_app in Hn1 as (_ & Hd' & _). apply (Hd' q Hx). by left. }
  apply path_app. split.
  - apply (path_from f f' h b); [|intros x Hx|done].
    + rewrite Eb. unfold first. rewrite (path_hd f h l1' q) by done. by destruct l1'.
    + destruct (Hx1 x Hx) as (? & ? & ?). rewrite Hf', Epq. by rewrite !decide_False by done.
  - apply (path_from f f' b q); [|intros x Hx|done].
    + rewrite Hf', Epq. assert (q <> h /\ q <> b) as [? ?].
      { split; intros ->; [apply Hh; rewrite !elem_of_app; left; right; by left|].
        apply (Hd b); [apply elem_of_app; right; by left|by left]. }
      rewrite !decide_False by done. rewrite decide_True by done. by rewrite (path_hd f b l2 h).
    + destruct (Hx2 x Hx) as (? & ? & ?). rewrite Hf'. by rewrite !decide_False by done.
Qed.

(** The [prev] links; [m1] and [m2] are the two parts of the list backwards. *)
Lemma relink_prev_path g g' h b m1 m2 :
  NoDup (h :: m2 ++ b :: m1) -> path g h (m2 ++ b :: m1) h ->
  let p := hd h m1 in let n := List.last m2 h in let first := List.last (m2 ++ m1) h in
  (forall j, g' j = if decide (first = j) then b else if decide (b = j) then h
                    else if decide (n = j) then p else g j) ->
  path g' h (m2 ++ m1 ++ [b]) h.
Proof.
  intros Hnd [Hp2 Hp1]%path_app p n first Hg'. rewrite app_assoc. apply path_snoc.
  apply NoDup_cons in Hnd as [Hh Hnd]. apply NoDup_app in Hnd as (Hn2 & Hd & Hnd1).
  apply NoDup_cons in Hnd1 as [Hb1 Hn1].
  assert (forall x y, x ∈ m2 -> y ∈ m1 -> x <> y) as H21.
  { intros x y Hx Hy ->. apply (Hd y Hx). by right. }
  assert (forall x, x ∈ m2 -> x <> h /\ x <> b) as H2.
  { intros x Hx. split; intros ->; [apply Hh, elem_of_app; by left|apply (Hd b Hx); by left]. }
  assert (forall x, x ∈ m1 -> x <> h /\ x <> b) as H1.
  { intros x Hx. split; intros ->; [apply Hh, elem_of_app; right; by right|done]. }
  assert (b <> h) as Hbh by (intros ->; apply Hh, elem_of_app; right; left).
  assert (first <> b) as Hfb.
  { unfold first. destruct (decide (m2 ++ m1 = [])) as [->|E]; [done|].
    destruct (exists_last E) as (l & x & El). rewrite El, List.last_last.
    assert (x ∈ m2 ++ m1) as [Hx|Hx]%elem_of_app by (rewrite El; apply elem_of_app; right; by left).
    - by apply H2. - by apply H1. }
  split; [|rewrite Hg'; by rewrite decide_False, decide_True].
  assert (forall x, x <> first -> x <> b -> x <> n -> g' x = g x) as Hsame
    by (intros x ? ? ?; rewrite Hg'; by rewrite !decide_False by done).
  assert (g' first = b) as Efirst by (rewrite Hg'; by rewrite decide_True).
  destruct m1 as [|x m1' _] using rev_ind.
  - rewrite app_nil_r. assert (first = n) as Efn by (unfold first, n; by rewrite app_nil_r).
    destruct m2 as [|y m2' _] using rev_ind; [by rewrite <- Efirst|].
    assert (n = y) as En by apply List.last_last. apply path_snoc in Hp2 as [Hp2 _].
    apply path_snoc. split; [|by rewrite <- En, <- Efn].
    apply NoDup_app in Hn2 as (_ & Hd' & _).
    apply (path_from g g' h h); [|intros x Hx|done]; apply Hsame; rewrite ?Efn, ?En; try done.
    + by apply not_eq_sym, H2, elem_of_app; right; left.
    + by apply not_eq_sym, H2, elem_of_app; right; left.
    + intros ->. apply (Hd' y Hx). by left.
    + apply H2, elem_of_app. by left.
    + intros ->. apply (Hd' y Hx). by left.
  - assert (first = x) as Efx by (unfold first; by rewrite app_assoc, List.last_last).
    apply path_snoc in Hp1 as [Hp1 _]. apply NoDup_app in Hn1 as (_ & Hd1 & _).
    assert (x ∈ m1' ++ [x]) as Hxin by (apply elem_of_app; right; by left).
    assert (p = g b) as Epg by (unfold p; rewrite (path_hd g b m1' x) by done; by destruct m1').
    rewrite app_assoc. apply path_snoc. split; [|by rewrite <- Efx].
    assert (forall y, y ∈ m1' -> n <> y) as Hn1.
    { intros y Hy. unfold n. destruct m2 as [|z m2' _] using rev_ind.
      - cbn. apply not_eq_sym, H1, elem_of_app. by left.
      - rewrite List.last_last. apply H21; apply elem_of_app; [right; by left|by left]. }
    assert (path g' n m1' x) as Hpn.
    { assert (n <> x /\ n <> b) as [Hnx Hnb].
      { unfold n. destruct m2 as [|z m2' _] using rev_ind.
        - cbn. split; [by apply not_eq_sym, H1|done].
        - rewrite List.last_last. assert (z ∈ m2' ++ [z]) as Hz by (apply elem_of_app; right; by left).
          split; [by apply H21|by apply H2]. }
      apply (path_from g g' b n); [|intros y Hy|done].
      - rewrite Hg'. rewrite !decide_False by congruence. by rewrite decide_True.
      - apply Hsame; [|apply H1, elem_of_app; by left|by apply not_eq_sym, Hn1].
        rewrite Efx. intros ->. apply (Hd1 x Hy). by left. }
    destruct m2 as [|z m2' _] using rev_ind; [done|]. assert (n = z) as En by apply List.last_last.
    rewrite <- app_assoc. cbn [app]. apply path_app. rewrite <- En. split; [|done]. rewrite En.
    apply path_snoc in Hp2 as [Hp2 _]. apply NoDup_app in Hn2 as (_ & Hd2 & _).
    assert (z ∈ m2' ++ [z]) as Hz by (apply elem_of_app; right; by left).
    apply (path_from g g' h h); [|intros y Hy|done]; apply Hsame; rewrite ?Efx, ?En.
    + by apply not_eq_sym, H1.
    + done.
    + by apply not_eq_sym, H2.
    + apply H21; [apply elem_of_app; by left|done].
    + apply H2, elem_of_app. by left.
    + intros ->. apply (Hd2 z Hy). by left.
Qed.

Lemma length_relink b bc : length (relink b bc) = length bc.
Proof. unfold relink. by rewrite !length_alter. Qed.

Lemma hd_reverse (h : nat) l : hd h (reverse l) = List.last l h.
Proof.
  destruct l as [|x l _] using rev_ind; [done|]. by rewrite reverse_app, List.last_last.
Qed.

Lemma last_reverse (h : nat) l : List.last (reverse l) h = hd h l.
Proof. by rewrite <- hd_reverse, reverse_involutive. Qed.

Lemma ring_lt bc order i : ring bc order -> i ∈ HEAD :: order -> (i < length bc)%nat.
Proof.
  intros Hr [->|Hi]%elem_of_cons; destruct (Hr) as [-> _]; [lia|].
  apply (ring_elem bc) in Hi; [lia|done].
Qed.

(** [brelse]'s surgery keeps the list a ring, with [b] in front. *)
Lemma ring_relink bc l1 b l2 :
  ring bc (l1 ++ b :: l2) -> ring (relink b bc) (b :: l1 ++ l2).
Proof.
  intros Hr. pose proof (ring_NoDup _ _ Hr) as Hnd. pose proof Hr as (Hlen & Hperm & Hn & Hp).
  rewrite reverse_app, reverse_cons, <- app_assoc in Hp. cbn [app] in Hp.
  pose proof Hn as [Hn1 Hn2]%path_app. pose proof Hp as [Hp2 Hp1]%path_app.
  assert (nxt bc b = hd HEAD l2) as En by by apply path_hd.
  assert (prv bc b = List.last l1 HEAD) as Ep by (rewrite <- hd_reverse; by apply path_hd).
  assert (nxt bc HEAD = hd b l1) as Ef by by apply path_hd.
  assert (forall l d, (forall x, x ∈ l -> x ∈ HEAD :: l1 ++ b :: l2) -> d ∈ HEAD :: l1 ++ b :: l2 ->
    hd d l ∈ HEAD :: l1 ++ b :: l2) as Hhd.
  { intros [|x l] d Hl Hd; [done|]. apply Hl. by left. }
  assert (forall x, x ∈ l1 -> x ∈ HEAD :: l1 ++ b :: l2) as I1 by (intros; right; apply elem_of_app; by left).
  assert (forall x, x ∈ l2 -> x ∈ HEAD :: l1 ++ b :: l2) as I2
    by (intros; right; apply elem_of_app; right; by right).
  assert (b ∈ HEAD :: l1 ++ b :: l2) as Ib by (right; apply elem_of_app; right; by left).
  pose proof (fun i => ring_lt bc (l1 ++ b :: l2) i Hr) as Hlt.
  assert (forall d, d ∉ l2 -> d <> HEAD -> hd HEAD l2 <> d) as Hhne.
  { intros d Hd Hdh E. destruct l2 as [|y l2']; cbn in E; [congruence|]. subst. apply Hd. by left. }
  assert ((b ∉ l2) /\ (b ∉ l1) /\ b <> HEAD) as (Hb2 & Hb1 & HbH).
  { apply NoDup_cons in Hnd as [Hh Hnd]. apply NoDup_app in Hnd as (_ & Hd & Hnd).
    apply NoDup_cons in Hnd as [Hb _]. split_and!; [done| |].
    - intros Hin. apply (Hd b Hin). by left.
    - intros ->. apply Hh, elem_of_app. right. by left. }
  assert (List.last l1 HEAD <> b /\ List.last l1 HEAD ∈ HEAD :: l1 ++ b :: l2) as [Hpb Hpin].
  { rewrite <- hd_reverse. destruct (reverse l1) as [|y m] eqn:E; [split; [done|by left]|].
    assert (y ∈ l1) as Hy by (rewrite <- elem_of_reverse, E; by left). cbn. split; [by intros ->|by apply I1]. }
  destruct (relink_links bc b (hd HEAD l2) (List.last l1 HEAD)) as [Fn Fp];
    [by apply Hlt| | | | |done|done|by apply Hhne|done|done|].
  { apply Hlt, Hhd; [done|by left]. }
  { by apply Hlt. }
  { apply Hlt. by left. }
  { rewrite Ef. apply Hlt. by apply Hhd. }
  assert ((if decide (List.last l1 HEAD = HEAD) then hd HEAD l2 else nxt bc HEAD) = hd HEAD (l1 ++ l2)) as Efirst.
  { rewrite Ef. destruct l1 as [|x l1' _] using rev_ind; [done|]. rewrite List.last_last, decide_False.
    - by destruct l1'.
    - intros ->. apply NoDup_cons in Hnd as [Hh _]. apply Hh. rewrite !elem_of_app. left. right. by left. }
  rewrite Efirst in Fn, Fp. split_and!.
  - by rewrite length_relink.
  - rewrite <- Hperm. by rewrite Permutation_middle.
  - by apply (relink_next_path (nxt bc)).
  - rewrite reverse_cons, reverse_app, <- app_assoc. apply (relink_prev_path (prv bc)).
    + rewrite <- Permutation_middle, <- reverse_app, reverse_Permutation, Permutation_middle. done.
    + done.
    + intros j. rewrite Fp, hd_reverse, last_reverse, <- reverse_app, last_reverse. done.
Qed.

Lemma relink_payload b bc : same_payload bc (relink b bc).
Proof.
  assert (forall f i bc, (forall y, payload (f y) = payload y) -> same_payload bc (alter f i bc)) as Ha.
  { intros f i l Hf j. destruct (decide (i = j)) as [->|]; [|by rewrite list_lookup_alter_ne].
    rewrite list_lookup_alter_eq. destruct (l !! j); [|done]. cbn. by rewrite Hf. }
  unfold relink, same_payload. intros i. by rewrite !Ha.
Qed.

(** ** Searching the list *)

Section search.
Context `{Linker} `{Platform}.
Implicit Types k : kernel.

(** The buffer caches block [blockno] of device [dev]. *)
Definition caches (dev blockno : Z) (x : buf) : bool := (b_dev x =? dev) && (b_blockno x =? blockno).

Definition at_buf (bc : list buf) (P : buf -> bool) (i : nat) : Prop := exists x, bc !! i = Some x /\ P x = true.

#[export] Instance at_buf_dec bc P i : Decision (at_buf bc P i).
Proof.
  destruct (bc !! i) as [x|] eqn:E; [destruct (P x) eqn:F|].
  - left. by exists x.
  - right. intros (y & Hy & Hp). congruence.
  - right. intros (y & Hy & Hp). congruence.
Defined.

(** The first buffer of a list that satisfies [P]. *)
Fixpoint first_buf (bc : list buf) (P : buf -> bool) (l : list nat) : option nat :=
  match l with
  | [] => None
  | i :: l' => if decide (at_buf bc P i) then Some i else first_buf bc P l'
  end.

Lemma first_buf_Some bc P l i : first_buf bc P l = Some i -> i ∈ l /\ at_buf bc P i.
Proof.
  induction l as [|j l IH]; [done|]. cbn. case_decide.
  - intros [= <-]. split; [by left|done].
  - intros [Hi Hp]%IH. split; [by right|done].
Qed.

Lemma first_buf_None bc P l i : first_buf bc P l = None -> i ∈ l -> ~ at_buf bc P i.
Proof.
  induction l as [|j l IH]; [by intros _ ?%not_elem_of_nil|]. cbn. case_decide; [done|].
  intros Hn [->|Hi]%elem_of_cons; auto.
Qed.

Lemma bget_find_run k order a dev blockno fuel :
  path (nxt (k_bcache k)) a order HEAD -> (forall i, i ∈ order -> (i < HEAD)%nat) ->
  length (k_bcache k) = S HEAD -> (length order < fuel)%nat ->
  bget_find fuel (nxt (k_bcache k) a) dev blockno k =
    Ok (first_buf (k_bcache k) (caches dev blockno) order) k.
Proof.
  revert a fuel. induction order as [|i l IH]; intros a [|fuel] Hp Hin Hlen Hfuel; cbn in Hfuel; try lia.
  - cbn in Hp. cbn [bget_find]. by rewrite Hp, decide_True.
  - destruct Hp as [-> Hp]. cbn [bget_find].
    assert (i < HEAD)%nat as Hi by (apply Hin; by left).
    destruct (decide (i = HEAD)) as [->|_]; [lia|].
    destruct (lookup_lt_is_Some_2 (k_bcache k) i) as [x Hx]; [lia|].
    unfold get_buf, entry_of. unfold bind at 1. rewrite Hx. cbn [obind first_buf].
    change ((b_dev x =? dev) && (b_blockno x =? blockno)) with (caches dev blockno x).
    destruct (caches dev blockno x) eqn:E.
    + rewrite decide_True by (by exists x). done.
    + rewrite decide_False by (intros (y & Hy & Ey); congruence).
      assert (b_next x = nxt (k_bcache k) i) as -> by (unfold nxt; by rewrite Hx).
      apply IH; [done| |done|lia]. intros j Hj. apply Hin. by right.
Qed.

Lemma bget_recycle_run k order a fuel :
  path (prv (k_bcache k)) a order HEAD -> (forall i, i ∈ order -> (i < HEAD)%nat) ->
  length (k_bcache k) = S HEAD -> (length order < fuel)%nat ->
  bget_recycle fuel (prv (k_bcache k) a) k =
    Ok (first_buf (k_bcache k) (fun x => b_refcnt x =? 0) order) k.
Proof.
  revert a fuel. induction order as [|i l IH]; intros a [|fuel] Hp Hin Hlen Hfuel; cbn in Hfuel; try lia.
  - cbn in Hp. cbn [bget_recycle]. by rewrite Hp, decide_True.
  - destruct Hp as [-> Hp]. cbn [bget_recycle].
    assert (i < HEAD)%nat as Hi by (apply Hin; by left).
    destruct (decide (i = HEAD)) as [->|_]; [lia|].
    destruct (lookup_lt_is_Some_2 (k_bcache k) i) as [x Hx]; [lia|].
    unfold get_buf, entry_of. unfold bind at 1. rewrite Hx. cbn [obind first_buf].
    destruct (b_refcnt x =? 0) eqn:E.
    + rewrite decide_True by (by exists x). done.
    + rewrite decide_False by (intros (y & Hy & Ey); congruence).
      assert (b_prev x = prv (k_bcache k) i) as -> by (unfold prv; by rewrite Hx).
      apply IH; [done| |done|lia]. intros j Hj. apply Hin. by right.
Qed.

End search.
