(* ===== verification/BioSpec.v ===== *)
(** * Specification of the buffer cache

    [bio_inv held V dirty R k]: the cache of [k] is consistent, the running
    thread holds the sleep locks of the buffers [held] (with the blocks they
    cache), [V] is the contents of every block as the file system sees it,
    [dirty] are the blocks whose cached contents are newer than the disk's,
    and [R] are the reference counts. The disk driver is used through the
    laws of [DiskLaws]: a transfer is finished when [virtio_disk_rw]
    returns to its caller. *)

From stdpp Require Import functions.
From S2P Require Import Prelude Riscv Machine Spinlock PhysMem Kalloc Vm Kernel Sched Sleeplock Bio Thread BioRing.

(** ** The disk *)

(** The disk's contents after a list of block writes. *)
Fixpoint replay (ws : list (Z * list Z)) (img : Z -> list Z) : Z -> list Z :=
  match ws with
  | [] => img
  | (bn, d) :: ws' => replay ws' (<[bn := d]> img)
  end.

Lemma replay_app ws ws' img : replay (ws ++ ws') img = replay ws' (replay ws img).
Proof. revert img. induction ws as [|[bn d] ws IH]; intros img; [done|]. apply IH. Qed.

Lemma list_filter_all {A} (P : A -> Prop) `{!forall x, Decision (P x)} l : Forall P l -> filter P l = l.
Proof. induction 1 as [|x l Hx _ IH]; [done|]. by rewrite filter_cons_True, IH. Qed.

Section frame.
Context `{Platform}.
Implicit Types k : kernel.

(** The states an operation of the buffer layer can lead to: the harts, the memory,
    the spin locks, the sleep locks of inodes and all other components' data
    are unchanged; processes may have been woken up. *)
Definition same_inode_locks (S S' : gmap slockid sleeplock) : Prop :=
  forall i, S' !! inode_sleeplock i = S !! inode_sleeplock i.

#[export] Instance same_inode_locks_preorder : PreOrder same_inode_locks.
Proof. split; [by intros S i|]. intros S1 S2 S3 H1 H2 i. by rewrite H2. Qed.

Lemma same_inode_locks_buf S b s : same_inode_locks S (<[buf_sleeplock b := s]> S).
Proof. intros i. by rewrite lookup_insert_ne. Qed.

Definition bio_frame (k k' : kernel) : Prop :=
  exists P S B d v,
    k' = k <| k_proc := P |> <| k_sleeplocks := S |> <| k_bcache := B |>
           <| k_disk := d |> <| k_device := v |> /\ woken (k_proc k) P /\
    same_inode_locks (k_sleeplocks k) S.

#[export] Instance bio_frame_preorder : PreOrder bio_frame.
Proof.
  split.
  - intros k. exists (k_proc k), (k_sleeplocks k), (k_bcache k), (k_disk k), (k_device k).
    split; [by destruct k|done].
  - intros k1 k2 k3 (P & S & B & d & v & -> & Hw & Hl) (P' & S' & B' & d' & v' & -> & Hw' & Hl').
    exists P', S', B', d', v'. cbn in *. split_and!; [done|by etrans|by etrans].
Qed.

Lemma bio_frame_calm held me k k' : bio_frame k k' -> calm held me k -> calm held me k'.
Proof.
  intros (P & S & B & d & v & -> & Hw & _) (Hs & Hf & Hr & Hn & Hm).
  split_and!; [exact Hs|exact Hf|exact Hr| |exact Hm]. cbn. by rewrite (woken_length _ _ Hw).
Qed.

(** Changing only sleep locks and buffers. *)
Lemma bio_frame_local k k' :
  k' = k <| k_sleeplocks := k_sleeplocks k' |> <| k_bcache := k_bcache k' |> ->
  same_inode_locks (k_sleeplocks k) (k_sleeplocks k') -> bio_frame k k'.
Proof.
  intros E Hl. exists (k_proc k), (k_sleeplocks k'), (k_bcache k'), (k_disk k), (k_device k).
  split; [|done]. etransitivity; [exact E|]. by destruct k.
Qed.

Lemma bio_frame_log k k' : bio_frame k k' -> k_log k' = k_log k.
Proof. by intros (P & S & B & d & v & -> & _). Qed.

Lemma bio_frame_m k k' : bio_frame k k' -> k_m k' = k_m k.
Proof. by intros (P & S & B & d & v & -> & _). Qed.

(** The pid of a process survives wake-ups. *)
Lemma bio_frame_pid k k' i p :
  bio_frame k k' -> k_proc k !! i = Some p -> exists q, k_proc k' !! i = Some q /\ p_pid q = p_pid p.
Proof.
  intros (P & S & B & d & v & -> & Hw & _) Hp. cbn.
  destruct (woken_lookup _ _ _ _ Hw Hp) as (q & Hq & [->|[_ ->]]); by exists q || eexists.
Qed.

End frame.

(** What the driver promises its callers: [disk_image] is the disk when the
    machine was started and [disk_writes] the blocks written since. *)
Class DiskLaws `{Platform} `{!DiskDriver} := {
  disk_image : device -> Z -> list Z;
  disk_writes : device -> list (Z * list Z);
  disk_read_law : forall me (k : kernel) b x, calm [] me k -> k_bcache k !! b = Some x ->
    exists k', virtio_disk_rw b false k = Ok tt k' /\ bio_frame k k' /\
      k_sleeplocks k' = k_sleeplocks k /\
      disk_image (k_device k') = disk_image (k_device k) /\
      disk_writes (k_device k') = disk_writes (k_device k) /\
      k_bcache k' = <[b := x <| b_data := replay (disk_writes (k_device k)) (disk_image (k_device k)) (b_blockno x) |>
                            <| b_disk := 0 |>]> (k_bcache k);
  disk_write_law : forall me (k : kernel) b x, calm [] me k -> k_bcache k !! b = Some x ->
    exists k', virtio_disk_rw b true k = Ok tt k' /\ bio_frame k k' /\
      k_sleeplocks k' = k_sleeplocks k /\
      disk_image (k_device k') = disk_image (k_device k) /\
      disk_writes (k_device k') = disk_writes (k_device k) ++ [(b_blockno x, b_data x)] /\
      k_bcache k' = <[b := x <| b_disk := 0 |>]> (k_bcache k)
}.

(** The contents of the disk. *)
Definition content `{DiskLaws} (k : kernel) : Z -> list Z :=
  replay (disk_writes (k_device k)) (disk_image (k_device k)).

Section bio.
Context `{Linker} `{Platform} `{Fuel} `{!DiskDriver} `{!DiskLaws}.
Context (dev : Z) (me : nat).
Implicit Types (k : kernel) (V : Z -> list Z) (dirty : gset Z) (R : list Z) (held : list (nat * Z)).

(** Buffer [i] holds valid contents of block [bn]. *)
Definition buf_is (k : kernel) (i : nat) (bn : Z) : Prop :=
  exists x, k_bcache k !! i = Some x /\ b_dev x = dev /\ b_blockno x = bn /\ b_valid x <> 0.

(** The state of the sleep lock of buffer [i]. *)
Definition buf_lock_ok (held : list (nat * Z)) (k : kernel) (i : nat) : Prop :=
  if decide (i ∈ held.*1)
  then sl_locked (slock k (buf_sleeplock i)) = 1 /\
       exists p, k_proc k !! me = Some p /\ sl_pid (slock k (buf_sleeplock i)) = p_pid p
  else sl_locked (slock k (buf_sleeplock i)) = 0.

(** Buffer [i] is valid for [bn] and referenced. *)
Definition pinned (R : list Z) (k : kernel) (i : nat) (bn : Z) : Prop :=
  (i < HEAD)%nat /\ buf_is k i bn /\ exists r, R !! i = Some r /\ 1 <= r.

Record bio_inv (held : list (nat * Z)) (V : Z -> list Z) (dirty : gset Z) (R : list Z) (k : kernel) : Prop := {
  bi_calm : calm [] me k;
  bi_ring : exists order, ring (k_bcache k) order;
  bi_uniq : forall i j x y, (i < HEAD)%nat -> (j < HEAD)%nat -> k_bcache k !! i = Some x ->
    k_bcache k !! j = Some y -> caches dev (b_blockno y) x = true -> b_dev y = dev -> i = j;
  bi_refs : b_refcnt <$> k_bcache k = R;
  bi_refs_ok : Forall (fun r => 0 <= r < 2 ^ 32) R;
  bi_coh : forall i bn x, (i < HEAD)%nat -> buf_is k i bn -> k_bcache k !! i = Some x -> b_data x = V bn;
  bi_clean : forall bn, bn ∉ dirty -> V bn = content k bn;
  bi_dirty : forall bn, bn ∈ dirty -> exists i, pinned R k i bn;
  bi_held : forall i bn, (i, bn) ∈ held -> pinned R k i bn;
  bi_nodup : NoDup held.*1;
  bi_locks : forall i, (i < HEAD)%nat -> buf_lock_ok held k i
}.

(** ** Lemmas *)

Lemma caches_true bn x : caches dev bn x = true <-> b_dev x = dev /\ b_blockno x = bn.
Proof. unfold caches. rewrite andb_true_iff, !Z.eqb_eq. done. Qed.

Lemma ring_upd bc order b x x' :
  bc !! b = Some x -> b_next x' = b_next x -> b_prev x' = b_prev x ->
  ring bc order -> ring (<[b := x']> bc) order.
Proof.
  intros Hx En Ep (Hlen & Hperm & Hn & Hp).
  assert (forall j, nxt (<[b := x']> bc) j = nxt bc j) as Fn.
  { intros j. unfold nxt. destruct (decide (b = j)) as [<-|]; [|by rewrite list_lookup_insert_ne].
    rewrite list_lookup_insert_eq by by eapply lookup_lt_Some. by rewrite Hx. }
  assert (forall j, prv (<[b := x']> bc) j = prv bc j) as Fp.
  { intros j. unfold prv. destruct (decide (b = j)) as [<-|]; [|by rewrite list_lookup_insert_ne].
    rewrite list_lookup_insert_eq by by eapply lookup_lt_Some. by rewrite Hx. }
  split_and!; [by rewrite length_insert|done| |].
  - by eapply path_from; [apply Fn|intros; apply Fn|].
  - by eapply path_from; [apply Fp|intros; apply Fp|].
Qed.

Lemma bc_alter k b x f :
  k_bcache k !! b = Some x ->
  k <| k_bcache ::= alter f b |> = k <| k_bcache ::= fun bc => <[b := f x]> bc |>.
Proof. intros Hx. unfold upd. cbn -[alter]. by rewrite (list_alter_insert f _ b x Hx). Qed.

Lemma bi_lookup held V dirty R k i :
  bio_inv held V dirty R k -> (i <= HEAD)%nat -> exists x, k_bcache k !! i = Some x.
Proof.
  intros Hinv Hi. destruct (bi_ring _ _ _ _ _ Hinv) as (order & Hlen & _).
  apply lookup_lt_is_Some_2. lia.
Qed.

(** Two valid buffers of the same block are the same buffer. *)
Lemma buf_is_inj held V dirty R k i j bn :
  bio_inv held V dirty R k -> (i < HEAD)%nat -> (j < HEAD)%nat ->
  buf_is k i bn -> buf_is k j bn -> i = j.
Proof.
  intros Hinv Hi Hj (x & Hx & Dx & Bx & _) (y & Hy & Dy & By & _).
  eapply (bi_uniq _ _ _ _ _ Hinv); [done..| |done]. apply caches_true. split; [done|congruence].
Qed.

(** ** [bget] *)

(** The state in which [bget] leaves the kernel: buffer [b] has become [x']
    and its sleep lock is held. *)
Definition got (k : kernel) (b : nat) (x' : buf) (p : proc) : kernel :=
  k <| k_bcache ::= fun bc => <[b := x']> bc |>
    <| k_sleeplocks ::= fun t =>
         <[buf_sleeplock b := mksleeplock 1 (sl_name (slock k (buf_sleeplock b))) (p_pid p)]> t |>.

Lemma bget_locked held V dirty R k b x x' p :
  bio_inv held V dirty R k -> wait_fuel <> O -> k_bcache k !! b = Some x -> (b < HEAD)%nat ->
  b ∉ held.*1 -> k_proc k !! me = Some p ->
  (mach (release bcache_lock) ;; acquiresleep (buf_sleeplock b) ;; ret b)
    ((klocking bcache_lock k) <| k_bcache ::= fun bc => <[b := x']> bc |>) = Ok b (got k b x' p).
Proof.
  intros Hinv Hf Hx Hb Hh Hp. destruct (bi_calm _ _ _ _ _ Hinv) as (Hs & Hl & Hc).
  erewrite bind_ok.
  2: { eapply (krelease _ _ (k_m k)); [exact Hs|apply Hl; [done|apply not_elem_of_nil]|done]. }
  erewrite bind_ok.
  2: { apply (acquiresleep_run [] me _ p); [|exact Hb|apply not_elem_of_nil|done|done|].
       - split_and!; [exact Hs|exact Hl|apply Hc..].
       - pose proof (bi_locks _ _ _ _ _ Hinv b Hb) as Hlk. unfold buf_lock_ok in Hlk.
         rewrite decide_False in Hlk by done. exact Hlk. }
  done.
Qed.

Lemma bget_run held V dirty R k bn :
  bio_inv held V dirty R k -> wait_fuel <> O -> bn ∉ held.*2 ->
  Forall (fun r => r + 1 < 2 ^ 32) R ->
  (exists i, (i < HEAD)%nat /\ (at_buf (k_bcache k) (caches dev bn) i \/ R !! i = Some 0)) ->
  exists b x x' p, k_bcache k !! b = Some x /\ (b < HEAD)%nat /\ (b ∉ held.*1) /\
    k_proc k !! me = Some p /\ bget dev bn k = Ok b (got k b x' p) /\
    b_next x' = b_next x /\ b_prev x' = b_prev x /\ b_dev x' = dev /\ b_blockno x' = bn /\
    b_refcnt x' = b_refcnt x + 1 /\
    (caches dev bn x = true /\ b_valid x' = b_valid x /\ b_data x' = b_data x \/
     b_refcnt x = 0 /\ b_valid x' = 0 /\ forall i, (i < HEAD)%nat -> ~ at_buf (k_bcache k) (caches dev bn) i).
Proof.
  intros Hinv Hf Hh HR Hex. pose proof (bi_calm _ _ _ _ _ Hinv) as Hcalm.
  pose proof Hcalm as (Hs & Hl & Hc). destruct (me_entry _ _ _ Hcalm) as [p Hp].
  destruct (bi_ring _ _ _ _ _ Hinv) as (order & Hring). pose proof Hring as (Hlen & Hperm & Hn & Hpv).
  assert (length order = HEAD) as Hol by (rewrite Hperm; apply length_seq).
  assert (forall i, i ∈ order <-> (i < HEAD)%nat) as Hin by (intros i; by eapply ring_elem).
  assert (forall i x, k_bcache k !! i = Some x -> exists r, R !! i = Some r /\ r = b_refcnt x) as Href.
  { intros i x Hx. exists (b_refcnt x). rewrite <- (bi_refs _ _ _ _ _ Hinv), list_lookup_fmap, Hx. done. }
  destruct (bi_lookup _ _ _ _ _ HEAD Hinv) as [h Eh]; [lia|].
  unfold bget. erewrite bind_ok by (apply kacquire; [done|apply Hl; [done|apply not_elem_of_nil]]).
  unfold get_buf. erewrite bind_ok by by apply get_entry.
  assert (b_next h = nxt (k_bcache k) HEAD) as -> by (unfold nxt; by rewrite Eh).
  assert (b_prev h = prv (k_bcache k) HEAD) as -> by (unfold prv; by rewrite Eh).
  erewrite bind_ok.
  2: { apply (bget_find_run (klocking bcache_lock k) order HEAD); [done| |done|lia]. intros i. by rewrite Hin. }
  cbn [k_bcache klocking upd].
  destruct (first_buf _ _ order) as [b|] eqn:Efind.
  - apply first_buf_Some in Efind as [Hb (x & Hx & Hcx)]. apply Hin in Hb.
    assert (b ∉ held.*1) as Hnh.
    { intros ([b' bn'] & -> & Hbn)%list_elem_of_fmap. cbn in *.
      destruct (bi_held _ _ _ _ _ Hinv _ _ Hbn) as (_ & (y & Hy & _ & By & _) & _).
      apply caches_true in Hcx as [_ Bx]. apply Hh, list_elem_of_fmap. exists (b', bn'). split; [cbn; congruence|done]. }
    destruct (Href b x Hx) as (r & Hr & Er).
    assert (0 <= r < 2 ^ 32) as Hr1 by (eapply (Forall_lookup_1 _ _ _ _ (bi_refs_ok _ _ _ _ _ Hinv)); exact Hr).
    assert (r + 1 < 2 ^ 32) as Hr2 by (eapply (Forall_lookup_1 _ _ _ _ HR); exact Hr).
    exists b, x, (x <| b_refcnt ::= fun n => u32 (n + 1) |>), p.
    split_and!; [done..| |done|done| | | |].
    + unfold set_buf. mrun. rewrite (bc_alter _ b x) by done. by eapply (bget_locked held V dirty R k b x).
    + by apply caches_true in Hcx as [? ?].
    + by apply caches_true in Hcx as [? ?].
    + cbn. rewrite u32_small; lia.
    + by left.
  - pose proof (fun i => first_buf_None _ _ order i Efind) as Hnone.
    erewrite bind_ok.
    2: { apply (bget_recycle_run (klocking bcache_lock k) (reverse order) HEAD); [done| |done|].
         - intros i. rewrite elem_of_reverse. by rewrite Hin.
         - rewrite length_reverse. lia. }
    cbn [k_bcache klocking upd].
    destruct (first_buf _ _ (reverse order)) as [b|] eqn:Efree.
    2: { exfalso. destruct Hex as (i & Hi & [Hat|Hr0]).
         - apply (Hnone i); [by apply Hin|done].
         - destruct (bi_lookup _ _ _ _ _ i Hinv) as [y Hy]; [lia|].
           eapply (first_buf_None _ _ _ i Efree); [rewrite elem_of_reverse; by apply Hin|].
           exists y. split; [done|]. destruct (Href i y Hy) as (r & Hr & Er). apply Z.eqb_eq. congruence. }
    apply first_buf_Some in Efree as [Hb (x & Hx & Hrx)]. rewrite elem_of_reverse in Hb. apply Hin in Hb.
    apply Z.eqb_eq in Hrx. destruct (Href b x Hx) as (r & Hr & Er).
    assert (b ∉ held.*1) as Hnh.
    { intros ([b' bn'] & -> & Hbn)%list_elem_of_fmap. cbn in *.
      destruct (bi_held _ _ _ _ _ Hinv _ _ Hbn) as (_ & _ & (r' & Hr' & ?)). simplify_eq. lia. }
    exists b, x, (x <| b_dev := dev |> <| b_blockno := bn |> <| b_valid := 0 |> <| b_refcnt := 1 |>), p.
    split_and!; [done..| |done|done|done|done|cbn; lia|].
    + unfold set_buf. mrun. rewrite (bc_alter _ b x) by done. by eapply (bget_locked held V dirty R k b x).
    + right. split_and!; [done|done|]. intros i Hi. apply Hnone. by apply Hin.
Qed.

(** ** Changing one buffer *)

(** [k'] is [k] with buffer [b] replaced, up to what a frame allows. *)
Definition replaced (k k' : kernel) (b : nat) (x' : buf) : Prop :=
  bio_frame k k' /\ k_bcache k' = <[b := x']> (k_bcache k) /\
  disk_image (k_device k') = disk_image (k_device k).

Lemma replaced_eq k k' b x x' : replaced k k' b x' -> k_bcache k !! b = Some x -> k_bcache k' !! b = Some x'.
Proof. intros (_ & -> & _) Hx. apply list_lookup_insert_eq. by eapply lookup_lt_Some. Qed.

Lemma replaced_ne k k' b x' i : replaced k k' b x' -> i <> b -> k_bcache k' !! i = k_bcache k !! i.
Proof. intros (_ & -> & _) Hne. by apply list_lookup_insert_ne. Qed.

Lemma replaced_buf_is_ne k k' b x' i bn : replaced k k' b x' -> i <> b -> buf_is k' i bn <-> buf_is k i bn.
Proof. intros Hr Hne. unfold buf_is. by rewrite (replaced_ne _ _ _ _ _ Hr Hne). Qed.

Lemma replaced_pinned_ne k k' b x' i bn R r :
  replaced k k' b x' -> i <> b -> pinned R k i bn -> pinned (<[b := r]> R) k' i bn.
Proof.
  intros Hr Hne (Hi & Hb & (r' & Hr' & ?)). split_and!; [done|by eapply replaced_buf_is_ne|].
  exists r'. by rewrite list_lookup_insert_ne.
Qed.

(** The sleep lock of another buffer. *)
Lemma lock_ok_frame held held' k k' i :
  bio_frame k k' -> slock k' (buf_sleeplock i) = slock k (buf_sleeplock i) ->
  (i ∈ held'.*1 <-> i ∈ held.*1) -> buf_lock_ok held k i -> buf_lock_ok held' k' i.
Proof.
  intros Hf Hs Hin. unfold buf_lock_ok. rewrite Hs.
  repeat case_decide; try tauto. intros [Hl (p & Hp & Hpid)]. split; [done|].
  destruct (bio_frame_pid _ _ _ _ Hf Hp) as (q & Hq & E). exists q. split; [done|congruence].
Qed.

Lemma refs_lookup held V dirty R k b x :
  bio_inv held V dirty R k -> k_bcache k !! b = Some x -> R !! b = Some (b_refcnt x).
Proof. intros Hinv Hx. by rewrite <- (bi_refs _ _ _ _ _ Hinv), list_lookup_fmap, Hx. Qed.

Lemma refs_replaced k k' b x x' R r :
  replaced k k' b x' -> k_bcache k !! b = Some x -> b_refcnt <$> k_bcache k = R -> b_refcnt x' = r ->
  b_refcnt <$> k_bcache k' = <[b := r]> R.
Proof. intros (_ & -> & _) Hx <- <-. apply list_fmap_insert. Qed.

Lemma ring_replaced held V dirty R k k' b x x' :
  bio_inv held V dirty R k -> replaced k k' b x' -> k_bcache k !! b = Some x ->
  b_next x' = b_next x -> b_prev x' = b_prev x -> exists order, ring (k_bcache k') order.
Proof.
  intros Hinv (_ & -> & _) Hx En Ep. destruct (bi_ring _ _ _ _ _ Hinv) as (order & Hr).
  exists order. by eapply ring_upd.
Qed.

(** Taking buffer [b] for block [bn]. *)
Lemma bio_inv_got held V dirty R k k' b x x' bn p nm :
  bio_inv held V dirty R k -> replaced k k' b x' -> k_bcache k !! b = Some x -> (b < HEAD)%nat ->
  b ∉ held.*1 -> k_proc k !! me = Some p ->
  k_sleeplocks k' = <[buf_sleeplock b := mksleeplock 1 nm (p_pid p)]> (k_sleeplocks k) ->
  disk_writes (k_device k') = disk_writes (k_device k) ->
  b_next x' = b_next x -> b_prev x' = b_prev x -> b_dev x' = dev -> b_blockno x' = bn ->
  b_valid x' <> 0 -> b_data x' = V bn -> b_refcnt x' = b_refcnt x + 1 -> b_refcnt x + 1 < 2 ^ 32 ->
  (caches dev bn x = true \/
   b_refcnt x = 0 /\ forall i, (i < HEAD)%nat -> ~ at_buf (k_bcache k) (caches dev bn) i) ->
  bio_inv ((b, bn) :: held) V dirty (<[b := b_refcnt x + 1]> R) k'.
Proof.
  intros Hinv Hr Hx Hb Hnh Hp Hlk Hw En Ep Edev Ebn Hval Hdata Eref Hlt Hor.
  pose proof (refs_lookup _ _ _ _ _ _ _ Hinv Hx) as HRb.
  pose proof (replaced_eq _ _ _ _ _ Hr Hx) as Hx'. pose proof Hr as (Hf & Hbc & Himg).
  assert (0 <= b_refcnt x) as Hnn by (apply (Forall_lookup_1 _ _ _ _ (bi_refs_ok _ _ _ _ _ Hinv) HRb)).
  assert (pinned (<[b := b_refcnt x + 1]> R) k' b bn) as Hpinb.
  { split_and!; [done|by exists x'|]. exists (b_refcnt x + 1).
    rewrite list_lookup_insert_eq by by eapply lookup_lt_Some. split; [done|lia]. }
  assert (forall bn', pinned R k b bn' -> bn' = bn) as Hpinned.
  { intros bn' (_ & (y & Hy & _ & By & _) & (r & Hr' & ?)). simplify_eq.
    destruct Hor as [[_ ?]%caches_true|[? _]]; [done|lia]. }
  split.
  - by eapply bio_frame_calm, (bi_calm _ _ _ _ _ Hinv).
  - by eapply ring_replaced.
  - intros i j y z Hi Hj Hy Hz [Dy By]%caches_true Dz.
    destruct (decide (i = b)) as [->|Hib], (decide (j = b)) as [->|Hjb]; try done.
    + rewrite (replaced_ne _ _ _ _ _ Hr Hjb) in Hz. simplify_eq. destruct Hor as [Hc|[_ Hnone]].
      * eapply (bi_uniq _ _ _ _ _ Hinv); [done..| |done]. by rewrite By in Hc.
      * exfalso. apply (Hnone j Hj). exists z. split; [done|]. by apply caches_true.
    + rewrite (replaced_ne _ _ _ _ _ Hr Hib) in Hy. simplify_eq. destruct Hor as [Hc|[_ Hnone]].
      * eapply (bi_uniq _ _ _ _ _ Hinv); [done..| |by apply caches_true in Hc as [? _]].
        apply caches_true. split; [done|]. apply caches_true in Hc as [_ ?]. congruence.
      * exfalso. apply (Hnone i Hi). exists y. split; [done|]. by apply caches_true.
    + rewrite (replaced_ne _ _ _ _ _ Hr Hib) in Hy. rewrite (replaced_ne _ _ _ _ _ Hr Hjb) in Hz.
      eapply (bi_uniq _ _ _ _ _ Hinv i j); [done..| |done]. by apply caches_true.
  - eapply refs_replaced; [done..|apply (bi_refs _ _ _ _ _ Hinv)|done].
  - apply Forall_insert; [apply (bi_refs_ok _ _ _ _ _ Hinv)|lia].
  - intros i bn' y Hi Hbi Hy. destruct (decide (i = b)) as [->|Hib].
    + destruct Hbi as (z & Hz & _ & Bz & _). simplify_eq. done.
    + rewrite (replaced_ne _ _ _ _ _ Hr Hib) in Hy. apply (replaced_buf_is_ne _ _ _ _ _ _ Hr Hib) in Hbi.
      by eapply (bi_coh _ _ _ _ _ Hinv).
  - intros bn' Hbn'. rewrite (bi_clean _ _ _ _ _ Hinv) by done. unfold content. by rewrite Hw, Himg.
  - intros bn' Hbn'. destruct (bi_dirty _ _ _ _ _ Hinv bn' Hbn') as (i & Hi).
    destruct (decide (i = b)) as [->|Hib]; [|exists i; by eapply replaced_pinned_ne].
    exists b. by rewrite (Hpinned _ Hi).
  - intros i bn' [[= -> ->]|Hin]%elem_of_cons; [done|]. eapply replaced_pinned_ne; [done| |].
    + intros ->. apply Hnh, list_elem_of_fmap. by exists (b, bn').
    + by apply (bi_held _ _ _ _ _ Hinv).
  - cbn. apply NoDup_cons. split; [done|apply (bi_nodup _ _ _ _ _ Hinv)].
  - intros i Hi. destruct (decide (i = b)) as [->|Hib].
    + unfold buf_lock_ok, slock. rewrite decide_True by (cbn; by left). rewrite Hlk, lookup_insert_eq. cbn.
      split; [done|]. destruct (bio_frame_pid _ _ _ _ Hf Hp) as (q & Hq & E). by exists q.
    + eapply (lock_ok_frame held); [done| | |by apply (bi_locks _ _ _ _ _ Hinv)].
      * unfold slock. rewrite Hlk, lookup_insert_ne; [done|congruence].
      * cbn. rewrite elem_of_cons. split; [by intros [?|?]|by right].
Qed.

(** ** [bread] *)

Lemma bread_run held V dirty R k bn :
  bio_inv held V dirty R k -> wait_fuel <> O -> bn ∉ held.*2 ->
  Forall (fun r => r + 1 < 2 ^ 32) R ->
  (exists i, (i < HEAD)%nat /\ (at_buf (k_bcache k) (caches dev bn) i \/ R !! i = Some 0)) ->
  exists b r k', bread dev bn k = Ok b k' /\ R !! b = Some r /\ (b < HEAD)%nat /\ (bn ∈ dirty -> 1 <= r) /\
    bio_inv ((b, bn) :: held) V dirty (<[b := r + 1]> R) k' /\ bio_frame k k' /\
    disk_image (k_device k') = disk_image (k_device k) /\
    disk_writes (k_device k') = disk_writes (k_device k).
Proof.
  intros Hinv Hf Hh HR Hex.
  destruct (bget_run held V dirty R k bn Hinv Hf Hh HR Hex)
    as (b & x & x' & p & Hx & Hb & Hnh & Hp & Hrun & En & Ep & Edev & Ebn & Eref & Hor).
  pose proof (refs_lookup _ _ _ _ _ _ _ Hinv Hx) as HRb.
  assert (b_refcnt x + 1 < 2 ^ 32) as Hlt by (apply (Forall_lookup_1 _ _ _ _ HR HRb)).
  assert (k_bcache (got k b x' p) !! b = Some x') as Hx'.
  { cbn. apply list_lookup_insert_eq. by eapply lookup_lt_Some. }
  assert (bio_frame k (got k b x' p)) as Hgf.
  { apply bio_frame_local; [done|apply same_inode_locks_buf]. }
  assert (bn ∈ dirty -> caches dev bn x = true /\ b_valid x <> 0 /\ 1 <= b_refcnt x) as Hdirty.
  { intros Hd. destruct (bi_dirty _ _ _ _ _ Hinv bn Hd) as (i & Hi & (y & Hy & Dy & By & Vy) & (r & Hr & ?)).
    destruct Hor as [(Hc & _)|(_ & _ & Hnone)].
    - assert (i = b) as ->; [|split_and!; congruence].
      eapply (bi_uniq _ _ _ _ _ Hinv); [done..| |by apply caches_true in Hc as [? _]].
      apply caches_true. split; [done|]. apply caches_true in Hc as [_ ?]. congruence.
    - exfalso. apply (Hnone i Hi). exists y. split; [done|]. by apply caches_true. }
  assert (bn ∈ dirty -> 1 <= b_refcnt x) as Hdr by (intros Hd; apply (Hdirty Hd)).
  unfold bread. erewrite bind_ok by exact Hrun. unfold get_buf. erewrite bind_ok by by apply get_entry.
  unfold when, ctrue. destruct (Z.eqb_spec (b_valid x') 0) as [Ev|Ev]; cbn [negb].
  - destruct (disk_read_law me (got k b x' p) b x') as (k1 & Hrw & Hf1 & Hsl & Himg & Hwr & Hbc1); [|done|].
    { eapply bio_frame_calm; [exact Hgf|apply (bi_calm _ _ _ _ _ Hinv)]. }
    rewrite bind_bind. erewrite bind_ok by exact Hrw. unfold set_buf. mrun.
    eexists b, (b_refcnt x), _. split; [unfold ret; reflexivity|].
    assert (bn ∉ dirty) as Hnd.
    { intros Hd. destruct (Hdirty Hd) as (_ & ? & ?). destruct Hor as [(_ & ? & _)|(? & _)]; [congruence|lia]. }
    set (x2 := x' <| b_data := _ |> <| b_disk := 0 |>) in Hbc1.
    assert (k_bcache k1 !! b = Some x2) as Hx2.
    { rewrite Hbc1. apply list_lookup_insert_eq. by eapply lookup_lt_Some. }
    split_and!; [done..| | |done|done].
    + eapply (bio_inv_got _ _ _ _ k _ b x (x2 <| b_valid := 1 |>)); try done.
      * split_and!; [|cbn -[alter]|done].
        -- etrans; [exact Hgf|]. etrans; [exact Hf1|]. by apply bio_frame_local.
        -- rewrite (list_alter_insert _ _ _ _ Hx2), Hbc1. cbn. by rewrite !list_insert_insert_eq.
      * cbn. exact Hsl.
      * cbn. rewrite (bi_clean _ _ _ _ _ Hinv) by done. unfold content. by rewrite Ebn.
      * destruct Hor as [(? & _)|(? & _ & ?)]; [by left|by right].
    + etrans; [exact Hgf|]. etrans; [exact Hf1|]. by apply bio_frame_local.
  - destruct Hor as [(Hc & Ev' & Ed)|(_ & Ev0 & _)]; [|done]. mrun.
    exists b, (b_refcnt x), (got k b x' p). split_and!; [done..| |done|done|done].
    apply caches_true in Hc as Hc'. destruct Hc' as [Dx Bx].
    eapply (bio_inv_got _ _ _ _ k _ b x x'); try done; [|by left].
    rewrite Ed. apply (bi_coh _ _ _ _ _ Hinv b bn x); [done| |done]. exists x. by rewrite <- Ev'.
Qed.

(** ** Using a held buffer *)

(** A held buffer changes its contents, or is written to the disk. *)
Lemma bio_inv_upd r held V V' dirty dirty' R k k' b bn x x' :
  bio_inv held V dirty R k -> (b, bn) ∈ held -> replaced k k' b x' -> k_bcache k !! b = Some x ->
  k_sleeplocks k' = k_sleeplocks k -> b_next x' = b_next x -> b_prev x' = b_prev x ->
  b_dev x' = b_dev x -> b_blockno x' = b_blockno x -> b_valid x' = b_valid x -> b_refcnt x' = r -> 1 <= r < 2 ^ 32 ->
  b_data x' = V' bn -> (forall bn', bn' <> bn -> V' bn' = V bn') ->
  (forall bn', bn' ∈ dirty' -> bn' = bn \/ bn' ∈ dirty) ->
  (forall bn', bn' ∉ dirty' -> V' bn' = content k' bn') ->
  bio_inv held V' dirty' (<[b := r]> R) k'.
Proof.
  intros Hinv Hin Hr Hx Hsl En Ep Edev Ebn Ev Eref Hbd Ed HV Hdirty Hclean.
  pose proof (bi_held _ _ _ _ _ Hinv _ _ Hin) as Hpin. pose proof Hpin as (Hb & (y & Hy & Dy & By & Vy) & _).
  assert (y = x) as -> by congruence. clear Hy. subst bn. pose proof Hr as (Hf & Hbc & Himg).
  assert (forall i bn', buf_is k' i bn' <-> buf_is k i bn') as Hbi.
  { intros i bn'. destruct (decide (i = b)) as [->|Hib]; [|by eapply replaced_buf_is_ne].
    pose proof (replaced_eq _ _ _ _ _ Hr Hx) as Hx'. unfold buf_is. rewrite Hx, Hx'.
    split; intros (z & [= <-] & ? & ? & ?); eexists; (split; [done|]); by rewrite ?Edev, ?Ebn, ?Ev in *. }
  assert (forall i bn', pinned R k i bn' -> pinned (<[b := r]> R) k' i bn') as Hpi.
  { intros i bn' (Hi & Hi1 & (r' & Hr' & ?)). split_and!; [done|by apply Hbi|].
    destruct (decide (i = b)) as [->|Hib]; [|exists r'; by rewrite list_lookup_insert_ne].
    exists r. rewrite list_lookup_insert_eq by by eapply lookup_lt_Some. split; [done|lia]. }
  split.
  - by eapply bio_frame_calm, (bi_calm _ _ _ _ _ Hinv).
  - by eapply ring_replaced.
  - intros i j y z Hi Hj Hy Hz [Dy' By']%caches_true Dz.
    assert (forall i y, k_bcache k' !! i = Some y -> exists y', k_bcache k !! i = Some y' /\
      b_dev y' = b_dev y /\ b_blockno y' = b_blockno y) as Hold.
    { intros i' y' Hy'. destruct (decide (i' = b)) as [->|Hib].
      - rewrite (replaced_eq _ _ _ _ _ Hr Hx) in Hy'. simplify_eq. by exists x.
      - rewrite (replaced_ne _ _ _ _ _ Hr Hib) in Hy'. by exists y'. }
    destruct (Hold _ _ Hy) as (y' & Hy' & E1 & E2), (Hold _ _ Hz) as (z' & Hz' & E3 & E4).
    eapply (bi_uniq _ _ _ _ _ Hinv i j); [done..| |congruence]. apply caches_true. split; congruence.
  - by eapply refs_replaced; [done|done|apply (bi_refs _ _ _ _ _ Hinv)|].
  - apply Forall_insert; [apply (bi_refs_ok _ _ _ _ _ Hinv)|lia].
  - intros i bn' z Hi Hbz Hz. destruct (decide (i = b)) as [->|Hib].
    + rewrite (replaced_eq _ _ _ _ _ Hr Hx) in Hz. simplify_eq.
      apply Hbi in Hbz as (w & Hw & _ & Bw & _). simplify_eq. done.
    + rewrite (replaced_ne _ _ _ _ _ Hr Hib) in Hz. apply Hbi in Hbz.
      rewrite HV; [by eapply (bi_coh _ _ _ _ _ Hinv)|]. intros ->. apply Hib.
      eapply buf_is_inj; [done|done|done|done|by exists x].
  - exact Hclean.
  - intros bn' [->|Hd]%Hdirty; [exists b; by apply Hpi|].
    destruct (bi_dirty _ _ _ _ _ Hinv _ Hd) as (i & Hi). exists i. by apply Hpi.
  - intros i bn' Hi. by apply Hpi, (bi_held _ _ _ _ _ Hinv).
  - apply (bi_nodup _ _ _ _ _ Hinv).
  - intros i Hi. eapply (lock_ok_frame held); [done|unfold slock; by rewrite Hsl|done|].
    by apply (bi_locks _ _ _ _ _ Hinv).
Qed.

(** A held buffer is referenced; writing its own count changes nothing. *)
Lemma held_refs held V dirty R k b bn x :
  bio_inv held V dirty R k -> (b, bn) ∈ held -> k_bcache k !! b = Some x ->
  1 <= b_refcnt x < 2 ^ 32 /\ <[b := b_refcnt x]> R = R.
Proof.
  intros Hinv Hin Hx. pose proof (refs_lookup _ _ _ _ _ _ _ Hinv Hx) as HR.
  destruct (bi_held _ _ _ _ _ Hinv _ _ Hin) as (_ & _ & (r & Hr & ?)). simplify_eq.
  pose proof (Forall_lookup_1 _ _ _ _ (bi_refs_ok _ _ _ _ _ Hinv) HR) as Hb. cbn in Hb.
  split; [lia|]. by apply list_insert_id.
Qed.

(** The holder overwrites the contents. *)
Lemma set_data_run held V dirty R k b bn (f : list Z -> list Z) :
  bio_inv held V dirty R k -> (b, bn) ∈ held ->
  exists k', set_buf b (fun x => x <| b_data ::= f |>) k = Ok tt k' /\ bio_frame k k' /\
    k_device k' = k_device k /\ bio_inv held (<[bn := f (V bn)]> V) ({[bn]} ∪ dirty) R k'.
Proof.
  intros Hinv Hin. pose proof (bi_held _ _ _ _ _ Hinv _ _ Hin) as (Hb & Hbi & _).
  pose proof Hbi as (x & Hx & _). eexists. split; [reflexivity|].
  rewrite (bc_alter _ b x) by done.
  assert (bio_frame k (k <| k_bcache ::= fun bc => <[b := x <| b_data ::= f |>]> bc |>)) as Hf
    by by apply bio_frame_local.
  split_and!; [done|done|]. destruct (held_refs _ _ _ _ _ _ _ _ Hinv Hin Hx) as [Hr <-].
  eapply (bio_inv_upd (b_refcnt x) held V _ dirty _ R k _ b bn x); [done..| | | |].
  - cbn. rewrite fn_lookup_insert. f_equal. by eapply (bi_coh _ _ _ _ _ Hinv).
  - intros bn' Hne. by rewrite fn_lookup_insert_ne.
  - intros bn'. rewrite elem_of_union, elem_of_singleton. tauto.
  - intros bn' Hd. rewrite not_elem_of_union, not_elem_of_singleton in Hd. destruct Hd as [Hne Hd].
    rewrite fn_lookup_insert_ne by done. by rewrite (bi_clean _ _ _ _ _ Hinv).
Qed.

Lemma holding_held held V dirty R k b bn :
  bio_inv held V dirty R k -> (b, bn) ∈ held -> holdingsleep (buf_sleeplock b) k = Ok true k.
Proof.
  intros Hinv Hin. pose proof (bi_held _ _ _ _ _ Hinv _ _ Hin) as (Hb & _).
  pose proof (bi_locks _ _ _ _ _ Hinv b Hb) as Hl. unfold buf_lock_ok in Hl.
  rewrite decide_True in Hl by (apply list_elem_of_fmap; by exists (b, bn)).
  destruct Hl as [Hl (p & Hp & Hpid)].
  rewrite (holdingsleep_run [] me _ p); [|apply (bi_calm _ _ _ _ _ Hinv)|exact Hb|apply not_elem_of_nil|done].
  rewrite Hl, Hpid, Z.eqb_refl. done.
Qed.

(** [bwrite] makes the disk's contents of the block the cached ones. *)
Lemma bwrite_run held V dirty R k b bn :
  bio_inv held V dirty R k -> (b, bn) ∈ held ->
  exists k', bwrite b k = Ok tt k' /\ bio_frame k k' /\
    disk_image (k_device k') = disk_image (k_device k) /\
    disk_writes (k_device k') = disk_writes (k_device k) ++ [(bn, V bn)] /\
    bio_inv held V (dirty ∖ {[bn]}) R k'.
Proof.
  intros Hinv Hin. pose proof (bi_held _ _ _ _ _ Hinv _ _ Hin) as (Hb & Hbi & _).
  pose proof Hbi as (x & Hx & _ & Bx & _).
  pose proof (bi_coh _ _ _ _ _ Hinv b bn x Hb Hbi Hx) as Hdata.
  destruct (disk_write_law me k b x) as (k' & Hrun & Hf & Hsl & Himg & Hw & Hbc);
    [apply (bi_calm _ _ _ _ _ Hinv)|done|].
  exists k'. split_and!; [|done|done|by rewrite Hw, Bx, Hdata|].
  { unfold bwrite. by erewrite bind_ok by by eapply holding_held. }
  destruct (held_refs _ _ _ _ _ _ _ _ Hinv Hin Hx) as [Hr <-].
  eapply (bio_inv_upd (b_refcnt x) held V V dirty _ R k k' b bn x (x <| b_disk := 0 |>)); try done.
  - intros bn'. rewrite elem_of_difference. tauto.
  - intros bn' Hd. unfold content. rewrite Hw, Himg, replay_app, Bx, Hdata. cbn.
    destruct (decide (bn' = bn)) as [->|Hne]; [by rewrite fn_lookup_insert|].
    rewrite fn_lookup_insert_ne by done. apply (bi_clean _ _ _ _ _ Hinv). intros Hin'. apply Hd, elem_of_difference. by rewrite not_elem_of_singleton.
Qed.

(** A held buffer's reference count changes, under [bcache.lock]. *)
Lemma set_refs_run (g : Z -> Z) held V dirty R k b bn r :
  bio_inv held V dirty R k -> (b, bn) ∈ held -> R !! b = Some r -> 1 <= g r < 2 ^ 32 ->
  exists k', (mach (acquire bcache_lock) ;; set_buf b (fun x => x <| b_refcnt ::= g |>) ;;
              mach (release bcache_lock)) k = Ok tt k' /\
    bio_frame k k' /\ k_device k' = k_device k /\ bio_inv held V dirty (<[b := g r]> R) k'.
Proof.
  intros Hinv Hin HR Hr. pose proof (bi_held _ _ _ _ _ Hinv _ _ Hin) as (Hb & Hbi & _).
  pose proof Hbi as (x & Hx & _). pose proof (refs_lookup _ _ _ _ _ _ _ Hinv Hx) as HR'. simplify_eq.
  destruct (bi_calm _ _ _ _ _ Hinv) as (Hs & Hl & _).
  exists (k <| k_bcache ::= fun bc => <[b := x <| b_refcnt ::= g |>]> bc |>).
  assert (bio_frame k (k <| k_bcache ::= fun bc => <[b := x <| b_refcnt ::= g |>]> bc |>)) as Hf
    by by apply bio_frame_local.
  split_and!; [|done|done|].
  - erewrite bind_ok by (apply kacquire; [done|apply Hl; [done|apply not_elem_of_nil]]).
    unfold set_buf. mrun. rewrite (bc_alter _ b x) by done.
    erewrite krelease; [|exact Hs|apply Hl; [done|apply not_elem_of_nil]|done]. done.
  - eapply (bio_inv_upd (g (b_refcnt x)) held V V dirty _ R k _ b bn x); try done.
    + exact (bi_coh _ _ _ _ _ Hinv b bn x Hb Hbi Hx).
    + intros bn' Hd. by right.
    + apply (bi_clean _ _ _ _ _ Hinv).
Qed.

Lemma bpin_run held V dirty R k b bn r :
  bio_inv held V dirty R k -> (b, bn) ∈ held -> R !! b = Some r -> r + 1 < 2 ^ 32 ->
  exists k', bpin b k = Ok tt k' /\ bio_frame k k' /\ k_device k' = k_device k /\
    bio_inv held V dirty (<[b := r + 1]> R) k'.
Proof.
  intros Hinv Hin HR Hr. pose proof (Forall_lookup_1 _ _ _ _ (bi_refs_ok _ _ _ _ _ Hinv) HR) as Hb. cbn in Hb.
  rewrite <- (u32_small (r + 1)) by lia.
  apply (set_refs_run (fun n => u32 (n + 1)) held V dirty R k b bn); [done..|]. cbn. rewrite u32_small; lia.
Qed.

(** The caller still holds the buffer, so the count stays positive. *)
Lemma bunpin_run held V dirty R k b bn r :
  bio_inv held V dirty R k -> (b, bn) ∈ held -> R !! b = Some r -> 2 <= r ->
  exists k', bunpin b k = Ok tt k' /\ bio_frame k k' /\ k_device k' = k_device k /\
    bio_inv held V dirty (<[b := r - 1]> R) k'.
Proof.
  intros Hinv Hin HR Hr. pose proof (Forall_lookup_1 _ _ _ _ (bi_refs_ok _ _ _ _ _ Hinv) HR) as Hb. cbn in Hb.
  rewrite <- (u32_small (r - 1)) by lia.
  apply (set_refs_run (fun n => u32 (n - 1)) held V dirty R k b bn); [done..|]. cbn. rewrite u32_small; lia.
Qed.

(** ** [brelse] *)

Lemma links_run b k :
  (b < length (k_bcache k))%nat ->
  exists x, get_buf b k = Ok x k /\ b_next x = nxt (k_bcache k) b /\ b_prev x = prv (k_bcache k) b.
Proof.
  intros [x Hx]%lookup_lt_is_Some_2. exists x. split_and!; [by apply get_entry| |].
  - unfold nxt. by rewrite Hx.
  - unfold prv. by rewrite Hx.
Qed.

(** The pointer assignments of [brelse] are [relink]. *)
Lemma relink_run b k :
  (b < length (k_bcache k))%nat -> (HEAD < length (k_bcache k))%nat ->
  (x <- get_buf b ;;
   set_buf (b_next x) (fun y => y <| b_prev := b_prev x |>) ;;
   x <- get_buf b ;;
   set_buf (b_prev x) (fun y => y <| b_next := b_next x |>) ;;
   h <- get_buf HEAD ;;
   set_buf b (fun y => y <| b_next := b_next h |> <| b_prev := HEAD |>) ;;
   h <- get_buf HEAD ;;
   set_buf (b_next h) (fun y => y <| b_prev := b |>) ;;
   set_buf HEAD (fun y => y <| b_next := b |>)) k = Ok tt (k <| k_bcache ::= relink b |>).
Proof.
  intros Hb Hh. destruct (links_run b k Hb) as (x1 & E1 & En1 & Ep1).
  erewrite bind_ok by exact E1. unfold set_buf at 1. mrun. rewrite En1, Ep1.
  set (k1 := k <| k_bcache ::= _ |>).
  destruct (links_run b k1) as (x2 & E2 & En2 & Ep2); [cbn -[alter]; by rewrite length_alter|].
  erewrite bind_ok by exact E2. unfold set_buf at 1. mrun. rewrite En2, Ep2.
  set (k2 := k1 <| k_bcache ::= _ |>).
  destruct (links_run HEAD k2) as (x3 & E3 & En3 & _); [cbn -[alter]; by rewrite !length_alter|].
  erewrite bind_ok by exact E3. unfold set_buf at 1. mrun. rewrite En3.
  set (k3 := k2 <| k_bcache ::= _ |>).
  destruct (links_run HEAD k3) as (x4 & E4 & En4 & _); [cbn -[alter]; by rewrite !length_alter|].
  erewrite bind_ok by exact E4. unfold set_buf at 1. mrun. by rewrite En4.
Qed.

(** The fields a reference count and the links leave alone. *)
Definition same_block (y y' : buf) : Prop :=
  b_dev y' = b_dev y /\ b_blockno y' = b_blockno y /\ b_valid y' = b_valid y /\ b_data y' = b_data y.

Lemma payload_block bc bc' b x r :
  bc !! b = Some x -> same_payload (<[b := x <| b_refcnt := r |>]> bc) bc' ->
  (forall i y', bc' !! i = Some y' -> exists y, bc !! i = Some y /\ same_block y y') /\
  (forall i y, bc !! i = Some y -> exists y', bc' !! i = Some y' /\ same_block y y') /\
  b_refcnt <$> bc' = <[b := r]> (b_refcnt <$> bc).
Proof.
  intros Hx Hp.
  assert (forall i, option_relation (fun y y' => same_block y y' /\
    b_refcnt y' = if decide (i = b) then r else b_refcnt y) (fun _ => False) (fun _ => False) (bc !! i) (bc' !! i)) as Hrel.
  { intros i. specialize (Hp i). destruct (decide (i = b)) as [->|Hib].
    - rewrite list_lookup_insert_eq in Hp by by eapply lookup_lt_Some. rewrite Hx.
      destruct (bc' !! b) as [y|]; [|done]. destruct x, y. by injection Hp as -> -> -> -> -> ->.
    - rewrite list_lookup_insert_ne in Hp by done. destruct (bc !! i) as [z|], (bc' !! i) as [y|]; try done.
      destruct z, y. by injection Hp as -> -> -> -> -> ->. }
  split_and!.
  - intros i y' Hy'. specialize (Hrel i). rewrite Hy' in Hrel.
    destruct (bc !! i) as [y|]; [|done]. exists y. split; [done|apply Hrel].
  - intros i y Hy. specialize (Hrel i). rewrite Hy in Hrel.
    destruct (bc' !! i) as [y'|]; [|done]. exists y'. split; [done|apply Hrel].
  - apply list_eq. intros i. rewrite list_lookup_fmap. specialize (Hrel i). destruct (decide (i = b)) as [->|Hib].
    + rewrite list_lookup_insert_eq by (rewrite length_fmap; by eapply lookup_lt_Some).
      rewrite Hx in Hrel. destruct (bc' !! b) as [y|]; [|done]. destruct Hrel as [_ E]. cbn. by rewrite E.
    + rewrite list_lookup_insert_ne, list_lookup_fmap by done.
      destruct (bc !! i), (bc' !! i); try done. destruct Hrel as [_ E]. cbn. by rewrite E.
Qed.

(** The caller gives up buffer [b]: its sleep lock is free, its count is one
    less, and only links of the list have changed otherwise. *)
Lemma bio_inv_release held held' V dirty R k k' b bn x r nm :
  bio_inv held V dirty R k -> held ≡ₚ (b, bn) :: held' -> bio_frame k k' -> k_bcache k !! b = Some x ->
  same_payload (<[b := x <| b_refcnt := r |>]> (k_bcache k)) (k_bcache k') ->
  (exists order, ring (k_bcache k') order) ->
  k_sleeplocks k' = <[buf_sleeplock b := mksleeplock 0 nm 0]> (k_sleeplocks k) ->
  k_device k' = k_device k -> 0 <= r < 2 ^ 32 -> (bn ∈ dirty -> 1 <= r) ->
  bio_inv held' V dirty (<[b := r]> R) k'.
Proof.
  intros Hinv Hperm Hf Hx Hpay Hring Hsl Hdev Hr Hdr.
  assert ((b, bn) ∈ held) as Hin by (rewrite Hperm; by left).
  pose proof (bi_held _ _ _ _ _ Hinv _ _ Hin) as (Hb & Hbi & _).
  assert (NoDup ((b, bn) :: held').*1) as Hnd by (rewrite <- Hperm; apply (bi_nodup _ _ _ _ _ Hinv)).
  cbn in Hnd. apply NoDup_cons in Hnd as [Hnb Hnd].
  destruct (payload_block _ _ _ _ _ Hx Hpay) as (Hback & Hforth & Hrefs).
  assert (forall i bn', buf_is k' i bn' <-> buf_is k i bn') as Hbis.
  { intros i bn'. split; intros (y & Hy & ? & ? & ?);
      [destruct (Hback i y Hy) as (z & Hz & ? & ? & ? & ?)|destruct (Hforth i y Hy) as (z & Hz & ? & ? & ? & ?)];
      exists z; split_and!; congruence. }
  assert (forall i bn', pinned R k i bn' -> (i = b -> 1 <= r) -> pinned (<[b := r]> R) k' i bn') as Hpin.
  { intros i bn' (Hi & Hbi' & (r' & Hr' & ?)) Hib. split_and!; [done|by apply Hbis|].
    destruct (decide (i = b)) as [->|Hne]; [|exists r'; by rewrite list_lookup_insert_ne].
    exists r. rewrite list_lookup_insert_eq by by eapply lookup_lt_Some. split; [done|by apply Hib]. }
  split.
  - by eapply bio_frame_calm, (bi_calm _ _ _ _ _ Hinv).
  - done.
  - intros i j y z Hi Hj Hy Hz [Dy By]%caches_true Dz.
    destruct (Hback i y Hy) as (y' & Hy' & ? & ? & _), (Hback j z Hz) as (z' & Hz' & ? & ? & _).
    eapply (bi_uniq _ _ _ _ _ Hinv i j); [done..| |congruence]. apply caches_true. split; congruence.
  - rewrite Hrefs. by rewrite (bi_refs _ _ _ _ _ Hinv).
  - apply Forall_insert; [apply (bi_refs_ok _ _ _ _ _ Hinv)|lia].
  - intros i bn' y Hi Hy' Hy. apply Hbis in Hy'. destruct (Hback i y Hy) as (z & Hz & _ & _ & _ & ->).
    exact (bi_coh _ _ _ _ _ Hinv i bn' z Hi Hy' Hz).
  - intros bn' Hd. unfold content. rewrite Hdev. by apply (bi_clean _ _ _ _ _ Hinv).
  - intros bn' Hd. destruct (bi_dirty _ _ _ _ _ Hinv bn' Hd) as (i & Hi). exists i. apply Hpin; [done|].
    intros ->. apply Hdr. destruct Hi as (_ & (y & Hy & _ & By & _) & _), Hbi as (z & Hz & _ & Bz & _). congruence.
  - intros i bn' Hi. apply Hpin; [apply (bi_held _ _ _ _ _ Hinv); rewrite Hperm; by right|].
    intros ->. destruct Hnb. apply list_elem_of_fmap. by exists (b, bn').
  - done.
  - intros i Hi. destruct (decide (i = b)) as [->|Hib].
    + unfold buf_lock_ok, slock. rewrite decide_False by done. by rewrite Hsl, lookup_insert_eq.
    + eapply (lock_ok_frame held); [done| | |by apply (bi_locks _ _ _ _ _ Hinv)].
      * unfold slock. rewrite Hsl, lookup_insert_ne; [done|congruence].
      * rewrite Hperm. cbn. rewrite elem_of_cons. split; [by right|by intros [?|?]].
Qed.

(** The state in which [brelse] leaves the kernel. *)
Definition released (k : kernel) (b : nat) (x : buf) (r : Z) : kernel :=
  k <| k_sleeplocks ::= fun t => <[buf_sleeplock b := mksleeplock 0 (sl_name (slock k (buf_sleeplock b))) 0]> t |>
    <| k_proc ::= imap (wake me (Some (slock_chan (buf_sleeplock b)))) |>
    <| k_bcache ::= fun bc => (if r =? 0 then relink b else id) (<[b := x <| b_refcnt := r |>]> bc) |>.

Lemma brelse_step held V dirty R k b bn x :
  bio_inv held V dirty R k -> (b, bn) ∈ held -> k_bcache k !! b = Some x ->
  brelse b k = Ok tt (released k b x (b_refcnt x - 1)).
Proof.
  intros Hinv Hin Hx. destruct (held_refs _ _ _ _ _ _ _ _ Hinv Hin Hx) as [Hr _].
  pose proof (bi_held _ _ _ _ _ Hinv _ _ Hin) as (Hb & _).
  pose proof (bi_calm _ _ _ _ _ Hinv) as Hc. pose proof Hc as (Hs & Hl & _).
  destruct (bi_ring _ _ _ _ _ Hinv) as (order & Hlen & _).
  unfold brelse. erewrite bind_ok by by eapply holding_held. cbn [negb].
  erewrite bind_ok by (apply (releasesleep_run [] me); [done|exact Hb|apply not_elem_of_nil|intros; apply not_elem_of_nil]).
  erewrite bind_ok by (apply kacquire; [exact Hs|apply Hl; [done|apply not_elem_of_nil]]).
  unfold set_buf at 1. mrun. rewrite (bc_alter _ b x) by done.
  assert (x <| b_refcnt ::= fun n => u32 (n - 1) |> = x <| b_refcnt := b_refcnt x - 1 |>) as ->.
  { unfold upd. cbn -[u32]. by rewrite u32_small by lia. }
  set (k1 := upd k_bcache _ (klocking bcache_lock _)).
  assert (k_bcache k1 = <[b := x <| b_refcnt := b_refcnt x - 1 |>]> (k_bcache k)) as Hk1 by done.
  assert (length (k_bcache k1) = S HEAD) as Hlen1 by by rewrite Hk1, length_insert.
  erewrite bind_ok.
  2: { apply get_entry. rewrite Hk1. apply list_lookup_insert_eq. by eapply lookup_lt_Some. }
  cbn [b_refcnt upd]. unfold when, released.
  change (b_refcnt (x <| b_refcnt := b_refcnt x - 1 |>)) with (b_refcnt x - 1).
  destruct (b_refcnt x - 1 =? 0).
  - erewrite bind_ok by (apply relink_run; lia).
    erewrite krelease; [|exact Hs|apply Hl; [done|apply not_elem_of_nil]|done].
    done.
  - erewrite bind_ok by reflexivity.
    erewrite krelease; [|exact Hs|apply Hl; [done|apply not_elem_of_nil]|done].
    done.
Qed.

Lemma brelse_run held held' V dirty R k b bn r :
  bio_inv held V dirty R k -> held ≡ₚ (b, bn) :: held' -> R !! b = Some r -> (bn ∈ dirty -> 2 <= r) ->
  exists k', brelse b k = Ok tt k' /\ bio_frame k k' /\ k_device k' = k_device k /\
    bio_inv held' V dirty (<[b := r - 1]> R) k'.
Proof.
  intros Hinv Hperm HR Hd. assert ((b, bn) ∈ held) as Hin by (rewrite Hperm; by left).
  pose proof (bi_held _ _ _ _ _ Hinv _ _ Hin) as (Hb & (x & Hx & _) & _).
  pose proof (refs_lookup _ _ _ _ _ _ _ Hinv Hx) as HR'. assert (r = b_refcnt x) as -> by congruence.
  destruct (held_refs _ _ _ _ _ _ _ _ Hinv Hin Hx) as [Hr _].
  exists (released k b x (b_refcnt x - 1)).
  assert (bio_frame k (released k b x (b_refcnt x - 1))) as Hf.
  { exists (imap (wake me (Some (slock_chan (buf_sleeplock b)))) (k_proc k)),
      (k_sleeplocks (released k b x (b_refcnt x - 1))), (k_bcache (released k b x (b_refcnt x - 1))), (k_disk k), (k_device k).
    split_and!; [by destruct k|apply imap_wake_woken|apply same_inode_locks_buf]. }
  split_and!; [by eapply brelse_step|done|done|].
  eapply (bio_inv_release held held' V dirty R k _ b bn x (b_refcnt x - 1)); try done; [| |lia|intros Hdn; specialize (Hd Hdn); lia].
  - intros i. cbn -[relink]. unfold upd. cbn -[relink]. destruct (b_refcnt x - 1 =? 0); [|done].
    apply relink_payload.
  - destruct (bi_ring _ _ _ _ _ Hinv) as (order & Hring).
    assert (ring (<[b := x <| b_refcnt := b_refcnt x - 1 |>]> (k_bcache k)) order) as Hring' by by eapply ring_upd.
    cbn -[relink]. unfold upd. cbn -[relink]. destruct (b_refcnt x - 1 =? 0); [|by exists order].
    assert (b ∈ order) as (l1 & l2 & ->)%list_elem_of_split by by eapply ring_elem.
    exists (b :: l1 ++ l2). by apply ring_relink.
Qed.

(** ** [binit] *)

(** A buffer in the zeroed memory the kernel starts with. *)
Definition zero_buf : buf := mkbuf 0 0 0 0 0 0 0 (replicate (Z.to_nat BSIZE) 0).

(** What one iteration of [binit] does to the list: put [b] in front. *)
Definition push_front (bc : list buf) (b : nat) : list buf :=
  let bc1 := alter (fun x => x <| b_next := nxt bc HEAD |> <| b_prev := HEAD |>) b bc in
  let bc2 := alter (fun x => x <| b_prev := b |>) (nxt bc HEAD) bc1 in
  alter (fun x => x <| b_next := b |>) HEAD bc2.

(** The state of buffer [b]'s locks after [initsleeplock]. *)
Definition buf_init (k : kernel) (b : nat) : Prop :=
  slock k (buf_sleeplock b) = mksleeplock 0 "buffer" 0 /\ lock_free (buf_lk b) (k_m k).

Lemma length_push_front bc b : length (push_front bc b) = length bc.
Proof. unfold push_front. by rewrite !length_alter. Qed.

Lemma binit_one_run b k :
  (HEAD < length (k_bcache k))%nat ->
  exists k', binit_one b k = Ok tt k' /\ k_bcache k' = push_front (k_bcache k) b /\ buf_init k' b /\
    (forall i, buf_init k i -> buf_init k' i) /\ (lock_free bcache_lock (k_m k) -> lock_free bcache_lock (k_m k')).
Proof.
  intros Hh. destruct (links_run HEAD k Hh) as (h & Eh & En & _).
  eexists. split; [|split_and!].
  - unfold binit_one. erewrite bind_ok by exact Eh. rewrite En. unfold set_buf at 1. rewrite bind_modify.
    unfold initsleeplock, set_slock. rewrite bind_bind. erewrite bind_ok by by apply mach_ok.
    rewrite bind_modify. unfold set_buf at 1. rewrite bind_modify. reflexivity.
  - done.
  - split; [unfold slock; cbn; by rewrite lookup_insert_eq|]. exists "sleep lock"%string. cbn. by rewrite lookup_insert_eq.
  - intros i [Hs [nm Hl]]. unfold buf_init, slock, lock_free in *. cbn. destruct (decide (i = b)) as [->|Hne].
    + rewrite !lookup_insert_eq. split; [done|]. by eexists.
    + rewrite !lookup_insert_ne by congruence. split; [done|]. by exists nm.
  - intros [nm Hl]. exists nm. cbn. by rewrite lookup_insert_ne.
Qed.

Lemma binit_loop l k :
  (HEAD < length (k_bcache k))%nat ->
  exists k', for_each l binit_one k = Ok tt k' /\ k_bcache k' = foldl push_front (k_bcache k) l /\
    (forall i, i ∈ l \/ buf_init k i -> buf_init k' i) /\ (lock_free bcache_lock (k_m k) -> lock_free bcache_lock (k_m k')).
Proof.
  revert k. induction l as [|b l IH]; intros k Hh.
  - exists k. split_and!; [done|done| |done]. intros i [?%elem_of_nil|?]; done.
  - destruct (binit_one_run b k Hh) as (k1 & E1 & Hb1 & Hi1 & Hr1 & Hl1).
    destruct (IH k1) as (k2 & E2 & Hb2 & Hi2 & Hl2); [by rewrite Hb1, length_push_front|].
    exists k2. split_and!; [cbn; by erewrite bind_ok by exact E1|by rewrite Hb2, Hb1| |auto].
    intros i [[->|Hi]%elem_of_cons|Hi]; apply Hi2; auto.
Qed.

(** [binit] threads all [NBUF] buffers on the circular list, in both
    directions, and initialises their locks; from zeroed memory the cache
    then satisfies its invariant, with no block cached or referenced, for
    every process that later runs with the cache still in this state. *)
Theorem binit_spec k :
  k_bcache k = replicate (S HEAD) zero_buf -> 0 < dev ->
  exists k', binit k = Ok tt k' /\ ring (k_bcache k') (reverse bufs) /\ lock_free bcache_lock (k_m k') /\
    (forall i, (i < HEAD)%nat -> buf_init k' i) /\
    forall k2, k_bcache k2 = k_bcache k' -> k_sleeplocks k2 = k_sleeplocks k' -> calm [] me k2 ->
      bio_inv [] (content k2) ∅ (replicate (S HEAD) 0) k2.
Proof.
  intros Hz Hdev. set (bc0 := alter (fun x => x <| b_prev := HEAD |> <| b_next := HEAD |>) HEAD (replicate (S HEAD) zero_buf)).
  destruct (binit_loop bufs (k <| k_m ::= fun m => m <| m_locks ::= fun t => <[bcache_lock := mkspinlock 0 "bcache" None]> t |> |>
    <| k_bcache := bc0 |>)) as (k' & E & Hbc & Hi & Hl).
  { change (HEAD < length bc0)%nat. unfold bc0. rewrite length_alter, length_replicate. lia. }
  cbn [k_bcache] in Hbc. change (k_bcache (_ <| k_bcache := bc0 |>)) with bc0 in Hbc.
  assert (ring (k_bcache k') (reverse bufs)) as Hring.
  { rewrite Hbc. split_and!; [by vm_compute|apply reverse_Permutation|vm_compute; by repeat split|vm_compute; by repeat split]. }
  assert (Forall (fun x => b_dev x = 0 /\ b_refcnt x = 0) (k_bcache k')) as Hall.
  { rewrite Hbc. apply (bool_decide_unpack _). by vm_compute. }
  assert (b_refcnt <$> k_bcache k' = replicate (S HEAD) 0) as Hrefs by (rewrite Hbc; by vm_compute).
  clear Hbc. exists k'. split_and!; [|exact Hring| | |].
  - unfold binit. erewrite bind_ok by by apply mach_ok. unfold set_buf. rewrite bind_modify.
    rewrite <- E. f_equal. unfold bc0. rewrite <- Hz. done.
  - apply Hl. exists "bcache"%string. cbn. by rewrite lookup_insert_eq.
  - intros i Hlt. apply Hi. left. unfold bufs. rewrite elem_of_seq. lia.
  - intros k2 Ebc Esl Hcalm.
    assert (forall i x, k_bcache k2 !! i = Some x -> b_dev x = dev -> False) as Hno.
    { intros i x Hx. rewrite Ebc in Hx. destruct (Forall_lookup_1 _ _ _ _ Hall Hx) as [-> _]. lia. }
    split; [exact Hcalm|rewrite Ebc; exists (reverse bufs); exact Hring| |rewrite Ebc; exact Hrefs
      |apply Forall_replicate; lia| |intros; reflexivity| | |apply NoDup_nil_2|].
    + intros i j x y _ _ _ Hy _ Dy. destruct (Hno _ _ Hy Dy).
    + intros i bn x _ (y & Hy & Dy & _) _. destruct (Hno _ _ Hy Dy).
    + intros bn Hbn. destruct (not_elem_of_empty bn Hbn).
    + intros i bn Hin. destruct (not_elem_of_nil _ Hin).
    + intros i Hlt. unfold buf_lock_ok. rewrite decide_False by apply not_elem_of_nil. unfold slock. rewrite Esl.
      assert (buf_init k' i) as [Hs _] by (apply Hi; left; unfold bufs; rewrite elem_of_seq; lia). unfold slock in Hs. by rewrite Hs.
Qed.

(** ** Theorems *)

(** Without a cached copy and an unused buffer, [bget] gives up. *)
Lemma bget_full held V dirty R k bn :
  bio_inv held V dirty R k ->
  (forall i, (i < HEAD)%nat -> ~ at_buf (k_bcache k) (caches dev bn) i /\ R !! i <> Some 0) ->
  exists k', bget dev bn k = Panic "bget: no buffers" k'.
Proof.
  intros Hinv Hfull. destruct (bi_calm _ _ _ _ _ Hinv) as (Hs & Hl & Hc).
  destruct (bi_ring _ _ _ _ _ Hinv) as (order & Hring). pose proof Hring as (Hlen & Hperm & Hn & Hpv).
  assert (length order = HEAD) as Hol by (rewrite Hperm; apply length_seq).
  assert (forall i, i ∈ order <-> (i < HEAD)%nat) as Hin by (intros i; by eapply ring_elem).
  destruct (links_run HEAD (klocking bcache_lock k)) as (h & Eh & En & Ep); [cbn; lia|].
  unfold bget. erewrite bind_ok by (apply kacquire; [done|apply Hl; [done|apply not_elem_of_nil]]).
  erewrite bind_ok by exact Eh. rewrite En, Ep.
  erewrite bind_ok.
  2: { apply (bget_find_run (klocking bcache_lock k) order HEAD); [done| |done|lia]. intros i. by rewrite Hin. }
  destruct (first_buf _ _ order) as [b|] eqn:Efind.
  { apply first_buf_Some in Efind as [Hb Hat]. apply Hin in Hb. by destruct (Hfull b Hb) as [? _]. }
  erewrite bind_ok.
  2: { apply (bget_recycle_run (klocking bcache_lock k) (reverse order) HEAD); [done| |done|].
       - intros i. rewrite elem_of_reverse. by rewrite Hin.
       - rewrite length_reverse. lia. }
  destruct (first_buf _ _ (reverse order)) as [b|] eqn:Efree; [|by eexists].
  apply first_buf_Some in Efree as [Hb (x & Hx & Hr)]. rewrite elem_of_reverse in Hb. apply Hin in Hb.
  destruct (Hfull b Hb) as [_ Hne]. destruct Hne. rewrite (refs_lookup _ _ _ _ _ _ _ Hinv Hx).
  apply Z.eqb_eq in Hr. by rewrite Hr.
Qed.

(** C17: [bread] returns a buffer that holds the current contents of the
    block, whether they were cached or had to be read from the disk, with
    its sleep lock held by the caller and one more reference; the cache
    stays consistent (at most one buffer per block), and nothing is written.
    Only when every buffer is in use does it panic. *)
Theorem bread_spec held V dirty R k bn :
  bio_inv held V dirty R k -> wait_fuel <> O -> bn ∉ held.*2 -> Forall (fun r => r + 1 < 2 ^ 32) R ->
  if decide (Exists (fun i => at_buf (k_bcache k) (caches dev bn) i \/ R !! i = Some 0) bufs) then
    exists b x r k', bread dev bn k = Ok b k' /\ k_bcache k' !! b = Some x /\ b_blockno x = bn /\ b_data x = V bn /\
      holdingsleep (buf_sleeplock b) k' = Ok true k' /\ R !! b = Some r /\
      bio_inv ((b, bn) :: held) V dirty (<[b := r + 1]> R) k' /\ content k' = content k
  else exists k', bread dev bn k = Panic "bget: no buffers" k'.
Proof.
  intros Hinv Hf Hh HR. case_decide as Hex.
  - apply Exists_exists in Hex as (i & Hi & Hor). unfold bufs in Hi. apply elem_of_seq in Hi.
    destruct (bread_run held V dirty R k bn Hinv Hf Hh HR) as (b & r & k' & E & Hr & Hb & _ & Hinv' & _ & Himg & Hw).
    { exists i. split; [lia|done]. }
    destruct (bi_held _ _ _ _ _ Hinv' b bn) as (_ & Hbi & _); [by left|]. pose proof Hbi as (x & Hx & _ & Bx & _).
    exists b, x, r, k'. split_and!; [done|done|done| | |done|done|].
    + exact (bi_coh _ _ _ _ _ Hinv' b bn x Hb Hbi Hx).
    + eapply holding_held; [done|by left].
    + unfold content. by rewrite Himg, Hw.
  - destruct (bget_full held V dirty R k bn Hinv) as (k' & E).
    + intros i Hi. split; intros Hc; apply Hex, Exists_exists; exists i; (split; [|by auto]);
        unfold bufs; apply elem_of_seq; lia.
    + exists k'. unfold bread, bind. by rewrite E.
Qed.

(** [brelse] of a held buffer frees its sleep lock and gives back one
    reference; when that was the last one the buffer becomes the most
    recently used one, the others keeping their order. It panics for a
    buffer the caller does not hold. *)
Theorem brelse_spec held held' V dirty R k b bn r order :
  bio_inv held V dirty R k -> held ≡ₚ (b, bn) :: held' -> R !! b = Some r -> (bn ∈ dirty -> 2 <= r) ->
  ring (k_bcache k) order ->
  (exists k', brelse b k = Ok tt k' /\ bio_inv held' V dirty (<[b := r - 1]> R) k' /\
    sl_locked (slock k' (buf_sleeplock b)) = 0 /\ content k' = content k /\
    ring (k_bcache k') (if decide (r = 1) then b :: filter (fun i => i <> b) order else order)) /\
  (forall c, (c < HEAD)%nat -> c ∉ held.*1 -> exists k', brelse c k = Panic "brelse" k').
Proof.
  intros Hinv Hperm HR Hd Hring. assert ((b, bn) ∈ held) as Hin by (rewrite Hperm; by left). split.
  - pose proof (bi_held _ _ _ _ _ Hinv _ _ Hin) as (Hb & (x & Hx & _) & _).
    destruct (brelse_run held held' V dirty R k b bn r Hinv Hperm HR Hd) as (k' & E & _ & Hdev & Hinv').
    exists k'. split_and!; [done|done| |unfold content; by rewrite Hdev|].
    + pose proof (bi_locks _ _ _ _ _ Hinv' b Hb) as Hl. unfold buf_lock_ok in Hl. rewrite decide_False in Hl; [done|].
      pose proof (bi_nodup _ _ _ _ _ Hinv) as Hnd. rewrite Hperm in Hnd. by apply NoDup_cons in Hnd as [? _].
    + rewrite (brelse_step _ _ _ _ _ _ _ _ Hinv Hin Hx) in E. injection E as <-.
      assert (r = b_refcnt x) as -> by (pose proof (refs_lookup _ _ _ _ _ _ _ Hinv Hx); congruence).
      set (r := b_refcnt x). unfold released. cbn -[relink]. unfold upd. cbn -[relink].
      assert (ring (<[b := x <| b_refcnt := r - 1 |>]> (k_bcache k)) order) as Hring' by by eapply ring_upd.
      case_decide as Hr; [|assert ((r - 1 =? 0) = false) as -> by lia; exact Hring'].
      assert ((r - 1 =? 0) = true) as -> by lia. pose proof (ring_NoDup _ _ Hring) as Hnd.
      assert (b ∈ order) as (l1 & l2 & ->)%list_elem_of_split by by eapply ring_elem.
      apply NoDup_cons in Hnd as [_ Hnd]. apply NoDup_app in Hnd as (_ & Hd1 & [Hb2 _]%NoDup_cons).
      rewrite filter_app, filter_cons_False by tauto. rewrite !list_filter_all.
      * by apply ring_relink.
      * apply Forall_forall. by intros y Hy ->.
      * apply Forall_forall. intros y Hy ->. apply (Hd1 b Hy). by left.
  - intros c Hc Hnh. pose proof (bi_calm _ _ _ _ _ Hinv) as Hcalm. destruct (me_entry _ _ _ Hcalm) as [p Hp].
    pose proof (bi_locks _ _ _ _ _ Hinv c Hc) as Hl. unfold buf_lock_ok in Hl. rewrite decide_False in Hl by done.
    exists k. unfold brelse.
    erewrite bind_ok by (apply (holdingsleep_run [] me _ p); [done|exact Hc|apply not_elem_of_nil|done]).
    by rewrite Hl.
Qed.

End bio.
