(* ===== verification/LogDisk.v ===== *)
(** * What the log leaves on the disk

    The write-ahead log as a function of the disk: [commit_writes] is the
    sequence of block writes of [commit], [recovered] the disk after
    [recover_from_log]. A crash leaves a prefix of the writes on the disk;
    recovery then yields the disk before the transaction or the disk after
    it, and nothing in between. A block write is taken to be atomic. *)

From stdpp Require Import functions.
From S2P Require Import Prelude Riscv Machine Spinlock PhysMem Kalloc Vm Kernel Sched Sleeplock Bio Bytes Log Thread BioRing BioSpec.

(** The header block with the block numbers [bl] from entry [i] on. *)
Fixpoint put_blocks (i : Z) (bl : list Z) (d : list Z) : list Z :=
  match bl with
  | [] => d
  | b :: bl' => put_blocks (i + 1) bl' (set32 d (4 + 4 * i) b)
  end.

(** The header block [write_head] makes of the header block [d]. *)
Definition hdr_put (bl : list Z) (d : list Z) : list Z :=
  put_blocks 0 bl (set32 d 0 (Z.of_nat (length bl))).

(** The block numbers [read_head] finds in it. *)
Definition hdr_get (d : list Z) : list Z := hdr_block d <$> seqZ 0 (hdr_n d).

(** The writes of [write_log] and [install_trans] for the blocks [bl],
    [i] being the index of the first one. *)
Fixpoint log_copies (start i : Z) (bl : list Z) (V : Z -> list Z) : list (Z * list Z) :=
  match bl with
  | [] => []
  | b :: bl' => (start + i + 1, V b) :: log_copies start (i + 1) bl' V
  end.

Fixpoint installs (start i : Z) (bl : list Z) (V : Z -> list Z) : list (Z * list Z) :=
  match bl with
  | [] => []
  | b :: bl' => (b, V (start + i + 1)) :: installs start (i + 1) bl' V
  end.

Definition clear_head (start : Z) (img : Z -> list Z) : Z * list Z := (start, hdr_put [] (img start)).

(** The disk writes of [commit] when the cache shows [V]. *)
Definition commit_writes (start : Z) (bl : list Z) (V : Z -> list Z) : list (Z * list Z) :=
  log_copies start 0 bl V ++ [(start, hdr_put bl (V start))] ++
  ((fun b => (b, V b)) <$> bl) ++ [(start, hdr_put [] (hdr_put bl (V start)))].

(** The disk writes of [recover_from_log] on the disk [img]. *)
Definition recovery_writes (start : Z) (img : Z -> list Z) : list (Z * list Z) :=
  installs start 0 (hdr_get (img start)) img ++ [clear_head start img].

Definition recovered (start : Z) (img : Z -> list Z) : Z -> list Z :=
  replay (recovery_writes start img) img.

(** The blocks a transaction may change: not those of the log. *)
Definition outside (start size b : Z) : Prop := 0 <= b < 2 ^ 31 /\ ~ (start <= b < start + size).

(** A well-formed transaction. *)
Record trans_ok (start size : Z) (bl : list Z) : Prop := {
  to_len : Z.of_nat (length bl) <= size - 1;
  to_max : (length bl <= Z.to_nat LOGSIZE)%nat;
  to_out : Forall (outside start size) bl
}.

(** ** Header encoding *)

Lemma length_put_blocks i bl d : length (put_blocks i bl d) = length d.
Proof. revert i d. induction bl; intros; cbn; [done|]. by rewrite IHbl, length_set32. Qed.

Lemma length_hdr_put bl d : length (hdr_put bl d) = length d.
Proof. unfold hdr_put. by rewrite length_put_blocks, length_set32. Qed.

Lemma get32_put_blocks_out i bl d off :
  0 <= i -> 0 <= off -> off + 4 <= 4 + 4 * i -> get32 (put_blocks i bl d) off = get32 d off.
Proof.
  revert i d. induction bl as [|b bl IH]; intros i d Hi H0 Ho; cbn; [done|].
  rewrite IH by lia. apply get32_set32_out; lia.
Qed.

Lemma get32_put_blocks i bl d j b :
  0 <= i -> 4 + 4 * (i + Z.of_nat (length bl)) <= Z.of_nat (length d) -> bl !! j = Some b ->
  get32 (put_blocks i bl d) (4 + 4 * (i + Z.of_nat j)) = u32 b.
Proof.
  revert i d j. induction bl as [|b' bl IH]; intros i d j Hi Hlen Hj; [done|]. cbn [put_blocks length] in *.
  destruct j as [|j].
  - injection Hj as ->. rewrite get32_put_blocks_out by lia. replace (i + Z.of_nat 0) with i by lia.
    apply get32_set32; lia.
  - replace (i + Z.of_nat (S j)) with (i + 1 + Z.of_nat j) by lia. apply IH; [lia| |done].
    rewrite length_set32. lia.
Qed.

Lemma s32_u32 x : - 2 ^ 31 <= x < 2 ^ 31 -> s32 (u32 x) = x.
Proof.
  intros Hx. unfold s32, u32. rewrite Zplus_mod_idemp_l. rewrite Z.mod_small; lia.
Qed.

Lemma hdr_n_put bl d :
  4 <= Z.of_nat (length d) -> Z.of_nat (length bl) < 2 ^ 31 -> hdr_n (hdr_put bl d) = Z.of_nat (length bl).
Proof.
  intros Hd Hb. unfold hdr_n, hdr_put. rewrite get32_put_blocks_out by lia.
  rewrite get32_set32 by lia. apply s32_u32. lia.
Qed.

Lemma hdr_get_put_ok bl d :
  Forall (fun b => - 2 ^ 31 <= b < 2 ^ 31) bl -> 4 + 4 * Z.of_nat (length bl) <= Z.of_nat (length d) ->
  Z.of_nat (length bl) < 2 ^ 31 -> hdr_get (hdr_put bl d) = bl.
Proof.
  intros Hbl Hlen Hmax. unfold hdr_get. rewrite hdr_n_put by lia.
  apply list_eq. intros j. rewrite list_lookup_fmap. destruct (bl !! j) as [b|] eqn:Hj.
  - rewrite lookup_seqZ_lt by (apply lookup_lt_Some in Hj; lia). cbn. f_equal.
    unfold hdr_block, hdr_put. rewrite (get32_put_blocks 0 bl _ j b) by (rewrite ?length_set32; done || lia).
    apply s32_u32. by eapply (Forall_lookup_1 _ _ _ _ Hbl).
  - rewrite lookup_seqZ_ge; [done|]. apply lookup_ge_None in Hj. lia.
Qed.

Lemma hdr_get_clear d : 4 <= Z.of_nat (length d) -> hdr_get (hdr_put [] d) = [].
Proof. intros Hd. apply hdr_get_put_ok; [constructor|cbn; lia|cbn; lia]. Qed.

(** ** Replaying writes *)

Lemma replay_notin ws img b : b ∉ ws.*1 -> replay ws img b = img b.
Proof.
  revert img. induction ws as [|[b' d] ws IH]; intros img Hb; [done|]. cbn in *.
  apply not_elem_of_cons in Hb as [Hne Hb]. rewrite IH by done. by rewrite fn_lookup_insert_ne.
Qed.

(** All writes to a block agree. *)
Lemma replay_const ws img b d : b ∈ ws.*1 -> (forall d', (b, d') ∈ ws -> d' = d) -> replay ws img b = d.
Proof.
  revert img. induction ws as [|[b' d'] ws IH]; intros img Hin Hd; [by apply elem_of_nil in Hin|]. cbn in *.
  destruct (decide (b ∈ ws.*1)) as [Hin'|Hin'].
  - apply IH; [done|]. intros d2 H2. apply Hd. by right.
  - apply elem_of_cons in Hin as [->|?]; [|done]. rewrite replay_notin by done.
    rewrite fn_lookup_insert. apply Hd. by left.
Qed.

Lemma replay_ext ws img img' b : img b = img' b -> replay ws img b = replay ws img' b.
Proof.
  revert img img'. induction ws as [|[b' d] ws IH]; intros img img' E; [done|]. cbn. apply IH.
  destruct (decide (b = b')) as [->|]; [by rewrite !fn_lookup_insert|by rewrite !fn_lookup_insert_ne].
Qed.

Lemma log_copies_elem start i bl V b d :
  (b, d) ∈ log_copies start i bl V -> exists j x, bl !! j = Some x /\ b = start + (i + Z.of_nat j) + 1 /\ d = V x.
Proof.
  revert i. induction bl as [|x bl IH]; intros i; cbn; [by intros ?%elem_of_nil|].
  intros [[= -> ->]|H]%elem_of_cons.
  - exists O, x. split_and!; [done|lia|done].
  - destruct (IH _ H) as (j & y & Hj & -> & ->). exists (S j), y. split_and!; [done|lia|done].
Qed.

Lemma log_copies_lookup start i bl V j x :
  bl !! j = Some x -> (start + (i + Z.of_nat j) + 1, V x) ∈ log_copies start i bl V.
Proof.
  revert i j. induction bl as [|y bl IH]; intros i j Hj; [done|]. cbn. destruct j as [|j].
  - injection Hj as ->. replace (start + (i + Z.of_nat 0) + 1) with (start + i + 1) by lia. by left.
  - right. replace (start + (i + Z.of_nat (S j)) + 1) with (start + (i + 1 + Z.of_nat j) + 1) by lia. by apply IH.
Qed.

Lemma log_copies_ext start i bl V V' :
  (forall b, b ∈ bl -> V b = V' b) -> log_copies start i bl V = log_copies start i bl V'.
Proof.
  revert i. induction bl as [|b bl IH]; intros i HV; cbn; [done|]. f_equal; [f_equal; apply HV; by left|].
  apply IH. intros x Hx. apply HV. by right.
Qed.

Lemma length_log_copies start i bl V : length (log_copies start i bl V) = length bl.
Proof. revert i. induction bl; intros; cbn; [done|]. by rewrite IHbl. Qed.

Lemma installs_fst start i bl V : (installs start i bl V).*1 = bl.
Proof. revert i. induction bl; intros; cbn; [done|]. by rewrite IHbl. Qed.

(** The log copies hold the logged contents. *)
Lemma replay_copies start bl V img j x :
  bl !! j = Some x -> replay (log_copies start 0 bl V) img (start + Z.of_nat j + 1) = V x.
Proof.
  intros Hj. apply replay_const.
  - apply list_elem_of_fmap. exists (start + (0 + Z.of_nat j) + 1, V x). split; [cbn; lia|].
    by apply log_copies_lookup.
  - intros d (j' & y & Hj' & E & ->)%log_copies_elem. assert (j' = j) as -> by lia. congruence.
Qed.

(** Installing copies that hold [V]. *)
Lemma replay_installs start i bl V img ws b :
  (forall j x, bl !! j = Some x -> ws (start + (i + Z.of_nat j) + 1) = V x) ->
  replay (installs start i bl ws) img b = if decide (b ∈ bl) then V b else img b.
Proof.
  revert i img. induction bl as [|x bl IH]; intros i img Hws; cbn [installs replay].
  { rewrite decide_False; [done|apply not_elem_of_nil]. }
  rewrite (IH (i + 1)).
  2: { intros j y Hj. rewrite <- (Hws (S j) y Hj). f_equal. lia. }
  destruct (decide (b ∈ bl)) as [Hin|Hin].
  - by rewrite decide_True by by right.
  - destruct (decide (b = x)) as [->|Hne].
    + rewrite fn_lookup_insert, decide_True by by left. rewrite <- (Hws O x eq_refl). f_equal. lia.
    + rewrite fn_lookup_insert_ne by done. rewrite decide_False; [done|]. by rewrite not_elem_of_cons.
Qed.

(** ** Recovery *)

(** The log on the disk [img] holds the contents [V] of the blocks [bl]. *)
Definition logged (start : Z) (bl : list Z) (V img : Z -> list Z) : Prop :=
  hdr_get (img start) = bl /\ forall j x, bl !! j = Some x -> img (start + Z.of_nat j + 1) = V x.

Lemma recovered_logged start bl V img b :
  logged start bl V img -> b <> start -> recovered start img b = if decide (b ∈ bl) then V b else img b.
Proof.
  intros [Hh Hc] Hb. unfold recovered, recovery_writes. rewrite replay_app, Hh. cbn.
  rewrite fn_lookup_insert_ne by done. by apply replay_installs.
Qed.

Lemma recovered_head start img :
  4 <= Z.of_nat (length (img start)) -> hdr_get (recovered start img start) = [].
Proof.
  intros Hlen. unfold recovered, recovery_writes. rewrite replay_app. cbn.
  rewrite fn_lookup_insert. by apply hdr_get_clear.
Qed.

Lemma logged_nil start V img : hdr_get (img start) = [] -> logged start [] V img.
Proof. intros Hh. split; [done|]. by intros j x ?. Qed.

(** Writes to blocks outside the log keep it. *)
Lemma logged_replay start size bl V img ws :
  Z.of_nat (length bl) <= size - 1 -> Forall (outside start size) ws.*1 ->
  logged start bl V img -> logged start bl V (replay ws img).
Proof.
  intros Hlen Hout [Hh Hc]. rewrite Forall_forall in Hout. split.
  - rewrite replay_notin; [done|]. intros Hin. destruct (Hout _ Hin) as [_ Hn]. lia.
  - intros j x Hj. rewrite replay_notin; [by apply Hc|]. intros Hin. destruct (Hout _ Hin) as [_ Hn].
    apply lookup_lt_Some in Hj. lia.
Qed.

Lemma Forall_fst_take {A} (P : Z -> Prop) (ws : list (Z * A)) i : Forall P ws.*1 -> Forall P (take i ws).*1.
Proof. intros H. rewrite fmap_take. by apply Forall_take. Qed.

(** A disk on which part of the homes may have been written. *)
Lemma recovered_logged_replay start size bl V img ws b :
  Z.of_nat (length bl) <= size - 1 -> Forall (outside start size) bl -> (forall b', b' ∈ ws.*1 -> b' ∈ bl) ->
  logged start bl V img -> outside start size b ->
  recovered start (replay ws img) b = if decide (b ∈ bl) then V b else img b.
Proof.
  intros Hlen Hout Hws Hl Hb. rewrite (recovered_logged start bl V).
  - case_decide as Hin; [done|]. apply replay_notin. intros ?%Hws. done.
  - eapply logged_replay; [done| |done]. apply Forall_forall. intros b' ?%Hws.
    by eapply Forall_forall in Hout.
  - destruct Hb as [_ Hb]. lia.
Qed.

(** The log after its copies and its header are on the disk. *)
Lemma logged_commit start size bl V img :
  trans_ok start size bl -> 4 + 4 * LOGSIZE <= Z.of_nat (length (V start)) ->
  logged start bl V (replay [(start, hdr_put bl (V start))] (replay (log_copies start 0 bl V) img)).
Proof.
  intros [Hlen Hmax Hout] Hd. split.
  - cbn. rewrite fn_lookup_insert. change LOGSIZE with 30 in *. apply hdr_get_put_ok; [|lia..].
    eapply Forall_impl; [exact Hout|]. intros b [Hb _]. lia.
  - intros j x Hj. cbn. rewrite fn_lookup_insert_ne by lia. by apply replay_copies.
Qed.

Lemma commit_prefix start bl V i :
  let n := length bl in
  (i <= n)%nat /\ take i (commit_writes start bl V) = take i (log_copies start 0 bl V) \/
  (n < i <= 2 * n + 1)%nat /\
    take i (commit_writes start bl V) = log_copies start 0 bl V ++ [(start, hdr_put bl (V start))] ++
      take (i - n - 1) ((fun b => (b, V b)) <$> bl) \/
  (2 * n + 1 < i)%nat /\ take i (commit_writes start bl V) = commit_writes start bl V.
Proof.
  intros n. unfold commit_writes. set (B := (fun b : Z => (b, V b)) <$> bl).
  assert (length (log_copies start 0 bl V) = n) as HA by apply length_log_copies.
  assert (length B = n) as HB by apply length_fmap. clearbody n B.
  destruct (decide (i <= n)%nat) as [Hi|Hi]; [left; split; [done|apply take_app_le; lia]|right].
  destruct (decide (i <= 2 * n + 1)%nat) as [Hi2|Hi2]; [left|right]; (split; [lia|]).
  - rewrite take_app_ge by lia. f_equal. rewrite HA. rewrite take_app_ge by (cbn; lia). f_equal. cbn.
    rewrite take_app_le by lia. done.
  - apply take_ge. rewrite !length_app. cbn. lia.
Qed.

(** The parts of a commit's writes. *)
Lemma homes_fst (V : Z -> list Z) bl : ((fun b => (b, V b)) <$> bl).*1 = bl.
Proof. rewrite <- list_fmap_compose. apply list_fmap_id. Qed.

Lemma copies_in_log start size bl V :
  Z.of_nat (length bl) <= size - 1 ->
  Forall (fun b => start < b < start + size) (log_copies start 0 bl V).*1.
Proof.
  intros Hlen. apply Forall_forall. intros b' ([b1 d] & -> & H)%list_elem_of_fmap. cbn.
  apply log_copies_elem in H as (j & x & Hj & -> & _). apply lookup_lt_Some in Hj. lia.
Qed.

(** Writes to the log do not touch other blocks. *)
Lemma replay_log start size ws img b :
  Forall (fun b' => start <= b' < start + size) ws.*1 -> outside start size b -> replay ws img b = img b.
Proof.
  intros Hws [_ Hb]. apply replay_notin. intros Hin. eapply Forall_forall in Hws; [|done]. cbn in Hws. lia.
Qed.

(** The disk with the log written, whatever homes have been installed. *)
Lemma commit_point start size bl V img ws b :
  trans_ok start size bl -> 4 + 4 * LOGSIZE <= Z.of_nat (length (V start)) ->
  (forall b', b' ∉ bl -> V b' = img b') -> outside start size b -> Forall (fun b' => b' ∈ bl) ws.*1 ->
  recovered start (replay ws (replay [(start, hdr_put bl (V start))] (replay (log_copies start 0 bl V) img))) b = V b.
Proof.
  intros Htrans Hd HV Hb Hws. pose proof Htrans as [Hlen Hmax Hout].
  rewrite (recovered_logged_replay start size bl V); [|lia|done| |by apply logged_commit with size|done].
  - case_decide as Hin; [done|]. rewrite (HV b Hin), <- replay_app. eapply replay_log; [|done].
    rewrite fmap_app. apply Forall_app. split.
    + eapply Forall_impl; [by apply copies_in_log|]. cbn. lia.
    + cbn. repeat constructor; lia.
  - intros b' Hin. by eapply Forall_forall in Hws.
Qed.

(** After all its writes the disk holds the transaction, and an empty log. *)
Lemma replay_commit start size bl V img b :
  trans_ok start size bl -> (forall b', b' ∉ bl -> V b' = img b') -> outside start size b ->
  replay (commit_writes start bl V) img b = V b.
Proof.
  intros [Hlen Hmax Hout] HV Hb. pose proof Hb as [_ Hb']. unfold commit_writes. rewrite !replay_app.
  cbn [replay]. rewrite fn_lookup_insert_ne by lia. destruct (decide (b ∈ bl)) as [Hin|Hin].
  - apply replay_const; [by rewrite homes_fst|].
    intros d' (b' & [= <- ->] & _)%list_elem_of_fmap. done.
  - rewrite replay_notin by by rewrite homes_fst. rewrite fn_lookup_insert_ne by lia.
    rewrite (HV b Hin). eapply replay_log; [|done]. eapply Forall_impl; [by apply copies_in_log|]. cbn. lia.
Qed.

(** Whatever prefix of the commit's writes reached the disk, recovery gives
    the old contents, or the new contents from the header write on. *)
Lemma crash_recovered start size bl V img i b :
  trans_ok start size bl -> hdr_get (img start) = [] -> V start = img start ->
  4 + 4 * LOGSIZE <= Z.of_nat (length (img start)) ->
  (forall b', b' ∉ bl -> V b' = img b') -> outside start size b ->
  recovered start (replay (take i (commit_writes start bl V)) img) b =
    if decide (i <= length bl)%nat then img b else V b.
Proof.
  intros Htrans Hold Es Hd HV Hb. pose proof Htrans as [Hlen Hmax Hout]. pose proof Hb as [_ Hb'].
  destruct (commit_prefix start bl V i) as [[Hi ->]|[[Hi ->]|[Hi ->]]].
  - rewrite decide_True by done.
    assert (Forall (fun b => start < b < start + size) (take i (log_copies start 0 bl V)).*1) as HA
      by by apply Forall_fst_take, copies_in_log.
    rewrite (recovered_logged start [] V); [|apply logged_nil|lia].
    + rewrite decide_False by apply not_elem_of_nil. eapply replay_log; [|done].
      eapply Forall_impl; [exact HA|]. cbn. lia.
    + rewrite replay_notin; [done|]. intros Hin. eapply Forall_forall in HA; [|done]. cbn in HA. lia.
  - rewrite decide_False by lia. rewrite !replay_app. apply (commit_point start size); try done; [by rewrite Es|].
    apply Forall_fst_take. by rewrite homes_fst, Forall_forall.
  - rewrite decide_False by lia. rewrite (recovered_logged start [] V); [|apply logged_nil|lia].
    + rewrite decide_False by apply not_elem_of_nil. by eapply replay_commit.
    + unfold commit_writes. rewrite !replay_app. cbn. rewrite fn_lookup_insert. apply hdr_get_clear.
      rewrite length_hdr_put, Es. change LOGSIZE with 30 in *. lia.
Qed.

(** The last write to a block decides, whatever was there before. *)
Lemma replay_in ws img img' b : b ∈ ws.*1 -> replay ws img b = replay ws img' b.
Proof.
  revert img img'. induction ws as [|[b' d] ws IH]; intros img img' Hin; [by apply elem_of_nil in Hin|]. cbn in *.
  destruct (decide (b = b')) as [->|Hne]; [apply replay_ext; by rewrite !fn_lookup_insert|].
  apply elem_of_cons in Hin as [?|Hin]; [done|]. by apply IH.
Qed.

Lemma replay_absorb ws ws' img b :
  (forall b', b' ∈ ws'.*1 -> b' ∈ ws.*1) -> replay ws (replay ws' img) b = replay ws img b.
Proof.
  intros Hin. destruct (decide (b ∈ ws.*1)) as [Hb|Hb]; [by apply replay_in|].
  apply replay_ext, replay_notin. intros ?%Hin. done.
Qed.

Lemma installs_ext start i bl V V' :
  (forall j, (j < length bl)%nat -> V (start + (i + Z.of_nat j) + 1) = V' (start + (i + Z.of_nat j) + 1)) ->
  installs start i bl V = installs start i bl V'.
Proof.
  revert i. induction bl as [|b bl IH]; intros i HV; cbn; [done|]. f_equal.
  - f_equal. specialize (HV O). rewrite Z.add_0_r in HV. apply HV. cbn. lia.
  - apply IH. intros j Hj. specialize (HV (S j)). cbn [length] in HV.
    replace (i + 1 + Z.of_nat j) with (i + Z.of_nat (S j)) by lia. apply HV. lia.
Qed.

Lemma length_installs start i bl V : length (installs start i bl V) = length bl.
Proof. by rewrite <- (installs_fst start i bl V) at 2; rewrite length_fmap. Qed.

(** A crash during recovery, then recovery again. *)
Lemma crash_in_recovery start size img i b :
  trans_ok start size (hdr_get (img start)) -> 4 <= Z.of_nat (length (img start)) -> outside start size b ->
  recovered start (replay (take i (recovery_writes start img)) img) b = recovered start img b.
Proof.
  intros [Hlen Hmax Hout] Hd Hb. pose proof Hb as [_ Hb']. unfold recovery_writes.
  destruct (decide (i <= length (hdr_get (img start)))%nat) as [Hi|Hi].
  - rewrite take_app_le by by rewrite length_installs.
    set (ws := take i _). assert (forall b', b' ∈ ws.*1 -> b' ∈ hdr_get (img start)) as Hws.
    { intros b'. unfold ws. rewrite fmap_take, installs_fst. by intros (? & ? & ?)%elem_of_take;
        eapply list_elem_of_lookup_2. }
    assert (forall a, start <= a < start + size -> replay ws img a = img a) as Hsame.
    { intros a Ha. apply replay_notin. intros Hin%Hws. eapply Forall_forall in Hout as [_ Hn]; [|done]. lia. }
    unfold recovered, recovery_writes. rewrite !replay_app. cbn. rewrite !fn_lookup_insert_ne by lia.
    rewrite (Hsame start) by lia. rewrite (installs_ext _ _ _ (replay ws img) img).
    + apply replay_absorb. by rewrite installs_fst.
    + intros j Hj. apply Hsame. lia.
  - rewrite take_ge by (rewrite length_app, length_installs; cbn; lia).
    change (replay (_ ++ _) img) with (recovered start img).
    rewrite (recovered_logged start [] img); [|apply logged_nil; by apply recovered_head|lia].
    rewrite decide_False by apply not_elem_of_nil. done.
Qed.

(** ** The header after a crash *)

Lemma crash_header start size bl V img i :
  trans_ok start size bl ->
  let h := replay (take i (commit_writes start bl V)) img start in
  h = img start \/ h = hdr_put bl (V start) \/ h = hdr_put [] (hdr_put bl (V start)).
Proof.
  intros [Hlen Hmax Hout] h. subst h.
  assert (start ∉ bl) as Hns.
  { intros Hin. eapply Forall_forall in Hout as [_ Ho]; [|exact Hin]. lia. }
  destruct (commit_prefix start bl V i) as [[Hi ->]|[[Hi ->]|[Hi ->]]].
  - left. apply replay_notin. rewrite fmap_take. intros (j & Hj & _)%elem_of_take.
    apply list_lookup_fmap_Some in Hj as ([b' d'] & E & Hj).
    apply list_elem_of_lookup_2, log_copies_elem in Hj as (j' & x & _ & ? & _). cbn in E. lia.
  - right; left. rewrite !replay_app, replay_notin; [cbn; by rewrite fn_lookup_insert|].
    rewrite fmap_take, homes_fst. intros (j & Hj & _)%elem_of_take. apply Hns. by eapply list_elem_of_lookup_2.
  - right; right. unfold commit_writes. rewrite !replay_app. cbn. by rewrite fn_lookup_insert.
Qed.

(** A header block that recovery can act on. *)
Definition head_ok (start size : Z) (d : list Z) : Prop :=
  0 <= hdr_n d /\ trans_ok start size (hdr_get d) /\ 4 + 4 * LOGSIZE <= Z.of_nat (length d).

Lemma head_ok_put start size bl d :
  trans_ok start size bl -> 4 + 4 * LOGSIZE <= Z.of_nat (length d) -> head_ok start size (hdr_put bl d).
Proof.
  intros Ht Hd. pose proof Ht as [Hlen Hmax Hout]. change LOGSIZE with 30 in *.
  split_and!; [rewrite hdr_n_put; lia| |by rewrite length_hdr_put].
  rewrite hdr_get_put_ok; [done| |lia|lia]. eapply Forall_impl; [exact Hout|]. intros b [? _]. lia.
Qed.

Lemma trans_ok_nil start size bl : trans_ok start size bl -> trans_ok start size [].
Proof. intros [? ? _]. split; cbn; [lia|lia|constructor]. Qed.

Lemma hdr_get_0 d : hdr_n d = 0 -> hdr_get d = [].
Proof. intros E. unfold hdr_get. by rewrite E. Qed.

(** Every crash during a commit leaves such a header. *)
Lemma crash_head_ok start size bl V img i :
  trans_ok start size bl -> hdr_n (img start) = 0 -> V start = img start ->
  4 + 4 * LOGSIZE <= Z.of_nat (length (img start)) ->
  head_ok start size (replay (take i (commit_writes start bl V)) img start).
Proof.
  intros Ht Hn Es Hd. destruct (crash_header start size bl V img i Ht) as [->|[->| ->]].
  - split_and!; [lia| |done]. rewrite hdr_get_0 by done. by eapply trans_ok_nil.
  - apply head_ok_put; [done|by rewrite Es].
  - apply head_ok_put; [by eapply trans_ok_nil|by rewrite length_hdr_put, Es].
Qed.

(** And so does every crash during a recovery. *)
Lemma crash_recovery_head_ok start size img i :
  head_ok start size (img start) ->
  head_ok start size (replay (take i (recovery_writes start img)) img start).
Proof.
  intros Hh. pose proof Hh as (Hn & Ht & Hd). pose proof Ht as [Hlen Hmax Hout].
  assert (start ∉ hdr_get (img start)) as Hns.
  { intros Hin. eapply Forall_forall in Hout as [_ Ho]; [|exact Hin]. lia. }
  unfold recovery_writes. destruct (decide (i <= length (hdr_get (img start)))%nat) as [Hi|Hi].
  - rewrite take_app_le by by rewrite length_installs. rewrite replay_notin; [done|].
    rewrite fmap_take, installs_fst. intros (j & Hj & _)%elem_of_take. apply Hns. by eapply list_elem_of_lookup_2.
  - rewrite take_ge by (rewrite length_app, length_installs; cbn; lia). rewrite replay_app. cbn.
    rewrite fn_lookup_insert. apply (head_ok_put start size []); [by eapply trans_ok_nil|done].
Qed.
