(* ===== verification/LogSpec.v ===== *)
(** * Specification of the log

    [commit] and [recover_from_log], run through the buffer cache, perform
    exactly the disk writes of [LogDisk]: a commit is atomic with respect to
    crashes at every point, and so is a recovery. [log_write] keeps the list
    of logged blocks duplicate free and pins the cached block. *)

From stdpp Require Import functions.
From S2P Require Import Prelude Riscv Machine Spinlock PhysMem Kalloc Vm Kernel Sched Sleeplock Bio Bytes Log Thread BioRing BioSpec LogDisk.

Lemma gset_readd (X : gset Z) b : ({[b]} ∪ X) ∖ {[b]} = X ∖ {[b]}.
Proof. apply set_eq. intros x. rewrite !elem_of_difference, ?elem_of_union. tauto. Qed.

Lemma gset_drop (X : gset Z) b : b ∉ X -> X ∖ {[b]} = X.
Proof.
  intros Hb. apply set_eq. intros x. rewrite elem_of_difference, elem_of_singleton.
  split; [tauto|]. intros Hx. split; [done|]. by intros ->.
Qed.

Lemma fn_insert_twice (V : Z -> list Z) b d d' : <[b := d]> (<[b := d']> V) = <[b := d]> V.
Proof.
  apply functional_extensionality. intros x.
  destruct (decide (x = b)) as [->|]; [by rewrite !fn_lookup_insert|by rewrite !fn_lookup_insert_ne].
Qed.

Lemma fn_insert_same (V : Z -> list Z) b : <[b := V b]> V = V.
Proof.
  apply functional_extensionality. intros x.
  destruct (decide (x = b)) as [->|]; [by rewrite fn_lookup_insert|by rewrite fn_lookup_insert_ne].
Qed.

Section logspec.
Context `{Linker} `{Platform} `{Fuel} `{!DiskDriver} `{!DiskLaws}.
Context (dev : Z) (me : nat).
Implicit Types (k : kernel) (V : Z -> list Z) (dirty : gset Z) (R : list Z) (L : log).

(** From [k] to [k'] the blocks [ws] were written, and nothing outside the
    buffer layer changed. *)
Definition wrote (ws : list (Z * list Z)) (k k' : kernel) : Prop :=
  bio_frame k k' /\ disk_image (k_device k') = disk_image (k_device k) /\
  disk_writes (k_device k') = disk_writes (k_device k) ++ ws.

(** Reference counts that leave room for the log's own references. *)
Definition refs_low (R : list Z) : Prop := Forall (fun r => r + 2 < 2 ^ 32) R.

(** At least [n] buffers are unused. *)
Definition room (n : nat) (R : list Z) : Prop :=
  exists fs, NoDup fs /\ length fs = n /\ Forall (fun f => (f < HEAD)%nat /\ R !! f = Some 0) fs.

(** The in-memory log of device [dev]. *)
Record log_ok (L : log) : Prop := {
  lo_dev : l_dev L = dev;
  lo_devr : 0 <= dev < 2 ^ 31;
  lo_start : 0 <= l_start L;
  lo_end : l_start L + l_size L < 2 ^ 31;
  lo_len : length (lh_block L) = Z.to_nat LOGSIZE
}.

(** The blocks of the current transaction. *)
Definition log_list (L : log) : list Z := take (Z.to_nat (lh_n L)) (lh_block L).

(** ** The buffer operations the log uses *)

Lemma wrote_trans ws ws' k1 k2 k3 : wrote ws k1 k2 -> wrote ws' k2 k3 -> wrote (ws ++ ws') k1 k3.
Proof.
  intros (Hf & Hi & Hw) (Hf' & Hi' & Hw'). split_and!; [by etrans|congruence|].
  by rewrite Hw', Hw, app_assoc.
Qed.

Lemma wrote_nil k k' : bio_frame k k' -> k_device k' = k_device k -> wrote [] k k'.
Proof. intros Hf E. unfold wrote. rewrite E. split_and!; [done|done|by rewrite app_nil_r]. Qed.

Lemma wrote_log ws k k' : wrote ws k k' -> k_log k' = k_log k.
Proof. intros (Hf & _). by apply bio_frame_log. Qed.

Lemma room_free n R : room (S n) R -> exists i, (i < HEAD)%nat /\ R !! i = Some 0.
Proof.
  intros ([|f fs] & _ & Hlen & Hf); [done|]. exists f. by apply Forall_cons in Hf as [? _].
Qed.

Lemma room_insert n R b r : room (S n) R -> room n (<[b := r]> R).
Proof.
  intros (fs & Hnd & Hlen & Hf).
  assert (exists gs, NoDup gs /\ length gs = n /\ forall g, g ∈ gs -> g ∈ fs /\ g <> b) as (gs & Hg & Hgl & Hgs).
  { destruct (decide (b ∈ fs)) as [(l1 & l2 & ->)%list_elem_of_split|Hb].
    - exists (l1 ++ l2). rewrite <- Permutation_middle in Hnd. apply NoDup_cons in Hnd as [Hb Hnd].
      split_and!; [done|rewrite length_app in *; cbn in *; lia|]. intros g Hg. split; [|congruence].
      rewrite elem_of_app in *. rewrite elem_of_cons. tauto.
    - destruct fs as [|f fs]; [done|]. exists fs. apply NoDup_cons in Hnd as [_ Hnd].
      apply not_elem_of_cons in Hb as [_ Hb]. split_and!; [done|cbn in *; lia|].
      intros g Hg. split; [by right|congruence]. }
  exists gs. split_and!; [done|done|]. apply Forall_forall. intros g [Hin Hne]%Hgs.
  eapply Forall_forall in Hf as [Hlt Hr]; [|done]. split; [done|]. by rewrite list_lookup_insert_ne.
Qed.

(** Reading two blocks. *)
Lemma bread_pair V dirty R k bn1 bn2 :
  bio_inv dev me [] V dirty R k -> wait_fuel <> O -> refs_low R -> bn1 <> bn2 ->
  room 2 R \/ room 1 R /\ bn2 ∈ dirty ->
  exists b1 b2 r1 r2 k1 k2, bread dev bn1 k = Ok b1 k1 /\ bread dev bn2 k1 = Ok b2 k2 /\ b1 <> b2 /\
    R !! b1 = Some r1 /\ R !! b2 = Some r2 /\ (bn1 ∈ dirty -> 1 <= r1) /\ (bn2 ∈ dirty -> 1 <= r2) /\
    bio_inv dev me [(b2, bn2); (b1, bn1)] V dirty (<[b2 := r2 + 1]> (<[b1 := r1 + 1]> R)) k2 /\
    wrote [] k k1 /\ wrote [] k1 k2.
Proof.
  intros Hinv Hf Hlow Hne Hroom.
  destruct (bread_run dev me [] V dirty R k bn1) as (b1 & r1 & k1 & E1 & Hr1 & Hb1 & Hd1 & Hinv1 & Hf1 & Hi1 & Hw1);
    [done|done|apply not_elem_of_nil| | |].
  { eapply Forall_impl; [exact Hlow|]. cbn. intros. lia. }
  { assert (room 1 R) as (i & Hi & Hr)%room_free; [|by exists i; auto].
    destruct Hroom as [(fs & Hnd & Hlen & Hfs)|[? _]]; [|done].
    destruct fs as [|f fs]; [done|]. exists [f]. apply Forall_cons in Hfs as [Hfs _].
    split_and!; [apply NoDup_singleton|done|by apply Forall_singleton]. }
  destruct (bread_run dev me [(b1, bn1)] V dirty (<[b1 := r1 + 1]> R) k1 bn2)
    as (b2 & r2 & k2 & E2 & Hr2 & Hb2 & Hd2 & Hinv2 & Hf2 & Hi2 & Hw2); [done|done| | | |].
  { cbn. rewrite list_elem_of_singleton. congruence. }
  { apply Forall_insert; [eapply Forall_impl; [exact Hlow|]; cbn; intros; lia|].
    pose proof (Forall_lookup_1 _ _ _ _ Hlow Hr1) as Hr. cbn in Hr. lia. }
  { destruct Hroom as [Hroom|[_ Hd]].
    - destruct (room_free 0 (<[b1 := r1 + 1]> R)) as (i & Hi & Hr); [by apply room_insert|]. exists i. auto.
    - destruct (bi_dirty _ _ _ _ _ _ _ Hinv1 bn2 Hd) as (i & Hi & (x & Hx & Dx & Bx & _) & _).
      exists i. split; [done|]. left. exists x. split; [done|]. by apply caches_true. }
  assert (b1 <> b2) as Hbne.
  { pose proof (bi_nodup _ _ _ _ _ _ _ Hinv2) as Hnd. cbn in Hnd. apply NoDup_cons in Hnd as [Hnd _].
    intros ->. apply Hnd. by left. }
  rewrite list_lookup_insert_ne in Hr2 by done.
  exists b1, b2, r1, r2, k1, k2. unfold wrote. rewrite !app_nil_r. by split_and!.
Qed.

(** [memmove(dst->data, src->data, BSIZE); bwrite(dst)] *)
Lemma copy_run held V dirty R k bs bns bd bnd :
  bio_inv dev me held V dirty R k -> (bs, bns) ∈ held -> (bd, bnd) ∈ held ->
  exists k', (forall K : M kernel unit,
    (x <- get_buf bs ;; set_buf bd (fun y => y <| b_data := b_data x |>) ;; bwrite bd ;; K) k = K k') /\
    wrote [(bnd, V bns)] k k' /\
    bio_inv dev me held (<[bnd := V bns]> V) (dirty ∖ {[bnd]}) R k'.
Proof.
  intros Hinv Hs Hd. pose proof (bi_held _ _ _ _ _ _ _ Hinv _ _ Hs) as (Hb & Hbi & _).
  pose proof Hbi as (x & Hx & _). pose proof (bi_coh _ _ _ _ _ _ _ Hinv bs bns x Hb Hbi Hx) as Hdata.
  destruct (set_data_run dev me held V dirty R k bd bnd (fun _ => b_data x) Hinv Hd) as (k1 & E1 & Hf1 & Hv1 & Hinv1).
  destruct (bwrite_run dev me held _ _ R k1 bd bnd Hinv1 Hd) as (k2 & E2 & Hf2 & Hi2 & Hw2 & Hinv2).
  exists k2. split_and!.
  - intros K. unfold get_buf. erewrite bind_ok by by apply get_entry. erewrite bind_ok by exact E1.
    by erewrite bind_ok by exact E2.
  - split_and!; [by etrans|by rewrite Hi2, Hv1|]. by rewrite Hw2, Hv1, fn_lookup_insert, Hdata.
  - by rewrite Hdata, gset_readd in Hinv2.
Qed.

(** Releasing both buffers. *)
Lemma brelse_pair held V dirty R k ba bna bb bnb ra rb :
  bio_inv dev me held V dirty R k -> held ≡ₚ [(ba, bna); (bb, bnb)] -> ba <> bb ->
  R !! ba = Some ra -> R !! bb = Some rb -> (bna ∈ dirty -> 2 <= ra) -> (bnb ∈ dirty -> 2 <= rb) ->
  exists k', (forall K : M kernel unit, (brelse ba ;; brelse bb ;; K) k = K k') /\ wrote [] k k' /\
    bio_inv dev me [] V dirty (<[bb := rb - 1]> (<[ba := ra - 1]> R)) k'.
Proof.
  intros Hinv Hperm Hne Ha Hb Hda Hdb.
  destruct (brelse_run dev me held [(bb, bnb)] V dirty R k ba bna ra) as (k1 & E1 & Hf1 & Hv1 & Hinv1); [done..|].
  destruct (brelse_run dev me [(bb, bnb)] [] V dirty (<[ba := ra - 1]> R) k1 bb bnb rb)
    as (k2 & E2 & Hf2 & Hv2 & Hinv2); [done|done|by rewrite list_lookup_insert_ne|done|].
  exists k2. split_and!; [intros K; erewrite bind_ok by exact E1; by erewrite bind_ok by exact E2| |done].
  apply wrote_nil; [by etrans|congruence].
Qed.

(** Reference counts taken by [bread_pair] and given back by [brelse_pair]. *)
Lemma refs_back R b1 b2 r1 r2 :
  R !! b1 = Some r1 -> R !! b2 = Some r2 -> b1 <> b2 ->
  <[b1 := r1 + 1 - 1]> (<[b2 := r2 + 1 - 1]> (<[b2 := r2 + 1]> (<[b1 := r1 + 1]> R))) = R.
Proof.
  intros Hr1 Hr2 Hne. rewrite !Z.add_simpl_r, list_insert_insert_eq, list_insert_insert_ne by done.
  rewrite list_insert_insert_eq. rewrite !list_insert_id; [done|done|]. by rewrite list_lookup_insert_ne.
Qed.

(** ** [write_log] *)

Lemma get_log_run L k {A} (f : log -> M kernel A) : k_log k = L -> (l <- get_log ;; f l) k = f L k.
Proof. intros E. unfold get_log. rewrite bind_gets. by rewrite E. Qed.

Lemma log_block_run L k t b {A} (f : Z -> M kernel A) :
  k_log k = L -> lh_block L !! Z.to_nat t = Some b -> (x <- log_block t ;; f x) k = f b k.
Proof. intros E Hb. unfold log_block. rewrite bind_bind, (get_log_run L) by done. by rewrite Hb. Qed.

(** One iteration copies one cached block to its place in the log. *)
Lemma write_log_step fuel V dirty R k L t b :
  bio_inv dev me [] V dirty R k -> wait_fuel <> O -> k_log k = L -> log_ok L ->
  0 <= t < lh_n L -> t + 1 < l_size L -> lh_block L !! Z.to_nat t = Some b ->
  outside (l_start L) (l_size L) b -> b ∈ dirty -> l_start L + t + 1 ∉ dirty -> refs_low R -> room 1 R ->
  exists k', write_log_loop (S fuel) t k = write_log_loop fuel (t + 1) k' /\
    wrote [(l_start L + t + 1, V b)] k k' /\
    bio_inv dev me [] (<[l_start L + t + 1 := V b]> V) dirty R k'.
Proof.
  intros Hinv Hf HL [Hdev Hdr Hst Hend Hlen] Ht Hts Hb [Hbr Hout] Hd Hnd Hlow Hroom.
  destruct (bread_pair V dirty R k (l_start L + t + 1) b)
    as (b1 & b2 & r1 & r2 & k1 & k2 & E1 & E2 & Hne & Hr1 & Hr2 & _ & Hd2 & Hinv2 & Hw1 & Hw2);
    [done|done|done|lia|by right|].
  destruct (copy_run _ _ _ _ _ b2 b b1 (l_start L + t + 1) Hinv2) as (k3 & E3 & Hw3 & Hinv3);
    [by left|by right; left|].
  rewrite gset_drop in Hinv3 by done.
  destruct (brelse_pair _ _ _ _ k3 b2 b b1 (l_start L + t + 1) (r2 + 1) (r1 + 1) Hinv3)
    as (k4 & E4 & Hw4 & Hinv4); [done|done| | | | |].
  { apply list_lookup_insert_eq. rewrite length_insert. by eapply lookup_lt_Some. }
  { rewrite list_lookup_insert_ne by done. apply list_lookup_insert_eq. by eapply lookup_lt_Some. }
  { intros _. specialize (Hd2 Hd). lia. }
  { done. }
  exists k4. split_and!.
  - cbn [write_log_loop]. rewrite (get_log_run L) by done.
    assert ((t <? lh_n L) = true) as -> by lia. cbn [negb].
    rewrite Hdev, (u32_small dev), (u32_small (l_start L + t + 1)) by lia.
    erewrite bind_ok by exact E1. rewrite (log_block_run L _ t b) by (done || by rewrite (wrote_log _ _ _ Hw1)).
    rewrite (get_log_run L) by by rewrite (wrote_log _ _ _ Hw1).
    rewrite Hdev, (u32_small dev), (u32_small b) by lia.
    erewrite bind_ok by exact E2. by rewrite E3, E4.
  - exact (wrote_trans [] _ _ _ _ Hw1 (wrote_trans [] _ _ _ _ Hw2 (wrote_trans _ [] _ _ _ Hw3 Hw4))).
  - by rewrite (refs_back R b1 b2 r1 r2) in Hinv4.
Qed.

(** The log holds the transaction [bl]. *)
Record holds (L : log) (bl : list Z) : Prop := {
  ho_list : log_list L = bl;
  ho_n : lh_n L = Z.of_nat (length bl);
  ho_trans : trans_ok (l_start L) (l_size L) bl
}.

(** No block of the log itself is dirty. *)
Definition log_clean (L : log) (dirty : gset Z) : Prop :=
  forall b, l_start L <= b < l_start L + l_size L -> b ∉ dirty.

Lemma holds_lookup L bl pre b rest :
  holds L bl -> bl = pre ++ b :: rest -> let t := Z.of_nat (length pre) in
  0 <= t < lh_n L /\ t + 1 < l_size L /\ lh_block L !! Z.to_nat t = Some b /\ outside (l_start L) (l_size L) b.
Proof.
  intros [Hl Hn [Hlen _ Hout]] -> t. rewrite length_app in *. cbn [length] in *. split_and!; [lia..| |].
  - unfold t. rewrite Nat2Z.id. assert (log_list L !! length pre = Some b) as Hb.
    { rewrite Hl. rewrite lookup_app_r by lia. by rewrite Nat.sub_diag. }
    unfold log_list in Hb. apply lookup_take_Some in Hb as [? _]. done.
  - rewrite Forall_app, Forall_cons in Hout. tauto.
Qed.

Lemma holds_end L bl : holds L bl -> (Z.of_nat (length bl) <? lh_n L) = false.
Proof. intros [_ -> _]. lia. Qed.

Lemma write_log_loop_run bl pre rest fuel V dirty R k L :
  bio_inv dev me [] V dirty R k -> wait_fuel <> O -> k_log k = L -> log_ok L -> holds L bl ->
  bl = pre ++ rest -> (length rest < fuel)%nat -> Forall (fun b => b ∈ dirty) rest -> log_clean L dirty ->
  refs_low R -> room 1 R ->
  let t := Z.of_nat (length pre) in
  exists k', write_log_loop fuel t k = Ok tt k' /\ wrote (log_copies (l_start L) t rest V) k k' /\
    bio_inv dev me [] (replay (log_copies (l_start L) t rest V) V) dirty R k'.
Proof.
  revert pre fuel V k. induction rest as [|b rest IH]; intros pre fuel V k Hinv Hf HL Hok Hh E Hfuel Hd Hc Hlow Hroom t;
    (destruct fuel as [|fuel]; [cbn in Hfuel; lia|]).
  - exists k. rewrite app_nil_r in E. subst pre. split_and!; [|by apply wrote_nil|done].
    cbn [write_log_loop]. rewrite (get_log_run L) by done. unfold t. by rewrite (holds_end L bl).
  - destruct (holds_lookup L bl pre b rest Hh E) as (Ht & Hts & Hb & Hout). fold t in Ht, Hts, Hb.
    apply Forall_cons in Hd as [Hd Hds].
    destruct (write_log_step fuel V dirty R k L t b) as (k1 & E1 & Hw1 & Hinv1); try done.
    { apply Hc. lia. }
    destruct (IH (pre ++ [b]) fuel (<[l_start L + t + 1 := V b]> V) k1) as (k2 & E2 & Hw2 & Hinv2); try done.
    { by rewrite (wrote_log _ _ _ Hw1). }
    { by rewrite <- app_assoc. }
    { cbn in Hfuel. lia. }
    replace (Z.of_nat (length (pre ++ [b]))) with (t + 1) in * by (rewrite length_app; cbn; lia).
    assert (log_copies (l_start L) (t + 1) rest (<[l_start L + t + 1 := V b]> V) =
      log_copies (l_start L) (t + 1) rest V) as EV.
    { apply log_copies_ext. intros x Hx. apply fn_lookup_insert_ne. intros <-. destruct Hh as [_ _ [_ _ Ho]].
      rewrite E, Forall_app, Forall_cons in Ho. destruct Ho as (_ & _ & Ho).
      eapply Forall_forall in Ho as [_ Hn]; [|exact Hx]. lia. }
    rewrite EV in Hw2, Hinv2.
    exists k2. split_and!; [by rewrite E1|exact (wrote_trans [_] _ _ _ _ Hw1 Hw2)|done].
Qed.

(** ** [install_trans] *)

Definition Zsum (R : list Z) : Z := foldr Z.add 0 R.

(** [R'] is [R] after [n] references have been given back. *)
Definition refs_down (n : Z) (R R' : list Z) : Prop :=
  Forall2 (fun r r' => 0 <= r -> 0 <= r' <= r) R R' /\ Zsum R' = Zsum R - n.

Lemma Zsum_insert R b r r' : R !! b = Some r -> Zsum (<[b := r']> R) = Zsum R - r + r'.
Proof.
  revert b. induction R as [|x R IH]; intros [|b] Hb; cbn in *; [done|done| |].
  - injection Hb as ->. lia.
  - change (x + Zsum (<[b := r']> R) = x + Zsum R - r + r'). rewrite (IH b Hb). lia.
Qed.

Lemma refs_down_refl R : refs_down 0 R R.
Proof. split; [|lia]. apply Forall2_same_length_lookup_2; [done|]. intros i x y Hx Hy. simplify_eq. lia. Qed.

Lemma refs_down_trans n m R1 R2 R3 : refs_down n R1 R2 -> refs_down m R2 R3 -> refs_down (n + m) R1 R3.
Proof.
  intros [Hf E] [Hf' E']. split; [|lia]. eapply Forall2_trans; [|exact Hf|exact Hf']. cbn. lia.
Qed.

Lemma refs_down_one R b r : R !! b = Some r -> 1 <= r -> refs_down 1 R (<[b := r - 1]> R).
Proof.
  intros Hb Hr. split; [|rewrite (Zsum_insert R b r) by done; lia].
  apply Forall2_same_length_lookup_2; [by rewrite length_insert|]. intros i x y Hx Hy.
  destruct (decide (i = b)) as [->|Hne].
  - rewrite list_lookup_insert_eq in Hy by by eapply lookup_lt_Some. simplify_eq. lia.
  - rewrite list_lookup_insert_ne in Hy by done. simplify_eq. lia.
Qed.

Lemma refs_down_low n R R' : refs_down n R R' -> Forall (fun r => 0 <= r) R -> refs_low R -> refs_low R'.
Proof.
  intros [Hf _] Hp Hlow. apply Forall_lookup_2. intros i r' Hr'.
  destruct (Forall2_lookup_r _ _ _ _ _ Hf Hr') as (r & Hr & Hle).
  pose proof (Forall_lookup_1 _ _ _ _ Hp Hr) as Hr0. pose proof (Forall_lookup_1 _ _ _ _ Hlow Hr) as Hr1.
  cbn in *. lia.
Qed.

Lemma refs_down_0 R R' : Forall (fun r => 0 <= r) R -> refs_down 0 R R' -> R' = R.
Proof.
  intros Hp [Hf E]. assert (Zsum R' <= Zsum R /\ (Zsum R' = Zsum R -> R' = R)) as [_ He]; [|apply He; lia].
  clear E. induction Hf as [|r r' R R' Hr Hf IH]; [done|]. apply Forall_cons in Hp as [Hp0 Hp].
  destruct (IH Hp) as [Hle He]. specialize (Hr Hp0). cbn. fold (Zsum R) (Zsum R'). split; [lia|].
  intros E. rewrite He by lia. f_equal. lia.
Qed.

Lemma refs_down_room n m R R' : refs_down n R R' -> room m R -> room m R'.
Proof.
  intros [Hf _] (fs & Hnd & Hlen & Hfs). exists fs. split_and!; [done|done|].
  eapply Forall_impl; [exact Hfs|]. cbn. intros f [Hlt Hr]. split; [done|].
  destruct (Forall2_lookup_l _ _ _ _ _ Hf Hr) as (r' & Hr' & Hle). rewrite Hr'. f_equal. lia.
Qed.

Lemma bi_refs_nn held V dirty R k : bio_inv dev me held V dirty R k -> Forall (fun r => 0 <= r) R.
Proof. intros Hinv. eapply Forall_impl; [apply (bi_refs_ok _ _ _ _ _ _ _ Hinv)|]. cbn. lia. Qed.

(** One iteration copies one log block to its home. *)
Lemma install_step (recovering : bool) fuel V dirty R k L t b :
  bio_inv dev me [] V dirty R k -> wait_fuel <> O -> k_log k = L -> log_ok L ->
  0 <= t < lh_n L -> t + 1 < l_size L -> lh_block L !! Z.to_nat t = Some b ->
  outside (l_start L) (l_size L) b -> l_start L + t + 1 ∉ dirty -> refs_low R ->
  (if recovering then room 2 R else room 1 R /\ b ∈ dirty) ->
  exists k' R', install_trans_loop (S fuel) recovering t k = install_trans_loop fuel recovering (t + 1) k' /\
    wrote [(b, V (l_start L + t + 1))] k k' /\ refs_down (if recovering then 0 else 1) R R' /\
    bio_inv dev me [] (<[b := V (l_start L + t + 1)]> V) (dirty ∖ {[b]}) R' k'.
Proof.
  intros Hinv Hf HL [Hdev Hdr Hst Hend Hlen] Ht Hts Hb [Hbr Hout] Hnd Hlow Hroom.
  destruct (bread_pair V dirty R k (l_start L + t + 1) b)
    as (b1 & b2 & r1 & r2 & k1 & k2 & E1 & E2 & Hne & Hr1 & Hr2 & _ & Hd2 & Hinv2 & Hw1 & Hw2);
    [done|done|done|lia|destruct recovering; tauto|].
  destruct (copy_run _ _ _ _ _ b1 (l_start L + t + 1) b2 b Hinv2) as (k3 & E3 & Hw3 & Hinv3);
    [by right; left|by left|].
  assert ((b ∉ dirty ∖ {[b]}) /\ (l_start L + t + 1 ∉ dirty ∖ {[b]})) as [Hc1 Hc2].
  { rewrite !elem_of_difference, !elem_of_singleton. tauto. }
  set (R2 := <[b2 := r2 + 1]> (<[b1 := r1 + 1]> R)) in *.
  assert (R2 !! b2 = Some (r2 + 1)) as HR2.
  { apply list_lookup_insert_eq. rewrite length_insert. by eapply lookup_lt_Some. }
  assert (exists k4 R4 r4, (forall K : M kernel unit, (when (negb recovering) (bunpin b2) ;; K) k3 = K k4) /\
    wrote [] k3 k4 /\ R4 = <[b2 := r4]> R2 /\ (r4 = if recovering then r2 + 1 else r2) /\
    bio_inv dev me [(b2, b); (b1, l_start L + t + 1)] (<[b := V (l_start L + t + 1)]> V) (dirty ∖ {[b]}) R4 k4)
    as (k4 & R4 & r4 & E4 & Hw4 & -> & Hr4 & Hinv4).
  { destruct recovering; cbn [negb when].
    - exists k3, R2, (r2 + 1). split_and!; [done|by apply wrote_nil|by rewrite list_insert_id|done|done].
    - destruct Hroom as [_ Hbd]. specialize (Hd2 Hbd).
      destruct (bunpin_run dev me _ _ _ R2 k3 b2 b (r2 + 1) Hinv3) as (k4 & E4 & Hf4 & Hv4 & Hinv4);
        [by left|done|lia|].
      exists k4, (<[b2 := r2 + 1 - 1]> R2), (r2 + 1 - 1).
      split_and!; [intros K; by erewrite bind_ok by exact E4|by apply wrote_nil|done|lia|done]. }
  destruct (brelse_pair _ _ _ _ k4 b1 (l_start L + t + 1) b2 b (r1 + 1) r4 Hinv4)
    as (k5 & E5 & Hw5 & Hinv5); [apply Permutation_swap|done| | |done|done|].
  { unfold R2. rewrite !(list_lookup_insert_ne _ b2) by done. apply list_lookup_insert_eq. by eapply lookup_lt_Some. }
  { apply list_lookup_insert_eq. by eapply lookup_lt_Some. }
  assert (<[b2 := r4 - 1]> (<[b1 := r1 + 1 - 1]> (<[b2 := r4]> R2)) = <[b2 := r4 - 1]> R) as ER.
  { unfold R2. rewrite Z.add_simpl_r, list_insert_insert_eq, (list_insert_insert_ne (<[b1 := _]> R)) by done.
    rewrite !list_insert_insert_eq. by rewrite (list_insert_id R b1) by done. }
  rewrite ER in Hinv5. exists k5, (<[b2 := r4 - 1]> R). split_and!; [| | |done].
  - cbn [install_trans_loop]. rewrite (get_log_run L) by done.
    assert ((t <? lh_n L) = true) as -> by lia. cbn [negb].
    rewrite Hdev, (u32_small dev), (u32_small (l_start L + t + 1)) by lia.
    erewrite bind_ok by exact E1. rewrite (log_block_run L _ t b) by (done || by rewrite (wrote_log _ _ _ Hw1)).
    rewrite (get_log_run L) by by rewrite (wrote_log _ _ _ Hw1).
    rewrite Hdev, (u32_small dev), (u32_small b) by lia.
    erewrite bind_ok by exact E2. by rewrite E3, E4, E5.
  - exact (wrote_trans [] _ _ _ _ Hw1 (wrote_trans [] _ _ _ _ Hw2 (wrote_trans _ [] _ _ _ Hw3
      (wrote_trans [] [] _ _ _ Hw4 Hw5)))).
  - rewrite Hr4. destruct recovering.
    + rewrite Z.add_simpl_r, list_insert_id by done. apply refs_down_refl.
    + destruct Hroom as [_ Hbd]. by apply refs_down_one, Hd2.
Qed.

Lemma install_loop_run (recovering : bool) bl pre rest fuel V dirty R k L :
  bio_inv dev me [] V dirty R k -> wait_fuel <> O -> k_log k = L -> log_ok L -> holds L bl ->
  bl = pre ++ rest -> (length rest < fuel)%nat -> log_clean L dirty -> refs_low R ->
  (if recovering then room 2 R else room 1 R /\ Forall (fun b => b ∈ dirty) rest /\ NoDup rest) ->
  let t := Z.of_nat (length pre) in
  exists k' R', install_trans_loop fuel recovering t k = Ok tt k' /\
    wrote (installs (l_start L) t rest V) k k' /\
    refs_down (if recovering then 0 else Z.of_nat (length rest)) R R' /\
    bio_inv dev me [] (replay (installs (l_start L) t rest V) V) (dirty ∖ list_to_set rest) R' k'.
Proof.
  revert pre fuel V dirty R k.
  induction rest as [|b rest IH]; intros pre fuel V dirty R k Hinv Hf HL Hok Hh E Hfuel Hc Hlow Hroom t;
    (destruct fuel as [|fuel]; [cbn in Hfuel; lia|]).
  - exists k, R. rewrite app_nil_r in E. subst pre. split_and!; [|by apply wrote_nil| |].
    + cbn [install_trans_loop]. rewrite (get_log_run L) by done. unfold t. by rewrite (holds_end L bl).
    + destruct recovering; apply refs_down_refl.
    + cbn. by rewrite difference_empty_L.
  - destruct (holds_lookup L bl pre b rest Hh E) as (Ht & Hts & Hb & Hout). fold t in Ht, Hts, Hb.
    destruct (install_step recovering fuel V dirty R k L t b) as (k1 & R1 & E1 & Hw1 & Hd1 & Hinv1); try done.
    { apply Hc. lia. }
    { destruct recovering; [done|]. destruct Hroom as (? & [? _]%Forall_cons & _). done. }
    set (V1 := <[b := V (l_start L + t + 1)]> V) in *.
    destruct (IH (pre ++ [b]) fuel V1 (dirty ∖ {[b]}) R1 k1) as (k2 & R2 & E2 & Hw2 & Hd2 & Hinv2); try done.
    { by rewrite (wrote_log _ _ _ Hw1). }
    { by rewrite <- app_assoc. }
    { cbn in Hfuel. lia. }
    { intros x Hx. rewrite elem_of_difference. intros [? _]. by eapply Hc. }
    { eapply refs_down_low; [done|by eapply bi_refs_nn|done]. }
    { destruct recovering; [by eapply refs_down_room|]. destruct Hroom as (? & [_ Hrest]%Forall_cons & [Hn ?]%NoDup_cons).
      split_and!; [by eapply refs_down_room| |done]. apply Forall_forall. intros x Hx.
      rewrite elem_of_difference, elem_of_singleton. split; [by eapply Forall_forall in Hrest|congruence]. }
    replace (Z.of_nat (length (pre ++ [b]))) with (t + 1) in * by (rewrite length_app; cbn; lia).
    assert (installs (l_start L) (t + 1) rest V1 = installs (l_start L) (t + 1) rest V) as EV.
    { apply installs_ext. intros j Hj. apply fn_lookup_insert_ne. destruct Hout as [_ Hout].
      destruct Hh as [_ _ [Hl _ _]]. rewrite E, length_app in Hl. cbn [length] in Hl. lia. }
    rewrite EV in Hw2, Hinv2. exists k2, R2.
    split_and!; [by rewrite E1|exact (wrote_trans [_] _ _ _ _ Hw1 Hw2)| |].
    + pose proof (refs_down_trans _ _ _ _ _ Hd1 Hd2) as Hd. destruct recovering; [done|].
      replace (Z.of_nat (length (b :: rest))) with (1 + Z.of_nat (length rest)) by (cbn; lia). done.
    + cbn [list_to_set]. by rewrite <- difference_difference_l_L.
Qed.

(** ** The header block *)

Lemma write_head_loop_run bl pre rest fuel held V dirty R k L b :
  bio_inv dev me held V dirty R k -> (b, l_start L) ∈ held -> k_log k = L -> holds L bl ->
  bl = pre ++ rest -> (length rest < fuel)%nat -> l_start L ∈ dirty ->
  let t := Z.of_nat (length pre) in
  exists k', write_head_loop fuel b t k = Ok tt k' /\ wrote [] k k' /\
    bio_inv dev me held (<[l_start L := put_blocks t rest (V (l_start L))]> V) dirty R k'.
Proof.
  revert pre fuel V k. induction rest as [|x rest IH]; intros pre fuel V k Hinv Hin HL Hh E Hfuel Hd t;
    (destruct fuel as [|fuel]; [cbn in Hfuel; lia|]).
  - exists k. rewrite app_nil_r in E. subst pre. split_and!; [|by apply wrote_nil|].
    + cbn [write_head_loop]. rewrite (get_log_run L) by done. unfold t. by rewrite (holds_end L bl).
    + cbn. by rewrite fn_insert_same.
  - destruct (holds_lookup L bl pre x rest Hh E) as (Ht & _ & Hx & _). fold t in Ht, Hx.
    destruct (set_data_run dev me held V dirty R k b (l_start L) (fun d => set32 d (4 + 4 * t) x) Hinv Hin)
      as (k1 & E1 & Hf1 & Hv1 & Hinv1).
    assert ({[l_start L]} ∪ dirty = dirty) as Ed by (apply subseteq_union_1_L, singleton_subseteq_l; done).
    rewrite Ed in Hinv1.
    destruct (IH (pre ++ [x]) fuel _ k1 Hinv1) as (k2 & E2 & Hw2 & Hinv2); try done.
    { by rewrite (bio_frame_log _ _ Hf1). }
    { by rewrite <- app_assoc. }
    { cbn in Hfuel. lia. }
    replace (Z.of_nat (length (pre ++ [x]))) with (t + 1) in * by (rewrite length_app; cbn; lia).
    exists k2. split_and!.
    + cbn [write_head_loop]. rewrite (get_log_run L) by done. assert ((t <? lh_n L) = true) as -> by lia.
      cbn [negb]. rewrite (log_block_run L _ t x) by done. erewrite bind_ok by exact E1. done.
    + exact (wrote_trans [] [] _ _ _ (wrote_nil _ _ Hf1 Hv1) Hw2).
    + cbn [put_blocks]. by rewrite fn_lookup_insert, fn_insert_twice in Hinv2.
Qed.

(** Reading one block, with at least one unused buffer, and releasing it. *)
Lemma bread_one V dirty R k bn :
  bio_inv dev me [] V dirty R k -> wait_fuel <> O -> refs_low R -> room 1 R ->
  exists b r k', bread dev bn k = Ok b k' /\ R !! b = Some r /\ wrote [] k k' /\
    bio_inv dev me [(b, bn)] V dirty (<[b := r + 1]> R) k'.
Proof.
  intros Hinv Hf Hlow (i & Hi & Hr)%room_free.
  destruct (bread_run dev me [] V dirty R k bn) as (b & r & k' & E & Hb & _ & _ & Hinv' & Hf' & Hi' & Hw');
    [done|done|apply not_elem_of_nil| |by exists i; auto|].
  { eapply Forall_impl; [exact Hlow|]. cbn. intros. lia. }
  exists b, r, k'. unfold wrote. rewrite app_nil_r. by split_and!.
Qed.

Lemma brelse_one V dirty R k b bn r :
  bio_inv dev me [(b, bn)] V dirty (<[b := r + 1]> R) k -> R !! b = Some r -> bn ∉ dirty ->
  exists k', brelse b k = Ok tt k' /\ wrote [] k k' /\ bio_inv dev me [] V dirty R k'.
Proof.
  intros Hinv Hr Hd.
  destruct (brelse_run dev me [(b, bn)] [] V dirty (<[b := r + 1]> R) k b bn (r + 1)) as (k' & E & Hf & Hv & Hinv').
  { done. }
  { done. }
  { apply list_lookup_insert_eq. by eapply lookup_lt_Some. }
  { done. }
  exists k'. split_and!; [done|by apply wrote_nil|].
  by rewrite Z.add_simpl_r, list_insert_insert_eq, list_insert_id in Hinv'.
Qed.

Lemma write_head_run bl V dirty R k L :
  bio_inv dev me [] V dirty R k -> wait_fuel <> O -> k_log k = L -> log_ok L -> holds L bl ->
  l_start L ∉ dirty -> refs_low R -> room 1 R ->
  exists k', write_head k = Ok tt k' /\ wrote [(l_start L, hdr_put bl (V (l_start L)))] k k' /\
    bio_inv dev me [] (<[l_start L := hdr_put bl (V (l_start L))]> V) dirty R k'.
Proof.
  intros Hinv Hf HL [Hdev Hdr Hst Hend Hlen] Hh Hnd Hlow Hroom. pose proof Hh as [_ Hn [Hl Hm _]].
  destruct (bread_one V dirty R k (l_start L)) as (b & r & k1 & E1 & Hb & Hw1 & Hinv1); [done..|].
  pose proof (wrote_log _ _ _ Hw1) as HL1. rewrite HL in HL1.
  destruct (set_data_run dev me _ V dirty _ k1 b (l_start L) (fun d => set32 d 0 (lh_n L)) Hinv1)
    as (k2 & E2 & Hf2 & Hv2 & Hinv2); [by left|].
  destruct (write_head_loop_run bl [] bl log_fuel _ _ _ _ k2 L b Hinv2) as (k3 & E3 & Hw3 & Hinv3);
    [by left|by rewrite (bio_frame_log _ _ Hf2)|done|done|unfold log_fuel; lia|apply elem_of_union; left; by apply elem_of_singleton|].
  change (Z.of_nat (length (@nil Z))) with 0 in Hinv3, E3. rewrite fn_lookup_insert, fn_insert_twice in Hinv3.
  destruct (bwrite_run dev me _ _ _ _ k3 b (l_start L) Hinv3) as (k4 & E4 & Hf4 & Hi4 & Hw4 & Hinv4); [by left|].
  rewrite gset_readd, gset_drop in Hinv4 by done.
  destruct (brelse_one _ _ _ k4 b (l_start L) r Hinv4) as (k5 & E5 & Hw5 & Hinv5); [done|done|].
  assert (put_blocks 0 bl (set32 (V (l_start L)) 0 (lh_n L)) = hdr_put bl (V (l_start L))) as Eh
    by (unfold hdr_put; by rewrite Hn).
  exists k5. rewrite Eh in Hinv5. split_and!; [| |done].
  - unfold write_head. rewrite (get_log_run L) by done. rewrite Hdev, !u32_small by lia.
    erewrite bind_ok by exact E1. rewrite (get_log_run L) by done. erewrite bind_ok by exact E2.
    erewrite bind_ok by exact E3. by erewrite bind_ok by exact E4.
  - assert (wrote [(l_start L, hdr_put bl (V (l_start L)))] k3 k4) as Hw4'.
    { split_and!; [done|done|]. rewrite Hw4. by rewrite fn_lookup_insert, Eh. }
    exact (wrote_trans [] _ _ _ _ Hw1 (wrote_trans [] _ _ _ _ (wrote_nil _ _ Hf2 Hv2)
      (wrote_trans [] _ _ _ _ Hw3 (wrote_trans _ [] _ _ _ Hw4' Hw5)))).
Qed.

(** ** [commit] *)

(** The buffer cache does not look at the log. *)
Lemma bio_inv_log held V dirty R k f :
  bio_inv dev me held V dirty R k -> bio_inv dev me held V dirty R (k <| k_log ::= f |>).
Proof. intros []. by split. Qed.

Lemma holds_nil L : log_ok L -> 1 <= l_size L -> holds (L <| lh_n := 0 |>) [].
Proof. intros [] Hs. split; [done|done|]. split; cbn; [lia|lia|constructor]. Qed.

Lemma installs_logged start bl V W i :
  (forall j x, bl !! j = Some x -> W (start + (i + Z.of_nat j) + 1) = V x) ->
  installs start i bl W = (fun b => (b, V b)) <$> bl.
Proof.
  revert i. induction bl as [|b bl IH]; intros i HW; cbn; [done|]. f_equal.
  - rewrite <- (HW O b eq_refl). f_equal. f_equal. lia.
  - apply IH. intros j x Hj. rewrite <- (HW (S j) x Hj). f_equal. lia.
Qed.

Lemma clear_head_run V dirty R k L :
  bio_inv dev me [] V dirty R k -> wait_fuel <> O -> k_log k = L -> log_ok L -> 1 <= l_size L ->
  l_start L ∉ dirty -> refs_low R -> room 1 R ->
  exists k', (set_log (fun l => l <| lh_n := 0 |>) ;; write_head) k = Ok tt k' /\
    k_log k' = L <| lh_n := 0 |> /\ disk_image (k_device k') = disk_image (k_device k) /\
    disk_writes (k_device k') = disk_writes (k_device k) ++ [clear_head (l_start L) V] /\
    bio_inv dev me [] (<[l_start L := hdr_put [] (V (l_start L))]> V) dirty R k'.
Proof.
  intros Hinv Hf HL Hok Hs Hd Hlow Hroom.
  destruct (write_head_run [] V dirty R (k <| k_log ::= fun l => l <| lh_n := 0 |> |>) (L <| lh_n := 0 |>))
    as (k' & E & Hw & Hinv'); try done.
  { by apply bio_inv_log. }
  { cbn. by rewrite HL. }
  { destruct Hok. by split. }
  { by apply holds_nil. }
  exists k'. split_and!; [unfold set_log; by rewrite bind_modify| |apply Hw|apply Hw|done].
  rewrite (wrote_log _ _ _ Hw). cbn. by rewrite HL.
Qed.

(** The contents the cache shows after a commit: the log blocks have changed. *)
Definition committed (start : Z) (bl : list Z) (V : Z -> list Z) : Z -> list Z :=
  replay (commit_writes start bl V) V.

Lemma commit_run bl V dirty R k L :
  bio_inv dev me [] V dirty R k -> wait_fuel <> O -> k_log k = L -> log_ok L -> holds L bl ->
  bl <> [] -> NoDup bl -> Forall (fun b => b ∈ dirty) bl -> log_clean L dirty -> refs_low R -> room 1 R ->
  exists k' R', commit k = Ok tt k' /\ k_log k' = L <| lh_n := 0 |> /\
    disk_image (k_device k') = disk_image (k_device k) /\
    disk_writes (k_device k') = disk_writes (k_device k) ++ commit_writes (l_start L) bl V /\
    refs_down (Z.of_nat (length bl)) R R' /\
    bio_inv dev me [] (committed (l_start L) bl V) (dirty ∖ list_to_set bl) R' k'.
Proof.
  intros Hinv Hf HL Hok Hh Hne Hnd Hd Hc Hlow Hroom. pose proof Hh as [_ Hn [Hl Hm Hout]].
  assert (0 < length bl)%nat as Hpos by (destruct bl; [done|cbn; lia]).
  assert (l_start L ∉ dirty) as Hsd by (apply Hc; lia).
  destruct (write_log_loop_run bl [] bl log_fuel V dirty R k L) as (k1 & E1 & Hw1 & Hinv1); try done.
  { unfold log_fuel. lia. }
  change (Z.of_nat (length (@nil Z))) with 0 in *. set (V1 := replay (log_copies _ _ _ _) V) in *.
  pose proof (wrote_log _ _ _ Hw1) as HL1. rewrite HL in HL1.
  destruct (write_head_run bl V1 dirty R k1 L) as (k2 & E2 & Hw2 & Hinv2); try done.
  assert (V1 (l_start L) = V (l_start L)) as Es.
  { apply replay_notin. intros ([b' d] & ? & Hin)%list_elem_of_fmap.
    apply log_copies_elem in Hin as (j & x & _ & ? & _). cbn in *. lia. }
  rewrite Es in Hw2, Hinv2. set (V2 := <[l_start L := _]> V1) in *.
  pose proof (wrote_log _ _ _ Hw2) as HL2. rewrite HL1 in HL2.
  destruct (install_loop_run false bl [] bl log_fuel V2 dirty R k2 L) as (k3 & R3 & E3 & Hw3 & Hd3 & Hinv3); try done.
  { unfold log_fuel. lia. }
  change (Z.of_nat (length (@nil Z))) with 0 in *.
  assert (installs (l_start L) 0 bl V2 = (fun b => (b, V b)) <$> bl) as EI.
  { apply installs_logged. intros j x Hj. unfold V2. rewrite fn_lookup_insert_ne by lia.
    by apply (replay_copies (l_start L) bl V V j x). }
  rewrite EI in Hw3, Hinv3. set (V3 := replay _ V2) in *.
  pose proof (wrote_log _ _ _ Hw3) as HL3. rewrite HL2 in HL3.
  destruct (clear_head_run V3 (dirty ∖ list_to_set bl) R3 k3 L) as (k4 & E4 & HL4 & Hi4 & Hw4 & Hinv4); try done.
  { lia. }
  { rewrite elem_of_difference. tauto. }
  { eapply refs_down_low; [done|by eapply bi_refs_nn|done]. }
  { by eapply refs_down_room. }
  assert (V3 (l_start L) = hdr_put bl (V (l_start L))) as E3s.
  { unfold V3. rewrite replay_notin; [by unfold V2; rewrite fn_lookup_insert|].
    intros ([b' d] & Hb & (x & [= -> ->] & Hx)%list_elem_of_fmap)%list_elem_of_fmap. cbn in Hb. subst x.
    eapply Forall_forall in Hout as [_ Ho]; [|exact Hx]. lia. }
  exists k4, R3. split_and!; [|done| | |done|].
  - unfold commit. rewrite (get_log_run L) by done. assert ((0 <? lh_n L) = true) as -> by lia. cbv beta iota delta [when].
    erewrite bind_ok by exact E1. erewrite bind_ok by exact E2. by erewrite bind_ok by exact E3.
  - destruct Hw1 as (_ & ? & _), Hw2 as (_ & ? & _), Hw3 as (_ & ? & _). congruence.
  - destruct Hw1 as (_ & _ & Hw1), Hw2 as (_ & _ & Hw2), Hw3 as (_ & _ & Hw3).
    rewrite Hw4, Hw3, Hw2, Hw1. unfold commit_writes, clear_head. by rewrite E3s, <- !app_assoc.
  - assert (committed (l_start L) bl V = <[l_start L := hdr_put [] (V3 (l_start L))]> V3) as ->; [|done].
    unfold committed, commit_writes. rewrite !replay_app, E3s. done.
Qed.

(** ** Recovery *)

Lemma read_head_loop_run n fuel data t k L :
  k_log k = L -> lh_n L = t + Z.of_nat n -> 0 <= t -> lh_n L <= Z.of_nat (length (lh_block L)) -> (n < fuel)%nat ->
  exists bs, read_head_loop fuel data t k = Ok tt (k <| k_log ::= fun l => l <| lh_block := bs |> |>) /\
    length bs = length (lh_block L) /\
    (forall j, (j < Z.to_nat t)%nat -> bs !! j = lh_block L !! j) /\
    (forall j, (Z.to_nat t <= j < Z.to_nat (lh_n L))%nat -> bs !! j = Some (hdr_block data (Z.of_nat j))).
Proof.
  revert fuel t k L. induction n as [|n IH]; intros fuel t k L HL Hn Ht Hlen Hfuel; (destruct fuel as [|fuel]; [lia|]);
    cbn [read_head_loop]; rewrite (get_log_run L) by done.
  - assert ((t <? lh_n L) = false) as -> by lia. exists (lh_block L). split_and!; [|done|done|intros; lia].
    cbn [negb]. unfold ret. f_equal. rewrite <- HL. transitivity (k <| k_log := k_log k |>); [by destruct k|].
    assert (k_log k = (k_log k) <| lh_block := lh_block (k_log k) |>) as El by by destruct (k_log k).
    exact (f_equal (fun l => k <| k_log := l |>) El).
  - assert ((t <? lh_n L) = true) as -> by lia. cbn [negb]. unfold set_log_block. rewrite bind_bind, (get_log_run L) by done.
    rewrite decide_True by lia. unfold set_log. rewrite bind_modify.
    set (f := fun l : log => l <| lh_block ::= _ |>).
    destruct (IH fuel (t + 1) (k <| k_log ::= f |>) (f L)) as (bs & E & Hbl & Hlo & Hhi).
    { cbn. by rewrite HL. }
    { cbn. lia. }
    { lia. }
    { cbn. rewrite length_insert. lia. }
    { lia. }
    exists bs. rewrite E. split_and!; [|by rewrite Hbl; cbn; rewrite length_insert| |].
    + f_equal.
    + intros j Hj. rewrite Hlo by lia. cbn. by rewrite list_lookup_insert_ne by lia.
    + intros j Hj. destruct (decide (j = Z.to_nat t)) as [->|Hne].
      * rewrite Hlo by lia. cbn. rewrite list_lookup_insert_eq by lia. f_equal. f_equal. lia.
      * apply Hhi. cbn. lia.
Qed.

(** [read_head] loads the transaction recorded in the header block. *)
Lemma read_head_run V dirty R k L :
  bio_inv dev me [] V dirty R k -> wait_fuel <> O -> k_log k = L -> log_ok L -> l_start L ∉ dirty ->
  refs_low R -> room 1 R -> trans_ok (l_start L) (l_size L) (hdr_get (V (l_start L))) ->
  0 <= hdr_n (V (l_start L)) ->
  exists k' L', read_head k = Ok tt k' /\ k_log k' = L' /\ log_ok L' /\ l_start L' = l_start L /\
    l_size L' = l_size L /\ holds L' (hdr_get (V (l_start L))) /\
    disk_image (k_device k') = disk_image (k_device k) /\
    disk_writes (k_device k') = disk_writes (k_device k) /\ bio_inv dev me [] V dirty R k'.
Proof.
  intros Hinv Hf HL Hok Hnd Hlow Hroom Htr Hn0. pose proof Hok as [Hdev Hdr Hst Hend Hlen].
  assert (Z.of_nat (length (hdr_get (V (l_start L)))) = hdr_n (V (l_start L))) as Hgl.
  { unfold hdr_get. rewrite length_fmap, length_seqZ. lia. }
  pose proof Htr as [Hl Hm _].
  destruct (bread_one V dirty R k (l_start L)) as (b & r & k1 & E1 & Hb & Hw1 & Hinv1); [done..|].
  pose proof (wrote_log _ _ _ Hw1) as HL1. rewrite HL in HL1.
  destruct (bi_held _ _ _ _ _ _ _ Hinv1 b (l_start L)) as (Hbl & Hbi & _); [by left|].
  pose proof Hbi as (x & Hx & _). pose proof (bi_coh _ _ _ _ _ _ _ Hinv1 b _ x Hbl Hbi Hx) as Hdata.
  set (d := V (l_start L)) in *. set (k2 := k1 <| k_log ::= fun l => l <| lh_n := hdr_n d |> |>).
  destruct (read_head_loop_run (Z.to_nat (hdr_n d)) log_fuel d 0 k2 (L <| lh_n := hdr_n d |>))
    as (bs & E3 & Hbs & _ & Hhi).
  { cbn. by rewrite HL1. }
  { cbn. lia. }
  { done. }
  { cbn. lia. }
  { unfold log_fuel. lia. }
  set (k3 := k2 <| k_log ::= fun l => l <| lh_block := bs |> |>) in *.
  assert (bio_inv dev me [(b, l_start L)] V dirty (<[b := r + 1]> R) k3) as Hinv3
    by (apply bio_inv_log, bio_inv_log; done).
  destruct (brelse_one _ _ _ k3 b (l_start L) r Hinv3) as (k4 & E4 & Hw4 & Hinv4); [done|done|].
  exists k4, (L <| lh_n := hdr_n d |> <| lh_block := bs |>). split_and!; [| | |done|done| | | |done].
  - unfold read_head. rewrite (get_log_run L) by done. rewrite Hdev, !u32_small by lia.
    erewrite bind_ok by exact E1. unfold get_buf. erewrite bind_ok by by apply get_entry.
    rewrite Hdata. unfold set_log. rewrite bind_modify. by erewrite bind_ok by exact E3.
  - rewrite (wrote_log _ _ _ Hw4). cbn. by rewrite HL1.
  - split; try done. cbn. by rewrite Hbs.
  - split; [|done|done]. unfold log_list. cbn. apply list_eq. intros j. unfold hdr_get. rewrite list_lookup_fmap.
    destruct (decide (j < Z.to_nat (hdr_n d))%nat) as [Hj|Hj].
    + rewrite lookup_take_lt, Hhi by (cbn; lia). by rewrite lookup_seqZ_lt by lia.
    + rewrite lookup_take_ge by lia. by rewrite lookup_seqZ_ge by lia.
  - destruct Hw1 as (_ & ? & _), Hw4 as (_ & E & _). rewrite E. done.
  - destruct Hw1 as (_ & _ & E), Hw4 as (_ & _ & E'). rewrite app_nil_r in E, E'. rewrite E'. done.
Qed.

(** [recover_from_log] makes the disk [recovered]. *)
Lemma recover_run V R k L :
  bio_inv dev me [] V ∅ R k -> wait_fuel <> O -> k_log k = L -> log_ok L ->
  refs_low R -> room 2 R -> head_ok (l_start L) (l_size L) (V (l_start L)) ->
  exists k', recover_from_log k = Ok tt k' /\ lh_n (k_log k') = 0 /\
    disk_image (k_device k') = disk_image (k_device k) /\
    disk_writes (k_device k') = disk_writes (k_device k) ++ recovery_writes (l_start L) V /\
    bio_inv dev me [] (recovered (l_start L) V) ∅ R k'.
Proof.
  intros Hinv Hf HL Hok Hlow Hroom (Hn0 & Htr & _). pose proof Htr as [Hlen Hm Hout].
  assert (room 1 R) as Hroom1 by (destruct Hroom as ([|f [|g fs]] & Hnd & Hl & Hfs); [done|done|]; exists [f];
    split_and!; [apply NoDup_singleton|done|apply Forall_singleton; by apply Forall_cons in Hfs as [? _]]).
  destruct (read_head_run V ∅ R k L) as (k1 & L1 & E1 & HL1 & Hok1 & Es & Ez & Hh & Hi1 & Hw1 & Hinv1);
    [done|done|done|done|apply not_elem_of_empty|done|done|done|done|].
  rewrite <- Es, <- Ez in *. set (bl := hdr_get _) in *.
  destruct (install_loop_run true bl [] bl log_fuel V ∅ R k1 L1) as (k2 & R2 & E2 & Hw2 & Hd2 & Hinv2); try done.
  { unfold log_fuel. lia. }
  change (Z.of_nat (length (@nil Z))) with 0 in *.
  apply refs_down_0 in Hd2 as ->; [|by eapply bi_refs_nn].
  replace (∅ ∖ list_to_set bl) with (∅ : gset Z) in Hinv2 by (apply set_eq; intros x; rewrite elem_of_difference; split; [by intros ?%elem_of_empty|tauto]). pose proof (wrote_log _ _ _ Hw2) as HL2. rewrite HL1 in HL2.
  destruct (clear_head_run _ ∅ R k2 L1 Hinv2) as (k3 & E3 & HL3 & Hi3 & Hw3 & Hinv3);
    [done|done|done|lia|apply not_elem_of_empty|done|done|].
  assert (replay (installs (l_start L1) 0 bl V) V (l_start L1) = V (l_start L1)) as Ehead.
  { apply replay_notin. rewrite installs_fst. intros Hin. eapply Forall_forall in Hout as [_ Ho]; [|exact Hin]. lia. }
  exists k3. split_and!.
  - unfold recover_from_log. erewrite bind_ok by exact E1. by erewrite bind_ok by exact E2.
  - by rewrite HL3.
  - destruct Hw2 as (_ & ? & _). congruence.
  - destruct Hw2 as (_ & _ & Hw2). rewrite Hw3, Hw2, Hw1. unfold recovery_writes, clear_head. fold bl.
    by rewrite Ehead, app_assoc.
  - unfold recovered, recovery_writes, clear_head. fold bl. rewrite replay_app. by rewrite Ehead in Hinv3.
Qed.

(** ** Crash safety *)

(** A freshly booted kernel whose cache is empty of modifications, before
    [initlog] replays the log [L]. *)
Record booted (L : log) (k : kernel) : Prop := {
  bo_inv : exists R, bio_inv dev me [] (content k) ∅ R k /\ refs_low R /\ room 2 R;
  bo_log : log_ok (k_log k) /\ l_start (k_log k) = l_start L /\ l_size (k_log k) = l_size L
}.

Lemma booted_recover L k :
  booted L k -> wait_fuel <> O -> head_ok (l_start L) (l_size L) (content k (l_start L)) ->
  exists k', recover_from_log k = Ok tt k' /\ content k' = recovered (l_start L) (content k) /\
    disk_writes (k_device k') = disk_writes (k_device k) ++ recovery_writes (l_start L) (content k) /\
    lh_n (k_log k') = 0.
Proof.
  intros [(R & Hinv & Hlow & Hroom) (Hok & Es & Ez)] Hf Hh. rewrite <- Es, <- Ez in *.
  destruct (recover_run (content k) R k (k_log k)) as (k' & E & Hn & Hi & Hw & Hinv'); try done.
  exists k'. split_and!; [done| |done|done].
  apply functional_extensionality. intros b. symmetry. apply (bi_clean _ _ _ _ _ _ _ Hinv' b). apply not_elem_of_empty.
Qed.

(** C1: A commit is atomic with respect to crashes. [commit] returns with
    the transaction on the disk, and if the machine stops after any number
    [i] of the commit's block writes, then on the disk that is left the
    boot-time recovery succeeds and restores every block outside the log to
    its contents before the transaction (when the header had not been
    written yet) or to its contents after the transaction. *)
Theorem commit_crash_atomic bl V dirty R k L :
  bio_inv dev me [] V dirty R k -> wait_fuel <> O -> k_log k = L -> log_ok L -> holds L bl ->
  bl <> [] -> NoDup bl -> (forall b, b ∈ dirty <-> b ∈ bl) -> refs_low R -> room 1 R ->
  hdr_n (content k (l_start L)) = 0 -> 4 + 4 * LOGSIZE <= Z.of_nat (length (content k (l_start L))) ->
  exists k' ws, commit k = Ok tt k' /\ lh_n (k_log k') = 0 /\
    disk_writes (k_device k') = disk_writes (k_device k) ++ ws /\
    (forall b, outside (l_start L) (l_size L) b -> content k' b = V b) /\
    forall i kr, booted L kr -> content kr = replay (take i ws) (content k) ->
      exists kr', recover_from_log kr = Ok tt kr' /\
        forall b, outside (l_start L) (l_size L) b ->
          content kr' b = if decide (i <= length bl)%nat then content k b else V b.
Proof.
  intros Hinv Hf HL Hok Hh Hne Hnd Hd Hlow Hroom Hn Hlen. pose proof Hh as [_ _ Htr]. pose proof Htr as [Hl Hm Hout].
  assert (log_clean L dirty) as Hc.
  { intros b Hb Hin. apply Hd in Hin. eapply Forall_forall in Hout as [_ Ho]; [|exact Hin]. lia. }
  assert (forall b, b ∉ bl -> V b = content k b) as HV.
  { intros b Hb. apply (bi_clean _ _ _ _ _ _ _ Hinv). by rewrite Hd. }
  assert (V (l_start L) = content k (l_start L)) as Es.
  { apply (bi_clean _ _ _ _ _ _ _ Hinv), Hc. lia. }
  destruct (commit_run bl V dirty R k L) as (k' & R' & E & HL' & Hi & Hw & _ & Hinv'); try done.
  { apply Forall_forall. intros b. by rewrite Hd. }
  exists k', (commit_writes (l_start L) bl V). split_and!; [done|by rewrite HL'|done| |].
  - intros b Hb. unfold content at 1. rewrite Hw, Hi, replay_app. by eapply replay_commit.
  - intros i kr Hb Hcr. destruct (booted_recover L kr Hb Hf) as (kr' & E' & Hcr' & _ & _).
    { rewrite Hcr. by apply (crash_head_ok (l_start L) (l_size L)). }
    exists kr'. split; [done|]. intros b Hob. rewrite Hcr', Hcr.
    apply (crash_recovered (l_start L) (l_size L)); try done. by apply hdr_get_0.
Qed.

(** C2: Recovery itself survives crashes. Whatever number [i] of recovery's
    own block writes reached the disk before the machine stopped again, the
    next recovery leaves every block outside the log as an undisturbed
    recovery would have, and the log empty. *)
Theorem recovery_crash_idempotent L k i kr :
  booted L k -> wait_fuel <> O -> head_ok (l_start L) (l_size L) (content k (l_start L)) -> booted L kr ->
  content kr = replay (take i (recovery_writes (l_start L) (content k))) (content k) ->
  exists k' kr', recover_from_log k = Ok tt k' /\ recover_from_log kr = Ok tt kr' /\
    disk_writes (k_device k') = disk_writes (k_device k) ++ recovery_writes (l_start L) (content k) /\
    hdr_get (content kr' (l_start L)) = [] /\
    forall b, outside (l_start L) (l_size L) b -> content kr' b = content k' b.
Proof.
  intros Hb Hf Hh Hbr Hcr.
  destruct (booted_recover L k Hb Hf Hh) as (k' & E & Hc & Hw & _).
  pose proof (crash_recovery_head_ok (l_start L) (l_size L) (content k) i Hh) as Hhr. rewrite <- Hcr in Hhr.
  destruct (booted_recover L kr Hbr Hf Hhr) as (kr' & E' & Hc' & _ & _).
  exists k', kr'. split_and!; [done|done|done| |].
  - rewrite Hc'. apply recovered_head. destruct Hhr as (_ & _ & Hd). change LOGSIZE with 30 in Hd. lia.
  - intros b Hob. rewrite Hc', Hc, Hcr. destruct Hh as (_ & Ht & Hd). change LOGSIZE with 30 in Hd.
    apply (crash_in_recovery (l_start L) (l_size L)); [done|lia|done].
Qed.

(** ** [log_write] *)

Lemma log_write_find_spec l n i bn :
  (n <= length l)%nat -> exists j, (j <= n)%nat /\ log_write_find l n i bn = i + Z.of_nat j /\
    ((j < n)%nat -> exists b, l !! j = Some b /\ u32 b = bn) /\
    (j = n -> forall b, b ∈ take n l -> u32 b <> bn).
Proof.
  revert n i. induction l as [|b l IH]; intros n i Hn; cbn in Hn.
  { exists O. assert (n = O) as -> by lia. split_and!; [lia|cbn; lia|lia|]. intros _ b Hb. by apply elem_of_nil in Hb. }
  destruct n as [|n].
  { exists O. split_and!; [lia|cbn; lia|lia|]. intros _ b' Hb. by apply elem_of_nil in Hb. }
  cbn [log_write_find]. destruct (Z.eqb_spec (u32 b) bn) as [E|E].
  - exists O. split_and!; [lia|lia| |lia]. intros _. by exists b.
  - destruct (IH n (i + 1)) as (j & Hj & -> & Hlt & Heq); [lia|]. exists (S j). split_and!; [lia|lia| |].
    + intros Hs. apply Hlt. lia.
    + intros [= ->] b' [->|Hb']%elem_of_cons; [done|]. by apply Heq.
Qed.

(** The search finds the block in the transaction, or its end. *)
Lemma log_find_run L bl bn :
  log_ok L -> holds L bl -> 0 <= bn < 2 ^ 31 ->
  exists j, (j <= length bl)%nat /\ log_write_find (lh_block L) (Z.to_nat (lh_n L)) 0 bn = Z.of_nat j /\
    ((j < length bl)%nat /\ bn ∈ bl /\ lh_block L !! j = Some bn \/ j = length bl /\ bn ∉ bl).
Proof.
  intros [_ _ _ _ Hlen] [Hl Hn [_ Hm Ho]] Hbn.
  assert (forall b, b ∈ bl -> u32 b = b) as Hu.
  { intros b Hb. eapply Forall_forall in Ho as [? _]; [|exact Hb]. apply u32_small. lia. }
  destruct (log_write_find_spec (lh_block L) (Z.to_nat (lh_n L)) 0 bn) as (j & Hj & E & Hlt & Heq); [lia|].
  rewrite E. exists j. split_and!; [lia|lia|]. destruct (decide (j = length bl)) as [->|Hne].
  - right. split; [done|]. intros Hin. apply (Heq ltac:(lia) bn); [by rewrite <- Hl in Hin|]. by apply Hu.
  - left. destruct Hlt as (b & Hb & Ebn); [lia|].
    assert (b ∈ bl) as Hin. { rewrite <- Hl. apply (list_elem_of_lookup_2 _ j). apply lookup_take_Some. split; [done|lia]. }
    rewrite (Hu b Hin) in Ebn. subst b. split_and!; [lia|done|done].
Qed.

(** Pinning a held buffer inside the critical section of the log. *)
Lemma bpin_in_log held V dirty R k b bn r :
  bio_inv dev me held V dirty R k -> (b, bn) ∈ held -> R !! b = Some r -> r + 1 < 2 ^ 32 ->
  exists x, k_bcache k !! b = Some x /\ b_blockno x = bn /\
    let k' := k <| k_bcache ::= fun bc => <[b := x <| b_refcnt := r + 1 |>]> bc |> in
    (forall f, bpin b (klocking log_lock (k <| k_log ::= f |>)) = Ok tt (klocking log_lock (k' <| k_log ::= f |>))) /\
    bio_inv dev me held V dirty (<[b := r + 1]> R) k'.
Proof.
  intros Hinv Hin HR Hr.
  destruct (bi_held _ _ _ _ _ _ _ Hinv _ _ Hin) as (Hb & (x & Hx & _ & Bx & _) & _).
  pose proof (refs_lookup dev me _ _ _ _ _ _ _ Hinv Hx) as HR'. assert (r = b_refcnt x) as -> by congruence.
  destruct (held_refs dev me _ _ _ _ _ _ _ _ Hinv Hin Hx) as [Hr0 _].
  destruct (bi_calm _ _ _ _ _ _ _ Hinv) as (Hs & Hl & _).
  destruct (bpin_run dev me held V dirty R k b bn (b_refcnt x) Hinv Hin HR) as (k1 & E1 & _ & _ & Hinv1); [lia|].
  assert (forall lk, static_lock lk -> lock_free lk (k_m k)) as Hfree by (intros; apply Hl; [done|apply not_elem_of_nil]).
  assert (x <| b_refcnt ::= fun n => u32 (n + 1) |> = x <| b_refcnt := b_refcnt x + 1 |>) as Ex.
  { unfold upd. cbn -[u32]. by rewrite u32_small by lia. }
  exists x. split_and!; [done|done|].
  split.
  - intros f. unfold bpin.
    erewrite bind_ok by (apply kacquire; [by apply settled_klocking|apply lock_free_locking; [done|by apply Hfree]]).
    unfold set_buf. rewrite bind_modify, (bc_alter _ b x), Ex by done.
    erewrite (krelease _ _ (locking log_lock (k_m k))); [|by apply settled_klocking|apply lock_free_locking; [done|by apply Hfree]|done].
    done.
  - assert (k1 = k <| k_bcache ::= fun bc => <[b := x <| b_refcnt := b_refcnt x + 1 |>]> bc |>) as <-; [|done].
    unfold bpin in E1. erewrite bind_ok in E1 by (apply kacquire; [done|by apply Hfree]).
    unfold set_buf in E1. rewrite bind_modify, (bc_alter _ b x), Ex in E1 by done.
    erewrite (krelease _ _ (k_m k)) in E1; [|done|by apply Hfree|done]. injection E1 as <-. by destruct k.
Qed.

(** The transaction after block [bn] has been logged. *)
Definition add_block (bn : Z) (bl : list Z) : list Z := if decide (bn ∈ bl) then bl else bl ++ [bn].

Lemma holds_add L bl bn :
  log_ok L -> holds L bl -> outside (l_start L) (l_size L) bn ->
  Z.of_nat (length bl) < Z.min LOGSIZE (l_size L - 1) ->
  holds (L <| lh_block ::= fun bs => <[length bl := bn]> bs |> <| lh_n ::= fun n => n + 1 |>) (bl ++ [bn]).
Proof.
  intros [_ _ _ _ Hlen] [Hl Hn [Hs Hm Ho]] Hbn Hlt. split.
  - unfold log_list in *. cbn. rewrite Hn in *. replace (Z.to_nat (Z.of_nat (length bl) + 1)) with (S (length bl)) by lia.
    rewrite (take_S_r _ _ bn) by (apply list_lookup_insert_eq; lia).
    rewrite take_insert_ge by lia. by rewrite Nat2Z.id in Hl; rewrite Hl.
  - cbn. rewrite length_app. cbn. lia.
  - split; cbn; [rewrite length_app; cbn; lia..|]. by apply Forall_app; split; [|constructor].
Qed.

(** What the operations of a transaction leave alone: all but the buffers,
    the sleep locks, the list of logged blocks, and processes woken up. *)
Definition log_frame (k k' : kernel) : Prop :=
  bio_frame (k <| k_log := k_log k' |>) k' /\
  k_log k' = (k_log k) <| lh_n := lh_n (k_log k') |> <| lh_block := lh_block (k_log k') |>.

Lemma log_frame_intro k k' :
  k' = k <| k_bcache := k_bcache k' |> <| k_log := k_log k' |> ->
  k_log k' = (k_log k) <| lh_n := lh_n (k_log k') |> <| lh_block := lh_block (k_log k') |> -> log_frame k k'.
Proof.
  intros E EL. split; [|done]. exists (k_proc k), (k_sleeplocks k), (k_bcache k'), (k_disk k), (k_device k).
  split; [|done]. etransitivity; [exact E|]. by destruct k.
Qed.

Lemma log_write_run bl held V dirty R k L b bn r :
  bio_inv dev me held V dirty R k -> (b, bn) ∈ held -> k_log k = L -> log_ok L -> holds L bl -> NoDup bl ->
  R !! b = Some r -> r + 1 < 2 ^ 32 -> outside (l_start L) (l_size L) bn -> 1 <= l_outstanding L ->
  if decide (Z.of_nat (length bl) < Z.min LOGSIZE (l_size L - 1)) then
    exists k', log_write b k = Ok tt k' /\ log_ok (k_log k') /\ holds (k_log k') (add_block bn bl) /\
      NoDup (add_block bn bl) /\ k_device k' = k_device k /\
      bio_inv dev me held V dirty (if decide (bn ∈ bl) then R else <[b := r + 1]> R) k' /\ log_frame k k'
  else exists k', log_write b k = Panic "too big a transaction" k'.
Proof.
  intros Hinv Hin HL Hok Hh Hnd HR Hr Hbn Hout. pose proof Hh as [Hl Hn [Hs Hm Ho]]. pose proof Hok as [_ _ _ _ Hlen].
  destruct (bpin_in_log held V dirty R k b bn r Hinv Hin HR Hr) as (x & Hx & Bx & Epin & Hinv').
  destruct (bi_calm _ _ _ _ _ _ _ Hinv) as (Hset & Hlk & _).
  assert (lock_free log_lock (k_m k)) as Hfree by (apply Hlk; [done|apply not_elem_of_nil]).
  unfold log_write. rewrite (bind_ok _ _ _ _ _ (kacquire log_lock k Hset Hfree)), (get_log_run L) by done.
  case_decide as Hroom.
  2: { assert ((LOGSIZE <=? lh_n L) || (l_size L - 1 <=? lh_n L) = true) as -> by lia. by eexists. }
  assert ((LOGSIZE <=? lh_n L) || (l_size L - 1 <=? lh_n L) = false) as -> by lia.
  assert ((l_outstanding L <? 1) = false) as -> by lia. unfold get_buf.
  erewrite bind_ok by (apply get_entry; exact Hx).
  destruct Hbn as [Hbr Hbo]. rewrite Bx, (s32_small bn) by lia.
  destruct (log_find_run L bl bn Hok Hh Hbr) as (j & Hj & -> & Hcase).
  unfold set_log_block. rewrite bind_bind, (get_log_run L) by done.
  rewrite decide_True by lia. unfold set_log. rewrite bind_modify, Nat2Z.id.
  unfold add_block. destruct Hcase as [(Hjl & Hbin & Hjb)|[-> Hbin]].
  - rewrite !(decide_True (P := bn ∈ bl)) by done.
    assert ((Z.of_nat j =? lh_n L) = false) as -> by lia. cbv beta iota delta [when]. rewrite bind_ret.
    erewrite krelease; [|exact Hset|exact Hfree|done].
    eexists. split; [reflexivity|].
    assert (L <| lh_block ::= fun bl0 => <[j := bn]> bl0 |> = L) as EL.
    { destruct L. unfold upd. cbn in *. by rewrite list_insert_id. }
    match goal with |- log_ok (k_log ?q) /\ _ => assert (k_log q = L) as ->
      by (etransitivity; [|exact EL]; rewrite <- HL; reflexivity) end.
    split_and!; [done|done|done|done| |apply log_frame_intro; destruct k as [????????? l]; by destruct l].
    by apply (bio_inv_log _ _ _ _ _ (fun l => l <| lh_block ::= fun bs => <[j := bn]> bs |>)) in Hinv.
  - rewrite !(decide_False (P := bn ∈ bl)) by done.
    assert ((Z.of_nat (length bl) =? lh_n L) = true) as -> by lia. cbv beta iota delta [when].
    rewrite bind_bind. erewrite bind_ok by exact (Epin _). rewrite bind_modify.
    erewrite krelease; [|exact Hset|exact Hfree|done]. eexists. split; [reflexivity|].
    assert (holds (L <| lh_block ::= fun bs => <[length bl := bn]> bs |> <| lh_n ::= fun n => n + 1 |>) (bl ++ [bn])) as Hh'
      by by apply holds_add.
    match goal with |- log_ok (k_log ?q) /\ _ => assert (k_log q =
      L <| lh_block ::= fun bs => <[length bl := bn]> bs |> <| lh_n ::= fun n => n + 1 |>) as ->
      by (rewrite <- HL; reflexivity) end.
    split_and!; [|done| |done| |apply log_frame_intro; destruct k as [????????? l]; by destruct l].
    + destruct Hok. split; try done. cbn. by rewrite length_insert.
    + apply NoDup_app. split_and!; [done| |apply NoDup_singleton]. intros y Hy ->%list_elem_of_singleton. done.
    + apply (bio_inv_log _ _ _ _ _ (fun l => l <| lh_block ::= fun bs => <[length bl := bn]> bs |>)),
        (bio_inv_log _ _ _ _ _ (fun l => l <| lh_n ::= fun n => n + 1 |>)) in Hinv'. done.
Qed.

(** C16: [log_write] records the block of a held buffer in the transaction.
    A block that is already part of it is absorbed; a new one is appended
    and its buffer pinned with one more reference, so the list stays free of
    duplicates. When the log has no room left it panics instead. *)
Theorem log_write_spec bl held V dirty R k L b bn r :
  bio_inv dev me held V dirty R k -> (b, bn) ∈ held -> k_log k = L -> log_ok L -> holds L bl -> NoDup bl ->
  R !! b = Some r -> r + 1 < 2 ^ 32 -> outside (l_start L) (l_size L) bn -> 1 <= l_outstanding L ->
  if decide (Z.of_nat (length bl) < Z.min LOGSIZE (l_size L - 1)) then
    exists k', log_write b k = Ok tt k' /\ log_ok (k_log k') /\ holds (k_log k') (add_block bn bl) /\
      NoDup (add_block bn bl) /\ k_device k' = k_device k /\
      bio_inv dev me held V dirty (if decide (bn ∈ bl) then R else <[b := r + 1]> R) k'
  else exists k', log_write b k = Panic "too big a transaction" k'.
Proof.
  intros Hinv Hin HL Hok Hh Hnd HR Hr Hbn Hout. pose proof (log_write_run bl held V dirty R k L b bn r) as Hw.
  case_decide; [|by apply Hw]. destruct Hw as (k' & ? & ? & ? & ? & ? & ? & _); [done..|]. by exists k'.
Qed.

End logspec.
