(* ===== verification/Demo.v ===== *)
(** * Concrete machines and kernels

    A linker layout, machines and page tables, with procedures that decide
    the hypotheses of the theorems about memory on them (the leaves of a table
    enumerate everything it maps); a platform with a disk that transfers a
    block at once, kernels of one running process on it, and buffer caches
    that hold given blocks: the states on which the theorems are applied. *)

From stdpp Require Import functions.
From S2P Require Import Prelude Riscv Machine Spinlock PhysMem Kalloc PageTable Vm VmSpec VmCopy Kernel Sched Sleeplock Bio Bytes Log Thread BioRing BioSpec LogDisk LogSpec.

(** Deciding a closed decidable goal by evaluation. *)
Ltac vm_decide := apply (bool_decide_unpack _); vm_compute; exact I.

(** The kernel image ends 16 pages below [PHYSTOP]. *)
Definition demo_linker : Linker := {|
  end_ := PHYSTOP - 16 * 4096; etext := KERNBASE + 0x8000; trampoline := KERNBASE + 0x7000;
  uservec := KERNBASE + 0x7000; userret := KERNBASE + 0x709c; kernelvec := KERNBASE + 0x5000;
  timervec := KERNBASE + 0x5100; usertrap_addr := KERNBASE + 0x2000; forkret_addr := KERNBASE + 0x1800;
  main_addr := KERNBASE + 0x1000 |}.

#[export] Existing Instance demo_linker.

#[export] Instance demo_layout : KernelLayout.
Proof. split; done. Qed.

(** The [i]-th allocatable page. *)
Definition page (i : Z) : Z := PHYSTOP - 16 * 4096 + 4096 * i.

Definition demo_hart : hart := mkhart 0 0 0 2 0 0 0 0 0 0 0 0 0 0 0 0 0 0 0.

Definition demo_cpu : cpu := mkcpu None (mkcontext 0 0 []) 0 1.

Definition demo_core : core := mkcore demo_hart (replicate 8 demo_cpu).

Definition free_lock (name : string) : spinlock := mkspinlock 0 name None.

Definition demo_machine (mem : gmap Z Z) (head : Z) : machine :=
  mkmachine demo_core {[kmem_lock := free_lock "kmem"]} mem head.

Lemma demo_settled : settled demo_core.
Proof.
  split; [split; [done|]|].
  - exists demo_cpu. split_and!; done.
  - intros u [= <-] _. done.
Qed.

Lemma demo_quiet mem head : quiet (demo_machine mem head).
Proof. split; [apply demo_settled|]. by exists "kmem"%string. Qed.

(** The links of a free list. *)
Fixpoint link_pages (l : list Z) (mem : gmap Z Z) : gmap Z Z :=
  match l with
  | a :: (b :: _) as l' => match l' with b :: _ => store64 a b (link_pages l' mem) | [] => mem end
  | _ => mem
  end.

#[export] Instance freelist_at_dec m head l : Decision (freelist_at m head l).
Proof. revert head. induction l; intros head; cbn; apply _. Defined.

#[export] Instance kmem_inv_dec m l : Decision (kmem_inv m l).
Proof. unfold kmem_inv. apply _. Defined.

#[export] Instance pt_wf_dec l m pt fl : Decision (pt_wf l m pt fl).
Proof. unfold pt_wf. apply _. Defined.

(** ** Deciding [dirs_ok] *)

Fixpoint dirs_okb (l : nat) (m : gmap Z Z) (pt : Z) : bool :=
  match l with
  | O => true
  | S l' => forallb (fun i =>
      if has_flag (entry m pt i) PTE_V
      then negb (has_flag (entry m pt i) PTE_RWX) && dirs_okb l' m (PTE2PA (entry m pt i))
      else true) (seqZ 0 512)
  end.

Lemma dirs_okb_sound l m pt : dirs_okb l m pt = true -> dirs_ok l m pt.
Proof.
  revert pt. induction l as [|l IH]; intros pt Hb; [done|]. cbn [dirs_okb] in Hb.
  Transparent dirs_ok. cbn [dirs_ok]. Opaque dirs_ok. intros i Hi HV.
  rewrite forallb_forall in Hb. specialize (Hb i). rewrite HV in Hb.
  assert (In i (seqZ 0 512)) as Hin by (apply list_elem_of_In, elem_of_seqZ; lia).
  apply andb_prop in Hb as [Hf Hd]; [|done]. split; [by apply negb_true_iff|by apply IH].
Qed.

(** ** The leaves of a page table *)

Definition level_size (l : nat) : Z := 2 ^ (12 + 9 * Z.of_nat l).

Fixpoint pt_leaves (l : nat) (m : gmap Z Z) (pt base : Z) : list (Z * Z) :=
  seqZ 0 512 ≫= fun i =>
    if has_flag (entry m pt i) PTE_V then
      match l with
      | O => [(base + 4096 * i, entry m pt i)]
      | S l' => pt_leaves l' m (PTE2PA (entry m pt i)) (base + level_size l * i)
      end
    else [].

Lemma PX_split l va :
  va mod level_size (S l) = level_size l * PX (Z.of_nat l) va + va mod level_size l.
Proof.
  rewrite PX_eq by lia. unfold level_size. rewrite Nat2Z.inj_succ.
  replace (12 + 9 * Z.succ (Z.of_nat l)) with (12 + 9 * Z.of_nat l + 9) by lia.
  pose proof (Z.pow_pos_nonneg 2 (12 + 9 * Z.of_nat l)).
  rewrite Z.pow_add_r, Z.rem_mul_r by lia. change (2 ^ 9) with 512. lia.
Qed.

Lemma pt_leaves_complete l m pt base va v :
  lookup_pte l m pt va = Some v ->
  (base + va mod level_size (S l) / 4096 * 4096, v) ∈ pt_leaves l m pt base.
Proof.
  Transparent lookup_pte leaf_addr. unfold lookup_pte. revert pt base.
  induction l as [|l IH]; intros pt base; cbn [leaf_addr pt_leaves].
  - cbn. change (pt + 8 * PX 0 va) with (pt + 8 * PX 0 va).
    change (load64 m (pt + 8 * PX 0 va)) with (entry m pt (PX 0 va)).
    destruct (has_flag (entry m pt (PX 0 va)) PTE_V) eqn:HV; [|done]. intros [= <-].
    apply list_elem_of_bind. exists (PX 0 va). rewrite HV. split; [|apply elem_of_seqZ, PX_range; lia].
    apply list_elem_of_singleton. f_equal. rewrite (PX_split 0). change (Z.of_nat 0) with 0.
    change (level_size 0) with 4096. f_equal. Z.div_mod_to_equations. lia.
  - set (i := PX (Z.of_nat (S l)) va).
    destruct (has_flag (entry m pt i) PTE_V) eqn:HV; [|done]. intros Hl.
    apply list_elem_of_bind. exists i. rewrite HV. split; [|apply elem_of_seqZ, PX_range; lia].
    apply (IH _ (base + level_size (S l) * i)) in Hl.
    replace (base + va mod level_size (S (S l)) / 4096 * 4096)
      with (base + level_size (S l) * i + va mod level_size (S l) / 4096 * 4096); [done|].
    rewrite (PX_split (S l)). fold i.
    assert (level_size (S l) = 4096 * 2 ^ (9 * Z.of_nat (S l))) as ->
      by (unfold level_size; by rewrite Z.pow_add_r by lia).
    rewrite <- Z.mul_assoc, Z.mul_comm, Z.div_add_l by lia. lia.
  Opaque lookup_pte leaf_addr.
Qed.

#[global] Opaque pt_leaves.

(** Everything a table maps is among its leaves. *)
Lemma lookup_in_leaves m pt va v :
  0 <= va < 2 ^ 39 -> pt_lookup m pt va = Some v -> (va / 4096 * 4096, v) ∈ pt_leaves 2 m pt 0.
Proof.
  intros Hva Hl%(pt_leaves_complete 2 m pt 0).
  change (level_size 3) with (2 ^ 39) in Hl. by rewrite (Z.mod_small va (2 ^ 39)) in Hl.
Qed.

Lemma lookup_not_leaf m pt va :
  0 <= va < 2 ^ 39 -> va / 4096 * 4096 ∉ (pt_leaves 2 m pt 0).*1 -> pt_lookup m pt va = None.
Proof.
  intros Hva Hn. destruct (pt_lookup m pt va) as [v|] eqn:E; [|done]. destruct Hn.
  apply lookup_in_leaves in E; [|done]. apply list_elem_of_fmap. by exists (va / 4096 * 4096, v).
Qed.

(** User pages are data pages and mapped once, by inspection of the leaves. *)
Definition umap_okb (D : list Z) (lv : list (Z * Z)) : bool :=
  forallb (fun '(a, v) => negb (has_flag v PTE_U) ||
             (bool_decide (page_ok (PTE2PA v)) && bool_decide (PTE2PA v ∈ D) &&
              forallb (fun '(b, w) => negb (has_flag w PTE_U) || negb (PTE2PA w =? PTE2PA v) || (a =? b)) lv)) lv.

Lemma upage_leaf m pt va pa :
  0 <= va -> upage m pt va = Some pa ->
  exists v, (va / 4096 * 4096, v) ∈ pt_leaves 2 m pt 0 /\ has_flag v PTE_U = true /\ pa = PTE2PA v.
Proof.
  intros Hva. unfold upage. change MAXVA with (2 ^ 38). destruct (Z.leb_spec (2 ^ 38) va); [done|].
  destruct (pt_lookup m pt va) as [v|] eqn:E; [|done]. cbn.
  destruct (has_flag v PTE_U) eqn:HU; [|done]. cbn. destruct (PTE2PA v =? 0); [done|]. intros [= <-].
  exists v. split; [|done]. exact (lookup_in_leaves m pt va v ltac:(lia) E).
Qed.

Lemma umap_okb_sound D m pt : umap_okb D (pt_leaves 2 m pt 0) = true -> umap_ok D m pt.
Proof.
  intros Hb. unfold umap_okb in Hb. rewrite forallb_forall in Hb.
  assert (forall va pa, 0 <= va -> upage m pt va = Some pa -> exists v,
    (va / 4096 * 4096, v) ∈ pt_leaves 2 m pt 0 /\ has_flag v PTE_U = true /\ pa = PTE2PA v /\
    page_ok pa /\ pa ∈ D /\
    forall b w, (b, w) ∈ pt_leaves 2 m pt 0 -> has_flag w PTE_U = true -> PTE2PA w = pa ->
      b = va / 4096 * 4096) as Hp.
  { intros va pa Hva Hu. destruct (upage_leaf m pt va pa Hva Hu) as (v & Hin & HU & ->). exists v.
    specialize (Hb (va / 4096 * 4096, v)). cbn beta iota in Hb. rewrite HU in Hb. cbn [negb orb] in Hb.
    apply list_elem_of_In in Hin as Hin'. apply andb_prop in Hb as [Hb Hall]; [|exact Hin'].
    apply andb_prop in Hb as [H1%bool_decide_eq_true H2%bool_decide_eq_true].
    split_and!; [exact Hin|exact HU|reflexivity|exact H1|exact H2|]. intros b w Hw HUw Ew. rewrite forallb_forall in Hall.
    specialize (Hall (b, w)). cbn beta iota in Hall. rewrite HUw, Ew, Z.eqb_refl in Hall. cbn [negb orb] in Hall.
    apply list_elem_of_In, Hall in Hw. by apply Z.eqb_eq in Hw. }
  split.
  - intros va pa Hva Hu. destruct (Hp va pa Hva Hu) as (v & _ & _ & _ & H1 & H2 & _). done.
  - intros va va' pa Hva Hva' Hu Hu'. destruct (Hp va pa Hva Hu) as (v & _ & _ & _ & _ & _ & Hun).
    destruct (Hp va' pa Hva' Hu') as (v' & Hin & HU & E & _).
    specialize (Hun _ _ Hin HU (eq_sym E)). lia.
Qed.

(** ** A user address space

    Root table in page 0, inner tables in pages 1 and 2, data pages 3 and 4
    mapped at 0 and 4096; the free list is [fl]. *)

Definition user_perm : Z := Z.lor (Z.lor PTE_R PTE_W) PTE_U.

Definition table_mem (mem : gmap Z Z) : gmap Z Z :=
  store64 (page 0) (Z.lor (PA2PTE (page 1)) PTE_V)
  (store64 (page 1) (Z.lor (PA2PTE (page 2)) PTE_V)
  (store64 (page 2) (make_pte (page 3) user_perm)
  (store64 (page 2 + 8) (make_pte (page 4) user_perm)
  (store8 (page 3) 65 (store8 (page 3 + 1) 66 mem))))).

Definition demo_vm (fl : list Z) : machine :=
  demo_machine (table_mem (link_pages fl ∅)) (hd 0 fl).

(** The free pages of the examples. *)
Definition demo_fl : list Z := [page 8; page 9; page 10; page 11; page 12].

Lemma demo_vm_inv : vm_inv [page 3; page 4; page 5] demo_fl (page 0) (demo_vm demo_fl).
Proof.
  split_and!; [apply demo_quiet|vm_decide|vm_decide|]. apply dirs_okb_sound. by vm_compute.
Qed.

(** ** Platform *)

(** The disk's initial contents and the writes so far; the device registers
    read as 0. *)
#[export] Instance demo_platform : Platform := {|
  device := (Z -> list Z) * list (Z * list Z);
  mmio_read := fun _ d => (0, d);
  mmio_write := fun _ _ d => d |}.

#[export] Instance demo_fuel : Fuel := 3%nat.

Definition demo_rw (b : nat) (write : bool) : M kernel unit := fun k =>
  match k_bcache k !! b with
  | None => Undef "disk" k
  | Some x =>
      if write then
        Ok tt (k <| k_bcache ::= fun bc => <[b := x <| b_disk := 0 |>]> bc |>
                 <| k_device ::= fun d => (d.1, d.2 ++ [(b_blockno x, b_data x)]) |>)
      else
        Ok tt (k <| k_bcache ::= fun bc =>
          <[b := x <| b_data := replay (k_device k).2 (k_device k).1 (b_blockno x) |> <| b_disk := 0 |>]> bc |>)
  end.

#[export] Instance demo_driver : DiskDriver := {|
  virtio_disk_init := ret tt; virtio_disk_rw := demo_rw; virtio_disk_intr := ret tt |}.

Lemma demo_frame (k : kernel) B v : bio_frame k (k <| k_bcache := B |> <| k_device := v |>).
Proof.
  exists (k_proc k), (k_sleeplocks k), B, (k_disk k), v. split; [by destruct k|done].
Qed.

#[export] Instance demo_laws : DiskLaws.
Proof.
  refine {| disk_image := fun d => d.1; disk_writes := fun d => d.2 |}; intros me k b x _ Hx; cbn;
    unfold demo_rw; rewrite Hx; eexists; (split; [reflexivity|]); split_and!; try done.
  - exact (demo_frame k _ (k_device k)).
  - exact (demo_frame k _ _).
Defined.

(** ** One process *)

Definition static_locks : list lockid :=
  [kmem_lock; pid_lock; wait_lock; tickslock; bcache_lock; itable_lock; ftable_lock; log_lock;
   cons_lock; uart_tx_lock; pr_lock; vdisk_lock] ++
  (proc_lock <$> seq 0 (Z.to_nat NPROC)) ++ (buf_lk <$> seq 0 (Z.to_nat NBUF)) ++
  (inode_lk <$> seq 0 (Z.to_nat NINODE)).

Lemma static_locks_all lk : static_lock lk -> lk ∈ static_locks.
Proof.
  unfold static_locks. rewrite !elem_of_app. destruct lk as [| | | | | | | | | | | |i|pi|i|i]; intros Hst;
    [left; vm_decide..| | | |].
  - right; left. apply list_elem_of_fmap. exists i. split; [done|]. apply elem_of_seq. cbn in Hst. lia.
  - done.
  - right; right; left. apply list_elem_of_fmap. exists i. split; [done|]. apply elem_of_seq. cbn in Hst. lia.
  - right; right; right. apply list_elem_of_fmap. exists i. split; [done|]. apply elem_of_seq. cbn in Hst. lia.
Qed.

Lemma static_locks_free lk :
  static_lock lk -> gset_to_gmap (free_lock "lock") (list_to_set static_locks : gset lockid) !! lk = Some (free_lock "lock").
Proof.
  intros Hst. apply lookup_gset_to_gmap_Some. split; [|done]. apply elem_of_list_to_set. by apply static_locks_all.
Qed.

Definition demo_procs : list proc :=
  mkproc RUNNING None 0 0 1 None 0 0 0 0 0 (mkcontext 0 0 []) (replicate 16 None) None [] ::
  replicate 63 (mkproc UNUSED None 0 0 0 None 0 0 0 0 0 (mkcontext 0 0 []) (replicate 16 None) None []).

Definition proc_core : core :=
  mkcore demo_hart (replicate 8 (mkcpu (Some O) (mkcontext 0 0 []) 0 1)).

Definition proc_machine : machine :=
  mkmachine proc_core (gset_to_gmap (free_lock "lock") (list_to_set static_locks)) ∅ 0.

Definition demo_disk : disk := mkdisk 0 0 0 [] 0 [] [] [].

Definition demo_kernel (bc : list buf) (l : log) (dv : device) : kernel :=
  mkkernel _ proc_machine 0 demo_procs None 2 0 0 ∅ bc l (mksuperblock 0 0 0 0 0 0 0 0) [] [] [] ∅
    (mkcons [] 0 0 0) (mkuart [] 0 0) 0 0 demo_disk dv.

Lemma demo_calm bc l dv : calm [] 0 (demo_kernel bc l dv).
Proof.
  split_and!.
  - split; [split; [done|]|].
    + eexists. split_and!; done.
    + intros u [= <-] _. done.
  - intros lk Hst _. exists "lock"%string. exact (static_locks_free lk Hst).
  - by eexists.
  - done.
  - apply Nat.ltb_lt. done.
Qed.

(** ** Buffer caches *)

(** Buffers in the order of their indices. *)
Definition link_bufs (l : list buf) : list buf :=
  imap (fun i x => x <| b_next := if decide (i = HEAD) then O else S i |>
                    <| b_prev := if decide (i = O) then HEAD else pred i |>) l.

Definition mk_cache (pl : list buf) : list buf :=
  link_bufs (pl ++ replicate (S HEAD - length pl) zero_buf).

Definition cached_block (bn : Z) (d : list Z) (r : Z) : buf := mkbuf 1 0 ROOTDEV bn r 0 0 d.

Lemma mk_cache_lookup pl i x :
  (length pl <= HEAD)%nat -> mk_cache pl !! i = Some x ->
  exists y, (pl !! i = Some y \/ (length pl <= i)%nat /\ y = zero_buf) /\ payload x = payload y.
Proof.
  intros Hl. unfold mk_cache, link_bufs. rewrite list_lookup_imap.
  destruct ((pl ++ replicate _ zero_buf) !! i) as [y|] eqn:E; [|done]. intros [= <-]. exists y. split; [|done].
  apply lookup_app_Some in E as [E|[Hge E]]; [by left|right]. apply lookup_replicate in E as [-> _]. done.
Qed.

#[export] Instance path_dec f a l z : Decision (path f a l z).
Proof. revert a. induction l as [|x l IH]; intros a; cbn; apply _. Defined.

(** The cache of distinct blocks [pl] of the root device. *)
Lemma demo_bio (pl : list (Z * list Z * Z)) l dv (V : Z -> list Z) (dirty : gset Z) :
  let bufs := (fun '(bn, d, r) => cached_block bn d r) <$> pl in
  let k := demo_kernel (mk_cache bufs) l dv in
  (length pl <= HEAD)%nat -> NoDup (pl.*1.*1) ->
  path (nxt (k_bcache k)) HEAD (seq 0 HEAD) HEAD -> path (prv (k_bcache k)) HEAD (reverse (seq 0 HEAD)) HEAD ->
  Forall (fun '(bn, d, r) => V bn = d /\ 0 <= r < 2 ^ 32) pl ->
  (forall bn, bn ∉ dirty -> V bn = content k bn) ->
  (forall bn, bn ∈ dirty -> exists d r, (bn, d, r) ∈ pl /\ 1 <= r) ->
  bio_inv ROOTDEV 0 [] V dirty (b_refcnt <$> k_bcache k) k.
Proof.
  intros bufs k Hlen Hnd Hn Hp HV Hclean Hdirty.
  assert (length bufs = length pl) as Hbl by apply length_fmap.
  assert (length (k_bcache k) = S HEAD) as Hkl.
  { cbn. unfold mk_cache, link_bufs. rewrite length_imap, length_app, length_replicate. lia. }
  assert (forall i x, k_bcache k !! i = Some x ->
    (exists bn d r, pl !! i = Some (bn, d, r) /\ payload x = cached_block bn d r) \/ payload x = zero_buf) as Hcases.
  { intros i x Hx. apply mk_cache_lookup in Hx as (y & [Hy|[_ ->]] & E); [|by right|lia].
    left. apply list_lookup_fmap_Some in Hy as ([[bn d] r] & -> & Hy). by exists bn, d, r. }
  assert (forall i x bn d r, k_bcache k !! i = Some x -> payload x = cached_block bn d r ->
    b_dev x = ROOTDEV /\ b_blockno x = bn /\ b_data x = d /\ b_refcnt x = r /\ b_valid x = 1) as Hc.
  { intros i x bn d r _ E. destruct x. by injection E as -> -> -> -> -> ->. }
  assert (forall x, payload x = zero_buf -> b_dev x = 0 /\ b_refcnt x = 0) as Hz.
  { intros x E. destruct x. by injection E as -> -> -> -> -> ->. }
  split.
  - apply demo_calm.
  - exists (seq 0 HEAD). by split_and!.
  - intros i j x y Hi Hj Hx Hy [Dx Bx]%caches_true Dy.
    destruct (Hcases i x Hx) as [(b1 & d1 & r1 & P1 & E1)|[? _]%Hz]; [|by rewrite Dx in *].
    destruct (Hcases j y Hy) as [(b2 & d2 & r2 & P2 & E2)|[? _]%Hz]; [|by rewrite Dy in *].
    destruct (Hc _ _ _ _ _ Hx E1) as (_ & ? & _), (Hc _ _ _ _ _ Hy E2) as (_ & ? & _).
    apply (NoDup_lookup (pl.*1.*1) i j b1 Hnd); rewrite !list_lookup_fmap, ?P1, ?P2; cbn; congruence.
  - done.
  - apply Forall_fmap, Forall_lookup_2. intros i x Hx. cbn.
    destruct (Hcases i x Hx) as [(b1 & d1 & r1 & P1 & E1)|[_ ?]%Hz]; [|lia].
    destruct (Hc _ _ _ _ _ Hx E1) as (_ & _ & _ & -> & _). apply (Forall_lookup_1 _ _ _ _ HV P1).
  - intros i bn x Hi (y & Hy & Dy & By & _) Hx. assert (y = x) as -> by congruence. subst bn.
    destruct (Hcases i x Hx) as [(b1 & d1 & r1 & P1 & E1)|[? _]%Hz]; [|by rewrite Dy in *].
    destruct (Hc _ _ _ _ _ Hx E1) as (_ & -> & -> & _). symmetry. apply (Forall_lookup_1 _ _ _ _ HV P1).
  - done.
  - intros bn Hd. destruct (Hdirty bn Hd) as (d & r & [i Hi]%list_elem_of_lookup & Hr). exists i.
    assert (i < length pl)%nat as Hil by by eapply lookup_lt_Some.
    destruct (lookup_lt_is_Some_2 (k_bcache k) i) as [x Hx]; [lia|].
    assert (payload x = cached_block bn d r) as E.
    { apply mk_cache_lookup in Hx as (y & [Hy|[Hge _]] & ->); [|lia|lia].
      unfold bufs in Hy. rewrite list_lookup_fmap, Hi in Hy. by injection Hy as <-. }
    destruct (Hc _ _ _ _ _ Hx E) as (? & ? & ? & ? & Hv). split_and!; [lia| |].
    + exists x. split_and!; [done|done|done|by rewrite Hv].
    + exists r. rewrite list_lookup_fmap, Hx. cbn. split; [congruence|done].
  - intros i bn Hin. by apply elem_of_nil in Hin.
  - apply NoDup_nil_2.
  - intros i Hi. unfold buf_lock_ok. rewrite decide_False by apply not_elem_of_nil. done.
Qed.
