(* ===== verification/SleepSmp.v ===== *)
(** * A sleep lock used by several threads

    Any number of threads run [acquiresleep] and [releasesleep] of one sleep
    lock, with the [sleep], [sched] and [wakeup] they call, interleaved at
    the granularity of the spin-lock operations and of the assignments made
    under them ([kernel/sleeplock.c], [kernel/proc.c]). A spin lock is
    acquired in one step, by a thread that finds it free. *)

From S2P Require Import Prelude Riscv Machine Spinlock PhysMem Kalloc Vm Kernel.

(** Where a thread is; [lk] is the spin lock in the sleep lock. *)
Inductive slpc :=
| Out              (* not using the lock *)
| AEnter           (* [acquiresleep]: acquire(lk) *)
| ATest            (* while (locked), [lk] held *)
| SLock            (* [sleep]: acquire(p->lock), [lk] held *)
| SRelease         (* release(lk), both held *)
| SMark            (* p->chan = chan; p->state = SLEEPING *)
| SSched           (* [sched]; p->lock is released by the scheduler *)
| SOff             (* off the CPU, until the scheduler picks it *)
| SResume          (* p->chan = 0; release(p->lock) *)
| SRelock          (* acquire(lk) *)
| ASet             (* locked = 1 done; release(lk) *)
| Crit             (* holds the sleep lock *)
| REnter           (* [releasesleep]: acquire(lk) *)
| RClear           (* locked = 0, [lk] held *)
| RWake (m : nat)  (* [wakeup] at process [m], [lk] held *)
| RWakeIn (m : nat) (* with p->lock of process [m] held *).

#[export] Instance slpc_eq_dec : EqDecision slpc.
Proof. solve_decision. Defined.

(** A thread with the fields of its [struct proc] that matter: the holder
    of [p->lock], and whether [p->chan] is this sleep lock. *)
Record thr := mkthr { t_pc : slpc; t_state : procstate; t_chan : bool; t_plock : option nat }.

#[export] Instance eta_thr : Eta thr := fun t => mkthr (t_pc t) (t_state t) (t_chan t) (t_plock t).

(** All threads, the holder of [lk] and the field [locked]. *)
Record slsys := mksys { sy_thr : list thr; sy_lk : option nat; sy_locked : bool }.

Definition new_thr : thr := mkthr Out RUNNING false None.

Definition sl_init (n : nat) : slsys := mksys (replicate n new_thr) None false.

(** The test of [wakeup]. *)
Definition wake_thr (t : thr) : thr :=
  if decide (t_state t = SLEEPING /\ t_chan t = true) then t <| t_state := RUNNABLE |> else t.

Inductive sl_step : slsys -> slsys -> Prop :=
| st_call ts lk l i t : ts !! i = Some t -> t_pc t = Out ->
    sl_step (mksys ts lk l) (mksys (<[i := t <| t_pc := AEnter |>]> ts) lk l)
| st_enter ts l i t : ts !! i = Some t -> t_pc t = AEnter ->
    sl_step (mksys ts None l) (mksys (<[i := t <| t_pc := ATest |>]> ts) (Some i) l)
| st_wait ts lk i t : ts !! i = Some t -> t_pc t = ATest ->
    sl_step (mksys ts lk true) (mksys (<[i := t <| t_pc := SLock |>]> ts) lk true)
| st_plock ts lk l i t : ts !! i = Some t -> t_pc t = SLock -> t_plock t = None ->
    sl_step (mksys ts lk l) (mksys (<[i := t <| t_pc := SRelease |> <| t_plock := Some i |>]> ts) lk l)
| st_unlk ts lk l i t : ts !! i = Some t -> t_pc t = SRelease ->
    sl_step (mksys ts lk l) (mksys (<[i := t <| t_pc := SMark |>]> ts) None l)
| st_mark ts lk l i t : ts !! i = Some t -> t_pc t = SMark ->
    sl_step (mksys ts lk l)
      (mksys (<[i := t <| t_pc := SSched |> <| t_chan := true |> <| t_state := SLEEPING |>]> ts) lk l)
| st_sched ts lk l i t : ts !! i = Some t -> t_pc t = SSched ->
    sl_step (mksys ts lk l) (mksys (<[i := t <| t_pc := SOff |> <| t_plock := None |>]> ts) lk l)
| st_pick ts lk l i t : ts !! i = Some t -> t_pc t = SOff -> t_plock t = None -> t_state t = RUNNABLE ->
    sl_step (mksys ts lk l)
      (mksys (<[i := t <| t_pc := SResume |> <| t_plock := Some i |> <| t_state := RUNNING |>]> ts) lk l)
| st_resume ts lk l i t : ts !! i = Some t -> t_pc t = SResume ->
    sl_step (mksys ts lk l) (mksys (<[i := t <| t_pc := SRelock |> <| t_chan := false |> <| t_plock := None |>]> ts) lk l)
| st_relock ts l i t : ts !! i = Some t -> t_pc t = SRelock ->
    sl_step (mksys ts None l) (mksys (<[i := t <| t_pc := ATest |>]> ts) (Some i) l)
| st_take ts lk i t : ts !! i = Some t -> t_pc t = ATest ->
    sl_step (mksys ts lk false) (mksys (<[i := t <| t_pc := ASet |>]> ts) lk true)
| st_taken ts lk l i t : ts !! i = Some t -> t_pc t = ASet ->
    sl_step (mksys ts lk l) (mksys (<[i := t <| t_pc := Crit |>]> ts) None l)
| st_release ts lk l i t : ts !! i = Some t -> t_pc t = Crit ->
    sl_step (mksys ts lk l) (mksys (<[i := t <| t_pc := REnter |>]> ts) lk l)
| st_renter ts l i t : ts !! i = Some t -> t_pc t = REnter ->
    sl_step (mksys ts None l) (mksys (<[i := t <| t_pc := RClear |>]> ts) (Some i) l)
| st_clear ts lk l i t : ts !! i = Some t -> t_pc t = RClear ->
    sl_step (mksys ts lk l) (mksys (<[i := t <| t_pc := RWake 0 |>]> ts) lk false)
| st_self ts lk l i t : ts !! i = Some t -> t_pc t = RWake i ->
    sl_step (mksys ts lk l) (mksys (<[i := t <| t_pc := RWake (S i) |>]> ts) lk l)
| st_wake ts lk l i t m u : ts !! i = Some t -> t_pc t = RWake m -> m <> i ->
    ts !! m = Some u -> t_plock u = None ->
    sl_step (mksys ts lk l)
      (mksys (<[i := t <| t_pc := RWakeIn m |>]> (<[m := u <| t_plock := Some i |>]> ts)) lk l)
| st_woken ts lk l i t m u : ts !! i = Some t -> t_pc t = RWakeIn m -> ts !! m = Some u ->
    sl_step (mksys ts lk l)
      (mksys (<[i := t <| t_pc := RWake (S m) |>]> (<[m := (wake_thr u) <| t_plock := None |>]> ts)) lk l)
| st_done ts lk l i t : ts !! i = Some t -> t_pc t = RWake (length ts) ->
    sl_step (mksys ts lk l) (mksys (<[i := t <| t_pc := Out |>]> ts) None l).

(** ** The invariant *)

(** Threads that hold [lk], their own [p->lock], or the sleep lock. *)
Definition has_lk (p : slpc) : bool :=
  match p with ATest | SLock | SRelease | ASet | RClear | RWake _ | RWakeIn _ => true | _ => false end.

Definition has_plock (p : slpc) : bool :=
  match p with SRelease | SMark | SSched | SResume => true | _ => false end.

Definition has_sleeplock (p : slpc) : bool :=
  match p with ASet | Crit | REnter | RClear => true | _ => false end.

(** Threads that hold [lk] and have seen the sleep lock taken; threads that
    have just freed it. *)
Definition saw_locked (p : slpc) : bool := match p with SLock | SRelease => true | _ => false end.

Definition waking (m : nat) (p : slpc) : Prop := p = RWake m \/ p = RWakeIn m.

(** A thread that will sleep until somebody wakes it up. *)
Definition waiting (t : thr) : bool :=
  match t_pc t with
  | SLock | SRelease | SMark | SSched => true
  | SOff => bool_decide (t_state t = SLEEPING)
  | _ => false
  end.

(** [p->state] and [p->chan] at each point. *)
Definition thr_ok (t : thr) : Prop :=
  match t_pc t with
  | SSched => t_state t = SLEEPING /\ t_chan t = true
  | SOff => (t_state t = SLEEPING \/ t_state t = RUNNABLE) /\ t_chan t = true
  | SResume => t_state t = RUNNING /\ t_chan t = true
  | _ => t_state t = RUNNING /\ t_chan t = false
  end.

Record sl_inv (s : slsys) : Prop := {
  si_thr : forall i t, sy_thr s !! i = Some t -> thr_ok t;
  si_lk : forall i t, sy_thr s !! i = Some t -> has_lk (t_pc t) = true <-> sy_lk s = Some i;
  si_own : forall i t, sy_thr s !! i = Some t -> has_plock (t_pc t) = true <-> t_plock t = Some i;
  si_other : forall i j t u, sy_thr s !! i = Some t -> sy_thr s !! j = Some u -> i <> j ->
    t_plock u = Some i <-> t_pc t = RWakeIn j;
  si_self : forall i t, sy_thr s !! i = Some t -> t_pc t <> RWakeIn i;
  si_locked : forall i t, sy_thr s !! i = Some t -> has_sleeplock (t_pc t) = true -> sy_locked s = true;
  si_uniq : forall i j t u, sy_thr s !! i = Some t -> sy_thr s !! j = Some u ->
    has_sleeplock (t_pc t) = true -> has_sleeplock (t_pc u) = true -> i = j;
  si_held : sy_locked s = true -> exists i t, sy_thr s !! i = Some t /\ has_sleeplock (t_pc t) = true;
  si_saw : forall i t, sy_thr s !! i = Some t -> saw_locked (t_pc t) = true -> sy_locked s = true;
  si_wake : forall i t m, sy_thr s !! i = Some t -> waking m (t_pc t) -> sy_locked s = false;
  si_lost : sy_locked s = false -> forall j u, sy_thr s !! j = Some u -> waiting u = true ->
    exists i t m, sy_thr s !! i = Some t /\ waking m (t_pc t) /\ (m <= j)%nat
}.

(** ** Lemmas *)

(** The threads after one of them moved. *)
Ltac split_insert :=
  repeat match goal with
  | H : <[?i := _]> _ !! ?j = Some ?u |- _ =>
      let E1 := fresh in let E2 := fresh in let N := fresh "Hne" in
      apply list_lookup_insert_Some in H as [(E1 & E2 & _)|(N & H)]; [subst j; subst u|]
  end.

Lemma sl_inv_init n : sl_inv (sl_init n).
Proof.
  split; cbn; intros; repeat match goal with H : replicate _ _ !! _ = Some _ |- _ =>
    apply lookup_replicate in H as [-> _] end; try done.
Qed.

(** A step of thread [i] that leaves the sleep lock as it is. *)
Lemma sl_inv_local ts lk lk' l i t t' :
  sl_inv (mksys ts lk l) -> ts !! i = Some t -> thr_ok t' ->
  (has_lk (t_pc t') = true <-> lk' = Some i) -> (forall j, j <> i -> lk' = Some j <-> lk = Some j) ->
  (has_plock (t_pc t') = true <-> t_plock t' = Some i) ->
  (forall j, j <> i -> t_plock t' = Some j <-> t_plock t = Some j) ->
  (forall j, t_pc t' = RWakeIn j <-> t_pc t = RWakeIn j) ->
  has_sleeplock (t_pc t') = has_sleeplock (t_pc t) ->
  (saw_locked (t_pc t') = true -> l = true) -> (forall m, waking m (t_pc t') -> l = false) ->
  (l = false -> waiting t' = true -> waiting t = true) ->
  (forall m j u, ts !! j = Some u -> j <> i -> waking m (t_pc t) -> (m <= j)%nat ->
     exists m', waking m' (t_pc t') /\ (m' <= j)%nat) ->
  sl_inv (mksys (<[i := t']> ts) lk' l).
Proof.
  intros [Iok Ilk Iown Iother Iself Iloc Iuniq Iheld Isaw Iwake Ilost] Hi Hok Hlk Hlk' Hown Hpl HwI Hsl Hsaw Hwk Hwt Hpass.
  cbn in *. split; cbn.
  - intros j u Hj. split_insert; eauto.
  - intros j u Hj. split_insert; [done|]. rewrite Hlk' by done. by apply Ilk.
  - intros j u Hj. split_insert; [done|]. by apply Iown.
  - intros a b x y Ha Hb Hab. split_insert; try done.
    + rewrite Hpl by done. by apply Iother.
    + rewrite HwI. by apply Iother.
    + by apply Iother.
  - intros j u Hj. split_insert; [|by eapply Iself]. rewrite HwI. by eapply Iself.
  - intros j u Hj. split_insert; [rewrite Hsl|]; eauto.
  - intros a b x y Ha Hb. split_insert; rewrite ?Hsl; eauto.
  - intros Hl. destruct (Iheld Hl) as (a & x & Ha & Hx). destruct (decide (a = i)) as [->|Hne].
    + exists i, t'. assert (x = t) as -> by congruence. rewrite Hsl. split; [|done].
      apply list_lookup_insert_eq. by eapply lookup_lt_Some.
    + exists a, x. by rewrite list_lookup_insert_ne.
  - intros j u Hj. split_insert; eauto.
  - intros j u m Hj. split_insert; eauto.
  - intros Hl j u Hj Hwu.
    assert (exists i0 t0 m, ts !! i0 = Some t0 /\ waking m (t_pc t0) /\ (m <= j)%nat) as (a & x & m & Ha & Hm & Hle).
    { split_insert; [apply (Ilost Hl i t Hi); auto|by eapply Ilost]. }
    destruct (decide (a = i)) as [->|Hne].
    + assert (x = t) as -> by congruence. destruct (decide (j = i)) as [->|Hji].
      * rewrite list_lookup_insert_eq in Hj by (by eapply lookup_lt_Some). injection Hj as <-. specialize (Hwt Hl Hwu). destruct Hm as [E|E]; unfold waiting in Hwt; by rewrite E in Hwt.
      * split_insert; [done|]. destruct (Hpass m j u) as (m' & Hm' & Hle'); [done..|].
        exists i, t', m'. split; [|done]. apply list_lookup_insert_eq. by eapply lookup_lt_Some.
    + exists a, x, m. by rewrite list_lookup_insert_ne.
Qed.

(** Taking the sleep lock, and freeing it. *)
Lemma sl_inv_take ts lk i t :
  sl_inv (mksys ts lk false) -> ts !! i = Some t -> t_pc t = ATest ->
  sl_inv (mksys (<[i := t <| t_pc := ASet |>]> ts) lk true).
Proof.
  intros [Iok Ilk Iown Iother Iself Iloc Iuniq Iheld Isaw Iwake Ilost] Hi Hpc. cbn in *.
  assert (forall j u, ts !! j = Some u -> has_sleeplock (t_pc u) = true -> False) as Hno.
  { intros j u Hj Hs. by specialize (Iloc j u Hj Hs). }
  split; cbn; try done.
  - intros j u Hj. split_insert; [|by eapply Iok]. specialize (Iok i t Hi). unfold thr_ok in *. by rewrite Hpc in Iok.
  - intros j u Hj. split_insert; [|by apply Ilk]. rewrite <- (Ilk i t Hi), Hpc. done.
  - intros j u Hj. split_insert; [|by apply Iown]. rewrite <- (Iown i t Hi), Hpc. done.
  - intros a b x y Ha Hb Hab. split_insert; try done.
    + by apply (Iother a i x t).
    + cbn. rewrite (Iother i b t y Hi Hb Hab), Hpc. done.
    + by apply Iother.
  - intros j u Hj. split_insert; [done|by eapply Iself].
  - intros a b x y Ha Hb Hx Hy. split_insert; [done| | |]; exfalso; eauto.
  - intros _. exists i, (t <| t_pc := ASet |>). split; [|done]. apply list_lookup_insert_eq. by eapply lookup_lt_Some.
  - intros j u m Hj [E|E]; split_insert; try done; exfalso;
      assert (has_lk (t_pc u) = true) as Hu by (by rewrite E); apply (Ilk j u Hj) in Hu;
      assert (has_lk (t_pc t) = true) as Ht by (by rewrite Hpc); apply (Ilk i t Hi) in Ht; congruence.
Qed.

Lemma sl_inv_clear ts lk l i t :
  sl_inv (mksys ts lk l) -> ts !! i = Some t -> t_pc t = RClear ->
  sl_inv (mksys (<[i := t <| t_pc := RWake 0 |>]> ts) lk false).
Proof.
  intros [Iok Ilk Iown Iother Iself Iloc Iuniq Iheld Isaw Iwake Ilost] Hi Hpc. cbn in *.
  assert (lk = Some i) as Hlk by (apply (Ilk i t Hi); by rewrite Hpc).
  split; cbn.
  - intros j u Hj. split_insert; [|by eapply Iok]. specialize (Iok i t Hi). unfold thr_ok in *. by rewrite Hpc in Iok.
  - intros j u Hj. split_insert; [done|by apply Ilk].
  - intros j u Hj. split_insert; [|by apply Iown]. rewrite <- (Iown i t Hi), Hpc. done.
  - intros a b x y Ha Hb Hab. split_insert; try done.
    + by apply (Iother a i x t).
    + cbn. rewrite (Iother i b t y Hi Hb Hab), Hpc. done.
    + by apply Iother.
  - intros j u Hj. split_insert; [done|by eapply Iself].
  - intros j u Hj Hs. split_insert; [done|].
    assert (j = i); [|done]. eapply Iuniq; [done|done|done|by rewrite Hpc].
  - intros a b x y Ha Hb Hx Hy. split_insert; eauto; done.
  - done.
  - intros j u Hj Hs. split_insert; [done|]. assert (has_lk (t_pc u) = true) as Hu by by destruct (t_pc u).
    apply (Ilk j u Hj) in Hu. congruence.
  - done.
  - intros _ j u Hj Hw. exists i, (t <| t_pc := RWake 0 |>), O.
    split_and!; [apply list_lookup_insert_eq; by eapply lookup_lt_Some|by left|lia].
Qed.

(** Entering the critical section of another process in [wakeup]. *)
Lemma sl_inv_wake ts lk l i t m u :
  sl_inv (mksys ts lk l) -> ts !! i = Some t -> t_pc t = RWake m -> m <> i ->
  ts !! m = Some u -> t_plock u = None ->
  sl_inv (mksys (<[i := t <| t_pc := RWakeIn m |>]> (<[m := u <| t_plock := Some i |>]> ts)) lk l).
Proof.
  intros [Iok Ilk Iown Iother Iself Iloc Iuniq Iheld Isaw Iwake Ilost] Hi Hpc Hmi Hm Hfree. cbn in *.
  assert (lk = Some i) as Hlk by (apply (Ilk i t Hi); by rewrite Hpc).
  assert (forall a x b, ts !! a = Some x -> t_pc x = RWakeIn b -> False) as Hin.
  { intros a x b Ha E. assert (a = i) as -> by (assert (lk = Some a) by (apply (Ilk a x Ha); by rewrite E); congruence).
    congruence. }
  assert (has_plock (t_pc u) = false) as Hup.
  { destruct (has_plock (t_pc u)) eqn:E; [|done]. apply (Iown m u Hm) in E. congruence. }
  split; cbn.
  - intros j v Hj. split_insert; [|by apply (Iok m u)|by eapply Iok].
    specialize (Iok i t Hi). unfold thr_ok in *. by rewrite Hpc in Iok.
  - intros j v Hj. split_insert; [done|by apply (Ilk m u)|by apply Ilk].
  - intros j v Hj. split_insert; [|cbn; rewrite Hup; split; [done|congruence]|by apply Iown].
    rewrite <- (Iown i t Hi), Hpc. done.
  - intros a b x y Ha Hb Hab.
    assert (t_pc t <> RWakeIn b) as Htb by (by rewrite Hpc).
    assert (forall c z, ts !! c = Some z -> t_pc z <> RWakeIn b) as Hcb by (intros c z Hc E; by eapply Hin).
    split_insert; cbn in *; try done.
    + rewrite (Iother m i u t Hm Hi Hab). done.
    + by apply (Iother a i x t).
    + split; [congruence|]. intros E. by destruct (Hcb a x Ha).
    + rewrite (Iother i b t y Hi Hb Hab). split; [done|congruence].
    + by apply (Iother m b u y).
    + by apply Iother.
  - intros j v Hj. split_insert; [cbn; congruence|by apply (Iself m u)|by eapply Iself].
  - intros j v Hj. split_insert; [done|by apply (Iloc m u)|by eapply Iloc].
  - intros a b x y Ha Hb. split_insert; cbn; try done; eauto.
  - intros Hl. destruct (Iheld Hl) as (a & x & Ha & Hx).
    assert (a <> i) as Hai by (intros ->; assert (x = t) as -> by congruence; by rewrite Hpc in Hx).
    destruct (decide (a = m)) as [->|Ham].
    + assert (x = u) as -> by congruence. eexists m, _. rewrite list_lookup_insert_ne by done.
      rewrite list_lookup_insert_eq by (by eapply lookup_lt_Some). split; [done|]. cbn. done.
    + exists a, x. by rewrite !list_lookup_insert_ne by done.
  - intros j v Hj. split_insert; [done|by apply (Isaw m u)|by eapply Isaw].
  - intros j v n Hj Hw. split_insert; [apply (Iwake i t m Hi); by left|by eapply (Iwake m u)|by eapply Iwake].
  - intros Hl j v Hj Hw.
    assert (exists a x n, ts !! a = Some x /\ waking n (t_pc x) /\ (n <= j)%nat) as (a & x & n & Ha & Hn & Hle).
    { split_insert; [done|by apply (Ilost Hl m u)|by eapply Ilost]. }
    exists i, (t <| t_pc := RWakeIn m |>), m.
    assert (a = i) as ->.
    { assert (lk = Some a); [|congruence]. apply (Ilk a x Ha). by destruct Hn as [-> | ->]. }
    assert (x = t) as -> by congruence. rewrite Hpc in Hn. assert (n = m) as -> by (destruct Hn as [E|E]; congruence).
    split_and!; [|by right|done]. apply list_lookup_insert_eq. rewrite length_insert. by eapply lookup_lt_Some.
Qed.

(** Waking it up, if it sleeps, and leaving the critical section. *)
Lemma sl_inv_woken ts lk l i t m u :
  sl_inv (mksys ts lk l) -> ts !! i = Some t -> t_pc t = RWakeIn m -> ts !! m = Some u ->
  sl_inv (mksys (<[i := t <| t_pc := RWake (S m) |>]> (<[m := (wake_thr u) <| t_plock := None |>]> ts)) lk l).
Proof.
  intros [Iok Ilk Iown Iother Iself Iloc Iuniq Iheld Isaw Iwake Ilost] Hi Hpc Hm. cbn in *.
  assert (m <> i) as Hmi by (intros ->; by apply (Iself i t Hi)).
  assert (lk = Some i) as Hlk by (apply (Ilk i t Hi); by rewrite Hpc).
  assert (t_plock u = Some i) as Hpu by (by apply (Iother i m t u)).
  assert (has_plock (t_pc u) = false) as Hup.
  { destruct (has_plock (t_pc u)) eqn:E; [|done]. apply (Iown m u Hm) in E. congruence. }
  assert (has_lk (t_pc u) = false) as Hul.
  { destruct (has_lk (t_pc u)) eqn:E; [|done]. apply (Ilk m u Hm) in E. congruence. }
  assert (t_pc (wake_thr u) = t_pc u) as Epc by (unfold wake_thr; by case_decide).
  assert (thr_ok (wake_thr u) /\ waiting (wake_thr u) = false) as [Huok Huw].
  { pose proof (Iok m u Hm) as Hu. unfold thr_ok, waiting, wake_thr in *.
    destruct u as [p st ch pl]; cbn in *. destruct p; try done; case_decide as E; cbn; try done;
      try (exfalso; destruct E, Hu; congruence).
    - destruct Hu as [_ ->]. split; [split; [by right|done]|done].
    - destruct Hu as [[->| ->] ->]; [by destruct E|]. split; [split; [by right|done]|done]. }
  split; cbn.
  - intros j v Hj. split_insert; [|done|by eapply Iok].
    specialize (Iok i t Hi). unfold thr_ok in *. by rewrite Hpc in Iok.
  - intros j v Hj. split_insert; [done|cbn; rewrite Epc; by apply (Ilk m u)|by apply Ilk].
  - intros j v Hj. split_insert; [|cbn; rewrite Epc, Hup; split; congruence|by apply Iown].
    rewrite <- (Iown i t Hi), Hpc. done.
  - intros a b x y Ha Hb Hab. split_insert; cbn in *; try done.
    + rewrite Epc. by apply (Iother m i u t).
    + by apply (Iother a i x t).
    + split; [congruence|]. intros E. assert (lk = Some a); [|congruence]. apply (Ilk a x Ha). by rewrite E.
    + rewrite (Iother i b t y Hi Hb Hab), Hpc. split; congruence.
    + rewrite Epc. by apply (Iother m b u y).
    + by apply Iother.
  - intros j v Hj. split_insert; [done|cbn; rewrite Epc; by apply (Iself m u)|by eapply Iself].
  - intros j v Hj. split_insert; [done|cbn; rewrite Epc; by apply (Iloc m u)|by eapply Iloc].
  - intros a b x y Ha Hb. split_insert; cbn; rewrite ?Epc; try done; eauto.
  - intros Hl. destruct (Iheld Hl) as (a & x & Ha & Hx).
    assert (a <> i) as Hai by (intros ->; assert (x = t) as -> by congruence; by rewrite Hpc in Hx).
    destruct (decide (a = m)) as [->|Ham].
    + assert (x = u) as -> by congruence. eexists m, _. rewrite list_lookup_insert_ne by done.
      rewrite list_lookup_insert_eq by (by eapply lookup_lt_Some). split; [done|]. cbn. by rewrite Epc.
    + exists a, x. by rewrite !list_lookup_insert_ne by done.
  - intros j v Hj. split_insert; [done|cbn; rewrite Epc; by apply (Isaw m u)|by eapply Isaw].
  - intros j v n Hj Hw. split_insert; [apply (Iwake i t m Hi); by right| |by eapply Iwake].
    cbn in Hw. rewrite Epc in Hw. by eapply (Iwake m u).
  - intros Hl j v Hj Hw.
    assert (j <> i /\ j <> m /\ ts !! j = Some v) as (Hji & Hjm & Hj').
    { split_insert; [done|cbn in Hw|done]. unfold waiting in *. cbn in Hw. congruence. }
    destruct (Ilost Hl j v Hj' Hw) as (a & x & n & Ha & Hn & Hle).
    exists i, (t <| t_pc := RWake (S m) |>), (S m).
    assert (a = i) as ->.
    { assert (lk = Some a); [|congruence]. apply (Ilk a x Ha). by destruct Hn as [-> | ->]. }
    assert (x = t) as -> by congruence. rewrite Hpc in Hn. assert (n = m) as -> by (destruct Hn as [E|E]; congruence).
    split_and!; [|by left|lia]. apply list_lookup_insert_eq. rewrite length_insert. by eapply lookup_lt_Some.
Qed.

(** Steps of one thread under the same value of [locked]. *)
Ltac local_step I i t Hi Hpc :=
  let Hk := fresh "Hk" in let Hp := fresh "Hp" in let Ho := fresh "Ho" in
  pose proof (si_lk _ I i t Hi) as Hk; pose proof (si_own _ I i t Hi) as Hp; pose proof (si_thr _ I i t Hi) as Ho;
  unfold thr_ok in Ho; cbn [sy_lk sy_thr] in *; rewrite Hpc in Hk, Hp, Ho; cbn in Hk, Hp;
  eapply (sl_inv_local _ _ _ _ i t); [exact I|exact Hi|unfold thr_ok; cbn; try tauto..|]; rewrite ?Hpc; cbn;
  try done; try tauto; try (intros; split; congruence || tauto); try (intros ? [?|?]; congruence);
  try (intros ? ? ? ? ? [?|?]; congruence);
  try (intros _; apply (si_saw _ I i t Hi); by rewrite Hpc); try (intros; unfold waiting; by rewrite Hpc);
  try (destruct Hk as [Hk _]; specialize (Hk eq_refl); intros; split; congruence);
  try (destruct Hp as [Hp _]; specialize (Hp eq_refl); intros; split; congruence).

Lemma sl_inv_step s s' : sl_inv s -> sl_step s s' -> sl_inv s'.
Proof.
  intros I Hs. destruct Hs as
    [ts lk l i t Hi Hpc|ts l i t Hi Hpc|ts lk i t Hi Hpc|ts lk l i t Hi Hpc Hfree|ts lk l i t Hi Hpc
    |ts lk l i t Hi Hpc|ts lk l i t Hi Hpc|ts lk l i t Hi Hpc Hfree Hst|ts lk l i t Hi Hpc|ts l i t Hi Hpc
    |ts lk i t Hi Hpc|ts lk l i t Hi Hpc|ts lk l i t Hi Hpc|ts l i t Hi Hpc|ts lk l i t Hi Hpc
    |ts lk l i t Hi Hpc|ts lk l i t m u Hi Hpc Hmi Hm Hfree|ts lk l i t m u Hi Hpc Hm|ts lk l i t Hi Hpc].
  11: by apply sl_inv_take.
  14: by apply (sl_inv_clear _ _ l).
  15: by apply (sl_inv_wake _ _ _ i t m u).
  15: by apply (sl_inv_woken _ _ _ i t m u).
  14: { local_step I i t Hi Hpc.
    - intros m _. apply (si_wake _ I i t i Hi). by left.
    - intros m j u _ Hj [[= <-]|E] Hle; [|done]. exists (S i). split; [by left|lia]. }
  14: { local_step I i t Hi Hpc. intros m j u Hj%lookup_lt_Some _ [[= <-]|E] Hle; [lia|done]. }
  all: local_step I i t Hi Hpc.
Qed.

Lemma sl_inv_reachable n s : rtc sl_step (sl_init n) s -> sl_inv s.
Proof.
  intros Hr. remember (sl_init n) as s0 eqn:E. assert (sl_inv s0) as I by (subst; apply sl_inv_init). clear E.
  induction Hr as [|s0 s1 s2 Hs _ IH]; [done|]. eapply IH, sl_inv_step; done.
Qed.

(** C22: Sleep locks on several harts. Under every interleaving of threads
    that run [acquiresleep] and [releasesleep], at most one thread holds the
    sleep lock, and no wake-up is lost: whenever a thread sleeps on the
    lock, the lock is held by some thread, or a thread that has freed it is
    still on its way, in the loop of [wakeup], to the sleeping process. *)
Theorem sleeplock_no_lost_wakeup n s :
  rtc sl_step (sl_init n) s ->
  (forall i j t u, sy_thr s !! i = Some t -> sy_thr s !! j = Some u ->
     has_sleeplock (t_pc t) = true -> has_sleeplock (t_pc u) = true -> i = j) /\
  (forall j u, sy_thr s !! j = Some u -> t_pc u = SOff -> t_state u = SLEEPING ->
     exists i t, sy_thr s !! i = Some t /\
       (has_sleeplock (t_pc t) = true \/ exists m, waking m (t_pc t) /\ (m <= j)%nat)).
Proof.
  intros I%sl_inv_reachable. split; [exact (si_uniq _ I)|]. intros j u Hj Hpc Hst.
  destruct (sy_locked s) eqn:El.
  - destruct (si_held _ I El) as (i & t & Hi & Ht). exists i, t. auto.
  - destruct (si_lost _ I El j u Hj) as (i & t & m & Hi & Hw & Hle).
    + unfold waiting. rewrite Hpc. by rewrite bool_decide_eq_true_2.
    + exists i, t. split; [done|]. right. by exists m.
Qed.
