(* ===== verification/SchedSpec.v ===== *)
(** * Specification of sleep, wakeup and the scheduler

    A thread that calls [sleep] or [yield] gives up the hart holding exactly
    its own [p->lock], and continues when the scheduler switches back to it;
    [wakeup] makes exactly the sleepers of its channel runnable. *)

From S2P Require Import Prelude Riscv Machine Spinlock PhysMem Kalloc Vm Kernel Sched Sleeplock Thread.

Section schedspec.
Context `{Linker} `{Platform}.
Implicit Types k : kernel.

(** The hart holds no spin lock. *)
Definition at_ease (k : kernel) : Prop :=
  exists u, core_cpu (m_core (k_m k)) = Some u /\ c_noff u = 0.

(** Interrupts are enabled on the hart. *)
Definition interruptible (k : kernel) : bool := intr_get (c_hart (m_core (k_m k))).

Definition with_proc (i : nat) (f : proc -> proc) (k : kernel) : kernel :=
  k <| k_proc ::= fun l => alter f i l |>.

(** ** [sched] *)

Lemma mach_state {A} (op : M machine A) k a : op (k_m k) = Ok a (k_m k) -> mach op k = Ok a k.
Proof. intros E. erewrite mach_ok by exact E. by rewrite upd_m_id. Qed.

Lemma holding_mine lk k : core_wf (m_core (k_m k)) -> mach (holding lk) (klocking lk k) = Ok true (klocking lk k).
Proof.
  intros Hwf. apply mach_state. apply holding_run; [by apply core_wf_pushed|].
  destruct (lock_held_locking lk (k_m k)) as [name Hl]. cbn in Hl |- *. rewrite Hl. cbn.
  by rewrite bool_decide_eq_true_2.
Qed.

Lemma bind_switch {A B} (m : M kernel A) (f : A -> M kernel B) k k' kont :
  m k = Switch k' kont -> (x <- m ;; f x) k = Switch k' (fun k2 => obind (kont k2) f).
Proof. intros E. unfold bind. by rewrite E. Qed.

(** Writing back the CPU structure that is there. *)
Lemma set_cpu_id id u k :
  c_cpus (m_core (k_m k)) !! Z.to_nat id = Some u -> mach (set_cpu id u) k = Ok tt k.
Proof.
  intros Hu. unfold set_cpu. erewrite mach_ok by reflexivity. f_equal.
  transitivity (k <| k_m := k_m k |>); [|apply upd_m_id]. apply (f_equal (fun m => k <| k_m := m |>)).
  apply machine_eq; [|done..]. apply core_eq; [done|]. cbn. by apply list_insert_id.
Qed.

Lemma sched_run me k p :
  settled (m_core (k_m k)) -> running me k -> at_ease k -> k_proc k !! me = Some p -> p_state p <> RUNNING ->
  exists kont, sched (klocking (proc_lock me) k) = Switch (klocking (proc_lock me) k) kont /\
    forall k2, core_wf (m_core (k_m k2)) -> at_ease k2 -> interruptible k2 = interruptible k ->
      kont (klocking (proc_lock me) k2) = Ok tt (klocking (proc_lock me) k2).
Proof.
  intros Hs Hr (u & Hu & Hn) Hp Hst. pose proof (settled_wf _ Hs) as Hwf.
  set (lk := proc_lock me).
  assert (forall k2 u2, core_wf (m_core (k_m k2)) -> core_cpu (m_core (k_m k2)) = Some u2 -> c_noff u2 = 0 ->
    mach mycpu (klocking lk k2) = Ok (core_id (m_core (k_m k2))) (klocking lk k2) /\
    mach (get_cpu (core_id (m_core (k_m k2)))) (klocking lk k2) =
      Ok (mkcpu (c_proc u2) (c_context u2) 1 (Z.b2z (interruptible k2))) (klocking lk k2)) as Hcpu.
  { intros k2 u2 Hwf2 Hu2 Hn2. split; [apply mach_state; exact (mycpu_run (k_m (klocking lk k2)) (core_wf_pushed _ Hwf2))|].
    apply mach_state, get_cpu_run; [apply Hwf2|]. cbn.
    pose proof (core_cpu_pushed _ _ Hu2) as E. rewrite Hn2 in E. exact E. }
  destruct (Hcpu k u Hwf Hu Hn) as [Eid Ecpu].
  unfold sched.
  erewrite bind_ok by (apply curproc_calm; [by apply settled_klocking|by apply running_klocking]).
  erewrite bind_ok by by apply holding_mine. cbn [negb].
  erewrite bind_ok by exact Eid. erewrite bind_ok by exact Ecpu. cbn [c_noff Z.eqb Pos.eqb negb].
  unfold get_proc. erewrite bind_ok by by apply get_entry. rewrite decide_False by done.
  erewrite bind_ok by (apply mach_state; reflexivity). cbn [m_core k_m klocking upd].
  change (intr_get (c_hart (m_core (locking lk (k_m k))))) with (intr_get (intr_off (c_hart (m_core (k_m k))))).
  rewrite intr_get_off. erewrite bind_ok by exact Eid. erewrite bind_ok by exact Ecpu. cbn [c_intena].
  eexists. split; [reflexivity|]. intros k2 Hwf2 (u2 & Hu2 & Hn2) Hi. cbn.
  destruct (Hcpu k2 u2 Hwf2 Hu2 Hn2) as [Eid2 Ecpu2].
  change (obind (Ok tt ?s) ?f) with (f tt s).
  erewrite bind_ok by exact Eid2. erewrite bind_ok by exact Ecpu2.
  apply set_cpu_id. cbn. rewrite <- Hi. pose proof (core_cpu_pushed _ _ Hu2) as E. rewrite Hn2 in E. exact E.
Qed.

(** ** [sleep] and [yield] *)

(** The process table entry of a sleeper. *)
Definition go_sleep (ch : chan) (q : proc) : proc := q <| p_chan := Some ch |> <| p_state := SLEEPING |>.

Lemma with_proc_lookup i f k p :
  k_proc k !! i = Some p -> k_proc (with_proc i f k) !! i = Some (f p).
Proof. intros Hp. cbn -[alter]. by rewrite list_lookup_alter_eq, Hp. Qed.

(** [sleep] switches to the scheduler holding only [p->lock], the process
    marked as sleeping and [lk] free; switched back to, it returns with [lk]
    held again. *)
Lemma sleep_run me ch lk k :
  calm [] me k -> at_ease k -> lk <> proc_lock me -> lock_free lk (k_m k) ->
  exists kont,
    sleep ch lk (klocking lk k) = Switch (klocking (proc_lock me) (with_proc me (go_sleep ch) k)) kont /\
    forall k2, settled (m_core (k_m k2)) -> at_ease k2 -> interruptible k2 = interruptible k ->
      lock_free (proc_lock me) (k_m k2) -> lock_free lk (k_m k2) ->
      kont (klocking (proc_lock me) k2) =
        Ok tt (klocking lk (with_proc me (fun q => q <| p_chan := None |>) k2)).
Proof.
  intros Hc He Hne Hfree. pose proof Hc as (Hs & Hl & Hr & _ & Hm). destruct (me_entry _ _ _ Hc) as [p Hp].
  assert (lock_free (proc_lock me) (k_m k)) as Hpf by (apply Hl; [exact Hm|apply not_elem_of_nil]).
  destruct (sched_run me (with_proc me (go_sleep ch) k) (go_sleep ch p)) as (kont & E & Hk);
    [done|done|done|by apply with_proc_lookup|done|].
  eexists. split.
  - unfold sleep.
    erewrite bind_ok by (apply curproc_calm; [by apply settled_klocking|by apply running_klocking]).
    erewrite bind_ok by (apply kacquire; [by apply settled_klocking|by apply lock_free_locking]).
    erewrite bind_ok by (apply mach_ok; by apply release_outer). unfold set_proc. rewrite bind_modify.
    apply bind_switch. etransitivity; [|exact E]. done.
  - intros k2 Hs2 He2 Hi Hpf2 Hf2. cbv beta. rewrite Hk; [|by apply settled_wf|done|done].
    change (obind (Ok tt ?s) ?f) with (f tt s). cbv beta. rewrite bind_modify.
    erewrite bind_ok by (eapply (krelease _ _ (k_m k2)); [exact Hs2|exact Hpf2|done]).
    erewrite kacquire; [done|exact Hs2|exact Hf2].
Qed.

(** [yield] makes the process runnable and switches to the scheduler
    holding exactly [p->lock]; it returns when the scheduler switches back. *)
Theorem yield_spec me k :
  calm [] me k -> at_ease k ->
  exists kont,
    yield k = Switch (klocking (proc_lock me) (with_proc me (fun q => q <| p_state := RUNNABLE |>) k)) kont /\
    forall k2, settled (m_core (k_m k2)) -> at_ease k2 -> interruptible k2 = interruptible k ->
      lock_free (proc_lock me) (k_m k2) -> kont (klocking (proc_lock me) k2) = Ok tt k2.
Proof.
  intros Hc He. pose proof Hc as (Hs & Hl & Hr & _ & Hm). destruct (me_entry _ _ _ Hc) as [p Hp].
  assert (lock_free (proc_lock me) (k_m k)) as Hpf by (apply Hl; [exact Hm|apply not_elem_of_nil]).
  destruct (sched_run me (with_proc me (fun q => q <| p_state := RUNNABLE |>) k) (p <| p_state := RUNNABLE |>))
    as (kont & E & Hk); [done|done|done|by apply (with_proc_lookup me (fun q => q <| p_state := RUNNABLE |>))|done|].
  eexists. split.
  - unfold yield. erewrite bind_ok by by apply curproc_calm. erewrite bind_ok by by apply kacquire.
    unfold set_proc. rewrite bind_modify. apply bind_switch. etransitivity; [|exact E]. done.
  - intros k2 Hs2 He2 Hi Hpf2. cbv beta. rewrite Hk; [|by apply settled_wf|done|done].
    change (obind (Ok tt ?s) ?f) with (f tt s). cbv beta.
    erewrite (krelease _ _ (k_m k2)); [|exact Hs2|exact Hpf2|done]. f_equal. by destruct k2.
Qed.

(** ** The scheduler *)

(** The CPU of the hart runs process [o]. *)
Definition set_running (o : option nat) (c : core) : core := upd_cpu (fun u => u <| c_proc := o |>) c.

Definition with_cproc (o : option nat) (k : kernel) : kernel :=
  k <| k_m ::= fun m => m <| m_core ::= set_running o |> |>.

Lemma core_id_running o c : core_id (set_running o c) = core_id c.
Proof. done. Qed.

Lemma core_cpu_running o c u : core_cpu c = Some u -> core_cpu (set_running o c) = Some (u <| c_proc := o |>).
Proof. intros Hu. unfold core_cpu, set_running, upd_cpu, core_id in *. cbn. by rewrite list_lookup_alter_eq, Hu. Qed.

Lemma settled_running o c : settled c -> settled (set_running o c).
Proof.
  intros [[Hid (u & Hu & Hn & Hi)] Hs]. split; [split; [done|]|].
  - exists (u <| c_proc := o |>). split; [by apply core_cpu_running|done].
  - intros u'. rewrite (core_cpu_running o c u Hu). intros [= <-]. apply (Hs u Hu).
Qed.

Lemma pushed_running o c : pushed (set_running o c) = set_running o (pushed c).
Proof.
  apply core_eq; [done|]. unfold pushed, set_running, upd_cpu, core_id. cbn.
  apply list_eq. intros j. destruct (decide (Z.to_nat (tp (c_hart c)) = j)) as [<-|Hne].
  - rewrite !list_lookup_alter_eq. by destruct (c_cpus c !! _).
  - by rewrite !list_lookup_alter_ne by done.
Qed.

(** The two assignments of [scheduler] to [c->proc]. *)
Lemma set_cproc_run o lk k u :
  settled (m_core (k_m k)) -> core_cpu (m_core (k_m k)) = Some u ->
  (c <- mach (get_cpu (core_id (m_core (k_m k)))) ;; mach (set_cpu (core_id (m_core (k_m k))) (c <| c_proc := o |>)))
    (klocking lk k) = Ok tt (klocking lk (with_cproc o k)).
Proof.
  intros Hs Hu. pose proof (settled_wf _ Hs) as Hwf.
  erewrite bind_ok by (apply mach_state, get_cpu_run; [apply Hwf|apply (core_cpu_pushed _ _ Hu)]).
  unfold set_cpu. erewrite mach_ok by reflexivity. f_equal.
  match goal with |- _ <| k_m := ?m1 |> = _ => assert (m1 = locking lk (k_m (with_cproc o k))) as E end.
  { apply machine_eq; [|done..]. cbn [m_core locking upd].
    transitivity (set_running o (pushed (m_core (k_m k)))); [|symmetry; apply pushed_running].
    apply core_eq; [done|]. pose proof (core_cpu_pushed _ _ Hu) as E. unfold core_cpu in E.
    unfold set_running, upd_cpu. cbn. by rewrite (list_alter_insert _ _ _ _ E). }
  exact (f_equal (fun m => k <| k_m := m |>) E).
Qed.

Lemma set_cproc_then o lk k u id (K : M kernel unit) :
  settled (m_core (k_m k)) -> core_cpu (m_core (k_m k)) = Some u -> id = core_id (m_core (k_m k)) ->
  (c <- mach (get_cpu id) ;; mach (set_cpu id (c <| c_proc := o |>)) ;; K) (klocking lk k) =
    K (klocking lk (with_cproc o k)).
Proof.
  intros Hs Hu ->. rewrite <- (bind_bind (mach (get_cpu _)) (fun c => mach (set_cpu _ (c <| c_proc := o |>))) (fun _ => K)).
  by erewrite bind_ok by by eapply set_cproc_run.
Qed.

Lemma with_cproc_twice o o' k : with_cproc o (with_cproc o' k) = with_cproc o k.
Proof.
  assert (m_core (k_m (with_cproc o (with_cproc o' k))) = m_core (k_m (with_cproc o k))) as E.
  { cbn. unfold set_running. apply core_eq; [done|]. unfold upd_cpu, core_id. cbn.
    apply list_eq. intros j. destruct (decide (Z.to_nat (tp (c_hart (m_core (k_m k)))) = j)) as [<-|Hne].
    - rewrite !list_lookup_alter_eq. by destruct (c_cpus (m_core (k_m k)) !! _).
    - by rewrite !list_lookup_alter_ne by done. }
  assert (k_m (with_cproc o (with_cproc o' k)) = k_m (with_cproc o k)) as Em by (by apply machine_eq).
  exact (f_equal (fun m => k <| k_m := m |>) Em).
Qed.

(** A turn of the scheduler's loop at process [i]: a runnable process is
    switched to, with [p->lock] held and [c->proc] set; any other is left
    alone. *)
Lemma scheduler_one_run id i k p :
  settled (m_core (k_m k)) -> id = core_id (m_core (k_m k)) -> k_proc k !! i = Some p ->
  lock_free (proc_lock i) (k_m k) ->
  if decide (p_state p = RUNNABLE) then
    exists kont,
      scheduler_one id i k =
        Switch (klocking (proc_lock i) (with_cproc (Some i) (with_proc i (fun q => q <| p_state := RUNNING |>) k))) kont /\
      forall k2, settled (m_core (k_m k2)) -> core_id (m_core (k_m k2)) = id -> lock_free (proc_lock i) (k_m k2) ->
        kont (klocking (proc_lock i) k2) = Ok tt (with_cproc None k2)
  else scheduler_one id i k = Ok tt k.
Proof.
  intros Hs Hid Hp Hfree. pose proof (settled_wf _ Hs) as [_ (u & Hu & _)].
  unfold scheduler_one. erewrite bind_ok by by apply kacquire. unfold get_proc. erewrite bind_ok by by apply get_entry.
  case_decide as Hst.
  - rewrite bool_decide_eq_true_2 by done. cbv beta iota delta [when]. unfold set_proc. rewrite bind_bind, bind_modify.
    change (upd k_proc (fun l => alter (fun q => q <| p_state := RUNNING |>) i l) (klocking (proc_lock i) k))
      with (klocking (proc_lock i) (with_proc i (fun q => q <| p_state := RUNNING |>) k)).
    set (k1 := with_proc i _ k). eexists. split.
    + apply bind_switch. rewrite (set_cproc_then (Some i) _ k1 u) by done. reflexivity.
    + intros k2 Hs2 Hid2 Hf2. cbv beta. pose proof (settled_wf _ Hs2) as [_ (u2 & Hu2 & _)].
      change (obind (Ok tt ?s) ?f) with (f tt s). cbv beta. rewrite <- Hid2.
      rewrite (set_cproc_run None _ k2 u2) by done. change (obind (Ok tt ?s) ?f) with (f tt s). cbv beta.
      erewrite (krelease _ _ (k_m (with_cproc None k2))); [|by apply settled_running|done|done]. by destruct k2.
  - rewrite bool_decide_eq_false_2 by done. cbv beta iota delta [when]. rewrite bind_ret.
    erewrite (krelease _ _ (k_m k)); [|done|done|done]. f_equal. by destruct k.
Qed.

(** What [wakeup] does to a process table entry. *)
Lemma wakeup_entry you ch k i p :
  calm [] you k -> k_proc k !! i = Some p ->
  exists k', wakeup ch k = Ok tt k' /\ k_m k' = k_m k /\ k_proc k' !! i = Some (wake you ch i p).
Proof.
  intros Hc Hp. eexists. split; [by apply (wakeup_run []); [|intros; apply not_elem_of_nil]|].
  split; [done|]. cbn. by rewrite list_lookup_imap, Hp.
Qed.

(** C24: Sleeping, being woken up and continuing. [sleep] switches away with
    [lk] free and the process marked as sleeping on the channel, holding only
    [p->lock]. While it sleeps, [wakeup] of this channel by another process
    makes it runnable, and [wakeup] of another channel leaves it asleep; the
    scheduler passes over it as long as it sleeps. Once it is runnable, the
    scheduler's next turn on any hart with interrupts in the same state
    resumes it, and it returns to the caller of [sleep] with [lk] held,
    running, and off the channel. *)
Theorem sleep_wakeup_resume me ch lk k :
  calm [] me k -> at_ease k -> lk <> proc_lock me -> lock_free lk (k_m k) ->
  exists kont,
    sleep ch lk (klocking lk k) = Switch (klocking (proc_lock me) (with_proc me (go_sleep ch) k)) kont /\
    (forall you k1 p ch', calm [] you k1 -> you <> me -> k_proc k1 !! me = Some p ->
       p_state p = SLEEPING -> p_chan p = Some ch ->
       exists k2, wakeup (Some ch') k1 = Ok tt k2 /\
         k_proc k2 !! me = Some (if decide (ch' = ch) then p <| p_state := RUNNABLE |> else p)) /\
    forall k3 p, settled (m_core (k_m k3)) -> at_ease k3 -> interruptible k3 = interruptible k ->
      lock_free (proc_lock me) (k_m k3) -> lock_free lk (k_m k3) -> k_proc k3 !! me = Some p ->
      (p_state p = SLEEPING -> scheduler_one (core_id (m_core (k_m k3))) me k3 = Ok tt k3) /\
      (p_state p = RUNNABLE ->
       exists k4 ksched, scheduler_one (core_id (m_core (k_m k3))) me k3 = Switch k4 ksched /\
         kont k4 = Ok tt (klocking lk (with_cproc (Some me)
           (with_proc me (fun q => q <| p_state := RUNNING |> <| p_chan := None |>) k3)))).
Proof.
  intros Hc He Hne Hfree. destruct (sleep_run me ch lk k Hc He Hne Hfree) as (kont & E & Hk).
  exists kont. split_and!; [done| |].
  - intros you k1 p ch' Hc1 Hym Hp Hst Hch. destruct (wakeup_entry you (Some ch') k1 me p Hc1 Hp) as (k2 & E2 & _ & H2).
    exists k2. split; [done|]. rewrite H2. f_equal. unfold wake. rewrite Hst, Hch.
    rewrite (bool_decide_eq_true_2 (SLEEPING = SLEEPING)) by done.
    case_decide as Hcc; [subst ch'; rewrite bool_decide_eq_true_2 by done|rewrite (bool_decide_eq_false_2 (Some ch = _)) by congruence];
      repeat case_bool_decide; cbn; done || congruence.
  - intros k3 p Hs3 He3 Hi Hpf3 Hf3 Hp. pose proof (scheduler_one_run _ me k3 p Hs3 eq_refl Hp Hpf3) as Hsch. split.
    + intros Hst. by rewrite decide_False in Hsch by congruence.
    + intros Hst. rewrite decide_True in Hsch by done. destruct Hsch as (ks & Es & _). eexists _, ks.
      split; [exact Es|]. set (k3' := with_cproc _ _). rewrite (Hk k3').
      * f_equal. unfold k3', with_proc, with_cproc, klocking. cbn -[alter]. unfold upd. cbn -[alter].
        f_equal. apply list_eq. intros j. destruct (decide (j = me)) as [->|Hj].
        -- rewrite !list_lookup_alter_eq. by destruct (k_proc k3 !! me).
        -- by rewrite !list_lookup_alter_ne by done.
      * by apply settled_running.
      * destruct He3 as (u & Hu & Hn). exists (u <| c_proc := Some me |>). split; [by apply core_cpu_running|done].
      * done.
      * done.
      * done.
Qed.

End schedspec.
