(* ===== verification/ProcVm.v ===== *)
(** * Page tables of processes

    [proc_pagetable] builds a page table that maps the trampoline, the
    trapframe and the USYSCALL page, or gives back every page it took;
    [proc_freepagetable] frees such a table with the user memory below. *)

From S2P Require Import Prelude Riscv Machine Spinlock PhysMem Kalloc PageTable Vm VmSpec VmFree VmAlloc Bytes Kernel Sched Sleeplock Bio Log Fs Pipe Console File Proc.

Section procvm.
Context `{KernelLayout}.

(** The mappings of a page table without user memory. *)
Definition proc_map (tf us va : Z) : option Z :=
  if decide (TRAMPOLINE / 4096 = va / 4096) then Some (make_pte trampoline (Z.lor PTE_R PTE_X))
  else if decide (TRAPFRAME / 4096 = va / 4096) then Some (make_pte tf (Z.lor PTE_R PTE_W))
  else if decide (USYSCALL / 4096 = va / 4096) then Some (make_pte us (Z.lor PTE_R PTE_U))
  else None.

(** ** [uvmcreate] *)

#[local] Opaque memset kalloced.

Lemma uvmcreate_run D fl m :
  quiet m -> kmem_inv m fl -> NoDup (D ++ fl) ->
  match fl with
  | [] => uvmcreate m = Ok 0 m
  | a :: fl' => exists m', uvmcreate m = Ok a m' /\ vm_inv D fl' a m' /\ vm_frame [a] m m' /\
      pt_pages 2 (m_mem m') a = [a] /\ forall va, pt_lookup (m_mem m') a va = None
  end.
Proof.
  intros Hq Hk Hnd. unfold uvmcreate. destruct fl as [|a fl'].
  { erewrite bind_ok by by apply kalloc_empty. done. }
  pose proof Hk as (_ & _ & Hok). apply Forall_cons in Hok as [Ha _].
  erewrite bind_ok by by eapply kalloc_cons. pose proof (page_ok_nonzero a Ha) as Hne.
  apply Z.eqb_neq in Hne. rewrite Hne.
  set (m' := (kalloced a m) <| m_mem ::= memset a 0 PGSIZE |>).
  assert (forall i, 0 <= i < 512 -> entry (m_mem m') a i = 0) as Hz.
  { intros i Hi. unfold entry. apply load64_memset_zero; unfold PGSIZE; lia. }
  pose proof (pt_pages_zero 2 _ _ Hz) as Hpp.
  assert (vm_frame [a] m m') as Hf.
  { split_and!; [done..|]. intros c Hc. specialize (Hc a ltac:(left)).
    etransitivity; [exact (proj1 (memset_page a (m_mem (kalloced a m)) c) Hc)|]. by apply kalloced_frame. }
  exists m'. split_and!; [done| |done|done|intros va; by apply lookup_pte_zero].
  apply NoDup_app in Hnd as (HnD & Hdis & [Hafl Hnfl]%NoDup_cons).
  assert (kmem_inv m' fl') as Hk'.
  { eapply (kmem_inv_frame (kalloced a m)); [by eapply kmem_inv_kalloced|done|]. intros p c Hp Hc.
    apply (memset_page a (m_mem (kalloced a m)) c). eapply page_disjoint; [|exact Ha| |exact Hc].
    - destruct Hk as (_ & _ & Hall). eapply Forall_forall in Hall; [exact Hall|by right].
    - intros ->. exact (Hafl Hp). }
  split_and!; [by eapply quiet_frame|done| |by apply dirs_ok_zero].
  split; rewrite Hpp; [|by apply Forall_singleton]. cbn. apply NoDup_cons. split.
  - rewrite elem_of_app. intros [Hin|Hin]; [apply (Hdis a Hin); left|exact (Hafl Hin)].
  - apply NoDup_app. split_and!; [exact HnD| |exact Hnfl]. intros x Hx Hin. apply (Hdis x Hx). right. exact Hin.
Qed.

(** ** Unmapping a page without freeing it *)

Lemma uvmunmap_keep D fl pt a v m :
  vm_inv D fl pt m -> 0 <= a < MAXVA -> a mod 4096 = 0 ->
  pt_lookup (m_mem m) pt a = Some v -> PTE_FLAGS v <> PTE_V ->
  exists m', uvmunmap pt a 1 false m = Ok tt m' /\ vm_inv D fl pt m' /\
    vm_frame (pt_pages 2 (m_mem m) pt) m m' /\ pt_pages 2 (m_mem m') pt = pt_pages 2 (m_mem m) pt /\
    (forall va', 0 <= va' < 2 ^ 39 -> pt_lookup (m_mem m') pt va' =
       if decide (a / 4096 = va' / 4096) then None else pt_lookup (m_mem m) pt va').
Proof.
  intros Hinv Ha Hal Hv Hfl. change MAXVA with (2 ^ 38) in Ha.
  destruct (lookup_addr _ _ _ _ (vm_inv_wf0 _ _ _ _ Hinv) Hv) as (r & Hr & Hr0 & Hload & HV).
  destruct (vm_store_leaf D fl pt m a r 0) as ((Hinv2 & _) & Hf2 & Hp2 & Hl2);
    [done|change MAXVA with (2 ^ 38); lia|done|lia|].
  exists (stored r 0 m). split_and!; [|done|done|done|].
  - unfold uvmunmap, PGSIZE. rewrite Hal. cbn [negb Z.eqb]. rewrite u64_small by lia.
    replace (a + 1 * 4096 - a) with 4096 by lia. cbn [Z.div Z.to_nat]. cbn [uvmunmap_loop].
    destruct (Z.ltb_spec a (a + 1 * 4096)); [|lia]. cbn [negb].
    erewrite bind_ok by (apply walk_leaf; [change MAXVA with (2 ^ 38); lia|exact Hr]).
    apply Z.eqb_neq in Hr0. rewrite Hr0. unfold mload64. mrun. rewrite Hload, HV. cbn [negb].
    apply Z.eqb_neq in Hfl. rewrite Hfl. unfold when. rewrite bind_ret. erewrite bind_ok by apply mstore64_run.
    rewrite u64_small by (unfold PGSIZE; lia). unfold PGSIZE.
    destruct (Z.ltb_spec (a + 4096) (a + 1 * 4096)); [lia|]. done.
  - intros va' Hva'. rewrite Hl2 by done. by rewrite has_V_0.
Qed.

(** ** [proc_pagetable] *)

(** Giving back a table in which nothing is mapped any more. *)
Lemma abort_table D fl pt m :
  vm_inv D fl pt m -> (forall va, 0 <= va < 2 ^ 39 -> pt_lookup (m_mem m) pt va = None) ->
  exists m' fl', uvmfree pt 0 m = Ok tt m' /\ quiet m' /\ kmem_inv m' fl' /\
    fl' ≡ₚ pt_pages 2 (m_mem m) pt ++ fl /\ vm_frame (pt_pages 2 (m_mem m) pt) m m'.
Proof.
  intros Hinv Hnone.
  destruct (uvmfree_run pt [] D fl 0 m) as (m' & fl' & Hrun & Hq & Hk & Hp & Hf); try done.
  exists m', fl'. cbn in Hp, Hf. rewrite app_nil_r in Hf. by split_and!.
Qed.

(** A stage of the construction: the table [pt] maps [f]. *)
Definition stage (D fl0 : list Z) (m0 : machine) (pt : Z) (f : Z -> option Z) (fl : list Z) (m : machine) : Prop :=
  vm_inv D fl pt m /\ pt_pages 2 (m_mem m) pt ++ fl ≡ₚ fl0 /\ vm_frame fl0 m0 m /\
  forall va, 0 <= va < 2 ^ 39 -> pt_lookup (m_mem m) pt va = f va.

(** Failure: nothing is left of the table. *)
Definition undone (fl0 : list Z) (m0 m : machine) : Prop :=
  exists fl, quiet m /\ kmem_inv m fl /\ fl ≡ₚ fl0 /\ vm_frame fl0 m0 m.

Lemma stage_frame_incl D fl0 m0 pt f fl m p :
  stage D fl0 m0 pt f fl m -> p ∈ pt_pages 2 (m_mem m) pt ++ fl -> p ∈ fl0.
Proof. intros (_ & Hp & _) Hin. by rewrite Hp in Hin. Qed.

Lemma stage_map D fl0 m0 pt f fl m a pa perm :
  stage D fl0 m0 pt f fl m -> 0 <= a < MAXVA -> a mod 4096 = 0 -> 0 <= pa < PHYSTOP -> pa mod 4096 = 0 ->
  0 <= perm < 1024 -> f a = None ->
  exists r m' fl', mappages pt a PGSIZE pa perm m = Ok r m' /\ (length fl <= length fl' + 2)%nat /\
    if decide (r = 0)
    then stage D fl0 m0 pt (fun va => if decide (a / 4096 = va / 4096) then Some (make_pte pa perm) else f va) fl' m'
    else (r <? 0) = true /\ fl' = [] /\ stage D fl0 m0 pt f fl' m'.
Proof.
  intros Hst Ha Hal Hpa Hpal Hperm Hnone. pose proof Hst as (Hinv & Hpp & Hf & Hl). change MAXVA with (2 ^ 38) in Ha.
  destruct (mappages_one D pt a pa perm fl m) as (r & m' & fl' & Hrun & (Hinv' & Hf' & Hp') & Hlen & Hr);
    [done|change MAXVA with (2 ^ 38); lia|done|done|done|done|by rewrite Hl by lia|].
  assert (vm_frame fl0 m0 m') as Hfr.
  { eapply vm_frame_trans; [exact Hf|]. eapply vm_frame_mono; [|exact Hf']. intros p. by apply (stage_frame_incl D fl0 m0 pt f). }
  exists r, m', fl'. split; [done|]. split; [done|]. case_decide as Er.
  - split_and!; [done|by rewrite Hp'|done|]. intros va Hva. rewrite Hr by done. case_decide; [done|by apply Hl].
  - destruct Hr as (-> & -> & Hr). split; [done|]. split; [done|]. split_and!; [done|by rewrite Hp'|done|].
    intros va Hva. rewrite Hr by done. by apply Hl.
Qed.

Lemma stage_unmap D fl0 m0 pt f fl m a v :
  stage D fl0 m0 pt f fl m -> 0 <= a < MAXVA -> a mod 4096 = 0 -> f a = Some v -> PTE_FLAGS v <> PTE_V ->
  exists m', uvmunmap pt a 1 false m = Ok tt m' /\
    stage D fl0 m0 pt (fun va => if decide (a / 4096 = va / 4096) then None else f va) fl m'.
Proof.
  intros Hst Ha Hal Hv Hfl. pose proof Hst as (Hinv & Hpp & Hf & Hl). change MAXVA with (2 ^ 38) in Ha.
  destruct (uvmunmap_keep D fl pt a v m) as (m' & Hrun & Hinv' & Hf' & Hp' & Hl');
    [done|change MAXVA with (2 ^ 38); lia|done|by rewrite Hl by lia|done|].
  exists m'. split; [done|]. split_and!; [done|by rewrite Hp'| |].
  - eapply vm_frame_trans; [exact Hf|]. eapply vm_frame_mono; [|exact Hf']. intros p Hp.
    apply (stage_frame_incl D fl0 m0 pt f fl m); [done|]. apply elem_of_app. by left.
  - intros va Hva. rewrite Hl' by done. case_decide; [done|by apply Hl].
Qed.

Lemma stage_abort D fl0 m0 pt f fl m :
  stage D fl0 m0 pt f fl m -> (forall va, 0 <= va < 2 ^ 39 -> f va = None) ->
  exists m', uvmfree pt 0 m = Ok tt m' /\ undone fl0 m0 m'.
Proof.
  intros Hst Hnone. pose proof Hst as (Hinv & Hpp & Hf & Hl).
  destruct (abort_table D fl pt m) as (m' & fl' & Hrun & Hq & Hk & Hp & Hf'); [done|intros; by rewrite Hl, Hnone|].
  exists m'. split; [done|]. exists fl'. split_and!; [done|done|by rewrite Hp|].
  eapply vm_frame_trans; [exact Hf|]. eapply vm_frame_mono; [|exact Hf']. intros p Hp'.
  apply (stage_frame_incl D fl0 m0 pt f fl m); [done|]. apply elem_of_app. by left.
Qed.

(** The three special addresses are different pages. *)
Lemma special_pages :
  TRAMPOLINE / 4096 = 2 ^ 26 - 1 /\ TRAPFRAME / 4096 = 2 ^ 26 - 2 /\ USYSCALL / 4096 = 2 ^ 26 - 3.
Proof. done. Qed.

Lemma proc_perm_flags pa perm :
  0 <= pa < PHYSTOP -> pa mod 4096 = 0 -> 0 <= perm < 1024 -> Z.lor perm PTE_V <> PTE_V ->
  PTE_FLAGS (make_pte pa perm) <> PTE_V.
Proof.
  intros Hpa Hal Hperm Hne. unfold PHYSTOP, KERNBASE in Hpa.
  destruct (make_pte_facts pa perm) as (_ & _ & _ & _ & ->); [lia|done|done|done].
Qed.

(** What a call of [proc_pagetable] leaves. *)
Definition table_made (D fl : list Z) (tf us : Z) (m : machine) (r : Z) (m' : machine) : Prop :=
  if decide (r = 0) then undone fl m m' /\ (length fl <= 7)%nat
  else exists fl', vm_inv D fl' r m' /\ pt_pages 2 (m_mem m') r ++ fl' ≡ₚ fl /\ vm_frame fl m m' /\
    forall va, 0 <= va < 2 ^ 39 -> pt_lookup (m_mem m') r va = proc_map tf us va.

Lemma stage_made D fl0 m0 pt f fl m tf us :
  stage D fl0 m0 pt f fl m -> pt <> 0 -> (forall va, f va = proc_map tf us va) -> table_made D fl0 tf us m0 pt m.
Proof.
  intros (Hinv & Hp & Hf & Hl) Hne Hfe. unfold table_made. rewrite decide_False by done.
  exists fl. split_and!; [done|done|done|]. intros va Hva. by rewrite Hl, Hfe.
Qed.

(** The paths that unmap what was mapped and free the table. *)
Lemma undone_made D fl tf us m m' :
  undone fl m m' -> (length fl <= 7)%nat -> table_made D fl tf us m 0 m'.
Proof. by split. Qed.

Lemma proc_pagetable_run D tf us fl m :
  quiet m -> kmem_inv m fl -> NoDup (D ++ fl) -> page_ok tf -> page_ok us ->
  exists r m', proc_pagetable tf us m = Ok r m' /\ table_made D fl tf us m r m'.
Proof.
  intros Hq Hk Hnd [Htal Htf] [Hual Hus].
  assert (0 <= tf < PHYSTOP) as Htf' by (pose proof end_low; unfold KERNBASE in *; lia).
  assert (0 <= us < PHYSTOP) as Hus' by (pose proof end_low; unfold KERNBASE in *; lia).
  assert (0 <= trampoline < PHYSTOP) as Htr.
  { pose proof trampoline_range. pose proof end_high. unfold KERNBASE in *. lia. }
  pose proof trampoline_aligned as Htra. destruct special_pages as (E1 & E2 & E3).
  pose proof (uvmcreate_run D fl m Hq Hk Hnd) as Hcr. unfold proc_pagetable. destruct fl as [|pt fl'].
  { erewrite bind_ok by exact Hcr. exists 0, m. split; [done|]. apply undone_made; [|cbn; lia]. exists []. split_and!; done. }
  destruct Hcr as (m1 & Hc & Hinv1 & Hf1 & Hp1 & Hl1). erewrite bind_ok by exact Hc.
  assert (pt <> 0) as Hpt.
  { apply page_ok_nonzero. destruct Hk as (_ & _ & Hok). by apply Forall_cons in Hok as [? _]. }
  rewrite (proj2 (Z.eqb_neq pt 0) Hpt).
  assert (stage D (pt :: fl') m pt (fun _ => None) fl' m1) as S1.
  { split_and!; [done|by rewrite Hp1| |done]. eapply vm_frame_mono; [|exact Hf1].
    intros p ->%list_elem_of_singleton. left. }
  destruct (stage_map _ _ _ _ _ _ _ TRAMPOLINE trampoline (Z.lor PTE_R PTE_X) S1)
    as (r2 & m2 & fl2 & Hm2 & L2 & S2); [done..|]. erewrite bind_ok by exact Hm2.
  destruct (decide (r2 = 0)) as [->|].
  2: { destruct S2 as (-> & -> & S2). destruct (stage_abort _ _ _ _ _ _ _ S2) as (m3 & Hm3 & Hu); [done|].
       erewrite bind_ok by exact Hm3. exists 0, m3. split; [done|]. apply undone_made; [done|cbn [length] in *; lia]. }
  cbn [Z.ltb Z.compare].
  destruct (stage_map _ _ _ _ _ _ _ TRAPFRAME tf (Z.lor PTE_R PTE_W) S2)
    as (r3 & m3 & fl3 & Hm3 & L3 & S3); [done..|]. erewrite bind_ok by exact Hm3.
  destruct (decide (r3 = 0)) as [->|].
  2: { destruct S3 as (-> & -> & S3).
       destruct (stage_unmap _ _ _ _ _ _ _ TRAMPOLINE (make_pte trampoline (Z.lor PTE_R PTE_X)) S3)
         as (m4 & Hm4 & S4); [done|done|done|by apply proc_perm_flags|]. erewrite bind_ok by exact Hm4.
       destruct (stage_abort _ _ _ _ _ _ _ S4) as (m5 & Hm5 & Hu); [intros va Hva; by repeat case_decide|].
       erewrite bind_ok by exact Hm5. exists 0, m5. split; [done|]. apply undone_made; [done|cbn [length] in *; lia]. }
  cbn [Z.ltb Z.compare].
  destruct (stage_map _ _ _ _ _ _ _ USYSCALL us (Z.lor PTE_R PTE_U) S3)
    as (r4 & m4 & fl4 & Hm4 & L4 & S4); [done..|]. erewrite bind_ok by exact Hm4.
  destruct (decide (r4 = 0)) as [->|].
  - cbn [Z.ltb Z.compare]. exists pt, m4. split; [done|]. eapply stage_made; [exact S4|done|].
    intros va. unfold proc_map. rewrite E1, E2, E3. repeat case_decide; done || lia.
  - destruct S4 as (-> & -> & S4).
    destruct (stage_unmap _ _ _ _ _ _ _ TRAMPOLINE (make_pte trampoline (Z.lor PTE_R PTE_X)) S4)
      as (m5 & Hm5 & S5); [done|done|done|by apply proc_perm_flags|]. erewrite bind_ok by exact Hm5.
    destruct (stage_unmap _ _ _ _ _ _ _ TRAPFRAME (make_pte tf (Z.lor PTE_R PTE_W)) S5)
      as (m6 & Hm6 & S6); [done|done|done|by apply proc_perm_flags|]. erewrite bind_ok by exact Hm6.
    destruct (stage_abort _ _ _ _ _ _ _ S6) as (m7 & Hm7 & Hu); [intros va Hva; by repeat case_decide|].
    erewrite bind_ok by exact Hm7. exists 0, m7. split; [done|]. apply undone_made; [done|cbn [length] in *; lia].
Qed.

(** ** [proc_freepagetable] *)

(** The address space of a process: user pages [vs] from 0 on, the three
    special pages at the top, nothing in between. *)
Record proc_space (pt : Z) (vs : list Z) (D fl : list Z) (sz tf us : Z) (m : machine) : Prop := {
  ps_inv : vm_inv ((PTE2PA <$> vs) ++ D) fl pt m;
  ps_pages : Forall page_ok (PTE2PA <$> vs);
  ps_own : page_ok tf /\ page_ok us;
  ps_sz : 0 <= sz <= USYSCALL;
  ps_len : PGROUNDUP sz = 4096 * Z.of_nat (length vs);
  ps_user : forall i v, vs !! i = Some v ->
    pt_lookup (m_mem m) pt (4096 * Z.of_nat i) = Some v /\ PTE_FLAGS v <> PTE_V;
  ps_top : forall va, PGROUNDUP sz <= va < 2 ^ 39 -> pt_lookup (m_mem m) pt va = proc_map tf us va
}.

Lemma proc_freepagetable_run pt vs D fl sz tf us m :
  proc_space pt vs D fl sz tf us m ->
  exists m' fl', proc_freepagetable pt sz m = Ok tt m' /\ quiet m' /\ kmem_inv m' fl' /\
    fl' ≡ₚ pt_pages 2 (m_mem m) pt ++ (PTE2PA <$> vs) ++ fl /\
    vm_frame (pt_pages 2 (m_mem m) pt ++ (PTE2PA <$> vs)) m m'.
Proof.
  intros [Hinv Hok [[Htal Htf] [Hual Hus]] Hsz Hlen Huser Htop].
  assert (0 <= tf < PHYSTOP) as Htf' by (pose proof end_low; unfold KERNBASE in *; lia).
  assert (0 <= us < PHYSTOP) as Hus' by (pose proof end_low; unfold KERNBASE in *; lia).
  assert (0 <= trampoline < PHYSTOP) as Htr.
  { pose proof trampoline_range. pose proof end_high. unfold KERNBASE in *. lia. }
  pose proof trampoline_aligned as Htra. destruct special_pages as (E1 & E2 & E3).
  assert (0 <= PGROUNDUP sz <= USYSCALL) as Hup.
  { change USYSCALL with (2 ^ 38 - 3 * 4096) in *. pose proof (PGROUNDUP_eq sz ltac:(lia)) as ->.
    Z.div_mod_to_equations. lia. }
  assert (TRAMPOLINE = 2 ^ 38 - 4096 /\ TRAPFRAME = 2 ^ 38 - 2 * 4096 /\ USYSCALL = 2 ^ 38 - 3 * 4096) as (A1 & A2 & A3) by done.
  unfold proc_freepagetable.
  destruct (uvmunmap_keep ((PTE2PA <$> vs) ++ D) fl pt TRAMPOLINE (make_pte trampoline (Z.lor PTE_R PTE_X)) m)
    as (m1 & Hm1 & Hinv1 & Hf1 & Hp1 & Hl1); [done|done|done| |by apply proc_perm_flags|].
  { rewrite Htop by lia. unfold proc_map. by rewrite decide_True. }
  erewrite bind_ok by exact Hm1.
  destruct (uvmunmap_keep ((PTE2PA <$> vs) ++ D) fl pt TRAPFRAME (make_pte tf (Z.lor PTE_R PTE_W)) m1)
    as (m2 & Hm2 & Hinv2 & Hf2 & Hp2 & Hl2); [done|done|done| |by apply proc_perm_flags|].
  { rewrite Hl1 by lia. rewrite decide_False by (rewrite E1, E2; lia). rewrite Htop by lia. unfold proc_map.
    rewrite decide_False by (rewrite E1, E2; lia). by rewrite decide_True. }
  erewrite bind_ok by exact Hm2.
  destruct (uvmunmap_keep ((PTE2PA <$> vs) ++ D) fl pt USYSCALL (make_pte us (Z.lor PTE_R PTE_U)) m2)
    as (m3 & Hm3 & Hinv3 & Hf3 & Hp3 & Hl3); [done|done|done| |by apply proc_perm_flags|].
  { rewrite Hl2, decide_False, Hl1, decide_False, Htop by (lia || (rewrite ?E1, ?E2, ?E3; lia)). unfold proc_map.
    rewrite !decide_False by (rewrite ?E1, ?E2, ?E3; lia). by rewrite decide_True. }
  erewrite bind_ok by exact Hm3.
  assert (forall va, 0 <= va < 2 ^ 39 -> pt_lookup (m_mem m3) pt va =
    if decide (2 ^ 26 - 3 <= va / 4096 < 2 ^ 26) then None else pt_lookup (m_mem m) pt va) as Hl.
  { intros va Hva. rewrite Hl3, Hl2, Hl1, E1, E2, E3 by done. repeat case_decide; done || lia. }
  destruct (uvmfree_run pt vs D fl sz m3) as (m' & fl' & Hrun & Hq & Hk & Hp & Hf); [done|done| |done| | |].
  - change MAXVA with (2 ^ 38). lia.
  - intros i v Hv. destruct (Huser i v Hv) as [Hlk Hfl]. split; [|done].
    apply lookup_lt_Some in Hv. rewrite Hl, decide_False by (Z.div_mod_to_equations; lia). done.
  - intros va Hva. rewrite Hl by lia. case_decide as Hd; [done|]. rewrite Htop by done. unfold proc_map.
    rewrite E1, E2, E3. by rewrite !decide_False by lia.
  - rewrite Hp3, Hp2, Hp1 in *. exists m', fl'. split_and!; [done|done|done|done|].
    eapply vm_frame_trans; [|eapply vm_frame_trans; [|eapply vm_frame_trans; [|exact Hf]]];
      (eapply vm_frame_mono; [|eassumption]); intros p Hp'; rewrite ?Hp2, ?Hp1 in Hp'; apply elem_of_app; by left.
Qed.

(** C27: A process's page table, from creation to destruction.
    [proc_pagetable] either returns a table that maps exactly the trampoline
    (read and execute), the trapframe (read and write) and the USYSCALL page
    (read, user), built from pages of the free list; or it returns 0 after
    giving back every page it took, which needs a free list of at most seven
    pages. [proc_freepagetable] of a process with
    user pages [vs] puts all of its table and user pages on the free list,
    exactly once, and leaves the trapframe and USYSCALL pages allocated. *)
Theorem proc_pagetable_spec D tf us fl m :
  quiet m -> kmem_inv m fl -> NoDup (D ++ fl) -> page_ok tf -> page_ok us ->
  (exists r m', proc_pagetable tf us m = Ok r m' /\ table_made D fl tf us m r m') /\
  (forall pt vs D' fl' sz m1, proc_space pt vs D' fl' sz tf us m1 ->
     exists m2 fl2, proc_freepagetable pt sz m1 = Ok tt m2 /\ kmem_inv m2 fl2 /\
       fl2 ≡ₚ pt_pages 2 (m_mem m1) pt ++ (PTE2PA <$> vs) ++ fl' /\
       vm_frame (pt_pages 2 (m_mem m1) pt ++ (PTE2PA <$> vs)) m1 m2).
Proof.
  intros Hq Hk Hnd Htf Hus. split; [by apply proc_pagetable_run|].
  intros pt vs D' fl' sz m1 Hs. destruct (proc_freepagetable_run _ _ _ _ _ _ _ _ Hs) as (m2 & fl2 & ? & _ & ? & ? & ?).
  by exists m2, fl2.
Qed.

End procvm.
