(* ===== verification/ProcSpec.v ===== *)
(** * Specification of the process table operations

    [allocproc], [freeproc] and [kill] on the process table: which slot they
    choose, what they leave in it, and that every page taken is accounted
    for, whether they succeed or fail. *)

From S2P Require Import Prelude Riscv Machine Spinlock PhysMem Kalloc PageTable Vm VmSpec VmFree VmAlloc Bytes Kernel Sched Sleeplock Bio Log Fs Pipe Console File Proc Thread SchedSpec ProcVm.

Section procspec.
Context `{KernelLayout} `{Platform} `{Fuel}.
Implicit Types k : kernel.

(** The state with the given machine, process table and [nextpid]. *)
Definition kst (k : kernel) (m : machine) (P : list proc) (np : Z) : kernel :=
  k <| k_m := m |> <| k_proc := P |> <| k_nextpid := np |>.

Lemma kst_id k : kst k (k_m k) (k_proc k) (k_nextpid k) = k.
Proof. by destruct k. Qed.

Lemma kst_mach {A} (op : M machine A) k m P np a m' :
  op m = Ok a m' -> mach op (kst k m P np) = Ok a (kst k m' P np).
Proof. intros E. by erewrite mach_ok by exact E. Qed.

Lemma kst_set i f k m P np p :
  P !! i = Some p -> set_proc i f (kst k m P np) = Ok tt (kst k m (<[i := f p]> P) np).
Proof.
  intros Hp. transitivity (@Ok kernel unit tt (kst k m (alter f i P) np)); [done|].
  by rewrite (list_alter_insert _ _ _ _ Hp).
Qed.

Lemma kst_get i k m P np p : P !! i = Some p -> get_proc i (kst k m P np) = Ok p (kst k m P np).
Proof. intros Hp. by apply get_entry. Qed.


Lemma calm_nextpid_free i k me :
  calm [] me k -> (i < Z.to_nat NPROC)%nat ->
  quiet (locking (proc_lock i) (k_m k)) /\ lock_free pid_lock (locking (proc_lock i) (k_m k)) /\
  lock_free (proc_lock i) (k_m k).
Proof.
  intros (Hs & Hl & _) Hi. pose proof (settled_wf _ Hs) as Hwf.
  split_and!.
  - split; [by apply settled_pushed|]. apply lock_free_locking; [done|]. by apply Hl; [|apply not_elem_of_nil].
  - apply lock_free_locking; [done|]. by apply Hl; [|apply not_elem_of_nil].
  - by apply Hl; [|apply not_elem_of_nil].
Qed.

(** ** [allocpid] and [freeproc] *)

Lemma allocpid_run k m P np :
  settled (m_core m) -> lock_free pid_lock m ->
  allocpid (kst k m P np) = Ok np (kst k m P (s32 (np + 1))).
Proof.
  intros Hs Hl. unfold allocpid.
  erewrite bind_ok by (apply kst_mach, acquire_run; [by apply settled_wf|exact Hl]). mrun.
  erewrite bind_ok by (apply (kst_mach _ k _ P (s32 (np + 1))), release_locking; [exact Hs|exact Hl]). done.
Qed.

(** The entry [freeproc] leaves. *)
Definition freed (p : proc) : proc :=
  p <| p_trapframe := 0 |> <| p_usyscall := 0 |> <| p_pagetable := 0 |> <| p_sz := 0 |> <| p_pid := 0 |>
    <| p_parent := None |> <| p_name ::= fun s => <[0%nat := 0]> s |> <| p_chan := None |>
    <| p_killed := 0 |> <| p_xstate := 0 |> <| p_state := UNUSED |>.

(** A possibly null page. *)
Definition opt_page (a : Z) : list Z := if a =? 0 then [] else [a].

Lemma kfree_opt a fl m :
  quiet m -> kmem_inv m fl -> Forall page_ok (opt_page a) -> NoDup (opt_page a ++ fl) ->
  exists m', when (ctrue a) (kfree a) m = Ok tt m' /\ quiet m' /\ kmem_inv m' (opt_page a ++ fl) /\
    vm_frame (opt_page a) m m'.
Proof.
  intros Hq Hk Hok Hnd. unfold opt_page, ctrue, when in *. destruct (a =? 0).
  { exists m. split_and!; [done..|apply vm_frame_refl]. }
  apply Forall_cons in Hok as [Hok _]. apply NoDup_cons in Hnd as [Hnin _].
  exists (kfreed a m). cbn [negb]. split_and!; [by apply kfree_run|by apply quiet_kfreed|by apply kmem_inv_kfreed|].
  split_and!; [done..|]. intros c Hc. apply kfreed_frame. apply Hc. left.
Qed.

(** [freeproc], from what it does to the page table. *)
Lemma freeproc_steps i k m P np p m1 m2 m3 :
  P !! i = Some p ->
  when (ctrue (p_trapframe p)) (kfree (p_trapframe p)) m = Ok tt m1 ->
  when (ctrue (p_usyscall p)) (kfree (p_usyscall p)) m1 = Ok tt m2 ->
  when (ctrue (p_pagetable p)) (proc_freepagetable (p_pagetable p) (p_sz p)) m2 = Ok tt m3 ->
  freeproc i (kst k m P np) = Ok tt (kst k m3 (<[i := freed p]> P) np).
Proof.
  intros Hp E1 E2 E3. unfold freeproc.
  assert (forall b (op : M machine unit), when b (mach op) = mach (when b op)) as Hw.
  { intros [] op; [done|]. extensionality k0. symmetry. by apply mach_state. }
  pose proof (lookup_lt_Some _ _ _ Hp) as Hlt.
  assert (forall (q : proc) (Q : list proc), length Q = length P -> <[i := q]> Q !! i = Some q) as Hi.
  { intros q Q HQ. apply list_lookup_insert_eq. by rewrite HQ. }
  erewrite bind_ok by by apply kst_get. rewrite !Hw.
  erewrite bind_ok by by apply kst_mach. erewrite bind_ok by by apply kst_set.
  erewrite bind_ok by by apply kst_mach. erewrite bind_ok by (apply kst_set; by apply Hi).
  erewrite bind_ok by by apply kst_mach.
  erewrite kst_set by (apply Hi; by rewrite length_insert). by rewrite !list_insert_insert_eq.
Qed.

(** [freeproc] of an entry that has no page table yet. *)
Lemma freeproc_early i k m P np p fl :
  P !! i = Some p -> p_pagetable p = 0 -> quiet m -> kmem_inv m fl ->
  Forall page_ok (opt_page (p_trapframe p) ++ opt_page (p_usyscall p)) ->
  NoDup (opt_page (p_usyscall p) ++ opt_page (p_trapframe p) ++ fl) ->
  exists m', freeproc i (kst k m P np) = Ok tt (kst k m' (<[i := freed p]> P) np) /\
    quiet m' /\ kmem_inv m' (opt_page (p_usyscall p) ++ opt_page (p_trapframe p) ++ fl) /\
    vm_frame (opt_page (p_trapframe p) ++ opt_page (p_usyscall p)) m m'.
Proof.
  intros Hp Hpt Hq Hk [Hok1 Hok2]%Forall_app Hnd. pose proof Hnd as (_ & _ & Hnd1)%NoDup_app.
  destruct (kfree_opt _ _ _ Hq Hk Hok1 Hnd1) as (m1 & E1 & Hq1 & Hk1 & Hf1).
  destruct (kfree_opt _ _ _ Hq1 Hk1 Hok2 Hnd) as (m2 & E2 & Hq2 & Hk2 & Hf2).
  exists m2. split_and!; [|done|done|].
  - eapply freeproc_steps; [done..|]. by rewrite Hpt.
  - eapply vm_frame_trans; (eapply vm_frame_mono; [|eassumption]); intros x Hx; apply elem_of_app; tauto.
Qed.

(** Giving back a page held outside the address space. *)
Lemma space_kfree pt vs D fl sz tf us m a :
  proc_space pt vs (a :: D) fl sz tf us m -> page_ok a ->
  exists m', when (ctrue a) (kfree a) m = Ok tt m' /\ proc_space pt vs D (a :: fl) sz tf us m' /\
    vm_frame [a] m m' /\ pt_pages 2 (m_mem m') pt = pt_pages 2 (m_mem m) pt.
Proof.
  intros [Hinv Hok Hown Hsz Hlen Huser Htop] Ha.
  assert (vm_inv (a :: (PTE2PA <$> vs) ++ D) fl pt m) as Hinv'.
  { eapply vm_inv_sub; [|exact Hinv]. by rewrite Permutation_middle. }
  destruct (vm_kfree _ _ _ _ _ Hinv' Ha) as (m' & Hrun & Hi & Hf & Hl & _ & Hp).
  exists m'. split_and!; [|split; try done|done|done].
  - unfold ctrue. apply page_ok_nonzero, Z.eqb_neq in Ha. by rewrite Ha.
  - intros i v Hv. rewrite Hl. by apply Huser.
  - intros va Hva. rewrite Hl. by apply Htop.
Qed.

(** [freeproc] of a process with page table [pt] and user pages [vs]
    puts the trapframe, the USYSCALL page, the user pages and all pages of the
    page table on the free list, each exactly once, writes no other memory,
    and leaves the table entry unused. *)
Theorem freeproc_spec i k p vs D fl :
  k_proc k !! i = Some p ->
  proc_space (p_pagetable p) vs (p_trapframe p :: p_usyscall p :: D) fl (p_sz p)
    (p_trapframe p) (p_usyscall p) (k_m k) ->
  let own := [p_trapframe p; p_usyscall p] ++ pt_pages 2 (m_mem (k_m k)) (p_pagetable p) ++ (PTE2PA <$> vs) in
  exists m' fl', freeproc i k = Ok tt (kst k m' (<[i := freed p]> (k_proc k)) (k_nextpid k)) /\
    kmem_inv m' fl' /\ fl' ≡ₚ own ++ fl /\ NoDup (own ++ fl) /\ vm_frame own (k_m k) m'.
Proof.
  intros Hp Hs own. pose proof (ps_own _ _ _ _ _ _ _ _ Hs) as [Htf Hus].
  destruct (space_kfree _ _ _ _ _ _ _ _ _ Hs Htf) as (m1 & E1 & Hs1 & Hf1 & Hp1).
  destruct (space_kfree _ _ _ _ _ _ _ _ _ Hs1 Hus) as (m2 & E2 & Hs2 & Hf2 & Hp2).
  destruct (proc_freepagetable_run _ _ _ _ _ _ _ _ Hs2) as (m3 & fl3 & E3 & Hq3 & Hk3 & Hp3 & Hf3).
  rewrite Hp2, Hp1 in Hp3, Hf3.
  assert (fl3 ≡ₚ own ++ fl) as Hperm by (rewrite Hp3; unfold own; clear; perm).
  exists m3, fl3. split_and!; [|done|done| |].
  - rewrite <- (kst_id k) at 1. eapply freeproc_steps; [done..|].
    assert (p_pagetable p <> 0) as Hne.
    { apply page_ok_nonzero. eapply vm_inv_pages_ok; [apply Hs|apply pt_pages_root]. }
    apply Z.eqb_neq in Hne. unfold ctrue. by rewrite Hne.
  - rewrite <- Hperm. by destruct Hk3 as (_ & ? & _).
  - eapply vm_frame_trans; [|eapply vm_frame_trans]; (eapply vm_frame_mono; [|eassumption]);
      intros x; unfold own; rewrite ?list_elem_of_singleton, ?elem_of_app, ?elem_of_cons; tauto.
Qed.

(** ** [allocproc] *)

(** What [freeproc] and [procinit] leave in an unused entry. *)
Definition slot_clean (p : proc) : Prop :=
  p_trapframe p = 0 /\ p_usyscall p = 0 /\ p_pagetable p = 0.

(** The entry [allocproc] leaves. *)
Definition born (pid tf us pt : Z) (p : proc) : proc :=
  p <| p_pid := pid |> <| p_state := USED |> <| p_trapframe := tf |> <| p_usyscall := us |>
    <| p_pagetable := pt |>
    <| p_context := mkcontext forkret_addr (u64 (p_kstack p + PGSIZE)) (replicate 12 0) |>.

(** The outcome in slot [i]: a process with its pages, its lock held; or,
    when memory ran out, an unused slot and all pages on the free list. *)
Definition alloc_post (k : kernel) (D fl : list Z) (i : nat) (p : proc) : Prop :=
  let pid := k_nextpid k in
  (exists tf us pt m fl',
     allocproc k = Ok (Some i) (kst k m (<[i := born pid tf us pt p]> (k_proc k)) (s32 (pid + 1))) /\
     tf :: us :: pt_pages 2 (m_mem m) pt ++ fl' ≡ₚ fl /\ vm_inv (tf :: us :: D) fl' pt m /\
     vm_frame fl (locking (proc_lock i) (k_m k)) m /\ load32 (m_mem m) us = u32 pid /\
     forall va, 0 <= va < 2 ^ 39 -> pt_lookup (m_mem m) pt va = proc_map tf us va) \/
  (exists m fl',
     allocproc k = Ok None (kst k m (<[i := freed p]> (k_proc k)) (s32 (pid + 1))) /\
     kmem_inv m fl' /\ fl' ≡ₚ fl /\ vm_frame fl (k_m k) m /\ (length fl <= 9)%nat).

Lemma find_run me k :
  calm [] me k ->
  match list_find (fun p => p_state p = UNUSED) (k_proc k) with
  | Some (i, _) => scan procs allocproc_find k = Ok (Some i) (klocking (proc_lock i) k)
  | None => scan procs allocproc_find k = Ok None k
  end.
Proof.
  intros Hc. pose proof Hc as (Hs & Hl & _ & Hlen & _).
  assert (forall i p, k_proc k !! i = Some p -> lock_free (proc_lock i) (k_m k)) as Hfree.
  { intros i p Hp. apply lookup_lt_Some in Hp. apply Hl; [cbn; lia|apply not_elem_of_nil]. }
  assert (forall i p, k_proc k !! i = Some p -> p_state p <> UNUSED -> allocproc_find i k = Ok None k) as Hno.
  { intros j q Hq Hn. unfold allocproc_find. erewrite bind_ok by (apply kacquire; [done|by eapply Hfree]).
    unfold get_proc. erewrite bind_ok by by apply get_entry. rewrite decide_False by done.
    erewrite bind_ok by (eapply krelease; [exact Hs|by eapply Hfree|done]). unfold ret, klocking. by destruct k. }
  pose proof (scan_find (fun p => p_state p = UNUSED) allocproc_find (k_proc k) _ k Hlen Hno) as Hf.
  destruct (list_find _ _) as [[i p]|] eqn:E; [|exact Hf].
  apply Hf. apply list_find_Some in E as (Hp & Hu & _). unfold allocproc_find.
  erewrite bind_ok by (apply kacquire; [done|by eapply Hfree]).
  unfold get_proc. erewrite bind_ok by by apply get_entry. by rewrite decide_True.
Qed.

(** The error exits: free the slot and its pages and release the lock. *)
Lemma fail_run i k m P np p fl0 fl m0 :
  P !! i = Some p -> p_pagetable p = 0 -> quiet m0 -> lock_free (proc_lock i) m0 ->
  Forall page_ok fl0 -> NoDup fl0 -> kmem_inv m fl ->
  opt_page (p_usyscall p) ++ opt_page (p_trapframe p) ++ fl ≡ₚ fl0 ->
  vm_frame fl0 (locking (proc_lock i) m0) m ->
  exists m' fl', allocproc_fail i (kst k m P np) = Ok None (kst k m' (<[i := freed p]> P) np) /\
    kmem_inv m' fl' /\ fl' ≡ₚ fl0 /\ vm_frame fl0 m0 m'.
Proof.
  intros Hp Hpt [Hs Hkl] Hl Hok Hnd Hk Hperm Hf. pose proof (settled_wf _ Hs) as Hwf.
  assert (quiet m) as Hq.
  { eapply quiet_frame; [exact Hf|]. split; [by apply settled_pushed|by apply lock_free_locking]. }
  destruct (freeproc_early i k m P np p fl) as (m1 & E1 & Hq1 & Hk1 & Hf1); [done..| |by rewrite Hperm|].
  { rewrite <- Hperm, !Forall_app in Hok. rewrite Forall_app. tauto. }
  assert (vm_frame fl0 (locking (proc_lock i) m0) m1) as (Hc1 & Hl1 & Hm1).
  { eapply vm_frame_trans; [exact Hf|]. eapply vm_frame_mono; [|exact Hf1].
    intros x. rewrite <- Hperm, !elem_of_app. tauto. }
  exists (m1 <| m_core := m_core m0 |> <| m_locks := m_locks m0 |>), (opt_page (p_usyscall p) ++ opt_page (p_trapframe p) ++ fl).
  unfold allocproc_fail. split_and!; [|exact Hk1|done|split_and!; [done|done|exact Hm1]].
  erewrite bind_ok by exact E1. erewrite bind_ok.
  2: { apply kst_mach. eapply release_held; [exact Hwf|exact Hl|exact Hc1|exact Hl1]. }
  by rewrite settle_id.
Qed.

Lemma kalloced_vm_frame a m : vm_frame [a] m (kalloced a m).
Proof. split_and!; [done..|]. intros c Hc. apply kalloced_frame. apply Hc. left. Qed.

(** Writing the pid to the USYSCALL page. *)
Lemma usyscall_store us pid fl m :
  page_ok us -> us ∉ fl -> quiet m -> kmem_inv m fl ->
  exists m', mem_op (store32 us (u32 pid)) m = Ok tt m' /\ quiet m' /\ kmem_inv m' fl /\ vm_frame [us] m m' /\
    load32 (m_mem m') us = u32 pid.
Proof.
  intros Hus Hnin Hq Hk. exists (m <| m_mem ::= store32 us (u32 pid) |>).
  assert (forall c, ~ in_page us c -> load8 (store32 us (u32 pid) (m_mem m)) c = load8 (m_mem m) c) as Hf.
  { intros c Hc. apply (load8_store_le_out 4). unfold in_page in Hc. cbn. lia. }
  split_and!; [done|done| | |].
  - eapply kmem_inv_frame; [exact Hk|done|]. intros x c Hx Hc. apply Hf. eapply (page_disjoint x us); [|done| |done].
    + destruct Hk as (_ & _ & Hok). by eapply Forall_forall in Hok.
    + by intros ->.
  - split_and!; [done..|]. intros c Hc. apply Hf, Hc. left.
  - etransitivity; [apply (load_le_store_le 4)|]. apply Z.mod_small. apply u32_range.
Qed.

#[local] Opaque kalloced memset.

(** [allocproc] once it has the trapframe and the USYSCALL page: the end of
    the function, from the write of the pid on. *)
Definition alloc_tail (i : nat) (pid tf us : Z) : M kernel (option nat) :=
  mach (mem_op (store32 us (u32 pid))) ;;
  pt <- mach (proc_pagetable tf us) ;;
  set_proc i (fun p => p <| p_pagetable := pt |>) ;;
  if pt =? 0 then allocproc_fail i else
  set_proc i (fun p => p <| p_context :=
    mkcontext forkret_addr (u64 (p_kstack p + PGSIZE)) (replicate 12 0) |>) ;;
  ret (Some i).

Lemma alloc_tail_run k D fl i p pid np tf us m m0 P :
  quiet m0 -> lock_free (proc_lock i) m0 -> kmem_inv m0 (tf :: us :: fl) -> NoDup (D ++ tf :: us :: fl) ->
  P !! i = Some p -> p_state p = USED -> p_trapframe p = tf -> p_usyscall p = us -> kmem_inv m fl ->
  vm_frame (tf :: us :: fl) (locking (proc_lock i) m0) m ->
  (exists pt m' fl',
     alloc_tail i pid tf us (kst k m P np) = Ok (Some i) (kst k m' (<[i := born (p_pid p) tf us pt p]> P) np) /\
     tf :: us :: pt_pages 2 (m_mem m') pt ++ fl' ≡ₚ tf :: us :: fl /\ vm_inv (tf :: us :: D) fl' pt m' /\
     vm_frame (tf :: us :: fl) (locking (proc_lock i) m0) m' /\ load32 (m_mem m') us = u32 pid /\
     forall va, 0 <= va < 2 ^ 39 -> pt_lookup (m_mem m') pt va = proc_map tf us va) \/
  (exists m' fl',
     alloc_tail i pid tf us (kst k m P np) = Ok None (kst k m' (<[i := freed p]> P) np) /\
     kmem_inv m' fl' /\ fl' ≡ₚ tf :: us :: fl /\ vm_frame (tf :: us :: fl) m0 m' /\ (length (tf :: us :: fl) <= 9)%nat).
Proof.
  intros [Hs0 Hkl] Hlk Hk0 Hnd Hp Hst Htf Hus Hk Hf. pose proof (settled_wf _ Hs0) as Hwf.
  assert (quiet m) as Hq.
  { eapply quiet_frame; [exact Hf|]. split; [by apply settled_pushed|by apply lock_free_locking]. }
  pose proof Hk0 as (_ & Hnd0 & Hok0). pose proof Hok0 as [Htfok [Husok _]%Forall_cons]%Forall_cons.
  assert (us ∉ fl) as Hnin by (apply NoDup_cons in Hnd0 as [_ [Hn _]%NoDup_cons]; exact Hn).
  destruct (usyscall_store us pid fl m Husok Hnin Hq Hk) as (m1 & E1 & Hq1 & Hk1 & Hf1 & Hld).
  destruct (proc_pagetable_run (tf :: us :: D) tf us fl m1) as (pt & m2 & E2 & Hmade); [done|done| |done|done|].
  { eapply submseteq_NoDup; [exact Hnd|]. apply Permutation_submseteq. perm. }
  unfold alloc_tail. erewrite bind_ok by by apply kst_mach. erewrite bind_ok by by apply kst_mach.
  erewrite bind_ok by by apply kst_set.
  assert (<[i := p <| p_pagetable := pt |>]> P !! i = Some (p <| p_pagetable := pt |>)) as Hp2.
  { apply list_lookup_insert_eq. by apply lookup_lt_Some in Hp. }
  assert (vm_frame (tf :: us :: fl) (locking (proc_lock i) m0) m1) as Hf01.
  { eapply vm_frame_trans; [exact Hf|]. eapply vm_frame_mono; [|exact Hf1].
    intros x ->%list_elem_of_singleton. right. left. }
  assert (forall m', vm_frame fl m1 m' -> vm_frame (tf :: us :: fl) (locking (proc_lock i) m0) m') as Hf02.
  { intros m' Hfr. eapply vm_frame_trans; [exact Hf01|]. eapply vm_frame_mono; [|exact Hfr].
    intros x Hx. right. by right. }
  unfold table_made in Hmade. case_decide as Ez.
  - destruct Hmade as [(fl' & Hq2 & Hk2 & Hp' & Hf2) Hlen]. right.
    rewrite Ez in *. cbn [Z.eqb].
    destruct (fail_run i k m2 (<[i := p <| p_pagetable := 0 |>]> P) np (p <| p_pagetable := 0 |>)
      (tf :: us :: fl) fl' m0) as (m' & fl3 & E3 & Hk3 & Hp3 & Hf3); [done..| |by apply Hf02|].
    { cbn [p_usyscall p_trapframe upd]. change (p_usyscall (p <| p_pagetable := 0 |>)) with (p_usyscall p).
      change (p_trapframe (p <| p_pagetable := 0 |>)) with (p_trapframe p).
      rewrite Htf, Hus. unfold opt_page.
      rewrite (proj2 (Z.eqb_neq tf 0)), (proj2 (Z.eqb_neq us 0)) by (by apply page_ok_nonzero).
      rewrite Hp'. perm. }
    exists m', fl3. rewrite E3, list_insert_insert_eq. split_and!; [done..|cbn; lia].
  - destruct Hmade as (fl' & Hinv & Hpp & Hf2 & Hl). left. exists pt, m2, fl'.
    apply Z.eqb_neq in Ez. rewrite Ez. erewrite bind_ok by by apply kst_set.
    rewrite list_insert_insert_eq. split_and!; [|by rewrite Hpp|done|by apply Hf02| |done].
    + unfold ret. apply (f_equal (fun q => Ok (Some i) (kst k m2 (<[i := q]> P) np))).
      rewrite <- Htf, <- Hus. clear -Hst. destruct p. cbn in Hst. by rewrite Hst.
    + rewrite <- Hld. apply (load_le_ext 4). intros j Hj.
      destruct Hk1 as (_ & _ & Hokfl). apply (frame_page fl m1 m2 us); [done|done|done|done|].
      unfold in_page. lia.
Qed.

(** [allocproc] after a slot was found. *)
Lemma alloc_run me k D fl i p :
  calm [] me k -> kmem_inv (k_m k) fl -> NoDup (D ++ fl) -> k_proc k !! i = Some p -> slot_clean p ->
  scan procs allocproc_find k = Ok (Some i) (klocking (proc_lock i) k) ->
  alloc_post k D fl i p.
Proof.
  intros Hc Hk Hnd Hp (Htf0 & Hus0 & Hpt0) Hfind. unfold alloc_post. set (pid := k_nextpid k). set (P := k_proc k) in *.
  pose proof Hc as (Hs & Hfree & _ & Hlen & _).
  assert (i < Z.to_nat NPROC)%nat as Hi by (apply lookup_lt_Some in Hp; unfold P in *; lia).
  destruct (calm_nextpid_free i k me Hc Hi) as (Hq1 & Hpl & Hlk).
  assert (quiet (k_m k)) as Hq by (split; [done|by apply Hfree; [|apply not_elem_of_nil]]).
  set (m1 := locking (proc_lock i) (k_m k)) in *.
  assert (kmem_inv m1 fl) as Hk1 by exact Hk. pose proof Hk as (_ & Hndfl & Hok).
  assert (forall (q : proc) (Q : list proc), length Q = length P -> <[i := q]> Q !! i = Some q) as Hins.
  { intros q Q HQ. apply list_lookup_insert_eq. rewrite HQ. by apply lookup_lt_Some in Hp. }
  unfold allocproc. erewrite bind_ok by exact Hfind. cbv beta iota.
  change (klocking (proc_lock i) k) with (kst k m1 P pid).
  erewrite bind_ok by (apply allocpid_run; [apply Hq1|exact Hpl]).
  erewrite bind_ok by (apply kst_set; exact Hp).
  destruct fl as [|a fl].
  { right. erewrite bind_ok by (apply kst_mach, kalloc_empty; [exact Hq1|exact Hk1]).
    erewrite bind_ok by (apply kst_set, Hins; done). rewrite list_insert_insert_eq. cbn [Z.eqb].
    set (q := p <| p_pid := pid |> <| p_state := USED |> <| p_trapframe := 0 |>).
    destruct (fail_run i k m1 (<[i := q]> P) (s32 (pid + 1)) q [] [] (k_m k)) as (m' & fl' & E & Hk' & Hp' & Hf');
      [by apply Hins|exact Hpt0|done|done|done|done|done| |apply vm_frame_refl|].
    { cbn. by rewrite Hus0. }
    exists m', fl'. rewrite E, list_insert_insert_eq. split_and!; [done..|cbn; lia]. }
  pose proof Hok as [Ha Hokfl]%Forall_cons. pose proof (page_ok_nonzero _ Ha) as Ha0%Z.eqb_neq.
  erewrite bind_ok by (apply kst_mach, (kalloc_cons _ _ _ Hq1 Hk1)).
  erewrite bind_ok by (apply kst_set, Hins; done). rewrite list_insert_insert_eq, Ha0.
  assert (quiet (kalloced a m1)) as Hq2 by (eapply quiet_frame; [apply kalloced_vm_frame|exact Hq1]).
  pose proof (kmem_inv_kalloced _ _ _ Hk1) as Hk2.
  destruct fl as [|b fl].
  { right. erewrite bind_ok by (apply kst_mach, kalloc_empty; [exact Hq2|exact Hk2]).
    erewrite bind_ok by (apply kst_set, Hins; done). rewrite list_insert_insert_eq. cbn [Z.eqb].
    set (q := p <| p_pid := pid |> <| p_state := USED |> <| p_trapframe := a |> <| p_usyscall := 0 |>).
    destruct (fail_run i k (kalloced a m1) (<[i := q]> P) (s32 (pid + 1)) q [a] [] (k_m k)) as (m' & fl' & E & Hk' & Hp' & Hf');
      [by apply Hins|exact Hpt0|done|done|done|done|done| |apply kalloced_vm_frame|].
    { cbn. unfold opt_page. by rewrite Ha0. }
    exists m', fl'. rewrite E, list_insert_insert_eq. split_and!; [done..|cbn; lia]. }
  pose proof Hokfl as [Hb _]%Forall_cons. pose proof (page_ok_nonzero _ Hb) as Hb0%Z.eqb_neq.
  erewrite bind_ok by (apply kst_mach, (kalloc_cons _ _ _ Hq2 Hk2)).
  erewrite bind_ok by (apply kst_set, Hins; done). rewrite list_insert_insert_eq, Hb0.
  pose proof (kmem_inv_kalloced _ _ _ Hk2) as Hk3.
  set (q := p <| p_pid := pid |> <| p_state := USED |> <| p_trapframe := a |> <| p_usyscall := b |>).
  destruct (alloc_tail_run k D fl i q pid (s32 (pid + 1)) a b (kalloced b (kalloced a m1)) (k_m k) (<[i := q]> P))
    as [(pt & m' & fl' & E & Hrest)|(m' & fl' & E & Hrest)]; [done|done|done|done|by apply Hins|done..| | |].
  - eapply vm_frame_trans; (eapply vm_frame_mono; [|apply kalloced_vm_frame]).
    + intros x ->%list_elem_of_singleton. left.
    + intros x ->%list_elem_of_singleton. right. left.
  - left. exists a, b, pt, m', fl'. split; [|exact Hrest]. rewrite list_insert_insert_eq in E. exact E.
  - right. exists m', fl'. split; [|exact Hrest]. rewrite list_insert_insert_eq in E. exact E.
Qed.

Lemma allocproc_run me k D fl :
  calm [] me k -> kmem_inv (k_m k) fl -> NoDup (D ++ fl) ->
  (forall i p, k_proc k !! i = Some p -> p_state p = UNUSED -> slot_clean p) ->
  match list_find (fun p => p_state p = UNUSED) (k_proc k) with
  | Some (i, p) => alloc_post k D fl i p
  | None => allocproc k = Ok None k
  end.
Proof.
  intros Hc Hk Hnd Hclean. pose proof (find_run me k Hc) as Hf.
  destruct (list_find _ _) as [[i p]|] eqn:E.
  - apply list_find_Some in E as (Hp & Hu & _). eapply alloc_run; [done..| |exact Hf]. by eapply Hclean.
  - unfold allocproc. by erewrite bind_ok by exact Hf.
Qed.

(** C23: [allocproc] takes the first unused slot. It returns it with a fresh
    pid, a trapframe, a USYSCALL page that holds the pid and a page table that
    maps both and the trampoline, all three from the free list, and holding
    exactly that slot's lock; or, when the free list has at most nine pages,
    it may return 0 with the slot unused, every lock released and every page
    back on the free list. With no unused slot it returns 0 and changes
    nothing. *)
Theorem allocproc_spec me k D fl :
  calm [] me k -> kmem_inv (k_m k) fl -> NoDup (D ++ fl) ->
  (forall i p, k_proc k !! i = Some p -> p_state p = UNUSED -> slot_clean p) ->
  match list_find (fun p => p_state p = UNUSED) (k_proc k) with
  | Some (i, p) => alloc_post k D fl i p
  | None => allocproc k = Ok None k
  end.
Proof. apply allocproc_run. Qed.

(** ** [kill] *)

Definition doomed (p : proc) : proc :=
  p <| p_killed := 1 |> <| p_state := if decide (p_state p = SLEEPING) then RUNNABLE else p_state p |>.

Lemma kill_one_run pid i k p :
  settled (m_core (k_m k)) -> lock_free (proc_lock i) (k_m k) -> k_proc k !! i = Some p ->
  kill_one pid i k =
    if p_pid p =? pid then Ok (Some 0) (kst k (k_m k) (<[i := doomed p]> (k_proc k)) (k_nextpid k)) else Ok None k.
Proof.
  intros Hs Hl Hp. unfold kill_one. set (lk := proc_lock i) in *.
  rewrite <- (kst_id k) at 1. set (P := k_proc k) in *. pose proof (settled_wf _ Hs) as Hwf.
  erewrite bind_ok by (apply kst_mach, acquire_run; [exact Hwf|exact Hl]).
  erewrite bind_ok by by apply kst_get. destruct (p_pid p =? pid).
  - erewrite bind_ok by by apply kst_set.
    assert (forall q : proc, <[i := q]> P !! i = Some q) as Hins.
    { intros q. apply list_lookup_insert_eq. by apply lookup_lt_Some in Hp. }
    erewrite bind_ok by by apply kst_get. cbv beta.
    change (p_state (p <| p_killed := 1 |>)) with (p_state p).
    set (q := p <| p_killed := 1 |>). unfold doomed.
    case_bool_decide as E; unfold when.
    + erewrite bind_ok by (apply kst_set; by apply Hins). rewrite list_insert_insert_eq.
      erewrite bind_ok by (apply kst_mach, release_locking; [exact Hs|exact Hl]).
      by rewrite decide_True.
    + rewrite bind_ret. erewrite bind_ok by (apply kst_mach, release_locking; [exact Hs|exact Hl]).
      rewrite decide_False by done. unfold ret. apply (f_equal (fun x => Ok (Some 0) (kst k (k_m k) (<[i := x]> P) (k_nextpid k)))).
      unfold q. by destruct p.
  - erewrite bind_ok by (apply kst_mach, release_locking; [exact Hs|exact Hl]).
    unfold ret. f_equal. apply kst_id.
Qed.

Lemma kill_run me pid k :
  calm [] me k ->
  kill pid k = match list_find (fun p => p_pid p = pid) (k_proc k) with
    | Some (i, p) => Ok 0 (kst k (k_m k) (<[i := doomed p]> (k_proc k)) (k_nextpid k))
    | None => Ok (-1) k
    end.
Proof.
  intros (Hs & Hl & _ & Hlen & _).
  assert (forall i p, k_proc k !! i = Some p -> kill_one pid i k =
    if p_pid p =? pid then Ok (Some 0) (kst k (k_m k) (<[i := doomed p]> (k_proc k)) (k_nextpid k)) else Ok None k) as Hone.
  { intros i p Hp. apply kill_one_run; [done| |done]. apply lookup_lt_Some in Hp.
    apply Hl; [cbn; lia|apply not_elem_of_nil]. }
  assert (forall i p, k_proc k !! i = Some p -> p_pid p <> pid -> kill_one pid i k = Ok None k) as Hno.
  { intros j q Hq Hne. rewrite (Hone j q Hq). by apply Z.eqb_neq in Hne as ->. }
  pose proof (scan_find (fun p => p_pid p = pid) (kill_one pid) (k_proc k) _ k Hlen Hno) as Hf.
  unfold kill. destruct (list_find _ _) as [[i p]|] eqn:E; [|by erewrite bind_ok by exact Hf].
  apply list_find_Some in E as (Hp & Hpid & _). erewrite bind_ok; [|apply Hf; rewrite (Hone i p Hp)].
  2: { by rewrite (proj2 (Z.eqb_eq _ _) Hpid). }
  done.
Qed.

(** When exactly the unused entries have pid 0, [kill(0)] finds one. *)
Lemma find_pid0 (P : list proc) :
  (forall i p, P !! i = Some p -> p_state p = UNUSED <-> p_pid p = 0) ->
  list_find (fun p => p_pid p = 0) P = list_find (fun p => p_state p = UNUSED) P.
Proof.
  intros Hiff. destruct (list_find (fun p => p_state p = UNUSED) P) as [[i p]|] eqn:E.
  - apply list_find_Some in E as (Hp & Hu & Hmin). apply list_find_Some. split_and!; [done|by eapply Hiff|].
    intros j q Hq Hlt Hz. eapply Hmin; [exact Hq|exact Hlt|]. by eapply Hiff.
  - apply list_find_None in E. apply list_find_None. apply Forall_lookup. intros i p Hp Hz.
    eapply Forall_lookup_1 in E; [|exact Hp]. by apply E, (Hiff i p Hp).
Qed.

Lemma calm_kst me k P : length P = length (k_proc k) -> calm [] me k -> calm [] me (kst k (k_m k) P (k_nextpid k)).
Proof. intros HP (Hs & Hl & Hr & Hn & Hm). split_and!; try done. cbn. congruence. Qed.

(** C37: what [kill(0)] does. Unused entries have pid 0, so [kill(0)] reports
    success and marks the first unused entry as killed; [allocproc] does not
    reset the mark, so the next process created, in that entry, is born
    killed. *)
Theorem kill_zero_dooms_next me k D fl i p :
  calm [] me k -> kmem_inv (k_m k) fl -> NoDup (D ++ fl) -> (9 < length fl)%nat ->
  (forall j q, k_proc k !! j = Some q -> p_state q = UNUSED <-> p_pid q = 0) ->
  (forall j q, k_proc k !! j = Some q -> p_state q = UNUSED -> slot_clean q) ->
  list_find (fun q => p_state q = UNUSED) (k_proc k) = Some (i, p) ->
  exists k1 k2 q, kill 0 k = Ok 0 k1 /\ allocproc k1 = Ok (Some i) k2 /\
    k_proc k2 !! i = Some q /\ p_killed q = 1 /\ p_state q = USED /\ p_pid q = k_nextpid k.
Proof.
  intros Hc Hk Hnd Hlen Hiff Hclean E. pose proof (kill_run me 0 k Hc) as Ek. rewrite find_pid0, E in Ek by done.
  pose proof E as (Hp & Hu & Hmin)%list_find_Some.
  set (k1 := kst k (k_m k) (<[i := doomed p]> (k_proc k)) (k_nextpid k)) in *.
  assert (p_state (doomed p) = UNUSED) as Hdu.
  { unfold doomed. cbn. by rewrite decide_False, Hu by (by rewrite Hu). }
  assert (calm [] me k1) as Hc1 by (apply calm_kst; [apply length_insert|done]).
  assert (k_proc k1 !! i = Some (doomed p)) as Hi1.
  { apply list_lookup_insert_eq. by apply lookup_lt_Some in Hp. }
  assert (list_find (fun q => p_state q = UNUSED) (k_proc k1) = Some (i, doomed p)) as E1.
  { apply list_find_Some. split_and!; [done|done|]. intros j q Hq Hlt. apply (Hmin j); [|done].
    cbn in Hq. rewrite list_lookup_insert_ne in Hq by lia. done. }
  pose proof (allocproc_run me k1 D fl Hc1 Hk Hnd) as Ha. rewrite E1 in Ha. destruct Ha as [Ha|Ha].
  - intros j q Hq Hqu. destruct (decide (j = i)) as [->|Hne].
    + assert (q = doomed p) as -> by congruence. exact (Hclean i p Hp Hu).
    + cbn in Hq. rewrite list_lookup_insert_ne in Hq by done. by eapply Hclean.
  - destruct Ha as (tf & us & pt & m & fl' & Hrun & _).
    eexists k1, _, (born (k_nextpid k) tf us pt (doomed p)). split_and!; [done|exact Hrun| |done..].
    cbn. apply list_lookup_insert_eq. rewrite length_insert. by apply lookup_lt_Some in Hp.
  - destruct Ha as (m & fl' & _ & _ & _ & _ & Hle). lia.
Qed.

End procspec.
