(* ===== verification/PipeSpec.v ===== *)
(** * Specification of pipes

    The ring buffer of a pipe, with its two 32-bit counters that wrap around,
    implements a bounded queue of bytes; [pipewrite] appends user bytes to it
    and [piperead] takes them from its front. *)

From S2P Require Import Prelude Riscv Machine Spinlock PhysMem Kalloc PageTable Vm VmSpec VmCopy Kernel Sched Sleeplock Pipe Thread SchedSpec.

(** ** The ring buffer *)

Definition pipe_count (p : pipe) : nat := Z.to_nat (u32 (pi_nwrite p - pi_nread p)).

(** The byte at position [n] of the stream. *)
Definition pipe_at (p : pipe) (n : Z) : Z := default 0 (pi_data p !! Z.to_nat (n mod PIPESIZE)).

(** The bytes in the pipe, oldest first. *)
Definition pipe_queue (p : pipe) : list Z :=
  (fun j => pipe_at p (pi_nread p + Z.of_nat j)) <$> seq 0 (pipe_count p).

Record pipe_ok (p : pipe) : Prop := {
  po_data : length (pi_data p) = Z.to_nat PIPESIZE;
  po_bytes : Forall (fun b => 0 <= b < 256) (pi_data p);
  po_nread : 0 <= pi_nread p < 2 ^ 32;
  po_nwrite : 0 <= pi_nwrite p < 2 ^ 32;
  po_count : Z.of_nat (pipe_count p) <= PIPESIZE
}.

Lemma length_pipe_queue p : length (pipe_queue p) = pipe_count p.
Proof. unfold pipe_queue. by rewrite length_fmap, length_seq. Qed.

(** The counter [n] is [j] steps after [m]. *)
Lemma count_spec p : pipe_ok p -> pi_nwrite p = u32 (pi_nread p + Z.of_nat (pipe_count p)).
Proof.
  intros [_ _ Hr Hw _]. unfold pipe_count, u32. rewrite Z2Nat.id by (apply Z.mod_pos_bound; lia).
  rewrite Z.add_mod_idemp_r by lia. replace (pi_nread p + (pi_nwrite p - pi_nread p)) with (pi_nwrite p) by lia.
  symmetry. by apply Z.mod_small.
Qed.

Lemma ring_mod a : u32 a mod PIPESIZE = a mod PIPESIZE.
Proof. unfold u32, PIPESIZE. Z.div_mod_to_equations. lia. Qed.

Lemma pipe_empty_spec p : pipe_ok p -> pipe_empty p = bool_decide (pipe_queue p = []).
Proof.
  intros Hp. pose proof (length_pipe_queue p) as Hl. destruct Hp as [_ _ Hr Hw _].
  unfold pipe_empty. unfold pipe_count, u32 in Hl. case_bool_decide as E.
  - rewrite E in Hl. cbn in Hl. apply Z.eqb_eq. Z.div_mod_to_equations. lia.
  - apply Z.eqb_neq. intros Heq. apply E, nil_length_inv. rewrite Hl, Heq, Z.sub_diag. done.
Qed.

Lemma pipe_full_spec p : pipe_ok p -> pipe_full p = bool_decide (length (pipe_queue p) = Z.to_nat PIPESIZE).
Proof.
  intros Hp. rewrite length_pipe_queue. pose proof Hp as [_ _ Hr Hw Hc].
  unfold pipe_full, pipe_count, u32, PIPESIZE in *. case_bool_decide as E.
  - apply Z.eqb_eq. Z.div_mod_to_equations. lia.
  - apply Z.eqb_neq. intros Heq. apply E. Z.div_mod_to_equations. lia.
Qed.

Lemma pipe_put_spec ch p :
  pipe_ok p -> pipe_full p = false -> 0 <= ch < 256 ->
  pipe_ok (pipe_put ch p) /\ pipe_queue (pipe_put ch p) = pipe_queue p ++ [ch].
Proof.
  intros Hp Hf Hch. rewrite pipe_full_spec, bool_decide_eq_false in Hf by done. rewrite length_pipe_queue in Hf.
  pose proof Hp as [Hd Hb Hr Hw Hc].
  assert (pipe_count (pipe_put ch p) = S (pipe_count p)) as Ec.
  { unfold pipe_count, pipe_put, u32, PIPESIZE in *. cbn. Z.div_mod_to_equations. lia. }
  pose proof (count_spec p Hp) as Ew.
  assert (Z.of_nat (pipe_count p) < PIPESIZE) as Hlt by (unfold PIPESIZE in *; lia).
  assert (pipe_ok (pipe_put ch p)) as Hok.
  { split; [by cbn; rewrite length_insert| |done|cbn; apply u32_range|rewrite Ec; unfold PIPESIZE in *; lia].
    cbn. by apply Forall_insert. }
  split; [done|]. unfold pipe_queue. rewrite Ec, seq_S, fmap_app. cbn [fmap list_fmap Nat.add].
  f_equal.
  - apply list_fmap_ext. intros i j [-> Hj]%lookup_seq. unfold pipe_at. cbn.
    rewrite list_lookup_insert_ne; [done|]. rewrite Ew, ring_mod.
    unfold PIPESIZE in *. Z.div_mod_to_equations. lia.
  - f_equal. unfold pipe_at. cbn. rewrite Ew, ring_mod, list_lookup_insert_eq; [done|].
    rewrite Hd. unfold PIPESIZE. Z.div_mod_to_equations. lia.
Qed.

Lemma pipe_take_spec p :
  pipe_ok p -> pipe_empty p = false ->
  pipe_ok (pipe_take p) /\ pipe_queue p = pipe_front p :: pipe_queue (pipe_take p) /\ 0 <= pipe_front p < 256.
Proof.
  intros Hp He. rewrite pipe_empty_spec, bool_decide_eq_false in He by done. pose proof Hp as [Hd Hb Hr Hw Hc].
  assert (pipe_count p <> O) as Hne.
  { intros E. apply He, nil_length_inv. by rewrite length_pipe_queue. }
  assert (pipe_count p = S (pipe_count (pipe_take p))) as Ec.
  { unfold pipe_count, pipe_take, u32, PIPESIZE in *. cbn. Z.div_mod_to_equations. lia. }
  split; [|split].
  - split; [done|done|cbn; apply u32_range|done|lia].
  - unfold pipe_queue at 1. rewrite Ec. cbn [seq fmap list_fmap]. f_equal; [change (pipe_front p) with (pipe_at p (pi_nread p)); f_equal; lia|].
    rewrite <- fmap_S_seq, <- list_fmap_compose. apply list_fmap_ext. intros i j _. unfold pipe_at, compose. cbn [pi_data pi_nread].
    change (pi_data (pipe_take p)) with (pi_data p). change (pi_nread (pipe_take p)) with (u32 (pi_nread p + 1)).
    rewrite <- (Z.add_mod_idemp_l (u32 _)), ring_mod, Z.add_mod_idemp_l by done.
    do 4 f_equal. lia.
  - unfold pipe_front. destruct (pi_data p !! _) as [b|] eqn:Hx; cbn; [|lia]. exact (Forall_lookup_1 _ _ _ _ Hb Hx).
Qed.

(** ** Refinement of a bounded queue *)

(** One byte in or out. *)
Inductive pipe_op := Put (ch : Z) | Take.

(** What an operation gives: it blocks, it is done, or it returns a byte. *)
Inductive pipe_res := Blocks | Done | Byte (ch : Z).

(** A byte of [pipewrite] and of [piperead] on the ring buffer. *)
Definition ring_op (o : pipe_op) (p : pipe) : pipe_res * pipe :=
  match o with
  | Put ch => if pipe_full p then (Blocks, p) else (Done, pipe_put ch p)
  | Take => if pipe_empty p then (Blocks, p) else (Byte (pipe_front p), pipe_take p)
  end.

(** The same on a queue of at most [PIPESIZE] bytes. *)
Definition queue_op (o : pipe_op) (q : list Z) : pipe_res * list Z :=
  match o with
  | Put ch => if decide (length q = Z.to_nat PIPESIZE) then (Blocks, q) else (Done, q ++ [ch])
  | Take => match q with [] => (Blocks, q) | ch :: q' => (Byte ch, q') end
  end.

Fixpoint run_ops {S} (step : pipe_op -> S -> pipe_res * S) (os : list pipe_op) (s : S) : list pipe_res * S :=
  match os with
  | [] => ([], s)
  | o :: os' => let '(r, s1) := step o s in let '(rs, s2) := run_ops step os' s1 in (r :: rs, s2)
  end.

Definition op_ok (o : pipe_op) : Prop := match o with Put ch => 0 <= ch < 256 | Take => True end.

Lemma ring_op_refines o p :
  pipe_ok p -> op_ok o ->
  pipe_ok (ring_op o p).2 /\ queue_op o (pipe_queue p) = ((ring_op o p).1, pipe_queue (ring_op o p).2).
Proof.
  intros Hp Ho. destruct o as [ch|]; cbn [ring_op queue_op].
  - destruct (pipe_full p) eqn:Hf; pose proof Hf as E; rewrite pipe_full_spec in E by done.
    + apply bool_decide_eq_true in E. split; [done|]. by rewrite decide_True.
    + apply bool_decide_eq_false in E. rewrite decide_False by done.
      destruct (pipe_put_spec ch p Hp Hf Ho) as [Hok Hq]. split; [done|]. cbn. by rewrite Hq.
  - destruct (pipe_empty p) eqn:He; pose proof He as E; rewrite pipe_empty_spec in E by done.
    + apply bool_decide_eq_true in E. split; [done|]. by rewrite E; cbn; rewrite E.
    + destruct (pipe_take_spec p Hp He) as (Hok & Hq & _). split; [done|]. by rewrite Hq.
Qed.

(** C28: A pipe is a first-in first-out queue. Any sequence of byte writes and
    reads on the ring buffer gives the results it gives on a queue of at most
    512 bytes, across any number of wrap-arounds of the 32-bit counters and
    of the buffer: bytes come out once, in the order they went in, and an
    operation blocks exactly when the queue is full or empty. *)
Theorem pipe_refines_queue os p :
  pipe_ok p -> Forall op_ok os ->
  pipe_ok (run_ops ring_op os p).2 /\
  run_ops queue_op os (pipe_queue p) = ((run_ops ring_op os p).1, pipe_queue (run_ops ring_op os p).2).
Proof.
  intros Hp Hos. revert p Hp. induction Hos as [|o os Ho _ IH]; intros p Hp; [done|]. cbn [run_ops].
  destruct (ring_op_refines o p Hp Ho) as [Hp' E]. rewrite E. destruct (ring_op o p) as [r p1]. cbn in Hp', E |- *.
  destruct (IH p1 Hp') as [Hp2 E2]. rewrite E2. by destruct (run_ops ring_op os p1).
Qed.

(** ** [pipewrite] and [piperead] *)

(** The user bytes from [addr] on, at most [n], up to the first address that
    is not mapped for the user. *)
Fixpoint user_bytes (m : gmap Z Z) (pt addr : Z) (n : nat) : list Z :=
  match n with
  | O => []
  | S n' => match ubyte m pt addr with Some b => b :: user_bytes m pt (addr + 1) n' | None => [] end
  end.

Section pipespec.
Context `{KernelLayout} `{Platform} `{Fuel}.
Implicit Types k : kernel.

(** The kernel with pipe [p] at [pi]. *)
Definition with_pipe (pi : Z) (p : pipe) (k : kernel) : kernel := k <| k_pipes ::= fun t => <[pi := p]> t |>.

Lemma set_pipe_run pi f p k : set_pipe pi f (with_pipe pi p k) = Ok tt (with_pipe pi (f p) k).
Proof.
  unfold set_pipe, modify, with_pipe. f_equal. unfold upd. cbn. f_equal.
  apply map_eq. intros j. destruct (decide (j = pi)) as [->|Hne].
  - by rewrite lookup_alter_eq, !lookup_insert_eq.
  - by rewrite lookup_alter_ne, !lookup_insert_ne by done.
Qed.

Lemma get_pipe_run pi p k : get_pipe pi (with_pipe pi p k) = Ok p (with_pipe pi p k).
Proof. unfold get_pipe, with_pipe. cbn. by rewrite lookup_insert_eq. Qed.

Lemma with_pipe_id pi p k : k_pipes k !! pi = Some p -> with_pipe pi p k = k.
Proof.
  intros Hp. unfold with_pipe. transitivity (k <| k_pipes := k_pipes k |>); [|by destruct k].
  unfold upd. cbn. by rewrite insert_id.
Qed.

(** One byte of [copyin]. *)
Lemma copyin_byte pt va m :
  pt_wf 2 (m_mem m) pt [] -> 0 <= va < 2 ^ 64 ->
  match ubyte (m_mem m) pt va with
  | Some b => copyin pt va 1 m = Ok (0, [b]) m
  | None => copyin pt va 1 m = Ok (-1, []) m
  end.
Proof.
  intros Hwf Hva. destruct (copyin_run pt va 1 m) as (r & bs & E & Hb & Hr); [done|done|lia|]. rewrite E.
  destruct Hr as [[-> Hl]|(-> & Hl & Hn)].
  - destruct bs as [|b [|]]; [cbn in Hl; lia| |cbn in Hl; lia].
    specialize (Hb O b eq_refl). rewrite Z.add_0_r in Hb. by rewrite Hb.
  - destruct bs as [|]; [|cbn in Hl; lia]. cbn in Hn. rewrite Z.add_0_r in Hn. by rewrite Hn.
Qed.

Lemma ubyte_range m pt va b : ubyte m pt va = Some b -> 0 <= b < 256.
Proof. unfold ubyte. destruct (upa m pt va); [|done]. intros [= <-]. apply load8_range. Qed.

Lemma write_loop_run me pi addr n q k :
  calm [] me k -> k_proc k !! me = Some q -> p_killed q = 0 ->
  pt_wf 2 (m_mem (k_m k)) (p_pagetable q) [] -> 0 <= addr -> addr + n <= 2 ^ 64 ->
  forall fuel i p, pipe_ok p -> pi_readopen p <> 0 -> 0 <= i <= n ->
  Z.of_nat (length (pipe_queue p)) + (n - i) <= PIPESIZE -> n - i < Z.of_nat fuel ->
  exists p', let bs := user_bytes (m_mem (k_m k)) (p_pagetable q) (addr + i) (Z.to_nat (n - i)) in
    pipewrite_loop fuel me pi addr n i (klocking (pipe_lock pi) (with_pipe pi p k)) =
      Ok (inl (i + Z.of_nat (length bs))) (klocking (pipe_lock pi) (with_pipe pi p' k)) /\
    pipe_ok p' /\ pipe_queue p' = pipe_queue p ++ bs /\ pi_readopen p' = pi_readopen p /\ pi_writeopen p' = pi_writeopen p.
Proof.
  intros Hc Hq Hkill Hwf Ha Hmax fuel. induction fuel as [|fuel IH]; intros i p Hp Hro Hi Hroom Hfuel; [lia|].
  cbn [pipewrite_loop]. destruct (Z.ltb_spec i n) as [Hin|Hin]; cbn [negb].
  2: { exists p. replace (n - i) with 0 by lia. cbn. rewrite Z.add_0_r, app_nil_r. by split_and!. }
  set (kk := klocking (pipe_lock pi) (with_pipe pi p k)).
  assert (get_pipe pi kk = Ok p kk) as Hget by exact (get_pipe_run pi p (klocking (pipe_lock pi) k)).
  assert (calm [pipe_lock pi] me kk) as Hck by exact (calm_klocking [] me (pipe_lock pi) (with_pipe pi p k) Hc).
  erewrite bind_ok by exact Hget. apply Z.eqb_neq in Hro as Hro'. rewrite Hro'.
  erewrite bind_ok.
  2: { erewrite bind_ok; [|eapply killed_run; [exact Hck|by apply not_elem_of_cons; split; [|apply not_elem_of_nil]|exact Hq]]. reflexivity. }
  rewrite Hkill. cbn [ctrue Z.eqb negb]. erewrite bind_ok by exact Hget.
  assert (pipe_full p = false) as Hfull.
  { rewrite pipe_full_spec by done. apply bool_decide_eq_false. unfold PIPESIZE in *. lia. }
  rewrite Hfull. unfold get_proc. erewrite bind_ok by (apply get_entry; exact Hq).
  rewrite u64_small by lia. pose proof (copyin_byte (p_pagetable q) (addr + i) (k_m kk) Hwf ltac:(lia)) as Hcp.
  change (m_mem (k_m kk)) with (m_mem (k_m k)) in Hcp.
  assert (Z.to_nat (n - i) = S (Z.to_nat (n - (i + 1)))) as -> by lia. cbn [user_bytes].
  destruct (ubyte (m_mem (k_m k)) (p_pagetable q) (addr + i)) as [b|] eqn:Hb.
  - erewrite bind_ok by (apply mach_state; exact Hcp). apply ubyte_range in Hb.
    destruct (pipe_put_spec b p Hp Hfull Hb) as [Hp' Hq'].
    erewrite bind_ok by exact (set_pipe_run pi (pipe_put b) p (klocking (pipe_lock pi) k)).
    destruct (IH (i + 1) (pipe_put b p)) as (p' & E & Hok & Hqq & Hr & Hw); [done|done|lia| |lia|].
    { rewrite Hq', length_app. cbn. lia. }
    replace (addr + i + 1) with (addr + (i + 1)) by lia. exists p'. split_and!; [|done| |done|done].
    + etransitivity; [exact E|]. do 2 f_equal. cbn [length]. lia.
    + rewrite Hqq, Hq', <- app_assoc. done.
  - erewrite bind_ok by (apply mach_state; exact Hcp). cbv beta iota. exists p. cbn [length]. rewrite Z.add_0_r, app_nil_r.
    by split_and!.
Qed.

(** C38: [pipewrite] of [n] bytes to a pipe with room for them, whose read end
    is open, appends to the queue exactly the user's bytes up to the first
    one that is not mapped, wakes the readers up, and returns how many it
    appended; it changes nothing else. *)
Theorem pipewrite_spec me pi addr n p q k :
  calm [] me k -> lock_free (pipe_lock pi) (k_m k) -> wait_fuel <> O ->
  k_pipes k !! pi = Some p -> pipe_ok p -> pi_readopen p <> 0 ->
  k_proc k !! me = Some q -> p_killed q = 0 -> pt_wf 2 (m_mem (k_m k)) (p_pagetable q) [] ->
  0 <= addr -> 0 <= n -> addr + n <= 2 ^ 64 -> Z.of_nat (length (pipe_queue p)) + n <= PIPESIZE ->
  exists p', let bs := user_bytes (m_mem (k_m k)) (p_pagetable q) addr (Z.to_nat n) in
    pipewrite pi addr n k =
      Ok (Z.of_nat (length bs)) (with_pipe pi p' k <| k_proc ::= imap (wake me (Some (ch_nread pi))) |>) /\
    pipe_ok p' /\ pipe_queue p' = pipe_queue p ++ bs /\
    pi_readopen p' = pi_readopen p /\ pi_writeopen p' = pi_writeopen p.
Proof.
  intros Hc Hl Hfuel Hpi Hp Hro Hq Hkill Hwf Ha Hn Hmax Hroom. pose proof Hc as (Hs & _ & Hr & _).
  destruct (write_loop_run me pi addr n q k Hc Hq Hkill Hwf Ha Hmax (Z.to_nat n + wait_fuel) 0 p)
    as (p' & E & Hok & Hqq & Hrr & Hww); [done|done|lia|lia|lia|]. rewrite Z.add_0_r, Z.sub_0_r in *. exists p'.
  split_and!; [|done..]. unfold pipewrite. erewrite bind_ok by by apply curproc_calm.
  erewrite bind_ok by by apply kacquire. rewrite <- (with_pipe_id pi p k Hpi) at 1.
  erewrite bind_ok by exact E. rewrite Z.add_0_l.
  erewrite bind_ok by (apply (wakeup_run [pipe_lock pi] me); [exact (calm_klocking [] me (pipe_lock pi) (with_pipe pi p' k) Hc)|
    intros j; by apply not_elem_of_cons; split; [|apply not_elem_of_nil]]).
  erewrite bind_ok by (eapply (krelease _ _ (k_m k)); [exact Hs|exact Hl|done]). done.
Qed.

(** The user bytes the first [c] bytes of [q] were copied to. *)
Definition delivered (m m' : gmap Z Z) (pt addr : Z) (c : nat) (q : list Z) : Prop :=
  forall va, 0 <= va -> ubyte m' pt va =
    if decide (addr <= va < addr + Z.of_nat c) then q !! Z.to_nat (va - addr) else ubyte m pt va.

(** The kernel with machine [m] and pipe [p] at [pi]. *)
Definition piping (pi : Z) (m : machine) (p : pipe) (k : kernel) : kernel := with_pipe pi p (k <| k_m := m |>).

(** One byte of [copyout]. *)
Lemma copyout_byte D fl pt va b m :
  vm_inv D fl pt m -> umap_ok D (m_mem m) pt -> 0 <= va < 2 ^ 64 -> 0 <= b < 256 ->
  exists r m', copyout pt va [b] m = Ok r m' /\ vm_inv D fl pt m' /\ vm_frame D m m' /\
    umap_ok D (m_mem m') pt /\
    (r = 0 /\ delivered (m_mem m) (m_mem m') pt va 1 [b] \/
     r = -1 /\ delivered (m_mem m) (m_mem m') pt va 0 [] /\ ubyte (m_mem m) pt va = None).
Proof.
  intros Hinv Hu Hva Hb. destruct (copyout_run D fl pt va [b] m) as (r & m' & c & E & Hi & Hf & Hl & Hby & Hr);
    [done|done|done|by apply Forall_singleton|]. exists r, m'. split_and!; [done|done|done|by eapply umap_ok_lookup|].
  destruct Hr as [(-> & -> & _)|(-> & Hc & Hn)]; [left|right].
  - split; [done|]. exact Hby.
  - cbn in Hc. assert (c = O) as -> by lia. rewrite Z.add_0_r in Hn. split_and!; [done| |done].
    intros x Hx. rewrite Hby by done. rewrite !decide_False by lia. done.
Qed.

Lemma read_copy_run me pi addr pr D fl k n :
  k_proc k !! me = Some pr -> 0 <= addr -> addr + n <= 2 ^ 64 ->
  forall left i p m, pipe_ok p -> 0 <= i -> i + Z.of_nat left = n ->
  vm_inv D fl (p_pagetable pr) m -> umap_ok D (m_mem m) (p_pagetable pr) ->
  exists r m' p' c, let q := pipe_queue p in let c0 := Nat.min left (length q) in
    piperead_copy left me pi addr i (piping pi m p k) = Ok (i + Z.of_nat r) (piping pi m' p' k) /\
    vm_inv D fl (p_pagetable pr) m' /\ vm_frame D m m' /\ pipe_ok p' /\
    pi_readopen p' = pi_readopen p /\ pi_writeopen p' = pi_writeopen p /\
    delivered (m_mem m) (m_mem m') (p_pagetable pr) (addr + i) r q /\ pipe_queue p' = drop c q /\
    (r = c0 /\ c = c0 \/ (r < c0)%nat /\ c = S r /\ ubyte (m_mem m) (p_pagetable pr) (addr + i + Z.of_nat r) = None).
Proof.
  intros Hpr Ha Hmax left. induction left as [|left IH]; intros i p m Hp Hi Hin Hinv Hu; cbn [piperead_copy].
  { exists O, m, p, O. cbn. rewrite Z.add_0_r. split_and!; try done; [|by left].
    intros va Hva. rewrite decide_False by lia. done. }
  assert (get_pipe pi (piping pi m p k) = Ok p (piping pi m p k)) as Hget by apply get_pipe_run.
  erewrite bind_ok by exact Hget. destruct (pipe_empty p) eqn:He; pose proof He as He'; rewrite pipe_empty_spec in He' by done.
  { apply bool_decide_eq_true in He'. exists O, m, p, O. rewrite He'. cbn. rewrite Z.add_0_r. split_and!; try done; [|by left].
    intros va Hva. rewrite decide_False by lia. done. }
  clear He'. destruct (pipe_take_spec p Hp He) as (Hp1 & Hq1 & Hb).
  erewrite bind_ok by apply set_pipe_run. unfold get_proc. erewrite bind_ok by (apply get_entry; exact Hpr).
  rewrite u64_small by lia.
  destruct (copyout_byte D fl (p_pagetable pr) (addr + i) (pipe_front p) m Hinv Hu ltac:(lia) Hb)
    as (r & m1 & E1 & Hinv1 & Hf1 & Hu1 & Hr).
  erewrite bind_ok by (eapply mach_ok; exact E1). cbv beta. rewrite Hq1. cbn [length].
  destruct Hr as [[-> Hd]|(-> & Hd & Hn)]; cbn [Z.eqb Pos.eqb].
  - destruct (IH (i + 1) (pipe_take p) m1) as (r & m2 & p2 & c & E2 & Hi2 & Hf2 & Hp2 & Hro & Hwo & Hd2 & Hq2 & Hr2);
      [done|lia|lia|done|done|].
    exists (S r), m2, p2, (S c). split_and!; try done.
    + etransitivity; [exact E2|]. f_equal. lia.
    + by eapply vm_frame_trans.
    + intros va Hva. rewrite Hd2, Hd by done. destruct (decide (va = addr + i)) as [->|Hne].
      * rewrite decide_False, decide_True, decide_True by lia. by rewrite Z.sub_diag.
      * destruct (decide (addr + (i + 1) <= va < addr + (i + 1) + Z.of_nat r)).
        -- rewrite decide_True by lia.
           replace (Z.to_nat (va - (addr + i))) with (S (Z.to_nat (va - (addr + (i + 1))))) by lia. done.
        -- rewrite !decide_False by lia. done.
    + destruct Hr2 as [[-> ->]|(Hlt & -> & Hn)]; [left; lia|right]. split_and!; [lia|done|].
      rewrite Hd in Hn by lia. rewrite decide_False in Hn by lia. rewrite <- Hn. f_equal. lia.
  - exists O, m1, (pipe_take p), 1%nat. rewrite Z.add_0_r. split_and!; try done; [by intros va Hva; rewrite Hd by done; rewrite !decide_False by lia|].
    right. split_and!; [lia|done|]. by rewrite Z.add_0_r.
Qed.

Lemma calm_piping held me pi m p k :
  calm held me k -> m_core m = m_core (k_m k) -> m_locks m = m_locks (k_m k) -> calm held me (piping pi m p k).
Proof.
  intros (Hs & Hl & (u & Hu & Hr) & Hn & Hm) Hc Hk. split_and!; [cbn; by rewrite Hc| | |done|done].
  - intros lk Hst Hh. destruct (Hl lk Hst Hh) as [name E]. exists name. cbn. by rewrite Hk.
  - exists u. cbn. by rewrite Hc.
Qed.

(** [piperead] of at most [n] bytes from a pipe that is not empty, or has
    no writer left, copies bytes from the front of the queue to the user's
    memory, in order, wakes the writers up, and returns how many it copied:
    all there are up to [n], or, when the user's page is not mapped, those
    before it - then the byte that could not be copied is lost too. Nothing
    else in the user's memory changes. *)
Theorem piperead_spec me pi addr n p pr D fl k :
  calm [] me k -> lock_free (pipe_lock pi) (k_m k) -> wait_fuel <> O ->
  k_pipes k !! pi = Some p -> pipe_ok p -> (pipe_queue p <> [] \/ pi_writeopen p = 0) ->
  k_proc k !! me = Some pr -> vm_inv D fl (p_pagetable pr) (k_m k) -> umap_ok D (m_mem (k_m k)) (p_pagetable pr) ->
  0 <= addr -> 0 <= n -> addr + n <= 2 ^ 64 ->
  exists r m' p' c, let q := pipe_queue p in let c0 := Nat.min (Z.to_nat n) (length q) in
    piperead pi addr n k = Ok (Z.of_nat r) ((piping pi m' p' k) <| k_proc ::= imap (wake me (Some (ch_nwrite pi))) |>) /\
    vm_frame D (k_m k) m' /\ pipe_ok p' /\ pi_writeopen p' = pi_writeopen p /\
    delivered (m_mem (k_m k)) (m_mem m') (p_pagetable pr) addr r q /\ pipe_queue p' = drop c q /\
    (r = c0 /\ c = c0 \/ (r < c0)%nat /\ c = S r /\ ubyte (m_mem (k_m k)) (p_pagetable pr) (addr + Z.of_nat r) = None).
Proof.
  intros Hc Hl Hfuel Hpi Hp Hready Hpr Hinv Hu Ha Hn Hmax. pose proof Hc as (Hs & _ & Hr & _).
  pose proof (settled_wf _ Hs) as Hwf. set (lk := pipe_lock pi).
  assert (vm_inv D fl (p_pagetable pr) (locking lk (k_m k))) as Hinv'.
  { destruct Hinv as ([Hs' Hkl] & Hk & Hw & Hd). split_and!; [|done..]. split; [by apply settled_pushed|by apply lock_free_locking]. }
  destruct (read_copy_run me pi addr pr D fl k n Hpr Ha Hmax (Z.to_nat n) 0 p (locking lk (k_m k)))
    as (r & m1 & p' & c & E & Hi1 & Hf1 & Hp' & Hro & Hwo & Hd & Hq & Hres); [done|lia|lia|done|done|].
  rewrite Z.add_0_l, Z.add_0_r in *. pose proof Hf1 as (Hc1 & Hl1 & Hm1).
  exists r, (m1 <| m_core := m_core (k_m k) |> <| m_locks := m_locks (k_m k) |>), p', c.
  split_and!; [|split_and!; [done|done|exact Hm1]|done..].
  unfold piperead. erewrite bind_ok by by apply curproc_calm. fold lk. erewrite bind_ok by by apply kacquire.
  assert (klocking lk k = piping pi (locking lk (k_m k)) p k) as ->.
  { unfold piping. rewrite with_pipe_id by exact Hpi. done. }
  erewrite bind_ok.
  2: { destruct wait_fuel as [|f]; [done|]. cbn [piperead_wait]. erewrite bind_ok by apply get_pipe_run.
       rewrite pipe_empty_spec by done. destruct Hready as [Hne| ->]; [|rewrite andb_false_r; reflexivity].
       rewrite bool_decide_eq_false_2 by done. reflexivity. }
  cbv beta iota. erewrite bind_ok by exact E.
  erewrite bind_ok by (apply (wakeup_run [lk] me); [exact (calm_piping [lk] me pi m1 p' (klocking lk k) (calm_klocking [] me lk k Hc) Hc1 Hl1)|
    intros j; by apply not_elem_of_cons; split; [|apply not_elem_of_nil]]).
  erewrite bind_ok; [|eapply mach_ok, release_held; [exact Hwf|exact Hl|exact Hc1|exact Hl1]].
  by rewrite settle_id.
Qed.

End pipespec.
