(* ===== verification/PgAccess.v ===== *)
(** * Specification of [pgaccess]

    Which page-table entries [pgaccess] reads and clears, the mask it
    reports, and what it does for addresses beyond the page table. *)

From S2P Require Import Prelude Riscv Machine Spinlock PhysMem Kalloc PageTable Vm VmSpec VmCopy Bytes Kernel Sched Sleeplock Bio Log Fs Pipe Console File Proc Uart Printf Exec Sysfile Thread SchedSpec.

(** The leaf entry for [va], valid or not; 0 where there is none. *)
Definition pte_at (m : gmap Z Z) (pt va : Z) : Z :=
  match leaf_addr 2 m pt va with Some r => load64 m r | None => 0 end.

(** [pte & ~PTE_A] *)
Definition clear_A (v : Z) : Z := Z.land v (Z.lnot PTE_A).

Lemma clear_A_bit v j : 0 <= j -> Z.testbit (clear_A v) j = Z.testbit v j && negb (j =? 6).
Proof.
  intros Hj. unfold clear_A. rewrite Z.land_spec, Z.lnot_spec by done. f_equal. f_equal.
  unfold PTE_A. rewrite Z.shiftl_spec, Z.eqb_sym by done. destruct (Z.eqb_spec 6 j) as [<-|]; [done|].
  destruct (Z.ltb_spec j 6); [by apply Z.testbit_neg_r; lia|].
  apply Z.bits_above_log2; [lia|]. cbn. lia.
Qed.

Lemma clear_A_range v : 0 <= v < 2 ^ 64 -> 0 <= clear_A v < 2 ^ 64.
Proof.
  intros Hv. assert (clear_A v = clear_A v mod 2 ^ 64) as ->; [|apply Z.mod_pos_bound; lia].
  apply Z.bits_inj'. intros j Hj. destruct (Z.lt_ge_cases j 64).
  - by rewrite Z.mod_pow2_bits_low.
  - rewrite Z.mod_pow2_bits_high, clear_A_bit by lia. rewrite <- (Z.mod_small v (2 ^ 64)) by lia.
    by rewrite Z.mod_pow2_bits_high by lia.
Qed.

Lemma clear_A_flag v j : 0 <= j -> has_flag (clear_A v) (Z.shiftl 1 j) = has_flag v (Z.shiftl 1 j) && negb (j =? 6).
Proof. intros Hj. rewrite !has_flag_bit by done. by apply clear_A_bit. Qed.

Lemma clear_A_PA v : PTE2PA (clear_A v) = PTE2PA v.
Proof.
  unfold PTE2PA. do 2 f_equal. apply Z.bits_inj'. intros j Hj. rewrite !Z.shiftr_spec, clear_A_bit by lia.
  destruct (Z.eqb_spec (j + 10) 6); [lia|]. apply andb_true_r.
Qed.

Section pgaccess.
Context `{KernelLayout}.

Lemma pte_at_range m pt va : 0 <= pte_at m pt va < 2 ^ 64.
Proof. unfold pte_at. destruct (leaf_addr 2 m pt va); [apply load64_range|lia]. Qed.

Lemma lookup_pte_at m pt va :
  pt_lookup m pt va = if has_flag (pte_at m pt va) PTE_V then Some (pte_at m pt va) else None.
Proof.
  unfold pte_at. destruct (leaf_addr 2 m pt va) eqn:E; [by apply lookup_leaf|by apply lookup_no_leaf].
Qed.

(** The entry of another page. *)
Lemma pte_at_stored m pt va a v va' :
  pt_wf 2 m pt [] -> 0 <= va < 2 ^ 39 -> 0 <= va' < 2 ^ 39 -> leaf_addr 2 m pt va = Some a -> 0 <= v < 2 ^ 64 ->
  pte_at (store64 a v m) pt va' = if decide (va / 4096 = va' / 4096) then v else pte_at m pt va'.
Proof.
  intros Hwf Hva Hva' Ha Hv. destruct (store_leaf_shape 2 m pt va a v Hwf Ha) as (_ & Hl & _).
  pose proof (same_leaf_page va va' Hva Hva') as Hiff. unfold pte_at. rewrite Hl.
  destruct (leaf_addr 2 m pt va') as [a'|] eqn:Ha'.
  - destruct (leaf_addr_inj 2 m pt va va' a a' Hwf Ha Ha') as [[Hs <-]|[Hs Hd]]; rewrite Hiff in Hs.
    + rewrite decide_True by done. by apply load64_store64.
    + rewrite decide_False by done. by apply load64_store64_out; lia.
  - rewrite decide_False; [done|]. intros E. rewrite <- Hiff in E.
    rewrite (same_leaf_addr 2 m pt va va' E) in Ha'. congruence.
Qed.

(** Page [j] of the range. *)
Definition accessed (m : gmap Z Z) (pt va j : Z) : bool := has_flag (pte_at m pt (va + j * 4096)) PTE_A.

(** The entries after pages [i, i + c) of the range were cleared. *)
Definition cleared (m m' : gmap Z Z) (pt va i c : Z) : Prop :=
  forall va', 0 <= va' < 2 ^ 39 -> pte_at m' pt va' =
    if decide (va / 4096 + i <= va' / 4096 < va / 4096 + i + c) then clear_A (pte_at m pt va') else pte_at m pt va'.

Lemma cleared_lookup m m' pt va i c va' :
  cleared m m' pt va i c -> 0 <= va' < 2 ^ 39 ->
  pt_lookup m' pt va' = if decide (va / 4096 + i <= va' / 4096 < va / 4096 + i + c)
                        then clear_A <$> pt_lookup m pt va' else pt_lookup m pt va'.
Proof.
  intros Hc Hva. rewrite !lookup_pte_at, Hc by done. case_decide; [|done].
  rewrite (clear_A_flag _ 0), andb_true_r by lia. change (Z.shiftl 1 0) with PTE_V.
  by destruct (has_flag (pte_at m pt va') PTE_V).
Qed.

(** One page. *)
Lemma access_step D fl pt m a :
  vm_inv D fl pt m -> 0 <= a < MAXVA ->
  exists pte m', walk pt a false m = Ok pte m /\ has_flag (pte_at (m_mem m) pt a) PTE_A =
      (ctrue pte && (ctrue (load64 (m_mem m) pte) && ctrue PTE_V) && has_flag (load64 (m_mem m) pte) PTE_A) /\
    (if has_flag (pte_at (m_mem m) pt a) PTE_A
     then mstore64 pte (clear_A (load64 (m_mem m) pte)) m = Ok tt m' else m' = m) /\
    vm_inv D fl pt m' /\ vm_frame (pt_pages 2 (m_mem m) pt) m m' /\
    pt_pages 2 (m_mem m') pt = pt_pages 2 (m_mem m) pt /\ cleared (m_mem m) (m_mem m') pt a 0 1.
Proof.
  intros Hinv Ha. change MAXVA with (2 ^ 38) in Ha. pose proof (vm_inv_wf0 _ _ _ _ Hinv) as Hwf.
  assert (forall va', has_flag (pte_at (m_mem m) pt a) PTE_A = false -> a / 4096 = va' / 4096 -> 0 <= va' < 2 ^ 39 ->
    clear_A (pte_at (m_mem m) pt va') = pte_at (m_mem m) pt va') as Hsame.
  { intros va' Hf E Hva'. assert (pte_at (m_mem m) pt va' = pte_at (m_mem m) pt a) as ->.
    { unfold pte_at. by rewrite (same_leaf_addr 2 (m_mem m) pt a va') by (apply same_leaf_page; lia). }
    apply Z.bits_inj'. intros j Hj. rewrite clear_A_bit by done. unfold PTE_A in Hf. rewrite has_flag_bit in Hf by lia.
    destruct (Z.eqb_spec j 6) as [->|]; [by rewrite Hf|apply andb_true_r]. }
  assert (vm_frame (pt_pages 2 (m_mem m) pt) m m) as Hrefl by apply vm_frame_refl.
  unfold pte_at at 1 2. destruct (leaf_addr 2 (m_mem m) pt a) as [r|] eqn:Hr.
  - assert (r <> 0) as Hr0.
    { destruct (leaf_addr_page _ _ _ _ _ Hr) as (p & Hp & _ & Hle & _).
      pose proof (page_ok_range _ (pt_wf_ok _ _ _ _ _ Hwf Hp)). lia. }
    assert (has_flag (load64 (m_mem m) r) PTE_A =
      ctrue r && (ctrue (load64 (m_mem m) r) && ctrue PTE_V) && has_flag (load64 (m_mem m) r) PTE_A) as Eg.
    { unfold ctrue at 1 3. apply Z.eqb_neq in Hr0 as ->. cbn [negb andb]. change (negb (PTE_V =? 0)) with true. rewrite andb_true_r.
      unfold ctrue. destruct (Z.eqb_spec (load64 (m_mem m) r) 0) as [->|]; done. }
    destruct (has_flag (load64 (m_mem m) r) PTE_A) eqn:Hf.
    + destruct (vm_store_leaf D fl pt m a r (clear_A (load64 (m_mem m) r))) as ((Hi & _) & Hfr & Hpp & _);
        [done|change MAXVA with (2 ^ 38); lia|done|apply clear_A_range, load64_range|].
      exists r, (stored r (clear_A (load64 (m_mem m) r)) m). split_and!; [|by rewrite Hf|done|done|done|done|].
      * apply walk_leaf; [change MAXVA with (2 ^ 38); lia|done].
      * intros va' Hva'. cbn. rewrite (pte_at_stored (m_mem m) pt a r) by (lia || done || apply clear_A_range, load64_range).
        destruct (decide (a / 4096 = va' / 4096)) as [E|E]; [rewrite decide_True by lia|by rewrite decide_False by lia].
        f_equal. unfold pte_at. rewrite (same_leaf_addr 2 (m_mem m) pt a va') by (apply same_leaf_page; lia). by rewrite Hr.
    + exists r, m. split_and!; [apply walk_leaf; [change MAXVA with (2 ^ 38); lia|done]|by rewrite Hf|done|done|done|done|].
      intros va' Hva'. case_decide as Ed; [|done]. symmetry. apply Hsame; [unfold pte_at; by rewrite Hr|lia|done].
  - exists 0, m. split_and!; [|done|done|done|done|done|].
    + rewrite walk_noalloc by (change MAXVA with (2 ^ 38); lia). by rewrite Hr.
    + intros va' Hva'. case_decide as Ed; [|done]. symmetry. apply Hsame; [unfold pte_at; by rewrite Hr|lia|done].
Qed.

(** The bit of page [i]. *)
Lemma bit_testbit i j : 0 <= i < 32 -> 0 <= j -> Z.testbit (u32 (Z.shiftl 1 (i mod 32))) j = (j =? i).
Proof.
  intros Hi Hj. rewrite (Z.mod_small i 32), Z.shiftl_1_l by lia. pose proof (Z.pow_pos_nonneg 2 i). pose proof (Z.pow_lt_mono_r 2 i 32).
  rewrite u32_small by lia.
  rewrite Z.pow2_bits_eqb, Z.eqb_sym by lia. done.
Qed.

Lemma cleared_nil m pt va i : cleared m m pt va i 0.
Proof. intros va' _. rewrite decide_False by lia. done. Qed.

Lemma cleared_cons m m1 m2 pt va i c :
  cleared m m1 pt (va + i * 4096) 0 1 -> cleared m1 m2 pt va (i + 1) c -> 0 <= c -> cleared m m2 pt va i (c + 1).
Proof.
  intros H1 H2 Hc va' Hva'. rewrite H2, H1 by done.
  assert ((va + i * 4096) / 4096 = va / 4096 + i) as -> by (apply Z.div_add; lia).
  repeat case_decide; done || lia.
Qed.

Lemma pgaccess_loop_run D fl pt va left :
  forall i mask m, vm_inv D fl pt m -> 0 <= va -> 0 <= i -> va + (i + Z.of_nat left) * 4096 <= MAXVA + 4095 ->
  i + Z.of_nat left <= 32 ->
  exists r m', pgaccess_loop left pt va i mask m = Ok r m' /\ vm_inv D fl pt m' /\
    vm_frame (pt_pages 2 (m_mem m) pt) m m' /\ pt_pages 2 (m_mem m') pt = pt_pages 2 (m_mem m) pt /\
    cleared (m_mem m) (m_mem m') pt va i (Z.of_nat left) /\
    forall j, 0 <= j -> Z.testbit r j =
      Z.testbit mask j || (bool_decide (i <= j < i + Z.of_nat left) && accessed (m_mem m) pt va j).
Proof.
  induction left as [|left IH]; intros i mask m Hinv Hva Hi Hmax Hle; cbn [pgaccess_loop].
  { exists mask, m. split_and!; [done|done|apply vm_frame_refl|done|apply cleared_nil|].
    intros j Hj. rewrite bool_decide_eq_false_2 by lia. by rewrite orb_false_r. }
  change MAXVA with (2 ^ 38) in *. unfold PGSIZE.
  assert (u64 (va + i * 4096) = va + i * 4096) as -> by (apply u64_small; lia).
  destruct (access_step D fl pt m (va + i * 4096)) as (pte & m1 & Hw & Hg & Hst & Hi1 & Hf1 & Hp1 & Hc1);
    [done|change MAXVA with (2 ^ 38); lia|].
  erewrite bind_ok by exact Hw. unfold mload64. mrun. rewrite <- Hg.
  change (has_flag (pte_at (m_mem m) pt (va + i * 4096)) PTE_A) with (accessed (m_mem m) pt va i) in *.
  set (mask1 := if accessed (m_mem m) pt va i then Z.lor mask (u32 (Z.shiftl 1 (i mod 32))) else mask).
  destruct (IH (i + 1) mask1 m1) as (r & m2 & E & Hi2 & Hf2 & Hp2 & Hc2 & Hb); [done|done|lia|lia|lia|].
  exists r, m2. split_and!; [|done| |congruence| |].
  - unfold mask1 in E. destruct (accessed (m_mem m) pt va i); [|by rewrite <- E, Hst].
    erewrite bind_ok by exact Hst. exact E.
  - eapply vm_frame_trans; [exact Hf1|]. by rewrite <- Hp1.
  - replace (Z.of_nat (S left)) with (Z.of_nat left + 1) by lia. eapply cleared_cons; [exact Hc1|exact Hc2|lia].
  - intros j Hj. rewrite Hb by done.
    assert (Z.testbit mask1 j = Z.testbit mask j || ((j =? i) && accessed (m_mem m) pt va i)) as ->.
    { unfold mask1. destruct (accessed (m_mem m) pt va i); [|by rewrite andb_false_r, orb_false_r].
      rewrite Z.lor_spec, bit_testbit by lia. by rewrite andb_true_r. }
    assert (i < j -> i + 1 <= j < i + 1 + Z.of_nat left -> accessed (m_mem m1) pt va j = accessed (m_mem m) pt va j) as Hacc.
    { intros Hlt Hin. unfold accessed. rewrite Hc1 by lia. rewrite decide_False; [done|].
      rewrite Z.div_add by lia. rewrite Z.div_add by lia. lia. }
    destruct (Z.eqb_spec j i) as [->|Hne].
    + rewrite (bool_decide_eq_false_2 (i + 1 <= _ < _)), (bool_decide_eq_true_2 (i <= _ < _)) by lia. by rewrite !andb_true_l, andb_false_l, orb_false_r.
    + destruct (decide (i + 1 <= j < i + 1 + Z.of_nat left)) as [Hin|Hout].
      * rewrite !bool_decide_eq_true_2 by lia. rewrite Hacc by lia. by rewrite andb_false_l, orb_false_r.
      * rewrite !bool_decide_eq_false_2 by lia. by rewrite !andb_false_l, !orb_false_r.
Qed.

(** Clearing the accessed bits does not change what the user sees. *)
Lemma cleared_ubyte D fl pt m m' va i c x :
  vm_inv D fl pt m -> umap_ok D (m_mem m) pt -> vm_frame (pt_pages 2 (m_mem m) pt) m m' ->
  cleared (m_mem m) (m_mem m') pt va i c -> 0 <= x ->
  upage (m_mem m') pt x = upage (m_mem m) pt x /\ ubyte (m_mem m') pt x = ubyte (m_mem m) pt x.
Proof.
  intros Hinv [Hd _] Hf Hc Hx.
  assert (upage (m_mem m') pt x = upage (m_mem m) pt x) as E.
  { unfold upage. destruct (Z.leb_spec MAXVA x); [done|]. change MAXVA with (2 ^ 38) in *.
    rewrite (cleared_lookup _ _ _ _ _ _ x Hc) by lia. case_decide; [|done].
    destruct (pt_lookup (m_mem m) pt x) as [v|]; [|done]. cbn. rewrite clear_A_PA.
    change PTE_U with (Z.shiftl 1 4). rewrite clear_A_flag by lia. by rewrite andb_true_r. }
  split; [done|]. unfold ubyte, upa. rewrite E. destruct (upage (m_mem m) pt x) as [pa|] eqn:Hp; [|done]. cbn. f_equal.
  destruct (Hd x pa Hx Hp) as [Hok HD].
  apply (frame_page (pt_pages 2 (m_mem m) pt) m m' pa); [done| |done| |].
  - apply Forall_forall. intros p Hpp. by eapply vm_inv_pages_ok.
  - intros Hin. pose proof (vm_inv_NoDup _ _ _ _ Hinv) as (_ & Hdis & _)%NoDup_app. apply (Hdis pa Hin), elem_of_app. by left.
  - unfold in_page. pose proof (Z.mod_pos_bound x 4096). lia.
Qed.

Lemma pgaccess_pt_run D fl pt va n dst m :
  vm_inv D fl pt m -> umap_ok D (m_mem m) pt -> 0 <= va -> 1 <= n <= 32 -> va + (n - 1) * 4096 < MAXVA -> 0 <= dst < 2 ^ 64 ->
  exists mask m' c, pgaccess_pt pt va n dst m = Ok 0 m' /\ vm_inv D fl pt m' /\
    (forall j, 0 <= j -> Z.testbit mask j = bool_decide (j < n) && accessed (m_mem m) pt va j) /\
    (forall x, 0 <= x < 2 ^ 39 -> pt_lookup (m_mem m') pt x =
       if decide (va / 4096 <= x / 4096 < va / 4096 + n) then clear_A <$> pt_lookup (m_mem m) pt x
       else pt_lookup (m_mem m) pt x) /\
    (forall x, 0 <= x -> ubyte (m_mem m') pt x =
       if decide (dst <= x < dst + Z.of_nat c) then set32 (replicate 4 0) 0 mask !! Z.to_nat (x - dst)
       else ubyte (m_mem m) pt x) /\
    (c = 4%nat \/ (c < 4)%nat /\ ubyte (m_mem m) pt (dst + Z.of_nat c) = None).
Proof.
  intros Hinv Hu Hva Hn Hmax Hdst.
  destruct (pgaccess_loop_run D fl pt va (Z.to_nat n) 0 0 m) as (mask & m1 & E1 & Hi1 & Hf1 & Hp1 & Hc1 & Hb1);
    [done|done|lia|lia|lia|]. rewrite Z2Nat.id in * by lia.
  assert (forall x, 0 <= x -> upage (m_mem m1) pt x = upage (m_mem m) pt x /\ ubyte (m_mem m1) pt x = ubyte (m_mem m) pt x) as Hsee.
  { intros x Hx. by eapply cleared_ubyte. }
  assert (umap_ok D (m_mem m1) pt) as Hu1.
  { destruct Hu as [Hd Hj]. split; [intros x pa Hx|intros x x' pa Hx Hx'].
    - rewrite (proj1 (Hsee x Hx)). eauto.
    - rewrite (proj1 (Hsee x Hx)), (proj1 (Hsee x' Hx')). eauto. }
  set (bs := set32 (replicate 4 0) 0 mask).
  assert (Forall (fun b => 0 <= b < 256) bs /\ length bs = 4%nat) as [Hbs Hlen].
  { unfold bs, set32. split; [|by rewrite length_set_le]. apply set_le_bytes, Forall_replicate. lia. }
  destruct (copyout_run D fl pt dst bs m1 Hi1 Hu1 Hdst Hbs) as (r & m2 & c & E2 & Hi2 & _ & Hl2 & Hby & Hr).
  exists mask, m2, c. split_and!; [|done| | | |].
  - unfold pgaccess_pt. erewrite bind_ok by exact E1. fold bs. by erewrite bind_ok by exact E2.
  - intros j Hj. rewrite Hb1, Z.bits_0 by done. cbn [orb]. f_equal. by apply bool_decide_ext; lia.
  - intros x Hx. rewrite Hl2, (cleared_lookup _ _ _ _ _ _ x Hc1), Z.add_0_r by done. done.
  - intros x Hx. rewrite Hby by done. case_decide; [done|]. by apply Hsee.
  - rewrite Hlen in Hr. destruct Hr as [(_ & -> & _)|(_ & Hlt & Hn')]; [by left|right]. split; [done|].
    rewrite <- Hn'. symmetry. apply Hsee. lia.
Qed.

Lemma pgaccess_loop_panics D fl pt va left :
  forall i mask m, vm_inv D fl pt m -> 0 <= va -> 0 <= i -> (0 < left)%nat ->
  MAXVA <= va + (i + Z.of_nat left - 1) * 4096 < 2 ^ 64 ->
  exists m', pgaccess_loop left pt va i mask m = Panic "walk" m'.
Proof.
  induction left as [|left IH]; intros i mask m Hinv Hva Hi Hpos Hmax; [lia|]. cbn [pgaccess_loop].
  change MAXVA with (2 ^ 38) in *. unfold PGSIZE.
  assert (u64 (va + i * 4096) = va + i * 4096) as -> by (apply u64_small; nia).
  destruct (Z.lt_ge_cases (va + i * 4096) (2 ^ 38)) as [Hlt|Hge].
  - destruct (access_step D fl pt m (va + i * 4096)) as (pte & m1 & Hw & Hg & Hst & Hi1 & _);
      [done|change MAXVA with (2 ^ 38); lia|].
    erewrite bind_ok by exact Hw. unfold mload64. mrun. rewrite <- Hg.
    destruct (has_flag (pte_at (m_mem m) pt (va + i * 4096)) PTE_A); [erewrite bind_ok by exact Hst|subst m1];
      apply IH; (done || (change MAXVA with (2 ^ 38); lia)).
  - exists m. apply bind_panic. unfold walk. change MAXVA with (2 ^ 38). by destruct (Z.leb_spec (2 ^ 38) (va + i * 4096)); [|lia].
Qed.

End pgaccess.

Section syscall.
Context `{KernelLayout} `{Platform} `{Fuel} `{!DiskDriver}.
Implicit Types k : kernel.

(** The system-call arguments of process [me] are [a0], [a1] and [a2]. *)
Definition three_args (me : nat) (k : kernel) (a0 a1 a2 : Z) : Prop :=
  exists p, k_proc k !! me = Some p /\
    load64 (m_mem (k_m k)) (p_trapframe p + tf_off (tf_a 0)) = a0 /\ load64 (m_mem (k_m k)) (p_trapframe p + tf_off (tf_a 1)) = a1 /\
    load64 (m_mem (k_m k)) (p_trapframe p + tf_off (tf_a 2)) = a2.

Lemma argraw_run me k p i :
  calm [] me k -> k_proc k !! me = Some p -> 0 <= i <= 5 ->
  argraw i k = Ok (load64 (m_mem (k_m k)) (p_trapframe p + tf_off (tf_a i))) k.
Proof.
  intros (Hs & _ & Hr & _) Hp Hi. unfold argraw. erewrite bind_ok by by apply curproc_calm.
  destruct (Z.leb_spec 0 i), (Z.leb_spec i 5); try lia. cbn [andb]. unfold tf_get, get_proc.
  erewrite bind_ok by by apply get_entry. by apply mach_state.
Qed.

(** [sys_pgaccess] up to the call of [pgaccess_pt]. *)
Lemma sys_pgaccess_run me k p va n dst :
  calm [] me k -> k_proc k !! me = Some p -> three_args me k va n dst ->
  sys_pgaccess k = if (s32 n <=? 0) || (512 <? s32 n) then Ok (-1) k
                   else mach (pgaccess_pt (p_pagetable p) va (s32 n) dst) k.
Proof.
  intros Hc Hp (q & Hq & E0 & E1 & E2). assert (q = p) as -> by congruence. pose proof Hc as (Hs & _ & Hr & _).
  unfold sys_pgaccess, argint, argaddr. erewrite bind_ok by (eapply argraw_run; [done..|lia]). rewrite E0.
  rewrite bind_bind. erewrite bind_ok by (eapply argraw_run; [done..|lia]). rewrite E1, bind_ret.
  erewrite bind_ok by (eapply argraw_run; [done..|lia]). rewrite E2. case_match; [done|].
  unfold pgaccess. erewrite bind_ok by by apply curproc_calm. unfold get_proc. by erewrite bind_ok by by apply get_entry.
Qed.


(** [pgaccess] with a range that reaches [MAXVA] panics the kernel: the
    user's address goes unchecked to [walk]. *)
Theorem pgaccess_panics me k p va n dst D fl :
  calm [] me k -> k_proc k !! me = Some p -> three_args me k va n dst ->
  vm_inv D fl (p_pagetable p) (k_m k) -> 0 <= va -> 1 <= s32 n <= 512 -> MAXVA <= va + (s32 n - 1) * 4096 < 2 ^ 64 ->
  exists k', sys_pgaccess k = Panic "walk" k'.
Proof.
  intros Hc Hp Hargs Hinv Hva Hn Hmax. rewrite (sys_pgaccess_run me k p va n dst Hc Hp Hargs).
  destruct (Z.leb_spec (s32 n) 0), (Z.ltb_spec 512 (s32 n)); try lia. cbn [orb].
  destruct (pgaccess_loop_panics D fl (p_pagetable p) va (Z.to_nat (s32 n)) 0 0 (k_m k)) as (m' & E);
    [done|done|lia|lia|rewrite Z2Nat.id by lia; lia|].
  exists (k <| k_m := m' |>). unfold mach, zoom. unfold pgaccess_pt. by rewrite (bind_panic _ _ _ _ _ E).
Qed.

End syscall.
