(* ===== verification/FsTx.v ===== *)
(** * Blocks in a transaction

    The view that the code of [kernel/fs.c] has of the disk between
    [begin_op] and [end_op]: blocks are read with [bread] and [brelse], and
    changed under [bread], [log_write] and [brelse]. [tx n held V k]: the
    running process is in a transaction that can log [n] more blocks, holds
    the buffers [held], and sees the blocks [V]. *)

From stdpp Require Import functions.
From S2P Require Import Prelude Riscv Machine Spinlock PhysMem Kalloc PageTable Vm Kernel Sched Sleeplock Bio Bytes Uart Printf Log Thread BioRing BioSpec LogDisk LogSpec.

Section tx.
Context `{Linker} `{Platform} `{Fuel} `{!DiskDriver} `{!DiskLaws}.
Context (dev : Z) (me : nat).
Implicit Types (k : kernel) (V : Z -> list Z) (R : list Z) (held : list (nat * Z)).

(** Reference counts [R], plus one for each held buffer. *)
Definition plus (held : list (nat * Z)) (R : list Z) : list Z :=
  imap (fun i r => if decide (i ∈ held.*1) then r + 1 else r) R.

Lemma plus_lookup held R b r : R !! b = Some r -> plus held R !! b = Some (if decide (b ∈ held.*1) then r + 1 else r).
Proof. intros Hr. unfold plus. by rewrite list_lookup_imap, Hr. Qed.

Lemma plus_lookup_inv held R b r : plus held R !! b = Some r ->
  exists r0, R !! b = Some r0 /\ r = if decide (b ∈ held.*1) then r0 + 1 else r0.
Proof. unfold plus. rewrite list_lookup_imap. destruct (R !! b) as [r0|]; [|done]. intros [= <-]. by exists r0. Qed.

Lemma plus_cons held R b bn r :
  R !! b = Some r -> b ∉ held.*1 -> plus ((b, bn) :: held) R = <[b := r + 1]> (plus held R).
Proof.
  intros Hr Hb. apply list_eq. intros i. destruct (decide (i = b)) as [->|Hne].
  - rewrite (plus_lookup _ _ _ _ Hr), list_lookup_insert_eq.
    + rewrite decide_True by left. done.
    + unfold plus. rewrite length_imap. by eapply lookup_lt_Some.
  - rewrite list_lookup_insert_ne by done. unfold plus. rewrite !list_lookup_imap.
    destruct (R !! i) as [x|]; [|done]. cbn. f_equal. apply decide_ext. rewrite elem_of_cons. tauto.
Qed.

Lemma plus_insert held R b r : plus held (<[b := r]> R) = <[b := if decide (b ∈ held.*1) then r + 1 else r]> (plus held R).
Proof.
  apply list_eq. intros i. unfold plus. destruct (decide (b < length R)%nat) as [Hlt|Hge].
  - destruct (decide (i = b)) as [->|Hne].
    + rewrite list_lookup_imap, !list_lookup_insert_eq by (rewrite ?length_imap; done). done.
    + by rewrite list_lookup_imap, !list_lookup_insert_ne, list_lookup_imap by done.
  - rewrite !list_insert_ge by (rewrite ?length_imap; lia). done.
Qed.

Record txn (n : nat) (held : list (nat * Z)) (V : Z -> list Z) (bl R : list Z) (k : kernel) : Prop := {
  t_bio : bio_inv dev me held V (list_to_set bl) (plus held R) k;
  t_log : log_ok dev (k_log k);
  t_holds : holds (k_log k) bl;
  t_nodup : NoDup bl;
  t_out : (0 < n)%nat -> 1 <= l_outstanding (k_log k);
  t_space : Z.of_nat (length bl + n) <= Z.min LOGSIZE (l_size (k_log k) - 1);
  t_refs : Forall (fun r => 0 <= r /\ r + Z.of_nat n + 2 < 2 ^ 32) R;
  t_room : room (n + 4) R;
  t_few : (length held <= 3)%nat;
  t_pin : forall b bn r, (b, bn) ∈ held -> bn ∈ bl -> R !! b = Some r -> 1 <= r;
  t_devr : 0 <= dev < 2 ^ 31
}.

Definition tx (n : nat) (held : list (nat * Z)) (V : Z -> list Z) (k : kernel) : Prop :=
  exists bl R, txn n held V bl R k.

(** What the operations of a transaction leave alone. *)
Definition tx_frame (k k' : kernel) : Prop :=
  log_frame k k' /\ disk_image (k_device k') = disk_image (k_device k) /\
  disk_writes (k_device k') = disk_writes (k_device k).

#[export] Instance tx_frame_preorder : PreOrder tx_frame.
Proof.
  split.
  - intros k. split_and!; [|done..]. apply log_frame_intro; [by destruct k|by destruct (k_log k)].
  - intros k1 k2 k3 ([(P & S & B & d & v & E & Hw & Hs) EL] & Hi & Hd) ([(P' & S' & B' & d' & v' & E' & Hw' & Hs') EL'] & Hi' & Hd').
    split_and!; [|congruence..]. split.
    + exists P', S', B', d', v'. rewrite E in E', Hw', Hs'. cbn in Hw', Hs'. split_and!; [exact E'|by etrans..].
    + rewrite EL', EL. done.
Qed.

Lemma tx_frame_bio k k' :
  bio_frame k k' -> disk_image (k_device k') = disk_image (k_device k) ->
  disk_writes (k_device k') = disk_writes (k_device k) -> tx_frame k k'.
Proof.
  intros Hf Hi Hd. pose proof (bio_frame_log _ _ Hf) as EL. split_and!; [|done..]. split.
  - rewrite EL. by assert (k <| k_log := k_log k |> = k) as -> by (by destruct k).
  - rewrite EL. by destruct (k_log k).
Qed.

(** Kernel data the frame keeps. *)
Lemma tx_frame_keeps k k' :
  tx_frame k k' -> k_m k' = k_m k /\ k_sb k' = k_sb k /\ k_itable k' = k_itable k /\
    l_start (k_log k') = l_start (k_log k) /\ l_size (k_log k') = l_size (k_log k) /\ content k' = content k.
Proof.
  intros ([(P & S & B & d & v & E & _) EL] & Hi & Hd). unfold content. rewrite Hi, Hd.
  split_and!; [by rewrite E..| | |done]; by rewrite EL.
Qed.

Lemma room_mono n n' R : (n' <= n)%nat -> room n R -> room n' R.
Proof.
  intros Hle (fs & Hnd & Hlen & Hf). exists (take n' fs). split_and!.
  - eapply sublist_NoDup; [exact Hnd|]. apply sublist_take.
  - rewrite length_take. lia.
  - by apply Forall_take.
Qed.

(** A free buffer that is not held. *)
Lemma room_not_held n held R :
  room n R -> (length held < n)%nat -> exists i, (i < HEAD)%nat /\ plus held R !! i = Some 0.
Proof.
  intros (fs & Hnd & Hlen & Hf) Hlt.
  assert (exists f, f ∈ fs /\ f ∉ held.*1) as (f & Hin & Hout).
  { destruct (decide (Exists (fun f => f ∉ held.*1) fs)) as [He|He]; [by apply Exists_exists in He|].
    apply not_Exists_Forall in He; [|apply _]. exfalso.
    assert (fs ⊆+ held.*1) as Hs.
    { apply NoDup_submseteq; [done|]. intros f Hin. eapply Forall_forall in He; [|exact Hin]. by apply dec_stable in He. }
    apply submseteq_length in Hs. rewrite length_fmap in Hs. lia. }
  eapply Forall_forall in Hf as [Hh Hz]; [|exact Hin]. exists f. split; [done|].
  rewrite (plus_lookup _ _ _ _ Hz). by rewrite decide_False.
Qed.

Lemma plus_refs n held R :
  Forall (fun r => 0 <= r /\ r + Z.of_nat n + 2 < 2 ^ 32) R -> Forall (fun r => r + 1 < 2 ^ 32) (plus held R).
Proof.
  intros HR. apply Forall_lookup_2. intros i r (r0 & Hr & ->)%plus_lookup_inv.
  pose proof (Forall_lookup_1 _ _ _ _ HR Hr) as Hb. cbn in Hb. case_decide; lia.
Qed.

Lemma held_data held V dirty R k b bn :
  bio_inv dev me held V dirty R k -> (b, bn) ∈ held -> exists x, get_buf b k = Ok x k /\ b_data x = V bn /\ b_blockno x = bn.
Proof.
  intros Hinv Hin. destruct (bi_held _ _ _ _ _ _ _ Hinv _ _ Hin) as (Hb & Hbi & _). pose proof Hbi as (x & Hx & _ & Hbn & _).
  exists x. split_and!; [by apply get_entry|by eapply (bi_coh _ _ _ _ _ _ _ Hinv)|done].
Qed.

(** A held buffer has one block, and a block one held buffer. *)
Lemma held_block held V dirty R k b bn bn' :
  bio_inv dev me held V dirty R k -> (b, bn) ∈ held -> (b, bn') ∈ held -> bn = bn'.
Proof.
  intros Hinv Ha Hc. destruct (bi_held _ _ _ _ _ _ _ Hinv _ _ Ha) as (_ & (x & Hx & _ & Hb & _) & _).
  destruct (bi_held _ _ _ _ _ _ _ Hinv _ _ Hc) as (_ & (y & Hy & _ & Hb' & _) & _). congruence.
Qed.

Lemma held_unique held V dirty R k b b' bn :
  bio_inv dev me held V dirty R k -> (b, bn) ∈ held -> (b', bn) ∈ held -> b = b'.
Proof.
  intros Hinv Ha Hc. destruct (bi_held _ _ _ _ _ _ _ Hinv _ _ Ha) as (Hi & (x & Hx & Dx & Bx & _) & _).
  destruct (bi_held _ _ _ _ _ _ _ Hinv _ _ Hc) as (Hj & (y & Hy & Dy & By & _) & _).
  eapply (bi_uniq _ _ _ _ _ _ _ Hinv); [done..| |done]. apply caches_true. split; congruence.
Qed.

(** ** Reading *)

Lemma bread_tx n held V k bn :
  tx n held V k -> wait_fuel <> O -> bn ∉ held.*2 -> (length held <= 2)%nat ->
  exists b k', bread dev bn k = Ok b k' /\ tx n ((b, bn) :: held) V k' /\ tx_frame k k' /\
    exists x, get_buf b k' = Ok x k' /\ b_data x = V bn.
Proof.
  intros (bl & R & [Hbio Hlog Hh Hnd Hout Hsp HR Hroom Hfew Hpin Hdev]) Hf Hbn Hle.
  destruct (bread_run dev me held V (list_to_set bl) (plus held R) k bn Hbio Hf Hbn)
    as (b & r & k' & E & Hr & Hb & Hdirty & Hbio' & Hfr & Hi & Hd); [by eapply plus_refs| |].
  { destruct (room_not_held (n + 4) held R Hroom) as (i & Hlt & Hz); [lia|]. exists i. split; [done|by right]. }
  pose proof (bi_nodup _ _ _ _ _ _ _ Hbio') as [Hnin _]%NoDup_cons.
  apply plus_lookup_inv in Hr as (r0 & Hr & ->). rewrite decide_False in * by exact Hnin.
  exists b, k'. split_and!; [done| |by apply tx_frame_bio|].
  - exists bl, R. pose proof (bio_frame_log _ _ Hfr) as EL. split; rewrite ?EL; try done.
    + by rewrite (plus_cons held R b bn r0).
    + cbn. lia.
    + intros b' bn' r' [[= -> ->]|Hin]%elem_of_cons Hbl Hr'; [|by eapply Hpin].
      assert (r' = r0) as -> by congruence. apply Hdirty. by apply elem_of_list_to_set.
  - destruct (held_data _ _ _ _ _ b bn Hbio') as (x & ? & ? & _); [left|]. by exists x.
Qed.

Lemma brelse_tx n held held' V k b bn :
  tx n held V k -> held ≡ₚ (b, bn) :: held' -> exists k', brelse b k = Ok tt k' /\ tx n held' V k' /\ tx_frame k k'.
Proof.
  intros (bl & R & [Hbio Hlog Hh Hnd Hout Hsp HR Hroom Hfew Hpin Hdev]) Hperm.
  assert ((b, bn) ∈ held) as Hin by (rewrite Hperm; left).
  destruct (bi_held _ _ _ _ _ _ _ Hbio _ _ Hin) as (_ & _ & (r & Hr & _)).
  pose proof (bi_nodup _ _ _ _ _ _ _ Hbio) as Hnh. rewrite Hperm in Hnh. apply NoDup_cons in Hnh as [Hnin _].
  pose proof Hr as (r0 & Hr0 & Er)%plus_lookup_inv. rewrite decide_True in Er by (rewrite Hperm; left). subst r.
  destruct (brelse_run dev me held held' V (list_to_set bl) (plus held R) k b bn (r0 + 1) Hbio Hperm Hr)
    as (k' & E & Hfr & Hd & Hbio').
  { intros Hd%elem_of_list_to_set. pose proof (Hpin _ _ _ Hin Hd Hr0). lia. }
  exists k'. split_and!; [done| |by apply tx_frame_bio; rewrite ?Hd].
  exists bl, R. pose proof (bio_frame_log _ _ Hfr) as EL. split; rewrite ?EL; try done.
  - assert (plus held R = plus ((b, bn) :: held') R) as Hpl.
    { apply list_eq. intros i. unfold plus. rewrite !list_lookup_imap. destruct (R !! i); [|done]. cbn. f_equal.
      apply decide_ext. by rewrite Hperm. }
    rewrite Hpl, (plus_cons held' R b bn r0) in Hbio' by done. replace (r0 + 1 - 1) with r0 in Hbio' by lia.
    rewrite list_insert_insert_eq, list_insert_id in Hbio'; [done|]. rewrite (plus_lookup _ _ _ _ Hr0). by rewrite decide_False.
  - rewrite Hperm in Hfew. cbn in Hfew. lia.
  - intros b' bn' r' Hin' Hbl Hr'. eapply Hpin; [|exact Hbl|exact Hr']. rewrite Hperm. by right.
Qed.

(** ** Writing *)

(** The holder changes the buffer and logs it. *)
Lemma update_tx n held V k b bn (f : list Z -> list Z) :
  tx (S n) held V k -> (b, bn) ∈ held -> outside (l_start (k_log k)) (l_size (k_log k)) bn ->
  exists k1 k', set_buf b (fun x => x <| b_data ::= f |>) k = Ok tt k1 /\ log_write b k1 = Ok tt k' /\
    tx n held (<[bn := f (V bn)]> V) k' /\ tx_frame k k'.
Proof.
  intros (bl & R & [Hbio Hlog Hh Hnd Hout Hsp HR Hroom Hfew Hpin Hdev]) Hin Ho.
  destruct (set_data_run dev me held V _ _ k b bn f Hbio Hin) as (k1 & E1 & Hf1 & Hd1 & Hbio1).
  pose proof (bio_frame_log _ _ Hf1) as EL1.
  destruct (bi_held _ _ _ _ _ _ _ Hbio _ _ Hin) as (_ & _ & (r & Hr & _)).
  assert (b ∈ held.*1) as Hbh by (apply list_elem_of_fmap; by exists (b, bn)).
  pose proof Hr as (r0 & Hr0 & Er)%plus_lookup_inv. rewrite decide_True in Er by exact Hbh. subst r.
  pose proof (Forall_lookup_1 _ _ _ _ HR Hr0) as Hb0. cbn in Hb0.
  pose proof (log_write_run dev me bl held _ _ _ k1 (k_log k) b bn (r0 + 1) Hbio1 Hin EL1 Hlog Hh Hnd Hr ltac:(lia) Ho (Hout ltac:(lia))) as Hw.
  rewrite decide_True in Hw by lia. destruct Hw as (k' & E2 & Hok' & Hh' & Hnd' & Hdev' & Hbio' & Hfr').
  exists k1, k'. split_and!; [done|done| |].
  2: { etrans; [apply tx_frame_bio; [exact Hf1|by rewrite Hd1..]|]. split_and!; [done|by rewrite Hdev'..]. }
  assert (l_size (k_log k') = l_size (k_log k) /\ l_outstanding (k_log k') = l_outstanding (k_log k)) as [Es Eo].
  { destruct Hfr' as [_ EL]. rewrite EL, EL1. done. }
  exists (add_block bn bl), (if decide (bn ∈ bl) then R else <[b := r0 + 1]> R). split; try done.
  - assert (({[bn]} ∪ list_to_set bl : gset Z) = list_to_set (add_block bn bl)) as <-.
    { apply set_eq. intros x. unfold add_block. case_decide; rewrite elem_of_union, elem_of_singleton, !elem_of_list_to_set, ?elem_of_app, ?list_elem_of_singleton;
        [|tauto]. split; [intros [->|]|]; tauto. }
    case_decide; [done|]. rewrite plus_insert, decide_True by done. replace (r0 + 1 + 1) with (r0 + 1 + 1) by lia. done.
  - rewrite Eo. intros _. apply Hout. lia.
  - rewrite Es. unfold add_block. case_decide; [lia|]. rewrite length_app. cbn. lia.
  - case_decide.
    + eapply Forall_impl; [exact HR|]. cbn. intros x. lia.
    + apply Forall_insert; [|lia]. eapply Forall_impl; [exact HR|]. cbn. intros x. lia.
  - case_decide; [by eapply room_mono; [|exact Hroom]; lia|]. apply room_insert. by eapply room_mono; [|exact Hroom]; lia.
  - intros b' bn' r' Hin' Hbl Hr'. destruct (decide (b' = b)) as [->|Hne].
    + case_decide as Hbb; [|rewrite list_lookup_insert_eq in Hr' by (by eapply lookup_lt_Some); simplify_eq; lia].
      assert (bn' = bn) as -> by (eapply held_block; [exact Hbio|exact Hin'|exact Hin]). by eapply Hpin.
    + assert (bn' <> bn) as Hnb by (intros ->; apply Hne; eapply held_unique; [exact Hbio|exact Hin'|exact Hin]).
      assert (bn' ∈ bl) as Hbl'.
      { unfold add_block in Hbl. case_decide; [done|]. apply elem_of_app in Hbl as [?| ->%list_elem_of_singleton]; done. }
      eapply Hpin; [exact Hin'|exact Hbl'|]. case_decide; [done|]. by rewrite list_lookup_insert_ne in Hr'.
Qed.

(** ** Memory *)

(** A transaction does not depend on memory. *)
Lemma tx_set_m n held V k m :
  tx n held V k -> m_core m = m_core (k_m k) -> m_locks m = m_locks (k_m k) -> tx n held V (k <| k_m := m |>).
Proof.
  intros (bl & R & [Hbio Hlog Hh Hnd Hout Hsp HR Hroom Hfew Hpin Hdev]) Hc Hl. exists bl, R. split; try done.
  destruct Hbio as [Hcalm Hring Hu Hrefs Hro Hcoh Hcl Hd Hhe Hn Hlk]. split; try done.
  destruct Hcalm as (Hs & Hfree & (u & Hu' & Hp) & Hlen & Hm). split_and!; [cbn; by rewrite Hc| | |done|done].
  - intros lk Hst Hx. destruct (Hfree lk Hst Hx) as [name E]. exists name. cbn. by rewrite Hl.
  - exists u. cbn. by rewrite Hc.
Qed.

Lemma tx_calm n held V k : tx n held V k -> calm [] me k.
Proof. intros (bl & R & Ht). apply (bi_calm _ _ _ _ _ _ _ (t_bio _ _ _ _ _ _ Ht)). Qed.

(** Processes keep all but their state. *)
Lemma tx_frame_proc k k' i p :
  tx_frame k k' -> k_proc k !! i = Some p -> exists q, k_proc k' !! i = Some q /\ woken1 p q.
Proof. intros ([(P & S & B & d & v & E & Hw & _) _] & _) Hp. rewrite E. by eapply woken_lookup. Qed.

(** Fields that no transaction reads. *)
Lemma tx_set_itable n held V k T : tx n held V k -> tx n held V (k <| k_itable := T |>).
Proof.
  intros (bl & R & [Hbio Hlog Hh Hnd Hout Hsp HR Hroom Hfew Hpin Hdev]). exists bl, R. split; try done.
  by destruct Hbio as [Hcalm Hring Hu Hrefs Hro Hcoh Hcl Hd Hhe Hn Hlk]; split.
Qed.

Lemma tx_set_sb n held V k sb : tx n held V k -> tx n held V (k <| k_sb := sb |>).
Proof.
  intros (bl & R & [Hbio Hlog Hh Hnd Hout Hsp HR Hroom Hfew Hpin Hdev]). exists bl, R. split; try done.
  by destruct Hbio as [Hcalm Hring Hu Hrefs Hro Hcoh Hcl Hd Hhe Hn Hlk]; split.
Qed.

Lemma tx_frame_set_m m k k' : tx_frame k k' -> tx_frame (k <| k_m := m |>) (k' <| k_m := m |>).
Proof.
  intros ([(P & S & B & d & v & E & Hw) EL] & Hi & Hd). split_and!; [split|done..].
  - exists P, S, B, d, v. cbn. split; [|done]. rewrite E. done.
  - exact EL.
Qed.

Lemma tx_frame_set_itable T k k' : tx_frame k k' -> tx_frame (k <| k_itable := T |>) (k' <| k_itable := T |>).
Proof.
  intros ([(P & S & B & d & v & E & Hw) EL] & Hi & Hd). split_and!; [split|done..].
  - exists P, S, B, d, v. cbn. split; [|done]. rewrite E. done.
  - exact EL.
Qed.

(** Unused log space. *)
Lemma tx_mono n n' held V k : (n' <= n)%nat -> tx n held V k -> tx n' held V k.
Proof.
  intros Hn (bl & R & [Hbio Hlog Hh Hnd Hout Hsp HR Hroom Hfew Hpin Hdev]). exists bl, R. split; try done; try lia.
  - eapply Forall_impl; [exact HR|]. cbn. lia.
  - eapply room_mono; [|done]. lia.
Qed.

End tx.
