(* ===== verification/FsBlocks.v ===== *)
(** * Specification of block allocation

    [bzero], [balloc] and [bfree] inside a transaction: which block is
    chosen, what happens to the free-block bitmap, and that no other block
    changes. *)

From stdpp Require Import functions.
From S2P Require Import Prelude Riscv Machine Spinlock PhysMem Kalloc PageTable Vm Kernel Sched Sleeplock Bio Bytes Uart Printf Log Fs Thread BioRing BioSpec LogDisk LogSpec FsTx.

(** ** Bits of the bitmap *)

Lemma bit_used_bit data bi :
  0 <= bi -> bit_used data bi = Z.testbit (default 0 (data !! Z.to_nat (bi / 8))) (bi mod 8).
Proof. intros Hbi. unfold bit_used, bit_mask. apply (has_flag_bit _ (bi mod 8)). apply Z.mod_pos_bound. lia. Qed.

Lemma mask_bit bi j : 0 <= j -> Z.testbit (bit_mask bi) j = (j =? bi mod 8).
Proof.
  intros Hj. unfold bit_mask. rewrite Z.shiftl_1_l, Z.pow2_bits_eqb, Z.eqb_sym; [done|]. apply Z.mod_pos_bound. lia.
Qed.

(** The effect of changing bit [bi] with [g] on the bit [bj]. *)
Lemma bit_used_alter (g : Z -> Z) (c : bool) data bi bj :
  (forall x j, 0 <= j < 8 -> Z.testbit (g x) j = if decide (j = bi mod 8) then c else Z.testbit x j) ->
  0 <= bi < BPB -> 0 <= bj < BPB -> length data = Z.to_nat BSIZE ->
  bit_used (alter g (Z.to_nat (bi / 8)) data) bj = if decide (bj = bi) then c else bit_used data bj.
Proof.
  intros Hg Hbi Hbj Hlen. change BPB with 8192 in *. change BSIZE with 1024 in Hlen.
  rewrite !bit_used_bit by lia. pose proof (Z.mod_pos_bound bj 8 ltac:(lia)).
  destruct (decide (Z.to_nat (bj / 8) = Z.to_nat (bi / 8))) as [E|E].
  - rewrite E, list_lookup_alter_eq.
    destruct (lookup_lt_is_Some_2 data (Z.to_nat (bi / 8))) as [x ->]; [rewrite Hlen; Z.div_mod_to_equations; lia|].
    cbn. rewrite Hg by done. repeat case_decide; try done; exfalso; Z.div_mod_to_equations; lia.
  - rewrite list_lookup_alter_ne by done. rewrite decide_False by (intros ->; done). done.
Qed.

Lemma set_bit_used data bi bj :
  0 <= bi < BPB -> 0 <= bj < BPB -> length data = Z.to_nat BSIZE ->
  bit_used (set_bit data bi) bj = if decide (bj = bi) then true else bit_used data bj.
Proof.
  apply bit_used_alter. intros x j Hj. rewrite Z.lor_spec, mask_bit by lia.
  destruct (Z.eqb_spec j (bi mod 8)); case_decide; try done; [apply orb_true_r|apply orb_false_r].
Qed.

Lemma clear_bit_used data bi bj :
  0 <= bi < BPB -> 0 <= bj < BPB -> length data = Z.to_nat BSIZE ->
  bit_used (clear_bit data bi) bj = if decide (bj = bi) then false else bit_used data bj.
Proof.
  apply bit_used_alter. intros x j Hj. rewrite Z.land_spec, Z.lnot_spec, mask_bit by lia.
  destruct (Z.eqb_spec j (bi mod 8)); case_decide; try done; [apply andb_false_r|apply andb_true_r].
Qed.

(** Clearing a bit that was set by [set_bit] restores the bitmap. *)
Lemma clear_set_bit data bi : 0 <= bi -> bit_used data bi = false -> clear_bit (set_bit data bi) bi = data.
Proof.
  intros Hbi Hfree. rewrite bit_used_bit in Hfree by done. unfold clear_bit, set_bit. rewrite list_alter_alter_eq.
  apply list_eq. intros i. destruct (decide (i = Z.to_nat (bi / 8))) as [->|Hne]; [|by rewrite list_lookup_alter_ne].
  rewrite list_lookup_alter_eq. destruct (data !! Z.to_nat (bi / 8)) as [x|]; [|done]. cbn in *. f_equal.
  apply Z.bits_inj'. intros j Hj. rewrite Z.land_spec, Z.lnot_spec, Z.lor_spec, !mask_bit by done.
  destruct (Z.eqb_spec j (bi mod 8)) as [->|]; [by rewrite Hfree|]. by rewrite orb_false_r, andb_true_r.
Qed.

Lemma length_set_bit data bi : length (set_bit data bi) = length data.
Proof. apply length_alter. Qed.

(** The inner loop of [balloc]. *)
Lemma balloc_find_spec n data b bi size :
  0 <= bi ->
  match balloc_find n data b bi size with
  | Some x => bi <= x < bi + Z.of_nat n /\ b + x < size /\ bit_used data x = false /\
      forall y, bi <= y < x -> bit_used data y = true
  | None => forall y, bi <= y < bi + Z.of_nat n -> b + y < size -> bit_used data y = true
  end.
Proof.
  revert bi. induction n as [|n IH]; intros bi Hbi; cbn [balloc_find]; [intros y Hy; lia|].
  destruct (Z.ltb_spec (b + bi) size) as [Hlt|Hge]; cbn [negb]; [|intros y Hy Hs; lia].
  destruct (bit_used data bi) eqn:E; cbn [negb].
  - specialize (IH (bi + 1) ltac:(lia)). destruct (balloc_find n data b (bi + 1) size) as [x|].
    + destruct IH as (Hx & Hs & Hf & Hb). split_and!; [lia|lia|lia|done|]. intros y Hy.
      destruct (decide (y = bi)) as [->|]; [done|]. apply Hb. lia.
    + intros y Hy Hs. destruct (decide (y = bi)) as [->|]; [done|]. apply IH; lia.
  - split_and!; [lia|lia|lia|done|]. intros y Hy. lia.
Qed.

Section blocks.
Context `{Linker} `{Platform} `{Fuel} `{!DiskDriver} `{!DiskLaws}.
Context (dev : Z) (me : nat).
Context (Hfuel : wait_fuel <> O).
Implicit Types (k : kernel) (V : Z -> list Z) (held : list (nat * Z)).

Lemma tx_dev n held V k : tx dev me n held V k -> u32 dev = dev.
Proof. intros (bl & R & Ht). pose proof (t_devr _ _ _ _ _ _ _ _ Ht). apply u32_small. lia. Qed.

(** A block that transactions may change. *)
Definition fs_block (k : kernel) (b : Z) : Prop := outside (l_start (k_log k)) (l_size (k_log k)) b.

Lemma fs_block_frame k k' b : tx_frame k k' -> fs_block k' b <-> fs_block k b.
Proof. intros (_ & _ & _ & Es & El & _)%tx_frame_keeps. unfold fs_block. by rewrite Es, El. Qed.

Definition zero_block : list Z := replicate (Z.to_nat BSIZE) 0.

(** Reading a block, changing it with [f], logging and releasing it. *)
Lemma modify_block n held V k bn f :
  tx dev me (S n) held V k -> bn ∉ held.*2 -> (length held <= 2)%nat -> fs_block k bn ->
  exists b k1 k2 k3 k', bread dev bn k = Ok b k1 /\ set_buf b (fun x => x <| b_data ::= f |>) k1 = Ok tt k2 /\
    log_write b k2 = Ok tt k3 /\ brelse b k3 = Ok tt k' /\
    (exists x, get_buf b k1 = Ok x k1 /\ b_data x = V bn) /\ k_itable k1 = k_itable k /\
    tx dev me n held (<[bn := f (V bn)]> V) k' /\ tx_frame k k'.
Proof.
  intros Ht Hn Hl Ho. destruct (bread_tx _ _ _ _ _ _ bn Ht Hfuel Hn Hl) as (b & k1 & E1 & Ht1 & Hf1 & Hx).
  destruct (update_tx _ _ n _ V k1 b bn f Ht1) as (k2 & k3 & E2 & E3 & Ht3 & Hf3); [left|by apply (fs_block_frame k)|].
  destruct (brelse_tx _ _ n _ held _ k3 b bn Ht3) as (k4 & E4 & Ht4 & Hf4); [done|].
  exists b, k1, k2, k3, k4. split_and!; try done.
  - by apply tx_frame_keeps in Hf1 as (_ & _ & -> & _).
  - by do 2 (etrans; [eassumption|]).
Qed.

Lemma bzero_run n held V k bno :
  tx dev me (S n) held V k -> bno ∉ held.*2 -> (length held <= 2)%nat -> fs_block k bno ->
  exists k', bzero dev bno k = Ok tt k' /\ tx dev me n held (<[bno := zero_block]> V) k' /\ tx_frame k k'.
Proof.
  intros Ht Hn Hl Ho. pose proof Ho as [Hr _].
  destruct (modify_block n held V k bno (fun _ => zero_block)) as (b & k1 & k2 & k3 & k' & E1 & E2 & E3 & E4 & _ & _ & Ht' & Hf); [done..|].
  exists k'. split_and!; [|done|done]. unfold bzero. rewrite (tx_dev _ _ _ _ Ht), (u32_small bno) by lia.
  erewrite bind_ok by exact E1. erewrite bind_ok by exact E2. erewrite bind_ok by exact E3. exact E4.
Qed.

(** ** The bitmap *)

Definition used (sb : superblock) (V : Z -> list Z) (b : Z) : bool := bit_used (V (BBLOCK b sb)) (b mod BPB).

(** The bitmap of a file system: its blocks and the log are marked as used. *)
Record bitmap_ok (k : kernel) (V : Z -> list Z) : Prop := {
  bm_size : 0 <= sb_size (k_sb k) < 2 ^ 31;
  bm_start : 0 <= sb_bmapstart (k_sb k);
  bm_end : sb_bmapstart (k_sb k) + sb_size (k_sb k) / BPB < sb_size (k_sb k);
  bm_len : forall b, 0 <= b < sb_size (k_sb k) -> length (V (BBLOCK b (k_sb k))) = Z.to_nat BSIZE;
  bm_self : forall b, 0 <= b < sb_size (k_sb k) -> used (k_sb k) V (BBLOCK b (k_sb k)) = true;
  bm_fs : forall b, 0 <= b < sb_size (k_sb k) -> fs_block k (BBLOCK b (k_sb k));
  bm_log : forall b, 0 <= b < sb_size (k_sb k) -> ~ fs_block k b -> used (k_sb k) V b = true
}.

Lemma bblock_eq k V b :
  bitmap_ok k V -> 0 <= b < sb_size (k_sb k) ->
  BBLOCK b (k_sb k) = b / BPB + sb_bmapstart (k_sb k) /\ 0 <= BBLOCK b (k_sb k) < sb_size (k_sb k).
Proof.
  intros [Hs Hst He _ _ _ _] Hb. unfold BBLOCK. change BPB with 8192 in *.
  assert (0 <= b / 8192 <= sb_size (k_sb k) / 8192) by (split; [apply Z.div_pos; lia|apply Z.div_le_mono; lia]).
  rewrite u32_small by lia. lia.
Qed.

(** A bitmap block holds the bits of its own range. *)
Lemma bblock_inj k V b b' :
  bitmap_ok k V -> 0 <= b < sb_size (k_sb k) -> 0 <= b' < sb_size (k_sb k) ->
  BBLOCK b (k_sb k) = BBLOCK b' (k_sb k) -> b mod BPB = b' mod BPB -> b = b'.
Proof.
  intros Hbm Hb Hb' E Em. pose proof (bblock_eq k V b Hbm Hb) as [E1 _]. pose proof (bblock_eq k V b' Hbm Hb') as [E2 _].
  change BPB with 8192 in *. Z.div_mod_to_equations. lia.
Qed.

(** The first block that is not marked as used. *)
Definition first_free (sb : superblock) (V : Z -> list Z) (b : Z) : Prop :=
  0 <= b < sb_size sb /\ used sb V b = false /\ forall b', 0 <= b' < b -> used sb V b' = true.

(** The view after [balloc] of block [b]. *)
Definition allocated (sb : superblock) (b : Z) (V : Z -> list Z) : Z -> list Z :=
  <[b := zero_block]> (<[BBLOCK b sb := set_bit (V (BBLOCK b sb)) (b mod BPB)]> V).

Lemma allocated_used k V b b' :
  bitmap_ok k V -> 0 <= b < sb_size (k_sb k) -> used (k_sb k) V b = false -> 0 <= b' < sb_size (k_sb k) ->
  used (k_sb k) (allocated (k_sb k) b V) b' = if decide (b' = b) then true else used (k_sb k) V b'.
Proof.
  intros Hbm Hb Hfree Hb'. unfold used, allocated. pose proof (bm_self _ _ Hbm b' Hb') as Hself.
  rewrite fn_lookup_insert_ne by (intros E; rewrite E in Hfree; congruence).
  destruct (decide (BBLOCK b' (k_sb k) = BBLOCK b (k_sb k))) as [E|E].
  - rewrite E, fn_lookup_insert, set_bit_used.
    + repeat case_decide; subst; try done. exfalso. eauto using bblock_inj.
    + apply Z.mod_pos_bound. done.
    + apply Z.mod_pos_bound. done.
    + by apply (bm_len _ _ Hbm).
  - rewrite fn_lookup_insert_ne by done. rewrite decide_False by (by intros ->). done.
Qed.

Lemma bitmap_ok_frame k k' V : tx_frame k k' -> bitmap_ok k V -> bitmap_ok k' V.
Proof.
  intros Hf. pose proof (fun b => fs_block_frame k k' b Hf) as Hb. pose proof Hf as (_ & Esb & _)%tx_frame_keeps.
  intros []. split; rewrite ?Esb; try done; intros b Hr; rewrite Hb; auto.
Qed.

(** The case of an exhausted disk. *)
Definition out_of_blocks : M kernel Z := printf ("balloc: out of blocks" ++ newline) [] ;; ret 0.

Lemma balloc_loop_run n held V :
  (length held <= 2)%nat ->
  forall fuel j k, tx dev me (S (S n)) held V k -> bitmap_ok k V ->
  (forall b, 0 <= b < sb_size (k_sb k) -> BBLOCK b (k_sb k) ∉ held.*2) ->
  (forall b, first_free (k_sb k) V b -> b ∉ held.*2) ->
  0 <= j -> (forall b, 0 <= b < BPB * j -> b < sb_size (k_sb k) -> used (k_sb k) V b = true) ->
  sb_size (k_sb k) < BPB * (j + Z.of_nat fuel - 1) + 1 -> (0 < fuel)%nat ->
  exists k', tx_frame k k' /\
    ((exists b, balloc_loop fuel dev (BPB * j) k = Ok b k' /\ first_free (k_sb k) V b /\
        tx dev me n held (allocated (k_sb k) b V) k') \/
     (balloc_loop fuel dev (BPB * j) k = out_of_blocks k' /\ tx dev me (S (S n)) held V k' /\
        forall b, 0 <= b < sb_size (k_sb k) -> used (k_sb k) V b = true)).
Proof.
  intros Hle fuel. induction fuel as [|fuel IH]; intros j k Ht Hbm Hh1 Hh2 Hj Hused Hfl Hpos; [lia|]. cbn [balloc_loop].
  unfold get_sb. rewrite bind_gets. destruct (Z.ltb_spec (BPB * j) (sb_size (k_sb k))) as [Hlt|Hge]; cbn [negb].
  2: { exists k. split; [done|]. right. split_and!; [done|done|]. intros b Hb. apply Hused; lia. }
  assert (0 <= BPB * j < sb_size (k_sb k)) as Hb0 by (change BPB with 8192 in *; lia).
  pose proof (bblock_eq _ _ _ Hbm Hb0) as [Ebb _].
  assert (forall y, 0 <= y < BPB -> BPB * j + y < sb_size (k_sb k) ->
    BBLOCK (BPB * j + y) (k_sb k) = BBLOCK (BPB * j) (k_sb k) /\ (BPB * j + y) mod BPB = y) as Hin.
  { intros y Hy Hs. rewrite Ebb. pose proof (bblock_eq _ _ (BPB * j + y) Hbm ltac:(change BPB with 8192 in *; lia)) as [-> _].
    change BPB with 8192 in *. split; Z.div_mod_to_equations; lia. }
  set (B := BBLOCK (BPB * j) (k_sb k)) in *.
  pose proof (balloc_find_spec (Z.to_nat BPB) (V B) (BPB * j) 0 (sb_size (k_sb k)) ltac:(lia)) as Hfind.
  rewrite Z2Nat.id in Hfind by done.
  destruct (bread_tx _ _ _ _ _ _ B Ht Hfuel (Hh1 _ Hb0) Hle) as (bp & k1 & E1 & Ht1 & Hf1 & x & Hx & Hd).
  erewrite bind_ok by exact E1. erewrite bind_ok by exact Hx. rewrite Hd.
  destruct (balloc_find (Z.to_nat BPB) (V B) (BPB * j) 0 (sb_size (k_sb k))) as [bi|].
  - destruct Hfind as (Hbi & Hs & Hfree & Hbefore). rewrite Z.add_0_l in Hbi.
    destruct (Hin bi Hbi Hs) as [EB Em].
    assert (first_free (k_sb k) V (BPB * j + bi)) as Hff.
    { split_and!; [change BPB with 8192 in *; lia|done| |].
      - unfold used. by rewrite EB, Em.
      - intros b' Hb'. destruct (decide (b' < BPB * j)); [apply Hused; lia|].
        replace b' with (BPB * j + (b' - BPB * j)) by lia. unfold used.
        destruct (Hin (b' - BPB * j)) as [-> ->]; [lia|lia|]. apply Hbefore. lia. }
    destruct (update_tx _ _ (S n) _ V k1 bp B (fun d => set_bit d bi) Ht1) as (k2 & k3 & E2 & E3 & Ht3 & Hf3);
      [left|apply (fs_block_frame k); [done|by apply (bm_fs _ _ Hbm)]|].
    destruct (brelse_tx _ _ _ _ held _ k3 bp B Ht3) as (k4 & E4 & Ht4 & Hf4); [done|].
    assert (tx_frame k k4) as Hf by (by do 2 (etrans; [eassumption|])).
    destruct (bzero_run n held (<[B := set_bit (V B) bi]> V) k4 (BPB * j + bi)) as (k5 & E5 & Ht5 & Hf5);
      [done|by apply Hh2|done| |].
    { apply (fs_block_frame k); [done|]. destruct Hff as (Hr & Hfr & _).
      destruct (decide (l_start (k_log k) <= BPB * j + bi < l_start (k_log k) + l_size (k_log k))) as [Hlog|Hlog].
      - rewrite (bm_log _ _ Hbm) in Hfr; [done|lia|]. intros [_ Hno]. done.
      - split; [|done]. pose proof (bm_size _ _ Hbm). lia. }
    exists k5. split; [by etrans|]. left. exists (BPB * j + bi).
    erewrite bind_ok by exact E2. erewrite bind_ok by exact E3. erewrite bind_ok by exact E4. erewrite bind_ok by exact E5.
    split_and!; [|done|].
    + unfold ret. rewrite u32_small; [done|]. pose proof (bm_size _ _ Hbm). change BPB with 8192 in *. lia.
    + unfold allocated. by rewrite EB, Em.
  - destruct (brelse_tx _ _ _ _ held _ k1 bp B Ht1) as (k2 & E2 & Ht2 & Hf2); [done|]. erewrite bind_ok by exact E2.
    assert (tx_frame k k2) as Hf by (by etrans). pose proof Hf as (_ & Esb & _)%tx_frame_keeps.
    replace (BPB * j + BPB) with (BPB * (j + 1)) by lia.
    destruct (IH (j + 1) k2 Ht2) as (k3 & Hf3 & Hres); rewrite ?Esb; try done; try lia.
    + by eapply bitmap_ok_frame.
    + intros b Hb Hbs. destruct (decide (b < BPB * j)); [apply Hused; lia|].
      replace b with (BPB * j + (b - BPB * j)) by lia. unfold used.
      destruct (Hin (b - BPB * j)) as [-> ->]; [lia|lia|]. apply Hfind; lia.
    + change BPB with 8192 in *. lia.
    + rewrite Esb in Hres. exists k3. split; [by etrans|done].
Qed.

(** C19: [balloc] takes the first block whose bit in the bitmap is clear. It
    returns the block zeroed and marked as used; every other bit and every
    block other than it and its bitmap block is unchanged, so that no block is
    handed out twice. Only when every block is in use does it print its
    message and return 0. *)
Theorem balloc_spec n held V k :
  tx dev me (S (S n)) held V k -> (length held <= 2)%nat -> bitmap_ok k V ->
  (forall b, 0 <= b < sb_size (k_sb k) -> BBLOCK b (k_sb k) ∉ held.*2) ->
  (forall b, first_free (k_sb k) V b -> b ∉ held.*2) ->
  exists k', tx_frame k k' /\
    ((exists b, balloc dev k = Ok b k' /\ first_free (k_sb k) V b /\ tx dev me n held (allocated (k_sb k) b V) k' /\
        (forall b', 0 <= b' < sb_size (k_sb k) ->
           used (k_sb k) (allocated (k_sb k) b V) b' = if decide (b' = b) then true else used (k_sb k) V b') /\
        (forall c, c <> b -> c <> BBLOCK b (k_sb k) -> allocated (k_sb k) b V c = V c)) \/
     (balloc dev k = out_of_blocks k' /\ tx dev me (S (S n)) held V k' /\
        forall b, 0 <= b < sb_size (k_sb k) -> used (k_sb k) V b = true)).
Proof.
  intros Ht Hle Hbm Hh1 Hh2. unfold balloc, get_sb. rewrite bind_gets. pose proof (bm_size _ _ Hbm) as Hsz.
  destruct (balloc_loop_run n held V Hle (S (S (Z.to_nat (sb_size (k_sb k) / BPB)))) 0 k)
    as (k' & Hf & Hres); try done; try lia.
  { change BPB with 8192 in *. Z.div_mod_to_equations. lia. }
  rewrite Z.mul_0_r in Hres. exists k'. split; [done|]. destruct Hres as [(b & E & Hff & Ht')|Hres]; [left|by right].
  exists b. split_and!; [done|done|done| |].
  - intros b' Hb'. destruct Hff as (Hb & Hfree & _). by apply allocated_used.
  - intros c Hc Hc'. unfold allocated. by rewrite !fn_lookup_insert_ne by congruence.
Qed.

(** [bfree] clears the bit of a block that is marked as used and changes
    nothing else; it panics for a block that is free already. Freeing a block
    that [balloc] just marked restores the bitmap block bit for bit. *)
Theorem bfree_spec n held V k b :
  tx dev me (S n) held V k -> (length held <= 2)%nat -> bitmap_ok k V -> 0 <= b < sb_size (k_sb k) ->
  BBLOCK b (k_sb k) ∉ held.*2 ->
  let V' := <[BBLOCK b (k_sb k) := clear_bit (V (BBLOCK b (k_sb k))) (b mod BPB)]> V in
  (if used (k_sb k) V b then
     exists k', bfree dev b k = Ok tt k' /\ tx dev me n held V' k' /\ tx_frame k k' /\
       forall b', 0 <= b' < sb_size (k_sb k) -> used (k_sb k) V' b' = if decide (b' = b) then false else used (k_sb k) V b'
   else exists k', bfree dev b k = Panic "freeing free block" k') /\
  (forall V0, used (k_sb k) V0 b = false ->
     V (BBLOCK b (k_sb k)) = set_bit (V0 (BBLOCK b (k_sb k))) (b mod BPB) -> V' (BBLOCK b (k_sb k)) = V0 (BBLOCK b (k_sb k))).
Proof.
  intros Ht Hle Hbm Hb Hh V'. pose proof (Z.mod_pos_bound b BPB ltac:(done)) as Hm. split.
  - unfold bfree, get_sb. rewrite bind_gets, (tx_dev _ _ _ _ Ht).
    destruct (modify_block n held V k (BBLOCK b (k_sb k)) (fun d => clear_bit d (b mod BPB)))
      as (bp & k1 & k2 & k3 & k' & E1 & E2 & E3 & E4 & (x & Hx & Hd) & _ & Ht' & Hf); [done..|by apply (bm_fs _ _ Hbm)|].
    erewrite bind_ok by exact E1. erewrite bind_ok by exact Hx. rewrite Hd.
    change (bit_used (V (BBLOCK b (k_sb k))) (b mod BPB)) with (used (k_sb k) V b).
    destruct (used (k_sb k) V b); cbn [negb]; [|by eexists].
    exists k'. split_and!; [|done|done|].
    + erewrite bind_ok by exact E2. erewrite bind_ok by exact E3. exact E4.
    + intros b' Hb'. unfold used, V'. destruct (decide (BBLOCK b' (k_sb k) = BBLOCK b (k_sb k))) as [E|E].
      * rewrite E, fn_lookup_insert, clear_bit_used; [|done|by apply Z.mod_pos_bound|by apply (bm_len _ _ Hbm)].
        repeat case_decide; subst; try done. exfalso. eauto using bblock_inj.
      * rewrite fn_lookup_insert_ne by done. rewrite decide_False by (by intros ->). done.
  - intros V0 Hfree E. unfold V'. rewrite fn_lookup_insert, E. apply clear_set_bit; [lia|done].
Qed.

End blocks.
