(* ===== verification/FsFile.v ===== *)
(** * Specification of file contents

    [bmap], [readi] and [writei] on a file whose blocks are allocated: the
    bytes of a file are those of its blocks in order, [readi] returns them
    and [writei] replaces them. *)

From stdpp Require Import functions.
From S2P Require Import Prelude Riscv Machine Spinlock PhysMem Kalloc PageTable Vm VmSpec VmCopy Kernel Sched Sleeplock Bio Bytes Uart Printf Log Fs Thread BioRing BioSpec LogDisk LogSpec SchedSpec PipeSpec FsTx FsBlocks.

(** ** The blocks and bytes of a file *)

(** The disk block of block [j] of the file; 0 for a hole. *)
Definition blk_addr (V : Z -> list Z) (ip : inode) (j : Z) : Z :=
  if j <? NDIRECT then default 0 (i_addrs ip !! Z.to_nat j)
  else let ind := default 0 (i_addrs ip !! Z.to_nat NDIRECT) in
       if ind =? 0 then 0 else get32 (V ind) (4 * (j - NDIRECT)).

Definition ind_addr (ip : inode) : Z := default 0 (i_addrs ip !! Z.to_nat NDIRECT).

(** The byte at offset [o], and [n] bytes from [off] on. *)
Definition file_byte (V : Z -> list Z) (ip : inode) (o : Z) : Z :=
  default 0 (V (blk_addr V ip (o / BSIZE)) !! Z.to_nat (o mod BSIZE)).

Definition file_slice (V : Z -> list Z) (ip : inode) (off n : Z) : list Z := file_byte V ip <$> seqZ off n.

Lemma length_file_slice V ip off n : length (file_slice V ip off n) = Z.to_nat n.
Proof. unfold file_slice. by rewrite length_fmap, length_seqZ. Qed.

Lemma file_slice_app V ip off n m :
  0 <= n -> 0 <= m -> file_slice V ip off (n + m) = file_slice V ip off n ++ file_slice V ip (off + n) m.
Proof. intros Hn Hm. unfold file_slice. by rewrite seqZ_app, fmap_app. Qed.

(** Bytes inside one block. *)
Lemma file_slice_block V ip off m :
  0 <= off -> 0 <= m -> off mod BSIZE + m <= BSIZE -> length (V (blk_addr V ip (off / BSIZE))) = Z.to_nat BSIZE ->
  file_slice V ip off m = slice (V (blk_addr V ip (off / BSIZE))) (off mod BSIZE) m.
Proof.
  intros Ho Hm Hfit Hlen. pose proof (Z.mod_pos_bound off BSIZE ltac:(done)) as Hmod.
  apply list_eq. intros j. rewrite lookup_slice by lia. unfold file_slice. rewrite list_lookup_fmap.
  case_decide as Hj.
  - rewrite lookup_seqZ_lt by lia. cbn. unfold file_byte.
    assert ((off + Z.of_nat j) / BSIZE = off / BSIZE /\ (off + Z.of_nat j) mod BSIZE = off mod BSIZE + Z.of_nat j) as [-> ->].
    { change BSIZE with 1024 in *. Z.div_mod_to_equations. lia. }
    destruct (lookup_lt_is_Some_2 (V (blk_addr V ip (off / BSIZE))) (Z.to_nat (off mod BSIZE) + j)%nat) as [x Hx]; [lia|].
    rewrite Hx. f_equal. replace (Z.to_nat (off mod BSIZE + Z.of_nat j)) with (Z.to_nat (off mod BSIZE) + j)%nat by lia.
    by rewrite Hx.
  - by rewrite lookup_seqZ_ge by lia.
Qed.

(** The first [nb] blocks of the file are allocated, to different blocks that
    transactions may change. *)
Record file_ok `{Platform} (k : kernel) (V : Z -> list Z) (ip : inode) (nb : Z) : Prop := {
  fo_max : 0 <= nb <= MAXFILE;
  fo_addr : forall j, 0 <= j < nb -> blk_addr V ip j <> 0 /\ fs_block k (blk_addr V ip j) /\
    length (V (blk_addr V ip j)) = Z.to_nat BSIZE;
  fo_inj : forall j j', 0 <= j < nb -> 0 <= j' < nb -> blk_addr V ip j = blk_addr V ip j' -> j = j';
  fo_ind : forall j, 0 <= j < nb -> blk_addr V ip j <> ind_addr ip
}.

Section file.
Context `{KernelLayout} `{Platform} `{Fuel} `{!DiskDriver} `{!DiskLaws}.
Context (dev : Z) (me : nat).
Implicit Types (k : kernel) (V : Z -> list Z) (held : list (nat * Z)).

Lemma file_ok_frame k k' V ip nb : tx_frame k k' -> file_ok k V ip nb -> file_ok k' V ip nb.
Proof.
  intros Hf [Hm Ha Hi Hd]. split; try done. intros j Hj. rewrite (fs_block_frame k k' _ Hf). auto.
Qed.

Lemma get_inode_run i ip k : k_itable k !! i = Some ip -> get_inode i k = Ok ip k.
Proof. apply get_entry. Qed.

(** ** Sources and destinations *)

Definition my_pt (k : kernel) : Z := match k_proc k !! me with Some p => p_pagetable p | None => 0 end.

(** The source [src] holds [bytes]. *)
Definition source_ok (src : ksrc) (bytes : list Z) (k : kernel) : Prop :=
  match src with
  | LocalSrc bs => bs = bytes
  | UserSrc va => pt_wf 2 (m_mem (k_m k)) (my_pt k) [] /\ 0 <= va /\ va + Z.of_nat (length bytes) < 2 ^ 64 /\
      forall j b, bytes !! j = Some b -> ubyte (m_mem (k_m k)) (my_pt k) (va + Z.of_nat j) = Some b
  end.

Lemma my_pt_frame k k' : calm [] me k -> tx_frame k k' -> my_pt k' = my_pt k.
Proof.
  intros Hc Hf. destruct (me_entry _ _ _ Hc) as [p Hp]. destruct (tx_frame_proc _ _ _ _ Hf Hp) as (q & Hq & Hw).
  unfold my_pt. rewrite Hp, Hq. by destruct Hw as [->|[_ ->]].
Qed.

Lemma source_frame src bytes k k' : calm [] me k -> tx_frame k k' -> source_ok src bytes k -> source_ok src bytes k'.
Proof.
  intros Hc Hf. pose proof (my_pt_frame _ _ Hc Hf) as E. pose proof Hf as (Em & _)%tx_frame_keeps.
  unfold source_ok. by rewrite E, Em.
Qed.

Lemma either_copyin_run src bytes m k :
  calm [] me k -> source_ok src bytes k -> 0 <= m <= Z.of_nat (length bytes) ->
  either_copyin src m k = Ok (0, take (Z.to_nat m) bytes) k /\
  source_ok (src_add src m) (drop (Z.to_nat m) bytes) k.
Proof.
  intros Hc Hs Hm. pose proof Hc as (Hset & _ & Hr & _). destruct (me_entry _ _ _ Hc) as [p Hp].
  unfold either_copyin. erewrite bind_ok by by apply myproc_calm. destruct src as [va|bs]; cbn in Hs |- *; [|by subst bs].
  destruct Hs as (Hwf & Hva & Hmax & Hb). assert (my_pt k = p_pagetable p) as Ept by (unfold my_pt; by rewrite Hp).
  rewrite bind_ret. unfold get_proc. erewrite bind_ok by by apply get_entry. rewrite Ept in *. split.
  - destruct (copyin_run (p_pagetable p) va m (k_m k)) as (r & bs & E & Hbs & Hres); [done|lia|lia|].
    erewrite mach_state by exact E. destruct Hres as [[-> Hl]|(-> & Hl & Hn)].
    + do 2 f_equal. apply list_eq. intros j. destruct (decide (j < Z.to_nat m)%nat) as [Hj|Hj].
      * rewrite lookup_take_lt by lia. destruct (lookup_lt_is_Some_2 bs j) as [b Hbj]; [lia|].
        destruct (lookup_lt_is_Some_2 bytes j) as [c Hcj]; [lia|]. apply Hbs in Hbj as E1. apply Hb in Hcj as E2. congruence.
      * rewrite lookup_take_ge by lia. apply lookup_ge_None. lia.
    + destruct (lookup_lt_is_Some_2 bytes (length bs)) as [c Hcj]; [lia|]. apply Hb in Hcj. congruence.
  - rewrite u64_small by lia. split_and!; [done|lia|rewrite length_drop; lia|]. intros j b Hj.
    rewrite lookup_drop in Hj. apply Hb in Hj. rewrite <- Hj. f_equal. lia.
Qed.

(** The destination [dst] has room for [n] bytes. *)
Definition dst_ok (dst : kdst) (n : Z) (k : kernel) : Prop :=
  match dst with
  | LocalDst => True
  | PhysDst _ => False
  | UserDst va => (exists D fl, vm_inv D fl (my_pt k) (k_m k) /\ umap_ok D (m_mem (k_m k)) (my_pt k)) /\
      0 <= va /\ va + n < 2 ^ 64 /\ forall j, 0 <= j < n -> ubyte (m_mem (k_m k)) (my_pt k) (va + j) <> None
  end.

Lemma dst_frame dst n k k' : calm [] me k -> tx_frame k k' -> dst_ok dst n k -> dst_ok dst n k'.
Proof.
  intros Hc Hf. pose proof (my_pt_frame _ _ Hc Hf) as E. pose proof Hf as (Em & _)%tx_frame_keeps.
  unfold dst_ok. by rewrite E, Em.
Qed.

(** The machine [m'] is [m], up to user memory, where [bytes] are stored at the
    destination. *)
Definition received (pt : Z) (dst : kdst) (bytes : list Z) (m m' : machine) : Prop :=
  match dst with
  | UserDst va => delivered (m_mem m) (m_mem m') pt va (length bytes) bytes
  | _ => m' = m
  end.

Lemma either_copyout_run dst n bytes k :
  calm [] me k -> dst_ok dst n k -> Forall (fun b => 0 <= b < 256) bytes -> Z.of_nat (length bytes) <= n ->
  exists m', either_copyout dst bytes k = Ok 0 (k <| k_m := m' |>) /\
    m_core m' = m_core (k_m k) /\ m_locks m' = m_locks (k_m k) /\
    received (my_pt k) dst bytes (k_m k) m' /\
    dst_ok (dst_add dst (Z.of_nat (length bytes))) (n - Z.of_nat (length bytes)) (k <| k_m := m' |>).
Proof.
  intros Hc Hs Hby Hn. pose proof Hc as (Hset & _ & Hr & _). destruct (me_entry _ _ _ Hc) as [p Hp].
  unfold either_copyout. erewrite bind_ok by by apply myproc_calm. destruct dst as [va|pa|]; cbn in Hs |- *; [|done|].
  2: { exists (k_m k). split_and!; try done. unfold ret. f_equal. by destruct k. }
  assert (my_pt k = p_pagetable p) as Ept by (unfold my_pt; by rewrite Hp).
  destruct Hs as ((D & fl & Hinv & Hu) & Hva & Hmax & Hmap). rewrite Ept in *.
  rewrite bind_ret. unfold get_proc. erewrite bind_ok by by apply get_entry.
  destruct (copyout_run D fl (p_pagetable p) va bytes (k_m k)) as (r & m' & c & E & Hi & (Hcore & Hlocks & _) & Hl & Hb & Hres); [done|done|lia|done|].
  destruct Hres as [(-> & -> & _)|(_ & Hlt & Hnone)].
  2: { exfalso. apply (Hmap (Z.of_nat c)); [lia|done]. }
  exists m'. do 4 (split; [first [by apply mach_ok|done|exact Hb]|]). change (my_pt (k <| k_m := m' |>)) with (my_pt k).
  rewrite Ept, u64_small by lia. split; [|split; [lia|split; [lia|]]].
  - exists D, fl. split; [done|]. cbn. by eapply umap_ok_lookup.
  - intros j Hj. cbn. rewrite Hb by lia. rewrite decide_False by lia.
    replace (va + Z.of_nat (length bytes) + j) with (va + (Z.of_nat (length bytes) + j)) by lia. apply Hmap. lia.
Qed.

Lemma received_nil pt dst m : received pt dst [] m m.
Proof. destruct dst as [va| |]; [|done..]. intros a Ha. cbn. by rewrite decide_False by lia. Qed.

Lemma received_app pt dst b1 b2 m m1 m2 :
  (match dst with UserDst va => 0 <= va /\ va + Z.of_nat (length b1) < 2 ^ 64 | _ => True end) ->
  received pt dst b1 m m1 -> received pt (dst_add dst (Z.of_nat (length b1))) b2 m1 m2 ->
  received pt dst (b1 ++ b2) m m2.
Proof.
  destruct dst as [va|pa|]; cbn; [|congruence..]. intros Hva Hr1 Hr2 a Ha. rewrite u64_small in Hr2 by lia.
  rewrite Hr2 by done. rewrite length_app. destruct (decide (va <= a < va + Z.of_nat (length b1 + length b2))) as [Hin|Hin].
  - case_decide as Hj.
    + rewrite lookup_app_r by lia. f_equal. lia.
    + rewrite Hr1 by done. rewrite decide_True by lia. rewrite lookup_app_l by lia. done.
  - rewrite decide_False by lia. rewrite Hr1 by done. by rewrite decide_False by lia.
Qed.

Context (Hfuel : wait_fuel <> O).

(** ** [bmap] of an allocated block *)

Lemma bmap_mapped n held V k i ip nb j :
  tx dev me n held V k -> (length held <= 2)%nat -> k_itable k !! i = Some ip -> i_dev ip = dev ->
  file_ok k V ip nb -> 0 <= j < nb -> ind_addr ip ∉ held.*2 ->
  exists k', bmap i j k = Ok (blk_addr V ip j) k' /\ tx dev me n held V k' /\ tx_frame k k'.
Proof.
  intros Ht Hle Hip Hdev Hok Hj Hind. destruct (fo_addr _ _ _ _ Hok j Hj) as (Hne & _).
  pose proof (fo_max _ _ _ _ Hok) as Hmax. unfold bmap, get_addr. unfold blk_addr in *.
  destruct (Z.ltb_spec j NDIRECT) as [Hd|Hd].
  - rewrite bind_bind. erewrite bind_ok by by apply get_inode_run. rewrite bind_ret.
    apply Z.eqb_neq in Hne. rewrite Hne. by exists k.
  - change MAXFILE with (12 + 256) in Hmax. change NDIRECT with 12 in *. change NINDIRECT with 256.
    destruct (Z.ltb_spec (j - 12) 256); [|lia].
    rewrite bind_bind. erewrite bind_ok by by apply get_inode_run. rewrite bind_ret. fold (ind_addr ip) in *.
    change (default 0 (i_addrs ip !! Z.to_nat 12)) with (ind_addr ip) in *.
    destruct (Z.eqb_spec (ind_addr ip) 0) as [E0|E0]; [done|]. rewrite bind_ret.
    rewrite (proj2 (Z.eqb_neq _ _) E0). erewrite bind_ok by by apply get_inode_run. rewrite Hdev.
    destruct (bread_tx _ _ _ _ _ _ (ind_addr ip) Ht Hfuel Hind Hle) as (bp & k1 & E1 & Ht1 & Hf1 & x & Hx & Hdx).
    erewrite bind_ok by exact E1. erewrite bind_ok by exact Hx. rewrite Hdx.
    rewrite (proj2 (Z.eqb_neq _ _) Hne), bind_ret.
    destruct (brelse_tx _ _ _ _ held _ _ bp (ind_addr ip) Ht1) as (k2 & E2 & Ht2 & Hf2); [done|].
    erewrite bind_ok by exact E2. exists k2. split_and!; [done|done|by etrans].
Qed.

(** ** [readi] *)

Section readi.
Context (n : nat) (held : list (nat * Z)) (V : Z -> list Z) (i : nat) (ip : inode) (nb : Z).
Context (Hheld : (length held <= 2)%nat) (Hdev : i_dev ip = dev).
Context (Hind : ind_addr ip ∉ held.*2) (Hblk : forall j, 0 <= j < nb -> blk_addr V ip j ∉ held.*2).

(** Frames of a read: what a transaction leaves alone, up to user memory. *)
Definition read_frame (m : machine) (k k' : kernel) : Prop := tx_frame (k <| k_m := m |>) k'.

(** Finding and reading the block that holds offset [off]. *)
Lemma fetch_block k off :
  tx dev me n held V k -> k_itable k !! i = Some ip -> file_ok k V ip nb -> 0 <= off < nb * BSIZE ->
  let a := blk_addr V ip (off / BSIZE) in
  exists k1 bp k2, bmap i (off / BSIZE) k = Ok a k1 /\ (a =? 0) = false /\ get_inode i k1 = Ok ip k1 /\
    bread (i_dev ip) a k1 = Ok bp k2 /\ tx dev me n ((bp, a) :: held) V k2 /\ tx_frame k k2 /\
    (exists x, get_buf bp k2 = Ok x k2 /\ b_data x = V a) /\ fs_block k a /\ length (V a) = Z.to_nat BSIZE.
Proof.
  intros Ht Hip Hok Hoff a.
  assert (0 <= off / BSIZE < nb) as Hj by (change BSIZE with 1024 in *; Z.div_mod_to_equations; lia).
  destruct (fo_addr _ _ _ _ Hok _ Hj) as (Hne & Hfs & Hlen).
  destruct (bmap_mapped n held V k i ip nb (off / BSIZE)) as (k1 & E1 & Ht1 & Hf1); [done..|].
  pose proof Hf1 as (Em1 & _ & Ei1 & _)%tx_frame_keeps.
  destruct (bread_tx _ _ _ _ _ _ a Ht1 Hfuel (Hblk _ Hj) Hheld) as (bp & k2 & E2 & Ht2 & Hf2 & Hx).
  exists k1, bp, k2. rewrite Hdev. split_and!; try done.
  - by apply Z.eqb_neq.
  - apply get_inode_run. by rewrite Ei1.
  - by etrans.
Qed.

Lemma readi_loop_run fuel : forall k dst off N tot acc,
  tx dev me n held V k -> k_itable k !! i = Some ip -> file_ok k V ip nb ->
  0 <= off -> 0 <= tot <= N -> off + (N - tot) <= nb * BSIZE ->
  Forall (fun b => 0 <= b < 256) (file_slice V ip off (N - tot)) -> dst_ok dst (N - tot) k ->
  (tot < N -> off mod BSIZE + (N - tot) <= BSIZE * (Z.of_nat fuel - 1)) -> (0 < fuel)%nat ->
  exists m' k', readi_loop fuel i dst off N tot acc k = Ok (N, acc ++ file_slice V ip off (N - tot)) k' /\
    tx dev me n held V k' /\ read_frame m' k k' /\
    received (my_pt k) dst (file_slice V ip off (N - tot)) (k_m k) m'.
Proof.
  induction fuel as [|fuel IH]; intros k dst off N tot acc Ht Hip Hok Hoff Htot Hsz Hby Hdst Hfl Hpos; [lia|].
  cbn [readi_loop]. destruct (Z.ltb_spec tot N) as [Hlt|Hge]; cbn [negb].
  2: { replace (N - tot) with 0 by lia. replace tot with N by lia. exists (k_m k), k. change (file_slice V ip off 0) with (@nil Z).
       rewrite app_nil_r. split_and!; [done|done| |].
       - unfold read_frame. by assert (k <| k_m := k_m k |> = k) as -> by (by destruct k).
       - apply received_nil. }
  destruct (fetch_block k off) as (k1 & bp & k2 & E1 & Hne & Eip & E2 & Ht2 & Hf & (x & Hx & Hdx) & Hfs & Hlen); [done..|lia|].
  set (a := blk_addr V ip (off / BSIZE)) in *. set (m := Z.min (N - tot) (BSIZE - off mod BSIZE)).
  erewrite bind_ok by exact E1. rewrite Hne. erewrite bind_ok by exact Eip.
  assert (0 < m /\ m <= N - tot /\ off mod BSIZE + m <= BSIZE) as (Hm0 & Hm1 & Hm2).
  { unfold m. pose proof (Z.mod_pos_bound off BSIZE ltac:(done)). lia. }
  erewrite bind_ok by exact E2. erewrite bind_ok by exact Hx. rewrite Hdx. unfold a.
  rewrite <- (file_slice_block V ip off m) by (done || lia). fold a.
  assert (file_slice V ip off (N - tot) = file_slice V ip off m ++ file_slice V ip (off + m) (N - (tot + m))) as Esp.
  { rewrite <- file_slice_app by lia. f_equal. lia. }
  rewrite Esp in *. apply Forall_app in Hby as [Hby1 Hby2].
  pose proof Hf as (Em2 & _)%tx_frame_keeps.
  pose proof (my_pt_frame _ _ (tx_calm _ _ _ _ _ _ Ht) Hf) as Ept.
  assert (Z.of_nat (length (file_slice V ip off m)) = m) as Elen by (rewrite length_file_slice; lia).
  destruct (either_copyout_run dst (N - tot) (file_slice V ip off m) k2) as (m2 & E3 & Hco & Hlo & Hrec & Hdst2);
    [by eapply tx_calm|eapply dst_frame; [exact (tx_calm _ _ _ _ _ _ Ht)|done|done]|done|lia|].
  erewrite bind_ok by exact E3. cbn [Z.eqb]. rewrite Elen in Hdst2.
  destruct (brelse_tx _ _ _ _ held _ _ bp a (tx_set_m _ _ _ _ _ _ m2 Ht2 Hco Hlo)) as (k4 & E4 & Ht4 & Hf4); [done|].
  erewrite bind_ok by exact E4. pose proof (tx_set_m _ _ _ _ _ _ m2 Ht2 Hco Hlo) as Ht3.
  assert (read_frame m2 k k4) as Hr.
  { unfold read_frame. etrans; [apply tx_frame_set_m; exact Hf|exact Hf4]. }
  pose proof Hr as (Em4 & _ & Ei4 & _)%tx_frame_keeps. cbn in Em4, Ei4.
  destruct (IH k4 (dst_add dst m) (off + m) N (tot + m) (acc ++ file_slice V ip off m))
    as (m' & k' & E5 & Ht5 & Hr5 & Hrec5); try done; try lia.
  { by rewrite Ei4. }
  { eapply file_ok_frame; [exact Hr|]. by destruct Hok. }
  { eapply dst_frame; [by eapply tx_calm|exact Hf4|]. by replace (N - (tot + m)) with (N - tot - m) by lia. }
  { intros Hlt'. specialize (Hfl Hlt). change BSIZE with 1024 in *. Z.div_mod_to_equations. lia. }
  { specialize (Hfl Hlt). pose proof (Z.mod_pos_bound off BSIZE ltac:(done)). lia. }
  exists m', k'. rewrite E5, app_assoc. split_and!; [done|done| |].
  - unfold read_frame in *. etrans; [|exact Hr5]. apply (tx_frame_set_m m') in Hr. exact Hr.
  - eapply received_app; [| |].
    + destruct dst; cbn in Hdst |- *; [|done..]. lia.
    + rewrite <- Em2, <- Ept. exact Hrec.
    + rewrite Elen, <- Em4. rewrite (my_pt_frame _ _ (tx_calm _ _ _ _ _ _ Ht3) Hf4) in Hrec5. cbn in Hrec5.
      change (my_pt (k2 <| k_m := m2 |>)) with (my_pt k2) in Hrec5. by rewrite Ept in Hrec5.
Qed.

End readi.

(** The number of bytes [readi] returns: up to the end of the file, none when
    the range is not one of 32-bit offsets. *)
Definition read_count (ip : inode) (off sz : Z) : Z :=
  if off + sz <? 2 ^ 32 then Z.max 0 (Z.min sz (i_size ip - off)) else 0.

Lemma readi_run n held V k i ip nb dst off sz :
  tx dev me n held V k -> (length held <= 2)%nat -> k_itable k !! i = Some ip -> i_dev ip = dev ->
  ind_addr ip ∉ held.*2 -> (forall j, 0 <= j < nb -> blk_addr V ip j ∉ held.*2) ->
  file_ok k V ip nb -> 0 <= i_size ip <= nb * BSIZE -> 0 <= off < 2 ^ 32 -> 0 <= sz < 2 ^ 32 ->
  let c := read_count ip off sz in
  Forall (fun b => 0 <= b < 256) (file_slice V ip off c) -> dst_ok dst c k ->
  exists m' k', readi i dst off sz k = Ok (c, file_slice V ip off c) k' /\ tx dev me n held V k' /\
    read_frame m' k k' /\ received (my_pt k) dst (file_slice V ip off c) (k_m k) m'.
Proof.
  intros Ht Hle Hip Hdev Hind Hblk Hok Hsize Hoff Hsz c Hby Hdst. unfold readi. erewrite bind_ok by by apply get_inode_run.
  pose proof (fo_max _ _ _ _ Hok) as Hmax. change MAXFILE with 268 in Hmax. change BSIZE with 1024 in Hsize.
  assert ((i_size ip <? off) || (u32 (off + sz) <? off) = true -> c = 0) as Hz.
  { unfold c, read_count. destruct (Z.ltb_spec (off + sz) (2 ^ 32)); [|done]. rewrite u32_small by lia.
    destruct (Z.ltb_spec (i_size ip) off); [lia|]. destruct (Z.ltb_spec (off + sz) off); [lia|done]. }
  destruct ((i_size ip <? off) || (u32 (off + sz) <? off)) eqn:Eg.
  - rewrite (Hz eq_refl). exists (k_m k), k. split_and!; [done|done| |apply received_nil].
    unfold read_frame. by assert (k <| k_m := k_m k |> = k) as -> by (by destruct k).
  - apply orb_false_iff in Eg as [Eg1%Z.ltb_ge Eg2%Z.ltb_ge].
    assert ((if i_size ip <? u32 (off + sz) then u32 (i_size ip - off) else sz) = c /\ 0 <= c /\ off + c <= i_size ip) as (-> & Hc).
    { unfold c, read_count. destruct (Z.ltb_spec (off + sz) (2 ^ 32)) as [Hs|Hs].
      - rewrite (u32_small (off + sz)) by lia. destruct (Z.ltb_spec (i_size ip) (off + sz)); [rewrite u32_small by lia|]; lia.
      - unfold u32 in Eg2. change (2 ^ 32) with 4294967296 in *. Z.div_mod_to_equations. lia. }
    destruct (readi_loop_run n held V i ip nb Hle Hdev Hind Hblk (S (S (S (Z.to_nat (c / BSIZE))))) k dst off c 0 [])
      as (m' & k' & E & Ht' & Hf & Hrec); rewrite ?Z.sub_0_r in *; try done; try lia.
    { change BSIZE with 1024. lia. }
    { intros _. change BSIZE with 1024 in *. Z.div_mod_to_equations. lia. }
    erewrite bind_ok by exact E. exists m', k'. split_and!; [|done..]. unfold ret. cbn [fst snd app].
    rewrite s32_small by lia. done.
Qed.

(** C18: [readi] of [sz] bytes at [off] returns the bytes of the file there, cut at
    its size, both to a local buffer and to user memory; it ends within its
    iteration bound, reports the number of bytes and changes neither the
    file, the log nor any block's contents. *)
Theorem readi_spec n held V k i ip nb dst off sz :
  tx dev me n held V k -> (length held <= 2)%nat -> k_itable k !! i = Some ip -> i_dev ip = dev ->
  ind_addr ip ∉ held.*2 -> (forall j, 0 <= j < nb -> blk_addr V ip j ∉ held.*2) ->
  file_ok k V ip nb -> 0 <= i_size ip <= nb * BSIZE -> 0 <= off < 2 ^ 32 -> 0 <= sz < 2 ^ 32 ->
  let c := read_count ip off sz in
  Forall (fun b => 0 <= b < 256) (file_slice V ip off c) -> dst_ok dst c k ->
  exists m' k', readi i dst off sz k = Ok (c, file_slice V ip off c) k' /\ tx dev me n held V k' /\
    read_frame m' k k' /\ received (my_pt k) dst (file_slice V ip off c) (k_m k) m'.
Proof. apply readi_run. Qed.

End file.
