(* ===== verification/FsWrite.v ===== *)
(** * Specification of file writes

    [writei] on a file whose blocks are allocated replaces the bytes written
    and nothing else, and [iupdate] stores the inode so that [ilock] reads
    the same inode back. *)

From stdpp Require Import functions.
From S2P Require Import Prelude Riscv Machine Spinlock PhysMem Kalloc PageTable Vm VmSpec VmCopy Kernel Sched Sleeplock Bio Bytes Uart Printf Log Fs Thread BioRing BioSpec LogDisk LogSpec SchedSpec PipeSpec FsTx FsBlocks FsFile.

(** ** The effect of a write *)

(** [V'] is [V] with [bytes] stored at offset [off] of the file. *)
Record written (V V' : Z -> list Z) (ip : inode) (nb off : Z) (bytes : list Z) : Prop := {
  wr_bytes : forall o, 0 <= o < nb * BSIZE -> file_byte V' ip o =
    if decide (off <= o < off + Z.of_nat (length bytes)) then default 0 (bytes !! Z.to_nat (o - off)) else file_byte V ip o;
  wr_other : forall b, (forall j, 0 <= j < nb -> b <> blk_addr V ip j) -> V' b = V b;
  wr_len : forall b, length (V' b) = length (V b)
}.

Section written.
Context `{Platform}.

Lemma blk_addr_ext V V' ip j : V' (ind_addr ip) = V (ind_addr ip) -> blk_addr V' ip j = blk_addr V ip j.
Proof. intros E. unfold blk_addr. fold (ind_addr ip). by rewrite E. Qed.

(** The addresses of the blocks do not change. *)
Lemma written_addr k V V' ip nb off bytes j :
  file_ok k V ip nb -> written V V' ip nb off bytes -> blk_addr V' ip j = blk_addr V ip j.
Proof. intros Hok Hw. apply blk_addr_ext, (wr_other _ _ _ _ _ _ Hw). intros j' Hj' E. by apply (fo_ind _ _ _ _ Hok j'). Qed.

Lemma written_ok k V V' ip nb off bytes : file_ok k V ip nb -> written V V' ip nb off bytes -> file_ok k V' ip nb.
Proof.
  intros Hok Hw. pose proof (fun j => written_addr _ _ _ _ _ _ _ j Hok Hw) as E. destruct Hok as [Hm Ha Hi Hd].
  split; [done| | |]; intros j; rewrite ?E; auto.
  - intros Hj. rewrite (wr_len _ _ _ _ _ _ Hw). auto.
  - intros j'. rewrite E. auto.
Qed.

Lemma written_nil V ip nb off : written V V ip nb off [].
Proof. split; [|done..]. intros o Ho. by rewrite decide_False by (cbn; lia). Qed.

Lemma written_app k V V1 V2 ip nb off b1 b2 :
  file_ok k V ip nb -> written V V1 ip nb off b1 -> written V1 V2 ip nb (off + Z.of_nat (length b1)) b2 ->
  written V V2 ip nb off (b1 ++ b2).
Proof.
  intros Hok Hw1 Hw2. pose proof (fun j => written_addr _ _ _ _ _ _ _ j Hok Hw1) as E. split.
  - intros o Ho. rewrite (wr_bytes _ _ _ _ _ _ Hw2) by done. rewrite length_app. case_decide as Hin.
    + rewrite decide_True, lookup_app_r by lia. do 2 f_equal. lia.
    + rewrite (wr_bytes _ _ _ _ _ _ Hw1) by done. case_decide as Hin1.
      * rewrite decide_True by lia. by rewrite lookup_app_l by lia.
      * by rewrite decide_False by lia.
  - intros b Hb. rewrite (wr_other _ _ _ _ _ _ Hw2); [by apply (wr_other _ _ _ _ _ _ Hw1)|]. intros j. rewrite E. auto.
  - intros b. by rewrite (wr_len _ _ _ _ _ _ Hw2), (wr_len _ _ _ _ _ _ Hw1).
Qed.

(** A write inside one block. *)
Lemma written_block k V ip nb off bytes :
  file_ok k V ip nb -> 0 <= off < nb * BSIZE -> off mod BSIZE + Z.of_nat (length bytes) <= BSIZE ->
  let a := blk_addr V ip (off / BSIZE) in
  written V (<[a := splice (V a) (off mod BSIZE) bytes]> V) ip nb off bytes.
Proof.
  intros Hok Hoff Hfit a. pose proof (Z.mod_pos_bound off BSIZE ltac:(done)) as Hmod.
  assert (0 <= off / BSIZE < nb) as Hj by (change BSIZE with 1024 in *; Z.div_mod_to_equations; lia).
  destruct (fo_addr _ _ _ _ Hok _ Hj) as (_ & _ & Hlen). fold a in Hlen. split.
  - intros o Ho. unfold file_byte at 1. rewrite (blk_addr_ext V) by (apply fn_lookup_insert_ne, (fo_ind _ _ _ _ Hok _ Hj)).
    assert (0 <= o / BSIZE < nb) as Hjo by (change BSIZE with 1024 in *; Z.div_mod_to_equations; lia).
    destruct (decide (o / BSIZE = off / BSIZE)) as [Ej|Ej].
    + rewrite Ej. fold a. rewrite fn_lookup_insert, lookup_splice by (rewrite ?Hlen; lia).
      unfold file_byte. rewrite Ej. fold a. pose proof (Z.mod_pos_bound o BSIZE ltac:(done)).
      assert (o - off = o mod BSIZE - off mod BSIZE) as Eo by (change BSIZE with 1024 in *; Z.div_mod_to_equations; lia).
      case_decide; case_decide; try lia. do 2 f_equal. lia.
    + rewrite fn_lookup_insert_ne by (intros E; apply Ej; symmetry; by apply (fo_inj _ _ _ _ Hok)).
      rewrite decide_False; [done|]. intros Hin. apply Ej. change BSIZE with 1024 in *. Z.div_mod_to_equations. lia.
  - intros b Hb. apply fn_lookup_insert_ne. intros <-. by apply (Hb _ Hj).
  - intros b. destruct (decide (b = a)) as [->|]; [|by rewrite fn_lookup_insert_ne].
    rewrite fn_lookup_insert, length_splice; [done|lia|]. rewrite Hlen. lia.
Qed.

(** Reading back what was written. *)
Lemma written_slice V V' ip nb off bytes :
  written V V' ip nb off bytes -> 0 <= off -> off + Z.of_nat (length bytes) <= nb * BSIZE ->
  file_slice V' ip off (Z.of_nat (length bytes)) = bytes.
Proof.
  intros Hw Hoff Hsz. apply list_eq. intros j. unfold file_slice. rewrite list_lookup_fmap.
  destruct (decide (j < length bytes)%nat) as [Hj|Hj].
  - rewrite lookup_seqZ_lt by lia. cbn. rewrite (wr_bytes _ _ _ _ _ _ Hw) by lia. rewrite decide_True by lia.
    destruct (lookup_lt_is_Some_2 bytes j Hj) as [b Hb]. replace (Z.to_nat (off + Z.of_nat j - off)) with j by lia.
    by rewrite Hb.
  - rewrite lookup_seqZ_ge by lia. symmetry. apply lookup_ge_None. lia.
Qed.

(** Changing a block that is not of the file. *)
Lemma file_byte_other V ip nb B x o :
  B <> ind_addr ip -> (forall j, 0 <= j < nb -> B <> blk_addr V ip j) -> 0 <= o < nb * BSIZE ->
  file_byte (<[B := x]> V) ip o = file_byte V ip o.
Proof.
  intros Hi Hb Ho. unfold file_byte. rewrite (blk_addr_ext V) by by rewrite fn_lookup_insert_ne.
  rewrite fn_lookup_insert_ne; [done|]. apply Hb. change BSIZE with 1024 in *. Z.div_mod_to_equations. lia.
Qed.

Lemma file_slice_other V ip nb B x off n :
  B <> ind_addr ip -> (forall j, 0 <= j < nb -> B <> blk_addr V ip j) -> 0 <= off -> off + n <= nb * BSIZE ->
  file_slice (<[B := x]> V) ip off n = file_slice V ip off n.
Proof.
  intros Hi Hb Ho Hn. apply list_fmap_ext. intros j o [-> Hj]%lookup_seqZ. eapply file_byte_other; [done..|lia].
Qed.

Lemma file_ok_other k V ip nb B x :
  B <> ind_addr ip -> (forall j, 0 <= j < nb -> B <> blk_addr V ip j) -> file_ok k V ip nb -> file_ok k (<[B := x]> V) ip nb.
Proof.
  intros Hi Hb [Hm Ha Hj Hd].
  assert (forall j, blk_addr (<[B := x]> V) ip j = blk_addr V ip j) as E by (intros j; apply blk_addr_ext; by rewrite fn_lookup_insert_ne).
  split; [done| | |]; intros j; rewrite ?E; auto.
  - intros Hr. rewrite fn_lookup_insert_ne by auto. auto.
  - intros j'. rewrite E. auto.
Qed.

End written.

(** ** Inodes on disk *)

Lemma length_write_addrs addrs : forall data o, length (write_addrs data o addrs) = length data.
Proof. induction addrs as [|a addrs IH]; intros data o; cbn; [done|]. by rewrite IH, length_set32. Qed.

Lemma lookup_write_addrs_out addrs j : forall data o,
  0 <= o -> Z.of_nat j < o \/ o + 4 * Z.of_nat (length addrs) <= Z.of_nat j -> write_addrs data o addrs !! j = data !! j.
Proof.
  induction addrs as [|a addrs IH]; intros data o Ho Hj; cbn [write_addrs length] in *; [done|].
  rewrite IH by lia. apply lookup_set_le_out. lia.
Qed.

Lemma get32_write_addrs addrs : forall data o j a,
  0 <= o -> (Z.to_nat o + 4 * length addrs <= length data)%nat -> addrs !! j = Some a ->
  get32 (write_addrs data o addrs) (o + 4 * Z.of_nat j) = u32 a.
Proof.
  induction addrs as [|b addrs IH]; intros data o j a Ho Hlen Hj; [done|]. cbn [write_addrs length] in *.
  destruct j as [|j]; cbn in Hj.
  - injection Hj as ->. rewrite Z.mul_0_r, Z.add_0_r. rewrite <- (get32_set32 data o a) by lia.
    apply get_le_ext. intros j Hj. apply lookup_write_addrs_out; lia.
  - rewrite <- (IH (set32 data o b) (o + 4) j a) by (rewrite ?length_set32; done || lia). f_equal. lia.
Qed.

(** The values that the fields of [struct dinode] can hold. *)
Record dinode_fits (ip : inode) : Prop := {
  df_type : - 2 ^ 15 <= i_type ip < 2 ^ 15;
  df_major : - 2 ^ 15 <= i_major ip < 2 ^ 15;
  df_minor : - 2 ^ 15 <= i_minor ip < 2 ^ 15;
  df_nlink : - 2 ^ 15 <= i_nlink ip < 2 ^ 15;
  df_size : 0 <= i_size ip < 2 ^ 32;
  df_addrs : length (i_addrs ip) = Z.to_nat (NDIRECT + 1);
  df_addr : Forall (fun a => 0 <= a < 2 ^ 32) (i_addrs ip)
}.

Lemma s16_mod x : - 2 ^ 15 <= x < 2 ^ 15 -> s16 (x mod 256 ^ Z.of_nat 2) = x.
Proof.
  intros Hx. unfold s16. change (256 ^ Z.of_nat 2) with 65536. change (2 ^ 15) with 32768 in *.
  change (2 ^ 16) with 65536. Z.div_mod_to_equations. lia.
Qed.

Lemma get_write_addrs_out n addrs data o p :
  0 <= o -> (p + n <= Z.to_nat o)%nat -> get_le n (write_addrs data o addrs) p = get_le n data p.
Proof. intros Ho Hp. apply get_le_ext. intros j Hj. apply lookup_write_addrs_out; lia. Qed.

(** A field read back: later writes to other fields are skipped. *)
Ltac field_back :=
  unfold get16, get32, set16, set32; rewrite ?get_write_addrs_out by lia;
  repeat first [rewrite get_set_le_out by lia | rewrite get_set_le by (rewrite ?length_set_le; lia)].

Lemma lookup_write_dinode_out data o ip j :
  0 <= o -> length (i_addrs ip) = Z.to_nat (NDIRECT + 1) -> Z.of_nat j < o \/ o + sizeof_dinode <= Z.of_nat j ->
  write_dinode data o ip !! j = data !! j.
Proof.
  intros Ho Hl Hj. change (Z.to_nat (NDIRECT + 1)) with 13%nat in Hl. change sizeof_dinode with 64 in Hj. unfold write_dinode.
  rewrite lookup_write_addrs_out by lia. unfold set32, set16. by rewrite !lookup_set_le_out by lia.
Qed.

(** The bytes of an inode that is not written stay. *)
Lemma get_write_dinode_other data inum inum' ip m p :
  length (i_addrs ip) = Z.to_nat (NDIRECT + 1) -> inum' mod IPB <> inum mod IPB -> 0 <= p -> p + Z.of_nat m <= sizeof_dinode ->
  get_le m (write_dinode data (dinode_off inum) ip) (Z.to_nat (dinode_off inum' + p)) = get_le m data (Z.to_nat (dinode_off inum' + p)).
Proof.
  intros Hl Hne Hp Hm. unfold dinode_off in *. pose proof (Z.mod_pos_bound inum IPB ltac:(done)). pose proof (Z.mod_pos_bound inum' IPB ltac:(done)).
  change sizeof_dinode with 64 in *. apply get_le_ext. intros j Hj. apply lookup_write_dinode_out; [lia|done|]. change sizeof_dinode with 64. lia.
Qed.

Lemma read_write_dinode data inum ip :
  length data = Z.to_nat BSIZE -> dinode_fits ip -> read_dinode (write_dinode data (dinode_off inum) ip) (dinode_off inum) ip = ip.
Proof.
  intros Hlen [Hty Hma Hmi Hnl Hsz Hal Haf]. unfold dinode_off. set (q := inum mod IPB).
  assert (0 <= q < 16) as Hq by (apply Z.mod_pos_bound; done). change sizeof_dinode with 64. set (o := q * 64).
  change (Z.to_nat BSIZE) with 1024%nat in Hlen.
  unfold read_dinode, write_dinode. destruct ip as [dev num ref valid ty ma mi nl sz addrs]. cbn in *. f_equal.
  1-4: field_back; by apply s16_mod.
  - field_back. by apply Z.mod_small.
  - apply list_eq. intros j. rewrite list_lookup_fmap. change (Z.to_nat (NDIRECT + 1)) with 13%nat in Hal.
    destruct (decide (j < 13)%nat) as [Hj|Hj].
    + rewrite lookup_seqZ_lt by (change NDIRECT with 12; lia). cbn [fmap option_fmap option_map].
      destruct (lookup_lt_is_Some_2 addrs j) as [a Ha]; [lia|]. rewrite Ha. f_equal.
      rewrite Z.add_0_l, (get32_write_addrs addrs _ (o + 12) j a); [|lia| |done].
      * apply u32_small. by eapply Forall_lookup_1 in Haf.
      * unfold set16, set32. rewrite !length_set_le. lia.
    + rewrite lookup_seqZ_ge by (change NDIRECT with 12; lia). symmetry. apply lookup_ge_None. lia.
Qed.

Lemma read_write_dinode_other data inum ip inum' ip' :
  length (i_addrs ip) = Z.to_nat (NDIRECT + 1) -> inum' mod IPB <> inum mod IPB ->
  read_dinode (write_dinode data (dinode_off inum) ip) (dinode_off inum') ip' = read_dinode data (dinode_off inum') ip'.
Proof.
  intros Hl Hne. pose proof (fun m p => get_write_dinode_other data inum inum' ip m p Hl Hne) as Hget. change sizeof_dinode with 64 in Hget.
  unfold read_dinode, get16, get32. pose proof (Hget 2%nat 0) as Hg0. rewrite Z.add_0_r in Hg0.
  rewrite Hg0, !Hget by lia. f_equal. apply list_fmap_ext. intros j p [-> Hp]%lookup_seqZ. change NDIRECT with 12 in Hp.
  rewrite <- Z.add_assoc. apply Hget; lia.
Qed.

Section write.
Context `{KernelLayout} `{Platform} `{Fuel} `{!DiskDriver} `{!DiskLaws}.
Context (dev : Z) (me : nat).
Context (Hfuel : wait_fuel <> O).
Implicit Types (k : kernel) (V : Z -> list Z) (held : list (nat * Z)).

(** ** [writei] *)

Lemma writei_loop_run held i ip nb d :
  (length held <= 2)%nat -> i_dev ip = dev -> ind_addr ip ∉ held.*2 ->
  forall fuel c V k src off N tot bytes,
  tx dev me (c + d) held V k -> k_itable k !! i = Some ip -> file_ok k V ip nb ->
  (forall j, 0 <= j < nb -> blk_addr V ip j ∉ held.*2) -> source_ok me src bytes k ->
  0 <= off -> 0 <= tot -> Z.of_nat (length bytes) = N - tot -> off + (N - tot) <= nb * BSIZE ->
  (tot < N -> off mod BSIZE + (N - tot) <= BSIZE * Z.of_nat c) -> (c < fuel)%nat ->
  exists V' k', writei_loop fuel i src off N tot k = Ok (N, off + (N - tot)) k' /\
    tx dev me d held V' k' /\ tx_frame k k' /\ written V V' ip nb off bytes.
Proof.
  intros Hle Hdev Hind. induction fuel as [|fuel IH];
    intros c V k src off N tot bytes Ht Hip Hok Hblk Hsrc Hoff Htot Hlb Hsz Hc Hfl; [lia|].
  cbn [writei_loop]. destruct (Z.ltb_spec tot N) as [Hlt|Hge]; cbn [negb].
  2: { destruct bytes; [|cbn in Hlb; lia]. exists V, k. replace tot with N by (cbn in Hlb; lia).
       replace (off + (N - N)) with off by lia. split_and!; [done| |done|apply written_nil].
       eapply tx_mono; [|done]. lia. }
  specialize (Hc Hlt). pose proof (Z.mod_pos_bound off BSIZE ltac:(done)) as Hmod. destruct c as [|c]; [lia|].
  destruct (fetch_block dev me Hfuel (S c + d) held V i ip nb Hle Hdev Hind Hblk k off)
    as (k1 & bp & k2 & E1 & Hne & Eip & E2 & Ht2 & Hf & _ & Hfs & Hlen); [done..|lia|].
  erewrite bind_ok by exact E1. rewrite Hne. erewrite bind_ok by exact Eip. erewrite bind_ok by exact E2.
  set (a := blk_addr V ip (off / BSIZE)) in *. set (m := Z.min (N - tot) (BSIZE - off mod BSIZE)).
  assert (0 < m /\ m <= N - tot /\ off mod BSIZE + m <= BSIZE) as (Hm0 & Hm1 & Hm2) by (unfold m; lia).
  destruct (either_copyin_run me src bytes m k2) as [E3 Hsrc2];
    [by eapply tx_calm|eapply source_frame; [exact (tx_calm _ _ _ _ _ _ Ht)|done|done]|lia|].
  erewrite bind_ok by exact E3. cbn [fst snd Z.eqb].
  set (b1 := take (Z.to_nat m) bytes) in *. assert (Z.of_nat (length b1) = m) as Hl1 by (unfold b1; rewrite length_take; lia).
  destruct (update_tx _ _ (c + d) _ V k2 bp a (fun x => splice x (off mod BSIZE) b1) Ht2) as (k3 & k4 & E4 & E5 & Ht4 & Hf4);
    [left|by apply (fs_block_frame k)|].
  erewrite bind_ok by exact E4. erewrite bind_ok by exact E5.
  destruct (brelse_tx _ _ _ _ held _ k4 bp a Ht4) as (k5 & E6 & Ht5 & Hf5); [done|]. erewrite bind_ok by exact E6.
  assert (written V (<[a := splice (V a) (off mod BSIZE) b1]> V) ip nb off b1) as Hw.
  { apply (written_block k); [done|lia|lia]. }
  assert (tx_frame k2 k5) as Hf25 by (by etrans). assert (tx_frame k k5) as Hf05 by (by etrans).
  destruct (IH c _ k5 (src_add src m) (off + m) N (tot + m) (drop (Z.to_nat m) bytes) Ht5)
    as (V' & k' & E7 & Ht7 & Hf7 & Hw7).
  - by apply tx_frame_keeps in Hf05 as (_ & _ & -> & _).
  - eapply file_ok_frame; [exact Hf05|]. by eapply written_ok.
  - intros j Hj. rewrite (written_addr _ _ _ _ _ _ _ j Hok Hw). auto.
  - eapply source_frame; [exact (tx_calm _ _ _ _ _ _ Ht2)|done|done].
  - lia.
  - lia.
  - rewrite length_drop. lia.
  - lia.
  - intros Hlt'. unfold m in *. change BSIZE with 1024 in *. Z.div_mod_to_equations. lia.
  - lia.
  - exists V', k'. rewrite E7. replace (off + m + (N - (tot + m))) with (off + (N - tot)) by lia.
    split_and!; [done|done|by etrans|]. rewrite <- (take_drop (Z.to_nat m) bytes). fold b1.
    eapply written_app; [done|exact Hw|]. by rewrite Hl1.
Qed.

(** ** [iupdate] *)

Lemma iupdate_run n held V k i ip :
  tx dev me (S n) held V k -> (length held <= 2)%nat -> k_itable k !! i = Some ip -> i_dev ip = dev ->
  let B := IBLOCK (i_inum ip) (k_sb k) in
  B ∉ held.*2 -> fs_block k B ->
  exists k', iupdate i k = Ok tt k' /\ tx_frame k k' /\
    tx dev me n held (<[B := write_dinode (V B) (dinode_off (i_inum ip)) ip]> V) k'.
Proof.
  intros Ht Hle Hip Hdev B Hh Hfs. unfold iupdate. erewrite bind_ok by by apply get_inode_run.
  unfold get_sb. rewrite bind_gets, Hdev. fold B.
  destruct (modify_block dev me Hfuel n held V k B (fun x => write_dinode x (dinode_off (i_inum ip)) ip))
    as (b & k1 & k2 & k3 & k' & E1 & E2 & E3 & E4 & _ & Ei & Ht' & Hf); [done..|].
  exists k'. split_and!; [|done|done]. erewrite bind_ok by exact E1.
  erewrite bind_ok by (apply get_inode_run; rewrite Ei; exact Hip).
  erewrite bind_ok by exact E2. erewrite bind_ok by exact E3. exact E4.
Qed.

(** The update of the size. *)
Lemma grow_run i ip off k :
  k_itable k !! i = Some ip ->
  when (i_size ip <? off) (set_inode i (fun ip => ip <| i_size := off |>)) k =
    Ok tt (k <| k_itable := <[i := ip <| i_size := Z.max (i_size ip) off |>]> (k_itable k) |>).
Proof.
  intros Hip. unfold when. destruct (Z.ltb_spec (i_size ip) off) as [Hlt|Hge].
  - unfold set_inode, modify. f_equal. rewrite (Z.max_r (i_size ip) off) by lia.
    change (k <| k_itable ::= fun l => alter (fun ip => ip <| i_size := off |>) i l |>)
      with (k <| k_itable := alter (fun ip => ip <| i_size := off |>) i (k_itable k) |>).
    by erewrite list_alter_insert by exact Hip.
  - rewrite Z.max_l by lia. replace (ip <| i_size := i_size ip |>) with ip by (by destruct ip).
    rewrite list_insert_id by done. by destruct k.
Qed.

Lemma writei_run n c held V k i ip nb src off bytes :
  let sz := Z.of_nat (length bytes) in
  let B := IBLOCK (i_inum ip) (k_sb k) in
  let ip' := ip <| i_size := Z.max (i_size ip) (off + sz) |> in
  tx dev me (c + S n) held V k -> (length held <= 2)%nat -> k_itable k !! i = Some ip -> i_dev ip = dev ->
  ind_addr ip ∉ held.*2 -> (forall j, 0 <= j < nb -> blk_addr V ip j ∉ held.*2) -> B ∉ held.*2 ->
  file_ok k V ip nb -> fs_block k B -> B <> ind_addr ip -> (forall j, 0 <= j < nb -> B <> blk_addr V ip j) ->
  source_ok me src bytes k -> 0 <= off <= i_size ip -> off + sz <= nb * BSIZE -> off mod BSIZE + sz <= BSIZE * Z.of_nat c ->
  exists V' k', writei i src off sz k = Ok sz k' /\ tx dev me n held V' k' /\
    tx_frame (k <| k_itable := <[i := ip']> (k_itable k) |>) k' /\ file_ok k' V' ip' nb /\
    file_slice V' ip' off sz = bytes /\
    (forall o, 0 <= o < nb * BSIZE -> ~ off <= o < off + sz -> file_byte V' ip' o = file_byte V ip o) /\
    V' B = write_dinode (V B) (dinode_off (i_inum ip)) ip' /\
    (forall b, b <> B -> (forall j, 0 <= j < nb -> b <> blk_addr V ip j) -> V' b = V b).
Proof.
  intros sz B ip' Ht Hle Hip Hdev Hind Hblk HB Hok HBf HBi HBb Hsrc Hoff Hsz Hc.
  pose proof (fo_max _ _ _ _ Hok) as Hmax. change MAXFILE with 268 in Hmax.
  assert (0 <= off + sz <= 268 * 1024) as Hs by (change BSIZE with 1024 in *; lia).
  unfold writei. erewrite bind_ok by by apply get_inode_run. rewrite (u32_small (off + sz)) by lia.
  destruct (Z.ltb_spec (i_size ip) off); [lia|]. destruct (Z.ltb_spec (off + sz) off); [lia|]. cbn [orb].
  change (MAXFILE * BSIZE) with (268 * 1024). destruct (Z.ltb_spec (268 * 1024) (off + sz)); [lia|].
  destruct (writei_loop_run held i ip nb (S n) Hle Hdev Hind (S (S (S (Z.to_nat (sz / BSIZE)))))
    (Nat.min c (S (S (Z.to_nat (sz / BSIZE))))) V k src off sz 0 bytes) as (V1 & k1 & E1 & Ht1 & Hf1 & Hw); try done; try lia.
  { eapply tx_mono; [|exact Ht]. lia. }
  { intros _. change BSIZE with 1024 in *. Z.div_mod_to_equations. lia. }
  erewrite bind_ok by exact E1. rewrite Z.sub_0_r. cbv beta iota.
  pose proof Hf1 as (_ & Esb & Ei & _)%tx_frame_keeps.
  assert (k_itable k1 !! i = Some ip) as Hip1 by by rewrite Ei.
  erewrite bind_ok by by apply get_inode_run. erewrite bind_ok by by apply grow_run. fold ip'.
  destruct (iupdate_run n held V1 (k1 <| k_itable := <[i := ip']> (k_itable k1) |>) i ip')
    as (k' & E2 & Hf2 & Ht2); [by apply tx_set_itable|done| |done| | |].
  { cbn. apply list_lookup_insert_eq. by eapply lookup_lt_Some. }
  { cbn. by rewrite Esb. }
  { cbn. rewrite Esb. apply (fs_block_frame k k1); done. }
  cbn in Ht2. rewrite Esb in Ht2. fold B in Ht2. rewrite (wr_other _ _ _ _ _ _ Hw B HBb) in Ht2.
  assert (forall j, 0 <= j < nb -> B <> blk_addr V1 ip' j) as HBb1.
  { intros j Hj. change (blk_addr V1 ip' j) with (blk_addr V1 ip j). rewrite (written_addr _ _ _ _ _ _ _ j Hok Hw). auto. }
  set (x := write_dinode (V B) (dinode_off (i_inum ip)) ip') in *.
  assert (tx_frame (k <| k_itable := <[i := ip']> (k_itable k) |>) k') as Hf.
  { etrans; [|exact Hf2]. rewrite Ei. by apply tx_frame_set_itable. }
  exists (<[B := x]> V1), k'. split_and!; [|done|done| | | | |].
  - erewrite bind_ok by exact E2. unfold ret. rewrite s32_small by lia. done.
  - apply file_ok_other; [done|done|]. eapply file_ok_frame; [exact Hf|].
    pose proof (written_ok _ _ _ _ _ _ _ Hok Hw) as [Hm Ha Hj Hd]. by split.
  - rewrite (file_slice_other _ _ nb) by (done || lia). apply (written_slice V V1 ip nb off bytes); [done|lia|done].
  - intros o Ho Hout. rewrite (file_byte_other _ _ nb) by done.
    change (file_byte V1 ip' o) with (file_byte V1 ip o). rewrite (wr_bytes _ _ _ _ _ _ Hw) by done. by rewrite decide_False.
  - by rewrite fn_lookup_insert.
  - intros b Hb Hnb. rewrite fn_lookup_insert_ne by done. by apply (wr_other _ _ _ _ _ _ Hw).
Qed.


End write.
