(* ===== verification/FsDir.v ===== *)
(** * Directories as maps

    A directory is a file of entries; it stands for the finite map from names
    to inode numbers that its first entries for each name give. [dirlookup]
    looks a name up in this map. A name is a [char] array of which at most
    [DIRSIZ] characters, up to the first NUL, count. *)

From stdpp Require Import functions.
From S2P Require Import Prelude Riscv Machine Spinlock PhysMem Kalloc PageTable Vm VmSpec VmCopy Kernel Sched Sleeplock Bio Bytes Uart Printf Log Fs Thread BioRing BioSpec LogDisk LogSpec SchedSpec PipeSpec FsTx FsBlocks FsFile FsWrite.

(** ** Names *)

(** The characters before the first NUL, [n] at most. *)
Fixpoint cname (n : nat) (s : list Z) : list Z :=
  match n, s with
  | S n', c :: s' => if c =? 0 then [] else c :: cname n' s'
  | _, _ => []
  end.

(** The name in a [char] array. *)
Definition name_of (s : list Z) : list Z := cname (Z.to_nat DIRSIZ) s.

(** Comparing and copying [n] characters stays in the array. *)
Fixpoint readable (n : nat) (s : list Z) : Prop :=
  match n, s with
  | O, _ => True
  | S n', c :: s' => c = 0 \/ readable n' s'
  | S _, [] => False
  end.

Definition name_ok (s : list Z) : Prop := readable (Z.to_nat DIRSIZ) s.

Lemma readable_length n s : (n <= length s)%nat -> readable n s.
Proof. revert s. induction n as [|n IH]; intros [|c s] Hs; cbn in *; [done..|lia|]. right. apply IH. lia. Qed.

Lemma strncmp_from_names n : forall i p q,
  readable n (drop i p) -> readable n (drop i q) ->
  exists r, strncmp_from i p q n = Some r /\ (r = 0 <-> cname n (drop i p) = cname n (drop i q)).
Proof.
  induction n as [|n IH]; intros i p q Hp Hq; [by exists 0|]. cbn [strncmp_from].
  destruct (p !! i) as [a|] eqn:Ep; [|rewrite drop_ge in Hp by (by apply lookup_ge_None); done].
  destruct (q !! i) as [b|] eqn:Eq; [|rewrite drop_ge in Hq by (by apply lookup_ge_None); done].
  rewrite (drop_S _ _ _ Ep) in *. rewrite (drop_S _ _ _ Eq) in *. cbn [readable cname] in *.
  destruct (Z.eqb_spec a 0) as [->|Ha], (Z.eqb_spec b 0) as [->|Hb]; cbn [negb andb].
  - by exists 0.
  - exists (0 - b). split; [done|]. split; [lia|done].
  - rewrite (proj2 (Z.eqb_neq _ _) Ha). exists (a - 0). split; [done|]. split; [lia|done].
  - destruct (Z.eqb_spec a b) as [->|Hne].
    + destruct Hp as [?|Hp], Hq as [?|Hq]; try done. destruct (IH (S i) p q Hp Hq) as (r & E & Hr). exists r.
      split; [done|]. rewrite Hr. split; [by intros ->|by intros [=]].
    + exists (a - b). split; [done|]. split; [lia|by intros [=]].
Qed.

Lemma namecmp_run `{Linker} `{Platform} `{Fuel} `{!DiskDriver} s t (k : kernel) :
  name_ok s -> name_ok t -> exists r, namecmp s t k = Ok r k /\ (r = 0 <-> name_of s = name_of t).
Proof.
  intros Hs Ht. destruct (strncmp_from_names (Z.to_nat DIRSIZ) 0 s t) as (r & E & Hr); [done..|].
  exists r. split; [|done]. unfold namecmp, strncmp. by rewrite E.
Qed.

(** [strncpy] into an array keeps what follows the first [i] characters
    readable as the same name. *)
Lemma zero_fill_run n : forall i s, (i + n <= length s)%nat ->
  zero_fill n i s = Some (take i s ++ replicate n 0 ++ drop (i + n) s).
Proof.
  induction n as [|n IH]; intros i s Hl; cbn [zero_fill]; [rewrite Nat.add_0_r; cbn; by rewrite take_drop|].
  unfold set_char. rewrite decide_True by lia. rewrite IH by (rewrite length_insert; lia). f_equal.
  rewrite (take_S_r _ _ 0) by (apply list_lookup_insert_eq; lia). rewrite take_insert_ge, drop_insert_lt by lia.
  replace (S i + n)%nat with (i + S n)%nat by lia. cbn [replicate]. by rewrite <- app_assoc.
Qed.

Lemma strncpy_from_run n : forall i s t,
  (i + n <= length s)%nat -> readable n (drop i t) ->
  exists s', strncpy_from n i s t = Some s' /\ length s' = length s /\ take i s' = take i s /\ cname n (drop i s') = cname n (drop i t) /\
    readable n (drop i s').
Proof.
  induction n as [|n IH]; intros i s t Hl Ht; [by exists s|]. cbn [strncpy_from].
  destruct (t !! i) as [c|] eqn:Ec; [|rewrite drop_ge in Ht by (by apply lookup_ge_None); done].
  rewrite (drop_S _ _ _ Ec) in *. cbn [readable cname] in *. unfold set_char. rewrite decide_True by lia.
  destruct (Z.eqb_spec c 0) as [->|Hc].
  - rewrite zero_fill_run by (rewrite length_insert; lia). eexists. split; [done|].
    assert ((i <= length s)%nat) by lia. assert (take (S i) (<[i := 0]> s) = take i s ++ [0]) as Et.
    { rewrite (take_S_r _ _ 0) by (apply list_lookup_insert_eq; lia). by rewrite take_insert_ge by lia. }
    rewrite Et. rewrite drop_insert_lt by lia. rewrite <- !app_assoc. rewrite !length_app, length_take, length_replicate, length_drop. cbn [length].
    split; [lia|]. rewrite take_app_le, take_take by (rewrite length_take; lia). rewrite Nat.min_id.
    rewrite drop_app_ge, length_take by (rewrite length_take; lia). replace (i - i `min` length s)%nat with 0%nat by lia. cbn. auto.
  - destruct Ht as [?|Ht]; [done|]. destruct (IH (S i) (<[i := c]> s) t) as (s' & E & Hl' & Htk & Hn & Hr); [rewrite length_insert; lia|done|].
    exists s'. rewrite length_insert in Hl'. split; [done|]. split; [done|].
    assert (s' !! i = Some c) as Hi.
    { rewrite <- (lookup_take_lt _ (S i)), Htk, lookup_take_lt by lia. apply list_lookup_insert_eq. lia. }
    rewrite (drop_S _ _ _ Hi). cbn. rewrite (proj2 (Z.eqb_neq _ _) Hc). split_and!; [|by f_equal|by right].
    apply (f_equal (take i)) in Htk. rewrite !take_take, !Nat.min_l in Htk by lia. rewrite Htk. by rewrite take_insert_ge.
Qed.

Lemma zero_fill_Forall (P : Z -> Prop) n : forall i s s', P 0 -> Forall P s -> zero_fill n i s = Some s' -> Forall P s'.
Proof.
  induction n as [|n IH]; intros i s s' H0 Hs E; cbn in E; [by injection E as <-|]. unfold set_char in E. case_decide; [|done].
  eapply IH; [done| |exact E]. by apply Forall_insert.
Qed.

Lemma strncpy_from_Forall (P : Z -> Prop) n : forall i s t s',
  P 0 -> Forall P s -> Forall P t -> strncpy_from n i s t = Some s' -> Forall P s'.
Proof.
  induction n as [|n IH]; intros i s t s' H0 Hs Ht E; cbn in E; [by injection E as <-|].
  destruct (t !! i) as [c|] eqn:Ec; [|done]. unfold set_char in E. case_decide; [|done].
  assert (Forall P (<[i := c]> s)) as Hs' by (apply Forall_insert; [done|by eapply (Forall_lookup_1 _ _ _ _ Ht)]).
  destruct (c =? 0); [by eapply zero_fill_Forall|eapply IH; [| | |exact E]; done].
Qed.

(** A path element copied into a [DIRSIZ]-byte array. *)
Lemma strncpy_name t :
  name_ok t -> Forall (fun b => 0 <= b < 256) t -> exists s, strncpy (replicate (Z.to_nat DIRSIZ) 0) t DIRSIZ = Some s /\
    length s = Z.to_nat DIRSIZ /\ name_of s = name_of t /\ Forall (fun b => 0 <= b < 256) s.
Proof.
  intros Ht Hb. destruct (strncpy_from_run (Z.to_nat DIRSIZ) 0 (replicate (Z.to_nat DIRSIZ) 0) t) as (s & E & Hl & _ & Hn & _);
    [by rewrite length_replicate|done|]. exists s. rewrite length_replicate in Hl. split; [done|]. split; [done|]. split; [done|].
  eapply strncpy_from_Forall; [| |exact Hb|exact E]; [done|by apply Forall_replicate].
Qed.

(** ** Entries *)

(** The entries of a directory file. *)
Definition dir (V : Z -> list Z) (ip : inode) : list dirent :=
  (fun j => decode_dirent (file_slice V ip (sizeof_dirent * j) sizeof_dirent)) <$> seqZ 0 (i_size ip / sizeof_dirent).

(** An entry for the name [s]. *)
Definition entry_for (s : list Z) (de : dirent) : Prop := de_inum de <> 0 /\ name_of (de_name de) = s.

#[export] Instance entry_for_dec s de : Decision (entry_for s de).
Proof. unfold entry_for. apply _. Defined.

Definition dir_find (s : list Z) (D : list dirent) : option (nat * dirent) := list_find (entry_for s) D.

(** The map from names to inode numbers. *)
Definition dir_map (D : list dirent) : gmap (list Z) Z :=
  list_to_map ((fun de => (name_of (de_name de), de_inum de)) <$> filter (fun de => de_inum de <> 0) D).

Lemma dir_find_map D s : dir_map D !! s = (fun x => de_inum x.2) <$> dir_find s D.
Proof.
  induction D as [|de D IH]; [done|]. unfold dir_map, dir_find in *. cbn [list_find]. rewrite filter_cons.
  destruct (decide (de_inum de <> 0)) as [Hi|Hi]; cbn [fmap list_fmap list_to_map].
  - destruct (decide (name_of (de_name de) = s)) as [<-|Hn].
    + rewrite decide_True by done. cbn. by rewrite lookup_insert_eq.
    + rewrite decide_False by (by intros [_ ?]). cbn. rewrite lookup_insert_ne by done. rewrite IH. by destruct (list_find _ D) as [[]|].
  - rewrite decide_False by (by intros [? _]). rewrite IH. by destruct (list_find _ D) as [[]|].
Qed.

Lemma dir_lookup V ip j : 0 <= j < i_size ip / sizeof_dirent ->
  dir V ip !! Z.to_nat j = Some (decode_dirent (file_slice V ip (sizeof_dirent * j) sizeof_dirent)).
Proof. intros Hj. unfold dir. rewrite list_lookup_fmap, lookup_seqZ_lt by lia. cbn. by rewrite Z2Nat.id by lia. Qed.

Lemma dir_length V ip : length (dir V ip) = Z.to_nat (i_size ip / sizeof_dirent).
Proof. unfold dir. by rewrite length_fmap, length_seqZ. Qed.

Lemma entry_name_ok V ip j : 0 <= j -> name_ok (de_name (decode_dirent (file_slice V ip (sizeof_dirent * j) sizeof_dirent))).
Proof.
  intros Hj. apply readable_length. unfold decode_dirent, slice, de_name. rewrite length_take, length_drop, length_file_slice.
  unfold DIRSIZ, sizeof_dirent. lia.
Qed.

(** ** [iget] *)

Section iget.
Context `{KernelLayout} `{Platform} `{Fuel} `{!DiskDriver}.

(** The table entry that [iget] returns, with a reference more. *)
Definition iget_entry (T : list inode) (dev inum : Z) : option (nat * inode) :=
  match list_find (fun x => 0 < i_ref x /\ i_dev x = dev /\ i_inum x = inum) T with
  | Some (i, x) => Some (i, x <| i_ref ::= fun n => n + 1 |>)
  | None =>
      (fun ix => (ix.1, ix.2 <| i_dev := dev |> <| i_inum := inum |> <| i_ref := 1 |> <| i_valid := 0 |>)) <$>
        list_find (fun x => i_ref x = 0) T
  end.

Lemma iget_scan_run dev inum : forall T T0 k empty,
  k_itable k = T0 ++ T ->
  iget_scan (seq (length T0) (length T)) empty dev inum k =
    Ok (match list_find (fun x => 0 < i_ref x /\ i_dev x = dev /\ i_inum x = inum) T with
        | Some (i, _) => inl (length T0 + i)%nat
        | None => inr (match empty with
                       | Some e => Some e
                       | None => (fun ix => length T0 + ix.1)%nat <$> list_find (fun x => i_ref x = 0) T
                       end)
        end) k.
Proof.
  induction T as [|x T IH]; intros T0 k empty E; cbn [length seq iget_scan list_find]; [by destruct empty|].
  erewrite bind_ok by (apply get_inode_run; rewrite E; by apply list_lookup_middle).
  destruct (decide (0 < i_ref x /\ i_dev x = dev /\ i_inum x = inum)) as [(Hr & Hd & Hi)|Hno].
  - rewrite (proj2 (Z.ltb_lt _ _) Hr), (proj2 (Z.eqb_eq _ _) Hd), (proj2 (Z.eqb_eq _ _) Hi). cbn. by rewrite Nat.add_0_r.
  - assert ((0 <? i_ref x) && (i_dev x =? dev) && (i_inum x =? inum) = false) as ->.
    { apply not_true_is_false. rewrite !andb_true_iff, Z.ltb_lt, !Z.eqb_eq. tauto. }
    specialize (IH (T0 ++ [x]) k). rewrite length_app, Nat.add_1_r in IH.
    rewrite IH by (by rewrite <- app_assoc). f_equal. destruct (list_find _ T) as [[i y]|]; cbn; [f_equal; lia|]. f_equal.
    destruct empty as [e|]; [done|]. destruct (Z.eqb_spec (i_ref x) 0) as [E0|E0].
    + rewrite decide_True by done. cbn. f_equal. lia.
    + rewrite decide_False by done. destruct (list_find _ T) as [[j y]|]; cbn; [f_equal; lia|done].
Qed.

Lemma iget_run dev inum me k :
  calm [] me k -> length (k_itable k) = Z.to_nat NINODE ->
  match iget_entry (k_itable k) dev inum with
  | Some (i, x) => iget dev inum k = Ok i (k <| k_itable := <[i := x]> (k_itable k) |>)
  | None => exists k', iget dev inum k = Panic "iget: no inodes" k'
  end.
Proof.
  intros (Hs & Hl & _) Hlen. assert (lock_free itable_lock (k_m k)) as Hf by (apply Hl; [done|apply not_elem_of_nil]).
  unfold iget. erewrite bind_ok by by apply kacquire. unfold inodes. rewrite <- Hlen.
  erewrite bind_ok by (apply (iget_scan_run dev inum (k_itable k) []); done). unfold iget_entry.
  assert (forall i x f, k_itable k !! i = Some x ->
    (set_inode i f ;; mach (release itable_lock) ;; ret i) (klocking itable_lock k) =
      Ok i (k <| k_itable := <[i := f x]> (k_itable k) |>)) as Hset.
  { intros i x f Hx. unfold set_inode. mrun. erewrite bind_ok by (eapply krelease; [exact Hs|exact Hf|done]).
    unfold ret. f_equal. unfold upd, klocking. cbn -[alter]. by erewrite list_alter_insert by exact Hx. }
  destruct (list_find (fun x => 0 < i_ref x /\ _) (k_itable k)) as [[i x]|] eqn:E1.
  - apply list_find_Some in E1 as (Hx & _). by apply Hset.
  - destruct (list_find (fun x => i_ref x = 0) (k_itable k)) as [[i x]|] eqn:E2; cbn; [|by eexists].
    apply list_find_Some in E2 as (Hx & _). by rewrite (Hset i x).
Qed.
End iget.

(** ** [dirlookup] *)

(** Inode [dp], cached as [ip], is a directory of whole entries, in [nb]
    allocated blocks. *)
Record is_dir `{Platform} (dev : Z) (V : Z -> list Z) (dp : nat) (ip : inode) (nb : Z) (k : kernel) : Prop := {
  d_entry : k_itable k !! dp = Some ip;
  d_table : length (k_itable k) = Z.to_nat NINODE;
  d_type : i_type ip = T_DIR;
  d_dev : i_dev ip = dev;
  d_file : file_ok k V ip nb;
  d_size : 0 <= i_size ip <= nb * BSIZE;
  d_whole : (sizeof_dirent | i_size ip);
  d_bytes : Forall (fun b => 0 <= b < 256) (file_slice V ip 0 (i_size ip))
}.

Section dir.
Context `{KernelLayout} `{Platform} `{Fuel} `{!DiskDriver} `{!DiskLaws}.
Context (dev : Z) (me : nat).
Context (Hfuel : wait_fuel <> O).
Implicit Types (k : kernel) (V : Z -> list Z).

Lemma is_dir_frame V dp ip nb k k' : tx_frame k k' -> is_dir dev V dp ip nb k -> is_dir dev V dp ip nb k'.
Proof.
  intros Hf [He Ht Hty Hd Hfi Hs Hw Hb]. pose proof Hf as (_ & _ & Ei & _)%tx_frame_keeps.
  split; rewrite ?Ei; try done. by eapply file_ok_frame.
Qed.

(** Reading one entry. *)
Lemma read_entry n V dp ip nb k j :
  tx dev me n [] V k -> is_dir dev V dp ip nb k -> 0 <= j < i_size ip / sizeof_dirent ->
  exists k', readi dp LocalDst (sizeof_dirent * j) sizeof_dirent k =
      Ok (sizeof_dirent, file_slice V ip (sizeof_dirent * j) sizeof_dirent) k' /\ tx dev me n [] V k' /\ tx_frame k k'.
Proof.
  intros Ht Hd Hj. pose proof Hd as [He _ _ Hdev Hf Hs [q Hq] Hb]. pose proof (fo_max _ _ _ _ Hf) as Hmax.
  change sizeof_dirent with 16 in *. change MAXFILE with 268 in Hmax. change BSIZE with 1024 in *. rewrite Hq, Z.div_mul in Hj by done.
  assert (read_count ip (16 * j) 16 = 16) as Hc.
  { unfold read_count. rewrite (proj2 (Z.ltb_lt _ _)) by lia. lia. }
  destruct (readi_run dev me Hfuel n [] V k dp ip nb LocalDst (16 * j) 16) as (m & k' & E & Ht' & Hfr & Hm); rewrite ?Hc;
    try done; try lia; try (intros; apply not_elem_of_nil); [cbn; lia| |].
  - replace (i_size ip) with (16 * j + (16 + (i_size ip - 16 * j - 16))) in Hb by lia.
    rewrite (file_slice_app V ip 0), file_slice_app, !Forall_app in Hb by lia. apply Hb.
  - exists k'. rewrite Hc in E. cbn in Hm. subst m. unfold read_frame in Hfr. rewrite upd_m_id in Hfr. done.
Qed.

Lemma dirlookup_loop_run name n V dp ip nb fuel : forall k j,
  name_ok name -> tx dev me n [] V k -> is_dir dev V dp ip nb k -> 0 <= j <= i_size ip / sizeof_dirent ->
  i_size ip / sizeof_dirent - j < Z.of_nat fuel ->
  exists k', tx dev me n [] V k' /\ tx_frame k k' /\
    dirlookup_loop fuel dp name (sizeof_dirent * j) k =
      match dir_find (name_of name) (drop (Z.to_nat j) (dir V ip)) with
      | None => Ok None k'
      | Some (i, de) => (ip <- iget dev (de_inum de) ;; ret (Some (ip, sizeof_dirent * (j + Z.of_nat i)))) k'
      end.
Proof.
  induction fuel as [|fuel IH]; intros k j Hn Ht Hd Hj Hfu; [lia|]. cbn [dirlookup_loop].
  pose proof Hd as [He _ _ Hdev Hf Hs [q Hq] _]. erewrite bind_ok by by apply get_inode_run.
  pose proof (fo_max _ _ _ _ Hf) as Hmax. change MAXFILE with 268 in Hmax. change BSIZE with 1024 in *.
  assert (i_size ip / sizeof_dirent = q) as Eq by (rewrite Hq; by apply Z.div_mul). rewrite Eq in *.
  assert (i_size ip = 16 * q) as Esz by (rewrite Hq; change sizeof_dirent with 16; lia).
  destruct (decide (j = q)) as [->|Hne].
  { rewrite (proj2 (Z.ltb_ge _ _)) by (change sizeof_dirent with 16; lia). cbn [negb]. exists k. split; [done|]. split; [done|].
    rewrite drop_ge by (rewrite dir_length, Eq; done). done. }
  rewrite (proj2 (Z.ltb_lt _ _)) by (change sizeof_dirent with 16; lia). cbn [negb].
  destruct (read_entry n V dp ip nb k j) as (k1 & E1 & Ht1 & Hf1); [done|done|lia|]. erewrite bind_ok by exact E1. cbn [fst snd].
  rewrite Z.eqb_refl. cbn [negb]. pose proof (dir_lookup V ip j) as Hlk. rewrite (drop_S _ _ _ (Hlk ltac:(lia))).
  set (de := decode_dirent _) in *. unfold dir_find. cbn [list_find].
  replace (u32 (sizeof_dirent * j + sizeof_dirent)) with (sizeof_dirent * (j + 1)) by (change sizeof_dirent with 16; rewrite u32_small; lia).
  assert (exists k', tx dev me n [] V k' /\ tx_frame k k' /\
    dirlookup_loop fuel dp name (sizeof_dirent * (j + 1)) k1 =
      match prod_map S id <$> dir_find (name_of name) (drop (S (Z.to_nat j)) (dir V ip)) with
      | None => Ok None k'
      | Some (i, de) => (ip <- iget dev (de_inum de) ;; ret (Some (ip, sizeof_dirent * (j + Z.of_nat i)))) k'
      end) as (k' & Ht' & Hf' & Enext).
  { destruct (IH k1 (j + 1)) as (k' & Ht' & Hf' & E'); [done|done|by eapply is_dir_frame|lia|lia|]. exists k'.
    split; [done|]. split; [by etrans|]. rewrite E'. replace (Z.to_nat (j + 1)) with (S (Z.to_nat j)) by lia.
    destruct (dir_find (name_of name) (drop (S (Z.to_nat j)) (dir V ip))) as [[i d]|]; [|done].
    cbn [fmap option_fmap option_map prod_map fst snd id]. by replace (j + 1 + Z.of_nat i) with (j + Z.of_nat (S i)) by lia. }
  destruct (Z.eqb_spec (de_inum de) 0) as [E0|E0].
  { rewrite decide_False by (by intros [? _]). exists k'. split_and!; [done|done|exact Enext]. }
  destruct (namecmp_run name (de_name de) k1) as (r & Er & Hr); [done|apply entry_name_ok; lia|]. erewrite bind_ok by exact Er.
  destruct (Z.eqb_spec r 0) as [Hr0|Hr0].
  - rewrite decide_True by (split; [done|symmetry; by apply Hr]). exists k1. split; [done|]. split; [done|].
    erewrite bind_ok by (apply get_inode_run, (is_dir_frame V dp ip nb k k1); done). by rewrite Hdev, Z.add_0_r.
  - rewrite decide_False by (intros [_ ?]; by apply Hr0, Hr). exists k'. split_and!; [done|done|exact Enext].
Qed.

(** What [dirlookup] finds, before it takes a reference. *)
Lemma dirlookup_run name n V dp ip nb k :
  name_ok name -> tx dev me n [] V k -> is_dir dev V dp ip nb k ->
  exists k', tx dev me n [] V k' /\ tx_frame k k' /\
    dirlookup dp name k =
      match dir_find (name_of name) (dir V ip) with
      | None => Ok None k'
      | Some (i, de) => (ip <- iget dev (de_inum de) ;; ret (Some (ip, sizeof_dirent * Z.of_nat i))) k'
      end.
Proof.
  intros Hn Ht Hd. pose proof Hd as [He _ Hty _ _ Hs _ _]. unfold dirlookup. erewrite bind_ok by by apply get_inode_run.
  rewrite Hty. cbn [Z.eqb negb T_DIR Pos.eqb].
  assert (0 <= i_size ip / sizeof_dirent) by (apply Z.div_pos; [lia|done]).
  destruct (dirlookup_loop_run name n V dp ip nb (S (S (Z.to_nat (i_size ip / sizeof_dirent)))) k 0) as (k' & Ht' & Hf & E); [done|done|done|lia|lia|].
  by exists k'.
Qed.

(** C20: [dirlookup] looks its name up in the map that the directory stands for:
    it returns nothing exactly when the map has no such name; otherwise it
    returns a reference to the inode that the map gives, in the inode table,
    and the offset of the first entry for the name, or panics when the table
    is full. No block changes. *)
Theorem dirlookup_spec name n V dp ip nb k :
  name_ok name -> tx dev me n [] V k -> is_dir dev V dp ip nb k ->
  exists k1, tx dev me n [] V k1 /\ tx_frame k k1 /\
    match dir_map (dir V ip) !! name_of name with
    | None => dirlookup dp name k = Ok None k1
    | Some inum =>
        match iget_entry (k_itable k) dev inum with
        | None => exists k', dirlookup dp name k = Panic "iget: no inodes" k'
        | Some (i, x) => exists j de, dir_find (name_of name) (dir V ip) = Some (j, de) /\ de_inum de = inum /\
            dirlookup dp name k = Ok (Some (i, sizeof_dirent * Z.of_nat j)) (k1 <| k_itable := <[i := x]> (k_itable k) |>)
        end
    end.
Proof.
  intros Hn Ht Hd. destruct (dirlookup_run name n V dp ip nb k Hn Ht Hd) as (k1 & Ht1 & Hf1 & E). exists k1.
  split; [done|]. split; [done|]. rewrite dir_find_map, E. destruct (dir_find _ _) as [[j de]|]; cbn [fmap option_fmap option_map snd]; [|done].
  pose proof Hf1 as (_ & _ & Ei & _)%tx_frame_keeps.
  pose proof (iget_run dev (de_inum de) me k1 (tx_calm _ _ _ _ _ _ Ht1)) as Hg. rewrite Ei in Hg. specialize (Hg (d_table _ _ _ _ _ _ Hd)).
  destruct (iget_entry _ _ _) as [[i x]|].
  - exists j, de. split_and!; [done|done|]. by erewrite bind_ok by exact Hg.
  - destruct Hg as [k' Hg]. exists k'. by erewrite bind_panic by exact Hg.
Qed.
End dir.
