(* ===== verification/FsLink.v ===== *)
(** * Adding a name to a directory

    [dirlink] adds its name to the map that the directory stands for, in the
    first entry that is free or at the end of the file. *)

From stdpp Require Import functions.
From S2P Require Import Prelude Riscv Machine Spinlock PhysMem Kalloc PageTable Vm VmSpec VmCopy Kernel Sched Sleeplock Bio Bytes Uart Printf Log Fs Thread BioRing BioSpec LogDisk LogSpec SchedSpec PipeSpec FsTx FsBlocks FsFile FsWrite FsDir.

(** ** The map *)

Lemma dir_map_app D1 D2 : dir_map (D1 ++ D2) = dir_map D1 ∪ dir_map D2.
Proof. unfold dir_map. by rewrite filter_app, fmap_app, list_to_map_app. Qed.

Lemma dir_map_cons de D :
  dir_map (de :: D) = if decide (de_inum de <> 0) then <[name_of (de_name de) := de_inum de]> (dir_map D) else dir_map D.
Proof. unfold dir_map. rewrite filter_cons. by case_decide. Qed.

(** An entry for a new name, in place of nothing or of a free entry. *)
Lemma dir_map_new D1 D2 de :
  de_inum de <> 0 -> dir_map D1 !! name_of (de_name de) = None ->
  dir_map (D1 ++ de :: D2) = <[name_of (de_name de) := de_inum de]> (dir_map (D1 ++ D2)).
Proof.
  intros Hi Hn. rewrite !dir_map_app, dir_map_cons, decide_True by done. by rewrite insert_union_r.
Qed.

(** The entries with [de] at index [j], which is free or the end. *)
Definition dir_put (j : nat) (de : dirent) (D : list dirent) : list dirent := take j D ++ de :: drop (S j) D.

Definition dir_free (D : list dirent) : nat := match list_find (fun de => de_inum de = 0) D with Some (j, _) => j | None => length D end.

Lemma dir_free_entry D : forall de, D !! dir_free D = Some de -> de_inum de = 0.
Proof.
  intros de. unfold dir_free. destruct (list_find _ D) as [[j x]|] eqn:E.
  - apply list_find_Some in E as (Hx & Hz & _). congruence.
  - by rewrite lookup_ge_None_2.
Qed.

Lemma dir_put_map D de :
  de_inum de <> 0 -> dir_map D !! name_of (de_name de) = None ->
  dir_map (dir_put (dir_free D) de D) = <[name_of (de_name de) := de_inum de]> (dir_map D).
Proof.
  intros Hi Hn. set (j := dir_free D). assert (dir_map D = dir_map (take j D ++ drop (S j) D)) as HD.
  { destruct (D !! j) as [x|] eqn:Ex.
    - rewrite <- (take_drop_middle D j x Ex) at 1. rewrite !dir_map_app, dir_map_cons, decide_False; [done|].
      intros Hne. by apply Hne, (dir_free_entry D).
    - apply lookup_ge_None in Ex. by rewrite take_ge, drop_ge, app_nil_r by lia. }
  unfold dir_put. rewrite dir_map_new; [by rewrite HD|done|].
  rewrite HD, dir_map_app in Hn. by apply lookup_union_None in Hn as [? _].
Qed.

Lemma decode_encode de : 0 <= de_inum de < 2 ^ 16 -> length (de_name de) = Z.to_nat DIRSIZ -> decode_dirent (encode_dirent de) = de.
Proof.
  intros Hi Hl. destruct de as [i s]. unfold decode_dirent, encode_dirent. cbn [de_inum de_name] in *. f_equal.
  - change (get16 (u8 i :: u8 (i / 256) :: s) 0) with (u8 (u8 i) + 256 * (u8 (u8 (i / 256)) + 256 * 0)). rewrite !u8_u8. unfold u8. change (2 ^ 8) with 256.
    pose proof (Z.div_mod i 256 ltac:(done)). rewrite (Z.mod_small (i / 256)); [lia|]. Z.div_mod_to_equations. lia.
  - change (slice (u8 i :: u8 (i / 256) :: s) 2 DIRSIZ) with (take (Z.to_nat DIRSIZ) s). by rewrite take_ge by by rewrite Hl.
Qed.

Section link.
Context `{KernelLayout} `{Platform} `{Fuel} `{!DiskDriver} `{!DiskLaws}.
Context (dev : Z) (me : nat).
Context (Hfuel : wait_fuel <> O).
Implicit Types (k : kernel) (V : Z -> list Z).

(** ** [iput] of a reference that is not the last to an unlinked inode *)

Lemma iput_light i x k :
  calm [] me k -> k_itable k !! i = Some x -> (i_ref x <> 1 \/ i_valid x = 0 \/ i_nlink x <> 0) ->
  iput i k = Ok tt (k <| k_itable := <[i := x <| i_ref ::= fun n => n - 1 |>]> (k_itable k) |>).
Proof.
  intros (Hs & Hl & _) Hx Hno. assert (lock_free itable_lock (k_m k)) as Hf by (apply Hl; [done|apply not_elem_of_nil]).
  unfold iput. erewrite bind_ok by by apply kacquire. erewrite bind_ok by by apply get_inode_run.
  assert ((i_ref x =? 1) && ctrue (i_valid x) && (i_nlink x =? 0) = false) as ->.
  { unfold ctrue. destruct (Z.eqb_spec (i_ref x) 1), (Z.eqb_spec (i_valid x) 0), (Z.eqb_spec (i_nlink x) 0); cbn; tauto || lia. }
  unfold when, set_inode. mrun. erewrite krelease; [|exact Hs|exact Hf|done]. f_equal. unfold upd, klocking. cbn -[alter].
  by erewrite list_alter_insert by exact Hx.
Qed.

(** A reference that [iget] gave is not the last to an unlinked inode. *)
Lemma iget_entry_lookup T inum i x : iget_entry T dev inum = Some (i, x) -> exists y, T !! i = Some y.
Proof.
  unfold iget_entry. destruct (list_find _ T) as [[a y]|] eqn:E.
  - intros [= <- <-]. apply list_find_Some in E as [? _]. eauto.
  - destruct (list_find (fun x => i_ref x = 0) T) as [[a y]|] eqn:E2; [|done]. intros [= <- <-]. apply list_find_Some in E2 as [? _]. eauto.
Qed.

Lemma iget_entry_light T inum i x : iget_entry T dev inum = Some (i, x) -> i_ref x <> 1 \/ i_valid x = 0 \/ i_nlink x <> 0.
Proof.
  unfold iget_entry. destruct (list_find _ T) as [[a y]|] eqn:E.
  - intros [= <- <-]. apply list_find_Some in E as (_ & (Hr & _) & _). left. cbn. lia.
  - destruct (list_find (fun x => i_ref x = 0) T) as [[a y]|]; [|done]. intros [= <- <-]. auto.
Qed.

(** ** The search for a free entry *)

Lemma dirlink_find_run n V dp ip nb fuel : forall k j,
  tx dev me n [] V k -> is_dir dev V dp ip nb k -> 0 <= j <= i_size ip / sizeof_dirent ->
  i_size ip / sizeof_dirent - j < Z.of_nat fuel ->
  exists k', tx dev me n [] V k' /\ tx_frame k k' /\
    dirlink_find fuel dp (sizeof_dirent * j) k = Ok (sizeof_dirent * (j + Z.of_nat (dir_free (drop (Z.to_nat j) (dir V ip))))) k'.
Proof.
  induction fuel as [|fuel IH]; intros k j Ht Hd Hj Hfu; [lia|]. cbn [dirlink_find].
  pose proof Hd as [He _ _ Hdev Hf Hs [q Hq] _]. erewrite bind_ok by by apply get_inode_run.
  pose proof (fo_max _ _ _ _ Hf) as Hmax. change MAXFILE with 268 in Hmax. change BSIZE with 1024 in *.
  assert (i_size ip / sizeof_dirent = q) as Eq by (rewrite Hq; by apply Z.div_mul). rewrite Eq in *.
  assert (i_size ip = 16 * q) as Esz by (rewrite Hq; change sizeof_dirent with 16; lia).
  destruct (decide (j = q)) as [->|Hne].
  { rewrite (proj2 (Z.ltb_ge _ _)) by (change sizeof_dirent with 16; lia). cbn [negb]. exists k. split; [done|]. split; [done|].
    rewrite drop_ge by (rewrite dir_length, Eq; done). cbn. by rewrite Z.add_0_r. }
  rewrite (proj2 (Z.ltb_lt _ _)) by (change sizeof_dirent with 16; lia). cbn [negb].
  destruct (read_entry dev me Hfuel n V dp ip nb k j) as (k1 & E1 & Ht1 & Hf1); [done|done|lia|]. erewrite bind_ok by exact E1. cbn [fst snd].
  rewrite Z.eqb_refl. cbn [negb]. pose proof (dir_lookup V ip j) as Hlk. rewrite (drop_S _ _ _ (Hlk ltac:(lia))).
  set (de := decode_dirent _) in *. unfold dir_free. cbn [list_find length].
  destruct (Z.eqb_spec (de_inum de) 0) as [E0|E0]; [rewrite decide_True by done|rewrite decide_False by done].
  - exists k1. rewrite Z.add_0_r. done.
  - destruct (IH k1 (j + 1)) as (k' & Ht' & Hf' & E'); [done|by eapply is_dir_frame|lia|lia|]. exists k'.
    split; [done|]. split; [by etrans|].
    replace (u32 (sizeof_dirent * j + sizeof_dirent)) with (sizeof_dirent * (j + 1)) by (change sizeof_dirent with 16; rewrite u32_small; lia).
    rewrite E'. replace (Z.to_nat (j + 1)) with (S (Z.to_nat j)) by lia. unfold dir_free.
    destruct (list_find _ (drop (S (Z.to_nat j)) (dir V ip))) as [[i d]|]; cbn [fmap option_fmap option_map prod_map fst snd id]; do 2 f_equal; lia.
Qed.

(** ** [dirlink] *)

Lemma dir_put_lookup j de (D : list dirent) m :
  (j <= length D)%nat -> dir_put j de D !! m = if decide (m = j) then Some de else D !! m.
Proof.
  intros Hj. unfold dir_put. destruct (decide (m < j)%nat) as [Hlt|Hge].
  - rewrite decide_False by lia. rewrite lookup_app_l by (rewrite length_take; lia). by apply lookup_take_lt.
  - rewrite lookup_app_r by (rewrite length_take; lia). rewrite length_take_le by lia. case_decide as Hm.
    + subst m. by rewrite Nat.sub_diag.
    + replace (m - j)%nat with (S (m - S j)) by lia. 
      change ((de :: drop (S j) D) !! S (m - S j)) with (drop (S j) D !! (m - S j)%nat). rewrite lookup_drop. f_equal. lia.
Qed.

Lemma dir_free_le D : (dir_free D <= length D)%nat.
Proof.
  unfold dir_free. destruct (list_find _ D) as [[j x]|] eqn:E; [|done]. apply list_find_Some in E as (Hx & _). apply lookup_lt_Some in Hx. lia.
Qed.

(** A file whose bytes changed in one entry only. *)
Lemma dir_write V V' ip ip' (j : nat) de :
  (sizeof_dirent | i_size ip) -> 0 <= i_size ip -> (j <= length (dir V ip))%nat ->
  i_size ip' = Z.max (i_size ip) (sizeof_dirent * Z.of_nat j + sizeof_dirent) ->
  decode_dirent (file_slice V' ip' (sizeof_dirent * Z.of_nat j) sizeof_dirent) = de ->
  (forall o, 0 <= o < i_size ip -> ~ sizeof_dirent * Z.of_nat j <= o < sizeof_dirent * Z.of_nat j + sizeof_dirent -> file_byte V' ip' o = file_byte V ip o) ->
  dir V' ip' = dir_put j de (dir V ip).
Proof.
  intros [q Hq] Hs Hj Hs' Hde Hsame. rewrite dir_length in Hj. change sizeof_dirent with 16 in *.
  assert (i_size ip / 16 = q) as Eq by (rewrite Hq; by apply Z.div_mul). rewrite Eq in Hj.
  assert (i_size ip' / 16 = Z.max q (Z.of_nat j + 1)) as Eq'.
  { rewrite Hs'. replace (Z.max (i_size ip) (16 * Z.of_nat j + 16)) with (Z.max q (Z.of_nat j + 1) * 16) by lia. by apply Z.div_mul. }
  apply list_eq. intros m. rewrite dir_put_lookup by (rewrite dir_length; change sizeof_dirent with 16; lia).
  destruct (decide (Z.of_nat m < Z.max q (Z.of_nat j + 1))) as [Hm|Hm].
  - pose proof (dir_lookup V' ip' (Z.of_nat m)) as Hl. change sizeof_dirent with 16 in Hl. rewrite Nat2Z.id, Eq' in Hl. rewrite Hl by lia.
    case_decide as Hmj; [by subst m; rewrite Hde|].
    pose proof (dir_lookup V ip (Z.of_nat m)) as Hl0. change sizeof_dirent with 16 in Hl0. rewrite Nat2Z.id, Eq in Hl0. rewrite Hl0 by lia.
    do 2 f_equal. unfold file_slice. apply list_fmap_ext. intros i o [-> Ho]%lookup_seqZ. apply Hsame; lia.
  - rewrite decide_False by lia. rewrite !lookup_ge_None_2; [done|rewrite dir_length; change sizeof_dirent with 16; lia..].
Qed.

Lemma file_slice_Forall V ip off n (P : Z -> Prop) : Forall P (file_slice V ip off n) <-> forall o, off <= o < off + n -> P (file_byte V ip o).
Proof.
  unfold file_slice. rewrite Forall_fmap, Forall_forall. setoid_rewrite elem_of_seqZ. done.
Qed.

Lemma link_run name inum n V dp ip nb k :
  let j := dir_free (dir V ip) in
  let off := sizeof_dirent * Z.of_nat j in
  let B := IBLOCK (i_inum ip) (k_sb k) in
  let ip' := ip <| i_size := Z.max (i_size ip) (off + sizeof_dirent) |> in
  name_ok name -> Forall (fun b => 0 <= b < 256) name -> 0 < inum < 2 ^ 16 ->
  tx dev me (2 + n) [] V k -> is_dir dev V dp ip nb k -> dir_map (dir V ip) !! name_of name = None ->
  off + sizeof_dirent <= nb * BSIZE -> fs_block k B -> B <> ind_addr ip -> (forall j, 0 <= j < nb -> B <> blk_addr V ip j) ->
  exists V' k', dirlink dp name inum k = Ok 0 k' /\ tx dev me n [] V' k' /\ is_dir dev V' dp ip' nb k' /\
    dir_map (dir V' ip') = <[name_of name := inum]> (dir_map (dir V ip)) /\
    V' B = write_dinode (V B) (dinode_off (i_inum ip)) ip' /\
    (forall b, b <> B -> (forall j, 0 <= j < nb -> b <> blk_addr V ip j) -> V' b = V b).
Proof.
  intros j off B ip' Hn Hnb Hi Ht Hd Hnone Hfit HB HBi HBb.
  destruct (dirlookup_run dev me Hfuel name (2 + n) V dp ip nb k Hn Ht Hd) as (k1 & Ht1 & Hf1 & E1).
  rewrite dir_find_map in Hnone. apply fmap_None in Hnone. rewrite Hnone in E1.
  unfold dirlink. erewrite bind_ok by exact E1. pose proof (is_dir_frame dev V dp ip nb _ _ Hf1 Hd) as Hd1.
  pose proof Hd as [He _ Hty Hdev Hf Hs [q Hq] Hb]. erewrite bind_ok by (apply get_inode_run, Hd1).
  destruct (dirlink_find_run (2 + n) V dp ip nb (S (S (Z.to_nat (i_size ip / sizeof_dirent)))) k1 0) as (k2 & Ht2 & Hf2 & E2); [done|done| | |].
  { split; [lia|]. apply Z.div_pos; [lia|done]. }
  { assert (0 <= i_size ip / sizeof_dirent) by (apply Z.div_pos; [lia|done]). lia. }
  change (sizeof_dirent * (0 + Z.of_nat (dir_free (drop (Z.to_nat 0) (dir V ip))))) with off in E2.
  erewrite bind_ok by exact E2. destruct (strncpy_name name Hn Hnb) as (nm & -> & Hl & Hnm & Hby).
  set (de := mkdirent (u16 inum) nm). assert (u16 inum = inum) as Eu by (apply Z.mod_small; lia).
  assert (length (encode_dirent de) = 16%nat) as Hle by (cbn; by rewrite Hl).
  assert (tx_frame k k2) as Hf02 by by etrans. pose proof (is_dir_frame dev V dp ip nb _ _ Hf02 Hd) as Hd2.
  pose proof Hf02 as (_ & Esb & _)%tx_frame_keeps.
  pose proof (dir_free_le (dir V ip)) as Hjle. fold j in Hjle. rewrite dir_length in Hjle.
  assert (i_size ip / sizeof_dirent = q) as Eq by (rewrite Hq; by apply Z.div_mul). rewrite Eq in Hjle.
  change sizeof_dirent with 16 in *. change BSIZE with 1024 in *.
  destruct (writei_run dev me Hfuel n 1 [] V k2 dp ip nb (LocalSrc (encode_dirent de)) off (encode_dirent de))
    as (V' & k' & E3 & Ht3 & Hf3 & Hok3 & Hsl & Hsame & HVB & HVo);
    rewrite ?Hle; try done; try (intros; apply not_elem_of_nil); try (by rewrite Esb); try apply Hd2; try (cbn; lia).
  { rewrite Esb. by apply (fs_block_frame k k2). }
  { change BSIZE with 1024. unfold off. Z.div_mod_to_equations. lia. }
  rewrite Hle in *. change (Z.of_nat 16) with 16 in *. rewrite Esb in HVB, HVo. fold B ip' in HVB, HVo, Hf3, Hok3, Hsl, Hsame.
  exists V', k'. erewrite bind_ok by exact E3. assert (decode_dirent (encode_dirent de) = de) as Hdd by (apply decode_encode; cbn; [lia|done]).
  assert (dir V' ip' = dir_put j de (dir V ip)) as HD'.
  { apply dir_write; [by exists q|lia|rewrite dir_length; change sizeof_dirent with 16; lia|done|by rewrite <- Hdd, <- Hsl|].
    intros o Ho Hout. apply Hsame; [change BSIZE with 1024; lia|done]. }
  split_and!; [done|done| | |done|done].
  - destruct Hd2 as [He2 Htab _ _ _ _ _ _]. pose proof Hf3 as (_ & _ & Ei & _)%tx_frame_keeps. cbn in Ei.
    split; rewrite ?Ei; try done.
    + apply list_lookup_insert_eq. by eapply lookup_lt_Some.
    + by rewrite length_insert.
    + cbn. change BSIZE with 1024. lia.
    + cbn. exists (Z.max q (Z.of_nat j + 1)). change sizeof_dirent with 16. unfold off. lia.
    + apply file_slice_Forall. intros o Ho. cbn in Ho. destruct (decide (off <= o < off + 16)) as [Hin|Hout].
      * assert (Forall (fun b => 0 <= b < 256) (encode_dirent de)) as Hall.
        { constructor; [apply u8_range|]. constructor; [apply u8_range|done]. }
        rewrite <- Hsl in Hall. rewrite file_slice_Forall in Hall. by apply Hall.
      * rewrite Hsame by (change BSIZE with 1024; lia). rewrite file_slice_Forall in Hb. apply Hb. lia.
  - rewrite HD'. unfold j. rewrite dir_put_map.
    + cbn. by rewrite Hnm, Eu.
    + cbn. lia.
    + rewrite dir_find_map. cbn. by rewrite Hnm, Hnone.
Qed.

End link.
