(* ===== verification/FsInode.v ===== *)
(** * Inode references and locks

    The inode table as a cache of the inodes on disk, seen from a transaction
    of the running process: [ilock] loads the inode and takes its sleep lock,
    [iunlock] releases it, [iget], [idup] and [iput] count references.
    [icache] is the invariant of the table, [ilocks] the state of the sleep
    locks of the inodes. *)

From stdpp Require Import functions.
From S2P Require Import Prelude Riscv Machine Spinlock PhysMem Kalloc PageTable Vm VmSpec VmCopy Kernel Sched Sleeplock Bio Bytes Uart Printf Log Fs Thread BioRing BioSpec LogDisk LogSpec SchedSpec PipeSpec FsTx FsBlocks FsFile FsWrite FsDir FsLink.

(** ** The table *)

(** An entry with its fields read from disk again. *)
Definition from_disk (V : Z -> list Z) (sb : superblock) (x : inode) : inode :=
  read_dinode (V (IBLOCK (i_inum x) sb)) (dinode_off (i_inum x)) x.

Record icache (dev : Z) (V : Z -> list Z) (sb : superblock) (T : list inode) : Prop := {
  ic_len : length T = Z.to_nat NINODE;
  ic_refs : Forall (fun x => 0 <= i_ref x) T;
  ic_valid : Forall (fun x => i_dev x = dev -> 0 < i_ref x -> i_valid x <> 0 -> from_disk V sb x = x) T
}.

Lemma icache_insert dev V sb T i x :
  icache dev V sb T -> 0 <= i_ref x -> (i_dev x = dev -> 0 < i_ref x -> i_valid x <> 0 -> from_disk V sb x = x) ->
  icache dev V sb (<[i := x]> T).
Proof.
  intros [Hl Hr Hv] Hx Hd. split; [by rewrite length_insert|by apply Forall_insert..].
Qed.

Definition refs (T : list inode) : list Z := i_ref <$> T.

(** One reference more. *)
Definition referenced (i : nat) (R : list Z) : list Z := alter (fun n => n + 1) i R.

Lemma refs_insert T i x y g :
  T !! i = Some y -> i_ref x = g (i_ref y) -> refs (<[i := x]> T) = alter g i (refs T).
Proof.
  intros Hy E. unfold refs. rewrite list_fmap_insert, E. symmetry. apply list_alter_insert. by rewrite list_lookup_fmap, Hy.
Qed.

Lemma referenced_commute i j R : alter (fun n => n - 1) i (referenced j (referenced i R)) = referenced j R.
Proof.
  unfold referenced. apply list_eq. intros a. destruct (decide (a = i)) as [->|Hi].
  - rewrite list_lookup_alter_eq. destruct (decide (i = j)) as [->|Hj].
    + rewrite !list_lookup_alter_eq. destruct (R !! j); cbn; [f_equal; lia|done].
    + rewrite !(list_lookup_alter_ne _ _ j) by done. rewrite list_lookup_alter_eq. destruct (R !! i); cbn; [f_equal; lia|done].
  - rewrite list_lookup_alter_ne by done. destruct (decide (a = j)) as [->|Hj].
    + rewrite !list_lookup_alter_eq. by rewrite list_lookup_alter_ne.
    + by rewrite !list_lookup_alter_ne.
Qed.

Lemma referenced_put i R : alter (fun n => n - 1) i (referenced i R) = R.
Proof.
  unfold referenced. apply list_eq. intros a. destruct (decide (a = i)) as [->|Hi]; [|by rewrite !list_lookup_alter_ne].
  rewrite !list_lookup_alter_eq. destruct (R !! i); cbn; [f_equal; lia|done].
Qed.

(** Entry [i] refers to inode [inum]. *)
Definition refers (dev inum : Z) (i : nat) (T : list inode) : Prop :=
  exists x, T !! i = Some x /\ i_dev x = dev /\ i_inum x = inum /\ 1 <= i_ref x.

(** [iget] finds or makes an entry when one is free. *)
Lemma iget_entry_ok dev V sb T inum :
  icache dev V sb T -> (exists j, refs T !! j = Some 0) ->
  exists i x, iget_entry T dev inum = Some (i, x) /\ icache dev V sb (<[i := x]> T) /\
    refs (<[i := x]> T) = referenced i (refs T) /\ refers dev inum i (<[i := x]> T).
Proof.
  intros Hc [j Hj]. pose proof Hc as [Hlen Hr Hv]. unfold iget_entry, refers. unfold refs in Hj. rewrite list_lookup_fmap in Hj.
  apply fmap_Some in Hj as (z & Hz & E0). destruct (list_find (fun x => 0 < i_ref x /\ _) T) as [[i y]|] eqn:E.
  - apply list_find_Some in E as (Hy & (Hpos & Hd & Hi) & _). eexists _, _. split; [done|]. split_and!.
    + apply icache_insert; [done|cbn; lia|]. intros _ _ Hval. pose proof (Forall_lookup_1 _ _ _ _ Hv Hy Hd Hpos Hval) as Hf.
      rewrite <- Hf at 2. done.
    + by apply (refs_insert _ _ _ y (fun n => n + 1)).
    + eexists. split; [apply list_lookup_insert_eq; by eapply lookup_lt_Some|]. cbn. split_and!; [done|done|lia].
  - destruct (list_find (fun x => i_ref x = 0) T) as [[i y]|] eqn:E2.
    2: { apply list_find_None in E2. exfalso. by apply (Forall_lookup_1 _ _ _ _ E2 Hz). }
    apply list_find_Some in E2 as (Hy & H0 & _). eexists _, _. split; [done|]. split_and!.
    + apply icache_insert; [done|cbn; lia|]. by intros _ _ [].
    + apply (refs_insert _ _ _ y (fun n => n + 1)); [done|]. cbn. lia.
    + eexists. split; [apply list_lookup_insert_eq; by eapply lookup_lt_Some|]. cbn. split_and!; [done|done|lia].
Qed.

(** A referenced entry keeps its inode. *)
Lemma iget_entry_keeps T dev inum i j x y :
  iget_entry T dev inum = Some (j, y) -> T !! i = Some x -> 1 <= i_ref x ->
  exists r, <[j := y]> T !! i = Some (x <| i_ref := r |>) /\ i_ref x <= r.
Proof.
  intros Hg Hx Hr. destruct (decide (i = j)) as [<-|Hne].
  2: { exists (i_ref x). rewrite list_lookup_insert_ne by done. split; [|lia]. rewrite Hx. by destruct x. }
  rewrite list_lookup_insert_eq by by eapply lookup_lt_Some. unfold iget_entry in Hg.
  destruct (list_find (fun x => 0 < i_ref x /\ _) T) as [[a z]|] eqn:E.
  - injection Hg as -> <-. apply list_find_Some in E as (Hz & _). simplify_eq. exists (i_ref z + 1). split; [done|lia].
  - destruct (list_find (fun x => i_ref x = 0) T) as [[a z]|] eqn:E2; [|done]. injection Hg as -> <-.
    apply list_find_Some in E2 as (Hz & H0 & _). simplify_eq. lia.
Qed.

(** A reference less. *)
Lemma icache_put dev V sb T i x :
  icache dev V sb T -> T !! i = Some x -> 1 <= i_ref x -> icache dev V sb (<[i := x <| i_ref ::= fun n => n - 1 |>]> T).
Proof.
  intros Hc Hx Hr. apply icache_insert; [done|cbn; lia|]. cbn -[from_disk]. intros Hd Hp Hv.
  pose proof (Forall_lookup_1 _ _ _ _ (ic_valid _ _ _ _ Hc) Hx Hd) as Hf. rewrite <- Hf at 2 by (done || lia). done.
Qed.

Lemma refers_put dev inum T i j x R :
  refers dev inum j T -> T !! i = Some x -> Forall (fun r => 0 <= r) R ->
  refs (<[i := x <| i_ref ::= fun n => n - 1 |>]> T) = referenced j R ->
  refers dev inum j (<[i := x <| i_ref ::= fun n => n - 1 |>]> T).
Proof.
  intros (y & Hy & Hd & Hi & Hr) Hx HR E. destruct (decide (i = j)) as [->|Hne].
  2: { exists y. by rewrite list_lookup_insert_ne. }
  assert (x = y) as -> by congruence. eexists. split; [apply list_lookup_insert_eq; by eapply lookup_lt_Some|]. cbn. split_and!; [done|done|].
  apply (f_equal (fun l => l !! j)) in E. unfold refs, referenced in E.
  rewrite list_lookup_fmap, list_lookup_insert_eq, list_lookup_alter_eq in E by (by eapply lookup_lt_Some). cbn in E.
  destruct (R !! j) as [r|] eqn:ER; [|done]. injection E as E. pose proof (Forall_lookup_1 _ _ _ _ HR ER) as Hp. cbn in Hp. lia.
Qed.

(** A referenced table with two free entries has one left. *)
Lemma referenced_room i R : (exists a b, a <> b /\ R !! a = Some 0 /\ R !! b = Some 0) -> exists j, referenced i R !! j = Some 0.
Proof.
  intros (a & b & Hab & Ha & Hb). unfold referenced. destruct (decide (i = a)) as [->|Hi].
  - exists b. by rewrite list_lookup_alter_ne by congruence.
  - exists a. by rewrite list_lookup_alter_ne.
Qed.

(** ** States *)

Section inode.
Context `{KernelLayout} `{Platform} `{Fuel} `{!DiskDriver} `{!DiskLaws}.
Context (dev : Z) (me : nat).
Context (Hfuel : wait_fuel <> O).
Implicit Types (k : kernel) (V : Z -> list Z).

(** The sleep locks of the inodes: the running process holds that of [h],
    the others are free. *)
Definition ilock_ok (h : option nat) (k : kernel) (i : nat) : Prop :=
  if decide (h = Some i)
  then sl_locked (slock k (inode_sleeplock i)) = 1 /\
       exists p, k_proc k !! me = Some p /\ sl_pid (slock k (inode_sleeplock i)) = p_pid p
  else sl_locked (slock k (inode_sleeplock i)) = 0.

Definition ilocks (h : option nat) (k : kernel) : Prop := forall i, (i < Z.to_nat NINODE)%nat -> ilock_ok h k i.

(** What the operations on inodes that write no block leave alone. *)
Definition inode_frame (k k' : kernel) : Prop :=
  tx_frame (k <| k_itable := k_itable k' |> <| k_sleeplocks := k_sleeplocks k' |>) k'.

#[export] Instance inode_frame_preorder : PreOrder inode_frame.
Proof.
  split.
  - intros k. unfold inode_frame. by assert (k <| k_itable := k_itable k |> <| k_sleeplocks := k_sleeplocks k |> = k) as -> by (by destruct k).
  - intros k1 k2 k3 ([(P & S & B & d & v & E & Hw & _) EL] & Hi & Hd) ([(P' & S' & B' & d' & v' & E' & Hw' & Hs') EL'] & Hi' & Hd').
    cbn in *. split_and!; [|cbn; congruence..]. split.
    + exists P', S', B', d', v'. rewrite E in E', Hw'. cbn in *. split_and!; [exact E'|by etrans|done].
    + cbn. rewrite EL', EL. done.
Qed.

Lemma tx_inode_frame k k' : tx_frame k k' -> inode_frame k k'.
Proof.
  intros ([(P & S & B & d & v & E & Hw & Hs) EL] & Hi & Hd). split_and!; [|done..]. split; [|done].
  exists P, S, B, d, v. split_and!; [|done|]; rewrite E; [done|]. done.
Qed.

(** Changes of the table, the sleep locks and the states of processes. *)
Lemma inode_frame_local k k' :
  k' = k <| k_itable := k_itable k' |> <| k_sleeplocks := k_sleeplocks k' |> <| k_proc := k_proc k' |> ->
  woken (k_proc k) (k_proc k') -> inode_frame k k'.
Proof.
  intros E Hw. assert (k_device k' = k_device k /\ k_log k' = k_log k) as [Ed EL] by (by rewrite E).
  split_and!; [|by rewrite Ed..]. split; [|rewrite EL; cbn; by destruct (k_log k)].
  exists (k_proc k'), (k_sleeplocks k'), (k_bcache k), (k_disk k), (k_device k). split_and!; [|done|done].
  rewrite EL. etransitivity; [exact E|]. by destruct k.
Qed.

Lemma inode_frame_keeps k k' :
  inode_frame k k' -> k_m k' = k_m k /\ k_sb k' = k_sb k /\ k_log k' = (k_log k) <| lh_n := lh_n (k_log k') |> <| lh_block := lh_block (k_log k') |> /\
    content k' = content k.
Proof. intros Hf. pose proof (tx_frame_keeps _ _ Hf) as (? & ? & _ & _ & _ & ?). destruct Hf as ([_ EL] & _). done. Qed.

(** ** Transactions and locks *)

Lemma slock_insert k l l' s :
  slock (k <| k_sleeplocks ::= fun t => <[l := s]> t |>) l' = if decide (l = l') then s else slock k l'.
Proof. unfold slock. cbn. case_decide as E; [subst l'; by rewrite lookup_insert_eq|by rewrite lookup_insert_ne]. Qed.

Lemma tx_set_ilock n held V k i s :
  tx dev me n held V k -> tx dev me n held V (k <| k_sleeplocks ::= fun t => <[inode_sleeplock i := s]> t |>).
Proof.
  intros (bl & R & [Hbio Hlog Hh Hnd Hout Hsp HR Hroom Hfew Hpin Hdev]). exists bl, R. split; try done.
  destruct Hbio as [Hcalm Hring Hu Hrefs Hro Hcoh Hcl Hd Hhe Hn Hlk]; split; try done.
  intros j Hj. specialize (Hlk j Hj). unfold buf_lock_ok in *. rewrite slock_insert. by rewrite (decide_False (P := inode_sleeplock i = buf_sleeplock j)) by done.
Qed.

Lemma tx_wake n held V k ch : tx dev me n held V k -> tx dev me n held V (k <| k_proc ::= imap (wake me ch) |>).
Proof.
  intros (bl & R & [Hbio Hlog Hh Hnd Hout Hsp HR Hroom Hfew Hpin Hdev]). exists bl, R. split; try done.
  destruct Hbio as [Hcalm Hring Hu Hrefs Hro Hcoh Hcl Hd Hhe Hn Hlk]; split; try done.
  - apply calm_upd_proc; [by rewrite length_imap|done].
  - intros j Hj. specialize (Hlk j Hj). unfold buf_lock_ok in *. case_decide; [|done]. destruct Hlk as (? & p & Hp & ?). split; [done|].
    exists p. split; [|done]. cbn -[imap]. rewrite list_lookup_imap, Hp. cbn. by rewrite wake_me.
Qed.

Lemma tx_frame_ilocks h k k' : tx_frame k k' -> ilocks h k -> ilocks h k'.
Proof.
  intros ([(P & S & B & d & v & E & Hw & Hs) _] & _) Hl i Hi. specialize (Hl i Hi). unfold ilock_ok in *.
  assert (slock k' (inode_sleeplock i) = slock k (inode_sleeplock i)) as -> by (unfold slock; rewrite E; cbn; by rewrite Hs).
  case_decide; [|done]. destruct Hl as (? & p & Hp & ?). split; [done|]. destruct (woken_lookup _ _ _ _ Hw Hp) as (q & Hq & Hpq).
  exists q. rewrite E. split; [done|]. by destruct Hpq as [->|[_ ->]].
Qed.

(** ** Operations *)

Lemma ilocks_take i k p :
  ilocks None k -> k_proc k !! me = Some p ->
  ilocks (Some i) (k <| k_sleeplocks ::= fun t => <[inode_sleeplock i := mksleeplock 1 (sl_name (slock k (inode_sleeplock i))) (p_pid p)]> t |>).
Proof.
  intros Hl Hp j Hj. specialize (Hl j Hj). unfold ilock_ok in *. rewrite decide_False in Hl by done. rewrite slock_insert.
  destruct (decide (Some i = Some j)) as [[= ->]|Hne].
  - rewrite decide_True by done. cbn. eauto.
  - by rewrite decide_False by congruence.
Qed.

Lemma ilocks_drop i k ch :
  ilocks (Some i) k ->
  ilocks None (k <| k_sleeplocks ::= fun t => <[inode_sleeplock i := mksleeplock 0 (sl_name (slock k (inode_sleeplock i))) 0]> t |>
                 <| k_proc ::= imap (wake me ch) |>).
Proof.
  intros Hl j Hj. specialize (Hl j Hj). unfold ilock_ok in *. rewrite decide_False by done.
  change (slock (_ <| k_proc ::= _ |>) ?l) with (slock (k <| k_sleeplocks ::= fun t => <[inode_sleeplock i := mksleeplock 0 (sl_name (slock k (inode_sleeplock i))) 0]> t |>) l).
  rewrite slock_insert. destruct (decide (inode_sleeplock i = inode_sleeplock j)); [done|]. by rewrite decide_False in Hl by congruence.
Qed.

(** [ilock] of a reference takes the lock, and leaves the entry with the
    fields of the inode on disk. *)
Lemma ilock_run n V k i x :
  tx dev me n [] V k -> icache dev V (k_sb k) (k_itable k) -> ilocks None k -> k_itable k !! i = Some x ->
  1 <= i_ref x -> i_dev x = dev -> i_type (from_disk V (k_sb k) x) <> 0 ->
  exists k' x', ilock (Some i) k = Ok tt k' /\ tx dev me n [] V k' /\ ilocks (Some i) k' /\ inode_frame k k' /\
    k_itable k' = <[i := x']> (k_itable k) /\ from_disk V (k_sb k) x' = x' /\ i_valid x' <> 0 /\
    i_dev x' = dev /\ i_inum x' = i_inum x /\ i_ref x' = i_ref x.
Proof.
  intros Ht Hc Hl Hx Hr Hd Hty. pose proof (tx_calm _ _ _ _ _ _ Ht) as Hcalm. destruct (me_entry _ _ _ Hcalm) as [p Hp].
  assert ((i < Z.to_nat NINODE)%nat) as Hi by (rewrite <- (ic_len _ _ _ _ Hc); by eapply lookup_lt_Some).
  unfold ilock. erewrite bind_ok by by apply get_inode_run. rewrite (proj2 (Z.ltb_ge _ _) Hr).
  erewrite bind_ok.
  2: { apply (acquiresleep_run [] me _ p); [done|exact Hi|apply not_elem_of_nil|done|done|].
       specialize (Hl i Hi). unfold ilock_ok in Hl. by rewrite decide_False in Hl. }
  set (k1 := k <| k_sleeplocks ::= _ |>). assert (tx dev me n [] V k1) as Ht1 by by apply tx_set_ilock.
  assert (ilocks (Some i) k1) as Hl1 by by apply ilocks_take.
  assert (inode_frame k k1) as Hf1 by by apply inode_frame_local.
  erewrite bind_ok by by apply get_inode_run. unfold when. destruct (Z.eqb_spec (i_valid x) 0) as [Ev|Ev].
  2: { exists k1, x. split; [done|]. split_and!; try done; [by rewrite list_insert_id|].
       by apply (Forall_lookup_1 _ _ _ _ (ic_valid _ _ _ _ Hc) Hx Hd); [lia|]. }
  unfold get_sb. mrun. rewrite Hd. set (bn := IBLOCK _ _).
  destruct (bread_tx _ _ n [] V k1 bn Ht1 Hfuel) as (b & k2 & E2 & Ht2 & Hf2 & y & Hy & Ey); [apply not_elem_of_nil|cbn; lia|].
  erewrite bind_ok by exact E2. erewrite bind_ok by exact Hy. unfold set_inode. mrun.
  pose proof Hf2 as (_ & Esb & EI & _)%tx_frame_keeps.
  set (k3 := k2 <| k_itable ::= _ |>). assert (tx dev me n [(b, bn)] V k3) as Ht3 by by apply tx_set_itable.
  destruct (brelse_tx _ _ n _ [] V k3 b bn Ht3) as (k4 & E4 & Ht4 & Hf4); [done|]. erewrite bind_ok by exact E4. mrun.
  pose proof Hf4 as (_ & Esb4 & EI4 & _)%tx_frame_keeps.
  set (k5 := k4 <| k_itable ::= _ |>). set (x' := from_disk V (k_sb k) x <| i_valid := 1 |>).
  assert (k_itable k5 = <[i := x']> (k_itable k)) as EI5.
  { unfold k5. unfold upd. cbn -[alter read_dinode]. rewrite EI4. unfold k3, upd. cbn -[alter read_dinode]. rewrite EI. cbn -[alter read_dinode].
    rewrite (list_alter_insert _ _ _ _ Hx). erewrite list_alter_insert by (apply list_lookup_insert_eq; by eapply lookup_lt_Some).
    by rewrite list_insert_insert_eq, Ey. }
  erewrite bind_ok by (apply get_inode_run; rewrite EI5; apply list_lookup_insert_eq; by eapply lookup_lt_Some).
  change (i_type x') with (i_type (from_disk V (k_sb k) x)). rewrite (proj2 (Z.eqb_neq _ _) Hty).
  exists k5, x'. split; [done|]. split_and!; try done.
  - by apply tx_set_itable.
  - apply (tx_frame_ilocks (Some i) k3 k4 Hf4). by apply (tx_frame_ilocks (Some i) k1 k2).
  - etrans; [exact Hf1|]. etrans; [by apply tx_inode_frame|]. etrans; [|etrans; [by apply tx_inode_frame|]]; by apply inode_frame_local.
Qed.

(** [iunlock] by the holder. *)
Lemma iunlock_run n V k i x :
  tx dev me n [] V k -> length (k_itable k) = Z.to_nat NINODE -> ilocks (Some i) k -> k_itable k !! i = Some x -> 1 <= i_ref x ->
  exists k', iunlock (Some i) k = Ok tt k' /\ tx dev me n [] V k' /\ ilocks None k' /\ inode_frame k k' /\ k_itable k' = k_itable k.
Proof.
  intros Ht Hlen Hl Hx Hr. pose proof (tx_calm _ _ _ _ _ _ Ht) as Hcalm.
  assert ((i < Z.to_nat NINODE)%nat) as Hi by (rewrite <- Hlen; by eapply lookup_lt_Some).
  pose proof (Hl i Hi) as Hli. unfold ilock_ok in Hli. rewrite decide_True in Hli by done. destruct Hli as (E1 & p & Hp & Epid).
  unfold iunlock. erewrite bind_ok by (apply (holdingsleep_run [] me _ p); [done|exact Hi|apply not_elem_of_nil|done]).
  rewrite E1, Epid, Z.eqb_refl. cbn [ctrue Z.eqb negb andb]. erewrite bind_ok by by apply get_inode_run. rewrite (proj2 (Z.ltb_ge _ _) Hr).
  rewrite (releasesleep_run [] me); [|done|exact Hi|apply not_elem_of_nil|intros; apply not_elem_of_nil].
  eexists. split; [reflexivity|]. split_and!; [|by apply ilocks_drop| |done].
  - by apply tx_wake, tx_set_ilock.
  - apply inode_frame_local; [by destruct k|]. apply imap_wake_woken.
Qed.

(** [iunlockput] of an inode that is linked or has other references. *)
Lemma iunlockput_run n V k i x :
  tx dev me n [] V k -> length (k_itable k) = Z.to_nat NINODE -> ilocks (Some i) k -> k_itable k !! i = Some x -> 1 <= i_ref x ->
  i_ref x <> 1 \/ i_nlink x <> 0 ->
  exists k', iunlockput i k = Ok tt k' /\ tx dev me n [] V k' /\ ilocks None k' /\ inode_frame k k' /\
    k_itable k' = <[i := x <| i_ref ::= fun n => n - 1 |>]> (k_itable k).
Proof.
  intros Ht Hlen Hl Hx Hr Hno. destruct (iunlock_run n V k i x) as (k1 & E1 & Ht1 & Hl1 & Hf1 & EI); [done..|].
  unfold iunlockput. erewrite bind_ok by exact E1. rewrite (iput_light me i x); [|by eapply tx_calm|by rewrite EI|tauto].
  rewrite EI. eexists. split; [reflexivity|]. split_and!; [by apply tx_set_itable|done| |done].
  etrans; [exact Hf1|]. by apply inode_frame_local.
Qed.

(** [idup] adds a reference. *)
Lemma idup_run n V k i x :
  tx dev me n [] V k -> k_itable k !! i = Some x ->
  idup i k = Ok i (k <| k_itable := <[i := x <| i_ref ::= fun n => n + 1 |>]> (k_itable k) |>).
Proof.
  intros Ht Hx. destruct (tx_calm _ _ _ _ _ _ Ht) as (Hs & Hl & _).
  assert (lock_free itable_lock (k_m k)) as Hf by (apply Hl; [done|apply not_elem_of_nil]).
  unfold idup. erewrite bind_ok by by apply kacquire. unfold set_inode. mrun. erewrite bind_ok by (eapply krelease; [exact Hs|exact Hf|done]).
  unfold ret. f_equal. unfold upd, klocking. cbn -[alter]. by erewrite list_alter_insert by exact Hx.
Qed.

(** ** Types *)

Lemma s16_range x : - 2 ^ 15 <= s16 x < 2 ^ 15.
Proof. clear. unfold s16. pose proof (Z.mod_pos_bound (x + 2 ^ 15) (2 ^ 16)). lia. Qed.

(** Whatever a block holds, the inode read from it is well typed. *)
Lemma read_dinode_fits data o ip : dinode_fits (read_dinode data o ip).
Proof.
  clear. split; cbn [i_type i_major i_minor i_nlink i_size i_addrs read_dinode]; try apply s16_range.
  - apply (get_le_range 4).
  - by rewrite length_fmap, length_seqZ.
  - apply Forall_fmap, Forall_true. intros j. apply (get_le_range 4).
Qed.

(** C21: The inodes on disk are well typed, and [iupdate] keeps them so. The
    fields of an inode that [ilock] reads are in the ranges of their C types
    whatever the block holds; [iupdate] of an inode with such fields writes
    its block so that reading the inode again gives the same fields, and
    every other inode is unchanged. *)
Theorem iupdate_typed n V k i ip :
  tx dev me (S n) [] V k -> k_itable k !! i = Some ip -> i_dev ip = dev -> dinode_fits ip ->
  let sb := k_sb k in let B := IBLOCK (i_inum ip) sb in
  length (V B) = Z.to_nat BSIZE -> fs_block k B -> 0 <= i_inum ip -> 0 <= sb_inodestart sb -> i_inum ip / IPB + sb_inodestart sb < 2 ^ 32 ->
  exists V' k', iupdate i k = Ok tt k' /\ tx dev me n [] V' k' /\ tx_frame k k' /\ (forall b, b <> B -> V' b = V b) /\
    from_disk V' sb ip = ip /\
    (forall x, 0 <= i_inum x -> i_inum x / IPB + sb_inodestart sb < 2 ^ 32 -> i_inum x <> i_inum ip -> from_disk V' sb x = from_disk V sb x) /\
    (forall x, dinode_fits (from_disk V' sb x)).
Proof.
  intros Ht Hip Hd Hfit sb B Hlen Hfs Hz Hs Hlt.
  destruct (iupdate_run dev me Hfuel n [] V k i ip) as (k' & E & Hf & Ht'); [done|cbn; lia|done|done|apply not_elem_of_nil|done|].
  fold sb B in Ht'. eexists _, k'. split_and!; [exact E|exact Ht'|exact Hf| | | |intros x; apply read_dinode_fits].
  - intros b Hb. by rewrite fn_lookup_insert_ne.
  - unfold from_disk. fold B. rewrite fn_lookup_insert. by apply read_write_dinode.
  - intros x Hx Hxl Hne. unfold from_disk. destruct (decide (IBLOCK (i_inum x) sb = B)) as [HB|HB]; [|by rewrite fn_lookup_insert_ne].
    rewrite HB, fn_lookup_insert. apply read_write_dinode_other; [apply Hfit|]. unfold B, IBLOCK in HB. change IPB with 16 in *.
    pose proof (Z.div_pos (i_inum x) 16 Hx). pose proof (Z.div_pos (i_inum ip) 16 Hz). rewrite !u32_small in HB by lia.
    Z.div_mod_to_equations. lia.
Qed.
End inode.
