(* ===== verification/FsPath.v ===== *)
(** * Path names

    A path is a sequence of elements, the maximal runs of characters other
    than '/'. [namex] follows it through the tree of directories on the disk:
    [follow] is the same search in the directories taken as maps. *)

From stdpp Require Import functions.
From S2P Require Import Prelude Riscv Machine Spinlock PhysMem Kalloc PageTable Vm VmSpec VmCopy Kernel Sched Sleeplock Bio Bytes Uart Printf Log Fs Thread BioRing BioSpec LogDisk LogSpec SchedSpec PipeSpec FsTx FsBlocks FsFile FsWrite FsDir FsLink FsInode.

(** ** Path elements *)

(** The strings between slashes. *)
Fixpoint split_slash (path : list Z) : list (list Z) :=
  match path with
  | [] => [[]]
  | c :: path' =>
      if c =? 47 then [] :: split_slash path'
      else match split_slash path' with w :: ws => (c :: w) :: ws | [] => [[c]] end
  end.

Definition elements (path : list Z) : list (list Z) := filter (.≠ []) (split_slash path).

Lemma elements_slash path : elements (47 :: path) = elements path.
Proof. unfold elements. cbn [split_slash Z.eqb Pos.eqb]. rewrite filter_cons_False; [done|tauto]. Qed.

Lemma elements_skip path : elements (skip_slashes path) = elements path.
Proof.
  induction path as [|c path IH]; [done|]. cbn [skip_slashes]. destruct (Z.eqb_spec c 47) as [->|]; [|done]. by rewrite elements_slash.
Qed.

Lemma skip_slashes_length path : (length (skip_slashes path) <= length path)%nat.
Proof. induction path as [|c path IH]; [done|]. cbn. destruct (c =? 47); cbn; lia. Qed.

Lemma skip_slashes_head path c s : skip_slashes path = c :: s -> c <> 47.
Proof.
  induction path as [|d path IH]; [done|]. cbn. destruct (Z.eqb_spec d 47); [done|]. by intros [= <- _].
Qed.

Lemma split_take_elem s : forall w r, take_elem s = (w, r) ->
  split_slash s = w :: match r with [] => [] | _ :: r' => split_slash r' end /\ (r = [] \/ head r = Some 47) /\ s = w ++ r.
Proof.
  induction s as [|c s IH]; intros w r E; cbn in E; [by injection E as <- <-; auto|]. cbn [split_slash].
  destruct (Z.eqb_spec c 47) as [->|]; [injection E as <- <-; auto|]. destruct (take_elem s) as [w' r'].
  injection E as <- <-. destruct (IH w' r' eq_refl) as (-> & Hr & ->). auto.
Qed.

(** The first element and the rest of a path that starts with no slash. *)
Lemma elements_take c s w r : c <> 47 -> take_elem (c :: s) = (w, r) -> elements (c :: s) = w :: elements (skip_slashes r) /\ w <> [].
Proof.
  intros Hc E. destruct (split_take_elem _ _ _ E) as (Es & Hr & Hw).
  assert (w <> []) as Hne. { cbn in E. rewrite (proj2 (Z.eqb_neq _ _) Hc) in E. destruct (take_elem s). by injection E as <- _. }
  split; [|done]. rewrite elements_skip. unfold elements at 1. rewrite Es, filter_cons_True by done. f_equal.
  destruct r as [|d r]; [done|]. destruct Hr as [|[= ->]]; [done|]. by rewrite elements_slash.
Qed.

Lemma elements_nil path : elements (skip_slashes path) = [] <-> skip_slashes path = [].
Proof.
  split; [|by intros ->]. destruct (skip_slashes path) as [|c s] eqn:E; [done|].
  destruct (take_elem (c :: s)) as [w r] eqn:Et. by destruct (elements_take c s w r (skip_slashes_head _ _ _ E) Et) as [-> _].
Qed.

(** The name in an array that starts with [e] and goes on with a NUL, or
    with at least [DIRSIZ] characters of [e]. *)
Lemma cname_app n : forall e s, 0 ∉ e -> (n <= length e)%nat \/ s = [] \/ head s = Some 0 -> cname n (e ++ s) = take n e.
Proof.
  induction n as [|n IH]; intros [|c e] s He Hor; cbn; [done..| |].
  - by destruct Hor as [?|[->|]]; [cbn in *; lia|done|destruct s as [|d s]; [done|]; cbn in *; simplify_eq].
  - apply not_elem_of_cons in He as [Hc He]. rewrite (proj2 (Z.eqb_neq _ _)) by done. f_equal. apply IH; [done|].
    destruct Hor as [?|?]; [left; cbn in *; lia|by right].
Qed.

(** [skipelem] takes the first element of the path, cut to [DIRSIZ]
    characters, into the buffer, and leaves the rest. *)
Lemma skipelem_run path name :
  0 ∉ path -> length name = Z.to_nat DIRSIZ ->
  match elements path with
  | [] => skipelem path name = None
  | e :: es => exists path' name', skipelem path name = Some (path', name') /\ elements path' = es /\ (path' = [] <-> es = []) /\
      (0 ∉ path') /\ (length path' < length path)%nat /\ length name' = Z.to_nat DIRSIZ /\ name_of name' = take (Z.to_nat DIRSIZ) e
  end.
Proof.
  intros Hp Hn. rewrite <- elements_skip. unfold skipelem. pose proof (skip_slashes_length path) as Hlen.
  assert (forall s, 0 ∉ s -> 0 ∉ skip_slashes s) as Hskip.
  { intros s. induction s as [|d s IH]; [done|]. cbn. intros Hs. destruct (d =? 47); [|done]. apply IH. by apply not_elem_of_cons in Hs as [_ ?]. }
  pose proof (Hskip path Hp) as Hz. destruct (skip_slashes path) as [|c s] eqn:E; [done|].
  destruct (take_elem (c :: s)) as [w r] eqn:Et. destruct (elements_take c s w r (skip_slashes_head _ _ _ E) Et) as [-> Hw].
  destruct (split_take_elem _ _ _ Et) as (_ & _ & Ea). rewrite Ea in Hz, Hlen. rewrite elem_of_app in Hz. rewrite length_app in Hlen.
  eexists _, _. split; [reflexivity|]. split; [done|]. split; [symmetry; apply elements_nil|]. split; [apply Hskip; tauto|].
  pose proof (skip_slashes_length r). assert (0 < length w)%nat by (destruct w; [done|cbn; lia]). split; [lia|].
  assert (forall t, (length t <= 14)%nat -> length (splice name 0 t) = 14%nat) as Hsp.
  { intros t Ht. rewrite length_splice; rewrite ?Hn; change (Z.to_nat DIRSIZ) with 14%nat; cbn; lia. }
  change DIRSIZ with 14 in *. change (Z.to_nat 14) with 14%nat in *. unfold name_of. change (Z.to_nat DIRSIZ) with 14%nat.
  destruct (Z.leb_spec 14 (Z.of_nat (length w))) as [Hge|Hlt].
  - split; [apply Hsp; rewrite length_take; lia|]. unfold splice. change (Z.to_nat 0) with 0%nat. rewrite take_0. cbn [app Nat.add].
    rewrite cname_app; [by rewrite take_take| |left; rewrite length_take; lia].
    intros Hin. apply elem_of_take in Hin as (j & Hj & _). apply Hz. left. by eapply list_elem_of_lookup_2.
  - rewrite length_insert, Nat2Z.id, Hsp by lia. split; [done|]. unfold splice. change (Z.to_nat 0) with 0%nat. rewrite take_0. cbn [app Nat.add].
    rewrite insert_app_r_alt, Nat.sub_diag by lia. rewrite cname_app; [done|tauto|right; right].
    destruct (drop (length w) name) eqn:Ed; [|done]. apply (f_equal length) in Ed. rewrite length_drop, Hn in Ed. cbn in Ed. lia.
Qed.

(** ** Directory trees *)

(** Inode [inum] on disk. *)
Definition inode_on (V : Z -> list Z) (sb : superblock) (inum : Z) : inode :=
  from_disk V sb (mkinode 0 inum 0 0 0 0 0 0 0 []).

(** The map of a directory. *)
Definition entries_of (V : Z -> list Z) (sb : superblock) (inum : Z) : option (gmap (list Z) Z) :=
  if i_type (inode_on V sb inum) =? T_DIR then Some (dir_map (dir V (inode_on V sb inum))) else None.

(** The inode that path elements [es] lead to from [inum]; with [parent], the
    directory that is to hold the last element. *)
Fixpoint follow (V : Z -> list Z) (sb : superblock) (parent : bool) (inum : Z) (es : list (list Z)) : option Z :=
  match es with
  | [] => if parent then None else Some inum
  | e :: es' =>
      match entries_of V sb inum with
      | None => None
      | Some m =>
          if parent && bool_decide (es' = []) then Some inum
          else match m !! take (Z.to_nat DIRSIZ) e with
               | None => None
               | Some inum' => follow V sb parent inum' es'
               end
      end
  end.

(** The inodes [G] form a tree, or a graph: they are allocated and linked,
    their directories are whole and lead to inodes of [G]. *)
Record tree `{Platform} (G : Z -> Prop) (V : Z -> list Z) (k : kernel) : Prop := {
  tr_type : forall inum, G inum -> i_type (inode_on V (k_sb k) inum) <> 0;
  tr_link : forall inum, G inum -> i_nlink (inode_on V (k_sb k) inum) <> 0;
  tr_dir : forall inum, G inum -> i_type (inode_on V (k_sb k) inum) = T_DIR ->
    let ip := inode_on V (k_sb k) inum in
    exists nb, file_ok k V ip nb /\ 0 <= i_size ip <= nb * BSIZE /\ (sizeof_dirent | i_size ip) /\
      Forall (fun b => 0 <= b < 256) (file_slice V ip 0 (i_size ip));
  tr_next : forall inum m s inum', G inum -> entries_of V (k_sb k) inum = Some m -> m !! s = Some inum' -> G inum'
}.

Section path.
Context `{KernelLayout} `{Platform} `{Fuel} `{!DiskDriver} `{!DiskLaws}.
Context (dev : Z) (me : nat).
Context (Hfuel : wait_fuel <> O).
Implicit Types (k : kernel) (V : Z -> list Z).

Lemma tree_frame G V k k' : inode_frame k k' -> tree G V k -> tree G V k'.
Proof.
  intros Hf [Ht Hl Hd Hn]. pose proof Hf as (_ & Esb & EL & _)%inode_frame_keeps. split; rewrite Esb; try done.
  intros inum HG Hty ip. destruct (Hd inum HG Hty) as (nb & [Hm Ha Hi Hind] & Hs). exists nb. split; [|done]. split; try done.
  intros j Hj. unfold fs_block. rewrite EL. by apply Ha.
Qed.

(** A loaded directory of the tree. *)
Lemma tree_is_dir G V k i x :
  tree G V k -> length (k_itable k) = Z.to_nat NINODE -> k_itable k !! i = Some x -> i_dev x = dev -> G (i_inum x) ->
  from_disk V (k_sb k) x = x -> i_type x = T_DIR -> exists nb, is_dir dev V i x nb k.
Proof.
  intros Ht Hlen Hx Hd HG Hf Hty. assert (i_type (inode_on V (k_sb k) (i_inum x)) = T_DIR) as Hty' by (by rewrite <- Hf in Hty).
  destruct (tr_dir _ _ _ Ht _ HG Hty') as (nb & Hok & Hs & Hw & Hb). exists nb. rewrite <- Hf. split; try done.
  - by rewrite Hf.
  - by destruct Hok.
Qed.

(** What the search leaves: a reference to the inode that it found, if any,
    more than the references [R]; no locks; no change on disk. *)
Definition found n (V : Z -> list Z) (R : list Z) (k : kernel) (res : option Z) (r : option nat) (k' : kernel) : Prop :=
  tx dev me n [] V k' /\ icache dev V (k_sb k') (k_itable k') /\ ilocks me None k' /\ inode_frame k k' /\
  match res, r with
  | Some inum, Some i => refers dev inum i (k_itable k') /\ refs (k_itable k') = referenced i R
  | None, None => refs (k_itable k') = R
  | _, _ => False
  end.

(** Locking an inode of the tree. *)
Lemma lock_step G n V k i inum :
  tx dev me n [] V k -> icache dev V (k_sb k) (k_itable k) -> ilocks me None k -> tree G V k -> G inum ->
  refers dev inum i (k_itable k) ->
  exists k' x, ilock (Some i) k = Ok tt k' /\ tx dev me n [] V k' /\ icache dev V (k_sb k') (k_itable k') /\ ilocks me (Some i) k' /\
    inode_frame k k' /\ k_itable k' !! i = Some x /\ i_dev x = dev /\ i_inum x = inum /\ 1 <= i_ref x /\
    from_disk V (k_sb k') x = x /\ refs (k_itable k') = refs (k_itable k).
Proof.
  intros Ht Hc Hl Htr HG (x & Hx & Hd & Hi & Hr).
  destruct (ilock_run dev me Hfuel n V k i x) as (k' & x' & E & Ht' & Hl' & Hf & EI & Hx' & Hv & Hd' & Hi' & Hr'); try done.
  { subst inum. apply (tr_type _ _ _ Htr _ HG). }
  pose proof Hf as (_ & Esb & _)%inode_frame_keeps. exists k', x'. rewrite EI, Esb.
  assert (<[i := x']> (k_itable k) !! i = Some x') as Hl1 by (apply list_lookup_insert_eq; by eapply lookup_lt_Some).
  split_and!; try done; [|congruence|lia|].
  - apply icache_insert; [done|lia|by intros].
  - rewrite (refs_insert _ _ _ x id) by done. apply list_eq. intros j. destruct (decide (j = i)) as [->|Hne].
    + rewrite list_lookup_alter_eq. by destruct (refs _ !! i).
    + by rewrite list_lookup_alter_ne.
Qed.

(** Unlocking it and dropping the reference. *)
Lemma unlockput_step G n V k i x :
  tx dev me n [] V k -> icache dev V (k_sb k) (k_itable k) -> ilocks me (Some i) k -> tree G V k -> k_itable k !! i = Some x ->
  G (i_inum x) -> i_nlink x = i_nlink (inode_on V (k_sb k) (i_inum x)) -> 1 <= i_ref x ->
  exists k', iunlockput i k = Ok tt k' /\ tx dev me n [] V k' /\ icache dev V (k_sb k') (k_itable k') /\ ilocks me None k' /\
    inode_frame k k' /\ k_itable k' = <[i := x <| i_ref ::= fun n => n - 1 |>]> (k_itable k) /\
    refs (k_itable k') = alter (fun n => n - 1) i (refs (k_itable k)).
Proof.
  intros Ht Hc Hl Htr Hx HG Hn Hr.
  destruct (iunlockput_run dev me n V k i x) as (k' & E & Ht' & Hl' & Hf & EI); try done.
  { apply Hc. }
  { right. rewrite Hn. by apply (tr_link _ _ _ Htr). }
  pose proof Hf as (_ & Esb & _)%inode_frame_keeps. exists k'. rewrite EI, Esb. split_and!; try done.
  - by apply icache_put.
  - by apply (refs_insert _ _ _ x (fun n => n - 1)).
Qed.

Lemma found_frame n V R k k1 res r k' : inode_frame k k1 -> found n V R k1 res r k' -> found n V R k res r k'.
Proof. intros Hf (Ht & Hc & Hl & Hf' & Hr). split_and!; try done. by etrans. Qed.

(** The search of a locked directory, and the step to the next inode. *)
Lemma lookup_step G n V R k i x name :
  tx dev me n [] V k -> icache dev V (k_sb k) (k_itable k) -> ilocks me (Some i) k -> tree G V k -> k_itable k !! i = Some x ->
  i_dev x = dev -> G (i_inum x) -> 1 <= i_ref x -> from_disk V (k_sb k) x = x -> i_type x = T_DIR ->
  refs (k_itable k) = referenced i R -> Forall (fun r => 0 <= r) R ->
  (exists a b, a <> b /\ R !! a = Some 0 /\ R !! b = Some 0) -> name_ok name ->
  exists k', match dir_map (dir V x) !! name_of name with
    | None => found n V R k None None k' /\ exists k2, dirlookup i name k = Ok None k2 /\ iunlockput i k2 = Ok tt k'
    | Some inum' => exists j off k2, dirlookup i name k = Ok (Some (j, off)) k2 /\ iunlockput i k2 = Ok tt k' /\
        found n V R k (Some inum') (Some j) k'
    end.
Proof.
  intros Ht Hc Hl Htr Hx Hd HG Hr Hfd Hty HR HR0 Hroom Hn. pose proof (ic_len _ _ _ _ Hc) as Hlen.
  destruct (tree_is_dir G V k i x) as [nb Hdir]; try done.
  destruct (dirlookup_run dev me Hfuel name n V i x nb k Hn Ht Hdir) as (k1 & Ht1 & Hf1 & E1).
  pose proof (tx_inode_frame _ _ Hf1) as Hf1'. pose proof Hf1 as (_ & Esb & EI & _)%tx_frame_keeps.
  pose proof (tx_frame_ilocks me (Some i) _ _ Hf1 Hl) as Hl1. pose proof (tree_frame G V k k1 Hf1' Htr) as Htr1.
  rewrite dir_find_map. destruct (dir_find _ _) as [[a de]|]; cbn [fmap option_fmap option_map snd].
  - destruct (iget_entry_ok dev V (k_sb k) (k_itable k) (de_inum de) Hc) as (j & y & Eg & Hc2 & HR2 & Hrf).
    { rewrite HR. by apply referenced_room. }
    pose proof (iget_run dev (de_inum de) me k1 (tx_calm _ _ _ _ _ _ Ht1)) as Hg. rewrite EI, Eg in Hg. specialize (Hg Hlen).
    erewrite bind_ok in E1 by exact Hg. destruct (iget_entry_keeps _ _ _ i j x y Eg Hx Hr) as (r & Hx2 & Hr2).
    set (k2 := k1 <| k_itable := _ |>) in *. assert (inode_frame k1 k2) as Hf2 by by apply inode_frame_local.
    destruct (unlockput_step G n V k2 i (x <| i_ref := r |>)) as (k' & E3 & Ht3 & Hc3 & Hl3 & Hf3 & EI3 & HR3); try done.
    + by apply tx_set_itable.
    + cbn. by rewrite Esb.
    + by apply (tree_frame G V k1).
    + cbn -[inode_on]. rewrite Esb, <- Hfd. done.
    + cbn. lia.
    + exists k', j, (sizeof_dirent * Z.of_nat a), k2. split_and!; [done|done|]. split_and!; try done.
      * etrans; [exact Hf1'|]. etrans; [exact Hf2|exact Hf3].
      * change (k_itable k2) with (<[j := y]> (k_itable k)) in *. rewrite HR2, HR, referenced_commute in HR3. rewrite EI3 in *.
        by apply (refers_put _ _ _ _ _ _ R).
      * change (k_itable k2) with (<[j := y]> (k_itable k)) in *. rewrite HR2, HR, referenced_commute in HR3. done.
  - destruct (unlockput_step G n V k1 i x) as (k' & E3 & Ht3 & Hc3 & Hl3 & Hf3 & EI3 & HR3); try done.
    + by rewrite Esb, EI.
    + by rewrite EI.
    + by rewrite Esb, <- Hfd.
    + exists k'. split; [|eauto]. split_and!; try done; [etrans; [exact Hf1'|exact Hf3]|]. by rewrite HR3, EI, HR, referenced_put.
Qed.

(** The empty path to a parent: the reference is dropped. *)
Lemma put_step G n V R k i inum :
  tx dev me n [] V k -> icache dev V (k_sb k) (k_itable k) -> ilocks me None k -> tree G V k -> G inum ->
  refers dev inum i (k_itable k) -> refs (k_itable k) = referenced i R ->
  exists k', iput i k = Ok tt k' /\ found n V R k None None k'.
Proof.
  intros Ht Hc Hl Htr HG (x & Hx & Hd & Hi & Hr) HR. rewrite (iput_light me i x); [|by eapply tx_calm|done|].
  2: { destruct (decide (i_valid x = 0)) as [?|Hv]; [auto|]. right; right.
       rewrite <- (Forall_lookup_1 _ _ _ _ (ic_valid _ _ _ _ Hc) Hx Hd) by (done || lia). subst inum. apply (tr_link _ _ _ Htr _ HG). }
  eexists. split; [reflexivity|]. split_and!; [by apply tx_set_itable|by apply icache_put|done|by apply inode_frame_local|].
  cbn -[refs]. rewrite (refs_insert _ _ _ x (fun n => n - 1)) by done. by rewrite HR, referenced_put.
Qed.

Lemma namex_loop_run G n V R parent : forall fuel es k i inum path name,
  elements path = es -> (0 ∉ path) -> length name = Z.to_nat DIRSIZ -> (length path < fuel)%nat ->
  tx dev me n [] V k -> icache dev V (k_sb k) (k_itable k) -> ilocks me None k -> tree G V k -> G inum ->
  refers dev inum i (k_itable k) -> refs (k_itable k) = referenced i R -> Forall (fun r => 0 <= r) R ->
  (exists a b, a <> b /\ R !! a = Some 0 /\ R !! b = Some 0) ->
  exists r name' k', namex_loop fuel i path parent name k = Ok (r, name') k' /\
    found n V R k (follow V (k_sb k) parent inum es) r k' /\
    (es = [] -> name' = name) /\ (forall e, last es = Some e -> is_Some r -> name_of name' = take (Z.to_nat DIRSIZ) e).
Proof.
  induction fuel as [|fuel IH]; intros es k i inum path name Hes Hp Hn Hfu Ht Hc Hl Htr HG Hrf HR HR0 Hroom; [lia|].
  cbn [namex_loop]. pose proof (skipelem_run path name Hp Hn) as Hsk. rewrite Hes in Hsk. destruct es as [|e es]; cbn [follow].
  { rewrite Hsk. destruct parent.
    - destruct (put_step G n V R k i inum) as (k' & E & Hf); try done. erewrite bind_ok by exact E. by exists None, name, k'.
    - exists (Some i), name, k. split; [done|]. split; [|done]. by split_and!. }
  destruct Hsk as (path' & name' & -> & Hes' & Hnil & Hp' & Hlen' & Hn' & Enm).
  destruct (lock_step G n V k i inum) as (k1 & x & E1 & Ht1 & Hc1 & Hl1 & Hf1 & Hx & Hd & Hi & Hr & Hfd & HR1); try done.
  erewrite bind_ok by exact E1. erewrite bind_ok by by apply get_inode_run. rewrite HR in HR1.
  pose proof (tree_frame G V k k1 Hf1 Htr) as Htr1. pose proof Hf1 as (_ & Esb & _)%inode_frame_keeps.
  assert (i_type x = i_type (inode_on V (k_sb k) inum)) as Ety by (rewrite <- Esb, <- Hi, <- Hfd; done).
  unfold entries_of. rewrite <- Ety. subst inum. destruct (Z.eqb_spec (i_type x) T_DIR) as [Hty|Hty]; cbn [negb].
  2: { destruct (unlockput_step G n V k1 i x) as (k' & E3 & Ht3 & Hc3 & Hl3 & Hf3 & EI3 & HR3); try done.
       { by rewrite <- Hfd at 1. }
       erewrite bind_ok by exact E3. exists None, name', k'. split; [done|]. split; [|by split; [|intros ? ? []]].
       split_and!; try done; [etrans; [exact Hf1|exact Hf3]|]. by rewrite HR3, HR1, referenced_put. }
  assert (bool_decide (path' = []) = bool_decide (es = [])) as -> by (by apply bool_decide_ext).
  destruct (parent && bool_decide (es = [])) eqn:Epar.
  { apply andb_true_iff in Epar as [-> ->%bool_decide_eq_true].
    destruct (iunlock_run dev me n V k1 i x) as (k2 & E2 & Ht2 & Hl2 & Hf2 & EI2); try done; [apply Hc1|].
    erewrite bind_ok by exact E2. exists (Some i), name', k2. split; [done|].
    pose proof Hf2 as (_ & Esb2 & _)%inode_frame_keeps. split; [|by split; [|intros ? [= <-] _]].
    split_and!; try done; rewrite ?EI2, ?Esb2; try done; [etrans; [exact Hf1|exact Hf2]|]. exists x. by split_and!. }
  destruct (lookup_step G n V R k1 i x name') as (k2 & Hlk); try done.
  { apply readable_length. by rewrite Hn'. }
  assert (dir V (inode_on V (k_sb k) (i_inum x)) = dir V x) as Edir by (rewrite <- Hfd, Esb; done).
  assert (entries_of V (k_sb k) (i_inum x) = Some (dir_map (dir V x))) as Hent
    by (unfold entries_of; by rewrite <- Ety, Hty, Z.eqb_refl, Edir).
  rewrite Edir. rewrite Enm in Hlk.
  destruct (dir_map (dir V x) !! take (Z.to_nat DIRSIZ) e) as [inum'|] eqn:Em.
  - destruct Hlk as (j & off & k3 & E3 & E4 & Hfo). erewrite bind_ok by exact E3. cbv beta iota. erewrite bind_ok by exact E4.
    destruct Hfo as (Ht2 & Hc2 & Hl2 & Hf2 & Hrf2 & HR2). pose proof Hf2 as (_ & Esb2 & _)%inode_frame_keeps.
    destruct (IH es k2 j inum' path' name') as (r & nm & k' & E5 & Hfo & Hnm0 & Hnm); try done; [lia|by apply (tree_frame G V k1)| |].
    { apply (tr_next _ _ _ Htr (i_inum x) (dir_map (dir V x)) (take (Z.to_nat DIRSIZ) e)); done. }
    exists r, nm, k'. split; [done|]. rewrite Esb2, Esb in Hfo. split; [|split; [done|]].
    + apply (found_frame _ _ _ _ k1); [done|]. by apply (found_frame _ _ _ _ k2).
    + intros e' He' Hs. destruct es as [|e1 es1]; [|by apply Hnm]. injection He' as <-. by rewrite Hnm0.
  - destruct Hlk as (Hfo & k3 & E3 & E4). erewrite bind_ok by exact E3. cbv beta iota. erewrite bind_ok by exact E4.
    exists None, name', k2. split; [done|]. split; [|by split; [|intros ? ? []]]. by apply (found_frame _ _ _ _ k1).
Qed.

(** Where a path starts: at the root or at the current directory. *)
Definition starts (k : kernel) (path : list Z) (inum : Z) : Prop :=
  match path with
  | 47 :: _ => inum = ROOTINO /\ dev = ROOTDEV
  | _ => exists p c, k_proc k !! me = Some p /\ p_cwd p = Some c /\ refers dev inum c (k_itable k)
  end.

Definition two_free (T : list inode) : Prop := exists a b, a <> b /\ refs T !! a = Some 0 /\ refs T !! b = Some 0.

(** The reference that [namex] starts with. *)
Lemma start_run G n V k path inum :
  starts k path inum -> tx dev me n [] V k -> icache dev V (k_sb k) (k_itable k) -> ilocks me None k -> tree G V k ->
  two_free (k_itable k) ->
  exists i k1, (match path with
         | 47 :: _ => iget ROOTDEV ROOTINO
         | _ => p <- curproc ;; pr <- get_proc p ;; cwd <- deref (p_cwd pr) ;; idup cwd
         end) k = Ok i k1 /\ found n V (refs (k_itable k)) k (Some inum) (Some i) k1.
Proof.
  intros Hst Ht Hc Hl Htr Hroom.
  assert (forall i y, inode_frame k (k <| k_itable := <[i := y]> (k_itable k) |>)) as Hfr by (intros; by apply inode_frame_local).
  assert ((exists s, path = 47 :: s) \/ (p <- curproc ;; pr <- get_proc p ;; cwd <- deref (p_cwd pr) ;; idup cwd) =
    match path with 47 :: _ => iget ROOTDEV ROOTINO | _ => p <- curproc ;; pr <- get_proc p ;; cwd <- deref (p_cwd pr) ;; idup cwd end /\
    exists p c, k_proc k !! me = Some p /\ p_cwd p = Some c /\ refers dev inum c (k_itable k)) as [[s ->]|[<- (p & c & Hme & Hcwd & Hrc)]].
  { unfold starts in Hst. destruct path as [|c s]; [by right|]. destruct (decide (c = 47)) as [->|Hne]; [left; eauto|right].
    repeat case_match; try done. }
  - destruct Hst as [-> Hdv]. destruct (iget_entry_ok dev V (k_sb k) (k_itable k) ROOTINO Hc) as (i & x & Eg & Hc1 & HR & Hrf).
    { destruct Hroom as (a & b & _ & Ha & _). eauto. }
    pose proof (iget_run dev ROOTINO me k (tx_calm _ _ _ _ _ _ Ht) (ic_len _ _ _ _ Hc)) as Hg. rewrite Eg in Hg.
    eexists i, _. rewrite <- Hdv. split; [exact Hg|]. split_and!; try done. by apply tx_set_itable.
  - destruct Hrc as (x & Hx & Hd & Hi & Hr). destruct (tx_calm _ _ _ _ _ _ Ht) as (Hs & _ & Hrun & _).
    erewrite bind_ok by by apply curproc_calm. unfold get_proc. erewrite bind_ok by by apply get_entry. rewrite Hcwd.
    unfold deref. mrun. rewrite (idup_run dev me n V k c x Ht Hx). eexists c, _. split; [reflexivity|].
    split_and!; [by apply tx_set_itable| |done|done| |].
    + apply icache_insert; [done|cbn; lia|]. cbn -[from_disk]. intros _ Hpos Hv.
      pose proof (Forall_lookup_1 _ _ _ _ (ic_valid _ _ _ _ Hc) Hx Hd) as Hfd. rewrite <- Hfd at 2 by (done || lia). done.
    + eexists. split; [apply list_lookup_insert_eq; by eapply lookup_lt_Some|]. cbn. split_and!; [done|done|lia].
    + by apply (refs_insert _ _ _ x (fun n => n + 1)).
Qed.

Lemma namex_run G n V k parent path name inum :
  starts k path inum -> tx dev me n [] V k -> icache dev V (k_sb k) (k_itable k) -> ilocks me None k -> tree G V k -> G inum ->
  two_free (k_itable k) -> (0 ∉ path) -> length name = Z.to_nat DIRSIZ ->
  exists r name' k', namex path parent name k = Ok (r, name') k' /\
    found n V (refs (k_itable k)) k (follow V (k_sb k) parent inum (elements path)) r k' /\
    (forall e, last (elements path) = Some e -> is_Some r -> name_of name' = take (Z.to_nat DIRSIZ) e).
Proof.
  intros Hst Ht Hc Hl Htr HG Hroom Hp Hn.
  assert (Forall (fun r => 0 <= r) (refs (k_itable k))) as HR0 by (apply Forall_fmap; apply Hc).
  destruct (start_run G n V k path inum) as (i & k1 & E & Ht1 & Hc1 & Hl1 & Hf1 & Hrf & HR); [done..|].
  unfold namex. erewrite bind_ok by exact E. pose proof Hf1 as (_ & Esb & _)%inode_frame_keeps.
  destruct (namex_loop_run G n V (refs (k_itable k)) parent (S (length path)) (elements path) k1 i inum path name)
    as (r & nm & k' & E' & Hfo & _ & Hnm); try done; [lia|by apply (tree_frame G V k)|].
  exists r, nm, k'. split; [done|]. rewrite Esb in Hfo. split; [|done]. by apply (found_frame _ _ _ _ k1).
Qed.

(** C6: [namex] follows a path through the directories on disk as [follow]
    does through their maps, from the root or the current directory: it
    returns a reference to the inode that the path names ([namei]), or to the
    directory that is to hold the last element ([nameiparent]) with that
    element, cut to [DIRSIZ] characters, in the buffer; it returns null when
    an element is missing or not in a directory. All other references that
    it took are dropped, all inodes are unlocked, no block changes. *)
Theorem namex_spec G n V k parent path name inum :
  starts k path inum -> tx dev me n [] V k -> icache dev V (k_sb k) (k_itable k) -> ilocks me None k -> tree G V k -> G inum ->
  two_free (k_itable k) -> (0 ∉ path) -> length name = Z.to_nat DIRSIZ ->
  exists r name' k', namex path parent name k = Ok (r, name') k' /\
    found n V (refs (k_itable k)) k (follow V (k_sb k) parent inum (elements path)) r k' /\
    (forall e, last (elements path) = Some e -> is_Some r -> name_of name' = take (Z.to_nat DIRSIZ) e).
Proof. apply namex_run. Qed.

End path.
