(* ===== verification/KernelWitness.v ===== *)
(** * The theorems about memory and processes on concrete states

    Each lemma applies one theorem of [Spinlock.v], [Kalloc.v], the [Vm] files,
    [SleepSmp.v], [SchedSpec.v], [ProcVm.v], [ProcSpec.v], [PipeSpec.v] or
    [PgAccess.v] to a concrete machine or kernel and checks its hypotheses
    there. *)

From S2P Require Import Prelude Riscv Machine Spinlock PhysMem Kalloc PageTable Vm VmSpec VmFree VmCopy VmAlloc Kernel Sched Sleeplock Bio Bytes Log Fs Pipe Console File Proc Thread BioRing BioSpec LogDisk LogSpec Demo SleepSmp SchedSpec ProcVm ProcSpec PipeSpec Uart Printf Exec Sysfile PgAccess.

(** ** Memory *)

(** Two harts, the first in its critical section. *)
Definition smp_inside : smp := mksmp [Inside; Trying] (mkspinlock 1 "demo" (Some 0)).

Lemma spinlock_mutual_exclusion_witness :
  rtc smp_step (smp_init 2 "demo") smp_inside /\
  (forall i j p q, s_pc smp_inside !! i = Some p -> s_pc smp_inside !! j = Some q ->
     owns p = true -> owns q = true -> i = j).
Proof.
  assert (rtc smp_step (smp_init 2 "demo") smp_inside) as Hr.
  { unfold smp_init. cbn.
    eapply rtc_l; [apply (step_try _ _ 0); reflexivity|]. cbn.
    eapply rtc_l; [apply (step_try _ _ 1); reflexivity|]. cbn.
    eapply rtc_l; [apply (step_swap_got _ _ 0); reflexivity|]. cbn.
    eapply rtc_l; [apply (step_set_cpu _ _ 0); reflexivity|]. cbn. apply rtc_refl. }
  split; [exact Hr|]. exact (proj1 (spinlock_mutual_exclusion 2 "demo" smp_inside Hr)).
Defined.

Lemma acquire_release_balanced_witness :
  exists m', (acquire kmem_lock ;; mstore64 0x90000000 7 ;; release kmem_lock) (demo_machine ∅ 0) = Ok tt m' /\
    lock_free kmem_lock m' /\ m_core m' = demo_core.
Proof.
  eexists. split_and!.
  - eapply (acquire_release_balanced kmem_lock (mstore64 0x90000000 7) (demo_machine ∅ 0)).
    + apply settled_wf, demo_settled.
    + exists "kmem"%string. reflexivity.
    + reflexivity.
    + reflexivity.
    + reflexivity.
  - exists "kmem"%string. reflexivity.
  - reflexivity.
Defined.

Lemma kinit_spec_witness :
  exists m', kinit (demo_machine ∅ 0) = Ok tt m' /\ kmem_inv m' (pages_down 16 (page 0)).
Proof.
  destruct (kinit_spec (demo_machine ∅ 0) demo_settled eq_refl) as (m' & Hrun & _ & Hi & _).
  exists m'. split; [exact Hrun|exact Hi].
Defined.

Lemma kalloc_spec_witness :
  exists m', kalloc (demo_vm demo_fl) = Ok (page 8) m' /\ kmem_inv m' (tail demo_fl).
Proof.
  destruct (kalloc_spec (demo_vm demo_fl) demo_fl) as (m' & Hrun & _ & Hi & _).
  - apply demo_quiet.
  - vm_decide.
  - exists m'. split; [exact Hrun|exact Hi].
Defined.

Lemma kfree_spec_witness :
  exists m', kfree (page 5) (demo_vm demo_fl) = Ok tt m' /\ kmem_inv m' (page 5 :: demo_fl).
Proof.
  pose proof (kfree_spec (demo_vm demo_fl) demo_fl (page 5)) as Hs.
  rewrite decide_True in Hs by vm_decide.
  destruct Hs as (m' & Hrun & _ & Hi & _); [apply demo_quiet|vm_decide|vm_decide|].
  exists m'. split; [exact Hrun|exact Hi].
Defined.

Lemma walk_spec_witness :
  walk (page 0) 4096 false (demo_vm demo_fl) = Ok (page 2 + 8) (demo_vm demo_fl).
Proof.
  destruct (walk_spec _ _ _ _ 4096 demo_vm_inv) as [_ Hs]; [lia|].
  destruct Hs as [Hs _]; [reflexivity|]. rewrite Hs. apply (f_equal (fun a => Ok a _)). vm_compute. reflexivity.
Defined.

(** Nothing is mapped from 8192 on in the example table. *)
Lemma demo_unmapped va :
  8192 <= va < 2 ^ 39 -> pt_lookup (m_mem (demo_vm demo_fl)) (page 0) va = None.
Proof.
  intros Hva. apply lookup_not_leaf; [lia|].
  assert ((pt_leaves 2 (m_mem (demo_vm demo_fl)) (page 0) 0).*1 = [0; 4096]) as -> by (by vm_compute).
  rewrite !elem_of_cons, elem_of_nil. Z.div_mod_to_equations. lia.
Qed.

Lemma mappages_spec_witness :
  exists r m' fl' k, mappages (page 0) 8192 8192 (page 5) user_perm (demo_vm demo_fl) = Ok r m' /\
    vm_grows [page 3; page 4; page 5] (page 0) demo_fl (demo_vm demo_fl) fl' m' /\
    mapped (demo_vm demo_fl) m' (page 0) 8192 (page 5) user_perm k.
Proof.
  destruct (mappages_spec _ (page 0) 8192 8192 (page 5) user_perm _ _ demo_vm_inv)
    as (r & m' & fl' & k & Hrun & Hg & _ & _ & Hm & _); [vm_decide..| |].
  - intros va Hva. apply demo_unmapped. change (PGROUNDDOWN 8192) with 8192 in Hva.
    change (PGROUNDDOWN (8192 + 8192 - 1)) with 12288 in Hva. lia.
  - exists r, m', fl', k. split; [exact Hrun|]. split; [exact Hg|exact Hm].
Defined.

(** The two leaf entries of the example table. *)
Definition demo_ptes : list Z := [make_pte (page 3) user_perm; make_pte (page 4) user_perm].

Lemma uvmfree_spec_witness :
  exists m' fl', uvmfree (page 0) 8192 (demo_vm demo_fl) = Ok tt m' /\ kmem_inv m' fl' /\
    fl' ≡ₚ [page 0; page 1; page 2; page 3; page 4] ++ demo_fl.
Proof.
  destruct (uvmfree_spec (page 0) demo_ptes [page 5] demo_fl 8192 (demo_vm demo_fl))
    as (m' & fl' & Hrun & _ & Hi & Hp & _).
  - exact demo_vm_inv.
  - vm_decide.
  - vm_decide.
  - reflexivity.
  - intros [|[|i]] v E; [| |done]; injection E as <-; (split; [vm_compute; reflexivity|vm_decide]).
  - intros va Hva. apply demo_unmapped. change (PGROUNDUP 8192) with 8192 in Hva. lia.
  - exists m', fl'. split; [exact Hrun|]. split; [exact Hi|]. rewrite Hp.
    assert (pt_pages 2 (m_mem (demo_vm demo_fl)) (page 0) = [page 0; page 1; page 2]) as -> by (by vm_compute).
    reflexivity.
Defined.

Lemma copyin_spec_witness :
  exists r bs, copyin (page 0) 0 2 (demo_vm demo_fl) = Ok (r, bs) (demo_vm demo_fl) /\
    (r = 0 /\ Z.of_nat (length bs) = 2 \/
     r = -1 /\ Z.of_nat (length bs) < 2 /\
       ubyte (m_mem (demo_vm demo_fl)) (page 0) (0 + Z.of_nat (length bs)) = None).
Proof.
  destruct (copyin_spec (page 0) 0 2 (demo_vm demo_fl)) as (r & bs & Hrun & _ & Hr); [vm_decide|lia|lia|].
  exists r, bs. split; [exact Hrun|exact Hr].
Defined.

Lemma copyout_spec_witness :
  exists r m' k, copyout (page 0) 4090 (replicate 10 7) (demo_vm demo_fl) = Ok r m' /\
    (r = 0 /\ k = length (replicate 10 7) /\
       copyin (page 0) 4090 (Z.of_nat (length (replicate 10 7))) m' = Ok (0, replicate 10 7) m' \/
     r = -1 /\ (k < length (replicate 10 7))%nat /\
       ubyte (m_mem (demo_vm demo_fl)) (page 0) (4090 + Z.of_nat k) = None).
Proof.
  destruct (copyout_spec _ _ (page 0) 4090 (replicate 10 7) _ demo_vm_inv)
    as (r & m' & k & Hrun & _ & _ & _ & Hr).
  - apply umap_okb_sound. vm_compute. reflexivity.
  - lia.
  - vm_decide.
  - exists r, m', k. split; [exact Hrun|exact Hr].
Defined.

Lemma copyinstr_spec_witness :
  exists r bs, copyinstr (page 0) 0 128 (demo_vm demo_fl) = Ok (r, bs) (demo_vm demo_fl) /\
    Z.of_nat (length bs) <= 128.
Proof.
  destruct (copyinstr_spec (page 0) 0 128 (demo_vm demo_fl)) as (r & bs & Hrun & Hl & _); [vm_decide|lia|lia|].
  exists r, bs. split; [exact Hrun|exact Hl].
Defined.

Lemma uvmalloc_spec_witness :
  exists r m' pas fl', uvmalloc (page 0) 8192 16384 PTE_W (demo_vm demo_fl) = Ok r m' /\
    grown [page 3; page 4; page 5] (page 0) 8192 (fun _ => uvmalloc_perm PTE_W) (fun _ _ => 0) demo_fl
      (demo_vm demo_fl) pas fl' m'.
Proof.
  destruct (uvmalloc_spec _ (page 0) 8192 16384 PTE_W _ _ demo_vm_inv) as (r & m' & pas & fl' & Hrun & Hg & _).
  - lia.
  - vm_decide.
  - vm_decide.
  - intros va Hva. apply demo_unmapped. change (PGROUNDUP 8192) with 8192 in Hva.
    change (PGROUNDUP 16384) with 16384 in Hva. lia.
  - exists r, m', pas, fl'. split; [exact Hrun|exact Hg].
Defined.

(** The example table as the parent of a child with the empty table in page 6. *)
Lemma demo_child_inv :
  vm_inv [page 0; page 1; page 2; page 3; page 4] demo_fl (page 6) (demo_vm demo_fl).
Proof.
  split_and!; [apply demo_quiet|vm_decide|vm_decide|]. apply dirs_okb_sound. by vm_compute.
Qed.

Lemma uvmcopy_spec_witness :
  exists r m' pas fl', uvmcopy (page 0) (page 6) 8192 (demo_vm demo_fl) = Ok r m' /\
    grown [page 0; page 1; page 2; page 3; page 4] (page 6) 0 (copy_perm demo_ptes)
      (copy_cont demo_ptes (m_mem (demo_vm demo_fl))) demo_fl (demo_vm demo_fl) pas fl' m'.
Proof.
  destruct (uvmcopy_spec _ (page 0) (page 6) 8192 demo_ptes _ _ demo_child_inv)
    as (r & m' & pas & fl' & Hrun & Hg & _).
  - split_and!; [vm_decide| |].
    + intros p Hp. apply list_elem_of_In in Hp. revert p Hp. apply List.Forall_forall. vm_decide.
    + intros [|[|i]] v E; [| |done]; injection E as <-; (split_and!; [vm_compute; reflexivity|vm_decide..]).
  - vm_decide.
  - reflexivity.
  - intros va Hva. change (PGROUNDUP 8192) with 8192 in Hva. apply lookup_not_leaf; [lia|].
    assert ((pt_leaves 2 (m_mem (demo_vm demo_fl)) (page 6) 0).*1 = []) as -> by (by vm_compute).
    apply not_elem_of_nil.
  - exists r, m', pas, fl'. split; [exact Hrun|exact Hg].
Defined.

(** ** Sleep locks *)

(** The first thread holds the lock, the second one sleeps. *)
Definition one_sleeps : slsys :=
  mksys [mkthr Crit RUNNING false None; mkthr SOff SLEEPING true None] None true.

Lemma sleeplock_no_lost_wakeup_witness :
  rtc sl_step (sl_init 2) one_sleeps /\
  exists i t, sy_thr one_sleeps !! i = Some t /\ (has_sleeplock (t_pc t) = true \/ exists m, waking m (t_pc t) /\ (m <= 1)%nat).
Proof.
  assert (rtc sl_step (sl_init 2) one_sleeps) as Hr.
  { unfold sl_init. cbn.
    eapply rtc_l; [eapply (st_call _ _ _ 0); reflexivity|]. cbn.
    eapply rtc_l; [eapply (st_enter _ _ 0); reflexivity|]. cbn.
    eapply rtc_l; [eapply (st_take _ _ 0); reflexivity|]. cbn.
    eapply rtc_l; [eapply (st_taken _ _ _ 0); reflexivity|]. cbn.
    eapply rtc_l; [eapply (st_call _ _ _ 1); reflexivity|]. cbn.
    eapply rtc_l; [eapply (st_enter _ _ 1); reflexivity|]. cbn.
    eapply rtc_l; [eapply (st_wait _ _ 1); reflexivity|]. cbn.
    eapply rtc_l; [eapply (st_plock _ _ _ 1); reflexivity|]. cbn.
    eapply rtc_l; [eapply (st_unlk _ _ _ 1); reflexivity|]. cbn.
    eapply rtc_l; [eapply (st_mark _ _ _ 1); reflexivity|]. cbn.
    eapply rtc_l; [eapply (st_sched _ _ _ 1); reflexivity|]. cbn. apply rtc_refl. }
  split; [exact Hr|]. exact (proj2 (sleeplock_no_lost_wakeup 2 one_sleeps Hr) 1%nat _ eq_refl eq_refl eq_refl).
Defined.

(** ** Switching *)

(** A kernel whose free pages are [fl]. *)
Definition page_machine (fl : list Z) : machine :=
  mkmachine proc_core (gset_to_gmap (free_lock "lock") (list_to_set static_locks)) (link_pages fl ∅) (default 0 (head fl)).

Definition page_kernel (fl : list Z) : kernel := (demo_kernel [] (mklog 0 0 0 0 0 0 []) (fun _ => [], [])) <| k_m := page_machine fl |>.

Lemma page_calm fl : calm [] 0 (page_kernel fl).
Proof.
  destruct (demo_calm [] (mklog 0 0 0 0 0 0 []) (fun _ => [], [])) as (Hs & Hl & Hr & Hn & Hm).
  split_and!; [exact Hs|exact Hl|exact Hr|exact Hn|exact Hm].
Qed.

Lemma page_ease fl : at_ease (page_kernel fl).
Proof. by eexists. Qed.

Lemma page_lock_free fl lk : static_lock lk -> lock_free lk (k_m (page_kernel fl)).
Proof. intros Hst. exists "lock"%string. exact (static_locks_free lk Hst). Qed.

Lemma yield_spec_witness :
  exists kont, yield (page_kernel []) = Switch (klocking (proc_lock 0)
      (with_proc 0 (fun q => q <| p_state := RUNNABLE |>) (page_kernel []))) kont /\
    kont (klocking (proc_lock 0) (page_kernel [])) = Ok tt (page_kernel []).
Proof.
  destruct (yield_spec 0 (page_kernel []) (page_calm []) (page_ease [])) as (kont & E & Hk).
  exists kont. split; [exact E|]. apply Hk.
  - exact (proj1 (page_calm [])).
  - apply page_ease.
  - reflexivity.
  - apply page_lock_free. vm_decide.
Defined.

(** The running process sleeps on the disk queue, with the lock of the disk;
    a kernel in which it was made runnable is [page_kernel] with its state
    changed. *)
Lemma sleep_wakeup_resume_witness :
  let k := page_kernel [] in
  let asleep := with_proc 0 (go_sleep ch_disk_free) k in
  exists kont k4 ksched,
    sleep ch_disk_free vdisk_lock (klocking vdisk_lock k) = Switch (klocking (proc_lock 0) asleep) kont /\
    scheduler_one 0 0 (with_proc 0 (fun q => q <| p_state := RUNNABLE |>) asleep) = Switch k4 ksched /\
    exists k5, kont k4 = Ok tt k5.
Proof.
  intros k asleep.
  destruct (sleep_wakeup_resume 0 ch_disk_free vdisk_lock k) as (kont & E & _ & Hres).
  - apply page_calm.
  - apply page_ease.
  - discriminate.
  - apply page_lock_free. exact I.
  - destruct (Hres (with_proc 0 (fun q => q <| p_state := RUNNABLE |>) asleep)
      (mkproc RUNNABLE (Some ch_disk_free) 0 0 1 None 0 0 0 0 0 (mkcontext 0 0 []) (replicate 16 None) None [])) as [_ Hrun].
    + exact (proj1 (page_calm [])).
    + apply page_ease.
    + reflexivity.
    + apply page_lock_free. vm_decide.
    + apply page_lock_free. exact I.
    + reflexivity.
    + destruct (Hrun eq_refl) as (k4 & ks & Es & Ek). exists kont, k4, ks.
      split; [exact E|]. split; [exact Es|]. eexists. exact Ek.
Defined.

(** ** Process page tables *)

Definition twelve : list Z := page <$> seqZ 0 12.

(** A machine with twelve free pages and, after [proc_pagetable], the page
    table of a process with trapframe [page 14] and USYSCALL page [page 15]. *)
Definition built : Z * machine :=
  match proc_pagetable (page 14) (page 15) (page_machine twelve) with
  | Ok r m => (r, m)
  | _ => (0, page_machine twelve)
  end.

Lemma twelve_inv : quiet (page_machine twelve) /\ kmem_inv (page_machine twelve) twelve /\
  NoDup ([page 14; page 15] ++ twelve) /\ page_ok (page 14) /\ page_ok (page 15).
Proof.
  split_and!; [|vm_decide..]. split; [exact (proj1 (page_calm twelve))|exact (page_lock_free twelve kmem_lock I)].
Qed.

Lemma built_space :
  exists fl, proc_space built.1 [] [page 14; page 15] fl 0 (page 14) (page 15) built.2 /\
    pt_pages 2 (m_mem built.2) built.1 ++ fl ≡ₚ twelve.
Proof.
  destruct twelve_inv as (Hq & Hk & Hnd & Htf & Hus).
  destruct (proc_pagetable_run [page 14; page 15] (page 14) (page 15) twelve (page_machine twelve)) as (r & m & E & Hm);
    [exact Hq|exact Hk|exact Hnd|exact Htf|exact Hus|].
  unfold built. rewrite E. cbn [fst snd]. unfold table_made in Hm. case_decide.
  { destruct Hm as [_ Hlen]. assert (length twelve = 12%nat) by (vm_compute; reflexivity). lia. }
  destruct Hm as (fl & Hinv & Hp & _ & Hl). exists fl. split; [|exact Hp].
  split; [exact Hinv|constructor|split; [exact Htf|exact Hus]|vm_decide|reflexivity|intros i v Hv; discriminate|].
  intros va Hva. apply Hl. change (PGROUNDUP 0) with 0 in Hva. exact Hva.
Qed.

Lemma proc_pagetable_spec_witness :
  exists fl m2 fl2, proc_freepagetable built.1 0 built.2 = Ok tt m2 /\ kmem_inv m2 fl2 /\
    pt_pages 2 (m_mem built.2) built.1 ++ fl ≡ₚ twelve /\ fl2 ≡ₚ twelve.
Proof.
  destruct twelve_inv as (Hq & Hk & Hnd & Htf & Hus). destruct built_space as (fl & Hs & Hp).
  destruct (proj2 (proc_pagetable_spec [page 14; page 15] (page 14) (page 15) twelve (page_machine twelve) Hq Hk Hnd Htf Hus)
    _ _ _ _ _ _ Hs) as (m2 & fl2 & E & Hk2 & Hp2 & _).
  exists fl, m2, fl2. split; [exact E|]. split; [exact Hk2|]. split; [exact Hp|]. rewrite Hp2. exact Hp.
Defined.

(** ** Process table *)

(** The kernel in which slot 1 is the process with the page table above. *)
Definition proc1 : proc :=
  mkproc ZOMBIE None 0 0 7 (Some 0%nat) 0 0 built.1 (page 14) (page 15) (mkcontext 0 0 []) (replicate 16 None) None [].

Definition zombie_kernel : kernel :=
  (page_kernel []) <| k_m := built.2 |> <| k_proc ::= fun l => <[1%nat := proc1]> l |>.

#[local] Opaque built.

Lemma freeproc_spec_witness :
  exists fl m' fl', pt_pages 2 (m_mem built.2) built.1 ++ fl ≡ₚ twelve /\
    freeproc 1 zombie_kernel = Ok tt (kst zombie_kernel m' (<[1%nat := freed proc1]> (k_proc zombie_kernel)) 2) /\
    kmem_inv m' fl' /\ fl' ≡ₚ [page 14; page 15] ++ twelve.
Proof.
  destruct built_space as (fl & Hs & Hp).
  destruct (freeproc_spec 1 zombie_kernel proc1 [] [] fl eq_refl Hs) as (m' & fl' & E & Hk & Hp' & _).
  exists fl, m', fl'. split; [exact Hp|]. split; [exact E|]. split; [exact Hk|].
  rewrite Hp', <- Hp. cbn [p_trapframe p_usyscall p_pagetable proc1 fmap list_fmap]. rewrite app_nil_r, <- app_assoc. reflexivity.
Defined.

Lemma demo_slots j q :
  demo_procs !! j = Some q -> (p_state q = UNUSED <-> p_pid q = 0) /\ slot_clean q.
Proof.
  destruct j as [|j]; cbn [demo_procs lookup list_lookup].
  - intros [= <-]. by split.
  - intros [-> _]%lookup_replicate. by split.
Qed.

Lemma twelve_bounds : kmem_inv (k_m (page_kernel twelve)) twelve /\ NoDup ([] ++ twelve) /\ (9 < length twelve)%nat.
Proof. split_and!; vm_decide. Qed.

Lemma allocproc_spec_witness :
  exists i p, list_find (fun q => p_state q = UNUSED) (k_proc (page_kernel twelve)) = Some (i, p) /\
    alloc_post (page_kernel twelve) [] twelve i p.
Proof.
  destruct twelve_bounds as (Hk & Hnd & _).
  pose proof (allocproc_spec 0 (page_kernel twelve) [] twelve (page_calm twelve) Hk Hnd
    (fun j q Hq _ => proj2 (demo_slots j q Hq))) as Hs.
  eexists 1%nat, _. split; [reflexivity|exact Hs].
Defined.

Lemma kill_zero_dooms_next_witness :
  exists k1 k2 q, kill 0 (page_kernel twelve) = Ok 0 k1 /\ allocproc k1 = Ok (Some 1%nat) k2 /\
    k_proc k2 !! 1%nat = Some q /\ p_killed q = 1 /\ p_pid q = 2.
Proof.
  destruct twelve_bounds as (Hk & Hnd & Hlen).
  destruct (kill_zero_dooms_next 0 (page_kernel twelve) [] twelve 1
    (mkproc UNUSED None 0 0 0 None 0 0 0 0 0 (mkcontext 0 0 []) (replicate 16 None) None [])
    (page_calm twelve) Hk Hnd Hlen (fun j q Hq => proj1 (demo_slots j q Hq)) (fun j q Hq _ => proj2 (demo_slots j q Hq)) eq_refl)
    as (k1 & k2 & q & E1 & E2 & Hq & Hkl & _ & Hpid).
  exists k1, k2, q. split; [exact E1|]. split; [exact E2|]. split; [exact Hq|]. split; [exact Hkl|exact Hpid].
Defined.

(** ** Pipes and user memory *)

(** A process with the address space of [Demo.v] and its trapframe in
    [page 5]; the arguments of its system call are [a0], [a1] and [a2], and
    the entry of the page at 4096 has its accessed bit set. *)
Definition user_mem (a0 a1 a2 : Z) : gmap Z Z :=
  store64 (page 5 + tf_off (tf_a 0)) a0 (store64 (page 5 + tf_off (tf_a 1)) a1 (store64 (page 5 + tf_off (tf_a 2)) a2
    (store64 (page 2 + 8) (Z.lor (make_pte (page 4) user_perm) PTE_A) (table_mem (link_pages demo_fl ∅))))).

Definition user_proc : proc :=
  mkproc RUNNING None 0 0 1 None 0 8192 (page 0) (page 5) 0 (mkcontext 0 0 []) (replicate 16 None) None [].

Definition user_machine (a0 a1 a2 : Z) : machine :=
  mkmachine proc_core (<[pipe_lock 0 := free_lock "pipe"]> (gset_to_gmap (free_lock "lock") (list_to_set static_locks)))
    (user_mem a0 a1 a2) (hd 0 demo_fl).

Definition user_kernel (a0 a1 a2 : Z) (p : pipe) : kernel :=
  (page_kernel []) <| k_m := user_machine a0 a1 a2 |> <| k_proc ::= fun l => <[0%nat := user_proc]> l |>
    <| k_pipes := {[0 := p]} |>.

Lemma user_calm a0 a1 a2 p : calm [] 0 (user_kernel a0 a1 a2 p).
Proof.
  destruct (page_calm []) as (Hs & Hl & Hr & Hn & Hm). split_and!; [exact Hs| |exact Hr| |exact Hm].
  - intros lk Hst _. exists "lock"%string. cbn [user_kernel user_machine k_m m_locks].
    etransitivity; [apply lookup_insert_ne; intros <-; exact Hst|]. exact (static_locks_free lk Hst).
  - cbn. reflexivity.
Qed.

Lemma user_vm a0 a1 a2 p :
  kmem_inv (user_machine a0 a1 a2) demo_fl -> pt_wf 2 (user_mem a0 a1 a2) (page 0) ([page 3; page 4; page 5] ++ demo_fl) ->
  dirs_okb 2 (user_mem a0 a1 a2) (page 0) = true ->
  vm_inv [page 3; page 4; page 5] demo_fl (page 0) (k_m (user_kernel a0 a1 a2 p)).
Proof.
  intros Hk Hw Hd. destruct (user_calm a0 a1 a2 p) as (Hs & Hl & _).
  split; [split; [exact Hs|apply Hl; [exact I|apply not_elem_of_nil]]|].
  split; [exact Hk|]. split; [exact Hw|]. by apply dirs_okb_sound.
Qed.

Lemma user_vm_args p : forall a, a ∈ [(0, 2); (2 ^ 38, 1)] ->
  vm_inv [page 3; page 4; page 5] demo_fl (page 0) (k_m (user_kernel a.1 a.2 100 p)) /\
  umap_ok [page 3; page 4; page 5] (m_mem (k_m (user_kernel a.1 a.2 100 p))) (page 0).
Proof.
  intros a [->|[->|[]%elem_of_nil]%elem_of_cons]%elem_of_cons;
    (split; [apply user_vm; [vm_decide|vm_decide|vm_compute; reflexivity]|apply umap_okb_sound; vm_compute; reflexivity]).
Qed.

Definition idle_pipe : pipe := mkpipe (replicate 512 7) (2 ^ 32 - 2) 1 1 1.

Lemma pipe_refines_queue_witness :
  pipe_queue idle_pipe = [7; 7; 7] /\
  run_ops queue_op [Put 1; Take; Put 2; Take; Take; Take; Take; Take] [7; 7; 7] =
    ([Done; Byte 7; Done; Byte 7; Byte 7; Byte 1; Byte 2; Blocks], []).
Proof.
  assert (pipe_ok idle_pipe) as Hp by (split; vm_decide).
  split; [vm_compute; reflexivity|].
  rewrite <- (eq_refl : pipe_queue idle_pipe = [7; 7; 7]).
  rewrite (proj2 (pipe_refines_queue [Put 1; Take; Put 2; Take; Take; Take; Take; Take] idle_pipe Hp ltac:(repeat constructor; lia))).
  vm_compute. reflexivity.
Defined.

Lemma pipewrite_spec_witness :
  exists p' k', pipewrite 0 0 2 (user_kernel 0 2 100 idle_pipe) = Ok 2 k' /\ k_pipes k' !! 0 = Some p' /\
    pipe_queue p' = [7; 7; 7; 65; 66].
Proof.
  destruct (pipewrite_spec 0 0 0 2 idle_pipe user_proc (user_kernel 0 2 100 idle_pipe)) as (p' & E & _ & Hq & _).
  - apply user_calm.
  - exists "pipe"%string. cbn [user_kernel user_machine k_m m_locks]. apply lookup_insert_eq.
  - discriminate.
  - reflexivity.
  - split; vm_decide.
  - discriminate.
  - reflexivity.
  - reflexivity.
  - vm_decide.
  - lia.
  - lia.
  - lia.
  - vm_decide.
  - eexists p', _. split; [etransitivity; [exact E|vm_compute (user_bytes _ _ _ _); reflexivity]|].
    split; [apply lookup_insert_eq|]. rewrite Hq. vm_compute. reflexivity.
Defined.

Lemma piperead_spec_witness :
  exists r m' p' k', piperead 0 4095 9 (user_kernel 0 2 100 idle_pipe) = Ok (Z.of_nat r) k' /\ k_m k' = m' /\
    k_pipes k' !! 0 = Some p' /\ delivered (user_mem 0 2 100) (m_mem m') (page 0) 4095 r [7; 7; 7] /\ (r <= 3)%nat.
Proof.
  destruct (user_vm_args idle_pipe (0, 2) ltac:(left)) as [Hinv Hu].
  destruct (piperead_spec 0 0 4095 9 idle_pipe user_proc [page 3; page 4; page 5] demo_fl (user_kernel 0 2 100 idle_pipe))
    as (r & m' & p' & c & E & _ & _ & _ & Hd & _ & Hr).
  - apply user_calm.
  - exists "pipe"%string. cbn [user_kernel user_machine k_m m_locks]. apply lookup_insert_eq.
  - discriminate.
  - reflexivity.
  - split; vm_decide.
  - left. vm_compute. discriminate.
  - reflexivity.
  - exact Hinv.
  - exact Hu.
  - lia.
  - lia.
  - lia.
  - eexists r, m', p', _. split; [exact E|]. split; [reflexivity|]. split; [apply lookup_insert_eq|]. split; [exact Hd|].
    change (length (pipe_queue idle_pipe)) with 3%nat in Hr. lia.
Defined.

Lemma three_args_demo a0 a1 p :
  load64 (user_mem a0 a1 100) (page 5 + tf_off (tf_a 0)) = a0 -> load64 (user_mem a0 a1 100) (page 5 + tf_off (tf_a 1)) = a1 ->
  load64 (user_mem a0 a1 100) (page 5 + tf_off (tf_a 2)) = 100 -> three_args 0 (user_kernel a0 a1 100 p) a0 a1 100.
Proof. intros H0 H1 H2. exists user_proc. split; [reflexivity|]. split; [exact H0|]. split; [exact H1|exact H2]. Qed.


Lemma pgaccess_panics_witness :
  exists k', sys_pgaccess (user_kernel (2 ^ 38) 1 100 idle_pipe) = Panic "walk" k'.
Proof.
  destruct (user_vm_args idle_pipe (2 ^ 38, 1) ltac:(right; left)) as [Hinv _].
  apply (pgaccess_panics 0 (user_kernel (2 ^ 38) 1 100 idle_pipe) user_proc (2 ^ 38) 1 100 [page 3; page 4; page 5] demo_fl).
  - apply user_calm.
  - reflexivity.
  - apply three_args_demo; vm_compute; reflexivity.
  - exact Hinv.
  - lia.
  - vm_decide.
  - vm_decide.
Defined.
