(* ===== verification/FileWitness.v ===== *)
(** * The theorems about the buffer cache, the log and files, applied

    First a disk of zeroes with the log at blocks 2 to 31 and a transaction
    that changes blocks 50 and 51; then a disk of 200 blocks with the log at blocks 2 to 31, inodes at 32, the
    bitmap at 45, blocks 0 to 63 in use, and a file of 1500 bytes in blocks
    50 and 51; a transaction is open and the cache is empty. *)

From stdpp Require Import functions.
From S2P Require Import Prelude Riscv Machine Spinlock PhysMem Kalloc PageTable Vm VmSpec VmCopy Kernel Sched Sleeplock Bio Bytes Uart Printf Log Fs Thread BioRing BioSpec LogDisk LogSpec Demo SchedSpec PipeSpec FsTx FsBlocks FsFile FsWrite FsDir FsLink FsInode.

(** ** Buffers and the log *)

Definition zeroes : Z -> list Z := fun _ => replicate 1024 0.

Definition demo_log (bl : list Z) : log :=
  mklog 2 30 1 0 ROOTDEV (Z.of_nat (length bl)) (bl ++ replicate (Z.to_nat LOGSIZE - length bl) 0).

(** The contents of blocks 50 and 51 the transaction writes. *)
Definition demo_view : Z -> list Z :=
  <[50 := replicate 1024 7]> (<[51 := replicate 1024 8]> zeroes).

Definition demo_tx : kernel :=
  demo_kernel (mk_cache ((fun '(bn, d, r) => cached_block bn d r) <$>
    [(50, replicate 1024 7, 1); (51, replicate 1024 8, 1)])) (demo_log [50; 51]) (zeroes, []).

(** The kernel that boots on the disk left by the writes [ws]. *)
Definition demo_boot (ws : list (Z * list Z)) : kernel :=
  demo_kernel (mk_cache []) (demo_log []) (replay ws zeroes, []).

Lemma demo_log_ok bl : (length bl <= 30)%nat -> log_ok ROOTDEV (demo_log bl).
Proof.
  intros Hl. split; cbn; try done. rewrite length_app, length_replicate. change (Z.to_nat LOGSIZE) with 30%nat. lia.
Qed.

Lemma demo_holds bl :
  (length bl <= 29)%nat -> Forall (outside 2 30) bl -> holds (demo_log bl) bl.
Proof.
  intros Hl Ho. split.
  - unfold log_list. cbn. rewrite Nat2Z.id, take_app_length. done.
  - done.
  - split; [cbn; lia|change (Z.to_nat LOGSIZE) with 30%nat; lia|done].
Qed.

Lemma demo_outside b : 32 <= b < 2 ^ 31 -> outside 2 30 b.
Proof. intros Hb. split; lia. Qed.

Lemma demo_tx_bio : bio_inv ROOTDEV 0 [] demo_view {[50; 51]} ([1; 1] ++ replicate 29 0) demo_tx.
Proof.
  apply (demo_bio [(50, replicate 1024 7, 1); (51, replicate 1024 8, 1)] (demo_log [50; 51]) (zeroes, [])).
  - vm_decide.
  - vm_decide.
  - vm_decide.
  - vm_decide.
  - repeat constructor; done.
  - intros bn Hbn. unfold demo_view. rewrite elem_of_union, !elem_of_singleton in Hbn.
    rewrite !fn_lookup_insert_ne by (intros E; subst bn; tauto). done.
  - intros bn [->%elem_of_singleton| ->%elem_of_singleton]%elem_of_union.
    + exists (replicate 1024 7), 1. split; [by left|done].
    + exists (replicate 1024 8), 1. split; [by right; left|done].
Qed.

Lemma demo_room n (R : list Z) : (n <= 28)%nat -> drop 2 R = replicate 29 0 -> room n R.
Proof.
  intros Hn HR. exists (seq 2 n). split_and!; [apply NoDup_seq|apply length_seq|].
  apply Forall_forall. intros f Hf%elem_of_seq. split; [change HEAD with 30%nat; lia|].
  replace f with (2 + (f - 2))%nat by lia. rewrite <- lookup_drop, HR. apply lookup_replicate_2. lia.
Qed.

Lemma demo_boot_ok ws : booted ROOTDEV 0 (demo_log [50; 51]) (demo_boot ws).
Proof.
  split; [|split_and!; [apply demo_log_ok; cbn; lia|done|done]].
  exists (replicate 31 0). split_and!.
  - apply (demo_bio [] (demo_log []) (replay ws zeroes, [])); done || apply Nat.le_0_l || apply NoDup_nil_2.
  - by apply Forall_replicate.
  - by apply demo_room; [lia|].
Qed.

Lemma commit_crash_atomic_witness :
  exists k' ws, commit demo_tx = Ok tt k' /\ disk_writes (k_device k') = ws /\ content k' 50 = replicate 1024 7 /\
    (exists kr, recover_from_log (demo_boot (take 2 ws)) = Ok tt kr /\ content kr 50 = replicate 1024 0) /\
    (exists kr, recover_from_log (demo_boot (take 3 ws)) = Ok tt kr /\ content kr 50 = replicate 1024 7).
Proof.
  destruct (commit_crash_atomic ROOTDEV 0 [50; 51] demo_view {[50; 51]} ([1; 1] ++ replicate 29 0) demo_tx
    (demo_log [50; 51])) as (k' & ws & E & _ & Hw & Hc & Hr).
  - exact demo_tx_bio.
  - done.
  - done.
  - apply demo_log_ok. cbn. lia.
  - apply demo_holds; [cbn; lia|]. repeat constructor; done || lia.
  - done.
  - vm_decide.
  - intros b. rewrite elem_of_union, !elem_of_singleton, !elem_of_cons. split; [tauto|].
    intros [?|[?|?%elem_of_nil]]; [tauto|tauto|done].
  - repeat constructor; done.
  - by apply demo_room; [lia|].
  - by vm_compute.
  - by vm_compute.
  - assert (outside 2 30 50) as Ho by (apply demo_outside; lia).
    exists k', ws. split_and!; [done|done|by rewrite (Hc 50 Ho)| |].
    + destruct (Hr 2%nat (demo_boot (take 2 ws)) (demo_boot_ok _) eq_refl) as (kr & Er & Hkr).
      exists kr. split; [done|]. by rewrite (Hkr 50 Ho).
    + destruct (Hr 3%nat (demo_boot (take 3 ws)) (demo_boot_ok _) eq_refl) as (kr & Er & Hkr).
      exists kr. split; [done|]. by rewrite (Hkr 50 Ho).
Defined.

Lemma demo_trans_ok : trans_ok 2 30 [50; 51].
Proof. split; [done|vm_decide|]. repeat constructor; done || lia. Qed.

Lemma recovery_crash_idempotent_witness :
  let ws := take 3 (commit_writes 2 [50; 51] demo_view) in
  let rs := take 1 (recovery_writes 2 (content (demo_boot ws))) in
  exists k' kr', recover_from_log (demo_boot ws) = Ok tt k' /\ recover_from_log (demo_boot (ws ++ rs)) = Ok tt kr' /\
    content kr' 51 = content k' 51.
Proof.
  intros ws rs.
  destruct (recovery_crash_idempotent ROOTDEV 0 (demo_log [50; 51]) (demo_boot ws) 1 (demo_boot (ws ++ rs)))
    as (k' & kr' & E & E' & _ & _ & Hc).
  - apply demo_boot_ok.
  - done.
  - apply (crash_head_ok 2 30 [50; 51] demo_view zeroes 3); [apply demo_trans_ok|by vm_compute|done|by vm_compute].
  - apply demo_boot_ok.
  - exact (replay_app ws rs zeroes).
  - exists k', kr'. split_and!; [done|done|]. apply Hc, demo_outside. lia.
Defined.

Lemma log_write_spec_witness :
  exists b k1 k', bread ROOTDEV 60 demo_tx = Ok b k1 /\ log_write b k1 = Ok tt k' /\
    log_list (k_log k') = [50; 51; 60].
Proof.
  destruct (bread_run ROOTDEV 0 [] demo_view {[50; 51]} ([1; 1] ++ replicate 29 0) demo_tx 60)
    as (b & r & k1 & E & HR & Hb & _ & Hinv & Hf & _).
  - exact demo_tx_bio.
  - done.
  - apply not_elem_of_nil.
  - repeat constructor; done.
  - exists 5%nat. split; [vm_decide|by right].
  - assert (0 <= r <= 1) as Hr.
    { assert (Forall (fun r => 0 <= r <= 1) ([1; 1] ++ replicate 29 0)) as Hall by vm_decide.
      exact (Forall_lookup_1 _ _ _ _ Hall HR). }
    pose proof (log_write_spec ROOTDEV 0 [50; 51] [(b, 60)] demo_view {[50; 51]} _ k1 (demo_log [50; 51]) b 60 (r + 1)
      Hinv ltac:(by left) (bio_frame_log _ _ Hf) (demo_log_ok [50; 51] ltac:(cbn; lia))
      (demo_holds [50; 51] ltac:(cbn; lia) (to_out _ _ _ demo_trans_ok)) ltac:(vm_decide)
      ltac:(apply list_lookup_insert_eq; by eapply lookup_lt_Some) ltac:(lia) ltac:(apply demo_outside; lia) ltac:(done)) as Hw.
    rewrite decide_True in Hw by done. destruct Hw as (k' & Ew & _ & [Hl _ _] & _).
    exists b, k1, k'. split_and!; [done|done|]. rewrite Hl. done.
Defined.

Lemma demo_refs_small : Forall (fun r => r + 1 < 2 ^ 32) ([1; 1] ++ replicate 29 0).
Proof. repeat constructor; done. Qed.

Lemma demo_fuel_pos : wait_fuel <> O.
Proof. done. Qed.

Lemma binit_spec_witness :
  exists k', binit (demo_kernel (replicate (S HEAD) zero_buf) (demo_log []) (zeroes, [])) = Ok tt k' /\
    ring (k_bcache k') (reverse bufs).
Proof.
  destruct (binit_spec ROOTDEV 0 (demo_kernel (replicate (S HEAD) zero_buf) (demo_log []) (zeroes, [])) eq_refl eq_refl)
    as (k' & E & Hr & _).
  exists k'. split; [exact E|exact Hr].
Defined.

Lemma bread_spec_witness :
  exists b x k', bread ROOTDEV 51 demo_tx = Ok b k' /\ k_bcache k' !! b = Some x /\ b_data x = replicate 1024 8.
Proof.
  pose proof (bread_spec ROOTDEV 0 [] demo_view {[50; 51]} ([1; 1] ++ replicate 29 0) demo_tx 51 demo_tx_bio
    demo_fuel_pos (not_elem_of_nil _) demo_refs_small) as Hs.
  rewrite decide_True in Hs.
  - destruct Hs as (b & x & r & k' & E & Hx & _ & Hd & _). exists b, x, k'. split_and!; [exact E|exact Hx|].
    etransitivity; [exact Hd|]. vm_compute. reflexivity.
  - apply Exists_exists. exists 5%nat. split; [vm_decide|by right].
Defined.

Lemma brelse_spec_witness :
  exists b k1 k', bread ROOTDEV 60 demo_tx = Ok b k1 /\ brelse b k1 = Ok tt k' /\
    sl_locked (slock k' (buf_sleeplock b)) = 0.
Proof.
  destruct (bread_run ROOTDEV 0 [] demo_view {[50; 51]} ([1; 1] ++ replicate 29 0) demo_tx 60)
    as (b & r & k1 & E & HR & Hb & _ & Hinv & Hf & _).
  - exact demo_tx_bio.
  - done.
  - apply not_elem_of_nil.
  - exact demo_refs_small.
  - exists 5%nat. split; [vm_decide|by right].
  - destruct (bi_ring _ _ _ _ _ _ _ Hinv) as [order Hring].
    destruct (brelse_spec ROOTDEV 0 [(b, 60)] [] demo_view {[50; 51]} _ k1 b 60 (r + 1) order Hinv)
      as [(k' & E' & _ & Hl & _) _].
    + done.
    + apply list_lookup_insert_eq. by eapply lookup_lt_Some.
    + intros [?%elem_of_singleton|?%elem_of_singleton]%elem_of_union; done.
    + exact Hring.
    + exists b, k1, k'. split_and!; [exact E|exact E'|exact Hl].
Defined.

(** ** Blocks and files *)

Definition fs_sb : superblock := mksuperblock 270544960 200 154 200 30 2 32 45.

Definition fs_disk : Z -> list Z :=
  <[45 := replicate 8 255 ++ replicate 1016 0]> (<[50 := replicate 1024 7]> (<[51 := replicate 1024 8]> zeroes)).

Definition fs_inode : inode := mkinode ROOTDEV 1 1 1 2 0 0 1 1500 ([50; 51] ++ replicate 11 0).

Definition fs_kernel : kernel :=
  (demo_kernel (mk_cache []) (demo_log []) (fs_disk, [])) <| k_sb := fs_sb |> <| k_itable := [fs_inode] |>.

(** A transaction that has logged nothing, on any disk. *)
Lemma empty_log_tx d : tx ROOTDEV 0 8 [] d (demo_kernel (mk_cache []) (demo_log []) (d, [])).
Proof.
  exists [], (replicate 31 0). split.
  - apply (demo_bio [] (demo_log []) (d, [])); done || apply Nat.le_0_l || apply NoDup_nil_2.
  - apply demo_log_ok. cbn. lia.
  - apply demo_holds; [cbn; lia|done].
  - apply NoDup_nil_2.
  - done.
  - done.
  - repeat constructor; done.
  - by apply demo_room; [lia|].
  - cbn. lia.
  - intros b bn r Hin. by apply elem_of_nil in Hin.
  - done.
Qed.

Lemma fs_tx : tx ROOTDEV 0 8 [] fs_disk fs_kernel.
Proof. apply tx_set_itable, tx_set_sb. apply empty_log_tx. Qed.

Lemma fs_bblock b : 0 <= b < 200 -> BBLOCK b fs_sb = 45.
Proof. intros Hb. unfold BBLOCK. change BPB with 8192. rewrite Z.div_small by lia. done. Qed.

Lemma fs_used b : 0 <= b < 200 -> used fs_sb fs_disk b = (b <? 64).
Proof.
  intros Hb. assert (Forall (fun b => used fs_sb fs_disk b = (b <? 64)) (seqZ 0 200)) as Hall by vm_decide.
  rewrite Forall_forall in Hall. apply Hall, elem_of_seqZ. lia.
Qed.

Lemma fs_bitmap : bitmap_ok fs_kernel fs_disk.
Proof.
  split; change (k_sb fs_kernel) with fs_sb; change (sb_size fs_sb) with 200; try done; try (cbn; lia).
  - intros b Hb. by rewrite fs_bblock.
  - intros b Hb. rewrite fs_bblock by done. by rewrite fs_used.
  - intros b Hb. rewrite fs_bblock by done. apply demo_outside. lia.
  - intros b Hb Hno. rewrite fs_used by done. apply Z.ltb_lt. destruct (decide (b < 64)); [done|].
    exfalso. apply Hno, demo_outside. lia.
Qed.

Lemma balloc_spec_witness : exists k', balloc ROOTDEV fs_kernel = Ok 64 k'.
Proof.
  destruct (balloc_spec ROOTDEV 0 demo_fuel_pos 6 [] fs_disk fs_kernel) as (k' & _ & Hres).
  - exact fs_tx.
  - cbn. lia.
  - exact fs_bitmap.
  - intros b _. apply not_elem_of_nil.
  - intros b _. apply not_elem_of_nil.
  - change (k_sb fs_kernel) with fs_sb in Hres. change (sb_size fs_sb) with 200 in Hres.
    destruct Hres as [(b & E & (Hb & Hfree & Hbefore) & _)|(_ & _ & Hall)].
    + change (sb_size fs_sb) with 200 in Hb. rewrite fs_used in Hfree by done. apply Z.ltb_ge in Hfree.
      destruct (decide (b = 64)) as [->|]; [by exists k'|]. specialize (Hbefore 64 ltac:(lia)). by rewrite fs_used in Hbefore by lia.
    + specialize (Hall 64 ltac:(lia)). by rewrite fs_used in Hall by lia.
Defined.

Lemma bfree_spec_witness :
  (exists k', bfree ROOTDEV 50 fs_kernel = Ok tt k') /\ (exists k', bfree ROOTDEV 70 fs_kernel = Panic "freeing free block" k').
Proof.
  pose proof (bfree_spec ROOTDEV 0 demo_fuel_pos 7 [] fs_disk fs_kernel 50 fs_tx ltac:(cbn; lia) fs_bitmap
    ltac:(cbn; lia) (not_elem_of_nil _)) as [H50 _].
  pose proof (bfree_spec ROOTDEV 0 demo_fuel_pos 7 [] fs_disk fs_kernel 70 fs_tx ltac:(cbn; lia) fs_bitmap
    ltac:(cbn; lia) (not_elem_of_nil _)) as [H70 _].
  change (k_sb fs_kernel) with fs_sb in H50, H70. rewrite fs_used in H50, H70 by lia. cbn in H50, H70. split.
  - destruct H50 as (k' & E & _). by exists k'.
  - exact H70.
Defined.

Lemma fs_file : file_ok fs_kernel fs_disk fs_inode 2.
Proof.
  assert (forall j, 0 <= j < 2 -> j = 0 \/ j = 1) as Hj by lia. split.
  - done.
  - intros j [->| ->]%Hj; (split; [done|split; [apply demo_outside; vm_decide|done]]).
  - intros j j' [->| ->]%Hj [->| ->]%Hj; done.
  - intros j [->| ->]%Hj; done.
Qed.

Lemma readi_spec_witness :
  exists k', readi 0 LocalDst 1000 600 fs_kernel = Ok (500, replicate 24 7 ++ replicate 476 8) k'.
Proof.
  destruct (readi_spec ROOTDEV 0 demo_fuel_pos 8 [] fs_disk fs_kernel 0 fs_inode 2 LocalDst 1000 600) as (m' & k' & E & _).
  - exact fs_tx.
  - cbn. lia.
  - done.
  - done.
  - apply not_elem_of_nil.
  - intros j _. apply not_elem_of_nil.
  - exact fs_file.
  - done.
  - done.
  - done.
  - vm_decide.
  - done.
  - exists k'. rewrite E. reflexivity.
Defined.


(** ** A directory with the names [.] and [a], and a free entry between them *)

Definition dir_block : list Z := [1; 0; 46] ++ replicate 13 0 ++ replicate 16 0 ++ [5; 0; 97] ++ replicate 13 0 ++ replicate 976 0.

Definition dir_disk : Z -> list Z := <[50 := dir_block]> fs_disk.

Definition dir_inode : inode := mkinode ROOTDEV 1 1 1 1 0 0 1 48 (50 :: replicate 12 0).

Definition no_inode : inode := mkinode 0 0 0 0 0 0 0 0 0 (replicate 13 0).

Definition dir_kernel : kernel :=
  (demo_kernel (mk_cache []) (demo_log []) (dir_disk, [])) <| k_sb := fs_sb |> <| k_itable := dir_inode :: replicate 49 no_inode |>.

Lemma dir_tx : tx ROOTDEV 0 8 [] dir_disk dir_kernel.
Proof. apply tx_set_itable, tx_set_sb. by apply empty_log_tx. Qed.

Lemma dir_is_dir : is_dir ROOTDEV dir_disk 0 dir_inode 1 dir_kernel.
Proof.
  split; try done.
  - split.
    + done.
    + intros j Hj. assert (j = 0) as -> by lia. split; [done|]. split; [apply demo_outside; vm_decide|done].
    + intros j j' Hj Hj' _. lia.
    + intros j Hj. assert (j = 0) as -> by lia. done.
  - exists 3. done.
  - vm_decide.
Qed.

Lemma dirlookup_spec_witness : exists k', dirlookup 0 [97; 0] dir_kernel = Ok (Some (1%nat, 32)) k'.
Proof.
  destruct (dirlookup_spec ROOTDEV 0 demo_fuel_pos [97; 0] 8 dir_disk 0 dir_inode 1 dir_kernel) as (k1 & _ & _ & E);
    [right; left; reflexivity|exact dir_tx|exact dir_is_dir|].
  change (dir_map (dir dir_disk dir_inode) !! name_of [97; 0]) with (Some 5) in E. vm_compute (iget_entry _ _ _) in E.
  destruct E as (j & de & Ej & _ & E). change (dir_find (name_of [97; 0]) (dir dir_disk dir_inode)) with (Some (2%nat, mkdirent 5 (97 :: replicate 13 0))) in Ej.
  injection Ej as <- <-. eexists. exact E.
Defined.


(** The size of the file becomes 1600, and is read back. *)
Lemma iupdate_typed_witness :
  exists V' k', iupdate 0 (fs_kernel <| k_itable := [fs_inode <| i_size := 1600 |>] |>) = Ok tt k' /\
    i_size (from_disk V' fs_sb fs_inode) = 1600.
Proof.
  destruct (iupdate_typed ROOTDEV 0 demo_fuel_pos 7 fs_disk (fs_kernel <| k_itable := [fs_inode <| i_size := 1600 |>] |>) 0
    (fs_inode <| i_size := 1600 |>)) as (V' & k' & E & _ & _ & _ & Hr & _).
  - apply tx_set_itable. exact fs_tx.
  - reflexivity.
  - reflexivity.
  - split; try (cbn; lia); [reflexivity|vm_decide].
  - reflexivity.
  - apply demo_outside. vm_decide.
  - vm_compute. discriminate.
  - vm_compute. discriminate.
  - vm_compute. reflexivity.
  - exists V', k'. split; [exact E|]. apply (f_equal i_size) in Hr. exact Hr.
Defined.
