(* ===== verification/Mkfs.v ===== *)
(** * [mkfs/mkfs.c]

    The program that writes the initial disk image on the host. The image is
    a file of blocks; [die] and failing assertions end the program, which is
    [panic] here. The host's files are arguments of [main]. *)

From S2P Require Import Prelude Riscv Kernel Bio Bytes Fs.

Definition NINODES : Z := 200.

Definition nbitmap : Z := FSSIZE / (BSIZE * 8) + 1.

Definition ninodeblocks : Z := NINODES / IPB + 1.

(** Boot block, super block, log ([nlog] is [LOGSIZE]), inodes and bitmap. *)
Definition nmeta : Z := 2 + LOGSIZE + ninodeblocks + nbitmap.

(** The value whose bytes in memory are the little-endian bytes of [x]; the
    host is little-endian too. *)
Definition xshort (x : Z) : Z := get16 [u8 x; u8 (Z.shiftr x 8)] 0.

Definition xint (x : Z) : Z := get32 [u8 x; u8 (Z.shiftr x 8); u8 (Z.shiftr x 16); u8 (Z.shiftr x 24)] 0.

(** The global [sb] as [main] sets it. *)
Definition mkfs_sb : superblock :=
  mksuperblock FSMAGIC (xint FSSIZE) (xint (FSSIZE - nmeta)) (xint NINODES) (xint LOGSIZE) (xint 2) (xint (2 + LOGSIZE))
    (xint (2 + LOGSIZE + ninodeblocks)).

(** The image [fsfd] and the global counters. *)
Record mkfs := mkmkfs {
  f_img : gmap Z (list Z);
  f_freeinode : Z;
  f_freeblock : Z }.

#[export] Instance eta_mkfs : Eta mkfs := fun f => mkmkfs (f_img f) (f_freeinode f) (f_freeblock f).

Definition wsect (sec : Z) (buf : list Z) : M mkfs unit :=
  modify (fun f => f <| f_img := <[sec := buf]> (f_img f) |>).

(** Beyond the end of the image [read] returns less than a block. *)
Definition rsect (sec : Z) : M mkfs (list Z) :=
  img <- gets f_img ;;
  match img !! sec with Some buf => ret buf | None => panic "read" end.

(** [struct dinode] is the on-disk part of an [inode]. *)
Definition dinode0 (inum : Z) : inode := mkinode 0 inum 0 0 0 0 0 0 0 (replicate 13 0).

Definition winode (inum : Z) (ip : inode) : M mkfs unit :=
  let bn := IBLOCK inum mkfs_sb in
  buf <- rsect bn ;;
  wsect bn (write_dinode buf (dinode_off inum) ip).

Definition rinode (inum : Z) : M mkfs inode :=
  let bn := IBLOCK inum mkfs_sb in
  buf <- rsect bn ;;
  ret (read_dinode buf (dinode_off inum) (dinode0 inum)).

Definition ialloc (type : Z) : M mkfs Z :=
  inum <- gets f_freeinode ;;
  modify (fun f => f <| f_freeinode := u32 (inum + 1) |>) ;;
  winode inum ((dinode0 inum) <| i_type := xshort type |> <| i_nlink := xshort 1 |> <| i_size := xint 0 |>) ;;
  ret inum.

Definition balloc (used : Z) : M mkfs unit :=
  if negb (used <? BSIZE * 8) then panic "assert(used < BSIZE*8)" else
  wsect (sb_bmapstart mkfs_sb) (foldl set_bit (replicate (Z.to_nat BSIZE) 0) (seqZ 0 used)).

(** [freeblock++] *)
Definition next_block : M mkfs Z :=
  b <- gets f_freeblock ;;
  modify (fun f => f <| f_freeblock := u32 (b + 1) |>) ;;
  ret b.

(** The inode and its indirect block, allocated if there is none. *)
Definition iappend_ind (din : inode) : M mkfs (inode * Z) :=
  let ind := default 0 (i_addrs din !! Z.to_nat NDIRECT) in
  if xint ind =? 0 then
    b <- next_block ;;
    ret (din <| i_addrs ::= insert (Z.to_nat NDIRECT) (xint b) |>, xint (xint b))
  else ret (din, xint ind).

(** The block [fbn] of the file, allocated if there is none: the inode and
    the block number [x]. *)
Definition iappend_block (din : inode) (fbn : Z) : M mkfs (inode * Z) :=
  if fbn <? NDIRECT then
    let a := default 0 (i_addrs din !! Z.to_nat fbn) in
    if xint a =? 0 then
      b <- next_block ;;
      ret (din <| i_addrs ::= insert (Z.to_nat fbn) (xint b) |>, xint (xint b))
    else ret (din, xint a)
  else
    r <- iappend_ind din ;;
    let '(din, ind) := r in
    indirect <- rsect ind ;;
    let o := 4 * (fbn - NDIRECT) in
    if get32 indirect o =? 0 then
      b <- next_block ;;
      wsect ind (set32 indirect o (xint b)) ;;
      ret (din, xint (xint b))
    else ret (din, xint (get32 indirect o)).

(** One round of the loop: the inode, the offset and the bytes left. *)
Definition iappend_step (x : inode * Z * list Z) : M mkfs (inode * Z * list Z + inode * Z) :=
  let '(din, off, p) := x in
  let n := Z.of_nat (length p) in
  if negb (0 <? n) then leave (din, off) else
  let fbn := off / BSIZE in
  if negb (fbn <? MAXFILE) then panic "assert(fbn < MAXFILE)" else
  r <- iappend_block din fbn ;;
  let '(din, x) := r in
  let n1 := Z.min n ((fbn + 1) * BSIZE - off) in
  buf <- rsect x ;;
  wsect x (splice buf (off - fbn * BSIZE) (take (Z.to_nat n1) p)) ;;
  continue (din, off + n1, drop (Z.to_nat n1) p).

Definition iappend (inum : Z) (p : list Z) : M mkfs unit :=
  din <- rinode inum ;;
  r <- iter (S (length p)) iappend_step (din, xint (i_size din), p) ;;
  let '(din, off) := r in
  winode inum (din <| i_size := xint off |>).

(** ** [main] *)

(** [strncpy(de.name, name, DIRSIZ)] into a zeroed entry. *)
Definition dirname (name : list Z) : list Z := take (Z.to_nat DIRSIZ) (name ++ replicate (Z.to_nat DIRSIZ) 0).

Definition link_root (inum : Z) (name : list Z) : M mkfs unit :=
  iappend ROOTINO (encode_dirent (mkdirent (xshort inum) (dirname name))).

(** A file of the host: its path, and what the calls of [read] return, or
    [None] when it cannot be opened. *)
Record host_file := mkhost { h_path : list Z; h_reads : option (list (list Z)) }.

(** The path without [user/]. *)
Definition shortname (path : list Z) : list Z :=
  if decide (take 5 path = [117; 115; 101; 114; 47]) then drop 5 path else path.

(** Without a leading [_]. *)
Definition skip_underscore (name : list Z) : list Z :=
  match name with 95 :: name' => name' | _ => name end.

Definition add_file (h : host_file) : M mkfs unit :=
  let name := shortname (h_path h) in
  if decide (47 ∈ name) then panic "assert(index(shortname, '/') == 0)" else
  match h_reads h with
  | None => panic "open"
  | Some reads =>
      inum <- ialloc T_FILE ;;
      link_root inum (skip_underscore name) ;;
      for_each reads (iappend inum)
  end.

(** [sb] as bytes. *)
Definition encode_sb (sb : superblock) : list Z :=
  foldl (fun d x => set32 d (4 * x.1) x.2) (replicate (Z.to_nat BSIZE) 0)
    [(0, sb_magic sb); (1, sb_size sb); (2, sb_nblocks sb); (3, sb_ninodes sb); (4, sb_nlog sb); (5, sb_logstart sb);
     (6, sb_inodestart sb); (7, sb_bmapstart sb)].

Definition main (files : list host_file) : M mkfs unit :=
  modify (fun f => f <| f_freeblock := nmeta |>) ;;
  for_each (seqZ 0 FSSIZE) (fun i => wsect i (replicate (Z.to_nat BSIZE) 0)) ;;
  wsect 1 (encode_sb mkfs_sb) ;;
  rootino <- ialloc T_DIR ;;
  if negb (rootino =? ROOTINO) then panic "assert(rootino == ROOTINO)" else
  link_root rootino [46] ;;
  link_root rootino [46; 46] ;;
  for_each files add_file ;;
  din <- rinode rootino ;;
  let off := (xint (i_size din) / BSIZE + 1) * BSIZE in
  winode rootino (din <| i_size := xint off |>) ;;
  b <- gets f_freeblock ;;
  balloc b.

(** The program starts with an empty image. *)
Definition mkfs_init : mkfs := mkmkfs ∅ 1 0.
