(* ===== verification/MkfsSpec.v ===== *)
(** * Files in the image of mkfs

    [iappend] on the image: every inode owns its blocks, and appending to one
    file leaves the others alone. *)

From S2P Require Import Prelude Riscv PhysMem Kernel Bio Bytes Fs FsBlocks FsFile FsWrite Mkfs.

Lemma xint_small x : 0 <= x < 2 ^ 32 -> xint x = x.
Proof.
  intros Hx.
  change (xint x) with (u8 (u8 x) + 256 * (u8 (u8 (Z.shiftr x 8)) + 256 * (u8 (u8 (Z.shiftr x 16)) + 256 * (u8 (u8 (Z.shiftr x 24)) + 256 * 0)))).
  rewrite !u8_u8, !Z.shiftr_div_pow2 by lia. unfold u8.
  replace (x / 2 ^ 16) with (x / 2 ^ 8 / 2 ^ 8) by (rewrite Z.div_div by lia; done).
  replace (x / 2 ^ 24) with (x / 2 ^ 8 / 2 ^ 8 / 2 ^ 8) by (rewrite !Z.div_div by lia; done). change (2 ^ 8) with 256.
  pose proof (Z.div_mod x 256). pose proof (Z.div_mod (x / 256) 256). pose proof (Z.div_mod (x / 256 / 256) 256).
  rewrite (Z.mod_small (x / 256 / 256 / 256)); [lia|]. rewrite !Z.div_div by lia.
  split; [apply Z.div_pos; lia|]. apply Z.div_lt_upper_bound; lia.
Qed.

Lemma xshort_small x : 0 <= x < 2 ^ 16 -> xshort x = x.
Proof.
  intros Hx. change (xshort x) with (u8 (u8 x) + 256 * (u8 (u8 (Z.shiftr x 8)) + 256 * 0)). rewrite !u8_u8, !Z.shiftr_div_pow2 by lia. unfold u8. change (2 ^ 8) with 256.
  pose proof (Z.div_mod x 256). rewrite (Z.mod_small (x / 256)); [lia|].
  split; [apply Z.div_pos; lia|]. apply Z.div_lt_upper_bound; lia.
Qed.

(** ** The image *)

(** The blocks of the image. *)
Definition view (f : mkfs) (b : Z) : list Z := default [] (f_img f !! b).

(** The inode on disk, with empty in-core fields. *)
Definition disk_inode (V : Z -> list Z) (inum : Z) : inode :=
  read_dinode (V (IBLOCK inum mkfs_sb)) (dinode_off inum) (dinode0 inum).

(** All blocks are there. *)
Record img_ok (f : mkfs) : Prop := {
  im_some : forall b, is_Some (f_img f !! b) <-> 0 <= b < FSSIZE;
  im_len : forall b, 0 <= b < FSSIZE -> length (view f b) = Z.to_nat BSIZE
}.

Lemma rsect_run f b : img_ok f -> 0 <= b < FSSIZE -> rsect b f = Ok (view f b) f.
Proof.
  intros Hi Hb. unfold rsect, view. rewrite bind_gets. apply (im_some _ Hi) in Hb as [d E]. by rewrite E.
Qed.

(** [f] after writing block [b]. *)
Definition put (b : Z) (d : list Z) (f : mkfs) : mkfs := f <| f_img := <[b := d]> (f_img f) |>.

Lemma view_put b d f b' : view (put b d f) b' = if decide (b' = b) then d else view f b'.
Proof.
  unfold view. cbn. destruct (decide (b' = b)) as [->|Hne]; [by rewrite lookup_insert_eq|by rewrite lookup_insert_ne].
Qed.

Lemma put_ok b d f : img_ok f -> 0 <= b < FSSIZE -> length d = Z.to_nat BSIZE -> img_ok (put b d f).
Proof.
  intros [Hs Hl] Hb Hd. split.
  - intros b'. cbn. destruct (decide (b' = b)) as [->|Hne]; [by rewrite lookup_insert_eq; split; [done|by eexists]|].
    rewrite lookup_insert_ne by done. apply Hs.
  - intros b' Hb'. rewrite view_put. case_decide; auto.
Qed.

(** ** Inodes *)

Lemma IBLOCK_range inum : 0 <= inum < 208 -> IBLOCK inum mkfs_sb = 32 + inum / 16 /\ 32 <= IBLOCK inum mkfs_sb < 45.
Proof.
  intros Hi. unfold IBLOCK. change IPB with 16. change (sb_inodestart mkfs_sb) with 32.
  assert (0 <= inum / 16 < 13) by (Z.div_mod_to_equations; lia). rewrite u32_small by lia. lia.
Qed.

Lemma rinode_run f inum : img_ok f -> 0 <= inum < 208 -> rinode inum f = Ok (disk_inode (view f) inum) f.
Proof.
  intros Hi Hr. destruct (IBLOCK_range inum Hr) as [_ Hb]. unfold rinode. erewrite bind_ok; [done|].
  apply rsect_run; [done|]. change FSSIZE with 2000. lia.
Qed.

Lemma length_write_dinode data o ip : length (write_dinode data o ip) = length data.
Proof. unfold write_dinode. rewrite length_write_addrs. unfold set32, set16. by rewrite !length_set_le. Qed.

(** [write_dinode] and [read_dinode] ignore the in-core fields. *)
Lemma read_dinode_fields data o ip ip' :
  i_dev ip = i_dev ip' -> i_inum ip = i_inum ip' -> i_ref ip = i_ref ip' -> i_valid ip = i_valid ip' ->
  read_dinode data o ip = read_dinode data o ip'.
Proof. intros E1 E2 E3 E4. unfold read_dinode. congruence. Qed.

(** A value of [struct dinode] for inode [inum]. *)
Record dinode_ok (inum : Z) (ip : inode) : Prop := {
  dk_fits : dinode_fits ip;
  dk_core : i_dev ip = 0 /\ i_inum ip = inum /\ i_ref ip = 0 /\ i_valid ip = 0
}.

Lemma winode_run f inum ip :
  img_ok f -> 0 <= inum < 208 -> dinode_ok inum ip ->
  exists d, winode inum ip f = Ok tt (put (IBLOCK inum mkfs_sb) d f) /\ img_ok (put (IBLOCK inum mkfs_sb) d f) /\
    disk_inode (view (put (IBLOCK inum mkfs_sb) d f)) inum = ip /\
    forall inum', 0 <= inum' < 208 -> inum' <> inum -> disk_inode (view (put (IBLOCK inum mkfs_sb) d f)) inum' = disk_inode (view f) inum'.
Proof.
  intros Hi Hr [Hf (E1 & E2 & E3 & E4)]. destruct (IBLOCK_range inum Hr) as [Eb Hb]. set (B := IBLOCK inum mkfs_sb) in *.
  assert (0 <= B < FSSIZE) as HB by (change FSSIZE with 2000; lia). pose proof (im_len _ Hi B HB) as Hlen.
  exists (write_dinode (view f B) (dinode_off inum) ip). split_and!.
  - unfold winode. fold B. erewrite bind_ok by by apply rsect_run. done.
  - apply put_ok; [done|done|]. by rewrite length_write_dinode.
  - unfold disk_inode. fold B. rewrite view_put, decide_True by done. rewrite (read_dinode_fields _ _ _ ip) by done.
    by apply read_write_dinode.
  - intros inum' Hr' Hne. destruct (IBLOCK_range inum' Hr') as [Eb' _]. unfold disk_inode. rewrite view_put.
    case_decide as HE; [|done]. rewrite HE. apply read_write_dinode_other; [apply Hf|]. change IPB with 16.
    rewrite Eb, Eb' in HE. Z.div_mod_to_equations. lia.
Qed.

(** ** Files and their blocks *)

(** An inode, the bytes of its data blocks, the data blocks and the indirect
    block or 0. *)
Record node := mknode {
  n_ip : inode;
  n_data : list Z;
  n_blocks : list Z;
  n_ind : Z }.

(** The blocks of a file. *)
Definition own (g : node) : list Z := n_blocks g ++ if n_ind g =? 0 then [] else [n_ind g].

Record node_ok (V : Z -> list Z) (g : node) : Prop := {
  nk_len : length (i_addrs (n_ip g)) = 13%nat;
  nk_direct : forall j, (j < 12)%nat -> i_addrs (n_ip g) !! j = Some (default 0 (n_blocks g !! j));
  nk_ind : i_addrs (n_ip g) !! 12%nat = Some (n_ind g);
  nk_small : n_ind g = 0 -> (length (n_blocks g) <= 12)%nat;
  nk_table : n_ind g <> 0 -> forall j, (j < 256)%nat -> get32 (V (n_ind g)) (4 * Z.of_nat j) = default 0 (n_blocks g !! (12 + j)%nat);
  nk_max : (length (n_blocks g) <= 268)%nat;
  nk_data : mjoin (V <$> n_blocks g) = n_data g
}.

Lemma own_block g b : b ∈ n_blocks g -> b ∈ own g.
Proof. intros Hb. unfold own. apply elem_of_app. by left. Qed.

Lemma own_ind g : n_ind g <> 0 -> n_ind g ∈ own g.
Proof. intros Hi. unfold own. apply elem_of_app. right. destruct (Z.eqb_spec (n_ind g) 0); [done|]. by left. Qed.

Lemma node_ok_ext V V' g : (forall b, b ∈ own g -> V' b = V b) -> node_ok V g -> node_ok V' g.
Proof.
  intros He [Hl Hd Hi Hs Ht Hm Hda]. split; try done.
  - intros Hn j Hj. rewrite (He _ (own_ind g Hn)). auto.
  - rewrite <- Hda. f_equal. apply list_fmap_ext. intros j b Hb. apply He, own_block. by eapply list_elem_of_lookup_2.
Qed.

(** The image holds the files [G], which own the blocks that are in use; the
    others are zero. *)
Record blocks_ok (f : mkfs) (G : list node) : Prop := {
  bk_img : img_ok f;
  bk_range : nmeta <= f_freeblock f <= FSSIZE;
  bk_fresh : forall b, f_freeblock f <= b < FSSIZE -> view f b = zero_block;
  bk_own : mjoin (own <$> G) ≡ₚ seqZ nmeta (f_freeblock f - nmeta);
  bk_node : forall i g, G !! i = Some g -> node_ok (view f) g
}.

Lemma own_split G i g : G !! i = Some g ->
  mjoin (own <$> G) ≡ₚ own g ++ mjoin (own <$> delete i G).
Proof.
  revert i. induction G as [|h G IH]; intros [|i] Hg; try done; cbn in *; [by injection Hg as ->|].
  rewrite (IH i Hg). rewrite !app_assoc. by rewrite (Permutation_app_comm (own h) (own g)).
Qed.

Lemma own_insert G i g g' new : G !! i = Some g -> own g' ≡ₚ own g ++ new ->
  mjoin (own <$> <[i := g']> G) ≡ₚ mjoin (own <$> G) ++ new.
Proof.
  revert i. induction G as [|h G IH]; intros [|i] Hg Ho; try done; cbn in *.
  - injection Hg as ->. rewrite Ho. rewrite <- !app_assoc. by rewrite (Permutation_app_comm new).
  - rewrite (IH i Hg Ho). by rewrite app_assoc.
Qed.

Lemma own_in G i g b : G !! i = Some g -> b ∈ own g -> b ∈ mjoin (own <$> G).
Proof. intros Hg Hb. rewrite (own_split G i g Hg). apply elem_of_app. by left. Qed.

Lemma own_apart G i j g h b :
  NoDup (mjoin (own <$> G)) -> G !! i = Some g -> G !! j = Some h -> i <> j -> b ∈ own g -> b ∉ own h.
Proof.
  intros Hnd Hg Hh Hne Hb Hb'. rewrite (own_split G i g Hg) in Hnd. apply NoDup_app in Hnd as (_ & Hd & _). apply (Hd b Hb).
  destruct (decide (j < i)%nat).
  - apply (own_in _ j h); [|done]. by rewrite list_lookup_delete_lt.
  - apply (own_in _ (j - 1) h); [|done]. rewrite list_lookup_delete_ge by lia. by replace (S (j - 1)) with j by lia.
Qed.

Section update.
Context (f : mkfs) (G : list node) (Hok : blocks_ok f G).

Lemma own_nodup : NoDup (mjoin (own <$> G)).
Proof. rewrite (bk_own _ _ Hok). apply NoDup_seqZ. Qed.

Lemma own_range i g b : G !! i = Some g -> b ∈ own g -> nmeta <= b < f_freeblock f.
Proof. intros Hg Hb. apply (own_in _ _ _ _ Hg) in Hb. rewrite (bk_own _ _ Hok) in Hb. apply elem_of_seqZ in Hb. lia. Qed.

(** Changing the blocks of one file, and giving it the next [m] blocks. *)
Lemma blocks_update f' i g g' m :
  G !! i = Some g -> img_ok f' -> f_freeblock f' = f_freeblock f + m -> 0 <= m -> f_freeblock f + m <= FSSIZE ->
  own g' ≡ₚ own g ++ seqZ (f_freeblock f) m -> (forall b, b ∉ own g' -> view f' b = view f b) ->
  node_ok (view f') g' -> blocks_ok f' (<[i := g']> G).
Proof.
  intros Hg Hi Hfb Hm Hmax Ho Hv Hnode. pose proof Hok as [_ Hr Hfr Hown Hn].
  assert (forall b, b ∈ own g' -> b ∈ own g \/ f_freeblock f <= b < f_freeblock f + m) as Hin.
  { intros b Hb. rewrite Ho in Hb. apply elem_of_app in Hb as [Hb|Hb]; [by left|right]. by apply elem_of_seqZ in Hb. }
  split; [done|lia| | |].
  - intros b Hb. rewrite Hv; [apply Hfr; lia|]. intros [Hb'|Hb']%Hin; [|lia]. apply (own_range _ _ _ Hg) in Hb'. lia.
  - rewrite (own_insert G i g g' _ Hg Ho), Hown, Hfb. replace (f_freeblock f + m - nmeta) with (f_freeblock f - nmeta + m) by lia.
    rewrite seqZ_app by lia. by replace (nmeta + (f_freeblock f - nmeta)) with (f_freeblock f) by lia.
  - intros j h Hj. destruct (decide (j = i)) as [->|Hne].
    + rewrite list_lookup_insert_eq in Hj by (by eapply lookup_lt_Some). by injection Hj as <-.
    + rewrite list_lookup_insert_ne in Hj by done. eapply node_ok_ext; [|by eapply Hn]. intros b Hb. apply Hv.
      intros [Hb'|Hb']%Hin.
      * by apply (own_apart _ _ _ _ _ b own_nodup Hg Hj).
      * apply (own_range _ _ _ Hj) in Hb. lia.
Qed.

Lemma block_xint i g b : G !! i = Some g -> b ∈ own g -> xint b = b /\ b <> 0 /\ 0 <= b < FSSIZE.
Proof.
  intros Hg Hb. pose proof (own_range _ _ _ Hg Hb) as Hr. pose proof (bk_range _ _ Hok). change nmeta with 46 in *. change FSSIZE with 2000 in *.
  rewrite xint_small by lia. lia.
Qed.

Lemma node_ind_some i g k x : G !! i = Some g -> n_blocks g !! k = Some x -> (12 <= k)%nat -> n_ind g <> 0.
Proof.
  intros Hg Hk Hle Hz. apply (nk_small _ _ (bk_node _ _ Hok _ _ Hg)) in Hz. apply lookup_lt_Some in Hk. lia.
Qed.

(** A block that the file has. *)
Lemma iappend_block_old i g k x :
  G !! i = Some g -> n_blocks g !! k = Some x -> iappend_block (n_ip g) (Z.of_nat k) f = Ok (n_ip g, x) f.
Proof.
  intros Hg Hk. pose proof (bk_node _ _ Hok _ _ Hg) as Hn. apply lookup_lt_Some in Hk as Hlt. pose proof (nk_max _ _ Hn).
  destruct (block_xint i g x Hg) as (Hx & Hx0 & _); [by eapply own_block, list_elem_of_lookup_2|].
  unfold iappend_block. change NDIRECT with 12. destruct (Z.ltb_spec (Z.of_nat k) 12) as [Hd|Hd].
  - rewrite Nat2Z.id, (nk_direct _ _ Hn) by lia. rewrite Hk. cbn [default from_option id]. rewrite Hx.
    by destruct (Z.eqb_spec x 0).
  - pose proof (node_ind_some i g k x Hg Hk ltac:(lia)) as Hi.
    destruct (block_xint i g (n_ind g) Hg (own_ind g Hi)) as (Hxi & _ & Hri).
    unfold iappend_ind. change (Z.to_nat NDIRECT) with 12%nat. rewrite (nk_ind _ _ Hn). cbn [default from_option id]. rewrite Hxi.
    destruct (Z.eqb_spec (n_ind g) 0); [done|]. rewrite bind_ret. erewrite bind_ok by (apply rsect_run; [apply Hok|done]).
    replace (4 * (Z.of_nat k - 12)) with (4 * Z.of_nat (k - 12)) by lia. rewrite (nk_table _ _ Hn Hi) by lia.
    replace (12 + (k - 12))%nat with k by lia. rewrite Hk. cbn [default from_option id]. rewrite Hx. by destruct (Z.eqb_spec x 0).
Qed.

(** The next free block. *)
Definition bump (f : mkfs) : mkfs := f <| f_freeblock := f_freeblock f + 1 |>.

Lemma bump_img : img_ok (bump f).
Proof. destruct (bk_img _ _ Hok). by split. Qed.

Lemma next_block_run : f_freeblock f < FSSIZE -> next_block f = Ok (f_freeblock f) (bump f).
Proof.
  intros Hlt. pose proof (bk_range _ _ Hok). change nmeta with 46 in *. change FSSIZE with 2000 in *.
  unfold next_block. rewrite bind_gets. unfold bump. by rewrite u32_small by lia.
Qed.

Lemma fresh_block : f_freeblock f < FSSIZE ->
  view f (f_freeblock f) = zero_block /\ xint (f_freeblock f) = f_freeblock f /\ f_freeblock f <> 0 /\ seqZ (f_freeblock f) 1 = [f_freeblock f].
Proof.
  intros Hlt. pose proof (bk_range _ _ Hok) as Hr. split; [apply (bk_fresh _ _ Hok); lia|].
  change nmeta with 46 in *. change FSSIZE with 2000 in *. rewrite xint_small by lia. split_and!; [done|lia|]. by rewrite seqZ_cons by lia.
Qed.

Lemma get32_zero o : get32 zero_block o = 0.
Proof.
  unfold get32, zero_block. generalize (Z.to_nat o) as j. intros j. assert (forall j, u8 (default 0 (replicate (Z.to_nat BSIZE) 0 !! j)) = 0) as Hz.
  { intros k. destruct (replicate _ _ !! k) as [x|] eqn:E; [|done]. by apply lookup_replicate in E as [-> _]. }
  cbn [get_le]. by rewrite !Hz.
Qed.

Lemma default_snoc (l : list Z) x j : default 0 ((l ++ [x]) !! j) = if decide (j = length l) then x else default 0 (l !! j).
Proof.
  case_decide as Hj; [subst j; by rewrite list_lookup_middle|]. destruct (decide (j < length l)%nat).
  - by rewrite lookup_app_l.
  - rewrite lookup_app_r by lia. rewrite (lookup_ge_None_2 l) by lia. by rewrite lookup_ge_None_2 by (cbn; lia).
Qed.

Lemma mjoin_snoc (V : Z -> list Z) l x : mjoin (V <$> l ++ [x]) = mjoin (V <$> l) ++ V x.
Proof. rewrite fmap_app, join_app. cbn. by rewrite app_nil_r. Qed.

(** A new direct block. *)
Lemma iappend_block_direct i g :
  G !! i = Some g -> (length (n_blocks g) < 12)%nat -> f_freeblock f < FSSIZE ->
  let g' := mknode ((n_ip g) <| i_addrs ::= insert (length (n_blocks g)) (f_freeblock f) |>) (n_data g ++ zero_block)
              (n_blocks g ++ [f_freeblock f]) (n_ind g) in
  n_ind g = 0 ->
  iappend_block (n_ip g) (Z.of_nat (length (n_blocks g))) f = Ok (n_ip g', f_freeblock f) (bump f) /\ blocks_ok (bump f) (<[i := g']> G).
Proof.
  intros Hg Hk Hlt g' Hind. pose proof (bk_node _ _ Hok _ _ Hg) as [Hl Hd Hi Hs Ht Hm Hda]. destruct (fresh_block Hlt) as (Hz & Hx & Hx0 & Hseq). split.
  - unfold iappend_block. change NDIRECT with 12. destruct (Z.ltb_spec (Z.of_nat (length (n_blocks g))) 12); [|lia].
    rewrite Nat2Z.id, Hd, (lookup_ge_None_2 (n_blocks g)) by lia. cbn [default from_option id]. change (xint 0 =? 0) with true. cbn match.
    erewrite bind_ok by by apply next_block_run. by rewrite !Hx.
  - apply (blocks_update (bump f) i g g' 1); [done|apply bump_img|done|lia|lia| |done|].
    + unfold own. cbn. rewrite Hseq. rewrite <- !app_assoc. f_equiv. apply Permutation_app_comm.
    + split; cbn; try done.
      * by rewrite length_insert.
      * intros j Hj. rewrite default_snoc. case_decide as Hjk; [subst j; by rewrite list_lookup_insert_eq by lia|].
        rewrite list_lookup_insert_ne by done. auto.
      * rewrite list_lookup_insert_ne by lia. done.
      * intros _. rewrite length_app. cbn. lia.
      * rewrite length_app. cbn. lia.
      * change (view (bump f)) with (view f). by rewrite mjoin_snoc, Hda, Hz.
Qed.

(** A new indirect block, which is zero. *)
Lemma iappend_ind_new i g :
  G !! i = Some g -> n_ind g = 0 -> f_freeblock f < FSSIZE ->
  let g' := mknode ((n_ip g) <| i_addrs ::= insert 12%nat (f_freeblock f) |>) (n_data g) (n_blocks g) (f_freeblock f) in
  iappend_ind (n_ip g) f = Ok (n_ip g', f_freeblock f) (bump f) /\ blocks_ok (bump f) (<[i := g']> G).
Proof.
  intros Hg Hind Hlt g'. pose proof (bk_node _ _ Hok _ _ Hg) as [Hl Hd Hi Hs Ht Hm Hda]. destruct (fresh_block Hlt) as (Hz & Hx & Hx0 & Hseq). split.
  - unfold iappend_ind. change (Z.to_nat NDIRECT) with 12%nat. rewrite Hi, Hind. cbn [default from_option id]. change (xint 0 =? 0) with true. cbn match.
    erewrite bind_ok by by apply next_block_run. by rewrite !Hx.
  - apply (blocks_update (bump f) i g g' 1); [done|apply bump_img|done|lia|lia| |done|].
    + unfold own. cbn. rewrite Hseq, Hind. cbn. rewrite app_nil_r. by destruct (Z.eqb_spec (f_freeblock f) 0).
    + specialize (Hs Hind). split; cbn; try done.
      * by rewrite length_insert.
      * intros j Hj. rewrite list_lookup_insert_ne by lia. auto.
      * by rewrite list_lookup_insert_eq by lia.
      * intros _ j Hj. change (view (bump f)) with (view f). rewrite Hz, get32_zero. by rewrite lookup_ge_None_2 by lia.
Qed.

(** A new block in the indirect block. *)
Lemma iappend_block_table i g :
  G !! i = Some g -> n_ind g <> 0 -> (12 <= length (n_blocks g) < 268)%nat -> f_freeblock f < FSSIZE ->
  let o := 4 * (Z.of_nat (length (n_blocks g)) - NDIRECT) in
  let f' := put (n_ind g) (set32 (view f (n_ind g)) o (f_freeblock f)) (bump f) in
  let g' := mknode (n_ip g) (n_data g ++ zero_block) (n_blocks g ++ [f_freeblock f]) (n_ind g) in
  get32 (view f (n_ind g)) o = 0 /\ blocks_ok f' (<[i := g']> G).
Proof.
  intros Hg Hind Hk Hlt o f' g'. pose proof (bk_node _ _ Hok _ _ Hg) as [Hl Hd Hi Hs Ht Hm Hda]. destruct (fresh_block Hlt) as (Hz & Hx & Hx0 & Hseq).
  destruct (block_xint i g (n_ind g) Hg (own_ind g Hind)) as (_ & _ & Hri). pose proof (im_len _ (bk_img _ _ Hok) _ Hri) as Hlen.
  change (Z.to_nat BSIZE) with 1024%nat in Hlen. set (k := length (n_blocks g)) in *. change NDIRECT with 12 in o.
  assert (f_freeblock f <> n_ind g) as Hne by (intros E; pose proof (own_range i g _ Hg (own_ind g Hind)); lia).
  assert (n_ind g ∉ n_blocks g) as Hnin.
  { pose proof own_nodup as Hnd. rewrite (own_split G i g Hg) in Hnd. apply NoDup_app in Hnd as (Hnd & _ & _). unfold own in Hnd.
    destruct (Z.eqb_spec (n_ind g) 0); [done|]. apply NoDup_app in Hnd as (_ & Hd' & _). intros Hin. apply (Hd' _ Hin). by left. }
  split.
  - unfold o. replace (4 * (Z.of_nat k - 12)) with (4 * Z.of_nat (k - 12)) by lia. rewrite (Ht Hind) by lia.
    by rewrite lookup_ge_None_2 by lia.
  - apply (blocks_update f' i g g' 1); [done|apply put_ok; [apply bump_img|done|by rewrite length_set32]|done|lia|lia| | |].
    + unfold own. cbn. rewrite Hseq. rewrite <- !app_assoc. f_equiv. apply Permutation_app_comm.
    + intros b Hb. unfold f'. rewrite view_put. case_decide as E; [|done]. subst b. exfalso. by apply Hb, (own_ind g').
    + split; cbn; try done.
      * intros j Hj. rewrite default_snoc. rewrite decide_False by lia. auto.
      * intros _ j Hj. unfold f'. rewrite view_put, decide_True by done. rewrite default_snoc. change (view (bump f)) with (view f). case_decide as E.
        -- replace (4 * Z.of_nat j) with o by (unfold o; lia). rewrite get32_set32 by (unfold o; lia). apply u32_small.
           pose proof (bk_range _ _ Hok). change nmeta with 46 in *. change FSSIZE with 2000 in *. lia.
        -- rewrite get32_set32_out by (unfold o; lia). auto.
      * rewrite length_app. cbn. lia.
      * rewrite mjoin_snoc. unfold f' at 2. rewrite view_put, decide_False by done. change (view (bump f)) with (view f). rewrite Hz, <- Hda. f_equal. f_equal.
        apply list_fmap_ext. intros j b Hb. unfold f'. rewrite view_put, decide_False; [done|]. intros ->. apply Hnin. by eapply list_elem_of_lookup_2.
Qed.

End update.

(** ** Appending *)

(** Blocks of the layout before the data, and inodes, are not affected. *)
Definition same_meta (f f' : mkfs) : Prop :=
  f_freeinode f' = f_freeinode f /\ forall b, b < nmeta -> view f' b = view f b.

#[export] Instance same_meta_preorder : PreOrder same_meta.
Proof. split; [done|]. intros f1 f2 f3 [E1 H1] [E2 H2]. split; [congruence|]. intros b Hb. by rewrite H2, H1. Qed.

(** Only the block addresses differ. *)
Definition same_inode (ip ip' : inode) : Prop := exists a, ip' = ip <| i_addrs := a |>.

#[export] Instance same_inode_preorder : PreOrder same_inode.
Proof.
  split.
  - intros ip. exists (i_addrs ip). by destruct ip.
  - intros ip1 ip2 ip3 [a ->] [b ->]. by exists b.
Qed.

(** There is an indirect block only if it is needed. *)
Definition tight (g : node) : Prop := n_ind g = 0 <-> (length (n_blocks g) <= 12)%nat.

(** The blocks that block [k] of a file takes. *)
Definition need (k : nat) : Z := if (k =? 12)%nat then 2 else 1.

Lemma bump_meta f : same_meta f (bump f).
Proof. done. Qed.

Lemma put_meta b d f : nmeta <= b -> same_meta f (put b d f).
Proof. intros Hb. split; [done|]. intros b' Hb'. rewrite view_put. by rewrite decide_False by lia. Qed.

(** The indirect block, for a file with [k >= 12] blocks. *)
Lemma iappend_ind_run f G i g :
  blocks_ok f G -> G !! i = Some g -> tight g -> (12 <= length (n_blocks g))%nat ->
  f_freeblock f + need (length (n_blocks g)) <= FSSIZE ->
  exists f1 g1, iappend_ind (n_ip g) f = Ok (n_ip g1, n_ind g1) f1 /\ blocks_ok f1 (<[i := g1]> G) /\ n_blocks g1 = n_blocks g /\
    n_data g1 = n_data g /\ n_ind g1 <> 0 /\ f_freeblock f1 = f_freeblock f + need (length (n_blocks g)) - 1 /\ same_meta f f1 /\
    same_inode (n_ip g) (n_ip g1).
Proof.
  intros Hok Hg Ht Hk Hroom. pose proof (bk_node _ _ Hok _ _ Hg) as Hn. unfold need in *. destruct (Nat.eqb_spec (length (n_blocks g)) 12) as [Ek|Ek].
  - assert (n_ind g = 0) as Hi by (apply Ht; lia). destruct (fresh_block f G Hok ltac:(lia)) as (_ & _ & Hx0 & _).
    destruct (iappend_ind_new f G Hok i g Hg Hi ltac:(lia)) as [E Hok1]. eexists _, _.
    split_and!; [exact E|exact Hok1|done|done|done|cbn; lia|apply bump_meta|by eexists].
  - assert (n_ind g <> 0) as Hi by (intros Hi; apply Ht in Hi; lia). destruct (block_xint f G Hok i g _ Hg (own_ind g Hi)) as (Hx & _).
    exists f, g. split_and!; try done; [|by rewrite list_insert_id|lia].
    unfold iappend_ind. change (Z.to_nat NDIRECT) with 12%nat. rewrite (nk_ind _ _ Hn). cbn [default from_option id]. rewrite Hx.
    by destruct (Z.eqb_spec (n_ind g) 0).
Qed.

Lemma iappend_block_new f G i g :
  blocks_ok f G -> G !! i = Some g -> tight g -> (length (n_blocks g) < 268)%nat ->
  f_freeblock f + need (length (n_blocks g)) <= FSSIZE ->
  exists f' g' x, iappend_block (n_ip g) (Z.of_nat (length (n_blocks g))) f = Ok (n_ip g', x) f' /\
    blocks_ok f' (<[i := g']> G) /\ n_blocks g' = n_blocks g ++ [x] /\ n_data g' = n_data g ++ zero_block /\ tight g' /\
    f_freeblock f' = f_freeblock f + need (length (n_blocks g)) /\ same_meta f f' /\ same_inode (n_ip g) (n_ip g').
Proof.
  intros Hok Hg Ht Hk Hroom. set (k := length (n_blocks g)) in *.
  assert (forall g', n_blocks g' = n_blocks g ++ [f_freeblock f] -> (n_ind g' = 0 <-> (k < 12)%nat) -> tight g') as Htight.
  { intros g' E Hi. unfold tight. rewrite E, length_app. cbn. fold k. rewrite Hi. lia. }
  destruct (decide (k < 12)%nat) as [Hlt|Hge].
  { assert (need k = 1) as Hneed by (unfold need; destruct (Nat.eqb_spec k 12); lia). rewrite Hneed in *. assert (n_ind g = 0) as Hi by (apply Ht; lia).
    destruct (iappend_block_direct f G Hok i g Hg Hlt ltac:(lia) Hi) as [E Hok']. eexists _, _, _.
    split_and!; [exact E|exact Hok'|done|done|apply Htight; [done|cbn; tauto]|done|apply bump_meta|by eexists]. }
  destruct (iappend_ind_run f G i g Hok Hg Ht ltac:(lia) Hroom) as (f1 & g1 & E1 & Hok1 & Hb1 & Hd1 & Hi1 & Hf1 & Hm1 & Hsi1). fold k in Hf1.
  assert ((<[i := g1]> G) !! i = Some g1) as Hg1 by (apply list_lookup_insert_eq; by eapply lookup_lt_Some).
  assert (f_freeblock f1 < FSSIZE) as Hlt1 by lia.
  destruct (iappend_block_table f1 _ Hok1 i g1 Hg1 Hi1) as [Ez Hok2]; [rewrite Hb1; fold k; lia|done|].
  destruct (fresh_block f1 _ Hok1 Hlt1) as (_ & Hx & _). destruct (block_xint f1 _ Hok1 i g1 _ Hg1 (own_ind g1 Hi1)) as (_ & _ & Hri).
  pose proof (own_range f1 _ Hok1 i g1 _ Hg1 (own_ind g1 Hi1)) as Hrange. rewrite list_insert_insert_eq in Hok2. rewrite Hb1 in *. fold k in Ez, Hok2.
  eexists _, _, _. split; [|split; [exact Hok2|]].
  - unfold iappend_block. change NDIRECT with 12. destruct (Z.ltb_spec (Z.of_nat k) 12); [lia|]. erewrite bind_ok by exact E1. cbn beta iota.
    erewrite bind_ok by (apply rsect_run; [apply Hok1|done]). change 12 with NDIRECT. rewrite Ez. cbn [Z.eqb].
    erewrite bind_ok by by apply (next_block_run f1 _ Hok1). rewrite !Hx. done.
  - cbn [n_blocks n_data n_ip n_ind]. rewrite Hd1. split_and!; [done|done| | | |done].
    + unfold tight. cbn [n_ind n_blocks]. rewrite length_app. cbn. fold k. split; [done|lia].
    + cbn. lia.
    + etrans; [exact Hm1|]. etrans; [apply bump_meta|apply put_meta; lia].
Qed.

Lemma splice_app_r (a b c : list Z) o : 0 <= o -> splice (a ++ b) (Z.of_nat (length a) + o) c = a ++ splice b o c.
Proof.
  intros Ho. unfold splice. replace (Z.to_nat (Z.of_nat (length a) + o)) with (length a + Z.to_nat o)%nat by lia.
  rewrite take_app_add, <- Nat.add_assoc, drop_app_add. by rewrite <- app_assoc.
Qed.

Lemma splice_app_l (a b c : list Z) o :
  0 <= o -> (Z.to_nat o + length c <= length a)%nat -> splice (a ++ b) o c = splice a o c ++ b.
Proof. intros Ho Hl. unfold splice. rewrite take_app_le, drop_app_le by lia. by rewrite <- !app_assoc. Qed.

Lemma length_blocks f G i g l :
  blocks_ok f G -> G !! i = Some g -> (forall b, b ∈ l -> b ∈ n_blocks g) -> length (mjoin (view f <$> l)) = (1024 * length l)%nat.
Proof.
  intros Hok Hg Hl. induction l as [|b l IH]; [done|]. change (mjoin (view f <$> b :: l)) with (view f b ++ mjoin (view f <$> l)).
  rewrite length_app, IH by (intros b' Hb'; apply Hl; by right). cbn [length].
  destruct (block_xint f G Hok i g b Hg) as (_ & _ & Hr); [apply own_block, Hl; left|]. rewrite (im_len _ (bk_img _ _ Hok) b Hr).
  change (Z.to_nat BSIZE) with 1024%nat. lia.
Qed.

Lemma node_data_length f G i g : blocks_ok f G -> G !! i = Some g -> length (n_data g) = (1024 * length (n_blocks g))%nat.
Proof. intros Hok Hg. rewrite <- (nk_data _ _ (bk_node _ _ Hok _ _ Hg)). by apply (length_blocks f G i g). Qed.

(** Writing into one block of a file. *)
Lemma node_write f G i g k x o c :
  blocks_ok f G -> G !! i = Some g -> n_blocks g !! k = Some x -> 0 <= o -> (Z.to_nat o + length c <= 1024)%nat ->
  blocks_ok (put x (splice (view f x) o c) f)
    (<[i := mknode (n_ip g) (splice (n_data g) (Z.of_nat (1024 * k) + o) c) (n_blocks g) (n_ind g)]> G).
Proof.
  intros Hok Hg Hk Ho Hc. pose proof (bk_node _ _ Hok _ _ Hg) as [Hl Hd Hi Hs Ht Hm Hda]. set (f' := put x _ f). set (g' := mknode _ _ _ _).
  assert (x ∈ own g) as Hx by (by eapply own_block, list_elem_of_lookup_2). destruct (block_xint f G Hok i g x Hg Hx) as (_ & _ & Hr).
  pose proof (im_len _ (bk_img _ _ Hok) x Hr) as Hlen. change (Z.to_nat BSIZE) with 1024%nat in Hlen.
  assert (NoDup (own g)) as Hnd.
  { pose proof (own_nodup f G Hok) as Hnd. rewrite (own_split G i g Hg) in Hnd. by apply NoDup_app in Hnd as (? & _). }
  apply list_elem_of_split_length in Hk as (l1 & l2 & Esp & ->). unfold own in Hnd. rewrite Esp, <- app_assoc in Hnd.
  apply NoDup_app in Hnd as (_ & Hnd1 & Hnd2). cbn in Hnd2. apply NoDup_cons in Hnd2 as [Hnd2 _].
  assert (x ∉ l1) as Hl1 by (intros Hin; apply (Hnd1 x Hin); left). assert (x ∉ l2) as Hl2 by (intros Hin; apply Hnd2, elem_of_app; by left).
  assert (forall l, x ∉ l -> mjoin (view f' <$> l) = mjoin (view f <$> l)) as Hsame.
  { intros l Hl'. f_equal. apply list_fmap_ext. intros j b Hb. unfold f'. rewrite view_put, decide_False; [done|]. intros ->. apply Hl'.
    by eapply list_elem_of_lookup_2. }
  apply (blocks_update f G Hok f' i g g' 0); [done|apply put_ok; [apply Hok|done|]|cbn; lia|lia|pose proof (bk_range _ _ Hok); lia| | |].
  - rewrite length_splice by lia. done.
  - unfold own. cbn. by rewrite app_nil_r.
  - intros b Hb. unfold f'. rewrite view_put. case_decide as E; [|done]. subst b. exfalso. by apply Hb.
  - split; unfold g'; cbn [n_ip n_data n_blocks n_ind]; try done.
    + intros Hn j Hj. unfold f'. rewrite view_put, decide_False; [auto|]. intros E. apply Hnd2. rewrite <- E. apply elem_of_app. right.
      destruct (Z.eqb_spec (n_ind g) 0); [done|]. rewrite E. by left.
    + rewrite <- Hda, Esp, !fmap_app, !join_app. change (mjoin (view f' <$> x :: l2)) with (view f' x ++ mjoin (view f' <$> l2)).
      change (mjoin (view f <$> x :: l2)) with (view f x ++ mjoin (view f <$> l2)). rewrite !Hsame by done. unfold f'. rewrite view_put, decide_True by done.
      pose proof (length_blocks f G i g l1 Hok Hg) as Hlb. rewrite Esp in Hlb. rewrite <- Hlb by (intros b Hb; apply elem_of_app; by left).
      rewrite splice_app_r by lia. by rewrite splice_app_l by lia.
Qed.
