(* ===== verification/MkfsAppend.v ===== *)
(** * [iappend]

    Appending bytes to a file of the image. *)

From S2P Require Import Prelude Riscv Kernel Bio Bytes Fs FsBlocks FsFile FsWrite Mkfs MkfsSpec.

(** The blocks that a file of [n] bytes takes: data blocks, and the indirect
    block for more than [NDIRECT] of them. *)
Definition nblk (n : Z) : Z := (n + 1023) / 1024.

Definition cost (n : Z) : Z := nblk n + if 12 <? nblk n then 1 else 0.

Lemma nblk_mono n m : n <= m -> nblk n <= nblk m.
Proof. intros Hn. apply Z.div_le_mono; lia. Qed.

Lemma nblk_within k n : 1024 * k < n <= 1024 * (k + 1) -> nblk n = k + 1.
Proof. intros Hn. unfold nblk. symmetry. apply (Z.div_unique _ _ _ (n + 1023 - 1024 * (k + 1))); lia. Qed.

Lemma cost_mono n m : n <= m -> cost n <= cost m.
Proof. intros Hn%nblk_mono. unfold cost. destruct (Z.ltb_spec 12 (nblk n)), (Z.ltb_spec 12 (nblk m)); lia. Qed.

(** The file holds [bs], and zeros to the end of its last block. *)
Definition file_holds (g : node) (bs : list Z) : Prop :=
  tight g /\ exists pad, n_data g = bs ++ replicate pad 0 /\ (pad < 1024)%nat.

Lemma holds_blocks f G i g bs pad :
  blocks_ok f G -> G !! i = Some g -> n_data g = bs ++ replicate pad 0 -> (length bs + pad = 1024 * length (n_blocks g))%nat.
Proof. intros Hok Hg Hd. rewrite <- (node_data_length f G i g Hok Hg), Hd, length_app, length_replicate. done. Qed.

Lemma holds_nblk f G i g bs :
  blocks_ok f G -> G !! i = Some g -> file_holds g bs -> Z.of_nat (length (n_blocks g)) = nblk (Z.of_nat (length bs)).
Proof.
  intros Hok Hg (_ & pad & Hd & Hpad). pose proof (holds_blocks f G i g bs pad Hok Hg Hd) as Hl. unfold nblk.
  apply (Z.div_unique _ _ _ (1023 - Z.of_nat pad)); lia.
Qed.

(** The block for the byte after the end of the file. *)
Lemma append_block f G i g bs :
  let off := Z.of_nat (length bs) in let k := Z.to_nat (off / BSIZE) in
  blocks_ok f G -> G !! i = Some g -> file_holds g bs -> off < 268 * 1024 -> f_freeblock f + cost (off + 1) - cost off <= FSSIZE ->
  exists f1 g1 x, iappend_block (n_ip g) (off / BSIZE) f = Ok (n_ip g1, x) f1 /\ blocks_ok f1 (<[i := g1]> G) /\
    n_blocks g1 !! k = Some x /\ n_data g1 = bs ++ replicate (1024 * S k - length bs) 0 /\ tight g1 /\ length (n_blocks g1) = S k /\
    f_freeblock f1 = f_freeblock f + cost (off + 1) - cost off /\ same_meta f f1 /\ same_inode (n_ip g) (n_ip g1).
Proof.
  intros off k Hok Hg Hh Hmax Hroom. pose proof (holds_nblk f G i g bs Hok Hg Hh) as Hnb. fold off in Hnb.
  pose proof Hh as (Ht & pad & Hd & Hpad). pose proof (holds_blocks f G i g bs pad Hok Hg Hd) as Hl. change BSIZE with 1024 in *.
  assert (off / 1024 = Z.of_nat k) as Ek by (unfold k; rewrite Z2Nat.id; [done|apply Z.div_pos; lia]).
  pose proof (Z.div_mod off 1024 ltac:(lia)) as Hdm. pose proof (Z.mod_pos_bound off 1024 ltac:(lia)) as Hmb. rewrite Ek in Hdm.
  destruct (decide (pad = 0)%nat) as [->|Hp].
  - assert (length (n_blocks g) = k) as Hk by lia. rewrite app_nil_r in Hd.
    assert (nblk (off + 1) = Z.of_nat (S k)) as Hn1 by (rewrite (nblk_within (Z.of_nat k)); lia).
    assert (cost (off + 1) - cost off = need k) as Hcost.
    { unfold cost, need. rewrite Hn1, <- Hnb, Hk. destruct (Nat.eqb_spec k 12), (Z.ltb_spec 12 (Z.of_nat (S k))), (Z.ltb_spec 12 (Z.of_nat k)); lia. }
    destruct (iappend_block_new f G i g Hok Hg Ht) as (f1 & g1 & x & E & Hok1 & Hb1 & Hd1 & Ht1 & Hf1 & Hm1 & Hi1); [lia|rewrite Hk; lia|].
    exists f1, g1, x. rewrite Hk in *. rewrite Ek. split_and!; try done.
    + rewrite Hb1. rewrite <- Hk. by rewrite list_lookup_middle.
    + rewrite Hd1, Hd. f_equal. unfold zero_block. f_equal. change (Z.to_nat BSIZE) with 1024%nat. lia.
    + rewrite Hb1, length_app, Hk. cbn. lia.
    + lia.
  - assert (length (n_blocks g) = S k) as Hk by lia. destruct (lookup_lt_is_Some_2 (n_blocks g) k) as [x Hx]; [lia|].
    assert (nblk (off + 1) = nblk off) as Hn1 by (rewrite <- Hnb, (nblk_within (Z.of_nat k)); lia).
    assert (cost (off + 1) = cost off) as Hcost by (unfold cost; by rewrite Hn1).
    exists f, g, x. rewrite Ek, Hcost. split_and!; try done; [by apply (iappend_block_old f G Hok i)|by rewrite list_insert_id| |lia].
    rewrite Hd. do 2 f_equal. lia.
Qed.

Lemma splice_pad (bs c : list Z) pad :
  (length c <= pad)%nat -> splice (bs ++ replicate pad 0) (Z.of_nat (length bs)) c = (bs ++ c) ++ replicate (pad - length c) 0.
Proof.
  intros Hl. rewrite <- (Z.add_0_r (Z.of_nat (length bs))), splice_app_r by lia. rewrite <- app_assoc. f_equal. unfold splice. cbn.
  by rewrite drop_replicate.
Qed.

(** One round of the loop. *)
Lemma append_step f G i g bs p :
  let off := Z.of_nat (length bs) in
  blocks_ok f G -> G !! i = Some g -> file_holds g bs -> p <> [] -> off + Z.of_nat (length p) <= 268 * 1024 ->
  f_freeblock f + cost (off + Z.of_nat (length p)) - cost off <= FSSIZE ->
  exists f' g' c p', p = c ++ p' /\ c <> [] /\
    iappend_step (n_ip g, off, p) f = Ok (inl (n_ip g', Z.of_nat (length (bs ++ c)), p')) f' /\
    blocks_ok f' (<[i := g']> G) /\ file_holds g' (bs ++ c) /\
    f_freeblock f' = f_freeblock f + cost (Z.of_nat (length (bs ++ c))) - cost off /\ same_meta f f' /\ same_inode (n_ip g) (n_ip g').
Proof.
  intros off Hok Hg Hh Hp Hmax Hroom. assert (off = Z.of_nat (length bs)) as Eoff by done. assert (0 < length p)%nat as Hlp by (destruct p; [done|cbn; lia]).
  pose proof (cost_mono (off + 1) (off + Z.of_nat (length p)) ltac:(lia)) as Hmono.
  destruct (append_block f G i g bs Hok Hg Hh) as (f1 & g1 & x & E & Hok1 & Hx & Hd1 & Ht1 & Hb1 & Hf1 & Hm1 & Hi1); [fold off; lia..|].
  fold off in E, Hx, Hd1, Hb1, Hf1. change BSIZE with 1024 in *. set (k := Z.to_nat (off / 1024)) in *.
  assert (off / 1024 = Z.of_nat k) as Ek by (unfold k; rewrite Z2Nat.id; [done|apply Z.div_pos; lia]).
  pose proof (Z.div_mod off 1024 ltac:(lia)) as Hdm. pose proof (Z.mod_pos_bound off 1024 ltac:(lia)) as Hmb. rewrite Ek in Hdm.
  set (n1 := Z.min (Z.of_nat (length p)) ((Z.of_nat k + 1) * 1024 - off)). set (c := take (Z.to_nat n1) p).
  assert (Z.of_nat (length c) = n1 /\ 0 < n1 <= (Z.of_nat k + 1) * 1024 - off) as [Hlc Hn1] by (unfold c; rewrite length_take; lia).
  assert ((<[i := g1]> G) !! i = Some g1) as Hg1 by (apply list_lookup_insert_eq; by eapply lookup_lt_Some).
  pose proof (node_write f1 _ i g1 k x (off - Z.of_nat k * 1024) c Hok1 Hg1 Hx ltac:(lia) ltac:(lia)) as Hok2. rewrite list_insert_insert_eq in Hok2.
  assert (0 <= x < FSSIZE /\ nmeta <= x) as [Hrx Hmx].
  { assert (x ∈ own g1) as Ho by (by eapply own_block, list_elem_of_lookup_2). pose proof (own_range f1 _ Hok1 i g1 x Hg1 Ho).
    destruct (block_xint f1 _ Hok1 i g1 x Hg1 Ho) as (_ & _ & ?). split; [done|lia]. }
  eexists _, _, c, (drop (Z.to_nat n1) p). split; [unfold c; by rewrite take_drop|]. split; [by intros Hc; rewrite Hc in Hlc; cbn in Hlc; lia|].
  split; [|split; [exact Hok2|]].
  - unfold iappend_step. destruct (Z.ltb_spec 0 (Z.of_nat (length p))); [|lia]. cbn [negb]. change BSIZE with 1024. rewrite Ek.
    change MAXFILE with 268. destruct (Z.ltb_spec (Z.of_nat k) 268); [|lia]. cbn [negb]. rewrite <- Ek at 1. erewrite bind_ok by exact E. cbn beta iota.
    erewrite bind_ok by (apply rsect_run; [apply Hok1|done]). fold n1. fold c. rewrite length_app, Nat2Z.inj_add, Hlc. done.
  - cbn [n_ip]. split_and!; [|cbn; rewrite Hf1, length_app| |done].
    + split; [done|]. cbn [n_data]. rewrite Hd1. replace (Z.of_nat (1024 * k) + (off - Z.of_nat k * 1024)) with off by lia.
      exists (1024 * S k - length bs - length c)%nat. split; [apply splice_pad; lia|]. lia.
    + rewrite Nat2Z.inj_add, Hlc. fold off.
      unfold cost. rewrite (nblk_within (Z.of_nat k) (off + n1)), (nblk_within (Z.of_nat k) (off + 1)) by lia. done.
    + etrans; [exact Hm1|by apply put_meta].
Qed.

Lemma append_loop k : forall f G i g bs p,
  let off := Z.of_nat (length bs) in
  (length p < k)%nat -> blocks_ok f G -> G !! i = Some g -> file_holds g bs -> off + Z.of_nat (length p) <= 268 * 1024 ->
  f_freeblock f + cost (off + Z.of_nat (length p)) - cost off <= FSSIZE ->
  exists f' g', iter k iappend_step (n_ip g, off, p) f = Ok (n_ip g', off + Z.of_nat (length p)) f' /\
    blocks_ok f' (<[i := g']> G) /\ file_holds g' (bs ++ p) /\
    f_freeblock f' = f_freeblock f + cost (off + Z.of_nat (length p)) - cost off /\ same_meta f f' /\ same_inode (n_ip g) (n_ip g').
Proof.
  induction k as [|k IH]; intros f G i g bs p off Hk Hok Hg Hh Hmax Hroom; [lia|].
  destruct (decide (p = [])) as [->|Hp].
  - exists f, g. rewrite app_nil_r, list_insert_id by done. cbn [length]. rewrite Z.add_0_r. split; [by apply iter_leave|]. split_and!; try done. lia.
  - destruct (append_step f G i g bs p Hok Hg Hh Hp Hmax Hroom) as (f1 & g1 & c & p1 & -> & Hc & E & Hok1 & Hh1 & Hf1 & Hm1 & Hi1).
    assert (0 < length c)%nat by (destruct c; [done|cbn; lia]). erewrite iter_continue by exact E. fold off in Hf1.
    assert (Z.of_nat (length (bs ++ c)) + Z.of_nat (length p1) = off + Z.of_nat (length (c ++ p1))) as El by (unfold off; rewrite !length_app; lia).
    destruct (IH f1 (<[i := g1]> G) i g1 (bs ++ c) p1) as (f' & g' & E' & Hok' & Hh' & Hf' & Hm' & Hi').
    + rewrite length_app in Hk. lia.
    + done.
    + apply list_lookup_insert_eq. by eapply lookup_lt_Some.
    + done.
    + lia.
    + rewrite El. lia.
    + exists f', g'. rewrite El in E', Hf'. rewrite list_insert_insert_eq in Hok'. rewrite app_assoc.
      split_and!; [done|done|done|lia|by etrans|by etrans].
Qed.

(** ** Inodes in the image *)

(** The fields of the inode of a file of type [ty] with [n] bytes. *)
Definition file_inode (inum ty n : Z) : inode := (dinode0 inum) <| i_type := ty |> <| i_nlink := 1 |> <| i_size := n |>.

(** The blocks of all files. *)
Definition total (L : list (Z * list Z)) : Z := foldr (fun x n => cost (Z.of_nat (length x.2)) + n) 0 L.

(** The image holds the files [L], type and contents, as inodes 1, 2, ... *)
Record holds_files (f : mkfs) (G : list node) (L : list (Z * list Z)) : Prop := {
  hf_blocks : blocks_ok f G;
  hf_len : length G = length L /\ (length L <= 200)%nat;
  hf_free : f_freeinode f = 1 + Z.of_nat (length L);
  hf_total : f_freeblock f = nmeta + total L;
  hf_file : forall i g ty bs, G !! i = Some g -> L !! i = Some (ty, bs) -> file_holds g bs /\ - 2 ^ 15 <= ty < 2 ^ 15 /\
    disk_inode (view f) (1 + Z.of_nat i) = n_ip g /\ same_inode (file_inode (1 + Z.of_nat i) ty (Z.of_nat (length bs))) (n_ip g);
  hf_none : forall inum, Z.of_nat (length L) < inum < 208 -> i_type (disk_inode (view f) inum) = 0
}.

Lemma node_addrs f G i g : blocks_ok f G -> G !! i = Some g -> Forall (fun a => 0 <= a < 2 ^ 32) (i_addrs (n_ip g)).
Proof.
  intros Hok Hg. pose proof (bk_node _ _ Hok _ _ Hg) as Hn. pose proof (bk_range _ _ Hok) as Hr. change nmeta with 46 in Hr. change FSSIZE with 2000 in Hr.
  assert (forall b, b ∈ own g -> 0 <= b < 2 ^ 32) as Hb.
  { intros b Hb. apply (own_range f G Hok i g b Hg) in Hb. change nmeta with 46 in Hb. lia. }
  apply Forall_lookup. intros j a Ha. apply lookup_lt_Some in Ha as Hj. rewrite (nk_len _ _ Hn) in Hj. destruct (decide (j = 12)%nat) as [->|Hne].
  - rewrite (nk_ind _ _ Hn) in Ha. injection Ha as <-. destruct (decide (n_ind g = 0)) as [->|Hi]; [lia|]. by apply Hb, own_ind.
  - rewrite (nk_direct _ _ Hn) in Ha by lia. injection Ha as <-. destruct (n_blocks g !! j) as [b|] eqn:E; [|cbn; lia].
    by eapply Hb, own_block, list_elem_of_lookup_2.
Qed.

Lemma node_dinode f G i g inum ty n :
  blocks_ok f G -> G !! i = Some g -> - 2 ^ 15 <= ty < 2 ^ 15 -> 0 <= n < 2 ^ 32 -> same_inode (file_inode inum ty n) (n_ip g) ->
  dinode_ok inum (n_ip g).
Proof.
  intros Hok Hg Hty Hn [a E]. pose proof (node_addrs f G i g Hok Hg) as Ha. pose proof (nk_len _ _ (bk_node _ _ Hok _ _ Hg)) as Hl.
  rewrite E in *. split; [|done]. split; cbn in *; try done.
Qed.

Lemma total_cons x L : total (x :: L) = cost (Z.of_nat (length x.2)) + total L.
Proof. done. Qed.

Lemma total_insert L i ty bs ty' bs' :
  L !! i = Some (ty, bs) -> total (<[i := (ty', bs')]> L) = total L + cost (Z.of_nat (length bs')) - cost (Z.of_nat (length bs)).
Proof.
  revert i. induction L as [|x L IH]; intros [|i] Hi; try done.
  - injection Hi as ->. change (<[0%nat := (ty', bs')]> ((ty, bs) :: L)) with ((ty', bs') :: L). rewrite !total_cons. cbn [snd]. lia.
  - change (<[S i := (ty', bs')]> (x :: L)) with (x :: <[i := (ty', bs')]> L). rewrite !total_cons, (IH i Hi). lia.
Qed.

(** Changes before the data blocks. *)
Lemma blocks_meta f f' G :
  blocks_ok f G -> img_ok f' -> f_freeblock f' = f_freeblock f -> (forall b, nmeta <= b -> view f' b = view f b) -> blocks_ok f' G.
Proof.
  intros Hok Hi Ef Hv. pose proof Hok as [_ Hr Hfr Hown Hn]. split; rewrite ?Ef; try done.
  - intros b Hb. rewrite Hv by lia. auto.
  - intros i g Hg. eapply node_ok_ext; [|by eapply Hn]. intros b Hb. apply Hv. apply (own_range f G Hok i g b Hg) in Hb. lia.
Qed.

Lemma disk_inode_meta f f' inum : 0 <= inum < 208 -> same_meta f f' -> disk_inode (view f') inum = disk_inode (view f) inum.
Proof.
  intros Hi [_ Hv]. destruct (IBLOCK_range inum Hi) as [_ Hb]. unfold disk_inode. rewrite Hv; [done|]. change nmeta with 46. lia.
Qed.

(** The boot block, the super block and the log are not affected. *)
Definition same_boot (f f' : mkfs) : Prop := forall b, b < 32 -> view f' b = view f b.

(** Storing an inode whose file is in order. *)
Lemma store_inode f G i g inum ty n :
  blocks_ok f G -> G !! i = Some g -> - 2 ^ 15 <= ty < 2 ^ 15 -> 0 <= n < 2 ^ 32 -> same_inode (file_inode inum ty n) (n_ip g) -> 0 <= inum < 208 ->
  exists f', winode inum (n_ip g) f = Ok tt f' /\ blocks_ok f' G /\ f_freeblock f' = f_freeblock f /\ f_freeinode f' = f_freeinode f /\ same_boot f f' /\
    disk_inode (view f') inum = n_ip g /\
    forall inum', 0 <= inum' < 208 -> inum' <> inum -> disk_inode (view f') inum' = disk_inode (view f) inum'.
Proof.
  intros Hok Hg Hty Hn Hs Hi. destruct (IBLOCK_range inum Hi) as [_ Hb].
  destruct (winode_run f inum (n_ip g)) as (d & E & Himg & Hd & Hoth); [apply Hok|done|by eapply node_dinode|].
  eexists. split; [exact E|]. split_and!; try done.
  - apply (blocks_meta f); [done|done|done|]. intros b Hbm. rewrite view_put, decide_False; [done|]. change nmeta with 46 in Hbm. lia.
  - intros b Hb'. rewrite view_put, decide_False; [done|lia].
Qed.

(** Appending to a file: [iappend] adds exactly the bytes to the file, and
    no other file, the super block or the log changes. *)
Lemma iappend_run f G L i ty bs p :
  holds_files f G L -> L !! i = Some (ty, bs) -> Z.of_nat (length (bs ++ p)) <= 268 * 1024 ->
  nmeta + total (<[i := (ty, bs ++ p)]> L) <= FSSIZE ->
  exists f' G', iappend (1 + Z.of_nat i) p f = Ok tt f' /\ holds_files f' G' (<[i := (ty, bs ++ p)]> L) /\ same_boot f f'.
Proof.
  intros Hf Hi Hmax Hroom. pose proof Hf as [Hok [HlG HlL] Hfree Htot Hfile Hnone]. apply lookup_lt_Some in Hi as HiL.
  destruct (lookup_lt_is_Some_2 G i) as [g Hg]; [lia|]. destruct (Hfile i g ty bs Hg Hi) as (Hh & Hty & Hdisk & Hsame).
  rewrite (total_insert L i ty bs ty _ Hi) in Hroom. rewrite length_app, Nat2Z.inj_add in *. set (off := Z.of_nat (length bs)) in *.
  assert (i_size (n_ip g) = off) as Hsz by (destruct Hsame as [a ->]; done).
  destruct (append_loop (S (length p)) f G i g bs p) as (f1 & g1 & E1 & Hok1 & Hh1 & Hf1 & Hm1 & Hi1); [lia|done|done|done|lia|fold off; lia|].
  set (inum := 1 + Z.of_nat i) in *. set (n := off + Z.of_nat (length p)) in *. assert (0 <= n < 2 ^ 32) as Hn by lia. fold off n in E1, Hf1.
  set (g2 := mknode ((n_ip g1) <| i_size := n |>) (n_data g1) (n_blocks g1) (n_ind g1)).
  assert ((<[i := g1]> G) !! i = Some g1) as Hg1 by (apply list_lookup_insert_eq; lia).
  assert (blocks_ok f1 (<[i := g2]> G)) as Hok2.
  { rewrite <- (list_insert_insert_eq G i g2 g1). apply (blocks_update f1 _ Hok1 f1 i g1 g2 0); [done|apply Hok1|lia|lia|pose proof (bk_range _ _ Hok1); lia| |done|].
    - by rewrite app_nil_r.
    - by destruct (bk_node _ _ Hok1 i g1 Hg1). }
  assert ((<[i := g2]> G) !! i = Some g2) as Hg2 by (apply list_lookup_insert_eq; lia).
  assert (same_inode (file_inode inum ty n) (n_ip g2)) as Hs2.
  { destruct Hsame as [a Ea], Hi1 as [b Eb]. unfold g2. cbn. rewrite Eb, Ea. by exists b. }
  destruct (store_inode f1 _ i g2 inum ty n Hok2 Hg2 Hty Hn Hs2) as (f' & E' & Hok' & Hfb' & Hfi' & Hsb & Hd' & Hoth); [unfold inum; lia|].
  exists f', (<[i := g2]> G). split_and!.
  - unfold iappend. erewrite bind_ok by (apply rinode_run; [apply Hok|unfold inum; lia]). rewrite Hdisk, Hsz, xint_small by lia.
    erewrite bind_ok by exact E1. cbn beta iota. rewrite (xint_small n) by lia. exact E'.
  - destruct Hm1 as [Hfi1 Hv1]. split; rewrite ?length_insert; try done.
    + by rewrite Hfi', Hfi1.
    + rewrite Hfb', Hf1, (total_insert L i ty bs ty _ Hi), length_app, Nat2Z.inj_add. fold off n. lia.
    + intros j h tj bj Hj Hlj. destruct (decide (j = i)) as [->|Hne].
      * rewrite Hg2 in Hj. injection Hj as <-. rewrite list_lookup_insert_eq in Hlj by lia. injection Hlj as <- <-.
        rewrite length_app, Nat2Z.inj_add. split; [exact Hh1|]. done.
      * rewrite list_lookup_insert_ne in Hj by done. rewrite list_lookup_insert_ne in Hlj by done. apply lookup_lt_Some in Hlj as Hjl. destruct (Hfile j h tj bj Hj Hlj) as (? & ? & Hdj & ?).
        split; [done|]. split; [done|]. split; [|done]. rewrite Hoth by (unfold inum; lia). rewrite <- Hdj. apply disk_inode_meta; [lia|done].
    + intros x Hx. rewrite Hoth by (unfold inum; lia). rewrite (disk_inode_meta f) by (done || lia). auto.
  - intros b Hb. rewrite Hsb by done. apply Hm1. change nmeta with 46. lia.
Qed.
