(* ===== verification/MkfsImage.v ===== *)
(** * The image that mkfs writes

    [main] on a list of files: the image is a file system as the kernel reads
    it, with the files in the root directory. *)

From S2P Require Import Prelude Riscv PhysMem Kernel Bio Bytes Fs FsBlocks FsFile FsWrite Mkfs MkfsSpec MkfsAppend.

(** ** Files read back *)

Lemma mjoin_lookup (V : Z -> list Z) D k x r :
  Forall (fun b => length (V b) = 1024%nat) D -> D !! k = Some x -> (r < 1024)%nat -> mjoin (V <$> D) !! (1024 * k + r)%nat = V x !! r.
Proof.
  intros HD. revert k. induction HD as [|b D Hb HD IH]; intros [|k] Hk Hr; try done; change (mjoin (V <$> b :: D)) with (V b ++ mjoin (V <$> D)).
  - injection Hk as ->. rewrite Nat.mul_0_r. cbn [Nat.add]. by rewrite lookup_app_l by lia.
  - rewrite lookup_app_r by lia. rewrite <- (IH k Hk Hr). f_equal. lia.
Qed.

Lemma node_block f G i g k : blocks_ok f G -> G !! i = Some g ->
  (k < length (n_blocks g))%nat -> n_blocks g !! k = Some (blk_addr (view f) (n_ip g) (Z.of_nat k)).
Proof.
  intros Hok Hg Hk. pose proof (bk_node _ _ Hok _ _ Hg) as Hn. destruct (lookup_lt_is_Some_2 _ _ Hk) as [x Hx]. rewrite Hx. f_equal.
  unfold blk_addr. change NDIRECT with 12. pose proof (nk_max _ _ Hn). destruct (Z.ltb_spec (Z.of_nat k) 12).
  - by rewrite Nat2Z.id, (nk_direct _ _ Hn), Hx by lia.
  - change (Z.to_nat 12) with 12%nat. rewrite (nk_ind _ _ Hn). cbn [default from_option id].
    pose proof (node_ind_some f G Hok i g k x Hg Hx ltac:(lia)) as Hi. destruct (Z.eqb_spec (n_ind g) 0); [done|].
    replace (4 * (Z.of_nat k - 12)) with (4 * Z.of_nat (k - 12)) by lia. rewrite (nk_table _ _ Hn Hi) by lia.
    by replace (12 + (k - 12))%nat with k by lia; rewrite Hx.
Qed.

(** Behind the last block there is a hole. *)
Lemma node_hole f G i g k : blocks_ok f G -> G !! i = Some g ->
  (length (n_blocks g) <= k < 268)%nat -> blk_addr (view f) (n_ip g) (Z.of_nat k) = 0.
Proof.
  intros Hok Hg Hk. pose proof (bk_node _ _ Hok _ _ Hg) as Hn. unfold blk_addr. change NDIRECT with 12. destruct (Z.ltb_spec (Z.of_nat k) 12).
  - by rewrite Nat2Z.id, (nk_direct _ _ Hn), lookup_ge_None_2 by lia.
  - change (Z.to_nat 12) with 12%nat. rewrite (nk_ind _ _ Hn). cbn [default from_option id]. destruct (Z.eqb_spec (n_ind g) 0) as [|Hi]; [done|].
    replace (4 * (Z.of_nat k - 12)) with (4 * Z.of_nat (k - 12)) by lia. rewrite (nk_table _ _ Hn Hi) by lia.
    by rewrite lookup_ge_None_2 by lia.
Qed.

Lemma node_byte f G i g o : blocks_ok f G -> G !! i = Some g ->
  0 <= o < 1024 * Z.of_nat (length (n_blocks g)) -> file_byte (view f) (n_ip g) o = default 0 (n_data g !! Z.to_nat o).
Proof.
  intros Hok Hg Ho. pose proof (bk_node _ _ Hok _ _ Hg) as Hn. unfold file_byte. change BSIZE with 1024.
  pose proof (Z.div_mod o 1024 ltac:(lia)) as Hdm. pose proof (Z.mod_pos_bound o 1024 ltac:(lia)) as Hmb.
  set (k := Z.to_nat (o / 1024)). assert (o / 1024 = Z.of_nat k) as Ek by (unfold k; rewrite Z2Nat.id; [done|apply Z.div_pos; lia]).
  rewrite Ek. pose proof (node_block f G i g k Hok Hg ltac:(lia)) as Hx. rewrite <- (nk_data _ _ Hn). f_equal.
  replace (Z.to_nat o) with (1024 * k + Z.to_nat (o mod 1024))%nat by lia. symmetry. apply mjoin_lookup; [|done|lia].
  apply Forall_forall. intros b Hb. destruct (block_xint f G Hok i g b Hg (own_block g b Hb)) as (_ & _ & Hr). by apply (im_len _ (bk_img _ _ Hok)).
Qed.

(** A part of the file inside its contents. *)
Lemma node_slice f G i g bs off n :
  blocks_ok f G -> G !! i = Some g -> file_holds g bs -> 0 <= off -> 0 <= n -> off + n <= Z.of_nat (length bs) ->
  file_slice (view f) (n_ip g) off n = slice bs off n.
Proof.
  intros Hok Hg (_ & pad & Hd & _) Ho Hn Hl. pose proof (holds_blocks f G i g bs pad Hok Hg Hd). apply list_eq. intros j. unfold file_slice. rewrite list_lookup_fmap, lookup_slice by lia.
  case_decide as Hj.
  - rewrite lookup_seqZ_lt by lia. cbn. rewrite (node_byte f G i g) by (done || lia). rewrite Hd, lookup_app_l by lia.
    replace (Z.to_nat (off + Z.of_nat j)) with (Z.to_nat off + j)%nat by lia.
    destruct (lookup_lt_is_Some_2 bs (Z.to_nat off + j)) as [x ->]; [lia|done].
  - by rewrite lookup_seqZ_ge by lia.
Qed.

(** ** Creating files *)

#[export] Instance same_boot_preorder : PreOrder same_boot.
Proof. split; [done|]. intros f1 f2 f3 E1 E2 b Hb. by rewrite E2, E1. Qed.

Lemma total_app L L' : total (L ++ L') = total L + total L'.
Proof. induction L as [|x L IH]; [done|]. cbn [app]. rewrite !total_cons, IH. lia. Qed.

Lemma total_pos L : 0 <= total L.
Proof.
  induction L as [|x L IH]; [done|]. rewrite total_cons. assert (cost 0 <= cost (Z.of_nat (length x.2))) by (apply cost_mono; lia).
  change (cost 0) with 0 in *. lia.
Qed.

Lemma ialloc_run f G L ty :
  holds_files f G L -> (length L < 200)%nat -> 0 <= ty < 2 ^ 15 ->
  exists f' G', ialloc ty f = Ok (1 + Z.of_nat (length L)) f' /\ holds_files f' G' (L ++ [(ty, [])]) /\ same_boot f f'.
Proof.
  intros Hf Hl Hty. pose proof Hf as [Hok [HlG HlL] Hfree Htot Hfile Hnone]. set (inum := 1 + Z.of_nat (length L)).
  set (g := mknode (file_inode inum ty 0) [] [] 0). set (f1 := f <| f_freeinode := inum + 1 |>).
  assert (blocks_ok f1 (G ++ [g])) as Hok1.
  { destruct Hok as [[Hs Hlen] Hr Hfr Hown Hn]. split; try done.
    - rewrite fmap_app, join_app. cbn. by rewrite app_nil_r.
    - intros i h. rewrite lookup_app_Some. intros [Hi|[Hi Hh]]; [by apply (Hn i)|]. destruct (i - length G)%nat; [|done]. injection Hh as <-.
      split; cbn; try done; try lia. intros j Hj. do 12 (destruct j as [|j]; [done|]). lia. }
  assert ((G ++ [g]) !! length L = Some g) as Hg by (rewrite <- HlG; by apply list_lookup_middle).
  destruct (store_inode f1 _ (length L) g inum ty 0 Hok1 Hg) as (f' & E & Hok' & Hfb & Hfi & Hsb & Hd & Hoth); [lia|lia|done|unfold inum; lia|].
  exists f', (G ++ [g]). split_and!; [| |done].
  - unfold ialloc. rewrite bind_gets. rewrite Hfree. fold inum. rewrite u32_small by (unfold inum; lia).
    rewrite (xshort_small ty), (xshort_small 1), (xint_small 0) by lia. erewrite bind_ok by done. fold f1. by erewrite bind_ok by exact E.
  - split; rewrite ?length_app; cbn [length]; try done.
    + lia.
    + rewrite Hfi. cbn. unfold inum. lia.
    + rewrite Hfb, total_app. change (total [(ty, [])]) with 0. cbn. lia.
    + intros i h ti bi Hi. rewrite lookup_app_Some. intros [HL|[HL Hh]].
      * apply lookup_lt_Some in HL as Hlt. rewrite lookup_app_l in Hi by lia. destruct (Hfile i h ti bi Hi HL) as (? & ? & Hdi & ?).
        split; [done|]. split; [done|]. split; [|done]. rewrite Hoth by (unfold inum; lia). exact Hdi.
      * assert (i = length L) as -> by (apply lookup_lt_Some in Hh; cbn in Hh; lia). rewrite Nat.sub_diag in Hh. injection Hh as <- <-.
        rewrite Hg in Hi. injection Hi as <-. split; [|split; [lia|split; [exact Hd|done]]]. split; [unfold tight; cbn; lia|]. exists 0%nat. split; [done|lia].
    + intros x Hx. rewrite Hoth by (unfold inum; lia). apply Hnone. lia.
Qed.

(** Successive pieces of a file. *)
Lemma append_pieces ps : forall f G L i ty bs,
  holds_files f G L -> L !! i = Some (ty, bs) -> Z.of_nat (length (bs ++ mjoin ps)) <= 268 * 1024 ->
  nmeta + total (<[i := (ty, bs ++ mjoin ps)]> L) <= FSSIZE ->
  exists f' G', for_each ps (iappend (1 + Z.of_nat i)) f = Ok tt f' /\ holds_files f' G' (<[i := (ty, bs ++ mjoin ps)]> L) /\ same_boot f f'.
Proof.
  induction ps as [|p ps IH]; intros f G L i ty bs Hf Hi Hmax Hroom.
  { exists f, G. change (mjoin (@nil (list Z))) with (@nil Z). rewrite app_nil_r, list_insert_id by done. done. }
  change (mjoin (p :: ps)) with (p ++ mjoin ps) in *. rewrite app_assoc in *. apply lookup_lt_Some in Hi as Hlt.
  assert (total (<[i := (ty, bs ++ p)]> L) <= total (<[i := (ty, (bs ++ p) ++ mjoin ps)]> L)) as Hle.
  { rewrite !(total_insert L i ty bs) by done. pose proof (cost_mono (Z.of_nat (length (bs ++ p))) (Z.of_nat (length ((bs ++ p) ++ mjoin ps)))
      ltac:(rewrite (length_app (bs ++ p)); lia)). lia. }
  destruct (iappend_run f G L i ty bs p Hf Hi) as (f1 & G1 & E1 & Hf1 & Hs1); [rewrite length_app in Hmax; lia|etrans; [|exact Hroom]; apply Zplus_le_compat_l; exact Hle|].
  destruct (IH f1 G1 _ i ty (bs ++ p) Hf1) as (f' & G' & E' & Hf' & Hs'); [by apply list_lookup_insert_eq|done|by rewrite list_insert_insert_eq|].
  exists f', G'. cbn [for_each]. erewrite bind_ok by exact E1. rewrite list_insert_insert_eq in Hf'. split_and!; [done|done|by etrans].
Qed.

(** ** The files of the image *)

Definition file_name (h : host_file) : list Z := skip_underscore (shortname (h_path h)).

Definition contents (h : host_file) : list Z := mjoin (default [] (h_reads h)).

(** The entries of the root directory. *)
Definition entries (hs : list host_file) : list (Z * list Z) :=
  (1, [46]) :: (1, [46; 46]) :: imap (fun i h => (2 + Z.of_nat i, file_name h)) hs.

Definition entry_bytes (e : Z * list Z) : list Z := encode_dirent (mkdirent e.1 (dirname e.2)).

Definition dir_bytes (hs : list host_file) : list Z := mjoin (entry_bytes <$> entries hs).

(** The types and contents of the inodes from 1 on. *)
Definition files_of (hs : list host_file) : list (Z * list Z) :=
  (T_DIR, dir_bytes hs) :: ((fun h => (T_FILE, contents h)) <$> hs).

(** A file that can be added. *)
Definition file_good (h : host_file) : Prop :=
  (47 ∉ shortname (h_path h)) /\ is_Some (h_reads h) /\ Z.of_nat (length (contents h)) <= MAXFILE * BSIZE.

Lemma length_entry e : length (entry_bytes e) = 16%nat.
Proof. unfold entry_bytes, encode_dirent, dirname. cbn [length de_name]. rewrite length_take, length_app, length_replicate. change (Z.to_nat DIRSIZ) with 14%nat. lia. Qed.

Lemma length_entries es : length (mjoin (entry_bytes <$> es)) = (16 * length es)%nat.
Proof.
  induction es as [|e es IH]; [done|]. change (mjoin (entry_bytes <$> e :: es)) with (entry_bytes e ++ mjoin (entry_bytes <$> es)).
  rewrite length_app, length_entry, IH. cbn [length]. lia.
Qed.

Lemma length_dir hs : length (dir_bytes hs) = (16 * (2 + length hs))%nat.
Proof. unfold dir_bytes. rewrite length_entries. unfold entries. cbn [length]. by rewrite length_imap. Qed.

Lemma dir_bytes_snoc hs h : dir_bytes (hs ++ [h]) = dir_bytes hs ++ entry_bytes (2 + Z.of_nat (length hs), file_name h).
Proof.
  unfold dir_bytes, entries. rewrite imap_app. cbn [imap]. unfold compose. rewrite Nat.add_0_r, !app_comm_cons, fmap_app, join_app. cbn [fmap list_fmap].
  change (mjoin [?e]) with (e ++ []). by rewrite app_nil_r.
Qed.

Lemma length_files hs : length (files_of hs) = S (length hs).
Proof. unfold files_of. cbn [length]. by rewrite length_fmap. Qed.

(** Linking a name in the root directory. *)
Lemma link_root_run f G L inum name bs :
  holds_files f G L -> L !! 0%nat = Some (T_DIR, bs) -> (length bs <= 4096)%nat -> 0 <= inum < 2 ^ 16 ->
  nmeta + total (<[0%nat := (T_DIR, bs ++ entry_bytes (inum, name))]> L) <= FSSIZE ->
  exists f' G', link_root inum name f = Ok tt f' /\ holds_files f' G' (<[0%nat := (T_DIR, bs ++ entry_bytes (inum, name))]> L) /\ same_boot f f'.
Proof.
  intros Hf HL Hl Hi Hroom. unfold link_root. rewrite xshort_small by lia. change ROOTINO with (1 + Z.of_nat 0).
  apply (iappend_run f G L 0 T_DIR bs); [done|done| |done]. rewrite length_app, length_entry. lia.
Qed.

Lemma add_file_run f G hs h :
  holds_files f G (files_of hs) -> file_good h -> (length hs < 198)%nat -> nmeta + total (files_of (hs ++ [h])) <= FSSIZE ->
  exists f' G', add_file h f = Ok tt f' /\ holds_files f' G' (files_of (hs ++ [h])) /\ same_boot f f'.
Proof.
  intros Hf (Hn & [ps Hps] & Hmax) Hl Hroom. change (MAXFILE * BSIZE) with (268 * 1024) in Hmax. pose proof (length_files hs) as Hlf.
  destruct (ialloc_run f G (files_of hs) T_FILE Hf) as (f1 & G1 & E1 & Hf1 & Hs1); [lia|done|].
  set (inum := 2 + Z.of_nat (length hs)). set (e := entry_bytes (inum, file_name h)).
  set (L2 := <[0%nat := (T_DIR, dir_bytes hs ++ e)]> (files_of hs ++ [(T_FILE, [])])) in *.
  assert (L2 !! S (length hs) = Some (T_FILE, [])) as HL2.
  { unfold L2. rewrite list_lookup_insert_ne by done. rewrite <- Hlf. by apply list_lookup_middle. }
  assert (<[S (length hs) := (T_FILE, [] ++ mjoin ps)]> L2 = files_of (hs ++ [h])) as HL3.
  { unfold L2, files_of. cbn [app]. rewrite dir_bytes_snoc, fmap_app. fold inum. fold e.
    change (<[0%nat := (T_DIR, dir_bytes hs ++ e)]> ((T_DIR, dir_bytes hs) :: ((fun h => (T_FILE, contents h)) <$> hs) ++ [(T_FILE, [])]))
      with ((T_DIR, dir_bytes hs ++ e) :: ((fun h => (T_FILE, contents h)) <$> hs) ++ [(T_FILE, [])]).
    change (<[S (length hs) := (T_FILE, mjoin ps)]> ((T_DIR, dir_bytes hs ++ e) :: ((fun h => (T_FILE, contents h)) <$> hs) ++ [(T_FILE, [])]))
      with ((T_DIR, dir_bytes hs ++ e) :: <[length hs := (T_FILE, mjoin ps)]> (((fun h => (T_FILE, contents h)) <$> hs) ++ [(T_FILE, [])])). f_equal.
    rewrite insert_app_r_alt by (rewrite length_fmap; lia). rewrite length_fmap, Nat.sub_diag. f_equal. cbn. unfold contents. by rewrite Hps. }
  assert (total L2 <= total (files_of (hs ++ [h]))) as Hle.
  { rewrite <- HL3, (total_insert L2 _ T_FILE []) by done. assert (cost 0 <= cost (Z.of_nat (length ([] ++ mjoin ps)))) by (apply cost_mono; lia).
    change (cost (Z.of_nat (length (@nil Z)))) with (cost 0). lia. }
  destruct (link_root_run f1 G1 _ inum (file_name h) (dir_bytes hs) Hf1) as (f2 & G2 & E2 & Hf2 & Hs2);
    [done|rewrite length_dir; lia|unfold inum; lia|fold e L2; lia|]. fold e L2 in Hf2.
  destruct (append_pieces ps f2 G2 L2 (S (length hs)) T_FILE [] Hf2 HL2) as (f3 & G3 & E3 & Hf3 & Hs3).
  { unfold contents in Hmax. rewrite Hps in Hmax. done. }
  { by rewrite HL3. }
  exists f3, G3. rewrite HL3 in Hf3. split_and!; [|done|etrans; [exact Hs1|]; by etrans].
  unfold add_file. rewrite decide_False by done. rewrite Hps. erewrite bind_ok by exact E1. rewrite Hlf.
  replace (1 + Z.of_nat (S (length hs))) with inum in * by (unfold inum; lia). fold (file_name h). by erewrite bind_ok by exact E2.
Qed.

Lemma add_files_run hs' : forall f G hs,
  holds_files f G (files_of hs) -> Forall file_good hs' -> (length (hs ++ hs') <= 198)%nat -> nmeta + total (files_of (hs ++ hs')) <= FSSIZE ->
  exists f' G', for_each hs' add_file f = Ok tt f' /\ holds_files f' G' (files_of (hs ++ hs')) /\ same_boot f f'.
Proof.
  induction hs' as [|h hs' IH]; intros f G hs Hf Hg Hl Hroom.
  { exists f, G. by rewrite app_nil_r. }
  apply Forall_cons in Hg as [Hh Hg]. replace (hs ++ h :: hs') with ((hs ++ [h]) ++ hs') in * by (by rewrite <- app_assoc).
  assert (total (files_of (hs ++ [h])) <= total (files_of ((hs ++ [h]) ++ hs'))) as Hle.
  { unfold files_of. rewrite !total_cons, (fmap_app _ (hs ++ [h]) hs'), total_app. cbn [snd].
    assert (cost (Z.of_nat (length (dir_bytes (hs ++ [h])))) <= cost (Z.of_nat (length (dir_bytes ((hs ++ [h]) ++ hs'))))).
    { apply cost_mono. rewrite !length_dir, !length_app. lia. }
    pose proof (total_pos ((fun h => (T_FILE, contents h)) <$> hs')). lia. }
  destruct (add_file_run f G hs h Hf Hh) as (f1 & G1 & E1 & Hf1 & Hs1); [rewrite !length_app in Hl; cbn in Hl; lia|lia|].
  destruct (IH f1 G1 (hs ++ [h]) Hf1 Hg Hl Hroom) as (f' & G' & E' & Hf' & Hs'). exists f', G'. cbn [for_each].
  erewrite bind_ok by exact E1. split_and!; [done|done|by etrans].
Qed.

(** ** The empty image *)

Lemma for_each_wsect (z : list Z) l : forall f,
  exists m, for_each l (fun i => wsect i z) f = Ok tt (f <| f_img := m |>) /\ forall b, m !! b = if decide (b ∈ l) then Some z else f_img f !! b.
Proof.
  induction l as [|a l IH]; intros f; cbn [for_each].
  { exists (f_img f). split; [by destruct f|]. intros b. by rewrite decide_False by (apply not_elem_of_nil). }
  destruct (IH (put a z f)) as (m & E & Hm). exists m. split.
  - erewrite bind_ok by done. fold (put a z f). rewrite E. by destruct f.
  - intros b. rewrite Hm. destruct (decide (b ∈ l)) as [Hb|Hb]; [by rewrite decide_True by (by right)|]. cbn.
    destruct (decide (b = a)) as [->|Hne]; [rewrite decide_True by left; by rewrite lookup_insert_eq|].
    rewrite lookup_insert_ne by done. rewrite decide_False; [done|]. rewrite elem_of_cons. tauto.
Qed.

Lemma get_le_zero n j : get_le n zero_block j = 0.
Proof.
  revert j. induction n as [|n IH]; intros j; [done|]. cbn [get_le]. rewrite IH. unfold zero_block.
  destruct (replicate _ _ !! j) as [x|] eqn:E; [|done]. by apply lookup_replicate in E as [-> _].
Qed.

Lemma empty_image f : f_img f = ∅ -> f_freeinode f = 1 -> f_freeblock f = nmeta ->
  exists f1 f', for_each (seqZ 0 FSSIZE) (fun i => wsect i (replicate (Z.to_nat BSIZE) 0)) f = Ok tt f1 /\ wsect 1 (encode_sb mkfs_sb) f1 = Ok tt f' /\
    holds_files f' [] [] /\ view f' 1 = encode_sb mkfs_sb /\ forall b, 0 <= b < FSSIZE -> b <> 1 -> view f' b = zero_block.
Proof.
  assert (length (encode_sb mkfs_sb) = Z.to_nat BSIZE) as Hd by (by vm_compute). generalize dependent (encode_sb mkfs_sb). intros d Hd.
  intros Ei Ef Eb. destruct (for_each_wsect (replicate (Z.to_nat BSIZE) 0) (seqZ 0 FSSIZE) f) as (m & E & Hm).
  set (f1 := f <| f_img := m |>). exists f1, (put 1 d f1). split; [exact E|]. clear E. split; [done|].
  assert (forall b, 0 <= b < FSSIZE -> view f1 b = zero_block) as Hz.
  { intros b Hb. unfold view. cbn. rewrite Hm. rewrite decide_True; [done|]. by apply elem_of_seqZ. }
  assert (img_ok f1) as Himg.
  { split; [|intros b Hb; by rewrite Hz]. intros b. cbn. rewrite Hm, Ei, lookup_empty. case_decide as Hb; rewrite elem_of_seqZ in Hb.
    - split; [intros; lia|by eexists].
    - split; [by intros [? ?]|lia]. }
  assert (img_ok (put 1 d f1)) as Himg' by (apply put_ok; [done|done|done]).
  split_and!; [|by rewrite view_put, decide_True|intros b Hb Hne; rewrite view_put, decide_False by done; auto].
  split; try done.
  - split; try done; cbn; rewrite ?Eb; try done.
    intros b Hb. rewrite view_put, decide_False by (change nmeta with 46 in Hb; lia). apply Hz. change nmeta with 46 in Hb. lia.
  - cbn. lia.
  - intros inum Hi. cbn in Hi. destruct (IBLOCK_range inum ltac:(lia)) as [_ Hb]. unfold disk_inode. rewrite view_put, decide_False by lia.
    rewrite Hz by (change FSSIZE with 2000; lia). unfold read_dinode. cbn [i_type]. unfold get16. by rewrite get_le_zero.
Qed.

(** ** The bitmap *)

Lemma bitmap_bits l : forall data,
  Forall (fun j => 0 <= j < BPB) l -> length data = Z.to_nat BSIZE ->
  length (foldl set_bit data l) = Z.to_nat BSIZE /\
  forall bi, 0 <= bi < BPB -> bit_used (foldl set_bit data l) bi = bool_decide (bi ∈ l) || bit_used data bi.
Proof.
  induction l as [|j l IH]; intros data Hl Hd; [done|]. apply Forall_cons in Hl as [Hj Hl]. cbn [foldl].
  destruct (IH (set_bit data j) Hl) as [Hlen Hbits]; [by rewrite length_set_bit|]. split; [done|]. intros bi Hbi.
  rewrite Hbits, set_bit_used by done. destruct (decide (bi = j)) as [->|Hne].
  - rewrite orb_true_r. by rewrite bool_decide_eq_true_2 by left.
  - f_equal. apply bool_decide_ext. rewrite elem_of_cons. tauto.
Qed.

Lemma balloc_run f G n :
  blocks_ok f G -> 0 <= n < BPB ->
  exists f', balloc n f = Ok tt f' /\ blocks_ok f' G /\ f_freeblock f' = f_freeblock f /\ (forall b, b <> 45 -> view f' b = view f b) /\
    forall b, 0 <= b < FSSIZE -> used mkfs_sb (view f') b = bool_decide (b < n).
Proof.
  intros Hok Hn. destruct (bitmap_bits (seqZ 0 n) zero_block) as [Hlen Hbits].
  { apply Forall_forall. intros j Hj%elem_of_seqZ. lia. }
  { apply length_replicate. }
  change (sb_bmapstart mkfs_sb) with 45 in *. set (d := foldl set_bit zero_block (seqZ 0 n)) in *. exists (put 45 d f). split_and!.
  - unfold balloc. change (BSIZE * 8) with BPB. destruct (Z.ltb_spec n BPB); [|lia]. done.
  - apply (blocks_meta f); [done|apply put_ok; [apply Hok|done|done]|done|]. intros b Hb. rewrite view_put, decide_False; [done|].
    change nmeta with 46 in Hb. lia.
  - done.
  - intros b Hb. by rewrite view_put, decide_False.
  - intros b Hb. change FSSIZE with 2000 in Hb. unfold used, BBLOCK. change BPB with 8192 in *. change (sb_bmapstart mkfs_sb) with 45.
    rewrite (Z.div_small b), (Z.mod_small b) by lia. change (u32 (0 + 45)) with 45. rewrite view_put, decide_True, Hbits by (done || lia).
    assert (bit_used zero_block b = false) as ->.
    { unfold bit_used, zero_block. destruct (replicate _ _ !! Z.to_nat (b / 8)) as [x|] eqn:E; [apply lookup_replicate in E as [-> _]|];
        cbn [default from_option id]; by rewrite Z.land_0_l. }
    rewrite orb_false_r. apply bool_decide_ext. rewrite elem_of_seqZ. lia.
Qed.

(** ** The file system *)

(** The size of the root directory: its entries, and the rest of the block or
    a whole block. *)
Definition root_size (hs : list host_file) : Z := (16 * (2 + Z.of_nat (length hs)) / BSIZE + 1) * BSIZE.

(** The image [V], with free blocks from [free] on, is a file system with the
    files [hs], as the kernel reads it. *)
Record image_ok (V : Z -> list Z) (hs : list host_file) (free : Z) : Prop := {
  io_super : decode_sb (V 1) = mkfs_sb;
  io_log : get32 (V (sb_logstart mkfs_sb)) 0 = 0;
  io_file : forall i h, hs !! i = Some h ->
    let ip := disk_inode V (2 + Z.of_nat i) in
    i_type ip = T_FILE /\ i_nlink ip = 1 /\ i_size ip = Z.of_nat (length (contents h)) /\ file_slice V ip 0 (i_size ip) = contents h;
  io_root :
    let ip := disk_inode V ROOTINO in
    i_type ip = T_DIR /\ i_nlink ip = 1 /\ i_size ip = root_size hs /\
    (forall k inum name, entries hs !! k = Some (inum, name) ->
       decode_dirent (file_slice V ip (Z.of_nat k * sizeof_dirent) sizeof_dirent) = mkdirent inum (dirname name)) /\
    (forall o, 16 * (2 + Z.of_nat (length hs)) <= o < i_size ip -> file_byte V ip o = 0);
  io_dir : file_slice V (disk_inode V ROOTINO) 0 (16 * (2 + Z.of_nat (length hs))) = dir_bytes hs;
  io_hole : (2 + Z.of_nat (length hs)) mod 64 = 0 -> blk_addr V (disk_inode V ROOTINO) (root_size hs / BSIZE - 1) = 0;
  io_free_inode : forall inum, 2 + Z.of_nat (length hs) <= inum < NINODES -> i_type (disk_inode V inum) = 0;
  io_bitmap : forall b, 0 <= b < FSSIZE -> used mkfs_sb V b = bool_decide (b < free);
  io_blocks : forall i ty bs j, files_of hs !! i = Some (ty, bs) -> 0 <= j < nblk (Z.of_nat (length bs)) ->
    nmeta <= blk_addr V (disk_inode V (1 + Z.of_nat i)) j < free;
  io_disjoint : forall i ty bs j i' ty' bs' j',
    files_of hs !! i = Some (ty, bs) -> 0 <= j < nblk (Z.of_nat (length bs)) ->
    files_of hs !! i' = Some (ty', bs') -> 0 <= j' < nblk (Z.of_nat (length bs')) ->
    blk_addr V (disk_inode V (1 + Z.of_nat i)) j = blk_addr V (disk_inode V (1 + Z.of_nat i')) j' -> i = i' /\ j = j';
  io_ind : forall i ty bs j, files_of hs !! i = Some (ty, bs) -> 0 <= j < nblk (Z.of_nat (length bs)) ->
    blk_addr V (disk_inode V (1 + Z.of_nat i)) j <> ind_addr (disk_inode V (1 + Z.of_nat i));
  io_free : free <= FSSIZE;
  io_len : forall b, 0 <= b < FSSIZE -> length (V b) = Z.to_nat BSIZE
}.

(** What [main] leaves: like [holds_files], with the size of the root
    directory and the bitmap. *)
Record finished (f : mkfs) (G : list node) (hs : list host_file) : Prop := {
  fi_blocks : blocks_ok f G;
  fi_len : length G = length (files_of hs);
  fi_file : forall i g ty bs, G !! i = Some g -> files_of hs !! i = Some (ty, bs) ->
    file_holds g bs /\ disk_inode (view f) (1 + Z.of_nat i) = n_ip g /\ i_type (n_ip g) = ty /\ i_nlink (n_ip g) = 1 /\
    i_size (n_ip g) = match i with O => root_size hs | _ => Z.of_nat (length bs) end;
  fi_none : forall inum, Z.of_nat (length (files_of hs)) < inum < 208 -> i_type (disk_inode (view f) inum) = 0;
  fi_boot : view f 0 = zero_block /\ view f 1 = encode_sb mkfs_sb /\ view f 2 = zero_block;
  fi_bitmap : forall b, 0 <= b < FSSIZE -> used mkfs_sb (view f) b = bool_decide (b < f_freeblock f)
}.

Lemma slice_entries es k e : es !! k = Some e -> slice (mjoin (entry_bytes <$> es)) (Z.of_nat k * sizeof_dirent) sizeof_dirent = entry_bytes e.
Proof.
  change sizeof_dirent with 16. unfold slice. replace (Z.to_nat (Z.of_nat k * 16)) with (k * 16)%nat by lia. change (Z.to_nat 16) with 16%nat.
  revert k. induction es as [|x es IH]; intros [|k] Hk; try done; change (mjoin (entry_bytes <$> x :: es)) with (entry_bytes x ++ mjoin (entry_bytes <$> es)).
  - injection Hk as ->. cbn [Nat.mul]. rewrite drop_0. rewrite <- (length_entry e) at 1. by rewrite take_app_length.
  - replace (S k * 16)%nat with (length (entry_bytes x) + k * 16)%nat by (rewrite length_entry; lia). rewrite drop_app_add. by apply IH.
Qed.

Lemma decode_entry inum name : 0 <= inum < 2 ^ 16 -> decode_dirent (entry_bytes (inum, name)) = mkdirent inum (dirname name).
Proof.
  intros Hi. unfold decode_dirent, entry_bytes, encode_dirent. cbn [de_inum de_name fst snd]. f_equal.
  - change (u8 (u8 inum) + 256 * (u8 (u8 (inum / 256)) + 256 * 0) = inum). rewrite !u8_u8. unfold u8. change (2 ^ 8) with 256.
    pose proof (Z.div_mod inum 256). rewrite (Z.mod_small (inum / 256)); [lia|]. split; [apply Z.div_pos; lia|apply Z.div_lt_upper_bound; lia].
  - unfold slice. change (Z.to_nat 2) with 2%nat. cbn [drop]. apply take_ge. unfold dirname. rewrite length_take. lia.
Qed.

Lemma entries_range hs k inum name : (length hs <= 198)%nat -> entries hs !! k = Some (inum, name) -> 0 <= inum < 2 ^ 16 /\ (k < 2 + length hs)%nat.
Proof.
  intros Hl Hk. apply lookup_lt_Some in Hk as Hlt. unfold entries in *. cbn [length] in Hlt. rewrite length_imap in Hlt. split; [|lia].
  destruct k as [|[|k]]; [injection Hk as <- <-; lia..|].
  change (imap (fun i h => (2 + Z.of_nat i, file_name h)) hs !! k = Some (inum, name)) in Hk. rewrite list_lookup_imap in Hk.
  destruct (hs !! k) as [h|] eqn:E; [|done]. apply lookup_lt_Some in E. injection Hk as <- <-. lia.
Qed.

Section finished.
Context (f : mkfs) (G : list node) (hs : list host_file) (Hfin : finished f G hs) (Hmax : (length hs <= 198)%nat).

Lemma fin_node i ty bs : files_of hs !! i = Some (ty, bs) -> exists g, G !! i = Some g.
Proof. intros Hi. apply lookup_lt_Some in Hi. apply lookup_lt_is_Some_2. by rewrite (fi_len _ _ _ Hfin). Qed.

Lemma fin_file_lookup i h : hs !! i = Some h -> files_of hs !! S i = Some (T_FILE, contents h).
Proof.
  intros Hi. change (files_of hs !! S i) with (((fun h => (T_FILE, contents h)) <$> hs) !! i). by rewrite list_lookup_fmap, Hi.
Qed.

Lemma fin_block i ty bs j :
  files_of hs !! i = Some (ty, bs) -> 0 <= j < nblk (Z.of_nat (length bs)) ->
  exists g, G !! i = Some g /\ n_blocks g !! Z.to_nat j = Some (blk_addr (view f) (disk_inode (view f) (1 + Z.of_nat i)) j).
Proof.
  intros Hi Hj. destruct (fin_node i ty bs Hi) as [g Hg]. destruct (fi_file _ _ _ Hfin i g ty bs Hg Hi) as (Hh & -> & _).
  exists g. split; [done|]. pose proof (holds_nblk f G i g bs (fi_blocks _ _ _ Hfin) Hg Hh) as Hn.
  rewrite <- (Z2Nat.id j) at 2 by lia. apply (node_block f G i g); [apply Hfin|done|lia].
Qed.

Lemma fin_blocks i ty bs j :
  files_of hs !! i = Some (ty, bs) -> 0 <= j < nblk (Z.of_nat (length bs)) ->
  nmeta <= blk_addr (view f) (disk_inode (view f) (1 + Z.of_nat i)) j < f_freeblock f.
Proof.
  intros Hi Hj. destruct (fin_block i ty bs j Hi Hj) as (g & Hg & Hb).
  eapply (own_range f G); [apply Hfin|exact Hg|]. by eapply own_block, list_elem_of_lookup_2.
Qed.

Lemma fin_disjoint i ty bs j i' ty' bs' j' :
  files_of hs !! i = Some (ty, bs) -> 0 <= j < nblk (Z.of_nat (length bs)) ->
  files_of hs !! i' = Some (ty', bs') -> 0 <= j' < nblk (Z.of_nat (length bs')) ->
  blk_addr (view f) (disk_inode (view f) (1 + Z.of_nat i)) j = blk_addr (view f) (disk_inode (view f) (1 + Z.of_nat i')) j' -> i = i' /\ j = j'.
Proof.
  intros Hi Hj Hi' Hj' E. destruct (fin_block i ty bs j Hi Hj) as (g & Hg & Hb). destruct (fin_block i' ty' bs' j' Hi' Hj') as (g' & Hg' & Hb').
  rewrite <- E in Hb'. set (b := blk_addr _ _ _) in *. pose proof (own_nodup f G (fi_blocks _ _ _ Hfin)) as Hnd.
  assert (b ∈ own g) as Ho by (by eapply own_block, list_elem_of_lookup_2). assert (b ∈ own g') as Ho' by (by eapply own_block, list_elem_of_lookup_2).
  destruct (decide (i = i')) as [<-|Hne]; [|by destruct (own_apart G i i' g g' b Hnd Hg Hg' Hne Ho)]. split; [done|].
  rewrite Hg in Hg'. injection Hg' as <-. rewrite (own_split G i g Hg) in Hnd. apply NoDup_app in Hnd as (Hnd & _).
  unfold own in Hnd. apply NoDup_app in Hnd as (Hnd & _). pose proof (NoDup_lookup _ _ _ _ Hnd Hb Hb'). lia.
Qed.

Lemma fin_ind i ty bs j :
  files_of hs !! i = Some (ty, bs) -> 0 <= j < nblk (Z.of_nat (length bs)) ->
  blk_addr (view f) (disk_inode (view f) (1 + Z.of_nat i)) j <> ind_addr (disk_inode (view f) (1 + Z.of_nat i)).
Proof.
  intros Hi Hj E. pose proof (fin_blocks i ty bs j Hi Hj) as Hr. destruct (fin_block i ty bs j Hi Hj) as (g & Hg & Hb).
  destruct (fi_file _ _ _ Hfin i g ty bs Hg Hi) as (_ & Ed & _). rewrite Ed in *.
  assert (ind_addr (n_ip g) = n_ind g) as En.
  { unfold ind_addr. change (Z.to_nat NDIRECT) with 12%nat. by rewrite (nk_ind _ _ (bk_node _ _ (fi_blocks _ _ _ Hfin) i g Hg)). }
  rewrite E, En in *. change nmeta with 46 in Hr. pose proof (own_nodup f G (fi_blocks _ _ _ Hfin)) as Hnd.
  rewrite (own_split G i g Hg) in Hnd. apply NoDup_app in Hnd as (Hnd & _). unfold own in Hnd.
  apply NoDup_app in Hnd as (_ & Hd & _). apply (Hd (n_ind g)); [by eapply list_elem_of_lookup_2|].
  destruct (Z.eqb_spec (n_ind g) 0); [lia|by left].
Qed.

Lemma fin_contents i h : hs !! i = Some h ->
  let ip := disk_inode (view f) (2 + Z.of_nat i) in
  i_type ip = T_FILE /\ i_nlink ip = 1 /\ i_size ip = Z.of_nat (length (contents h)) /\ file_slice (view f) ip 0 (i_size ip) = contents h.
Proof.
  intros Hi ip. apply fin_file_lookup in Hi as HL. destruct (fin_node _ _ _ HL) as [g Hg].
  destruct (fi_file _ _ _ Hfin (S i) g _ _ Hg HL) as (Hh & Hd & Ht & Hl & Hs). replace (1 + Z.of_nat (S i)) with (2 + Z.of_nat i) in Hd by lia.
  unfold ip. rewrite Hd, Hs. split_and!; [done|done|done|]. rewrite (node_slice f G (S i) g (contents h)); [|apply Hfin|done|done|lia|lia|lia].
  unfold slice. cbn. rewrite Nat2Z.id. by rewrite firstn_all.
Qed.

Lemma fin_root_node : exists g, G !! 0%nat = Some g /\ file_holds g (dir_bytes hs) /\ disk_inode (view f) ROOTINO = n_ip g /\
  i_type (n_ip g) = T_DIR /\ i_nlink (n_ip g) = 1 /\ i_size (n_ip g) = root_size hs.
Proof.
  destruct (fin_node 0 T_DIR (dir_bytes hs) eq_refl) as [g Hg]. destruct (fi_file _ _ _ Hfin 0 g _ _ Hg eq_refl) as (? & ? & ? & ? & ?). by exists g.
Qed.

Lemma fin_root_bytes o : 16 * (2 + Z.of_nat (length hs)) <= o < root_size hs -> file_byte (view f) (disk_inode (view f) ROOTINO) o = 0.
Proof.
  destruct fin_root_node as (g & Hg & Hh & -> & _). intros Ho. pose proof Hh as (_ & pad & Hd & _). pose proof (fi_blocks _ _ _ Hfin) as Hok.
  pose proof (holds_blocks f G 0 g _ pad Hok Hg Hd) as Hl. rewrite length_dir in Hl. unfold root_size in Ho. change BSIZE with 1024 in Ho.
  pose proof (Z.mul_div_le (16 * (2 + Z.of_nat (length hs))) 1024 ltac:(lia)).
  destruct (decide (o < 1024 * Z.of_nat (length (n_blocks g)))) as [Hlt|Hge].
  - rewrite (node_byte f G 0 g) by (done || lia). rewrite Hd, lookup_app_r by (rewrite length_dir; lia).
    destruct (replicate pad 0 !! _) as [x|] eqn:E; [|done]. by apply lookup_replicate in E as [-> _].
  - unfold file_byte. change BSIZE with 1024. pose proof (Z.div_mod o 1024 ltac:(lia)). pose proof (Z.mod_pos_bound o 1024 ltac:(lia)).
    replace (o / 1024) with (Z.of_nat (Z.to_nat (o / 1024))) by (rewrite Z2Nat.id; [done|apply Z.div_pos; lia]).
    rewrite (node_hole f G 0 g) by (done || lia). destruct (fi_boot _ _ _ Hfin) as [-> _]. unfold zero_block.
    destruct (replicate _ 0 !! _) as [x|] eqn:E; [|done]. by apply lookup_replicate in E as [-> _].
Qed.

Lemma fin_hole : (2 + Z.of_nat (length hs)) mod 64 = 0 -> blk_addr (view f) (disk_inode (view f) ROOTINO) (root_size hs / BSIZE - 1) = 0.
Proof.
  destruct fin_root_node as (g & Hg & Hh & -> & _). intros Hm. pose proof (fi_blocks _ _ _ Hfin) as Hok.
  pose proof (holds_nblk f G 0 g _ Hok Hg Hh) as Hl. rewrite length_dir in Hl. pose proof (Z.div_mod (2 + Z.of_nat (length hs)) 64 ltac:(lia)) as Hdm.
  set (q := (2 + Z.of_nat (length hs)) / 64) in *. unfold root_size. change BSIZE with 1024. rewrite Z.div_mul by lia.
  replace (16 * (2 + Z.of_nat (length hs)) / 1024) with q by (apply (Z.div_unique _ _ _ 0); lia).
  assert (nblk (Z.of_nat (16 * (2 + length hs))) = q) as Hq by (unfold nblk; symmetry; apply (Z.div_unique _ _ _ 1023); lia).
  replace (q + 1 - 1) with (Z.of_nat (length (n_blocks g))) by lia. apply (node_hole f G 0 g); [done|done|lia].
Qed.

Lemma finished_image : image_ok (view f) hs (f_freeblock f).
Proof.
  destruct (fi_boot _ _ _ Hfin) as (H0 & H1 & H2). pose proof (fi_blocks _ _ _ Hfin) as Hok. split.
  - rewrite H1. by vm_compute.
  - change (sb_logstart mkfs_sb) with 2. rewrite H2. apply get_le_zero.
  - exact fin_contents.
  - intros ip. destruct fin_root_node as (g & Hg & Hh & Hd & Ht & Hn & Hs). unfold ip. rewrite Hd. split_and!; try done.
    + intros k inum name Hk. destruct (entries_range hs k inum name Hmax Hk) as [Hi Hlt].
      rewrite (node_slice f G 0 g (dir_bytes hs)); [|done|done|done|change sizeof_dirent with 16; lia|done|rewrite length_dir; change sizeof_dirent with 16; lia].
      unfold dir_bytes. rewrite (slice_entries _ _ _ Hk). by apply decode_entry.
    + intros o. rewrite Hs. rewrite <- Hd. apply fin_root_bytes.
  - destruct fin_root_node as (g & Hg & Hh & -> & _).
    rewrite (node_slice f G 0 g (dir_bytes hs)); [|done|done|done|lia|lia|rewrite length_dir; lia].
    unfold slice. cbn [drop Z.to_nat]. apply take_ge. rewrite length_dir. lia.
  - exact fin_hole.
  - intros inum Hi. apply (fi_none _ _ _ Hfin). rewrite length_files. change NINODES with 200 in Hi. lia.
  - apply (fi_bitmap _ _ _ Hfin).
  - apply fin_blocks.
  - apply fin_disjoint.
  - apply fin_ind.
  - apply (bk_range _ _ Hok).
  - apply (im_len _ (bk_img _ _ Hok)).
Qed.

End finished.

(** The root directory with [.] and [..]. *)
Lemma root_run f hs :
  holds_files f [] [] -> nmeta + total (files_of hs) <= FSSIZE ->
  exists f1 f2 f3 G, ialloc T_DIR f = Ok ROOTINO f1 /\ link_root ROOTINO [46] f1 = Ok tt f2 /\ link_root ROOTINO [46; 46] f2 = Ok tt f3 /\
    holds_files f3 G (files_of []) /\ same_boot f f3.
Proof.
  intros Hf Hroom. destruct (ialloc_run f [] [] T_DIR Hf) as (f1 & G1 & E1 & Hf1 & Hs1); [cbn; lia|done|]. cbn [app length] in *.
  assert (forall bs, (length bs <= 32)%nat -> nmeta + total [(T_DIR, bs)] <= FSSIZE) as Hr.
  { intros bs Hl. etrans; [|exact Hroom]. apply Zplus_le_compat_l. unfold files_of. rewrite !total_cons. cbn [snd].
    pose proof (total_pos ((fun h => (T_FILE, contents h)) <$> hs)). change (total []) with 0.
    assert (cost (Z.of_nat (length bs)) <= cost (Z.of_nat (length (dir_bytes hs)))) by (apply cost_mono; rewrite length_dir; lia). lia. }
  destruct (link_root_run f1 G1 _ ROOTINO [46] [] Hf1) as (f2 & G2 & E2 & Hf2 & Hs2); [done|cbn; lia|done|apply Hr; cbn [app]; rewrite length_entry; lia|].
  destruct (link_root_run f2 G2 _ ROOTINO [46; 46] _ Hf2 eq_refl) as (f3 & G3 & E3 & Hf3 & Hs3);
    [cbn [app]; rewrite length_entry; lia|done|apply Hr; cbn [app]; rewrite length_app, !length_entry; lia|].
  exists f1, f2, f3, G3. split_and!; [done|done|done| |etrans; [exact Hs1|]; by etrans].
  exact Hf3.
Qed.

(** The last step: the size of the root directory and the bitmap. *)
Lemma finish_run f G hs :
  holds_files f G (files_of hs) -> (length hs <= 198)%nat ->
  view f 0 = zero_block -> view f 1 = encode_sb mkfs_sb -> view f 2 = zero_block ->
  exists din f1 f2 G', rinode ROOTINO f = Ok din f /\
    winode ROOTINO (din <| i_size := xint ((xint (i_size din) / BSIZE + 1) * BSIZE) |>) f = Ok tt f1 /\
    balloc (f_freeblock f1) f1 = Ok tt f2 /\ finished f2 G' hs.
Proof.
  intros Hf Hl H0 H1 H2. pose proof Hf as [Hok [HlG _] Hfree Htot Hfile Hnone]. rewrite length_files in HlG.
  destruct (lookup_lt_is_Some_2 G 0) as [g Hg]; [lia|]. destruct (Hfile 0%nat g T_DIR (dir_bytes hs) Hg eq_refl) as (Hh & Hty & Hd & Hs).
  assert (i_size (n_ip g) = 16 * (2 + Z.of_nat (length hs))) as Hsz.
  { destruct Hs as [a ->]. change (Z.of_nat (length (dir_bytes hs)) = 16 * (2 + Z.of_nat (length hs))). rewrite length_dir. lia. }
  assert (0 <= root_size hs < 2 ^ 32) as Hrs.
  { unfold root_size. change BSIZE with 1024. assert (0 <= 16 * (2 + Z.of_nat (length hs)) / 1024 < 10) by (split; [apply Z.div_pos; lia|apply Z.div_lt_upper_bound; lia]). lia. }
  set (g' := mknode ((n_ip g) <| i_size := root_size hs |>) (n_data g) (n_blocks g) (n_ind g)).
  assert (blocks_ok f (<[0%nat := g']> G)) as Hok'.
  { apply (blocks_update f _ Hok f 0 g g' 0); [done|apply Hok|lia|lia|pose proof (bk_range _ _ Hok); lia| |done|].
    - by rewrite app_nil_r.
    - by destruct (bk_node _ _ Hok 0%nat g Hg). }
  assert ((<[0%nat := g']> G) !! 0%nat = Some g') as Hg' by (apply list_lookup_insert_eq; lia).
  assert (same_inode (file_inode ROOTINO T_DIR (root_size hs)) (n_ip g')) as Hs' by (destruct Hs as [a Ea]; exists a; unfold g'; cbn; by rewrite Ea).
  destruct (store_inode f _ 0 g' ROOTINO T_DIR (root_size hs) Hok' Hg' Hty Hrs Hs') as (f1 & E1 & Hok1 & Hfb1 & Hfi1 & Hsb & Hd1 & Hoth1); [done|].
  destruct (balloc_run f1 _ (f_freeblock f1) Hok1) as (f2 & E2 & Hok2 & Hfb2 & Hv2 & Hbit).
  { pose proof (bk_range _ _ Hok1). change nmeta with 46 in *. change FSSIZE with 2000 in *. change BPB with 8192. lia. }
  assert (forall inum, 0 <= inum < 208 -> disk_inode (view f2) inum = disk_inode (view f1) inum) as Hdi.
  { intros inum Hi. destruct (IBLOCK_range inum Hi). unfold disk_inode. rewrite Hv2; [done|lia]. }
  exists (n_ip g), f1, f2, (<[0%nat := g']> G). split_and!; [| |done|].
  - rewrite <- Hd. by apply rinode_run; [apply Hok|].
  - rewrite Hsz, (xint_small (16 * _)) by lia. fold (root_size hs). rewrite xint_small by lia. exact E1.
  - split; [done|by rewrite length_insert, length_files| | | |].
    + intros [|i] h ty bs Hi HL.
      * rewrite Hg' in Hi. injection Hi as <-. injection HL as <- <-. destruct Hs as [a Ea].
        split; [exact Hh|]. split; [rewrite Hdi by done; exact Hd1|]. unfold g'. cbn. by rewrite Ea.
      * rewrite list_lookup_insert_ne in Hi by done. destruct (Hfile _ _ _ _ Hi HL) as (Hhi & _ & Hdd & [a Ea]). apply lookup_lt_Some in HL. rewrite length_files in HL.
        split; [done|]. split; [rewrite Hdi, Hoth1 by (change ROOTINO with 1; lia); exact Hdd|]. by rewrite Ea.
    + intros inum Hi. rewrite length_files in Hi. rewrite Hdi, Hoth1 by (change ROOTINO with 1; lia). apply Hnone. rewrite length_files. lia.
    + rewrite !Hv2, !Hsb by done. done.
    + intros b Hb. rewrite Hbit by done. by rewrite Hfb2.
Qed.

Lemma mkfs_image_run (hs : list host_file) :
  Forall file_good hs -> (length hs <= 198)%nat -> nmeta + total (files_of hs) <= FSSIZE ->
  exists f, main hs mkfs_init = Ok tt f /\ image_ok (view f) hs (f_freeblock f).
Proof.
  intros Hg Hl Hroom. destruct (empty_image (mkfs_init <| f_freeblock := nmeta |>)) as (f0 & f1 & E0 & E1 & Hf1 & Hv1 & Hv); [done..|].
  destruct (root_run f1 hs Hf1 Hroom) as (f2 & f3 & f4 & G4 & E2 & E3 & E4 & Hf4 & Hs4).
  destruct (add_files_run hs f4 G4 [] Hf4 Hg Hl Hroom) as (f5 & G5 & E5 & Hf5 & Hs5). cbn [app] in Hf5.
  assert (same_boot f1 f5) as Hsb by (etrans; [exact Hs4|exact Hs5]).
  destruct (finish_run f5 G5 hs Hf5 Hl) as (din & f6 & f7 & G7 & E6 & E7 & E8 & Hfin); [rewrite Hsb by lia; first [exact Hv1|apply Hv; change FSSIZE with 2000; lia]..|].
  exists f7. split; [|eapply finished_image; [exact Hfin|exact Hl]]. unfold main. erewrite bind_ok by done. erewrite bind_ok by exact E0. erewrite bind_ok by exact E1.
  erewrite bind_ok by exact E2. change (negb (ROOTINO =? ROOTINO)) with false. cbn match. erewrite bind_ok by exact E3. erewrite bind_ok by exact E4.
  erewrite bind_ok by exact E5. erewrite bind_ok by exact E6. erewrite bind_ok by exact E7. rewrite bind_gets. exact E8.
Qed.

(** C5: for files that fit, [main] succeeds, and the image is a file system
    that the kernel's definitions read back: the super block, an empty log,
    every file with its contents, the root directory with their names, no
    other inode in use, the bitmap with exactly the blocks in use, and no
    block in two files. When the entries fill the last block of the root
    directory, the directory ends with a hole. *)
Theorem mkfs_image (hs : list host_file) :
  Forall file_good hs -> (length hs <= 198)%nat -> nmeta + total (files_of hs) <= FSSIZE ->
  exists f, main hs mkfs_init = Ok tt f /\ image_ok (view f) hs (f_freeblock f).
Proof. apply mkfs_image_run. Qed.
