(* ===== verification/MkfsBoot.v ===== *)
(** * The kernel on an image of mkfs

    The image that [mkfs] writes is a directory tree that the kernel's path
    lookup follows: every file is found under its name, and read back with
    its contents. *)

From stdpp Require Import functions.
From S2P Require Import Prelude Riscv Machine Spinlock PhysMem Kalloc PageTable Vm VmSpec VmCopy Kernel Sched Sleeplock Bio Bytes Uart Printf Log Fs Thread BioRing BioSpec LogDisk LogSpec SchedSpec PipeSpec FsTx FsBlocks FsFile FsWrite FsDir FsLink FsInode FsPath Mkfs MkfsSpec MkfsAppend MkfsImage.

(** ** Names *)

(** Names that the kernel can look up: not empty, without NUL, and different
    in their first [DIRSIZ] characters. *)
Record names_ok (hs : list host_file) : Prop := {
  no_chars : Forall (fun h => Forall (fun b => 0 < b < 256) (file_name h) /\ file_name h <> []) hs;
  no_distinct : NoDup ((fun e => take (Z.to_nat DIRSIZ) e.2) <$> entries hs)
}.

Definition contents_ok (h : host_file) : Prop := Forall (fun b => 0 <= b < 256) (contents h).

Lemma cname_take n : forall s, cname n (take n s) = cname n s.
Proof. induction n as [|n IH]; intros [|c s]; cbn; try done. by rewrite IH. Qed.

Lemma name_of_dirname name : 0 ∉ name -> name_of (dirname name) = take (Z.to_nat DIRSIZ) name.
Proof. intros Hn. unfold name_of, dirname. rewrite cname_take, cname_app; [done..|]. right; right. done. Qed.

(** The name of a path [/name]. *)
Lemma elements_name w : w <> [] -> 47 ∉ w -> elements (47 :: w) = [w].
Proof.
  intros Hne Hw. rewrite elements_slash. assert (split_slash w = [w]) as E.
  { clear Hne. induction w as [|c w IH]; [done|]. apply not_elem_of_cons in Hw as [Hc Hw]. cbn. rewrite (proj2 (Z.eqb_neq _ _)) by done. by rewrite IH. }
  unfold elements. rewrite E. by rewrite filter_cons_True.
Qed.

Lemma file_name_slash h : file_good h -> 47 ∉ file_name h.
Proof.
  intros (Hs & _). unfold file_name, skip_underscore. intros Hin. apply Hs. repeat case_match; try done. by right.
Qed.

(** ** The root directory *)

Definition root_entries (hs : list host_file) : list dirent := (fun e => mkdirent e.1 (dirname e.2)) <$> entries hs.

Lemma entries_file hs j : entries hs !! S (S j) = (fun h => (2 + Z.of_nat j, file_name h)) <$> hs !! j.
Proof. change (entries hs !! S (S j)) with (imap (fun i h => (2 + Z.of_nat i, file_name h)) hs !! j). apply list_lookup_imap. Qed.

Section image.
Context (V : Z -> list Z) (hs : list host_file) (free : Z).
Context (Himg : image_ok V hs free) (Hmax : (length hs <= 198)%nat).

Definition image_inode (inum : Z) : inode := inode_on V mkfs_sb inum.

Lemma root_dir : exists z, dir V (image_inode ROOTINO) = root_entries hs ++ replicate z (mkdirent 0 (replicate 14 0)).
Proof.
  clear Hmax. destruct (io_root _ _ _ Himg) as (_ & _ & Hs & He & Hz). set (ip := disk_inode V ROOTINO) in *.
  set (N := (2 + length hs)%nat). assert (length (root_entries hs) = N) as Hlen.
  { unfold root_entries. rewrite length_fmap. unfold entries. cbn [length]. by rewrite length_imap. }
  assert (16 * Z.of_nat N <= i_size ip /\ i_size ip / 16 * 16 = i_size ip) as [Hle Hdv].
  { rewrite Hs. unfold root_size. change BSIZE with 1024. replace (2 + Z.of_nat (length hs)) with (Z.of_nat N) by lia.
    split; [pose proof (Z.div_mod (16 * Z.of_nat N) 1024); pose proof (Z.mod_pos_bound (16 * Z.of_nat N) 1024); lia|].
    replace ((16 * Z.of_nat N / 1024 + 1) * 1024) with ((16 * Z.of_nat N / 1024 + 1) * 64 * 16) by lia. by rewrite Z.div_mul. }
  exists (Z.to_nat (i_size ip / 16) - N)%nat. apply list_eq. intros j.
  change (dir V (image_inode ROOTINO)) with (dir V ip). destruct (decide (Z.of_nat j < i_size ip / 16)) as [Hj|Hj].
  2: { rewrite !lookup_ge_None_2; [done|rewrite length_app, Hlen, length_replicate; lia|rewrite dir_length; change sizeof_dirent with 16; lia]. }
  rewrite <- (Nat2Z.id j) at 1. rewrite dir_lookup by (change sizeof_dirent with 16; lia). destruct (decide (j < N)%nat) as [Hjn|Hjn].
  - rewrite lookup_app_l by lia. unfold root_entries. rewrite list_lookup_fmap.
    destruct (lookup_lt_is_Some_2 (entries hs) j) as [[inum name] Hent]; [unfold entries; cbn [length]; rewrite length_imap; lia|].
    rewrite Hent. rewrite Z.mul_comm. by rewrite (He j inum name Hent).
  - rewrite lookup_app_r, lookup_replicate_2 by lia. f_equal.
    assert (file_slice V ip (sizeof_dirent * Z.of_nat j) sizeof_dirent = replicate 16 0) as ->; [|done].
    apply list_eq. intros a. unfold file_slice. rewrite list_lookup_fmap. change sizeof_dirent with 16.
    destruct (decide (a < 16)%nat) as [Ha|Ha].
    + rewrite lookup_seqZ_lt, lookup_replicate_2 by lia. cbn [fmap option_fmap option_map]. f_equal. apply Hz. lia.
    + by rewrite lookup_seqZ_ge, lookup_ge_None_2 by (rewrite ?length_replicate; lia).
Qed.

Lemma dir_map_zero D z nm : dir_map (D ++ replicate z (mkdirent 0 nm)) = dir_map D.
Proof.
  unfold dir_map. rewrite filter_app. replace (filter _ (replicate z _)) with (@nil dirent); [by rewrite app_nil_r|].
  induction z as [|z IH]; [done|]. cbn [replicate]. rewrite filter_cons_False; [done|]. cbn. tauto.
Qed.

Lemma root_map : entries_of V mkfs_sb ROOTINO = Some (dir_map (root_entries hs)).
Proof.
  unfold entries_of. destruct (io_root _ _ _ Himg) as (Hty & _). change (i_type (inode_on V mkfs_sb ROOTINO)) with (i_type (disk_inode V ROOTINO)).
  rewrite Hty, Z.eqb_refl. destruct root_dir as [z Hd]. unfold image_inode in Hd. by rewrite Hd, dir_map_zero.
Qed.

(** The entries lead to the inodes of the image. *)
Lemma root_next s inum : dir_map (root_entries hs) !! s = Some inum -> 1 <= inum <= 1 + Z.of_nat (length hs).
Proof.
  clear Himg Hmax. rewrite dir_find_map. unfold dir_find. destruct (list_find _ _) as [[j de]|] eqn:E; [|done]. cbn. intros [= <-].
  apply list_find_Some in E as (Hj & _). unfold root_entries in Hj. rewrite list_lookup_fmap in Hj. apply fmap_Some in Hj as ([a nm] & Hj & ->).
  destruct j as [|[|j]]; [injection Hj as <- <-; cbn; lia..|]. rewrite entries_file in Hj. apply fmap_Some in Hj as (h & Hh & [= -> ->]). apply lookup_lt_Some in Hh. cbn. lia.
Qed.

Lemma root_lookup i h : names_ok hs -> hs !! i = Some h ->
  dir_map (root_entries hs) !! take (Z.to_nat DIRSIZ) (file_name h) = Some (2 + Z.of_nat i).
Proof.
  clear Himg Hmax. intros [Hc Hd] Hh. unfold dir_map. rewrite list_filter_all.
  2: { apply Forall_fmap. unfold compose, entries. repeat apply Forall_cons_2; [done..|]. apply Forall_lookup_2. intros j e He.
       rewrite list_lookup_imap in He. apply fmap_Some in He as (h' & _ & ->). cbn. lia. }
  assert ((fun de => (name_of (de_name de), de_inum de)) <$> root_entries hs = (fun e => (take (Z.to_nat DIRSIZ) e.2, e.1)) <$> entries hs) as ->.
  { unfold root_entries. rewrite <- list_fmap_compose. apply list_fmap_ext. intros j [a nm] He. unfold compose. cbn [fst snd de_name de_inum]. f_equal.
    apply name_of_dirname. destruct j as [|[|j]]; [injection He as <- <-; rewrite !not_elem_of_cons; (split_and!; [done..|apply not_elem_of_nil])..|].
    rewrite entries_file in He. apply fmap_Some in He as (h' & Hh' & [= -> ->]). destruct (Forall_lookup_1 _ _ _ _ Hc Hh') as [Hb _].
    intros Hin. rewrite Forall_forall in Hb. specialize (Hb 0 Hin). lia. }
  apply elem_of_list_to_map_1; [by rewrite <- list_fmap_compose|].
  apply list_elem_of_fmap. exists (2 + Z.of_nat i, file_name h). split; [done|]. apply (list_elem_of_lookup_2 _ (S (S i))).
  by rewrite entries_file, Hh.
Qed.
(** Bytes. *)
Lemma root_bytes : names_ok hs -> Forall (fun b => 0 <= b < 256) (file_slice V (image_inode ROOTINO) 0 (root_size hs)).
Proof.
  clear Hmax. intros [Hc _]. destruct (io_root _ _ _ Himg) as (_ & _ & Hs & _ & Hz). change (file_slice V (image_inode ROOTINO)) with (file_slice V (disk_inode V ROOTINO)).
  set (N := 16 * (2 + Z.of_nat (length hs))) in *.
  assert (N <= root_size hs).
  { unfold root_size. fold N. change BSIZE with 1024. pose proof (Z.div_mod N 1024). pose proof (Z.mod_pos_bound N 1024). lia. }
  replace (root_size hs) with (N + (root_size hs - N)) by lia. rewrite file_slice_app by lia. apply Forall_app. split.
  - unfold N. rewrite (io_dir _ _ _ Himg). unfold dir_bytes. apply Forall_join, Forall_fmap, Forall_lookup_2. intros j [a nm] He. unfold compose, entry_bytes, encode_dirent.
    cbn [fst snd de_inum de_name]. assert (forall x, 0 <= u8 x < 256) as Hu by (intros; apply Z.mod_pos_bound; lia).
    repeat apply Forall_cons_2; [apply Hu..|]. unfold dirname. apply Forall_take, Forall_app. split; [|by apply Forall_replicate].
    destruct j as [|[|j]]; [injection He as <- <-; by repeat apply Forall_cons_2..|]. rewrite entries_file in He.
    apply fmap_Some in He as (h & Hh & [= -> ->]). destruct (Forall_lookup_1 _ _ _ _ Hc Hh) as [Hb _]. eapply Forall_impl; [exact Hb|]. cbn. lia.
  - apply Forall_fmap, Forall_lookup_2. intros j o Ho. apply lookup_seqZ in Ho. unfold compose. rewrite Hz; [lia|]. rewrite Hs. lia.
Qed.

Context `{Platform}.

(** A kernel that has read the super block of the image. *)
Definition mounted (k : kernel) : Prop :=
  k_sb k = decode_sb (V 1) /\ l_start (k_log k) = sb_logstart (k_sb k) /\ l_size (k_log k) = sb_nlog (k_sb k).

Lemma image_file_ok k i ty bs :
  mounted k -> files_of hs !! i = Some (ty, bs) -> Z.of_nat (length bs) <= MAXFILE * BSIZE ->
  file_ok k V (image_inode (1 + Z.of_nat i)) (nblk (Z.of_nat (length bs))).
Proof.
  clear Hmax. intros (Esb & Els & Elz) Hi Hl. change (MAXFILE * BSIZE) with (268 * 1024) in Hl.
  change (file_ok k V (image_inode (1 + Z.of_nat i))) with (file_ok k V (disk_inode V (1 + Z.of_nat i))). split.
  - unfold nblk. change MAXFILE with 268. split; [apply Z.div_pos; lia|]. apply Z.lt_succ_r, Z.div_lt_upper_bound; lia.
  - intros j Hj. pose proof (io_blocks _ _ _ Himg i ty bs j Hi Hj) as Hb. pose proof (io_free _ _ _ Himg).
    change nmeta with 46 in Hb. change FSSIZE with 2000 in *. split_and!; [lia| |apply (io_len _ _ _ Himg); change FSSIZE with 2000; lia].
    unfold fs_block, outside. rewrite Els, Elz, Esb, (io_super _ _ _ Himg). change (sb_logstart mkfs_sb) with 2. change (sb_nlog mkfs_sb) with 30. lia.
  - intros j j' Hj Hj' E. by destruct (io_disjoint _ _ _ Himg i ty bs j i ty bs j' Hi Hj Hi Hj' E).
  - intros j Hj. by apply (io_ind _ _ _ Himg i ty bs).
Qed.

(** The inodes of the image. *)
Definition image_inodes (inum : Z) : Prop := 1 <= inum <= 1 + Z.of_nat (length hs).

Lemma image_inodes_cases inum : image_inodes inum ->
  inum = ROOTINO \/ exists i h, hs !! i = Some h /\ inum = 2 + Z.of_nat i.
Proof.
  clear Himg Hmax. intros [H1 H2]. destruct (decide (inum = 1)) as [->|Hne]; [by left|]. right. exists (Z.to_nat (inum - 2)).
  destruct (lookup_lt_is_Some_2 hs (Z.to_nat (inum - 2))) as [h Hh]; [lia|]. exists h. split; [done|lia].
Qed.

Lemma image_tree k : mounted k -> names_ok hs -> (2 + Z.of_nat (length hs)) mod 64 <> 0 -> tree image_inodes V k.
Proof.
  intros Hm Hn H64. pose proof Hm as (Esb & _). rewrite (io_super _ _ _ Himg) in Esb.
  destruct (io_root _ _ _ Himg) as (Rty & Rnl & Rs & _). pose proof (io_file _ _ _ Himg) as Hf. split; rewrite Esb.
  - intros inum [->|(i & h & Hh & ->)]%image_inodes_cases.
    + change (i_type (disk_inode V ROOTINO) <> 0). by rewrite Rty.
    + destruct (Hf i h Hh) as (Hty & _). change (i_type (disk_inode V (2 + Z.of_nat i)) <> 0). by rewrite Hty.
  - intros inum [->|(i & h & Hh & ->)]%image_inodes_cases.
    + change (i_nlink (disk_inode V ROOTINO) <> 0). by rewrite Rnl.
    + destruct (Hf i h Hh) as (_ & Hnl & _). change (i_nlink (disk_inode V (2 + Z.of_nat i)) <> 0). by rewrite Hnl.
  - intros inum [->|(i & h & Hh & ->)]%image_inodes_cases Hty.
    2: { destruct (Hf i h Hh) as (Hty' & _). change (i_type (disk_inode V (2 + Z.of_nat i)) = T_DIR) in Hty. by rewrite Hty' in Hty. }
    intros ip. assert (i_size ip = root_size hs) as Hsz by exact Rs. rewrite Hsz.
    assert (Z.of_nat (length (dir_bytes hs)) = 16 * (2 + Z.of_nat (length hs))) as Hlen by (rewrite length_dir; lia).
    pose proof (image_file_ok k 0 T_DIR (dir_bytes hs) Hm eq_refl) as Hok. rewrite Hlen in Hok.
    exists (nblk (16 * (2 + Z.of_nat (length hs)))). split_and!; [apply Hok; change (MAXFILE * BSIZE) with (268 * 1024); lia|..|by apply root_bytes].
    + unfold root_size. change BSIZE with 1024. pose proof (Z.div_pos (16 * (2 + Z.of_nat (length hs))) 1024). lia.
    + unfold root_size, nblk. change BSIZE with 1024. apply Z.mul_le_mono_nonneg_r; [lia|].
      pose proof (Z.div_mod (2 + Z.of_nat (length hs)) 64 ltac:(lia)). pose proof (Z.mod_pos_bound (2 + Z.of_nat (length hs)) 64 ltac:(lia)).
      apply Z.div_le_lower_bound; [lia|].
      replace (16 * (2 + Z.of_nat (length hs)) / 1024) with ((2 + Z.of_nat (length hs)) / 64); [lia|].
      apply (Z.div_unique _ _ _ (16 * ((2 + Z.of_nat (length hs)) mod 64))); lia.
    + exists ((16 * (2 + Z.of_nat (length hs)) / BSIZE + 1) * 64). unfold root_size. change BSIZE with 1024. change sizeof_dirent with 16. lia.
  - intros inum m s inum' [->|(i & h & Hh & ->)]%image_inodes_cases Hm' Hs.
    + rewrite root_map in Hm'. injection Hm' as <-. by apply root_next in Hs.
    + unfold entries_of in Hm'. destruct (Hf i h Hh) as (Hty & _).
      change (i_type (inode_on V mkfs_sb (2 + Z.of_nat i))) with (i_type (disk_inode V (2 + Z.of_nat i))) in Hm'. by rewrite Hty in Hm'.
Qed.
End image.

(** ** Opening and reading the files *)

Section boot.
Context `{KernelLayout} `{Platform} `{Fuel} `{!DiskDriver} `{!DiskLaws}.
Context (me : nat).
Context (Hfuel : wait_fuel <> O).

(** A file of the image, by its name. *)
Lemma namei_image V hs free n k i h :
  image_ok V hs free -> (length hs <= 198)%nat -> Forall file_good hs -> names_ok hs -> (2 + Z.of_nat (length hs)) mod 64 <> 0 ->
  hs !! i = Some h -> mounted V k -> tx ROOTDEV me n [] V k -> icache ROOTDEV V (k_sb k) (k_itable k) -> ilocks me None k ->
  two_free (k_itable k) ->
  exists ip k', namei (47 :: file_name h) k = Ok (Some ip) k' /\
    found ROOTDEV me n V (refs (k_itable k)) k (Some (2 + Z.of_nat i)) (Some ip) k'.
Proof.
  intros Himg Hmax Hg Hn H64 Hh Hm Ht Hc Hl Hroom. destruct (Forall_lookup_1 _ _ _ _ (no_chars _ Hn) Hh) as [Hb Hne].
  pose proof (file_name_slash h (Forall_lookup_1 _ _ _ _ Hg Hh)) as Hsl.
  assert (0 ∉ 47 :: file_name h) as Hz.
  { apply not_elem_of_cons. split; [done|]. intros Hin. rewrite Forall_forall in Hb. specialize (Hb 0 Hin). lia. }
  assert (k_sb k = mkfs_sb) as Esb by (destruct Hm as [-> _]; apply (io_super _ _ _ Himg)).
  destruct (namex_run ROOTDEV me Hfuel (image_inodes hs) n V k false (47 :: file_name h) (replicate (Z.to_nat DIRSIZ) 0) ROOTINO)
    as (r & nm & k' & E & Hf & _); try done.
  { by apply (image_tree V hs free). }
  { unfold image_inodes. change ROOTINO with 1. lia. }
  rewrite elements_name in Hf by done. cbn [follow andb] in Hf. rewrite Esb, (root_map V hs free Himg) in Hf.
  rewrite (root_lookup hs i h Hn Hh) in Hf. destruct r as [ip|]; [|by destruct Hf as (_ & _ & _ & _ & [])].
  exists ip, k'. split; [|done]. unfold namei. by erewrite bind_ok by exact E.
Qed.

(** C7: every file given to [mkfs], up to the case where the entries of the
    root directory fill its last block, is found by the kernel on the image:
    [namei] of [/] and its name gives an inode that [ilock] loads, and
    [readi] of its length returns its contents. *)
Theorem mkfs_files_read hs :
  Forall file_good hs -> Forall contents_ok hs -> names_ok hs -> (length hs <= 198)%nat -> (2 + Z.of_nat (length hs)) mod 64 <> 0 ->
  nmeta + total (files_of hs) <= FSSIZE ->
  exists f, main hs mkfs_init = Ok tt f /\ decode_sb (view f 1) = mkfs_sb /\
    forall n k i h, hs !! i = Some h -> mounted (view f) k -> tx ROOTDEV me n [] (view f) k ->
      icache ROOTDEV (view f) (k_sb k) (k_itable k) -> ilocks me None k -> two_free (k_itable k) ->
      let len := Z.of_nat (length (contents h)) in
      exists ip k1 k2 k3, namei (47 :: file_name h) k = Ok (Some ip) k1 /\ ilock (Some ip) k1 = Ok tt k2 /\
        readi ip LocalDst 0 len k2 = Ok (len, contents h) k3.
Proof.
  intros Hg Hc Hn Hmax H64 Hroom. destruct (mkfs_image_run hs Hg Hmax Hroom) as (f & E & Himg). exists f. split; [exact E|]. clear E. split; [apply Himg|].
  intros n k i h Hh Hm Ht Hic Hil Hfr2 len. set (V := view f) in *.
  destruct (namei_image V hs (f_freeblock f) n k i h) as (ip & k1 & E1 & Ht1 & Hc1 & Hl1 & Hf1 & Hrf & _); try done.
  pose proof (image_tree V hs _ Himg Hmax k Hm Hn H64) as Htr. pose proof (tree_frame _ V k k1 Hf1 Htr) as Htr1.
  destruct (lock_step ROOTDEV me Hfuel (image_inodes hs) n V k1 ip (2 + Z.of_nat i)) as (k2 & x & E2 & Ht2 & _ & _ & Hf2 & Hx & Hd & Hi & _ & Hfd & _); try done.
  { apply lookup_lt_Some in Hh. unfold image_inodes. lia. }
  assert (inode_frame k k2) as Hf by (etrans; [exact Hf1|exact Hf2]). pose proof Hf as (_ & Esb & EL & _)%inode_frame_keeps.
  assert (mounted V k2) as Hm2 by (destruct Hm as (M1 & M2 & M3); unfold mounted; rewrite Esb, EL; done).
  destruct (io_file _ _ _ Himg i h Hh) as (_ & _ & Hs & Hsl). set (dip := disk_inode V (2 + Z.of_nat i)) in *.
  assert (k_sb k2 = mkfs_sb) as Esb2 by (destruct Hm2 as [-> _]; apply (io_super _ _ _ Himg)).
  assert (i_addrs x = i_addrs dip /\ i_size x = i_size dip) as [Ea Es] by (rewrite <- Hfd, Esb2; unfold from_disk; rewrite Hi; done).
  pose proof (Forall_lookup_1 _ _ _ _ Hg Hh) as (_ & _ & Hlen). change (MAXFILE * BSIZE) with (268 * 1024) in Hlen. fold len in Hlen, Hs.
  pose proof (image_file_ok V hs _ Himg k2 (S i) T_FILE (contents h) Hm2) as Hok.
  replace (1 + Z.of_nat (S i)) with (2 + Z.of_nat i) in Hok by lia. specialize (Hok (fin_file_lookup hs i h Hh) Hlen). fold len in Hok.
  assert (forall o m, file_slice V x o m = file_slice V dip o m) as Hsx by (intros; unfold file_slice, file_byte, blk_addr; by rewrite Ea).
  assert (file_ok k2 V x (nblk len)) as Hokx.
  { destruct Hok as [O1 O2 O3 O4]. split; [done|..]; unfold blk_addr, ind_addr; rewrite Ea; assumption. }
  assert (read_count x 0 len = len) as Hrc by (unfold read_count; rewrite (proj2 (Z.ltb_lt _ _)) by lia; lia).
  destruct (readi_run ROOTDEV me Hfuel n [] V k2 ip x (nblk len) LocalDst 0 len) as (m' & k3 & E3 & _); rewrite ?Hrc; try done; try lia;
    try (intros; apply not_elem_of_nil).
  - cbn. lia.
  - rewrite Es, Hs. change BSIZE with 1024. unfold nblk. pose proof (Z.div_mod (len + 1023) 1024). pose proof (Z.mod_pos_bound (len + 1023) 1024). lia.
  - rewrite Hsx, <- Hs, Hsl. exact (Forall_lookup_1 _ _ _ _ Hc Hh).
  - exists ip, k1, k2, k3. split_and!; [done|done|]. rewrite Hrc in E3. rewrite E3, Hsx. rewrite <- Hs at 2. by rewrite Hsl.
Qed.
End boot.
