(* ===== verification/PathWitness.v ===== *)
(** * The disk image and path names, applied

    An image with one file; and the root directory of [FileWitness], in block 50, with its inode and that
    of the empty file [a] in block 32; no inode is in the table. *)

From stdpp Require Import functions.
From S2P Require Import Prelude Riscv Machine Spinlock PhysMem Kalloc PageTable Vm VmSpec VmCopy Kernel Sched Sleeplock Bio Bytes Uart Printf Log Fs Thread BioRing BioSpec LogDisk LogSpec Demo SchedSpec PipeSpec FsTx FsBlocks FsFile FsWrite FsDir FsLink FsInode FsPath FileWitness Mkfs MkfsSpec MkfsAppend MkfsImage MkfsBoot.

(** ** An image with one file *)

(** The file [user/_a] with 1027 bytes, in two pieces. *)
Definition one_file : list host_file := [mkhost [117; 115; 101; 114; 47; 95; 97] (Some [replicate 1024 7; [1; 2; 3]])].

Lemma mkfs_image_witness :
  exists f, main one_file mkfs_init = Ok tt f /\ i_size (disk_inode (view f) 2) = 1027 /\
    decode_dirent (file_slice (view f) (disk_inode (view f) ROOTINO) 32 16) = mkdirent 2 (97 :: replicate 13 0).
Proof.
  destruct (mkfs_image one_file) as (f & E & Himg).
  - constructor; [|constructor]. split; [|split; [by eexists|by vm_compute]]. apply (bool_decide_unpack _). by vm_compute.
  - cbn. lia.
  - by vm_compute.
  - exists f. split; [exact E|]. split.
    + destruct (io_file _ _ _ Himg 0%nat _ eq_refl) as (_ & _ & Hs & _). exact Hs.
    + destruct (io_root _ _ _ Himg) as (_ & _ & _ & He & _). exact (He 2%nat 2 [97] eq_refl).
Defined.

(** ** Following a path *)

Definition inode_block : list Z :=
  write_dinode (write_dinode (replicate 1024 0) 64 dir_inode) 320 (mkinode 0 5 0 0 T_FILE 0 0 1 0 (replicate 13 0)).

Definition path_disk : Z -> list Z := <[32 := inode_block]> dir_disk.

Definition path_kernel : kernel :=
  (demo_kernel (mk_cache []) (demo_log []) (path_disk, [])) <| k_sb := fs_sb |> <| k_itable := replicate 50 no_inode |>.

Lemma path_tx : tx ROOTDEV 0 8 [] path_disk path_kernel.
Proof. apply tx_set_itable, tx_set_sb. by apply empty_log_tx. Qed.

Lemma path_cache : icache ROOTDEV path_disk fs_sb (replicate 50 no_inode).
Proof. split; [done|by apply Forall_replicate|by apply Forall_replicate]. Qed.

Lemma path_root : entries_of path_disk fs_sb 1 = Some {[ [46] := 1; [97] := 5 ]}.
Proof. apply (bool_decide_unpack _). by vm_compute. Qed.

Lemma path_tree : tree (fun inum => inum = 1 \/ inum = 5) path_disk path_kernel.
Proof.
  split; change (k_sb path_kernel) with fs_sb.
  - intros inum [->| ->]; by vm_compute.
  - intros inum [->| ->]; by vm_compute.
  - intros inum [->| ->] Hty; [|by vm_compute in Hty]. clear Hty. cbv zeta. exists 1.
    assert (blk_addr path_disk (inode_on path_disk fs_sb 1) 0 = 50) as Hb by (by vm_compute).
    assert (i_size (inode_on path_disk fs_sb 1) = 48) as Hs by (by vm_compute). rewrite Hs. split_and!.
    + split.
      * change MAXFILE with 268. lia.
      * intros j Hj. assert (j = 0) as -> by lia. rewrite Hb. split; [lia|]. split; [apply demo_outside; lia|vm_compute; reflexivity].
      * intros j j' Hj Hj' _. lia.
      * intros j Hj. assert (j = 0) as -> by lia. rewrite Hb. vm_compute. discriminate.
    + lia.
    + change BSIZE with 1024. lia.
    + exists 3. reflexivity.
    + vm_decide.
  - intros inum m s inum' [->| ->] Hm Hs; [|by vm_compute in Hm]. rewrite path_root in Hm. injection Hm as <-.
    apply lookup_insert_Some in Hs as [[_ <-]|[_ [_ <-]%lookup_singleton_Some]]; auto.
Qed.

Lemma namex_spec_witness :
  exists i k', namei [47; 97] path_kernel = Ok (Some i) k' /\ refers ROOTDEV 5 i (k_itable k').
Proof.
  destruct (namex_spec ROOTDEV 0 demo_fuel_pos (fun inum => inum = 1 \/ inum = 5) 8 path_disk path_kernel false [47; 97]
    (replicate (Z.to_nat DIRSIZ) 0) ROOTINO) as (r & name' & k' & E & Hf & _).
  - by split.
  - exact path_tx.
  - exact path_cache.
  - intros i _. done.
  - exact path_tree.
  - by left.
  - by exists 0%nat, 1%nat.
  - vm_decide.
  - done.
  - assert (follow path_disk fs_sb false ROOTINO (elements [47; 97]) = Some 5) as Hw.
    { vm_compute. reflexivity. }
    change (k_sb path_kernel) with fs_sb in Hf. rewrite Hw in Hf. clear Hw. destruct Hf as (_ & _ & _ & _ & Hr).
    destruct r as [i|]; [|destruct Hr].
    exists i, k'. split; [|apply Hr]. unfold namei. erewrite bind_ok by exact E. reflexivity.
Defined.

(** ** The image with one file, mounted *)

Definition boot_kernel (f : mkfs) : kernel :=
  (demo_kernel (mk_cache []) (demo_log []) (view f, [])) <| k_sb := mkfs_sb |> <| k_itable := replicate 50 no_inode |>.

Lemma one_file_names : names_ok one_file.
Proof. split; vm_decide. Qed.

Lemma mkfs_files_read_witness :
  exists f, main one_file mkfs_init = Ok tt f /\
    exists k1 k2 k3 ip, namei [47; 97] (boot_kernel f) = Ok (Some ip) k1 /\
      ilock (Some ip) k1 = Ok tt k2 /\ readi ip LocalDst 0 1027 k2 = Ok (1027, replicate 1024 7 ++ [1; 2; 3]) k3.
Proof.
  destruct (mkfs_files_read 0 demo_fuel_pos one_file) as (f & E & Esb & Hf).
  - constructor; [|constructor]. split; [|split; [by eexists|by vm_compute]]. apply (bool_decide_unpack _). by vm_compute.
  - vm_decide.
  - exact one_file_names.
  - cbn. lia.
  - by vm_compute.
  - by vm_compute.
  - exists f. split; [exact E|]. clear E. destruct (Hf 8%nat (boot_kernel f) 0%nat _ eq_refl) as (ip & k1 & k2 & k3 & E1 & E2 & E3).
    + split; [exact (eq_sym Esb)|]. split; reflexivity.
    + apply tx_set_itable, tx_set_sb. by apply empty_log_tx.
    + split; [reflexivity|by apply Forall_replicate|by apply Forall_replicate].
    + intros i _. reflexivity.
    + exists 0%nat, 1%nat. split_and!; [discriminate|reflexivity|reflexivity].
    + exists k1, k2, k3, ip. split_and!; [exact E1|exact E2|exact E3].
Defined.
