(* ===== verification/LogSmp.v ===== *)
(** * The log used by several threads

    Any number of threads run file-system operations, each between [begin_op]
    and [end_op], interleaved at the granularity of the critical sections of
    [log.lock] ([kernel/log.c]); [sleep] gives up the lock and the CPU in one
    step ([SleepSmp.v] has the smaller steps of [sleep] and [wakeup]). A
    block is its number here; [Log.v] models the same code with its buffers
    and disk writes, and [log.lh.n] and the blocks are those of [glog]. *)

From S2P Require Import Prelude Riscv Kernel Mkfs.

(** Where a thread is. *)
Inductive lthr :=
| LOut                     (* not in an operation *)
| LBegin                   (* [begin_op]: about to test *)
| LAsleep                  (* [begin_op]: sleep(&log, &log.lock) *)
| LOp (W : gset Z)         (* in an operation that has logged the blocks W *)
| LCommit                  (* [end_op]: commit() *)
| LCommitted               (* [end_op]: after commit() *).

(** [struct log]: the fields that the operations share; [lh.n] is the length
    of [g_block]. *)
Record glog := mkglog { g_thr : list lthr; g_outstanding : Z; g_committing : bool; g_block : list Z }.

#[export] Instance eta_glog : Eta glog := fun s => mkglog (g_thr s) (g_outstanding s) (g_committing s) (g_block s).

Inductive lact := ACall (i : nat) | ABegin (i : nat) | AWrite (i : nat) (b : Z) | AEnd (i : nat) | ACommit (i : nat) | AFinish (i : nat).

(** The result of a critical section: it is not this thread's turn, the next
    state, or a panic. *)
Inductive lres := LStuck | LNext (s : glog) | LPanic.

(** [wakeup(&log)] *)
Definition lwake (ts : list lthr) : list lthr :=
  (fun t => match t with LAsleep => LBegin | _ => t end) <$> ts.

Definition lh_n (s : glog) : Z := Z.of_nat (length (g_block s)).

Definition set_thr (i : nat) (t : lthr) (s : glog) : glog := s <| g_thr ::= insert i t |>.

(** [size] is [log.size]. An operation logs at most [B] different blocks. *)
Section log.
Context (size : Z) (B : nat).

(** [begin_op], from the acquisition of the lock to its release or to
    [sleep]. *)
Definition begin_op_step (i : nat) (s : glog) : lres :=
  match g_thr s !! i with
  | Some LBegin =>
      if g_committing s then LNext (set_thr i LAsleep s)
      else if LOGSIZE <? lh_n s + (g_outstanding s + 1) * MAXOPBLOCKS then LNext (set_thr i LAsleep s)
      else LNext (set_thr i (LOp ∅) s <| g_outstanding := g_outstanding s + 1 |>)
  | _ => LStuck
  end.

(** [log_write] of block [b]. *)
Definition log_write_step (i : nat) (b : Z) (s : glog) : lres :=
  match g_thr s !! i with
  | Some (LOp W) =>
      if decide (stdpp.base.size ({[b]} ∪ W) <= B)%nat then
        if (LOGSIZE <=? lh_n s) || (size - 1 <=? lh_n s) then LPanic
        else if g_outstanding s <? 1 then LPanic
        else let s := set_thr i (LOp ({[b]} ∪ W)) s in
             LNext (if decide (b ∈ g_block s) then s else s <| g_block := g_block s ++ [b] |>)
      else LStuck
  | _ => LStuck
  end.

(** [end_op], up to the first release of the lock. *)
Definition end_op_step (i : nat) (s : glog) : lres :=
  match g_thr s !! i with
  | Some (LOp _) =>
      let s := s <| g_outstanding := g_outstanding s - 1 |> in
      if g_committing s then LPanic
      else if g_outstanding s =? 0 then LNext (set_thr i LCommit s <| g_committing := true |>)
      else LNext (set_thr i LOut (s <| g_thr ::= lwake |>))
  | _ => LStuck
  end.

(** [commit], which leaves the log empty. *)
Definition commit_step (i : nat) (s : glog) : lres :=
  match g_thr s !! i with
  | Some LCommit => LNext (set_thr i LCommitted s <| g_block := [] |>)
  | _ => LStuck
  end.

(** [end_op], after [commit]. *)
Definition committed_step (i : nat) (s : glog) : lres :=
  match g_thr s !! i with
  | Some LCommitted => LNext (set_thr i LOut (s <| g_committing := false |> <| g_thr ::= lwake |>))
  | _ => LStuck
  end.

Definition log_act (a : lact) (s : glog) : lres :=
  match a with
  | ACall i => match g_thr s !! i with Some LOut => LNext (set_thr i LBegin s) | _ => LStuck end
  | ABegin i => begin_op_step i s
  | AWrite i b => log_write_step i b s
  | AEnd i => end_op_step i s
  | ACommit i => commit_step i s
  | AFinish i => committed_step i s
  end.

Definition log_step (s s' : glog) : Prop := exists a, log_act a s = LNext s'.

End log.

(** A run of the log: the result of the actions of a list in turn. *)
Fixpoint log_run (lsize : Z) (B : nat) (acts : list lact) (s : glog) : lres :=
  match acts with
  | [] => LNext s
  | a :: acts =>
      match log_act lsize B a s with
      | LNext s' => log_run lsize B acts s'
      | r => r
      end
  end.

Definition glog_init (n : nat) : glog := mkglog (replicate n LOut) 0 false [].

Ltac log_unfold := unfold log_act, begin_op_step, log_write_step, end_op_step, commit_step, committed_step.

(** ** The invariant *)

Lemma sum_insert {A} (f : A -> nat) l i x y :
  l !! i = Some x -> (sum_list_with f (<[i := y]> l) + f x = sum_list_with f l + f y)%nat.
Proof.
  revert i. induction l as [|z l IH]; intros [|i] Hi; try done; simpl in *.
  - injection Hi as ->. lia.
  - specialize (IH i Hi). lia.
Qed.

Lemma sum_lookup {A} (f : A -> nat) l i x : l !! i = Some x -> (f x <= sum_list_with f l)%nat.
Proof.
  revert i. induction l as [|z l IH]; intros [|i] Hi; try done; simpl in *; [injection Hi as ->; lia|]. specialize (IH i Hi). lia.
Qed.

Lemma sum_nonzero {A} (f : A -> nat) l : sum_list_with f l <> 0%nat -> exists i x, l !! i = Some x /\ f x <> 0%nat.
Proof.
  induction l as [|x l IH]; [done|]. simpl. intros H. destruct (decide (f x = 0%nat)) as [E|E]; [|by exists 0%nat, x].
  destruct IH as (i & y & ?); [lia|]. by exists (S i), y.
Qed.

Lemma sum_unique {A} (f : A -> nat) l i j x y :
  sum_list_with f l = 1%nat -> f x <> 0%nat -> f y <> 0%nat -> l !! i = Some x -> l !! j = Some y -> i = j.
Proof.
  revert i j. induction l as [|z l IH]; intros [|i] [|j] Hs Hx Hy Hi Hj; try done; simpl in *.
  - injection Hi as ->. apply (sum_lookup f) in Hj. lia.
  - injection Hj as ->. apply (sum_lookup f) in Hi. lia.
  - f_equal. apply (sum_lookup f) in Hi as Hi'. eapply IH; eauto. lia.
Qed.

Lemma sum_lwake f ts : f LAsleep = f LBegin -> sum_list_with f (lwake ts) = sum_list_with f ts.
Proof. intros Hf. induction ts as [|t ts IH]; [done|]. cbn. fold (lwake ts). rewrite IH. destruct t; congruence. Qed.

Lemma lwake_lookup ts i t : lwake ts !! i = Some t -> t <> LAsleep /\ (ts !! i = Some t \/ t = LBegin /\ ts !! i = Some LAsleep).
Proof.
  unfold lwake. rewrite list_lookup_fmap. destruct (ts !! i) as [u|]; [|done]. intros [= <-]. destruct u; auto.
Qed.

#[local] Arguments lwake _ : simpl never.

Lemma lwake_insert ts i t : t <> LAsleep -> <[i := t]> (lwake ts) = lwake (<[i := t]> ts).
Proof. intros Ht. unfold lwake. rewrite list_fmap_insert. by destruct t. Qed.

Definition in_op (t : lthr) : nat := match t with LOp _ => 1 | _ => 0 end.

Definition committer (t : lthr) : nat := match t with LCommit | LCommitted => 1 | _ => 0 end.

Definition quiet (t : lthr) : bool := match t with LOut | LBegin | LAsleep => true | _ => false end.

(** The blocks that an operation may still log. *)
Definition spare (B : nat) (t : lthr) : nat := match t with LOp W => B - size W | _ => 0 end.

Record log_inv (B : nat) (s : glog) : Prop := {
  li_out : g_outstanding s = Z.of_nat (sum_list_with in_op (g_thr s));
  li_com : sum_list_with committer (g_thr s) = if g_committing s then 1%nat else 0%nat;
  li_alone : g_committing s = true -> g_outstanding s = 0;
  li_logged : forall i W, g_thr s !! i = Some (LOp W) -> (size W <= B)%nat /\ forall b, b ∈ W -> b ∈ g_block s;
  li_room : lh_n s + Z.of_nat (sum_list_with (spare B) (g_thr s)) <= LOGSIZE - 2;
  li_empty : g_outstanding s = 0 -> g_committing s = false -> g_block s = [];
  li_done : forall i, g_thr s !! i = Some LCommitted -> g_block s = [];
  li_sleep : forall i, g_thr s !! i = Some LAsleep -> 0 < g_outstanding s \/ g_committing s = true
}.

Section inv.
Context (lsize : Z) (B : nat).
Context (Hsize : LOGSIZE <= lsize) (HB : Z.of_nat B < MAXOPBLOCKS).

Lemma log_init_inv n : log_inv B (glog_init n).
Proof.
  assert (forall f, f LOut = 0%nat -> sum_list_with f (replicate n LOut) = 0%nat) as Hs.
  { intros f Hf. induction n as [|m IH]; [done|]. cbn. lia. }
  split; cbn; rewrite ?Hs by done; try done.
  - intros i W Hi. by apply lookup_replicate in Hi as [? _].
  - intros i Hi. by apply lookup_replicate in Hi as [? _].
Qed.

(** An operation in progress: no commit is running, and there is room. *)
Lemma inv_op s i W : log_inv B s -> g_thr s !! i = Some (LOp W) -> 1 <= g_outstanding s /\ g_committing s = false /\ lh_n s < LOGSIZE - 1.
Proof.
  intros [Ho Hc Ha _ Hr _ _ _] Hi. pose proof (sum_lookup in_op _ _ _ Hi) as Hs. cbn in Hs. split_and!; [lia| |lia].
  destruct (g_committing s) eqn:E; [|done]. specialize (Ha eq_refl). lia.
Qed.

(** A committing thread: no operation is in progress. *)
Lemma inv_committing s i t : log_inv B s -> g_thr s !! i = Some t -> committer t = 1%nat -> g_committing s = true /\ g_outstanding s = 0.
Proof.
  intros [_ Hc Ha _ _ _ _ _] Hi Ht. pose proof (sum_lookup committer _ _ _ Hi) as Hs. rewrite Ht in Hs.
  destruct (g_committing s) eqn:E; [auto|]. rewrite Hc in Hs. lia.
Qed.

Lemma no_op s i W : log_inv B s -> g_outstanding s = 0 -> g_thr s !! i = Some (LOp W) -> False.
Proof. intros Hinv Ho Hi. destruct (inv_op s i W Hinv Hi). lia. Qed.

Lemma log_no_panic a s : log_inv B s -> log_act lsize B a s <> LPanic.
Proof.
  intros Hinv. destruct a as [i|i|i b|i|i|i]; log_unfold; destruct (g_thr s !! i) as [[| | |W| |]|] eqn:E; try done.
  - destruct (g_committing s); [done|]. by destruct (_ <? _).
  - destruct (inv_op s i W Hinv E) as (Ho & Hc & Hr). destruct (decide _); [|done].
    destruct (Z.leb_spec LOGSIZE (lh_n s)); [lia|]. destruct (Z.leb_spec (lsize - 1) (lh_n s)); [lia|]. cbn [orb].
    destruct (Z.ltb_spec (g_outstanding s) 1); [lia|]. done.
  - destruct (inv_op s i W Hinv E) as (Ho & Hc & Hr). cbn. rewrite Hc. by destruct (_ =? _).
Qed.

(** A thread that is in no operation moves to another such state. *)
Lemma inv_quiet s i t t' :
  log_inv B s -> g_thr s !! i = Some t -> quiet t = true -> quiet t' = true ->
  (t' = LAsleep -> 0 < g_outstanding s \/ g_committing s = true) -> log_inv B (set_thr i t' s).
Proof.
  intros [Ho Hc Ha Hl Hr He Hd Hs] Hi Hq Hq' Ht'.
  pose proof (sum_insert in_op _ _ _ t' Hi) as H1. pose proof (sum_insert committer _ _ _ t' Hi) as H2.
  pose proof (sum_insert (spare B) _ _ _ t' Hi) as H3.
  assert (in_op t = 0 /\ committer t = 0 /\ spare B t = 0)%nat as (?&?&?) by by destruct t.
  assert (in_op t' = 0 /\ committer t' = 0 /\ spare B t' = 0)%nat as (?&?&?) by by destruct t'.
  split; cbn; try done; [lia|lia| |unfold lh_n in *; cbn; lia| |].
  - intros j W [(_ & -> & _)|(_ & Hj)]%list_lookup_insert_Some; [done|eauto].
  - intros j [(_ & -> & _)|(_ & Hj)]%list_lookup_insert_Some; [done|eauto].
  - intros j [(_ & ? & _)|(_ & Hj)]%list_lookup_insert_Some; eauto.
Qed.

(** [wakeup(&log)] *)
Lemma inv_wake s : log_inv B s -> log_inv B (s <| g_thr ::= lwake |>).
Proof.
  intros [Ho Hc Ha Hl Hr He Hd Hs]. split; cbn; rewrite ?sum_lwake by done; try done.
  - intros j W [_ [Hj|[? _]]]%lwake_lookup; [eauto|done].
  - intros j [_ [Hj|[? _]]]%lwake_lookup; [eauto|done].
  - intros j [? _]%lwake_lookup. done.
Qed.

Lemma inv_begin s i :
  log_inv B s -> g_thr s !! i = Some LBegin -> g_committing s = false ->
  lh_n s + (g_outstanding s + 1) * MAXOPBLOCKS <= LOGSIZE ->
  log_inv B (set_thr i (LOp ∅) (s <| g_outstanding := g_outstanding s + 1 |>)).
Proof.
  intros [Ho Hc Ha Hl Hr He Hd Hs] Hi Hcom Hroom.
  pose proof (sum_insert in_op _ _ _ (LOp ∅) Hi) as H1. pose proof (sum_insert committer _ _ _ (LOp ∅) Hi) as H2.
  pose proof (sum_insert (spare B) _ _ _ (LOp ∅) Hi) as H3. cbn in H1, H2, H3. rewrite size_empty in H3.
  split; cbn; try congruence; [lia|lia| | |lia| |].
  - intros j W [(<- & [= <-] & _)|(_ & Hj)]%list_lookup_insert_Some; [|eauto]. split; [rewrite size_empty; lia|]. intros b []%elem_of_empty.
  - assert (sum_list_with (spare B) (g_thr s) <= B * sum_list_with in_op (g_thr s))%nat as Hsp.
    { clear. induction (g_thr s) as [|t ts IH]; cbn; [lia|]. destruct t; cbn; lia. }
    unfold lh_n in *. cbn. unfold LOGSIZE, MAXOPBLOCKS in *. destruct (decide (g_outstanding s = 0)) as [E|E]; [|nia].
    rewrite (He E Hcom) in *. cbn in *. nia.
  - intros j [(_ & [=] & _)|(_ & Hj)]%list_lookup_insert_Some. eauto.
  - intros j Hj. left. lia.
Qed.

Lemma inv_write s i W b :
  log_inv B s -> g_thr s !! i = Some (LOp W) -> (size ({[b]} ∪ W) <= B)%nat ->
  log_inv B (let s := set_thr i (LOp ({[b]} ∪ W)) s in if decide (b ∈ g_block s) then s else s <| g_block := g_block s ++ [b] |>).
Proof.
  intros Hinv Hi HW. destruct (inv_op s i W Hinv Hi) as (Hout & Hcom & _). destruct Hinv as [Ho Hc Ha Hl Hr He Hd Hs].
  pose proof (sum_insert in_op _ _ _ (LOp ({[b]} ∪ W)) Hi) as H1. pose proof (sum_insert committer _ _ _ (LOp ({[b]} ∪ W)) Hi) as H2.
  pose proof (sum_insert (spare B) _ _ _ (LOp ({[b]} ∪ W)) Hi) as H3. cbn in H1, H2, H3.
  assert (size W <= size ({[b]} ∪ W))%nat by (apply subseteq_size, union_subseteq_r).
  assert (forall j, g_thr s !! j = Some LCommitted -> False) as Hno.
  { intros j Hj. apply (sum_lookup committer) in Hj. rewrite Hc, Hcom in Hj. cbn in Hj. lia. }
  unfold lh_n in *. cbn zeta. case_decide as Hb; cbn in Hb.
  - split; unfold lh_n; cbn; try done; [lia|lia| |lia| |].
    + intros j V [(<- & [= <-] & _)|(_ & Hj)]%list_lookup_insert_Some; [|eauto]. split; [done|].
      intros c [->%elem_of_singleton|Hc']%elem_of_union; [done|]. by eapply Hl.
    + intros j [(_ & [=] & _)|(_ & Hj)]%list_lookup_insert_Some. by destruct (Hno j).
    + intros j [(_ & [=] & _)|(_ & Hj)]%list_lookup_insert_Some; eauto.
  - assert (size ({[b]} ∪ W) = S (size W)) as Hsz.
    { rewrite size_union, size_singleton; [done|]. intros c ->%elem_of_singleton Hc'. by apply Hb, (proj2 (Hl i W Hi)). }
    split; unfold lh_n; cbn; try done; [lia|lia| | |lia| |].
    + intros j V [(<- & [= <-] & _)|(_ & Hj)]%list_lookup_insert_Some; setoid_rewrite elem_of_app.
      * split; [done|]. intros c [->%elem_of_singleton|Hc']%elem_of_union; [right; by apply list_elem_of_singleton|]. left. by eapply Hl.
      * destruct (Hl j V Hj). auto.
    + rewrite length_app. cbn. lia.
    + intros j [(_ & [=] & _)|(_ & Hj)]%list_lookup_insert_Some. by destruct (Hno j).
    + intros j [(_ & [=] & _)|(_ & Hj)]%list_lookup_insert_Some; eauto.
Qed.

(** [end_op], up to the release of the lock. *)
Lemma inv_end_last s i W :
  log_inv B s -> g_thr s !! i = Some (LOp W) -> g_outstanding s = 1 ->
  log_inv B (set_thr i LCommit (s <| g_outstanding := 0 |> <| g_committing := true |>)).
Proof.
  intros Hinv Hi Hout. destruct (inv_op s i W Hinv Hi) as (_ & Hcom & _). destruct Hinv as [Ho Hc Ha Hl Hr He Hd Hs].
  pose proof (sum_insert in_op _ _ _ LCommit Hi) as H1. pose proof (sum_insert committer _ _ _ LCommit Hi) as H2.
  pose proof (sum_insert (spare B) _ _ _ LCommit Hi) as H3. cbn in H1, H2, H3. rewrite Hcom in Hc.
  split; unfold lh_n in *; cbn; try done; [lia|lia| |lia| |auto].
  - intros j V [(_ & [=] & _)|(_ & Hj)]%list_lookup_insert_Some. eauto.
  - intros j [(_ & [=] & _)|(_ & Hj)]%list_lookup_insert_Some. eauto.
Qed.

Lemma inv_end_other s i W :
  log_inv B s -> g_thr s !! i = Some (LOp W) -> g_outstanding s <> 1 ->
  log_inv B (set_thr i LOut (s <| g_outstanding := g_outstanding s - 1 |>)).
Proof.
  intros Hinv Hi Hout. destruct (inv_op s i W Hinv Hi) as (Hout' & Hcom & _). destruct Hinv as [Ho Hc Ha Hl Hr He Hd Hs].
  pose proof (sum_insert in_op _ _ _ LOut Hi) as H1. pose proof (sum_insert committer _ _ _ LOut Hi) as H2.
  pose proof (sum_insert (spare B) _ _ _ LOut Hi) as H3. cbn in H1, H2, H3.
  split; unfold lh_n in *; cbn; try congruence; [lia|lia| |lia|lia| |].
  - intros j V [(_ & [=] & _)|(_ & Hj)]%list_lookup_insert_Some. eauto.
  - intros j [(_ & [=] & _)|(_ & Hj)]%list_lookup_insert_Some. eauto.
  - intros j _. lia.
Qed.

(** [commit] *)
Lemma inv_commit s i :
  log_inv B s -> g_thr s !! i = Some LCommit -> log_inv B (set_thr i LCommitted (s <| g_block := [] |>)).
Proof.
  intros Hinv Hi. destruct (inv_committing s i _ Hinv Hi eq_refl) as [Hcom Hout].
  assert (forall j V, g_thr s !! j = Some (LOp V) -> False) as Hno by (intros j V; by apply no_op).
  destruct Hinv as [Ho Hc Ha Hl Hr He Hd Hs].
  pose proof (sum_insert in_op _ _ _ LCommitted Hi) as H1. pose proof (sum_insert committer _ _ _ LCommitted Hi) as H2.
  pose proof (sum_insert (spare B) _ _ _ LCommitted Hi) as H3. cbn in H1, H2, H3.
  split; unfold lh_n in *; cbn; try done; [lia|lia| |lia|auto].
  intros j V [(_ & [=] & _)|(_ & Hj)]%list_lookup_insert_Some. by destruct (Hno j V).
Qed.

Lemma inv_finish s i :
  log_inv B s -> g_thr s !! i = Some LCommitted -> log_inv B (set_thr i LOut (s <| g_committing := false |> <| g_thr ::= lwake |>)).
Proof.
  intros Hinv Hi. destruct (inv_committing s i _ Hinv Hi eq_refl) as [Hcom Hout]. destruct Hinv as [Ho Hc Ha Hl Hr He Hd Hs].
  assert (lwake (g_thr s) !! i = Some LCommitted) as Hi' by (unfold lwake; by rewrite list_lookup_fmap, Hi).
  pose proof (sum_insert in_op _ _ _ LOut Hi') as H1. pose proof (sum_insert committer _ _ _ LOut Hi') as H2.
  pose proof (sum_insert (spare B) _ _ _ LOut Hi') as H3. rewrite !sum_lwake in H1, H2, H3 by done. cbn in H1, H2, H3. rewrite Hcom in Hc.
  split; unfold lh_n in *; cbn; try done; [lia|lia| |lia|eauto| |].
  - intros j V [(_ & [=] & _)|(_ & [_ [Hj|[[=] _]]]%lwake_lookup)]%list_lookup_insert_Some. eauto.
  - intros j [(_ & [=] & _)|(_ & [_ [Hj|[[=] _]]]%lwake_lookup)]%list_lookup_insert_Some. eauto.
  - intros j [(_ & [=] & _)|(_ & [? _]%lwake_lookup)]%list_lookup_insert_Some. done.
Qed.

Lemma log_step_inv s s' : log_inv B s -> log_step lsize B s s' -> log_inv B s'.
Proof.
  intros Hinv [a Ha]. destruct a as [i|i|i b|i|i|i]; unfold log_act, begin_op_step, log_write_step, end_op_step, commit_step, committed_step in Ha;
    destruct (g_thr s !! i) as [[| | |W| |]|] eqn:E; try done.
  - injection Ha as <-. by eapply inv_quiet.
  - destruct (g_committing s) eqn:Hc.
    { injection Ha as <-. eapply inv_quiet; eauto. }
    destruct (Z.ltb_spec LOGSIZE (lh_n s + (g_outstanding s + 1) * MAXOPBLOCKS)) as [Hlt|Hge]; injection Ha as <-.
    + eapply inv_quiet; [done..|]. intros _. left. destruct Hinv as [Ho _ _ _ _ He _ _]. unfold lh_n, LOGSIZE, MAXOPBLOCKS in *.
      destruct (decide (g_outstanding s = 0)) as [E0|]; [|lia]. rewrite (He E0 Hc), E0 in Hlt. cbn in Hlt. lia.
    + by apply inv_begin.
  - case_decide as Hb; [|done]. destruct (_ || _); [done|]. destruct (_ <? _); [done|]. injection Ha as <-. by apply inv_write.
  - cbn in Ha. destruct (inv_op s i W Hinv E) as (_ & Hc & _). rewrite Hc in Ha.
    destruct (Z.eqb_spec (g_outstanding s - 1) 0) as [E0|E0]; injection Ha as <-.
    + rewrite E0. by eapply inv_end_last; [..|lia].
    + change (log_inv B (mkglog (<[i := LOut]> (lwake (g_thr s))) (g_outstanding s - 1) (g_committing s) (g_block s))).
      rewrite lwake_insert by done. apply (inv_wake _ (inv_end_other s i W Hinv E ltac:(lia))).
  - injection Ha as <-. by apply inv_commit.
  - injection Ha as <-. by apply inv_finish.
Qed.

Lemma log_reach_inv n s : rtc (log_step lsize B) (glog_init n) s -> log_inv B s.
Proof.
  intros H. assert (log_inv B (glog_init n)) as Hinv by apply log_init_inv.
  induction H; eauto using log_step_inv.
Qed.

(** ** Progress *)

(** Thread [i] waits in [begin_op]. *)
Definition waits (i : nat) (s : glog) : Prop := exists t, g_thr s !! i = Some t /\ (t = LBegin \/ t = LAsleep).

Lemma waits_set i j t u s : waits i s -> g_thr s !! j = Some u -> quiet u = false -> waits i (set_thr j t s).
Proof.
  intros (v & Hi & Hv) Hj Hu. exists v. split; [|done]. cbn. rewrite list_lookup_insert_ne; [done|].
  intros ->. destruct Hv; simplify_eq.
Qed.

Lemma waits_wake i s : waits i s -> waits i (s <| g_thr ::= lwake |>).
Proof.
  intros (v & Hi & Hv). exists LBegin. split; [|auto]. cbn. unfold lwake. rewrite list_lookup_fmap, Hi. by destruct Hv as [-> | ->].
Qed.

(** The state once a commit in progress is over. *)
Lemma drain_commit s i :
  log_inv B s -> waits i s -> g_committing s = true ->
  exists s', rtc (log_step lsize B) s s' /\ waits i s' /\ g_outstanding s' = 0 /\ g_committing s' = false.
Proof.
  intros Hinv Hw Hcom. destruct (sum_nonzero committer (g_thr s)) as (j & t & Hj & Ht).
  { by rewrite (li_com _ _ Hinv), Hcom. }
  pose proof (li_alone _ _ Hinv Hcom) as Hout.
  assert (forall s, waits i s -> g_thr s !! j = Some LCommitted -> g_outstanding s = 0 ->
    exists s', rtc (log_step lsize B) s s' /\ waits i s' /\ g_outstanding s' = 0 /\ g_committing s' = false) as Hfin.
  { clear. intros s Hw Hj Hout. eexists. split; [apply rtc_once; exists (AFinish j); log_unfold; by rewrite Hj|].
    split; [|done]. apply (waits_set i j _ LCommitted); [by apply (waits_wake i (s <| g_committing := false |>))| |done].
    cbn. unfold lwake. by rewrite list_lookup_fmap, Hj. }
  destruct t; try done; [|by apply Hfin].
  edestruct (Hfin (set_thr j LCommitted (s <| g_block := [] |>))) as (s' & Hs' & ?); [| |done|].
  - by eapply waits_set.
  - cbn. apply list_lookup_insert_eq. by eapply lookup_lt_Some.
  - exists s'. split; [|done]. eapply rtc_l; [|done]. exists (ACommit j). log_unfold. by rewrite Hj.
Qed.

Lemma drain k : forall s i,
  log_inv B s -> waits i s -> g_outstanding s = Z.of_nat k ->
  exists s', rtc (log_step lsize B) s s' /\ waits i s' /\ g_outstanding s' = 0 /\ g_committing s' = false.
Proof.
  induction k as [|k IH]; intros s i Hinv Hw Hk.
  { destruct (g_committing s) eqn:Hc; [by apply drain_commit|]. exists s. split_and!; [apply rtc_refl|done..]. }
  destruct (sum_nonzero in_op (g_thr s)) as (j & t & Hj & Ht).
  { pose proof (li_out _ _ Hinv). lia. }
  destruct t as [| | |W| |]; try done. destruct (inv_op s j W Hinv Hj) as (_ & Hc & _).
  assert (exists s1, log_act lsize B (AEnd j) s = LNext s1 /\ waits i s1 /\ g_outstanding s1 = Z.of_nat k) as (s1 & Hs1 & Hw1 & Hk1).
  { log_unfold. rewrite Hj. cbn. rewrite Hc. destruct (Z.eqb_spec (g_outstanding s - 1) 0); eexists; (split; [done|]).
    - split; [by eapply waits_set|cbn; lia].
    - split; [|cbn; lia]. apply (waits_set i j _ (LOp W)); [by apply (waits_wake i (s <| g_outstanding := g_outstanding s - 1 |>))| |done].
      cbn. unfold lwake. by rewrite list_lookup_fmap, Hj. }
  assert (log_step lsize B s s1) as Hstep by by exists (AEnd j).
  destruct (IH s1 i) as (s' & Hs' & ?); [by eapply log_step_inv|done..|].
  exists s'. split; [|done]. by eapply rtc_l.
Qed.

(** A thread that waits in [begin_op] can begin its operation, once the
    operations in progress end. *)
Lemma log_progress s i :
  log_inv B s -> waits i s -> exists s', rtc (log_step lsize B) s s' /\ g_thr s' !! i = Some (LOp ∅).
Proof.
  intros Hinv Hw. destruct (drain (Z.to_nat (g_outstanding s)) s i Hinv Hw) as (s' & Hs' & (t & Hi & Ht) & Hout & Hcom).
  { pose proof (li_out _ _ Hinv). lia. }
  assert (log_inv B s') as Hinv' by (clear -Hsize HB Hinv Hs'; induction Hs'; eauto using log_step_inv).
  assert (t = LBegin) as ->.
  { destruct Ht as [Ht|Ht]; subst t; [done|]. destruct (li_sleep _ _ Hinv' i Hi); [lia|congruence]. }
  eexists. split.
  - eapply rtc_r; [done|]. exists (ABegin i). log_unfold. rewrite Hi, Hcom. unfold lh_n. rewrite (li_empty _ _ Hinv' Hout Hcom), Hout. done.
  - cbn. apply list_lookup_insert_eq. by eapply lookup_lt_Some.
Qed.

(** ** Termination *)

Definition is_call (a : lact) : bool := match a with ACall _ => true | _ => false end.

Definition is_write (a : lact) : bool := match a with AWrite _ _ => true | _ => false end.

(** The critical sections that a thread has still to run, sleeping apart. *)
Definition thr_rank (t : lthr) : nat :=
  match t with LOut => 0 | LCommitted => 1 | LCommit => 2 | LOp _ => 3 | LBegin | LAsleep => 4 end.

Definition testing (t : lthr) : nat := match t with LBegin => 1 | _ => 0 end.

(** A bound on the critical sections of all threads: between two ends of
    operations every thread tests once. *)
Definition rank (s : glog) : nat :=
  (sum_list_with thr_rank (g_thr s) * S (length (g_thr s)) + sum_list_with testing (g_thr s))%nat.

Lemma testing_le ts : (sum_list_with testing ts <= length ts)%nat.
Proof. induction ts as [|t ts IH]; [done|]. cbn. destruct t; cbn; lia. Qed.

(** The rank falls when a thread comes closer to its end. *)
Lemma rank_lt ts ts' o o' c c' b b' :
  length ts' = length ts -> (sum_list_with thr_rank ts' < sum_list_with thr_rank ts)%nat ->
  (rank (mkglog ts' o' c' b') < rank (mkglog ts o c b))%nat.
Proof. intros Hl Hlt. unfold rank. cbn. rewrite Hl. pose proof (testing_le ts'). nia. Qed.

Lemma length_lwake ts : length (lwake ts) = length ts.
Proof. apply length_fmap. Qed.

Lemma act_rank a s s' :
  log_act lsize B a s = LNext s' -> is_call a = false -> (rank s' + (if is_write a then 0 else 1) <= rank s)%nat.
Proof.
  intros Ha Hcall. destruct s as [ts o c bl]. destruct a as [i|i|i b|i|i|i]; [done|..];
    unfold log_act, begin_op_step, log_write_step, end_op_step, commit_step, committed_step in Ha; cbn [g_thr] in Ha;
    destruct (ts !! i) as [[| | |W| |]|] eqn:E; try done; cbn [is_write]; pose proof (lookup_lt_Some _ _ _ E) as Hi.
  - assert (rank (mkglog (<[i := LAsleep]> ts) o c bl) + 1 <= rank (mkglog ts o c bl))%nat as Hs.
    { unfold rank. cbn [g_thr]. rewrite length_insert. pose proof (sum_insert thr_rank _ _ _ LAsleep E). pose proof (sum_insert testing _ _ _ LAsleep E).
      cbn in *. nia. }
    cbn in Ha. destruct c; [by injection Ha as <-|]. destruct (_ <? _); injection Ha as <-; [done|].
    rewrite Nat.add_1_r. apply (rank_lt ts (<[i := LOp ∅]> ts)); [apply length_insert|]. pose proof (sum_insert thr_rank _ _ _ (LOp ∅) E) as Hr. cbn in Hr. lia.
  - case_decide; [|done]. destruct (_ || _); [done|]. destruct (_ <? _); [done|]. injection Ha as <-. rewrite Nat.add_0_r.
    assert (forall bl', rank (mkglog (<[i := LOp ({[b]} ∪ W)]> ts) o c bl') <= rank (mkglog ts o c bl))%nat as Hs.
    { intros bl'. unfold rank. cbn [g_thr]. rewrite length_insert. pose proof (sum_insert thr_rank _ _ _ (LOp ({[b]} ∪ W)) E).
      pose proof (sum_insert testing _ _ _ (LOp ({[b]} ∪ W)) E). cbn in *. nia. }
    case_decide; apply Hs.
  - cbn in Ha. destruct c; [done|]. destruct (_ =? _); injection Ha as <-; rewrite Nat.add_1_r.
    + apply (rank_lt ts (<[i := LCommit]> ts)); [apply length_insert|]. pose proof (sum_insert thr_rank _ _ _ LCommit E) as Hr. cbn in Hr. lia.
    + apply (rank_lt ts (<[i := LOut]> (lwake ts))); rewrite lwake_insert by done; [by rewrite length_lwake, length_insert|]. rewrite sum_lwake by done.
      pose proof (sum_insert thr_rank _ _ _ LOut E) as Hr. cbn in Hr. lia.
  - injection Ha as <-. rewrite Nat.add_1_r. apply (rank_lt ts (<[i := LCommitted]> ts)); [apply length_insert|].
    pose proof (sum_insert thr_rank _ _ _ LCommitted E) as Hr. cbn in Hr. lia.
  - injection Ha as <-. rewrite Nat.add_1_r. apply (rank_lt ts (<[i := LOut]> (lwake ts))); rewrite lwake_insert by done; [by rewrite length_lwake, length_insert|].
    rewrite sum_lwake by done. pose proof (sum_insert thr_rank _ _ _ LOut E) as Hr. cbn in Hr. lia.
Qed.

Lemma run_rank acts : forall s s',
  log_run lsize B acts s = LNext s' -> Forall (fun a => is_call a = false) acts ->
  (rank s' + length (filter (fun a => is_write a = false) acts) <= rank s)%nat.
Proof.
  induction acts as [|a acts IH]; intros s s' Hr Hc; cbn [log_run] in Hr; [injection Hr as ->; cbn; lia|].
  apply Forall_cons in Hc as [Ha Hc]. destruct (log_act lsize B a s) as [|s1|] eqn:E; try done.
  apply (act_rank a s s1) in E; [|done]. specialize (IH s1 s' Hr Hc). rewrite filter_cons.
  destruct (is_write a); [rewrite decide_False by done|rewrite decide_True by done; cbn [length]]; lia.
Qed.

Lemma run_inv acts : forall s s', log_run lsize B acts s = LNext s' -> log_inv B s -> log_inv B s'.
Proof.
  induction acts as [|a acts IH]; intros s s' Hr Hinv; cbn [log_run] in Hr; [by injection Hr as <-|].
  destruct (log_act lsize B a s) as [|s1|] eqn:E; try done. apply (IH s1 s' Hr). eapply log_step_inv; [done|]. by exists a.
Qed.

(** Where no thread can move, none is in an operation or waits for one. *)
Lemma idle_out s : log_inv B s -> (forall a, is_call a = false -> is_write a = false -> log_act lsize B a s = LStuck) ->
  Forall (fun t => t = LOut) (g_thr s).
Proof.
  intros Hinv Hidle.
  assert (forall i t, g_thr s !! i = Some t -> t = LOut \/ t = LAsleep) as Hq.
  { intros i t Hi. destruct t as [| | |W| |]; [by left| |by right|..]; exfalso.
    - specialize (Hidle (ABegin i) eq_refl eq_refl). unfold log_act, begin_op_step in Hidle. rewrite Hi in Hidle. by repeat case_match.
    - specialize (Hidle (AEnd i) eq_refl eq_refl). unfold log_act, end_op_step in Hidle. rewrite Hi in Hidle. by repeat case_match.
    - specialize (Hidle (ACommit i) eq_refl eq_refl). unfold log_act, commit_step in Hidle. by rewrite Hi in Hidle.
    - specialize (Hidle (AFinish i) eq_refl eq_refl). unfold log_act, committed_step in Hidle. by rewrite Hi in Hidle. }
  assert (forall f, f LOut = 0%nat -> f LAsleep = 0%nat -> sum_list_with f (g_thr s) = 0%nat) as Hsum.
  { intros f H0 H1. destruct (decide (sum_list_with f (g_thr s) = 0%nat)) as [|Hne]; [done|].
    apply sum_nonzero in Hne as (i & t & Hi & Ht). by destruct (Hq i t Hi) as [-> | ->]. }
  apply Forall_lookup_2. intros i t Hi. destruct (Hq i t Hi) as [->| ->]; [done|]. exfalso.
  destruct (li_sleep _ _ Hinv i Hi) as [Ho|Hcom].
  - rewrite (li_out _ _ Hinv), Hsum in Ho by done. lia.
  - pose proof (li_com _ _ Hinv) as Hc. by rewrite Hcom, Hsum in Hc.
Qed.

(** C14: Every operation on the log completes, under every schedule. Once no
    thread calls [begin_op] any more, the threads run at most [rank s]
    critical sections of [begin_op], [end_op] and [commit], whatever blocks
    they log between them; and when none of these can run, every thread that
    was in an operation has ended it, and every thread that waited in
    [begin_op], asleep or not, has begun and ended its operation. *)
Theorem log_drains n s acts s' :
  rtc (log_step lsize B) (glog_init n) s -> Forall (fun a => is_call a = false) acts -> log_run lsize B acts s = LNext s' ->
  (length (filter (fun a => is_write a = false) acts) <= rank s)%nat /\
  ((forall a, is_call a = false -> is_write a = false -> log_act lsize B a s' = LStuck) -> Forall (fun t => t = LOut) (g_thr s')).
Proof.
  intros Hinv%log_reach_inv Hc Hr. split; [apply run_rank in Hr; [lia|done]|]. apply idle_out. by eapply run_inv.
Qed.

(** C13: Any number of threads use a log of at least LOGSIZE blocks, each of
    their operations logging fewer than MAXOPBLOCKS different blocks. However
    their critical sections interleave, no [log_write] and no [end_op]
    panics, the log never fills up, no operation is in progress while a
    thread commits, only one thread commits, and every thread that waits in
    [begin_op] can still begin its operation. *)
Theorem log_reserved n s :
  rtc (log_step lsize B) (glog_init n) s ->
  (forall a, log_act lsize B a s <> LPanic) /\
  lh_n s < LOGSIZE - 1 /\
  (forall i t, g_thr s !! i = Some t -> committer t = 1%nat -> forall j u, g_thr s !! j = Some u -> in_op u = 0%nat /\ (committer u = 1%nat -> j = i)) /\
  (forall i, waits i s -> exists s', rtc (log_step lsize B) s s' /\ g_thr s' !! i = Some (LOp ∅)).
Proof.
  intros Hinv%log_reach_inv. split_and!.
  - intros a. by apply log_no_panic.
  - destruct Hinv. lia.
  - intros i t Hi Ht j u Hj. destruct (inv_committing s i t Hinv Hi Ht) as [Hcom Hout]. split.
    + destruct u as [| | |W| |]; try done. by destruct (no_op s j W Hinv Hout Hj).
    + intros Hu. apply (sum_unique committer (g_thr s) _ _ u t); [|lia..|done|done]. by rewrite (li_com _ _ Hinv), Hcom.
  - intros i. by apply log_progress.
Qed.
End inv.

(** ** The reservation is not enough for the log that [mkfs] makes *)

(** [i] logs the [n] blocks from [b] on. *)
Definition writes (i : nat) (b : Z) (n : nat) : list lact := (fun k => AWrite i (b + Z.of_nat k)) <$> seq 0 n.

Definition op (i : nat) : list lact := [ACall i; ABegin i].

Definition overflow_acts : list lact :=
  op 0 ++ op 1 ++ writes 1 100 10 ++ [AEnd 1%nat] ++ op 1 ++ writes 1 200 10 ++ writes 0 300 10.


Lemma log_run_rtc lsize B acts s s' : log_run lsize B acts s = LNext s' -> rtc (log_step lsize B) s s'.
Proof.
  revert s. induction acts as [|a acts IH]; intros s; cbn; [intros [= ->]; apply rtc_refl|].
  destruct (log_act lsize B a s) eqn:E; try done. intros H. eapply rtc_l; [by exists a|auto].
Qed.

(** Three threads: one is in its operation, which has logged a block that
    another one logged before it; the third waits, as the log may fill up. *)
Definition busy_acts : list lact :=
  op 0 ++ op 1 ++ writes 1 100 9 ++ [AEnd 1%nat] ++ op 1 ++ writes 1 200 9 ++ writes 0 100 1 ++ op 2.

Definition busy : glog :=
  match log_run (sb_nlog mkfs_sb) 9 busy_acts (glog_init 3) with LNext s => s | _ => glog_init 3 end.

Lemma log_reserved_witness :
  lh_n busy = 18 /\ g_thr busy !! 2%nat = Some LAsleep /\
  exists s', rtc (log_step (sb_nlog mkfs_sb) 9) busy s' /\ g_thr s' !! 2%nat = Some (LOp ∅).
Proof.
  split_and!; [vm_compute; reflexivity|vm_compute; reflexivity|].
  assert (rtc (log_step (sb_nlog mkfs_sb) 9) (glog_init 3) busy) as Hrun by (apply (log_run_rtc _ _ busy_acts); vm_compute; reflexivity).
  destruct (log_reserved (sb_nlog mkfs_sb) 9 ltac:(vm_compute; discriminate) ltac:(vm_compute; reflexivity) 3 busy Hrun) as (_ & _ & _ & Hp).
  apply Hp. exists LAsleep. split; [vm_compute; reflexivity|right; reflexivity].
Defined.

(** The third thread is woken up twice before it can begin. *)
Definition drain_acts : list lact :=
  [AEnd 1%nat; AWrite 0 100; ABegin 2; AEnd 0%nat; ACommit 0; AFinish 0; ABegin 2; AEnd 2%nat; ACommit 2; AFinish 2].

Lemma log_drains_witness : (9 <= rank busy)%nat /\ log_run (sb_nlog mkfs_sb) 9 drain_acts busy = LNext (glog_init 3) /\
  Forall (fun t => t = LOut) (g_thr (glog_init 3)).
Proof.
  assert (rtc (log_step (sb_nlog mkfs_sb) 9) (glog_init 3) busy) as Hrun by (apply (log_run_rtc _ _ busy_acts); vm_compute; reflexivity).
  assert (log_run (sb_nlog mkfs_sb) 9 drain_acts busy = LNext (glog_init 3)) as Hd by (vm_compute; reflexivity).
  destruct (log_drains (sb_nlog mkfs_sb) 9 ltac:(vm_compute; discriminate) ltac:(vm_compute; reflexivity) 3 busy drain_acts (glog_init 3) Hrun) as [Hn Ho].
  - repeat constructor.
  - exact Hd.
  - change (length (filter (fun a => is_write a = false) drain_acts)) with 9%nat in Hn. split; [exact Hn|]. split; [exact Hd|]. apply Ho. intros a Hc Hw.
    destruct a as [i|i|i b|i|i|i]; [discriminate Hc| |discriminate Hw|..]; destruct i as [|[|[|i]]]; reflexivity.
Defined.
