(* ===== verification/Ulib.v ===== *)
(** * User programs: memory, system calls and [user/ulib.c]

    A user program runs on the bytes of its address space; an access to an
    address that is not mapped is undefined behaviour. System calls change
    the rest of the system, the [world], which is a parameter; [sbrk] also
    changes the address space. [char] is unsigned, as gcc has it on
    RISC-V. *)

From S2P Require Import Prelude Riscv.

(** ** The user's view of the system *)

(** The results of system calls: the bytes read or [None] for -1, the number
    of bytes written, a file descriptor or -1, the bytes of [struct stat],
    whether the process may grow by [n] bytes. *)
Class UserSys := {
  world : Type;
  sys_read : Z -> Z -> world -> option (list Z) * world;
  sys_write : Z -> list Z -> world -> Z * world;
  sys_open : list Z -> Z -> world -> Z * world;
  sys_close : Z -> world -> world;
  sys_fstat : Z -> world -> option (list Z) * world;
  sys_grow : Z -> world -> bool * world
}.

Record user `{UserSys} := mkuser {
  u_mem : gmap Z Z;
  u_brk : Z;
  u_world : world }.

#[export] Instance eta_user `{UserSys} : Eta user := fun u => mkuser _ (u_mem u) (u_brk u) (u_world u).

Section user.
Context `{UserSys}.

(** Reading and writing a [char]. *)
Definition uget (a : Z) : M user Z := fun u =>
  match u_mem u !! a with Some b => Ok (u8 b) u | None => Undef "page fault" u end.

Definition uput (a v : Z) : M user unit := fun u =>
  match u_mem u !! a with
  | Some _ => Ok tt (u <| u_mem := <[a := u8 v]> (u_mem u) |>)
  | None => Undef "page fault" u
  end.

(** [n] bytes, as system calls access them. *)
Fixpoint uget_bytes (n : nat) (a : Z) : M user (list Z) :=
  match n with
  | O => ret []
  | S n' => b <- uget a ;; bs <- uget_bytes n' (a + 1) ;; ret (b :: bs)
  end.

Fixpoint uput_bytes (a : Z) (bs : list Z) : M user unit :=
  match bs with
  | [] => ret tt
  | b :: bs' => uput a b ;; uput_bytes (a + 1) bs'
  end.

(** Little-endian integers of [n] bytes. *)
Definition le_val (bs : list Z) : Z := foldr (fun b v => b + 256 * v) 0 bs.

Fixpoint le_bytes (n : nat) (v : Z) : list Z :=
  match n with O => [] | S n' => u8 v :: le_bytes n' (v / 256) end.

Definition uload (n : nat) (a : Z) : M user Z := bs <- uget_bytes n a ;; ret (le_val bs).

Definition ustore (n : nat) (a v : Z) : M user unit := uput_bytes a (le_bytes n v).

Definition in_world {A} (f : world -> A * world) : M user A := fun u =>
  let (a, w) := f (u_world u) in Ok a (u <| u_world := w |>).

Definition read (fd a n : Z) : M user Z :=
  r <- in_world (sys_read fd n) ;;
  match r with
  | None => ret (-1)
  | Some bs => uput_bytes a bs ;; ret (Z.of_nat (length bs))
  end.

Definition write (fd a n : Z) : M user Z :=
  bs <- uget_bytes (Z.to_nat n) a ;;
  in_world (sys_write fd bs).

(** [sbrk(n)], [n] an [int]: new memory is zero. *)
Definition sbrk (n : Z) : M user Z :=
  ok <- in_world (sys_grow n) ;;
  fun u =>
    if negb ok then Ok (-1) u else
    let old := u_brk u in
    let m := if 0 <=? n
             then u_mem u ∪ list_to_map ((fun a => (a, 0)) <$> seqZ old n)
             else filter (fun '(a, _) => ~ (old + n <= a < old)) (u_mem u) in
    Ok old (u <| u_mem := m |> <| u_brk := old + n |>).

(** A loop that advances through mapped memory ends within this many rounds. *)
Definition ufuel : M user nat := gets (fun u => S (size (u_mem u))).

(** ** [user/ulib.c] *)

Definition strcpy (s t : Z) : M user Z :=
  n <- ufuel ;;
  iter n (fun '(s', t) =>
    c <- uget t ;;
    uput s' c ;;
    if ctrue c then continue (s' + 1, t + 1) else leave s) (s, t).

Definition strcmp (p q : Z) : M user Z :=
  n <- ufuel ;;
  iter n (fun '(p, q) =>
    a <- uget p ;;
    b <- uget q ;;
    if ctrue a && (a =? b) then continue (p + 1, q + 1) else leave (a - b)) (p, q).

Definition strlen (s : Z) : M user Z :=
  fuel <- ufuel ;;
  iter fuel (fun n =>
    c <- uget (s + n) ;;
    if ctrue c then continue (n + 1) else leave (u32 n)) 0.

(** [n] is unsigned. *)
Definition memset (dst c n : Z) : M user Z :=
  iter (S (Z.to_nat n)) (fun i =>
    if i <? n then uput (dst + i) c ;; continue (i + 1) else leave dst) 0.

(** The address of the character, or 0. *)
Definition strchr (s c : Z) : M user Z :=
  n <- ufuel ;;
  iter n (fun s =>
    a <- uget s ;;
    if negb (ctrue a) then leave 0 else
    if a =? c then leave s else continue (s + 1)) s.

(** One character is read at a time, into a local variable. *)
Definition gets (buf max : Z) : M user Z :=
  i <- iter (S (Z.to_nat max)) (fun i =>
    if negb (i + 1 <? max) then leave i else
    r <- in_world (sys_read 0 1) ;;
    match r with
    | Some [c] =>
        uput (buf + i) c ;;
        if (c =? 10) || (c =? 13) then leave (i + 1) else continue (i + 1)
    | _ => leave i
    end) 0 ;;
  uput (buf + i) 0 ;;
  ret buf.

(** [O_RDONLY] is 0. *)
Definition stat (n : list Z) (st : Z) : M user Z :=
  fd <- in_world (sys_open n 0) ;;
  if fd <? 0 then ret (-1) else
  r <- in_world (sys_fstat fd) ;;
  match r with Some bs => uput_bytes st bs | None => ret tt end ;;
  in_world (fun w => (tt, sys_close fd w)) ;;
  ret (match r with Some _ => 0 | None => -1 end).

(** Signed overflow of [n] is taken to wrap around. *)
Definition atoi (s : Z) : M user Z :=
  fuel <- ufuel ;;
  iter fuel (fun '(n, s) =>
    c <- uget s ;;
    if (48 <=? c) && (c <=? 57) then continue (s32 (n * 10 + c - 48), s + 1) else leave n) (0, s).

Definition memmove (vdst vsrc n : Z) : M user Z :=
  if vdst <? vsrc then
    iter (S (Z.to_nat n)) (fun '(n, dst, src) =>
      if 0 <? n then c <- uget src ;; uput dst c ;; continue (n - 1, dst + 1, src + 1)
      else leave vdst) (n, vdst, vsrc)
  else
    iter (S (Z.to_nat n)) (fun '(n, dst, src) =>
      if 0 <? n then c <- uget (src - 1) ;; uput (dst - 1) c ;; continue (n - 1, dst - 1, src - 1)
      else leave vdst) (n, vdst + n, vsrc + n).

Definition memcmp (s1 s2 n : Z) : M user Z :=
  iter (S (Z.to_nat n)) (fun '(n, p1, p2) =>
    if 0 <? n then
      a <- uget p1 ;; b <- uget p2 ;;
      if negb (a =? b) then leave (a - b) else continue (n - 1, p1 + 1, p2 + 1)
    else leave 0) (n, s1, s2).

(** The [uint] is converted to [memmove]'s [int]. *)
Definition memcpy (dst src n : Z) : M user Z := memmove dst src (s32 n).

(** The [pid] of the [struct usyscall] that the kernel maps read-only. *)
Definition ugetpid : M user Z := pid <- uload 4 USYSCALL ;; ret (s32 pid).

End user.
