(* ===== verification/UlibSpec.v ===== *)
(** * Specification of [user/ulib.c]

    Strings and byte ranges in the memory of a user program, and what the
    library functions do with them. *)

From S2P Require Import Prelude Riscv Ulib.

(** ** Strings in memory *)

(** The NUL-terminated string [s] is at [a]. *)
Fixpoint string_at (m : gmap Z Z) (a : Z) (s : list Z) : Prop :=
  match s with
  | [] => m !! a = Some 0
  | c :: s' => 0 < c < 256 /\ m !! a = Some c /\ string_at m (a + 1) s'
  end.

(** The bytes [bs] are at [a]. *)
Definition bytes_at (m : gmap Z Z) (a : Z) (bs : list Z) : Prop :=
  forall i b, bs !! i = Some b -> m !! (a + Z.of_nat i) = Some b.

Lemma bytes_at_cons m a b bs : bytes_at m a (b :: bs) <-> m !! a = Some b /\ bytes_at m (a + 1) bs.
Proof.
  split.
  - intros Hb. split; [by specialize (Hb O b eq_refl); rewrite Z.add_0_r in Hb|].
    intros i c Hc. specialize (Hb (S i) c Hc). by replace (a + 1 + Z.of_nat i) with (a + Z.of_nat (S i)) by lia.
  - intros [H0 Hb] [|i] c Hc; cbn in Hc.
    + injection Hc as <-. by rewrite Z.add_0_r.
    + apply Hb in Hc. by replace (a + Z.of_nat (S i)) with (a + 1 + Z.of_nat i) by lia.
Qed.

Lemma bytes_at_app m a bs bs' :
  bytes_at m a (bs ++ bs') <-> bytes_at m a bs /\ bytes_at m (a + Z.of_nat (length bs)) bs'.
Proof.
  revert a. induction bs as [|b bs IH]; intros a; cbn [app length].
  - rewrite Z.add_0_r. split; [|tauto]. intros Hb. split; [|done]. by intros i c Hc.
  - rewrite !bytes_at_cons, IH. replace (a + 1 + Z.of_nat (length bs)) with (a + Z.of_nat (S (length bs))) by lia. tauto.
Qed.

Lemma string_at_bytes m a s : string_at m a s <-> bytes_at m a (s ++ [0]) /\ Forall (fun c => 0 < c < 256) s.
Proof.
  revert a. induction s as [|c s IH]; intros a; cbn [string_at app].
  - rewrite bytes_at_cons. split; [|tauto]. intros E. split_and!; [done| |done]. by intros i x Hx.
  - rewrite bytes_at_cons, IH, Forall_cons. tauto.
Qed.

(** The string lies in mapped memory: loops over it have enough fuel. *)
Lemma bytes_at_size m a bs : bytes_at m a bs -> (length bs <= size m)%nat.
Proof.
  intros Hb.
  assert (list_to_set (seqZ a (Z.of_nat (length bs))) ⊆ dom m) as Hsub.
  { intros x Hx%elem_of_list_to_set%elem_of_seqZ. apply elem_of_dom.
    destruct (lookup_lt_is_Some_2 bs (Z.to_nat (x - a))) as [b E]; [lia|]. apply Hb in E. exists b.
    by replace (a + Z.of_nat (Z.to_nat (x - a))) with x in E by lia. }
  apply subseteq_size in Hsub. rewrite size_dom, size_list_to_set, length_seqZ in Hsub by apply NoDup_seqZ. lia.
Qed.

Lemma string_at_size m a s : string_at m a s -> (length s < size m)%nat.
Proof. intros [Hb _]%string_at_bytes. apply bytes_at_size in Hb. rewrite length_app in Hb. cbn in Hb. lia. Qed.

Lemma string_at_drop m a s n :
  string_at m a s -> (n <= length s)%nat -> string_at m (a + Z.of_nat n) (drop n s).
Proof.
  revert a n. induction s as [|c s IH]; intros a n Hs Hn.
  - replace n with O by (cbn in Hn; lia). by rewrite Z.add_0_r.
  - destruct n as [|n]; [by rewrite Z.add_0_r|]. cbn in Hn |- *. destruct Hs as (_ & _ & Hs).
    replace (a + Z.of_nat (S n)) with (a + 1 + Z.of_nat n) by lia. apply IH; [done|lia].
Qed.

(** Memory that agrees on the string. *)
Lemma string_at_ext m m' a s :
  (forall x, a <= x <= a + Z.of_nat (length s) -> m' !! x = m !! x) -> string_at m a s -> string_at m' a s.
Proof.
  revert a. induction s as [|c s IH]; intros a Hm; cbn [string_at length] in *; [by rewrite Hm by lia|].
  intros (Hc & E & Hs). rewrite Hm by lia. split_and!; [lia..|done|]. apply IH; [|done]. intros x Hx. apply Hm. lia.
Qed.

Section ulib.
Context `{UserSys}.
Implicit Types (u : user).

(** The first character of a string, 0 at its end. *)
Lemma uget_string u a s : string_at (u_mem u) a s -> uget a u = Ok (hd 0 s) u.
Proof.
  intros Hs. unfold uget. destruct s as [|c s]; cbn in Hs.
  - by rewrite Hs.
  - destruct Hs as (Hc & -> & _). cbn. by rewrite u8_small by lia.
Qed.

Lemma uget_byte u a b : u_mem u !! a = Some b -> 0 <= b < 256 -> uget a u = Ok b u.
Proof. intros E Hb. unfold uget. by rewrite E, u8_small. Qed.

Lemma uput_run u a v : is_Some (u_mem u !! a) -> uput a v u = Ok tt (u <| u_mem := <[a := u8 v]> (u_mem u) |>).
Proof. intros [b E]. unfold uput. by rewrite E. Qed.

Lemma uget_bytes_run u a bs :
  bytes_at (u_mem u) a bs -> Forall (fun b => 0 <= b < 256) bs -> uget_bytes (length bs) a u = Ok bs u.
Proof.
  revert a. induction bs as [|b bs IH]; intros a Hb Hr; [done|]. apply bytes_at_cons in Hb as [E Hb].
  apply Forall_cons in Hr as [Hr0 Hr]. cbn. erewrite bind_ok by by apply uget_byte. by erewrite bind_ok by by apply IH.
Qed.

(** Memory after [bs] was stored at [a]. *)
Lemma uput_bytes_run u a bs :
  (forall i, (i < length bs)%nat -> is_Some (u_mem u !! (a + Z.of_nat i))) -> Forall (fun b => 0 <= b < 256) bs ->
  exists m, uput_bytes a bs u = Ok tt (u <| u_mem := m |>) /\ bytes_at m a bs /\
    forall x, ~ a <= x < a + Z.of_nat (length bs) -> m !! x = u_mem u !! x.
Proof.
  revert a u. induction bs as [|b bs IH]; intros a u Hm Hr.
  { exists (u_mem u). split_and!; [by destruct u|by intros i c Hc|done]. }
  apply Forall_cons in Hr as [Hr0 Hr]. cbn [uput_bytes length] in *.
  erewrite bind_ok by (apply uput_run; specialize (Hm O ltac:(lia)); by rewrite Z.add_0_r in Hm).
  destruct (IH (a + 1) (u <| u_mem := <[a := u8 b]> (u_mem u) |>)) as (m & E & Hb & Hout); [|done|].
  - intros i Hi. cbn. rewrite lookup_insert_ne by lia. specialize (Hm (S i) ltac:(lia)).
    by replace (a + 1 + Z.of_nat i) with (a + Z.of_nat (S i)) by lia.
  - exists m. split_and!; [exact E| |].
    + apply bytes_at_cons. split; [|done]. rewrite Hout by lia. cbn. by rewrite lookup_insert_eq, u8_small.
    + intros x Hx. rewrite Hout by lia. cbn. apply lookup_insert_ne. lia.
Qed.

(** ** String functions *)

Lemma strlen_run u a s : string_at (u_mem u) a s -> Z.of_nat (length s) < 2 ^ 31 -> strlen a u = Ok (Z.of_nat (length s)) u.
Proof.
  intros Hs Hl. unfold strlen, ufuel. rewrite bind_gets. pose proof (string_at_size _ _ _ Hs) as Hf.
  assert (forall k n, (n <= length s)%nat -> (length s - n < k)%nat ->
    iter k (fun n => c <- uget (a + n) ;; if ctrue c then continue (n + 1) else leave (u32 n)) (Z.of_nat n) u =
    Ok (Z.of_nat (length s)) u) as Hk.
  { induction k as [|k IH]; intros n Hn Hk; [lia|].
    pose proof (uget_string _ _ _ (string_at_drop _ _ _ n Hs Hn)) as Eg.
    destruct (decide (n = length s)) as [->|Hne].
    - apply iter_leave. erewrite bind_ok by exact Eg. rewrite drop_all. cbn. unfold leave. by rewrite u32_small by lia.
    - rewrite (iter_continue _ _ _ (Z.of_nat n + 1) _ u); [replace (Z.of_nat n + 1) with (Z.of_nat (S n)) by lia; apply IH; lia|].
      erewrite bind_ok by exact Eg. destruct (drop n s) as [|c t] eqn:E.
      + apply (f_equal length) in E. rewrite length_drop in E. cbn in E. lia.
      + pose proof (string_at_drop _ _ _ n Hs Hn) as Hd. rewrite E in Hd. destruct Hd as [Hc _]. cbn.
        unfold ctrue. by destruct (Z.eqb_spec c 0); [lia|]. }
  apply (Hk _ O); lia.
Qed.

(** [strchr] finds the first occurrence of a character. *)
Lemma strchr_run u a s c :
  string_at (u_mem u) a s -> c <> 0 ->
  strchr a c u = Ok (match list_find (fun x => x = c) s with Some (i, _) => a + Z.of_nat i | None => 0 end) u.
Proof.
  intros Hs Hc. unfold strchr, ufuel. rewrite bind_gets. pose proof (string_at_size _ _ _ Hs) as Hf.
  generalize (Nat.lt_trans _ _ _ Hf (Nat.lt_succ_diag_r _)). generalize (S (size (u_mem u))) as k. clear Hf.
  revert a Hs. induction s as [|x s IH]; intros a Hs [|k] Hk; cbn [length] in Hk; try lia; pose proof (uget_string _ _ _ Hs) as Eg.
  - apply iter_leave. by erewrite bind_ok by exact Eg.
  - destruct Hs as (Hx & _ & Hs). cbn [list_find]. unfold ctrue. case_decide as Ex; cbn [hd].
    + subst x. rewrite Z.add_0_r. apply iter_leave. erewrite bind_ok by exact Eg. cbn.
      destruct (Z.eqb_spec c 0); [done|]. cbn. by rewrite Z.eqb_refl.
    + rewrite (iter_continue _ _ _ (a + 1) _ u); [rewrite IH by (done || lia)|].
      * f_equal. destruct (list_find (fun x => x = c) s) as [[i y]|]; cbn; lia.
      * erewrite bind_ok by exact Eg. cbn. destruct (Z.eqb_spec x 0); [lia|]. cbn. by destruct (Z.eqb_spec x c).
Qed.

(** ** [memmove] *)

(** Memory after copying [n] bytes from [src] to [dst]. *)
Definition moved (dst src n : Z) (m m' : gmap Z Z) : Prop :=
  forall a, m' !! a = if decide (dst <= a < dst + n) then m !! (src + (a - dst)) else m !! a.

Definition readable (m : gmap Z Z) (a n : Z) : Prop :=
  forall x, a <= x < a + n -> exists b, m !! x = Some b /\ 0 <= b < 256.

Definition writable (m : gmap Z Z) (a n : Z) : Prop := forall x, a <= x < a + n -> is_Some (m !! x).

(** One byte copied. *)
Lemma copy_byte {A} u dst src b (f : M user A) :
  u_mem u !! src = Some b -> 0 <= b < 256 -> is_Some (u_mem u !! dst) ->
  (c <- uget src ;; uput dst c ;; f) u = f (u <| u_mem := <[dst := b]> (u_mem u) |>).
Proof.
  intros Hb Hr Hd. erewrite bind_ok by by apply uget_byte. erewrite bind_ok by by apply uput_run. by rewrite u8_small.
Qed.

Lemma insert_mapped (m : gmap Z Z) a v x : is_Some (m !! x) -> is_Some (<[a := v]> m !! x).
Proof. intros Hx. destruct (decide (a = x)) as [->|]; [rewrite lookup_insert_eq|rewrite lookup_insert_ne by done]; eauto. Qed.

Lemma memmove_up (v : Z) k : forall dst src u,
  dst < src -> readable (u_mem u) src (Z.of_nat k) -> writable (u_mem u) dst (Z.of_nat k) ->
  exists m', iter (S k) (fun '(n, dst, src) =>
      if 0 <? n then c <- uget src ;; uput dst c ;; continue (n - 1, dst + 1, src + 1) else leave v)
    (Z.of_nat k, dst, src) u = Ok v (u <| u_mem := m' |>) /\ moved dst src (Z.of_nat k) (u_mem u) m'.
Proof.
  induction k as [|k IH]; intros dst src u Hlt Hr Hw.
  { exists (u_mem u). split; [rewrite (iter_leave _ _ _ v u u) by done; by destruct u|].
    intros a. by rewrite decide_False by lia. }
  destruct (Hr src) as (b & Hb & Hb8); [lia|].
  destruct (IH (dst + 1) (src + 1) (u <| u_mem := <[dst := b]> (u_mem u) |>)) as (m' & E & Hm); [lia| | |].
  - intros x Hx. cbn. rewrite lookup_insert_ne by lia. apply Hr. lia.
  - intros x Hx. cbn. apply insert_mapped, Hw. lia.
  - exists m'. split.
    + erewrite iter_continue; [exact E|]. replace (Z.of_nat (S k) - 1) with (Z.of_nat k) by lia.
      destruct (Z.ltb_spec 0 (Z.of_nat (S k))); [|lia]. rewrite (copy_byte _ _ _ b); [done|exact Hb|exact Hb8|apply Hw; lia].
    + intros a. rewrite Hm. cbn [u_mem upd]. destruct (decide (a = dst)) as [->|].
      * rewrite decide_False, decide_True by lia. cbn. rewrite lookup_insert_eq, <- Hb. f_equal. lia.
      * cbn. repeat case_decide; try lia; rewrite lookup_insert_ne by lia; [f_equal; lia|done].
Qed.

Lemma memmove_down (v : Z) k : forall dst src u,
  src <= dst -> readable (u_mem u) src (Z.of_nat k) -> writable (u_mem u) dst (Z.of_nat k) ->
  exists m', iter (S k) (fun '(n, dst, src) =>
      if 0 <? n then c <- uget (src - 1) ;; uput (dst - 1) c ;; continue (n - 1, dst - 1, src - 1) else leave v)
    (Z.of_nat k, dst + Z.of_nat k, src + Z.of_nat k) u = Ok v (u <| u_mem := m' |>) /\
    moved dst src (Z.of_nat k) (u_mem u) m'.
Proof.
  induction k as [|k IH]; intros dst src u Hle Hr Hw.
  { exists (u_mem u). split; [rewrite (iter_leave _ _ _ v u u) by done; by destruct u|].
    intros a. by rewrite decide_False by lia. }
  replace (dst + Z.of_nat (S k)) with (dst + Z.of_nat k + 1) by lia. replace (src + Z.of_nat (S k)) with (src + Z.of_nat k + 1) by lia.
  destruct (Hr (src + Z.of_nat k)) as (b & Hb & Hb8); [lia|].
  destruct (IH dst src (u <| u_mem := <[dst + Z.of_nat k := b]> (u_mem u) |>)) as (m' & E & Hm); [lia| | |].
  - intros x Hx. cbn. rewrite lookup_insert_ne by lia. apply Hr. lia.
  - intros x Hx. cbn. apply insert_mapped, Hw. lia.
  - exists m'. split.
    + erewrite iter_continue; [exact E|]. replace (Z.of_nat (S k) - 1) with (Z.of_nat k) by lia.
      destruct (Z.ltb_spec 0 (Z.of_nat (S k))); [|lia]. rewrite !Z.add_simpl_r.
      rewrite (copy_byte _ _ _ b); [done|exact Hb|exact Hb8|apply Hw; lia].
    + intros a. rewrite Hm. cbn [u_mem upd]. destruct (decide (a = dst + Z.of_nat k)) as [->|].
      * rewrite decide_False, decide_True by lia. cbn. rewrite lookup_insert_eq, <- Hb. f_equal. lia.
      * cbn. repeat case_decide; try lia; rewrite lookup_insert_ne by lia; [f_equal; lia|done].
Qed.

(** [memmove] copies overlapping ranges correctly, in both directions. *)
Lemma memmove_run u dst src n :
  0 <= n -> readable (u_mem u) src n -> writable (u_mem u) dst n ->
  exists m', memmove dst src n u = Ok dst (u <| u_mem := m' |>) /\ moved dst src n (u_mem u) m'.
Proof.
  intros Hn Hr Hw. unfold memmove. rewrite <- (Z2Nat.id n) in * by done. rewrite Nat2Z.id. destruct (Z.ltb_spec dst src).
  - by apply memmove_up.
  - by apply memmove_down.
Qed.

End ulib.
