(* ===== verification/Grep.v ===== *)
(** * [user/grep.c]

    The matcher and the loop over the lines of a file, on the bytes of the
    program's memory. *)

From S2P Require Import Prelude Ulib.

Section grep.
Context `{UserSys}.

(** Characters. *)
Definition ch_star : Z := 42.
Definition ch_dollar : Z := 36.
Definition ch_dot : Z := 46.
Definition ch_hat : Z := 94.
Definition ch_nl : Z := 10.

(** [matchstar], given the [matchhere] it calls. *)
Definition matchstar (matchhere : Z -> Z -> M user Z) (c re text : Z) : M user Z :=
  n <- ufuel ;;
  iter n (fun text =>
    r <- matchhere re text ;;
    if ctrue r then leave 1 else
    t <- uget text ;;
    if ctrue t && ((t =? c) || (c =? ch_dot)) then continue (text + 1) else leave 0) text.

Fixpoint matchhere (fuel : nat) (re text : Z) : M user Z :=
  match fuel with
  | O => nofuel
  | S fuel' =>
      r0 <- uget re ;;
      if r0 =? 0 then ret 1 else
      r1 <- uget (re + 1) ;;
      if r1 =? ch_star then matchstar (matchhere fuel') r0 (re + 2) text else
      t <- uget text ;;
      if (r0 =? ch_dollar) && (r1 =? 0) then ret (Z.b2z (t =? 0)) else
      if ctrue t && ((r0 =? ch_dot) || (r0 =? t)) then matchhere fuel' (re + 1) (text + 1)
      else ret 0
  end.

(** Each call of [matchhere] advances in the pattern. *)
Definition match_ (re text : Z) : M user Z :=
  n <- ufuel ;;
  r0 <- uget re ;;
  if r0 =? ch_hat then matchhere n (re + 1) text else
  iter n (fun text =>
    r <- matchhere n re text ;;
    if ctrue r then leave 1 else
    t <- uget text ;;
    if ctrue t then continue (text + 1) else leave 0) text.

(** The line from [p] to the newline at [q] is printed if it matches. *)
Definition grep_line (pattern p q : Z) : M user unit :=
  uput q 0 ;;
  r <- match_ pattern p ;;
  if ctrue r then uput q ch_nl ;; write 1 p (q + 1 - p) ;; ret tt else ret tt.

(** The loop over the lines in [buf] from [p] on: the start of the rest. *)
Definition grep_lines (pattern p : Z) : M user Z :=
  n <- ufuel ;;
  iter n (fun p =>
    q <- strchr p ch_nl ;;
    if q =? 0 then leave p else
    grep_line pattern p q ;;
    continue (q + 1)) p.

(** [buf] is the address of the array, [fuel] bounds the number of reads. *)
Definition grep (fuel : nat) (buf pattern fd : Z) : M user unit :=
  iter fuel (fun m =>
    n <- read fd (buf + m) (1024 - m - 1) ;;
    if negb (0 <? n) then leave tt else
    let m := m + n in
    uput (buf + m) 0 ;;
    p <- grep_lines pattern buf ;;
    let m' := m - (p - buf) in
    (if 0 <? m then memmove buf p m' ;; ret tt else ret tt) ;;
    continue (if 0 <? m then m' else m)) 0.

End grep.
