(* ===== verification/GrepSpec.v ===== *)
(** * Specification of [grep]

    The patterns of [grep] denote languages; the matcher decides whether a
    line contains a word of the pattern's language, and [grep] prints
    exactly the lines that do, however [read] cuts the input into pieces. *)

From S2P Require Import Prelude Ulib UlibSpec Grep.

(** ** Patterns and their languages *)

(** A character, or any number of it; ['.'] stands for every character. *)
Inductive item := One (c : Z) | Star (c : Z).

Definition accepts (c x : Z) : bool := (c =? ch_dot) || (x =? c).

Inductive word : list item -> list Z -> Prop :=
| word_nil : word [] []
| word_one c x r w : accepts c x = true -> word r w -> word (One c :: r) (x :: w)
| word_stop c r w : word r w -> word (Star c :: r) w
| word_more c x r w : accepts c x = true -> word (Star c :: r) w -> word (Star c :: r) (x :: w).

(** The items of a pattern, and whether it ends with ['$']. *)
Fixpoint parse (re : list Z) : list item * bool :=
  match re with
  | [] => ([], false)
  | c :: re1 =>
      match re1 with
      | [] => if c =? ch_dollar then ([], true) else ([One c], false)
      | d :: re2 =>
          if d =? ch_star then let (r, e) := parse re2 in (Star c :: r, e)
          else let (r, e) := parse re1 in (One c :: r, e)
      end
  end.

(** A prefix of [text] is in the language; all of [text], with ['$']. *)
Definition begins (re text : list Z) : Prop :=
  exists w rest, text = w ++ rest /\ word (parse re).1 w /\ ((parse re).2 = true -> rest = []).

(** [text] contains a word of the pattern, at its beginning with ['^']. *)
Definition selects (re text : list Z) : Prop :=
  match re with
  | c :: re' => if c =? ch_hat then begins re' text else exists pre post, text = pre ++ post /\ begins re post
  | [] => True
  end.

(** ** The matcher as a function on strings *)

Fixpoint star_here (f : list Z -> bool) (c : Z) (text : list Z) : bool :=
  f text || match text with [] => false | x :: text' => accepts c x && star_here f c text' end.

Fixpoint here (re text : list Z) : bool :=
  match re with
  | [] => true
  | c :: re1 =>
      match re1 with
      | [] => if c =? ch_dollar then match text with [] => true | _ => false end
              else match text with [] => false | x :: _ => accepts c x end
      | d :: re2 =>
          if d =? ch_star then star_here (here re2) c text
          else match text with [] => false | x :: text' => accepts c x && here re1 text' end
      end
  end.

Fixpoint anywhere (f : list Z -> bool) (text : list Z) : bool :=
  f text || match text with [] => false | _ :: text' => anywhere f text' end.

Definition match_here (re text : list Z) : bool :=
  match re with
  | c :: re' => if c =? ch_hat then here re' text else anywhere (here re) text
  | [] => true
  end.

(** Induction over patterns, item by item. *)
Lemma pattern_ind (P : list Z -> Prop) :
  P [] -> (forall c, P [c]) -> (forall c d re, P re -> P (d :: re) -> P (c :: d :: re)) -> forall re, P re.
Proof.
  intros H0 H1 H2 re. assert (P re /\ forall c, P (c :: re)) as [? _]; [|done].
  induction re as [|d re [IH1 IH2]]; [done|]. split; [apply IH2|]. intros c. apply H2; [done|apply IH2].
Qed.

Lemma star_here_spec f c text :
  star_here f c text = true <->
  exists w rest, text = w ++ rest /\ Forall (fun x => accepts c x = true) w /\ f rest = true.
Proof.
  induction text as [|x text IH]; cbn; rewrite orb_true_iff.
  - split; [intros [Hf|?]; [|done]; by exists [], []|]. intros (w & rest & E & _ & Hf).
    symmetry in E. apply app_nil in E as [_ ->]. by left.
  - rewrite andb_true_iff, IH. split.
    + intros [Hf|(Hx & w & rest & -> & Hw & Hf)]; [by exists [], (x :: text)|].
      exists (x :: w), rest. by rewrite Forall_cons.
    + intros ([|y w] & rest & E & Hw & Hf); cbn in E; [subst rest; by left|].
      injection E as <- ->. apply Forall_cons in Hw as [Hx Hw]. right. split; [done|]. by exists w, rest.
Qed.

Lemma word_star c r v :
  word (Star c :: r) v <-> exists w v', v = w ++ v' /\ Forall (fun x => accepts c x = true) w /\ word r v'.
Proof.
  split.
  - remember (Star c :: r) as l eqn:El. intros Hw. induction Hw as [| |c' r' w Hw _|c' x r' w Hx Hw IH]; try done.
    + injection El as -> ->. by exists [], w.
    + destruct (IH El) as (w1 & v' & -> & Hall & Hv). injection El as -> ->. exists (x :: w1), v'. by rewrite Forall_cons.
  - intros (w & v' & -> & Hall & Hv). induction Hall as [|x w Hx _ IH]; cbn; by constructor.
Qed.

Lemma parse_cons2 c d re :
  parse (c :: d :: re) = if d =? ch_star then (Star c :: (parse re).1, (parse re).2)
                         else (One c :: (parse (d :: re)).1, (parse (d :: re)).2).
Proof. cbn -[parse]. cbn [parse]. destruct (d =? ch_star); [by destruct (parse re)|]. by destruct re as [|? ?]; repeat case_match. Qed.

Lemma here_cons2 c d re text :
  here (c :: d :: re) text = if d =? ch_star then star_here (here re) c text
                             else match text with [] => false | x :: text' => accepts c x && here (d :: re) text' end.
Proof. done. Qed.

Lemma here_spec re text : here re text = true <-> begins re text.
Proof.
  revert text. induction re as [|c|c d re IH1 IH2] using pattern_ind; intros text; unfold begins.
  - split; [|done]. intros _. exists [], text. split_and!; [done|constructor|done].
  - cbn. destruct (c =? ch_dollar); cbn.
    + split.
      * destruct text; [|done]. intros _. exists [], []. split_and!; [done|constructor|done].
      * intros (w & rest & -> & Hw & Hr). inversion Hw; subst. by rewrite Hr.
    + split.
      * destruct text as [|x text]; [done|]. intros Hx. exists [x], text. split_and!; [done| |done]. repeat constructor. done.
      * intros (w & rest & -> & Hw & _). inversion Hw as [|? x ? ? Hx Hw'| |]; subst. by inversion Hw'; subst.
  - rewrite here_cons2, parse_cons2. destruct (d =? ch_star); cbn [fst snd].
    + rewrite star_here_spec. split.
      * intros (w & rest & -> & Hw & Hf). apply IH1 in Hf as (v & rest' & -> & Hv & He).
        exists (w ++ v), rest'. rewrite app_assoc. split_and!; [done| |done]. apply word_star. eauto.
      * intros (w & rest & -> & (w1 & v & -> & Hall & Hv)%word_star & He). exists w1, (v ++ rest). rewrite <- app_assoc.
        split_and!; [done|done|]. apply IH1. by exists v, rest.
    + split.
      * destruct text as [|x text]; [done|]. rewrite andb_true_iff. intros [Hx (w & rest & -> & Hw & He)%IH2].
        exists (x :: w), rest. split_and!; [done|by constructor|done].
      * intros (w & rest & -> & Hw & He). inversion Hw as [|? x ? w' Hx Hw'| |]; subst. cbn -[here]. apply andb_true_iff.
        split; [done|]. apply IH2. by exists w', rest.
Qed.

Lemma anywhere_spec f text : anywhere f text = true <-> exists pre post, text = pre ++ post /\ f post = true.
Proof.
  induction text as [|x text IH]; cbn; rewrite orb_true_iff.
  - split; [intros [Hf|?]; [|done]; by exists [], []|]. intros (pre & post & E & Hf).
    symmetry in E. apply app_nil in E as [_ ->]. by left.
  - rewrite IH. split.
    + intros [Hf|(pre & post & -> & Hf)]; [by exists [], (x :: text)|by exists (x :: pre), post].
    + intros ([|y pre] & post & E & Hf); cbn in E; [subst post; by left|]. injection E as <- ->. right. by exists pre, post.
Qed.

Lemma match_here_spec re text : match_here re text = true <-> selects re text.
Proof.
  unfold match_here, selects. destruct re as [|c re]; [done|]. destruct (c =? ch_hat); [apply here_spec|].
  rewrite anywhere_spec. by setoid_rewrite here_spec.
Qed.

#[export] Instance selects_dec re text : Decision (selects re text).
Proof. refine (cast_if (decide (match_here re text = true))); by rewrite <- match_here_spec. Defined.

(** ** The matcher in memory *)

Section grep.
Context `{UserSys}.
Implicit Types (u : user).

Lemma string_head m a c s : string_at m a (c :: s) -> ctrue c = true /\ (c =? 0) = false.
Proof. intros [Hc _]. unfold ctrue. by destruct (Z.eqb_spec c 0); [lia|]. Qed.

Lemma matchstar_run mh f u c re text T :
  (forall a s, string_at (u_mem u) a s -> mh re a u = Ok (Z.b2z (f s)) u) -> string_at (u_mem u) text T ->
  matchstar mh c re text u = Ok (Z.b2z (star_here f c T)) u.
Proof.
  intros Hmh Ht. unfold matchstar, ufuel. rewrite bind_gets. pose proof (string_at_size _ _ _ Ht) as Hf.
  generalize (Nat.lt_trans _ _ _ Hf (Nat.lt_succ_diag_r _)). generalize (S (size (u_mem u))) as k. clear Hf.
  revert text Ht. induction T as [|x T IH]; intros text Ht [|k] Hk; cbn [length] in Hk; try lia; cbn [star_here];
    pose proof (uget_string _ _ _ Ht) as Eg.
  - rewrite orb_false_r. apply iter_leave. erewrite bind_ok by by apply Hmh. destruct (f []); [done|]. cbn.
    by erewrite bind_ok by exact Eg.
  - destruct (f (x :: T)) eqn:Ef; cbn [orb].
    + apply iter_leave. erewrite bind_ok by by apply Hmh. by rewrite Ef.
    + pose proof (string_head _ _ _ _ Ht) as [Hx _]. destruct (accepts c x) eqn:Ea; cbn [andb].
      * rewrite (iter_continue _ _ _ (text + 1) _ u); [apply IH; [by apply Ht|lia]|].
        erewrite bind_ok by by apply Hmh. rewrite Ef. cbn. erewrite bind_ok by exact Eg. cbn. rewrite Hx. cbn.
        unfold accepts in Ea. rewrite orb_comm in Ea. by rewrite Ea.
      * apply iter_leave. erewrite bind_ok by by apply Hmh. rewrite Ef. cbn. erewrite bind_ok by exact Eg. cbn. rewrite Hx. cbn.
        unfold accepts in Ea. rewrite orb_comm in Ea. by rewrite Ea.
Qed.

Lemma matchhere_run u P : forall fuel re text T,
  string_at (u_mem u) re P -> string_at (u_mem u) text T -> (length P < fuel)%nat ->
  matchhere fuel re text u = Ok (Z.b2z (here P T)) u.
Proof.
  induction P as [|c|c d P IH1 IH2] using pattern_ind; intros [|fuel] re text T Hp Ht Hf; cbn [length] in Hf; try lia;
    cbn [matchhere]; erewrite bind_ok by (by apply uget_string); cbn [hd]; [done| |].
  - pose proof (string_head _ _ _ _ Hp) as [_ ->]. destruct Hp as (Hc & _ & Hp1).
    erewrite bind_ok by by apply uget_string. cbn. erewrite bind_ok by by apply uget_string.
    rewrite andb_true_r. destruct (c =? ch_dollar).
    + destruct T as [|x T]; [done|]. pose proof (string_head _ _ _ _ Ht) as [_ Hx]. cbn. by rewrite Hx.
    + destruct T as [|x T]; [done|]. pose proof (string_head _ _ _ _ Ht) as [Hx _]. cbn [hd]. rewrite Hx. cbn [andb].
      unfold accepts. rewrite (Z.eqb_sym x c). destruct ((c =? ch_dot) || (c =? x)); [|done].
      destruct fuel as [|fuel]; [cbn in Hf; lia|]. cbn [matchhere]. by erewrite bind_ok by by apply uget_string.
  - pose proof (string_head _ _ _ _ Hp) as [_ ->]. destruct Hp as (Hc & _ & Hp1).
    erewrite bind_ok by by apply uget_string. cbn [hd]. rewrite here_cons2. pose proof (string_head _ _ _ _ Hp1) as [_ Hd].
    destruct (d =? ch_star).
    + apply matchstar_run; [|done]. intros a s Hs. apply IH1; [|done|lia].
      destruct Hp1 as (_ & _ & Hp2). by replace (re + 2) with (re + 1 + 1) by lia.
    + erewrite bind_ok by by apply uget_string. rewrite Hd, andb_false_r. destruct T as [|x T]; [done|].
      pose proof (string_head _ _ _ _ Ht) as [Hx _]. cbn [hd]. rewrite Hx. cbn [andb]. unfold accepts. rewrite (Z.eqb_sym x c).
      destruct ((c =? ch_dot) || (c =? x)); [|done]. apply IH2; [done|by apply Ht|cbn; lia].
Qed.

Lemma match_run u re text P T :
  string_at (u_mem u) re P -> string_at (u_mem u) text T ->
  match_ re text u = Ok (Z.b2z (match_here P T)) u.
Proof.
  intros Hp Ht. unfold match_, ufuel. rewrite bind_gets. pose proof (string_at_size _ _ _ Hp) as Hfp.
  pose proof (string_at_size _ _ _ Ht) as Hft. set (n := S (size (u_mem u))). assert (length P < n /\ length T < n)%nat as [Hn Hm] by lia.
  erewrite bind_ok by by apply uget_string. unfold match_here.
  assert (forall k a s, string_at (u_mem u) a s -> (length s < k)%nat ->
    iter k (fun text => r <- matchhere n re text ;; if ctrue r then leave 1 else
      t <- uget text ;; if ctrue t then continue (text + 1) else leave 0) a u = Ok (Z.b2z (anywhere (here P) s)) u) as Hany.
  { clear dependent T. intros k a s. revert k a. induction s as [|x s IH]; intros [|k] a Hs Hk; cbn [length] in Hk; try lia;
      pose proof (uget_string _ _ _ Hs) as Eg; cbn [anywhere].
    - rewrite orb_false_r. apply iter_leave. erewrite bind_ok by by apply matchhere_run. destruct (here P []); [done|]. cbn.
      by erewrite bind_ok by exact Eg.
    - destruct (here P (x :: s)) eqn:Eh; cbn [orb].
      + apply iter_leave. erewrite bind_ok by by apply matchhere_run. by rewrite Eh.
      + rewrite (iter_continue _ _ _ (a + 1) _ u); [apply IH; [by apply Hs|lia]|].
        erewrite bind_ok by by apply matchhere_run. rewrite Eh. cbn. erewrite bind_ok by exact Eg.
        pose proof (string_head _ _ _ _ Hs) as [Hx _]. cbn. by rewrite Hx. }
  destruct P as [|c P].
  - cbn [hd]. change (0 =? ch_hat) with false. cbv iota. rewrite (Hany n text T) by done. by destruct T.
  - cbn [hd]. destruct (c =? ch_hat); [|by apply Hany]. destruct Hp as (_ & _ & Hp1). apply matchhere_run; [done|done|].
    cbn in Hn. lia.
Qed.

(** C34: [match] decides the language of the pattern: for every pattern and
    text it returns, reads nothing outside the two strings, changes nothing
    and answers yes exactly when the text contains a word of the
    pattern, at its beginning with ['^'] and at its end with ['$']. *)
Theorem match_spec u re text P T :
  string_at (u_mem u) re P -> string_at (u_mem u) text T ->
  exists r, match_ re text u = Ok r u /\ (ctrue r = true <-> selects P T).
Proof.
  intros Hp Ht. exists (Z.b2z (match_here P T)). split; [by apply match_run|].
  rewrite <- match_here_spec. by destruct (match_here P T).
Qed.

End grep.
