(* ===== verification/GrepIO.v ===== *)
(** * [grep] on a file

    [grep] reads the input in pieces of any size into its 1024-byte buffer;
    it prints the matching lines, in order, whatever the pieces are. *)

From S2P Require Import Prelude Ulib UlibSpec Grep GrepSpec.

(** What [grep] relies on: [read] returns the next bytes of the input, at least
    one unless there are none or none is asked for, and [write] appends to
    the output. *)
Class FileIO `{UserSys} (fd : Z) := {
  input : world -> list Z;
  output : world -> list Z;
  read_law n w : exists bs w', sys_read fd n w = (Some bs, w') /\ input w = bs ++ input w' /\
    output w' = output w /\ Z.of_nat (length bs) <= Z.max 0 n /\ (bs = [] -> n <= 0 \/ input w = []);
  write_law bs w : exists w', sys_write 1 bs w = (Z.of_nat (length bs), w') /\
    output w' = output w ++ bs /\ input w' = input w
}.

(** ** Lines *)

(** The characters of a line: no NUL and no newline. *)
Definition line_ok (l : list Z) : Prop := Forall (fun c => 0 < c < 256 /\ c <> ch_nl) l.

Definition unlines (ls : list (list Z)) : list Z := ls ≫= (fun l => l ++ [ch_nl]).

Definition grep_output (P : list Z) (ls : list (list Z)) : list Z := unlines (filter (selects P) ls).

Lemma line_ok_nl l : line_ok l -> ch_nl ∉ l.
Proof. intros Hl Hin. unfold line_ok in Hl. rewrite Forall_forall in Hl. by apply Hl in Hin as [_ ?]. Qed.

Lemma line_ok_chars l : line_ok l -> Forall (fun c => 0 < c < 256) l.
Proof. intros Hl. eapply Forall_impl; [exact Hl|]. cbn. tauto. Qed.

Lemma unlines_chars ls : Forall line_ok ls -> Forall (fun c => 0 < c < 256) (unlines ls).
Proof.
  induction 1 as [|l ls Hl _ IH]; [done|]. cbn. rewrite !Forall_app, Forall_singleton.
  split_and!; [by apply line_ok_chars|done|done|exact IH].
Qed.

Lemma unlines_app ls ls' : unlines (ls ++ ls') = unlines ls ++ unlines ls'.
Proof. apply bind_app. Qed.

Lemma grep_output_app P ls ls' : grep_output P (ls ++ ls') = grep_output P ls ++ grep_output P ls'.
Proof. unfold grep_output. by rewrite filter_app, unlines_app. Qed.

Lemma unlines_length ls : (length ls <= length (unlines ls))%nat.
Proof. induction ls as [|l ls IH]; cbn; [done|]. rewrite !length_app. cbn. fold (unlines ls). lia. Qed.

(** The newline after a line is the first one. *)
Lemma find_nl l s : line_ok l -> list_find (fun x => x = ch_nl) (l ++ ch_nl :: s) = Some (length l, ch_nl).
Proof.
  intros Hl. apply list_find_Some. split_and!; [by rewrite list_lookup_middle|done|].
  intros j y Hj Hlt ->. apply (line_ok_nl _ Hl). apply list_elem_of_lookup. exists j. by rewrite lookup_app_l in Hj by lia.
Qed.

Lemma find_no_nl l : line_ok l -> list_find (fun x => x = ch_nl) l = None.
Proof. intros Hl. apply list_find_None. eapply Forall_impl; [exact Hl|]. cbn. tauto. Qed.

(** A prefix of the input holds a number of whole lines and a part of the
    next line. *)
Lemma cut_lines ls : forall s s' rest,
  Forall line_ok ls -> line_ok rest -> s ++ s' = unlines ls ++ rest ->
  exists ls1 ls2 r, ls = ls1 ++ ls2 /\ s = unlines ls1 ++ r /\ line_ok r /\ r ++ s' = unlines ls2 ++ rest.
Proof.
  induction ls as [|l ls IH]; intros s s' rest Hls Hrest E.
  - exists [], [], s. split_and!; [done|done| |done]. cbn in E. rewrite <- E in Hrest. by apply Forall_app in Hrest as [? _].
  - apply Forall_cons in Hls as [Hl Hls]. cbn in E. fold (unlines ls) in E.
    rewrite <- !app_assoc in E. destruct (decide (length s <= length l)%nat) as [Hle|Hgt].
    + exists [], (l :: ls), s. split_and!; [done|done| |cbn; by rewrite <- !app_assoc].
      apply (f_equal (take (length s))) in E. rewrite take_app_length, take_app_le in E by lia. rewrite E. by apply Forall_take.
    + apply app_eq_inv in E as [(k & -> & E)|(k & -> & E)]; [|rewrite length_app in Hgt; lia].
      destruct k as [|c k]; [rewrite app_nil_r in Hgt; lia|]. cbn in E. injection E as <- E.
      destruct (IH k s' rest Hls Hrest (eq_sym E)) as (ls1 & ls2 & r & -> & -> & Hr & E2).
      exists (l :: ls1), ls2, r. split_and!; [done| |done|done]. cbn. by rewrite <- !app_assoc.
Qed.

(** [read] stores a piece of the input at [a] and changes no other memory. *)
Lemma read_run `{UserSys} fd `{!FileIO fd} a n (u : user) :
  (forall j, 0 <= j < n -> is_Some (u_mem u !! (a + j))) -> Forall (fun b => 0 <= b < 256) (input (u_world u)) ->
  exists bs m w, read fd a n u = Ok (Z.of_nat (length bs)) (u <| u_world := w |> <| u_mem := m |>) /\
    bytes_at m a bs /\ (forall x, ~ a <= x < a + Z.of_nat (length bs) -> m !! x = u_mem u !! x) /\
    Forall (fun b => 0 <= b < 256) bs /\ input (u_world u) = bs ++ input w /\ output w = output (u_world u) /\
    Z.of_nat (length bs) <= Z.max 0 n /\ (bs = [] -> n <= 0 \/ input (u_world u) = []).
Proof.
  intros Ha Hin. destruct (read_law n (u_world u)) as (bs & w & E & Ei & Eo & Hn & H0).
  rewrite Ei in Hin. apply Forall_app in Hin as [Hbs _].
  destruct (uput_bytes_run (u <| u_world := w |>) a bs) as (m & E2 & Hm & Hout); [|done|].
  { intros j Hj. apply Ha. lia. }
  exists bs, m, w. split_and!; [|done..]. unfold read, in_world. unfold bind at 1. rewrite E. cbn. by erewrite bind_ok by exact E2.
Qed.

Lemma write_run `{UserSys} fd `{!FileIO fd} a n bs (u : user) :
  bytes_at (u_mem u) a bs -> Forall (fun b => 0 <= b < 256) bs -> n = Z.of_nat (length bs) ->
  exists w, write 1 a n u = Ok n (u <| u_world := w |>) /\ output w = output (u_world u) ++ bs /\ input w = input (u_world u).
Proof.
  intros Hm Hb ->. destruct (write_law bs (u_world u)) as (w & E & Ho & Hi). exists w. split; [|done].
  unfold write. rewrite Nat2Z.id. erewrite bind_ok by by apply uget_bytes_run. unfold in_world. by rewrite E.
Qed.

Section grep.
Context `{UserSys} (fd : Z) `{!FileIO fd}.
Context (buf pat : Z) (P : list Z).
Context (Hbuf : 0 < buf) (Hpat : pat + Z.of_nat (length P) < buf \/ buf + 1024 <= pat).
Implicit Types (u : user) (A : list Z).

(** ** The buffer *)

(** The array [buf] holds [A] and the pattern is in memory. *)
Record buffer (A : list Z) (u : user) : Prop := {
  bf_len : length A = 1024%nat;
  bf_char : Forall (fun b => 0 <= b < 256) A;
  bf_mem : bytes_at (u_mem u) buf A;
  bf_pat : string_at (u_mem u) pat P
}.

Lemma buffer_mapped A u i : buffer A u -> 0 <= i < 1024 -> is_Some (u_mem u !! (buf + i)).
Proof.
  intros [Hl _ Hb _] Hi. destruct (lookup_lt_is_Some_2 A (Z.to_nat i)) as [b E]; [lia|]. apply Hb in E.
  rewrite Z2Nat.id in E by lia. eauto.
Qed.

(** Any change of the array. *)
Lemma buffer_update A A' u m' :
  buffer A u -> length A' = 1024%nat -> Forall (fun b => 0 <= b < 256) A' -> bytes_at m' buf A' ->
  (forall x, ~ buf <= x < buf + 1024 -> m' !! x = u_mem u !! x) -> buffer A' (u <| u_mem := m' |>).
Proof.
  intros [_ _ _ Hp] Hl Hc Hb Hout. split; [done|done|done|]. cbn. eapply string_at_ext; [|exact Hp].
  intros x Hx. apply Hout. lia.
Qed.

Lemma buffer_put A u i v :
  buffer A u -> 0 <= i < 1024 -> 0 <= v < 256 ->
  exists u', uput (buf + i) v u = Ok tt u' /\ buffer (<[Z.to_nat i := v]> A) u' /\ u_world u' = u_world u.
Proof.
  intros Hb Hi Hv. erewrite uput_run by by eapply buffer_mapped. eexists. split; [done|]. split; [|done].
  pose proof Hb as [Hl Hc Hm _]. rewrite u8_small by done. eapply buffer_update; [done|by rewrite length_insert| | |].
  - by apply Forall_insert.
  - intros j b Hj. destruct (decide (j = Z.to_nat i)) as [->|Hne].
    + rewrite list_lookup_insert_eq in Hj by lia. injection Hj as <-. rewrite Z2Nat.id by lia. apply lookup_insert_eq.
    + rewrite list_lookup_insert_ne in Hj by done. rewrite lookup_insert_ne by lia. by apply Hm.
  - intros x Hx. apply lookup_insert_ne. lia.
Qed.

(** A string in the buffer. *)
Lemma buffer_string A u i s z :
  buffer A u -> drop i A = s ++ 0 :: z -> Forall (fun c => 0 < c < 256) s -> string_at (u_mem u) (buf + Z.of_nat i) s.
Proof.
  intros [Hl _ Hm _] Hd Hs. apply string_at_bytes. split; [|done].
  rewrite <- (take_drop i A), Hd, bytes_at_app in Hm. destruct Hm as [_ Hm].
  apply (f_equal length) in Hd. rewrite length_drop, length_app in Hd. cbn in Hd. rewrite length_take_le in Hm by lia.
  replace (s ++ 0 :: z) with ((s ++ [0]) ++ z) in Hm by by rewrite <- app_assoc. by apply bytes_at_app in Hm as [? _].
Qed.

Lemma drop_insert_at {X} (l : list X) i n s x y z :
  drop i l = s ++ x :: z -> n = (i + length s)%nat -> drop i (<[n := y]> l) = s ++ y :: z.
Proof.
  intros Hd ->. rewrite drop_insert_ge by lia. replace (i + length s - i)%nat with (length s) by lia.
  rewrite Hd. rewrite insert_app_r_alt by lia. by rewrite Nat.sub_diag.
Qed.

Lemma drop_past {X} (l : list X) i s z : drop i l = s ++ z -> drop (i + length s) l = z.
Proof. intros Hd. by rewrite <- drop_drop, Hd, drop_app_length. Qed.

(** ** The loop over the lines *)

Lemma grep_line_run A u i l s :
  buffer A u -> line_ok l -> drop i A = l ++ ch_nl :: s ->
  exists A' u', grep_line pat (buf + Z.of_nat i) (buf + Z.of_nat (i + length l)) u = Ok tt u' /\
    buffer A' u' /\ drop (i + length l + 1) A' = s /\ input (u_world u') = input (u_world u) /\
    output (u_world u') = output (u_world u) ++ grep_output P [l].
Proof.
  intros Hb Hl Hd. unfold grep_line. pose proof (bf_len _ _ Hb) as Hlen.
  assert (i + length l < 1024)%nat as Hi.
  { apply (f_equal length) in Hd. rewrite length_drop, length_app in Hd. cbn in Hd. lia. }
  assert (forall A' c, drop i A' = l ++ c :: s -> drop (i + length l + 1) A' = s) as Hpast.
  { intros A' c Hd'. replace (i + length l + 1)%nat with (i + length (l ++ [c]))%nat by (rewrite length_app; cbn; lia).
    apply drop_past. by rewrite <- app_assoc. }
  destruct (buffer_put A u (Z.of_nat (i + length l)) 0) as (u1 & E1 & Hb1 & Hw1); [done|lia|lia|]. rewrite Nat2Z.id in Hb1.
  erewrite bind_ok by exact E1. pose proof (drop_insert_at A i _ l ch_nl 0 s Hd eq_refl) as Hd1.
  erewrite bind_ok by (apply match_run; [apply (bf_pat _ _ Hb1)|eapply buffer_string; [exact Hb1|exact Hd1|by apply line_ok_chars]]).
  unfold grep_output. rewrite filter_cons. case_decide as Hsel; pose proof (match_here_spec P l) as Hm.
  - rewrite (proj2 Hm Hsel). cbn [Z.b2z ctrue Z.eqb negb].
    destruct (buffer_put _ u1 (Z.of_nat (i + length l)) ch_nl Hb1) as (u2 & E2 & Hb2 & Hw2); [lia|done|]. rewrite Nat2Z.id in Hb2.
    erewrite bind_ok by exact E2. pose proof (drop_insert_at _ i _ l 0 ch_nl s Hd1 eq_refl) as Hd2.
    assert (bytes_at (u_mem u2) (buf + Z.of_nat i) (l ++ [ch_nl])) as Hby.
    { pose proof (bf_mem _ _ Hb2) as Hmem. rewrite <- (take_drop i (<[_ := ch_nl]> _)), Hd2, bytes_at_app in Hmem.
      destruct Hmem as [_ Hmem]. rewrite length_take_le in Hmem by (rewrite !length_insert; lia).
      replace (l ++ ch_nl :: s) with ((l ++ [ch_nl]) ++ s) in Hmem by by rewrite <- app_assoc. by apply bytes_at_app in Hmem as [? _]. }
    assert (Forall (fun b => 0 <= b < 256) (l ++ [ch_nl])) as Hbr.
    { apply Forall_app. split; [|by repeat constructor]. eapply Forall_impl; [exact (line_ok_chars _ Hl)|]. cbn. lia. }
    destruct (write_run fd (buf + Z.of_nat i) (buf + Z.of_nat (i + length l) + 1 - (buf + Z.of_nat i)) _ u2 Hby Hbr) as (w' & Ew & Ho & Hin).
    { rewrite length_app. cbn. lia. }
    erewrite bind_ok by exact Ew.
    exists (<[(i + length l)%nat := ch_nl]> (<[(i + length l)%nat := 0]> A)), (u2 <| u_world := w' |>).
    split_and!; [done|by destruct Hb2|by apply (Hpast _ ch_nl)|cbn; by rewrite Hin, Hw2, Hw1|cbn; rewrite Ho, Hw2, Hw1].
    by rewrite app_nil_r.
  - assert (match_here P l = false) as -> by (apply not_true_is_false; by rewrite Hm). cbn.
    exists (<[(i + length l)%nat := 0]> A), u1. split_and!; [done|done|by apply (Hpast _ 0)|by rewrite Hw1|by rewrite Hw1, app_nil_r].
Qed.

Lemma grep_lines_loop ls : forall k i A u r z,
  buffer A u -> Forall line_ok ls -> line_ok r -> drop i A = unlines ls ++ r ++ 0 :: z -> (length ls < k)%nat ->
  exists A' u', iter k (fun p =>
      q <- strchr p ch_nl ;;
      if q =? 0 then leave p else
      grep_line pat p q ;;
      continue (q + 1)) (buf + Z.of_nat i) u = Ok (buf + Z.of_nat (i + length (unlines ls))) u' /\
    buffer A' u' /\ drop (i + length (unlines ls)) A' = r ++ 0 :: z /\ input (u_world u') = input (u_world u) /\
    output (u_world u') = output (u_world u) ++ grep_output P ls.
Proof.
  induction ls as [|l ls IH]; intros [|k] i A u r z Hb Hls Hr Hd Hk; cbn [length] in Hk; try lia.
  - exists A, u. cbn in Hd |- *. rewrite Nat.add_0_r, app_nil_r. split_and!; [|done..].
    erewrite bind_ok; [|erewrite bind_ok; [|apply strchr_run; [eapply buffer_string; [done|exact Hd|by apply line_ok_chars]|done]]].
    2: { rewrite find_no_nl by done. done. }
    done.
  - apply Forall_cons in Hls as [Hl Hls]. cbn in Hd. fold (unlines ls) in Hd. rewrite <- !app_assoc in Hd. cbn in Hd.
    destruct (grep_line_run A u i l _ Hb Hl Hd) as (A1 & u1 & E1 & Hb1 & Hd1 & Hi1 & Ho1).
    destruct (IH k (i + length l + 1)%nat A1 u1 r z) as (A2 & u2 & E2 & Hb2 & Hd2 & Hi2 & Ho2); [done..|lia|].
    exists A2, u2. assert (i + length l + 1 + length (unlines ls) = i + length (unlines (l :: ls)))%nat as El.
    { cbn. fold (unlines ls). rewrite !length_app. cbn. lia. }
    rewrite El in *. split_and!; [|done|done|congruence|].
    + rewrite <- E2. replace (buf + Z.of_nat (i + length l + 1)) with (buf + Z.of_nat (i + length l) + 1) by lia.
      apply iter_continue. erewrite bind_ok.
      2: { apply (strchr_run u _ (l ++ ch_nl :: (unlines ls ++ r))); [|done].
           eapply buffer_string; [done|rewrite Hd, <- !app_assoc; cbn; by rewrite <- !app_assoc|].
           rewrite Forall_app, Forall_cons, Forall_app.
           split_and!; [by apply line_ok_chars|done..|by apply unlines_chars|by apply line_ok_chars]. }
      rewrite find_nl by done. replace (buf + Z.of_nat i + Z.of_nat (length l)) with (buf + Z.of_nat (i + length l)) by lia.
      destruct (Z.eqb_spec (buf + Z.of_nat (i + length l)) 0); [lia|].
      by erewrite bind_ok by exact E1.
    + rewrite Ho2, Ho1, <- app_assoc. by rewrite <- grep_output_app.
Qed.

Lemma grep_lines_run ls A u r z :
  buffer A u -> Forall line_ok ls -> line_ok r -> A = unlines ls ++ r ++ 0 :: z ->
  exists A' u', grep_lines pat buf u = Ok (buf + Z.of_nat (length (unlines ls))) u' /\
    buffer A' u' /\ drop (length (unlines ls)) A' = r ++ 0 :: z /\ input (u_world u') = input (u_world u) /\
    output (u_world u') = output (u_world u) ++ grep_output P ls.
Proof.
  intros Hb Hls Hr Hd. unfold grep_lines, ufuel. rewrite bind_gets.
  pose proof (bytes_at_size _ _ _ (bf_mem _ _ Hb)) as Hsz. pose proof (unlines_length ls) as Hul.
  assert (length (unlines ls) <= length A)%nat by (rewrite Hd, length_app; lia).
  destruct (grep_lines_loop ls (S (size (u_mem u))) O A u r z) as (A' & u' & E & Hrest); [done..|lia|].
  rewrite Z.add_0_r in E. by exists A', u'.
Qed.

(** ** Reading *)

(** The bytes read are stored after the [m] bytes in the buffer. *)
Lemma grep_read A u B :
  buffer A u -> (length B <= 1023)%nat -> take (length B) A = B ->
  Forall (fun c => 0 < c < 256) (input (u_world u)) ->
  exists bs A' u', read fd (buf + Z.of_nat (length B)) (1024 - Z.of_nat (length B) - 1) u = Ok (Z.of_nat (length bs)) u' /\
    buffer A' u' /\ take (length (B ++ bs)) A' = B ++ bs /\ (length (B ++ bs) <= 1023)%nat /\
    input (u_world u) = bs ++ input (u_world u') /\ output (u_world u') = output (u_world u) /\
    (bs = [] -> (1023 <= length B)%nat \/ input (u_world u) = []).
Proof.
  intros Hb HB Ht Hin. pose proof (bf_len _ _ Hb) as Hl.
  destruct (read_run fd (buf + Z.of_nat (length B)) (1024 - Z.of_nat (length B) - 1) u) as (bs & m & w' & E & Hm & Hout & Hbs & Ei & Eo & Hn & H0).
  { intros j Hj. rewrite <- Z.add_assoc. eapply buffer_mapped; [done|lia]. }
  { eapply Forall_impl; [exact Hin|]. cbn. lia. }
  assert (length B + length bs <= 1023)%nat as Hlen by lia.
  exists bs, (B ++ bs ++ drop (length B + length bs) A), (u <| u_world := w' |> <| u_mem := m |>).
  split_and!; [exact E| | |by rewrite length_app|done|done|].
  - assert (A = B ++ drop (length B) A) as EA by (rewrite <- Ht at 1; by rewrite take_drop).
    pose proof Hb as [_ Hc Hmem _]. eapply (buffer_update A); [by destruct Hb| | | |].
    + rewrite !length_app, length_drop. lia.
    + rewrite !Forall_app. split_and!; [|done|by apply Forall_drop]. rewrite EA in Hc. by apply Forall_app in Hc as [? _].
    + rewrite bytes_at_app, bytes_at_app. split_and!; [|done|].
      * intros j b Hj. rewrite Hout by (apply lookup_lt_Some in Hj; lia). cbn. apply Hmem. rewrite EA. by apply lookup_app_l_Some.
      * intros j b Hj. rewrite Hout by lia. cbn. rewrite lookup_drop in Hj. apply Hmem in Hj. rewrite <- Hj. f_equal. lia.
    + intros x Hx. apply Hout. lia.
  - rewrite app_assoc. by rewrite take_app_length.
  - intros ->. destruct (H0 eq_refl) as [?|?]; [left; lia|by right].
Qed.

(** Moving the incomplete line to the start of the buffer. *)
Lemma grep_move A u n r z :
  buffer A u -> drop n A = r ++ z -> (n + length r <= 1024)%nat ->
  exists A' u', memmove buf (buf + Z.of_nat n) (Z.of_nat (length r)) u = Ok buf u' /\ buffer A' u' /\
    take (length r) A' = r /\ u_world u' = u_world u.
Proof.
  intros Hb Hd Hn. pose proof Hb as [Hl Hc Hmem _].
  assert (forall i, 0 <= i < 1024 -> exists b, A !! Z.to_nat i = Some b /\ u_mem u !! (buf + i) = Some b /\ 0 <= b < 256) as Hat.
  { intros i Hi. destruct (lookup_lt_is_Some_2 A (Z.to_nat i)) as [b E]; [lia|]. exists b. split_and!; [done| | |].
    - apply Hmem in E. by rewrite Z2Nat.id in E by lia.
    - eapply Forall_lookup_1 in Hc; [|exact E]. lia.
    - eapply Forall_lookup_1 in Hc; [|exact E]. lia. }
  destruct (memmove_run u buf (buf + Z.of_nat n) (Z.of_nat (length r))) as (m & E & Hm); [lia| | |].
  { intros x Hx. destruct (Hat (x - buf)) as (b & _ & Eb & Hr); [lia|]. exists b. by replace (buf + (x - buf)) with x in Eb by lia. }
  { intros x Hx. destruct (Hat (x - buf)) as (b & _ & Eb & _); [lia|]. exists b. by replace (buf + (x - buf)) with x in Eb by lia. }
  assert (Forall (fun b => 0 <= b < 256) r) as Hr.
  { apply (Forall_drop _ n) in Hc. rewrite Hd in Hc. by apply Forall_app in Hc as [? _]. }
  exists (r ++ drop (length r) A), (u <| u_mem := m |>). split_and!; [done| |by rewrite take_app_length|done].
  eapply buffer_update; [done| | | |].
  - rewrite length_app, length_drop. lia.
  - apply Forall_app. split; [done|by apply Forall_drop].
  - apply bytes_at_app. split.
    + intros j b Hj. pose proof (lookup_lt_Some _ _ _ Hj). rewrite Hm, decide_True by lia.
      replace (buf + Z.of_nat n + (buf + Z.of_nat j - buf)) with (buf + Z.of_nat (n + j)) by lia.
      apply Hmem. rewrite <- lookup_drop, Hd. by apply lookup_app_l_Some.
    + intros j b Hj. rewrite Hm, decide_False by lia. rewrite lookup_drop in Hj. apply Hmem in Hj. rewrite <- Hj. f_equal. lia.
  - intros x Hx. rewrite Hm, decide_False by lia. done.
Qed.

(** A line that is not complete leaves room in the buffer. *)
Lemma partial_line B s ls rest :
  B ++ s = unlines ls ++ rest -> line_ok B -> Forall (fun l => length l <= 1022)%nat ls -> (length rest <= 1023)%nat ->
  (s = [] -> ls = []) /\ (s <> [] -> (length B < 1023)%nat).
Proof.
  intros E HB Hls Hrest. destruct ls as [|l ls].
  - cbn in E. split; [done|]. intros Hs. apply (f_equal length) in E. rewrite length_app in E.
    destruct s; [done|]. cbn in E. lia.
  - apply Forall_cons in Hls as [Hl _]. cbn in E. rewrite <- !app_assoc in E.
    assert (length B <= length l)%nat as HBl.
    { destruct (decide (length B <= length l)%nat); [done|]. exfalso. apply (line_ok_nl _ HB).
      apply list_elem_of_lookup. exists (length l). rewrite <- (lookup_app_l B s), E by lia. by apply list_lookup_middle. }
    split; [|lia]. intros ->. apply (f_equal length) in E. rewrite app_nil_r, !length_app in E. cbn in E. lia.
Qed.

Lemma grep_loop k : forall ls rest B A u,
  buffer A u -> take (length B) A = B -> (length B <= 1023)%nat -> line_ok B ->
  B ++ input (u_world u) = unlines ls ++ rest -> Forall line_ok ls -> line_ok rest ->
  Forall (fun l => length l <= 1022)%nat ls -> (length rest <= 1023)%nat -> (length (input (u_world u)) < k)%nat ->
  exists u', iter k (fun m =>
      n <- read fd (buf + m) (1024 - m - 1) ;;
      if negb (0 <? n) then leave tt else
      let m := m + n in
      uput (buf + m) 0 ;;
      p <- grep_lines pat buf ;;
      let m' := m - (p - buf) in
      (if 0 <? m then memmove buf p m' ;; ret tt else ret tt) ;;
      continue (if 0 <? m then m' else m)) (Z.of_nat (length B)) u = Ok tt u' /\
    output (u_world u') = output (u_world u) ++ grep_output P ls.
Proof.
  induction k as [|k IH]; intros ls rest B A u Hb Ht HB HBl E Hls Hrest Hll Hrl Hk; [lia|].
  assert (Forall (fun c => 0 < c < 256) (input (u_world u))) as Hin.
  { assert (Forall (fun c => 0 < c < 256) (B ++ input (u_world u))) as Hall; [|by apply Forall_app in Hall as [_ ?]].
    rewrite E, Forall_app. split; [by apply unlines_chars|by apply line_ok_chars]. }
  destruct (partial_line _ _ _ _ E HBl Hll Hrl) as [Hend Hroom].
  destruct (grep_read A u B Hb HB Ht Hin) as (bs & A1 & u1 & E1 & Hb1 & Ht1 & HB1 & Ei & Eo & Hstop).
  destruct (decide (bs = [])) as [->|Hne].
  - exists u1. split; [apply iter_leave; by erewrite bind_ok by exact E1|].
    assert (input (u_world u) = []) as Hnil.
    { destruct (Hstop eq_refl) as [?|?]; [|done]. destruct (decide (input (u_world u) = [])) as [|Hn]; [done|]. apply Hroom in Hn. lia. }
    rewrite (Hend Hnil), Eo. by rewrite app_nil_r.
  - rewrite Ei, app_assoc in E. destruct (cut_lines ls (B ++ bs) _ rest Hls Hrest E) as (ls1 & ls2 & r & -> & Es & Hr & E2).
    apply Forall_app in Hls as [Hls1 Hls2]. apply Forall_app in Hll as [_ Hll2].
    assert (0 < length bs)%nat as Hpos by (destruct bs; [done|cbn; lia]). set (m := (length (B ++ bs))%nat) in *.
    assert (0 < m)%nat as Hm0 by (unfold m; rewrite length_app; lia).
    destruct (buffer_put A1 u1 (Z.of_nat m) 0 Hb1) as (u2 & E3 & Hb2 & Hw2); [lia|lia|]. rewrite Nat2Z.id in Hb2.
    assert (<[m := 0]> A1 = unlines ls1 ++ r ++ 0 :: drop (S m) A1) as EA.
    { rewrite app_assoc, <- Es. rewrite <- Ht1. apply insert_take_drop. rewrite (bf_len _ _ Hb1). lia. }
    destruct (grep_lines_run ls1 _ u2 r (drop (S m) A1) Hb2 Hls1 Hr EA) as (A3 & u3 & E4 & Hb3 & Hd3 & Hi3 & Ho3).
    assert (m = length (unlines ls1) + length r)%nat as Em by (unfold m; rewrite Es, length_app; done).
    destruct (grep_move A3 u3 _ r _ Hb3 Hd3) as (A4 & u4 & E5 & Hb4 & Ht4 & Hw4); [lia|].
    destruct (IH ls2 rest r A4 u4) as (u5 & E6 & Ho5); try done; try lia.
    { by rewrite Hw4, Hi3, Hw2. }
    { rewrite Hw4, Hi3, Hw2. rewrite Ei, length_app in Hk. lia. }
    exists u5. split.
    + rewrite <- E6. apply iter_continue. erewrite bind_ok by exact E1.
      destruct (Z.ltb_spec 0 (Z.of_nat (length bs))); [|lia]. cbn [negb]. cbv zeta.
      assert (Z.of_nat (length B) + Z.of_nat (length bs) = Z.of_nat m) as -> by (unfold m; rewrite length_app; lia).
      erewrite bind_ok by exact E3. erewrite bind_ok by exact E4. destruct (Z.ltb_spec 0 (Z.of_nat m)); [|lia].
      replace (Z.of_nat m - (buf + Z.of_nat (length (unlines ls1)) - buf)) with (Z.of_nat (length r)) by lia.
      rewrite bind_bind. by erewrite bind_ok by exact E5.
    + rewrite Ho5, Hw4, Ho3, Hw2, Eo, <- app_assoc. by rewrite <- grep_output_app.
Qed.

Lemma grep_run u A ls rest fuel :
  buffer A u -> input (u_world u) = unlines ls ++ rest -> Forall line_ok ls -> line_ok rest ->
  Forall (fun l => length l <= 1022)%nat ls -> (length rest <= 1023)%nat -> (length (input (u_world u)) < fuel)%nat ->
  exists u', grep fuel buf pat fd u = Ok tt u' /\
    output (u_world u') = output (u_world u) ++ unlines (filter (selects P) ls).
Proof.
  intros Hb E Hls Hrest Hll Hrl Hf. unfold grep. apply (grep_loop fuel ls rest [] A u); try done; cbn; lia || constructor.
Qed.


End grep.
