(* ===== verification/Umalloc.v ===== *)
(** * [user/umalloc.c]

    The allocator keeps its list of free blocks in the memory it manages. A
    [Header] has a pointer at offset 0 and a 32-bit size at offset 8, 16
    bytes in all; sizes count headers. Addresses stay below 2^38, so that
    pointer arithmetic does not wrap around. *)

From S2P Require Import Prelude Ulib.

(** The addresses of the static variables [base] and [freep]. *)
Class MallocStatics := { base : Z; freep : Z }.

Section umalloc.
Context `{UserSys} `{MallocStatics}.

(** [sizeof(Header)] *)
Definition sizeof_Header : Z := 16.

(** [p->s.ptr] and [p->s.size] *)
Definition get_ptr (p : Z) : M user Z := uload 8 p.

Definition set_ptr (p v : Z) : M user unit := ustore 8 p v.

Definition get_size (p : Z) : M user Z := uload 4 (p + 8).

Definition set_size (p v : Z) : M user unit := ustore 4 (p + 8) v.

(** One round of the search for the place of [bp] in the list. *)
Definition free_step (bp p : Z) : M user (Z + Z) :=
  next <- get_ptr p ;;
  if (p <? bp) && (bp <? next) then leave p else
  if (next <=? p) && ((p <? bp) || (bp <? next)) then leave p else
  continue next.

Definition free (ap : Z) : M user unit :=
  let bp := ap - sizeof_Header in
  start <- uload 8 freep ;;
  n <- ufuel ;;
  p <- iter n (free_step bp) start ;;
  next <- get_ptr p ;;
  bsize <- get_size bp ;;
  (if bp + sizeof_Header * bsize =? next then
     nsize <- get_size next ;;
     set_size bp (bsize + nsize) ;;
     nnext <- get_ptr next ;;
     set_ptr bp nnext
   else set_ptr bp next) ;;
  psize <- get_size p ;;
  (if p + sizeof_Header * psize =? bp then
     bsize <- get_size bp ;;
     set_size p (psize + bsize) ;;
     bnext <- get_ptr bp ;;
     set_ptr p bnext
   else set_ptr p bp) ;;
  ustore 8 freep p.

(** The argument of [sbrk] is an [int]. *)
Definition morecore (nu : Z) : M user Z :=
  let nu := if nu <? 4096 then 4096 else nu in
  p <- sbrk (s32 (nu * sizeof_Header)) ;;
  if p =? -1 then ret 0 else
  set_size p nu ;;
  free (p + sizeof_Header) ;;
  uload 8 freep.

(** Taking [nunits] from the block [p], whose predecessor is [prevp]. *)
Definition malloc_take (nunits prevp p psize : Z) : M user Z :=
  q <- (if psize =? nunits then next <- get_ptr p ;; set_ptr prevp next ;; ret p
        else set_size p (psize - nunits) ;;
             let q := p + sizeof_Header * (psize - nunits) in
             set_size q nunits ;; ret q) ;;
  ustore 8 freep prevp ;;
  ret (q + sizeof_Header).

(** One round of the search, at [p] with predecessor [prevp]. *)
Definition malloc_step (nunits : Z) (x : Z * Z) : M user (Z * Z + Z) :=
  let '(prevp, p) := x in
  psize <- get_size p ;;
  if nunits <=? psize then r <- malloc_take nunits prevp p psize ;; leave r else
  f <- uload 8 freep ;;
  if p =? f then
    p <- morecore nunits ;;
    if p =? 0 then leave 0 else next <- get_ptr p ;; continue (p, next)
  else next <- get_ptr p ;; continue (p, next).

(** At most two laps around the list, the second after [morecore]. *)
Definition malloc (nbytes : Z) : M user Z :=
  let nunits := u32 ((nbytes + sizeof_Header - 1) / sizeof_Header + 1) in
  start <- uload 8 freep ;;
  prevp <- (if start =? 0 then
              ustore 8 freep base ;; set_ptr base base ;; set_size base 0 ;; ret base
            else ret start) ;;
  n <- ufuel ;;
  p <- get_ptr prevp ;;
  iter (S (2 * n)) (malloc_step nunits) (prevp, p).

End umalloc.
