(* ===== verification/UmallocSpec.v ===== *)
(** * Specification of [malloc] and [free]

    The free blocks form a ring in address order; together with the
    allocated blocks they are disjoint parts of the heap. [malloc] and
    [free] keep this, whatever a client does with the memory it was given,
    and always return. *)

From Stdlib Require Import Sorting.Sorted.
From S2P Require Import Prelude Ulib UlibSpec Umalloc.

(** ** Integers in memory *)

(** The [n]-byte integer [v] is at [a]. *)
Definition word_at (m : gmap Z Z) (n : nat) (a v : Z) : Prop := bytes_at m a (le_bytes n v) /\ 0 <= v < 256 ^ Z.of_nat n.

Lemma length_le_bytes n v : length (le_bytes n v) = n.
Proof. revert v. induction n as [|n IH]; intros v; cbn; [done|]. by rewrite IH. Qed.

Lemma le_bytes_range n v : Forall (fun b => 0 <= b < 256) (le_bytes n v).
Proof. revert v. induction n as [|n IH]; intros v; constructor; [apply u8_range|apply IH]. Qed.

Lemma le_val_bytes n v : 0 <= v < 256 ^ Z.of_nat n -> le_val (le_bytes n v) = v.
Proof.
  revert v. induction n as [|n IH]; intros v Hv; cbn [le_bytes]; [cbn in *; lia|].
  change (le_val (u8 v :: le_bytes n (v / 256))) with (u8 v + 256 * le_val (le_bytes n (v / 256))).
  rewrite Nat2Z.inj_succ, Z.pow_succ_r in Hv by lia. rewrite IH by (split; [apply Z.div_pos|apply Z.div_lt_upper_bound]; lia).
  unfold u8. change (2 ^ 8) with 256. pose proof (Z.div_mod v 256 ltac:(lia)). lia.
Qed.

Lemma word_at_ext m m' n a v : (forall x, a <= x < a + Z.of_nat n -> m' !! x = m !! x) -> word_at m n a v -> word_at m' n a v.
Proof.
  intros Hx [Hb Hv]. split; [|done]. intros i b Hi. rewrite Hx; [by apply Hb|].
  apply lookup_lt_Some in Hi. rewrite length_le_bytes in Hi. lia.
Qed.

Lemma word_at_inj m n a v w : word_at m n a v -> word_at m n a w -> v = w.
Proof.
  intros [Hv Hvr] [Hw Hwr]. rewrite <- (le_val_bytes n v), <- (le_val_bytes n w) by done. f_equal.
  apply list_eq_same_length with n; [by rewrite length_le_bytes..|].
  intros i x y _ Hx Hy. apply Hv in Hx. apply Hw in Hy. congruence.
Qed.

Section words.
Context `{UserSys}.

Lemma uload_run n a v u : word_at (u_mem u) n a v -> uload n a u = Ok v u.
Proof.
  intros [Hb Hv]. unfold uload. rewrite <- (length_le_bytes n v) at 1.
  erewrite bind_ok by (apply uget_bytes_run; [exact Hb|apply le_bytes_range]). by rewrite le_val_bytes.
Qed.

(** What a store at [a] does to memory. *)
Definition stored (n : nat) (a v : Z) (m m' : gmap Z Z) : Prop :=
  word_at m' n a v /\ forall x, ~ a <= x < a + Z.of_nat n -> m' !! x = m !! x.

Lemma ustore_run n a v u :
  writable (u_mem u) a (Z.of_nat n) -> 0 <= v < 256 ^ Z.of_nat n ->
  exists m', ustore n a v u = Ok tt (u <| u_mem := m' |>) /\ stored n a v (u_mem u) m'.
Proof.
  intros Hw Hv. destruct (uput_bytes_run u a (le_bytes n v)) as (m' & E & Hb & Hout).
  - intros i Hi. rewrite length_le_bytes in Hi. apply Hw. lia.
  - apply le_bytes_range.
  - rewrite length_le_bytes in Hout. by exists m'.
Qed.

Lemma stored_mapped n a v m m' x : stored n a v m m' -> is_Some (m !! x) -> is_Some (m' !! x).
Proof.
  intros [[Hb _] Hout] Hx. destruct (decide (a <= x < a + Z.of_nat n)) as [Hin|]; [|by rewrite Hout].
  destruct (lookup_lt_is_Some_2 (le_bytes n v) (Z.to_nat (x - a))) as [b Hi]; [rewrite length_le_bytes; lia|].
  apply Hb in Hi. replace (a + Z.of_nat (Z.to_nat (x - a))) with x in Hi by lia. eauto.
Qed.

Lemma stored_word n a v m m' k b w :
  stored n a v m m' -> a + Z.of_nat n <= b \/ b + Z.of_nat k <= a -> word_at m k b w -> word_at m' k b w.
Proof. intros [_ Hout] Hd. apply word_at_ext. intros x Hx. apply Hout. lia. Qed.

End words.

(** ** Headers *)

Definition hdr (m : gmap Z Z) (p ptr size : Z) : Prop := word_at m 8 p ptr /\ word_at m 4 (p + 8) size.

Lemma hdr_ext m m' p ptr size : (forall x, p <= x < p + 16 -> m' !! x = m !! x) -> hdr m p ptr size -> hdr m' p ptr size.
Proof. intros Hx [H1 H2]. split; (eapply word_at_ext; [|eassumption]); intros x Hr; apply Hx; lia. Qed.

(** ** Blocks

    A block is an address and a size in units; [F] lists the free blocks,
    [A] maps the addresses of allocated blocks to their sizes. *)

Definition block_end (x : Z * Z) : Z := x.1 + 16 * x.2.

Definition disj (x y : Z * Z) : Prop := block_end x <= y.1 \/ block_end y <= x.1.

Definition block_in (lo hi : Z) (x : Z * Z) : Prop := 1 <= x.2 /\ lo <= x.1 /\ block_end x <= hi.

Record layout (lo hi : Z) (F : list (Z * Z)) (A : gmap Z Z) : Prop := {
  ly_sorted : StronglySorted (fun x y => block_end x <= y.1) F;
  ly_free : Forall (block_in lo hi) F;
  ly_alloc : forall a s, A !! a = Some s -> block_in lo hi (a, s);
  ly_apart : forall x a s, x ∈ F -> A !! a = Some s -> disj x (a, s);
  ly_disj : forall a s b t, A !! a = Some s -> A !! b = Some t -> a <> b -> disj (a, s) (b, t)
}.

Section layout.
Context (lo hi : Z).
Implicit Types (F X Y : list (Z * Z)) (A : gmap Z Z).

Lemma sorted_app F1 F2 :
  StronglySorted (fun x y => block_end x <= y.1) (F1 ++ F2) <->
  StronglySorted (fun x y => block_end x <= y.1) F1 /\ StronglySorted (fun x y => block_end x <= y.1) F2 /\
  forall x y, x ∈ F1 -> y ∈ F2 -> block_end x <= y.1.
Proof.
  induction F1 as [|z F1 IH]; cbn.
  - split; [intros Hs; split_and!; [constructor|done|by intros x y ?%not_elem_of_nil]|tauto].
  - split.
    + intros [Hs Hz]%StronglySorted_inv. apply IH in Hs as (H1 & H2 & H3). rewrite Forall_app in Hz. destruct Hz as [Hz1 Hz2].
      split_and!; [by constructor|done|]. intros x y [->|Hx]%elem_of_cons Hy; [|auto]. rewrite Forall_forall in Hz2. auto.
    + intros ([Hs Hz]%StronglySorted_inv & H2 & H3). constructor.
      * apply IH. split_and!; [done|done|]. intros x y Hx. apply H3. by right.
      * apply Forall_app. split; [done|]. apply Forall_forall. intros y Hy. apply H3; [by left|done].
Qed.

(** A block that is apart from the free blocks has its place among them. *)
Lemma sorted_place F b :
  StronglySorted (fun x y => block_end x <= y.1) F -> 1 <= b.2 -> Forall (fun x => 1 <= x.2) F -> (forall x, x ∈ F -> disj x b) ->
  exists F1 F2, F = F1 ++ F2 /\ (forall x, x ∈ F1 -> block_end x <= b.1) /\ (forall x, x ∈ F2 -> block_end b <= x.1).
Proof.
  intros Hs Hb. induction F as [|x F IH]; intros Hpos Hd.
  { exists [], []. split_and!; [done|by intros x ?%not_elem_of_nil..]. }
  apply StronglySorted_inv in Hs as [Hs Hx]. apply Forall_cons in Hpos as [Hp Hpos]. rewrite Forall_forall in Hx.
  destruct (Hd x ltac:(left)) as [Hle|Hge].
  - destruct (IH Hs Hpos) as (F1 & F2 & -> & H1 & H2); [intros y Hy; apply Hd; by right|].
    exists (x :: F1), F2. split_and!; [done| |done]. intros y [->|Hy]%elem_of_cons; auto.
  - exists [], (x :: F). split_and!; [done|by intros y ?%not_elem_of_nil|]. intros y [->|Hy]%elem_of_cons; [done|].
    apply Hx in Hy. unfold block_end in *. lia.
Qed.

Lemma layout_free F A b s :
  layout lo hi F A -> A !! b = Some s ->
  exists F1 F2, F = F1 ++ F2 /\ layout lo hi (F1 ++ (b, s) :: F2) (delete b A).
Proof.
  intros [Hs Hf Ha Hap Hd] Hb. pose proof (Ha _ _ Hb) as Hin.
  destruct (sorted_place F (b, s)) as (F1 & F2 & -> & H1 & H2); [done|apply Hin| |intros x Hx; by apply Hap|].
  { eapply Forall_impl; [exact Hf|]. by intros x []. }
  apply sorted_app in Hs as (Hs1 & Hs2 & H12). apply Forall_app in Hf as [Hf1 Hf2].
  exists F1, F2. split; [done|]. split.
  - apply sorted_app. split_and!; [done| |].
    + constructor; [done|]. by apply Forall_forall.
    + intros x y Hx [->|Hy]%elem_of_cons; auto.
  - apply Forall_app. split; [done|]. by constructor.
  - intros a t [_ Ht]%lookup_delete_Some. auto.
  - intros x a t Hx [Hne Ht]%lookup_delete_Some. apply elem_of_app in Hx as [Hx|[->|Hx]%elem_of_cons].
    + apply Hap; [apply elem_of_app; by left|done].
    + by apply Hd.
    + apply Hap; [apply elem_of_app; by right|done].
  - intros a t c v [_ Ht]%lookup_delete_Some [_ Hv]%lookup_delete_Some. auto.
Qed.

Lemma layout_merge X a s b t Y A :
  layout lo hi (X ++ (a, s) :: (b, t) :: Y) A -> a + 16 * s = b -> layout lo hi (X ++ (a, s + t) :: Y) A.
Proof.
  intros [Hs Hf Ha Hap Hd] E. apply sorted_app in Hs as (Hs1 & Hs2 & H12). apply Forall_app in Hf as [Hf1 Hf2].
  apply Forall_cons in Hf2 as [Hfa Hf2]. apply Forall_cons in Hf2 as [Hfb Hf2].
  apply StronglySorted_inv in Hs2 as [Hs2 Ha2]. apply StronglySorted_inv in Hs2 as [Hs2 Hb2].
  assert (block_end (a, s + t) = block_end (b, t)) as Ee by (unfold block_end; cbn; lia).
  assert (block_in lo hi (a, s + t)) as Hin by (unfold block_in, block_end in *; cbn in *; lia).
  split; try done.
  - apply sorted_app. split_and!; [done| |].
    + constructor; [done|]. by rewrite Ee.
    + intros x y Hx [->|Hy]%elem_of_cons; [apply (H12 x (a, s) Hx); left|]. apply (H12 x y Hx). by do 2 right.
  - apply Forall_app. split; [done|]. by constructor.
  - intros x c v Hx Hc. apply elem_of_app in Hx as [Hx|[->|Hx]%elem_of_cons].
    + apply Hap; [apply elem_of_app; by left|done].
    + pose proof (Hap (a, s) c v ltac:(apply elem_of_app; right; left) Hc). pose proof (Ha _ _ Hc).
      pose proof (Hap (b, t) c v ltac:(apply elem_of_app; right; right; left) Hc).
      unfold disj, block_in, block_end in *. cbn in *. lia.
    + apply Hap; [apply elem_of_app; right; by do 2 right|done].
Qed.

(** Giving a part of a free block away; [n] is the whole of it or less. *)
Lemma layout_take X a s n Y A :
  layout lo hi (X ++ (a, s) :: Y) A -> 1 <= n <= s ->
  layout lo hi (X ++ (if decide (n = s) then Y else (a, s - n) :: Y)) (<[a + 16 * (s - n) := n]> A).
Proof.
  intros [Hs Hf Ha Hap Hd] Hn. set (q := a + 16 * (s - n)).
  apply sorted_app in Hs as (Hs1 & Hs2 & H12). apply Forall_app in Hf as [Hf1 Hf2]. apply Forall_cons in Hf2 as [Hfa Hf2].
  apply StronglySorted_inv in Hs2 as [Hs2 Ha2]. rewrite Forall_forall in Ha2.
  assert (forall c v, A !! c = Some v -> disj (a, s) (c, v)) as Hac by (intros c v Hc; apply Hap; [apply elem_of_app; right; left|done]).
  assert (forall x, x ∈ X ++ Y -> disj x (a, s)) as Hxa.
  { intros x [Hx|Hx]%elem_of_app; [left; apply (H12 x (a, s) Hx); left|right; by apply Ha2]. }
  assert (forall x, x ∈ (if decide (n = s) then Y else (a, s - n) :: Y) -> x ∈ Y \/ x = (a, s - n) /\ n <> s) as Hsplit.
  { intros x. case_decide; [by left|]. intros [->|Hx]%elem_of_cons; [by right|by left]. }
  split.
  - apply sorted_app. split_and!; [done| |].
    + case_decide; [done|]. constructor; [done|]. apply Forall_forall. intros y Hy. apply Ha2 in Hy. unfold block_end in *. cbn in *. lia.
    + intros x y Hx Hy. apply Hsplit in Hy as [Hy|[-> _]]; [apply (H12 x y Hx); by right|]. apply (H12 x (a, s) Hx). left.
  - apply Forall_app. split; [done|]. apply Forall_forall. intros x Hx. rewrite Forall_forall in Hf2.
    apply Hsplit in Hx as [Hx|[-> Hne]]; [auto|]. unfold block_in, block_end in *. cbn in *. lia.
  - intros c v [[<- <-]|[_ Hc]]%lookup_insert_Some; [|auto]. unfold block_in, block_end in *. cbn in *. unfold q. lia.
  - intros x c v Hx [[<- <-]|[_ Hc]]%lookup_insert_Some.
    + assert (x ∈ X ++ Y \/ x = (a, s - n)) as [Hx'| ->].
      { apply elem_of_app in Hx as [Hx|[Hx|[-> _]]%Hsplit]; [left; apply elem_of_app; tauto..|by right]. }
      * specialize (Hxa x Hx'). unfold disj, block_end, q in *. cbn in *. lia.
      * left. unfold block_end, q. cbn. lia.
    + apply elem_of_app in Hx as [Hx|[Hx|[-> Hne]]%Hsplit].
      * apply Hap; [apply elem_of_app; by left|done].
      * apply Hap; [apply elem_of_app; right; by right|done].
      * specialize (Hac _ _ Hc). unfold disj, block_end in *. cbn in *. lia.
  - intros c v d w [[<- <-]|[Hne Hc]]%lookup_insert_Some [[<- <-]|[Hne' Hd']]%lookup_insert_Some Hcd; [done| | |auto].
    + specialize (Hac _ _ Hd'). unfold disj, block_end, q in *. cbn in *. lia.
    + specialize (Hac _ _ Hc). unfold disj, block_end, q in *. cbn in *. lia.
Qed.

End layout.

(** New memory at the end of the heap. *)
Lemma layout_grow lo hi n F A :
  layout lo hi F A -> lo <= hi -> 1 <= n -> layout lo (hi + 16 * n) F (<[hi := n]> A).
Proof.
  intros [Hs Hf Ha Hap Hd] Hlo Hn. rewrite Forall_forall in Hf. split; [done| | | |].
  - apply Forall_forall. intros x Hx. apply Hf in Hx. unfold block_in in *. lia.
  - intros a s [[<- <-]|[_ H]]%lookup_insert_Some; [unfold block_in, block_end; cbn; lia|].
    apply Ha in H. unfold block_in in *. lia.
  - intros x a s Hx [[<- <-]|[_ H]]%lookup_insert_Some; [|auto]. apply Hf in Hx. unfold block_in in Hx. left. cbn. lia.
  - intros a s b t [[<- <-]|[Hn1 H1]]%lookup_insert_Some [[<- <-]|[Hn2 H2]]%lookup_insert_Some Hab; [done| | |auto].
    + apply Ha in H2. unfold block_in in H2. right. cbn in *. lia.
    + apply Ha in H1. unfold block_in in H1. left. cbn in *. lia.
Qed.

(** ** The list of free blocks in memory *)

(** The address of the first block of [N], or [z]. *)
Definition first (N : list (Z * Z)) (z : Z) : Z := match N with [] => z | x :: _ => x.1 end.

(** The headers of the blocks of [N] link them, and the last one to [z]. *)
Fixpoint chain (m : gmap Z Z) (N : list (Z * Z)) (z : Z) : Prop :=
  match N with
  | [] => True
  | x :: N' => hdr m x.1 (first N' z) x.2 /\ chain m N' z
  end.

Lemma first_app N1 N2 z : first (N1 ++ N2) z = first N1 (first N2 z).
Proof. by destruct N1. Qed.

Lemma chain_app m N1 N2 z : chain m (N1 ++ N2) z <-> chain m N1 (first N2 z) /\ chain m N2 z.
Proof.
  induction N1 as [|x N1 IH]; cbn; [tauto|]. rewrite IH, first_app. tauto.
Qed.

Lemma chain_ext m m' N z :
  (forall x a, x ∈ N -> x.1 <= a < x.1 + 16 -> m' !! a = m !! a) -> chain m N z -> chain m' N z.
Proof.
  induction N as [|x N IH]; cbn; [done|]. intros Hx [Hh Hc]. split.
  - eapply hdr_ext; [|exact Hh]. intros a Ha. apply (Hx x); [left|done].
  - apply IH; [|done]. intros y a Hy. apply Hx. by right.
Qed.

(** The header of a block of the ring holds the address of the next one. *)
Lemma chain_next m N x N' z : chain m (N ++ x :: N') z -> hdr m x.1 (first N' z) x.2.
Proof. intros [_ [Hh _]]%chain_app. done. Qed.

(** Increasing addresses, with room for the headers. *)
Definition ascending (N : list (Z * Z)) : Prop := StronglySorted (fun x y => x.1 + 16 <= y.1) N.

Lemma ascending_after N1 x N2 y : ascending (N1 ++ x :: N2) -> y ∈ N2 -> x.1 + 16 <= y.1.
Proof.
  induction N1 as [|w N1 IH]; cbn; intros [Hs Hx]%StronglySorted_inv Hy; [|by apply IH].
  rewrite Forall_forall in Hx. auto.
Qed.

Lemma ascending_before N1 x N2 y : ascending (N1 ++ x :: N2) -> y ∈ N1 -> y.1 + 16 <= x.1.
Proof.
  intros Hs (X & Y & ->)%list_elem_of_split. rewrite <- app_assoc in Hs. eapply ascending_after; [exact Hs|].
  apply elem_of_app. right. left.
Qed.

Lemma layout_ascending lo hi F A z : layout lo hi F A -> z + 16 <= lo -> ascending ((z, 0) :: F).
Proof.
  intros [Hs Hf _ _ _] Hz. constructor.
  - clear Hz. induction Hs as [|x F Hs IH Hx]; [constructor|]. apply Forall_cons in Hf as [Hx1 Hf]. constructor; [by apply IH|].
    eapply Forall_impl; [exact Hx|]. unfold block_in, block_end in *. cbn. lia.
  - eapply Forall_impl; [exact Hf|]. unfold block_in. cbn. lia.
Qed.

Section heap.
Context `{UserSys} `{MallocStatics}.
Implicit Types (u : user) (N F : list (Z * Z)) (A : gmap Z Z).

Lemma get_ptr_run u p v s : hdr (u_mem u) p v s -> get_ptr p u = Ok v u.
Proof. intros [Hp _]. by apply uload_run. Qed.

Lemma get_size_run u p v s : hdr (u_mem u) p v s -> get_size p u = Ok s u.
Proof. intros [_ Hs]. by apply uload_run. Qed.

(** ** The search of [free] *)

(** The search stops at the last block before [bp]. *)
Lemma free_stop u bp N1 x N2 z :
  chain (u_mem u) (N1 ++ x :: N2) z -> x.1 < bp -> (forall y, y ∈ N2 -> bp < y.1) -> z <= x.1 ->
  free_step bp x.1 u = Ok (inr x.1) u.
Proof.
  intros Hc Hx HN2 Hz. unfold free_step. erewrite bind_ok by (eapply get_ptr_run, chain_next; exact Hc).
  destruct (Z.ltb_spec x.1 bp); [|lia]. cbn [andb orb]. destruct N2 as [|y N2]; cbn [first].
  - destruct (Z.ltb_spec bp z); [done|]. by destruct (Z.leb_spec z x.1); [|lia].
  - specialize (HN2 y ltac:(left)). by destruct (Z.ltb_spec bp y.1); [|lia].
Qed.

(** It goes on from every other block. *)
Lemma free_go u bp N1 x N2 z :
  chain (u_mem u) (N1 ++ x :: N2) z -> (forall y, y ∈ N2 -> x.1 < y.1) -> z < bp ->
  (forall y, first N2 z = y -> N2 <> [] -> y < bp \/ bp < x.1) -> (N2 = [] -> bp < x.1) ->
  free_step bp x.1 u = Ok (inl (first N2 z)) u.
Proof.
  intros Hc Hs Hz Hgo Hlast. unfold free_step. erewrite bind_ok by (eapply get_ptr_run, chain_next; exact Hc).
  destruct N2 as [|y N2]; cbn [first] in *.
  - specialize (Hlast eq_refl). destruct (Z.ltb_spec x.1 bp); [lia|]. destruct (Z.ltb_spec bp z); [lia|]. cbn. by rewrite andb_false_r.
  - specialize (Hs y ltac:(left)). destruct (Z.leb_spec y.1 x.1); [lia|]. cbn [andb].
    destruct (Hgo y.1 eq_refl) as [Hy|Hy]; [done| |].
    + destruct (Z.ltb_spec bp y.1); [lia|]. by rewrite andb_false_r.
    + by destruct (Z.ltb_spec x.1 bp); [lia|].
Qed.

Section search.
Context (u : user) (bp : Z) (L R : list (Z * Z)) (z : Z).
Context (Hc : chain (u_mem u) (L ++ R) z) (Hz : first (L ++ R) 0 = z) (Hasc : ascending (L ++ R)).
Context (HL : forall x, x ∈ L -> x.1 < bp) (HR : forall x, x ∈ R -> bp < x.1) (Hne : L <> []).

Lemma search_low : z < bp /\ forall x, x ∈ L ++ R -> z <= x.1.
Proof.
  destruct L as [|y L']; [done|]. cbn in Hz. subst z. split; [apply HL; left|].
  intros x [->|Hx]%elem_of_cons; [lia|]. pose proof (ascending_after [] y (L' ++ R) x Hasc Hx). lia.
Qed.

Lemma free_search_low L2 : forall L1 x k,
  L = L1 ++ x :: L2 -> (length L2 < k)%nat ->
  exists l L', L = L' ++ [l] /\ iter k (free_step bp) x.1 u = Ok l.1 u.
Proof.
  destruct search_low as [Hzb Hzx]. induction L2 as [|y L2 IH]; intros L1 x [|k] E Hk; cbn [length] in Hk; try lia.
  - exists x, L1. split; [done|]. apply iter_leave.
    pose proof Hc as Hc'. rewrite E, <- app_assoc in Hc'. eapply free_stop; [exact Hc'| |done|].
    + apply HL. rewrite E. apply elem_of_app. right. left.
    + apply Hzx. rewrite E. apply elem_of_app. left. apply elem_of_app. right. left.
  - destruct (IH (L1 ++ [x]) y k) as (l & L' & El & Ei); [by rewrite <- app_assoc|lia|].
    exists l, L'. split; [done|]. rewrite <- Ei. apply iter_continue.
    pose proof Hc as Hc'. pose proof Hasc as Ha'. rewrite E, <- app_assoc in Hc', Ha'. apply (free_go u bp L1 x (y :: L2 ++ R) z Hc').
    + intros w Hw. pose proof (ascending_after _ _ _ _ Ha' Hw). lia.
    + done.
    + intros w <- _. left. apply HL. rewrite E. apply elem_of_app. right. right. left.
    + done.
Qed.

Lemma free_search_high R2 : forall R1 x k,
  R = R1 ++ x :: R2 -> (length R2 + length L < k)%nat ->
  exists l L', L = L' ++ [l] /\ iter k (free_step bp) x.1 u = Ok l.1 u.
Proof.
  destruct search_low as [Hzb Hzx]. induction R2 as [|y R2 IH]; intros R1 x [|k] E Hk; cbn [length] in Hk; try lia.
  - assert (exists w L', L = w :: L') as (w & L' & EL) by (clear -Hne; destruct L; [done|eauto]).
    destruct (free_search_low L' [] w k) as (l & L'' & El & Ei); [done|rewrite EL in Hk; cbn in Hk; lia|].
    exists l, L''. split; [done|]. rewrite <- Ei. apply iter_continue.
    replace w.1 with z by (rewrite <- Hz, EL; done).
    pose proof Hc as Hc'. rewrite E, app_assoc in Hc'. apply (free_go u bp (L ++ R1) x [] z Hc'); [by intros y ?%not_elem_of_nil|done|done|].
    intros _. apply HR. rewrite E. apply elem_of_app. right. left.
  - destruct (IH (R1 ++ [x]) y k) as (l & L' & El & Ei); [by rewrite <- app_assoc|lia|].
    exists l, L'. split; [done|]. rewrite <- Ei. apply iter_continue.
    pose proof Hc as Hc'. pose proof Hasc as Ha'. rewrite E, app_assoc in Hc', Ha'. apply (free_go u bp (L ++ R1) x (y :: R2) z Hc').
    + intros w Hw. pose proof (ascending_after _ _ _ _ Ha' Hw). lia.
    + done.
    + intros w <- _. right. apply HR. rewrite E. apply elem_of_app. right. left.
    + done.
Qed.

(** [free] finds the last block before [bp] from wherever it starts. *)
Lemma free_search x k :
  x ∈ L ++ R -> (length (L ++ R) < k)%nat ->
  exists l L', L = L' ++ [l] /\ iter k (free_step bp) x.1 u = Ok l.1 u.
Proof.
  rewrite length_app. intros [Hx|Hx]%elem_of_app Hk; apply list_elem_of_split in Hx as (X & Y & E).
  - eapply free_search_low; [exact E|]. rewrite E, length_app in Hk. cbn in Hk. lia.
  - eapply free_search_high; [exact E|]. rewrite E, length_app in Hk. cbn in Hk. lia.
Qed.

End search.

(** ** Writing headers *)

(** Only [n] bytes at [a] were changed. *)
Definition touched (a n : Z) (m m' : gmap Z Z) : Prop :=
  (forall x, ~ a <= x < a + n -> m' !! x = m !! x) /\ forall x, is_Some (m !! x) -> is_Some (m' !! x).

Lemma touched_trans a n m1 m2 m3 : touched a n m1 m2 -> touched a n m2 m3 -> touched a n m1 m3.
Proof. intros [H1 H2] [H3 H4]. split; [|auto]. intros x Hx. rewrite H3, H1; done. Qed.

Lemma touched_writable a n m m' b k : touched a n m m' -> writable m b k -> writable m' b k.
Proof. intros [_ Ht] Hw x Hx. auto. Qed.

Lemma set_ptr_run u p v :
  writable (u_mem u) p 16 -> 0 <= v < 2 ^ 64 ->
  exists m', set_ptr p v u = Ok tt (u <| u_mem := m' |>) /\ touched p 16 (u_mem u) m' /\
    forall s, word_at (u_mem u) 4 (p + 8) s -> hdr m' p v s.
Proof.
  intros Hw Hv. destruct (ustore_run 8 p v u) as (m' & E & Hst); [intros x Hx; apply Hw; lia|done|].
  exists m'. split_and!; [done| |].
  - split; [intros x Hx; apply Hst; lia|]. intros x. by apply (stored_mapped _ _ _ _ _ _ Hst).
  - intros s Hs. split; [apply Hst|]. eapply stored_word; [exact Hst|lia|done].
Qed.

Lemma set_size_run u p s :
  writable (u_mem u) p 16 -> 0 <= s < 2 ^ 32 ->
  exists m', set_size p s u = Ok tt (u <| u_mem := m' |>) /\ touched p 16 (u_mem u) m' /\ word_at m' 4 (p + 8) s /\
    forall v, word_at (u_mem u) 8 p v -> hdr m' p v s.
Proof.
  intros Hw Hs. destruct (ustore_run 4 (p + 8) s u) as (m' & E & Hst); [intros x Hx; apply Hw; lia|done|].
  exists m'. split_and!; [done| |apply Hst|].
  - split; [intros x Hx; apply Hst; lia|]. intros x. by apply (stored_mapped _ _ _ _ _ _ Hst).
  - intros v Hv. split; [|apply Hst]. eapply stored_word; [exact Hst|lia|done].
Qed.

Lemma touched_hdr a m m' p v s : touched a 16 m m' -> a + 16 <= p \/ p + 16 <= a -> hdr m p v s -> hdr m' p v s.
Proof. intros [Ht _] Hd. apply hdr_ext. intros x Hx. apply Ht. lia. Qed.

Lemma touched_chain a m m' N z : touched a 16 m m' -> (forall x, x ∈ N -> a + 16 <= x.1 \/ x.1 + 16 <= a) -> chain m N z -> chain m' N z.
Proof. intros [Ht _] Hd. apply chain_ext. intros x c Hx Hr. apply Ht. specialize (Hd x Hx). lia. Qed.

(** Linking [bp] to the block after it, and merging the two if they touch. *)
Lemma link_next u bp bs F2 :
  writable (u_mem u) bp 16 -> word_at (u_mem u) 4 (bp + 8) bs -> chain (u_mem u) F2 base ->
  0 <= base < bp -> Forall (fun x => bp + 16 * bs <= x.1 /\ x.1 < 2 ^ 64 /\ 0 <= x.2 /\ bs + x.2 < 2 ^ 32) F2 -> 1 <= bs -> bp < 2 ^ 64 ->
  exists m' t rest, (if bp + sizeof_Header * bs =? first F2 base then
      nsize <- get_size (first F2 base) ;; set_size bp (bs + nsize) ;;
      nnext <- get_ptr (first F2 base) ;; set_ptr bp nnext
    else set_ptr bp (first F2 base)) u = Ok tt (u <| u_mem := m' |>) /\
    touched bp 16 (u_mem u) m' /\ hdr m' bp (first rest base) (bs + t) /\
    (t = 0 /\ rest = F2 \/ exists c, F2 = (c, t) :: rest /\ bp + 16 * bs = c).
Proof.
  intros Hw Hbs Hc Hb HF Hpos Hbp. change sizeof_Header with 16.
  assert (forall N, Forall (fun x => bp + 16 * bs <= x.1 /\ x.1 < 2 ^ 64 /\ 0 <= x.2 /\ bs + x.2 < 2 ^ 32) N -> 0 <= first N base < 2 ^ 64) as Hfst.
  { intros [|x N] HN; cbn; [lia|]. apply Forall_cons in HN as [? _]. lia. }
  destruct (Z.eqb_spec (bp + 16 * bs) (first F2 base)) as [E|E].
  - destruct F2 as [|[c t] F2]; cbn in E; [lia|]. apply Forall_cons in HF as [(_ & Hc64 & Ht0 & Ht) HF]. cbn in Hc64, Ht, Ht0.
    destruct Hc as [Hh Hc]. cbn [first fst snd] in *.
    erewrite bind_ok by (eapply get_size_run; exact Hh).
    destruct (set_size_run u bp (bs + t) Hw) as (m1 & E1 & Ht1 & Hs1 & _); [lia|]. erewrite bind_ok by exact E1.
    assert (hdr m1 c (first F2 base) t) as Hh1 by (eapply touched_hdr; [exact Ht1|lia|done]).
    erewrite bind_ok by (eapply get_ptr_run; exact Hh1).
    destruct (set_ptr_run (u <| u_mem := m1 |>) bp (first F2 base)) as (m2 & E2 & Ht2 & Hs2);
      [by eapply touched_writable|by apply Hfst|].
    exists m2, t, F2. split_and!; [exact E2|by eapply touched_trans|by apply Hs2|]. right. by exists c.
  - destruct (set_ptr_run u bp (first F2 base) Hw) as (m1 & E1 & Ht1 & Hs1); [by apply Hfst|].
    exists m1, 0, F2. rewrite Z.add_0_r. split_and!; [exact E1|done|by apply Hs1|by left].
Qed.

(** Linking the block [l] before [bp] to it, and merging the two. *)
Lemma link_prev u bp bs l lz nx :
  writable (u_mem u) l.1 16 -> hdr (u_mem u) l.1 lz l.2 -> hdr (u_mem u) bp nx bs ->
  0 <= l.1 -> l.1 + 16 <= bp -> 0 <= bp < 2 ^ 64 -> 0 <= nx < 2 ^ 64 -> 0 <= l.2 -> l.2 + bs < 2 ^ 32 -> 1 <= bs ->
  exists m', (if l.1 + sizeof_Header * l.2 =? bp then
         bsize <- get_size bp ;; set_size l.1 (l.2 + bsize) ;; bnext <- get_ptr bp ;; set_ptr l.1 bnext
       else set_ptr l.1 bp) u = Ok tt (u <| u_mem := m' |>) /\ touched l.1 16 (u_mem u) m' /\
    (if decide (block_end l = bp) then hdr m' l.1 nx (l.2 + bs) else hdr m' l.1 bp l.2).
Proof.
  intros Hw Hl Hb Hl0 Hlb Hbp Hnx Hs0 Hs Hbs.
  change sizeof_Header with 16. unfold block_end. destruct (Z.eqb_spec (l.1 + 16 * l.2) bp) as [E|E].
  - erewrite bind_ok by (eapply get_size_run; exact Hb).
    destruct (set_size_run u l.1 (l.2 + bs) Hw) as (m1 & E1 & Ht1 & Hs1 & _); [lia|]. erewrite bind_ok by exact E1.
    erewrite bind_ok by (eapply get_ptr_run, touched_hdr; [exact Ht1|lia|exact Hb]).
    destruct (set_ptr_run (u <| u_mem := m1 |>) l.1 nx) as (m2 & E2 & Ht2 & Hs2); [by eapply touched_writable|done|].
    exists m2. split_and!; [exact E2|by eapply touched_trans|]. rewrite decide_True by done. by apply Hs2.
  - destruct (set_ptr_run u l.1 bp Hw) as (m1 & E1 & Ht1 & Hs1); [lia|].
    exists m1. split_and!; [exact E1|done|]. rewrite decide_False by done. apply Hs1, Hl.
Qed.

End heap.
