(* ===== verification/UmallocHeap.v ===== *)
(** * The heap of a user program

    The invariant of the allocator, [free] and [malloc] on it, and programs
    that use them. *)

From Stdlib Require Import Sorting.Sorted.
From S2P Require Import Prelude Ulib UlibSpec Umalloc UmallocSpec.

Lemma chain_replace m m' L l l2 F2 tail z :
  chain m (L ++ l :: F2) z -> (forall x a, x ∈ L -> x.1 <= a < x.1 + 16 -> m' !! a = m !! a) ->
  hdr m' l.1 (first tail z) l2 -> chain m' tail z -> chain m' (L ++ (l.1, l2) :: tail) z.
Proof.
  intros [Hc _]%chain_app Hx Hh Ht. apply chain_app. split; [|by split]. eapply chain_ext; [exact Hx|]. done.
Qed.

Section heap.
Context `{UserSys} `{MallocStatics}.
Context (lo : Z).
Implicit Types (u : user) (F : list (Z * Z)) (A : gmap Z Z).

(** The static variables lie below the heap. *)
Definition statics_ok : Prop :=
  0 < base /\ base + 16 <= lo /\ 0 < freep /\ freep + 8 <= lo /\ (base + 16 <= freep \/ freep + 8 <= base).

Record heap F A u : Prop := {
  hp_statics : statics_ok;
  hp_brk : lo <= u_brk u <= 2 ^ 36;
  hp_map : writable (u_mem u) base 16 /\ writable (u_mem u) freep 8 /\ writable (u_mem u) lo (u_brk u - lo);
  hp_layout : layout lo (u_brk u) F A;
  hp_chain : chain (u_mem u) ((base, 0) :: F) base;
  hp_freep : exists f, f ∈ (base, 0) :: F /\ word_at (u_mem u) 8 freep f.1;
  hp_sizes : forall a s, A !! a = Some s -> word_at (u_mem u) 4 (a + 8) s
}.

(** The blocks in [A] kept their contents. *)
Definition keeps A (m m' : gmap Z Z) : Prop :=
  forall a s x, A !! a = Some s -> a <= x < a + 16 * s -> m' !! x = m !! x.

Definition units (F : list (Z * Z)) : Z := foldr (fun x n => x.2 + n) 0 F.

Lemma units_app F F' : units (F ++ F') = units F + units F'.
Proof. unfold units. induction F as [|x F IH]; cbn in *; lia. Qed.

Lemma units_cons x F : units (x :: F) = x.2 + units F.
Proof. done. Qed.

(** A new free list that was written into memory: only memory of the blocks
    [F0], [base] and [freep] was changed. *)
Lemma heap_update F A u F0 A0 F' A' m' f :
  heap F A u -> layout lo (u_brk u) F0 A0 -> (forall a s, A0 !! a = Some s -> A !! a = Some s) ->
  (forall x, is_Some (u_mem u !! x) -> is_Some (m' !! x)) ->
  (forall x, m' !! x <> u_mem u !! x -> freep <= x < freep + 8 \/ base <= x < base + 16 \/
     exists n, n ∈ F0 /\ n.1 <= x < block_end n) ->
  layout lo (u_brk u) F' A' -> chain m' ((base, 0) :: F') base -> f ∈ (base, 0) :: F' -> word_at m' 8 freep f.1 ->
  (forall a s, A' !! a = Some s -> A0 !! a = Some s \/ word_at m' 4 (a + 8) s) ->
  heap F' A' (u <| u_mem := m' |>) /\ keeps A0 (u_mem u) m'.
Proof.
  intros [Hst Hbrk (Hm1 & Hm2 & Hm3) Hly Hc Hf Hsz] HF0 HA Hmap Hdiff Hly' Hc' Hf' Hw HA'.
  assert (keeps A0 (u_mem u) m') as Hk.
  { intros a s x Ha Hx. destruct (decide (m' !! x = u_mem u !! x)) as [|Hne]; [done|]. exfalso.
    pose proof (ly_alloc _ _ _ _ HF0 _ _ Ha) as Hin. destruct Hst as (Hb0 & Hb & Hf0 & Hfl & _).
    unfold block_in, block_end in Hin. cbn in Hin. apply Hdiff in Hne as [?|[?|(n & Hn & Hr)]]; [lia..|].
    pose proof (ly_apart _ _ _ _ HF0 _ _ _ Hn Ha) as Hd. unfold disj, block_end in *. cbn in *. lia. }
  split; [|done]. split; try done.
  - split_and!; intros x Hx; cbn; apply Hmap; [by apply Hm1|by apply Hm2|by apply Hm3].
  - by exists f.
  - intros a s [Ha|Hws]%HA'; [|done]. eapply word_at_ext; [|apply Hsz, HA, Ha]. intros x Hx. apply (Hk a s x Ha).
    pose proof (ly_alloc _ _ _ _ HF0 _ _ Ha) as Hin. unfold block_in in Hin. cbn in Hin. lia.
Qed.

Lemma heap_node_count F A u : heap F A u -> (length ((base, 0%Z) :: F) < S (size (u_mem u)))%nat.
Proof.
  intros Hp. pose proof Hp as [Hst _ _ Hly Hc _ _].
  pose proof (layout_ascending _ _ _ _ base Hly ltac:(destruct Hst; lia)) as Has.
  assert (list_to_set ((fun x : Z * Z => x.1) <$> (base, 0) :: F) ⊆ dom (u_mem u)) as Hsub.
  { intros a Ha%elem_of_list_to_set. apply list_elem_of_fmap in Ha as (x & -> & Hx).
    apply list_elem_of_split in Hx as (X & Y & E). rewrite E in Hc. apply chain_next in Hc as [[Hb _] _].
    apply elem_of_dom. exists (u8 (first Y base)). specialize (Hb O (u8 (first Y base)) eq_refl). by rewrite Z.add_0_r in Hb. }
  apply subseteq_size in Hsub. rewrite size_dom, size_list_to_set, length_fmap in Hsub; [lia|].
  clear -Has. induction Has as [|x N Has IH Hx]; [apply NoDup_nil_2|]. cbn. apply NoDup_cons. split; [|done].
  intros (y & E & Hy)%list_elem_of_fmap. rewrite Forall_forall in Hx. apply Hx in Hy. lia.
Qed.

(** ** [free] *)

(** What the search of [free] finds: the ring is [L ++ l :: F2], [l] is the
    last block before [b]. *)
Lemma free_place F A u b s :
  heap F A u -> A !! b = Some s ->
  exists L l F1 F2, F = F1 ++ F2 /\ (base, 0) :: F1 = L ++ [l] /\ layout lo (u_brk u) (F1 ++ (b, s) :: F2) (delete b A) /\
    exists f, uload 8 freep u = Ok f u /\ iter (S (size (u_mem u))) (free_step b) f u = Ok l.1 u.
Proof.
  intros Hp Hb. pose proof Hp as [Hst Hbrk _ Hly Hc (f & Hf & Hw) Hsz].
  destruct (layout_free _ _ _ _ _ _ Hly Hb) as (F1 & F2 & -> & Hly').
  pose proof (ly_alloc _ _ _ _ Hly _ _ Hb) as Hin. unfold block_in, block_end in Hin. cbn in Hin.
  pose proof (ly_sorted _ _ _ _ Hly') as (_ & Hs2 & H12)%sorted_app. apply StronglySorted_inv in Hs2 as [_ HF2].
  pose proof (ly_free _ _ _ _ Hly) as Hall. rewrite Forall_forall in Hall, HF2.
  destruct (free_search u b ((base, 0) :: F1) F2 base) with (x := f) (k := S (size (u_mem u))) as (l & L & E & Ei).
  - exact Hc.
  - done.
  - apply (layout_ascending lo (u_brk u) (F1 ++ F2) A); [done|]. destruct Hst. lia.
  - intros x [->|Hx]%elem_of_cons; [destruct Hst; cbn; lia|]. specialize (H12 x (b, s) Hx ltac:(left)).
    specialize (Hall x ltac:(apply elem_of_app; by left)). unfold block_in, block_end in *. cbn in *. lia.
  - intros x Hx. apply HF2 in Hx. unfold block_end in Hx. cbn in Hx. lia.
  - done.
  - done.
  - by apply (heap_node_count _ _ _ Hp).
  - exists L, l, F1, F2. split_and!; [done|done|done|]. exists f.1. split; [by apply uload_run|done].
Qed.

(** Facts about the place of [b] that the links need. *)
Lemma free_place_facts F1 F2 L l b s A u :
  heap (F1 ++ F2) A u -> A !! b = Some s -> (base, 0) :: F1 = L ++ [l] -> layout lo (u_brk u) (F1 ++ (b, s) :: F2) (delete b A) ->
  chain (u_mem u) (L ++ l :: F2) base /\ ascending (L ++ l :: (b, s) :: F2) /\
  (l = (base, 0) /\ L = [] /\ F1 = [] \/ exists L', L = (base, 0) :: L' /\ F1 = L' ++ [l]) /\
  0 <= l.1 /\ 0 <= l.2 /\ l.1 + 16 <= b /\ writable (u_mem u) l.1 16 /\ writable (u_mem u) b 16 /\
  Forall (fun x => b + 16 * s <= x.1 /\ x.1 < 2 ^ 64 /\ 0 <= x.2 /\ s + x.2 < 2 ^ 32) F2.
Proof.
  intros Hp Hb EL Hly'. pose proof Hp as [Hst Hbrk (Hm1 & Hm2 & Hm3) Hly Hc _ _].
  pose proof (layout_ascending _ _ _ _ base Hly' ltac:(destruct Hst; lia)) as Has.
  rewrite app_comm_cons, EL, <- app_assoc in Has. rewrite app_comm_cons, EL, <- app_assoc in Hc. cbn [app] in Has, Hc.
  pose proof (ly_free _ _ _ _ Hly') as Hall. apply Forall_app in Hall as [Hall1 Hall2]. apply Forall_cons in Hall2 as [Hbin Hall2].
  unfold block_in, block_end in Hbin. cbn in Hbin.
  assert (l = (base, 0) /\ L = [] /\ F1 = [] \/ exists L', L = (base, 0) :: L' /\ F1 = L' ++ [l]) as Hl.
  { destruct L as [|y L']; cbn in EL; injection EL as Ey EF; [left; by subst|right]. exists L'. by subst. }
  assert (0 <= l.1 /\ 0 <= l.2 /\ writable (u_mem u) l.1 16) as (Hl0 & Hl2 & Hlw).
  { destruct Hl as [(-> & _)|(L' & _ & ->)]; [destruct Hst; cbn; split_and!; [lia|lia|done]|].
    apply Forall_app in Hall1 as [_ Hl1]. apply Forall_cons in Hl1 as [Hl1 _]. unfold block_in, block_end in Hl1. destruct Hst.
    split_and!; [lia|lia|]. intros x Hx. apply Hm3. lia. }
  assert (l.1 + 16 <= b) as Hlb by (apply (ascending_after L l ((b, s) :: F2) (b, s) Has); left).
  split_and!; try done.
  - intros x Hx. apply Hm3. lia.
  - pose proof (ly_sorted _ _ _ _ Hly') as (_ & Hs2 & _)%sorted_app. apply StronglySorted_inv in Hs2 as [_ HF2].
    apply Forall_forall. intros x Hx. rewrite Forall_forall in HF2, Hall2. apply HF2 in Hx as H1. apply Hall2 in Hx as H2.
    destruct Hst. unfold block_in, block_end in *. cbn in *. lia.
Qed.

(** The ring in memory after the links were made, [m3] the final memory. *)
Lemma freed_chain L l b s0 s rest F2 m m1 m2 m3 :
  chain m (L ++ l :: F2) base -> ascending (L ++ l :: (b, s0) :: F2) -> (forall x, x ∈ rest -> x ∈ F2) ->
  touched b 16 m m1 -> touched l.1 16 m1 m2 ->
  (forall x a, x ∈ L ++ l :: (b, s0) :: F2 -> x.1 <= a < x.1 + 16 -> m3 !! a = m2 !! a) ->
  chain m1 rest base -> hdr m1 b (first rest base) s ->
  (if decide (block_end l = b) then hdr m2 l.1 (first rest base) (l.2 + s) else hdr m2 l.1 b l.2) ->
  chain m3 (L ++ (if decide (block_end l = b) then (l.1, l.2 + s) :: rest else l :: (b, s) :: rest)) base.
Proof.
  intros Hc Has Hsub Ht1 Ht2 H3 Hc1 Hh1 Hh2.
  assert (forall x a, x ∈ L -> x.1 <= a < x.1 + 16 -> m3 !! a = m !! a) as HL.
  { intros x a Hx Ha. rewrite (H3 x a) by (try apply elem_of_app; auto).
    pose proof (ascending_before _ _ _ _ Has Hx). pose proof (ascending_after L l ((b, s0) :: F2) (b, s0) Has ltac:(left)) as Hlb. cbn in Hlb.
    destruct Ht2 as [-> _]; [|lia]. destruct Ht1 as [-> _]; [done|lia]. }
  pose proof (ascending_after L l ((b, s0) :: F2) (b, s0) Has ltac:(left)) as Hlb. cbn in Hlb.
  assert (chain m3 rest base) as Hc3.
  { eapply chain_ext; [|eapply touched_chain; [exact Ht2| |exact Hc1]].
    - intros x a Hx. apply H3. apply elem_of_app. right. do 2 right. auto.
    - intros x Hx. left. apply Hsub in Hx. apply (ascending_after L l ((b, s0) :: F2) x Has). by right. }
  case_decide as Ee.
  - eapply chain_replace; [exact Hc|exact HL| |done]. eapply hdr_ext; [|exact Hh2]. intros a. apply (H3 l). apply elem_of_app. right. left.
  - replace l with (l.1, l.2) at 1 by (by destruct l). eapply chain_replace; [exact Hc|exact HL| |].
    + eapply hdr_ext; [|exact Hh2]. intros a. apply (H3 l). apply elem_of_app. right. left.
    + split; [|done]. eapply hdr_ext; [|eapply touched_hdr; [exact Ht2| |exact Hh1]]; [|cbn; lia].
      intros a. apply (H3 (b, s0)). apply elem_of_app. right. right. left.
Qed.

(** The free list after the links were made. *)
Lemma freed_list L l F1 b s rest A hi :
  (l = (base, 0) /\ L = [] /\ F1 = [] \/ exists L', L = (base, 0) :: L' /\ F1 = L' ++ [l]) -> base < b ->
  layout lo hi (F1 ++ (b, s) :: rest) A ->
  exists F', (base, 0) :: F' = L ++ (if decide (block_end l = b) then (l.1, l.2 + s) :: rest else l :: (b, s) :: rest) /\
    layout lo hi F' A /\ units F' = units F1 + s + units rest /\ Exists (fun x => s <= x.2) F' /\
    (length F' <= S (length F1 + length rest))%nat.
Proof.
  intros Hl Hbb Hly. pose proof (ly_free _ _ _ _ Hly) as Hf. destruct Hl as [(-> & -> & ->)|(L' & -> & ->)].
  - rewrite decide_False by (unfold block_end; cbn; lia). exists ((b, s) :: rest). split_and!; [done|done|by rewrite units_cons|by left|done].
  - case_decide as Ee.
    + exists (L' ++ (l.1, l.2 + s) :: rest). rewrite <- app_assoc in Hly.
      split_and!; [done|by destruct l; apply (layout_merge _ _ _ _ _ b)| | |].
      * rewrite !units_app, !units_cons. cbn [fst snd units foldr]. lia.
      * apply Exists_app. right. left. apply Forall_app in Hf as [Hf _]. apply Forall_app in Hf as [_ Hl].
        apply Forall_cons in Hl as [Hl _].
        unfold block_in in Hl. cbn. lia.
      * rewrite !length_app. cbn. lia.
    + exists ((L' ++ [l]) ++ (b, s) :: rest). split_and!; [by rewrite <- app_assoc|done| | |].
      * rewrite !units_app, !units_cons. cbn [fst snd]. lia.
      * apply Exists_app. right. by left.
      * rewrite !length_app. cbn. lia.
Qed.

Lemma free_run F A u b s :
  heap F A u -> A !! b = Some s ->
  exists F' m', free (b + 16) u = Ok tt (u <| u_mem := m' |>) /\ heap F' (delete b A) (u <| u_mem := m' |>) /\
    keeps (delete b A) (u_mem u) m' /\ units F' = units F + s /\ Exists (fun x => s <= x.2) F' /\
    (length F' <= S (length F))%nat.
Proof.
  intros Hp Hb. destruct (free_place F A u b s Hp Hb) as (L & l & F1 & F2 & -> & EL & Hly' & f & Ef & Efind).
  destruct (free_place_facts F1 F2 L l b s A u Hp Hb EL Hly') as (Hc & Has & Hl & Hl0 & Hl2 & Hlb & Hlw & Hbw & HF2).
  pose proof Hp as [Hst Hbrk (Hm1 & Hm2 & Hm3) Hly _ _ Hsz].
  pose proof (ly_alloc _ _ _ _ Hly _ _ Hb) as Hin. unfold block_in, block_end in Hin. cbn in Hin.
  pose proof (chain_next _ _ _ _ _ Hc) as Hhl. pose proof Hc as [_ [_ Hc2]]%chain_app.
  destruct (link_next u b s F2 Hbw (Hsz _ _ Hb) Hc2) as (m1 & t & rest & E1 & Ht1 & Hh1 & Hrest); [destruct Hst; lia|done|lia|lia|].
  assert (layout lo (u_brk u) (F1 ++ (b, s + t) :: rest) (delete b A)) as Hly1.
  { destruct Hrest as [[-> ->]|(c & -> & Ec)]; [by rewrite Z.add_0_r|]. by apply layout_merge with (b := c). }
  assert (forall x, x ∈ rest -> x ∈ F2) as Hsub by (destruct Hrest as [[_ ->]|(c & -> & _)]; [done|by right]).
  assert (0 <= t) as Ht0.
  { destruct Hrest as [[-> _]|(c & -> & _)]; [done|]. apply Forall_cons in HF2 as [? _]. cbn in *. lia. }
  assert (chain m1 rest base) as Hc1.
  { assert (chain m1 F2 base) as Hc1.
    { eapply touched_chain; [exact Ht1| |exact Hc2]. intros x Hx. left. rewrite Forall_forall in HF2. apply HF2 in Hx. lia. }
    destruct Hrest as [[_ ->]|(c & -> & _)]; [done|apply Hc1]. }
  assert (block_in lo (u_brk u) (b, s + t)) as Hbt.
  { pose proof (ly_free _ _ _ _ Hly1) as Ha. apply Forall_app in Ha as [_ Ha]. by apply Forall_cons in Ha as [? _]. }
  unfold block_in, block_end in Hbt. cbn in Hbt.
  assert (0 <= first rest base < 2 ^ 64) as Hfr.
  { destruct rest as [|x rest]; cbn; [destruct Hst; lia|]. rewrite Forall_forall in HF2. destruct (HF2 x (Hsub x ltac:(left))). lia. }
  assert (l.2 + (s + t) < 2 ^ 32) as Hlsz.
  { destruct Hl as [(-> & _)|(L' & _ & ->)]; [cbn; lia|].
    pose proof (ly_sorted _ _ _ _ Hly') as (_ & _ & H12)%sorted_app. pose proof (ly_free _ _ _ _ Hly') as Ha.
    apply Forall_app in Ha as [Ha _]. apply Forall_app in Ha as [_ Ha]. apply Forall_cons in Ha as [Ha _].
    specialize (H12 l (b, s) ltac:(apply elem_of_app; right; left) ltac:(left)). unfold block_in, block_end in *. cbn in *. destruct Hst. lia. }
  destruct (link_prev (u <| u_mem := m1 |>) b (s + t) l (first F2 base) (first rest base)) as (m2 & E2 & Ht2 & Hh2);
    [by eapply touched_writable|eapply touched_hdr; [exact Ht1|lia|done]|done|lia|lia|lia|done|lia|lia|lia|].
  destruct (ustore_run 8 freep l.1 (u <| u_mem := m1 |> <| u_mem := m2 |>)) as (m3 & E3 & Hst3).
  { cbn. intros x Hx. apply Ht2, Ht1, Hm2. lia. }
  { lia. }
  assert (free (b + 16) u = Ok tt (u <| u_mem := m3 |>)) as Erun.
  { unfold free. change sizeof_Header with 16. rewrite Z.add_simpl_r. erewrite bind_ok by exact Ef. unfold ufuel. rewrite bind_gets.
    erewrite bind_ok by exact Efind. erewrite bind_ok by (eapply get_ptr_run; exact Hhl).
    erewrite bind_ok by (apply uload_run, Hsz, Hb). erewrite bind_ok by exact E1.
    erewrite bind_ok by (eapply get_size_run, touched_hdr; [exact Ht1|lia|exact Hhl]). erewrite bind_ok by exact E2. exact E3. }
  set (N' := L ++ (if decide (block_end l = b) then (l.1, l.2 + (s + t)) :: rest else l :: (b, s + t) :: rest)).
  destruct (freed_list L l F1 b (s + t) rest (delete b A) (u_brk u) Hl) as (F' & EN & HlyF & Hun & Hbig & Hlen); [destruct Hst; lia|done|].
  fold N' in EN.
  assert (chain m3 N' base) as HcN.
  { apply (freed_chain L l b s (s + t) rest F2 (u_mem u) m1 m2 m3); try done.
    intros x a Hx Ha. destruct Hst3 as [_ Ho]. apply Ho. pose proof Hst as (Hs1 & Hs2 & Hs3 & Hs4 & Hs5).
    assert (x.1 = base \/ lo <= x.1); [|lia]. assert (forall y, y ∈ L ++ [l] -> y.1 = base \/ lo <= y.1) as HLl.
    { rewrite <- EL. intros y [->|Hy]%elem_of_cons; [by left|right]. pose proof (ly_free _ _ _ _ Hly') as Hall.
      rewrite Forall_app, Forall_forall in Hall. apply Hall in Hy as (_ & ? & _). done. }
    replace (L ++ l :: (b, s) :: F2) with ((L ++ [l]) ++ (b, s) :: F2) in Hx by by rewrite <- app_assoc.
    apply elem_of_app in Hx as [Hx|[->|Hx]%elem_of_cons]; [auto|right; cbn; lia|right].
    rewrite Forall_forall in HF2. apply HF2 in Hx. lia. }
  assert (exists f', f' ∈ (base, 0) :: F' /\ f'.1 = l.1) as (f' & Hf' & Ef').
  { rewrite EN. unfold N'. case_decide; eexists; (split; [apply elem_of_app; right; left|done]). }
  destruct (heap_update (F1 ++ F2) A u (F1 ++ (b, s) :: F2) (delete b A) F' (delete b A) m3 f') as [Hheap Hkeep]; try done.
  - by intros a v [_ ?]%lookup_delete_Some.
  - intros x Hx. apply (stored_mapped _ _ _ _ _ _ Hst3). cbn. by apply Ht2, Ht1.
  - intros x Hx. destruct (decide (freep <= x < freep + 8)); [by left|right].
    assert (b <= x < b + 16 \/ l.1 <= x < l.1 + 16) as [Hxb|Hxl].
    { destruct (decide (b <= x < b + 16)); [by left|]. destruct (decide (l.1 <= x < l.1 + 16)); [by right|]. exfalso. apply Hx.
      destruct Hst3 as [_ Ho]. rewrite Ho by done. cbn. destruct Ht2 as [Ht2 _], Ht1 as [Ht1 _]. cbn in Ht2. by rewrite Ht2, Ht1. }
    + right. exists (b, s). split; [apply elem_of_app; right; left|]. unfold block_end. cbn. lia.
    + destruct Hl as [(-> & _)|(L' & _ & ->)]; [by left|right]. exists l.
      split; [apply elem_of_app; left; apply elem_of_app; right; left|]. pose proof (ly_free _ _ _ _ Hly) as Ha.
      apply Forall_app in Ha as [Ha _]. apply Forall_app in Ha as [_ Ha]. apply Forall_cons in Ha as [Ha _]. unfold block_in, block_end in *. lia.
  - by rewrite EN.
  - rewrite Ef'. apply Hst3.
  - by left.
  - exists F', m3. split_and!; [done|done|done| |eapply Exists_impl; [exact Hbig|]; cbn; lia|].
    + rewrite Hun, units_app. destruct Hrest as [[-> ->]|(c & -> & _)]; rewrite ?units_cons; cbn [fst snd]; lia.
    + rewrite length_app. destruct Hrest as [[_ ->]|(c & -> & _)]; cbn [length]; lia.
Qed.

End heap.
