(* ===== verification/UmallocAlloc.v ===== *)
(** * [malloc], and programs that allocate

    [malloc] finds a block in at most two laps around the free list, the
    second after [morecore]; a program that uses its blocks only keeps the
    heap in order for ever. *)

From Stdlib Require Import Sorting.Sorted.
From S2P Require Import Prelude Ulib UlibSpec Umalloc UmallocSpec UmallocHeap.

(** ** Going round the ring *)

(** The block [i] places after the first. *)
Definition node (N : list (Z * Z)) (i : nat) : Z * Z := default (0, 0) (N !! (i mod length N)%nat).

Lemma node_lookup N i : N <> [] -> N !! (i mod length N)%nat = Some (node N i).
Proof.
  intros Hne. unfold node. destruct (lookup_lt_is_Some_2 N (i mod length N)%nat) as [x E]; [|by rewrite E].
  apply Nat.mod_upper_bound. by destruct N.
Qed.

Lemma node_elem N i : N <> [] -> node N i ∈ N.
Proof. intros Hne. eapply list_elem_of_lookup_2, node_lookup, Hne. Qed.

Lemma node_of N x : x ∈ N -> exists i, (i < length N)%nat /\ node N i = x.
Proof.
  intros [i Hi]%list_elem_of_lookup. pose proof (lookup_lt_Some _ _ _ Hi) as Hlt. exists i. split; [done|].
  unfold node. rewrite Nat.mod_small by done. by rewrite Hi.
Qed.

Lemma chain_node m N i : N <> [] -> chain m N (first N 0) -> hdr m (node N i).1 (node N (S i)).1 (node N i).2.
Proof.
  intros Hne Hc. pose proof (node_lookup N i Hne) as Hi. pose proof (node_lookup N (S i) Hne) as Hs.
  assert (length N <> 0)%nat as Hl by by destruct N. set (j := (i mod length N)%nat) in *.
  assert (j < length N)%nat as Hj by by apply Nat.mod_upper_bound.
  assert (chain m (take j N ++ node N i :: drop (S j) N) (first N 0)) as Hc' by by rewrite take_drop_middle.
  apply chain_next in Hc'. assert (S i mod length N = S j mod length N)%nat as Em.
  { unfold j. rewrite <- Nat.add_1_r, <- (Nat.add_1_r (i mod length N)). symmetry. apply Nat.Div0.add_mod_idemp_l. }
  assert (first (drop (S j) N) (first N 0) = (node N (S i)).1) as E; [|by rewrite E in Hc'].
  rewrite Em in Hs. destruct (decide (S j = length N)) as [El|].
  - rewrite El, Nat.Div0.mod_same in Hs. rewrite El, drop_all. cbn. destruct N as [|y N]; [done|]. cbn in Hs. injection Hs as Hs. cbn [first]. by rewrite <- Hs.
  - rewrite Nat.mod_small in Hs by lia. by rewrite (drop_S _ _ _ Hs).
Qed.

(** Consecutive blocks, the second not the first of the list. *)
Lemma node_split N i :
  N <> [] -> node N (S i) <> node N 0 ->
  exists X Y, N = X ++ node N i :: node N (S i) :: Y.
Proof.
  intros Hne Hn0. pose proof (node_lookup N i Hne) as Hi. pose proof (node_lookup N (S i) Hne) as Hs.
  assert (length N <> 0)%nat as Hl by by destruct N. set (j := (i mod length N)%nat) in *.
  assert (j < length N)%nat as Hj by by apply Nat.mod_upper_bound.
  assert (S i mod length N = S j mod length N)%nat as Em.
  { unfold j. rewrite <- Nat.add_1_r, <- (Nat.add_1_r (i mod length N)). symmetry. apply Nat.Div0.add_mod_idemp_l. }
  rewrite Em in Hs. destruct (decide (S j = length N)) as [El|].
  - exfalso. apply Hn0. rewrite El, Nat.Div0.mod_same in Hs. pose proof (node_lookup N 0 Hne) as H0.
    rewrite Nat.Div0.mod_0_l in H0. congruence.
  - rewrite Nat.mod_small in Hs by lia. exists (take j N), (drop (S (S j)) N).
    rewrite <- (drop_S _ _ _ Hs), take_drop_middle; done.
Qed.

(** Distinct places have distinct addresses. *)
Lemma node_inj N i j :
  N <> [] -> ascending N -> (node N i).1 = (node N j).1 -> (i mod length N = j mod length N)%nat.
Proof.
  intros Hne Has E. pose proof (node_lookup N i Hne) as Hi. pose proof (node_lookup N j Hne) as Hj.
  assert (forall a b x y, N !! a = Some x -> N !! b = Some y -> (a < b)%nat -> x.1 < y.1) as Hlt.
  { intros a b x y Ha Hb Hab. pose proof Has as Hs. rewrite <- (take_drop_middle N a x Ha) in Hs.
    assert (y ∈ drop (S a) N) as Hy; [|pose proof (ascending_after _ _ _ _ Hs Hy); lia].
    apply list_elem_of_lookup. exists (b - S a)%nat. rewrite lookup_drop. by replace (S a + (b - S a))%nat with b by lia. }
  destruct (lt_eq_lt_dec (i mod length N) (j mod length N)) as [[Hl|]|Hl]; [|done|].
  - specialize (Hlt _ _ _ _ Hi Hj Hl). lia.
  - specialize (Hlt _ _ _ _ Hj Hi Hl). lia.
Qed.

Section alloc.
Context `{UserSys} `{MallocStatics}.
Context (lo : Z).
Implicit Types (u : user) (F : list (Z * Z)) (A : gmap Z Z).

(** ** Taking a block *)

(** Facts about a free block [x] and the block [y] before it. *)
Lemma take_facts F A u X y x Y :
  heap lo F A u -> (base, 0) :: F = X ++ y :: x :: Y ->
  exists X', (base, 0) :: X' = X ++ [y] /\ F = X' ++ x :: Y /\ ascending (X ++ y :: x :: Y) /\ block_in lo (u_brk u) x /\
    writable (u_mem u) y.1 16 /\ (forall a, x.1 <= a < block_end x -> is_Some (u_mem u !! a)) /\
    (y = (base, 0) \/ y ∈ F /\ block_in lo (u_brk u) y) /\ 0 <= y.1 < 2 ^ 36.
Proof.
  intros [Hst Hbrk (Hm1 & Hm2 & Hm3) Hly Hc _ _] E.
  pose proof (layout_ascending _ _ _ _ base Hly ltac:(destruct Hst; lia)) as Has. rewrite E in Has.
  pose proof (ly_free _ _ _ _ Hly) as Hall.
  assert (exists X', (base, 0) :: X' = X ++ [y] /\ F = X' ++ x :: Y) as (X' & EX & EF).
  { destruct X as [|w X']; cbn in E; injection E as Ew EF; [by exists []; subst|]. exists (X' ++ [y]). subst. by rewrite <- app_assoc. }
  pose proof Hall as Hall'. rewrite EF in Hall'. apply Forall_app in Hall' as [HX HY]. apply Forall_cons in HY as [Hx _].
  assert (y = (base, 0) \/ y ∈ X' /\ block_in lo (u_brk u) y) as Hy.
  { assert (y ∈ (base, 0) :: X') as Hy by (rewrite EX; apply elem_of_app; right; left).
    apply elem_of_cons in Hy as [->|Hy]; [by left|right]. split; [done|]. rewrite Forall_forall in HX. auto. }
  unfold block_in, block_end in *. destruct Hst as (Hs1 & Hs2 & _).
  exists X'. split_and!; try done; try lia.
  - intros a Ha. destruct Hy as [->|[_ Hy]]; [by apply Hm1|]. apply Hm3. lia.
  - intros a Ha. apply Hm3. lia.
  - destruct Hy as [->|[Hy ?]]; [by left|right]. split; [|done]. rewrite EF. apply elem_of_app. by left.
  - destruct Hy as [->|[_ Hy]]; cbn; lia.
  - destruct Hy as [->|[_ Hy]]; cbn; lia.
Qed.

(** The first part of [malloc_take]: a block [q] of [n] units leaves the ring. *)
Lemma unlink_run F A u X y x Y n X' :
  heap lo F A u -> (base, 0) :: F = X ++ y :: x :: Y -> 1 <= n <= x.2 -> (base, 0) :: X' = X ++ [y] ->
  let q := x.1 + 16 * (x.2 - n) in
  exists m', (if x.2 =? n then next <- get_ptr x.1 ;; set_ptr y.1 next ;; ret x.1
              else set_size x.1 (x.2 - n) ;; let q := x.1 + sizeof_Header * (x.2 - n) in set_size q n ;; ret q) u =
      Ok q (u <| u_mem := m' |>) /\
    (forall a, is_Some (u_mem u !! a) -> is_Some (m' !! a)) /\
    (forall a, m' !! a <> u_mem u !! a -> y.1 <= a < y.1 + 16 \/ x.1 <= a < block_end x) /\
    chain m' ((base, 0) :: X' ++ (if decide (n = x.2) then Y else (x.1, x.2 - n) :: Y)) base /\ word_at m' 4 (q + 8) n.
Proof.
  intros Hp E Hn EX q. destruct (take_facts F A u X y x Y Hp E) as (X2 & EX2 & EF & Has & Hx & Hyw & Hxw & Hy & Hyr).
  pose proof Hp as [Hst Hbrk _ Hly Hc _ _]. rewrite E in Hc. unfold block_in, block_end in *.
  assert (y.1 + 16 <= x.1) as Hyx by (apply (ascending_after _ _ _ _ Has); left).
  assert (hdr (u_mem u) x.1 (first Y base) x.2) as Hhx.
  { replace (X ++ y :: x :: Y) with ((X ++ [y]) ++ x :: Y) in Hc by by rewrite <- app_assoc. by apply chain_next in Hc. }
  assert (0 <= first Y base < 2 ^ 64) as Hfy.
  { destruct Y as [|w Y]; cbn; [destruct Hst; lia|]. pose proof (ly_free _ _ _ _ Hly) as Hall. rewrite EF in Hall.
    apply Forall_app in Hall as [_ Hall]. apply Forall_cons in Hall as [_ Hall]. apply Forall_cons in Hall as [Hw _].
    unfold block_in, block_end in Hw. destruct Hst. lia. }
  change sizeof_Header with 16. fold q. rewrite app_comm_cons, EX. destruct (Z.eqb_spec x.2 n) as [En|En].
  - subst n. rewrite decide_True by done. erewrite bind_ok by (eapply get_ptr_run; exact Hhx).
    destruct (set_ptr_run u y.1 (first Y base) Hyw Hfy) as (m1 & E1 & Ht1 & Hs1). erewrite bind_ok by exact E1.
    replace q with x.1 by (unfold q; lia). exists m1. split_and!; [done|apply Ht1| | |].
    + intros a Ha. left. destruct (decide (y.1 <= a < y.1 + 16)); [done|]. exfalso. apply Ha. by apply Ht1.
    + rewrite <- app_assoc. replace y with (y.1, y.2) by by destruct y.
      eapply chain_replace; [exact Hc| |apply Hs1|].
      * intros w a Hw Ha. apply Ht1. pose proof (ascending_before _ _ _ _ Has Hw). lia.
      * replace (X ++ y :: x :: Y) with (X ++ [y] ++ x :: Y) in Hc by done. apply chain_app in Hc as [_ Hc]. apply chain_app in Hc as [[Hh _] _].
        cbn in Hh. apply Hh.
      * assert (chain (u_mem u) Y base) as HY by (apply chain_app in Hc as [_ (_ & _ & ?)]; done).
        eapply touched_chain; [exact Ht1| |exact HY]. intros w Hw. left.
        pose proof (ascending_after X y (x :: Y) w Has ltac:(by right)). lia.
    + eapply touched_hdr; [exact Ht1|lia|exact Hhx].
  - rewrite decide_False by done.
    destruct (set_size_run u x.1 (x.2 - n)) as (m1 & E1 & Ht1 & _ & Hs1); [intros a Ha; apply Hxw; lia|lia|]. erewrite bind_ok by exact E1.
    destruct (set_size_run (u <| u_mem := m1 |>) q n) as (m2 & E2 & Ht2 & Hs2 & _);
      [intros a Ha; cbn; apply Ht1, Hxw; unfold q in Ha; lia|unfold q; lia|]. cbn in Ht2. cbv zeta. erewrite bind_ok by exact E2.
    assert (x.1 + 16 <= q) as Hq by (unfold q; lia).
    exists m2. split_and!; [done|intros a Ha; by apply Ht2, Ht1| | |done].
    + intros a Ha. right. destruct (decide (q <= a < q + 16)); [unfold q in *; lia|]. destruct (decide (x.1 <= a < x.1 + 16)); [lia|].
      exfalso. apply Ha. destruct Ht2 as [-> _]; [|done]. by apply Ht1.
    + replace (X ++ y :: x :: Y) with ((X ++ [y]) ++ x :: Y) in Hc, Has by by rewrite <- app_assoc.
      eapply chain_replace; [exact Hc| | |].
      * intros w a Hw Ha. pose proof (ascending_before _ _ _ _ Has Hw). destruct Ht2 as [-> _]; [|lia]. apply Ht1. lia.
      * eapply touched_hdr; [exact Ht2|lia|]. apply Hs1, Hhx.
      * assert (chain (u_mem u) Y base) as HY by (apply chain_app in Hc as [_ (_ & ?)]; done).
        pose proof (ly_sorted _ _ _ _ Hly) as Hso. rewrite EF in Hso. apply sorted_app in Hso as (_ & Hso & _).
        apply StronglySorted_inv in Hso as [_ Hso]. rewrite Forall_forall in Hso. unfold block_end in Hso.
        eapply touched_chain; [exact Ht2| |eapply touched_chain; [exact Ht1| |exact HY]]; intros w Hw; left; apply Hso in Hw; unfold q in *; lia.
Qed.

(** What a successful [malloc] of [n] units did: the block [q] is new. *)
Definition allocated (n : Z) F A u (r : Z) (u' : user) : Prop :=
  exists q F', r = q + 16 /\ A !! q = None /\ heap lo F' (<[q := n]> A) u' /\ keeps A (u_mem u) (u_mem u') /\
    units F' + n = units F.

Lemma take_run F A u X y x Y n :
  heap lo F A u -> (base, 0) :: F = X ++ y :: x :: Y -> 1 <= n <= x.2 ->
  exists r m', malloc_take n y.1 x.1 x.2 u = Ok r (u <| u_mem := m' |>) /\ allocated n F A u r (u <| u_mem := m' |>).
Proof.
  intros Hp E Hn. destruct (take_facts F A u X y x Y Hp E) as (X' & EX & EF & Has & Hx & Hyw & Hxw & Hy & Hyr).
  destruct (unlink_run F A u X y x Y n X' Hp E Hn EX) as (m1 & E1 & Hmap1 & Hd1 & Hc1 & Hq1).
  set (q := x.1 + 16 * (x.2 - n)) in *. pose proof Hp as [Hst Hbrk (Hm1 & Hm2 & Hm3) Hly _ _ _].
  destruct (ustore_run 8 freep y.1 (u <| u_mem := m1 |>)) as (m2 & E2 & Hst2); [intros a Ha; cbn; by apply Hmap1, Hm2|lia|].
  exists (q + 16), m2. unfold malloc_take. split; [erewrite bind_ok by exact E1; by erewrite bind_ok by exact E2|].
  pose proof Hst as (Hs1 & Hs2 & Hs3 & Hs4 & Hs5). unfold block_in, block_end in Hx.
  set (F' := X' ++ (if decide (n = x.2) then Y else (x.1, x.2 - n) :: Y)) in *.
  assert (layout lo (u_brk u) F' (<[q := n]> A)) as Hly'.
  { pose proof Hly as Hl. rewrite EF in Hl. replace x with (x.1, x.2) in Hl by by destruct x. by apply layout_take with (n := n) in Hl. }
  assert (A !! q = None) as Hqn.
  { destruct (A !! q) as [t|] eqn:Eq; [|done]. exfalso. pose proof (ly_alloc _ _ _ _ Hly _ _ Eq) as Hin.
    pose proof (ly_apart _ _ _ _ Hly x q t ltac:(rewrite EF; apply elem_of_app; right; left) Eq) as Hd.
    unfold disj, block_in, block_end, q in *. cbn in *. lia. }
  destruct (heap_update lo F A u F A F' (<[q := n]> A) m2 y) as [Hheap Hkeep]; try done.
  - intros a Ha. apply (stored_mapped _ _ _ _ _ _ Hst2). cbn. auto.
  - intros a Ha. destruct (decide (freep <= a < freep + 8)); [by left|right]. destruct Hst2 as [_ Ho]. rewrite Ho in Ha by done. cbn in Ha.
    apply Hd1 in Ha as [Ha|Ha].
    + destruct Hy as [->|[Hy Hyb]]; [by left|right]. exists y. split; [done|]. unfold block_in, block_end in *. lia.
    + right. exists x. split; [rewrite EF; apply elem_of_app; right; left|done].
  - eapply chain_ext; [|exact Hc1]. intros w a Hw Ha. apply Hst2.
    assert (w.1 = base \/ lo <= w.1); [|lia]. apply elem_of_cons in Hw as [->|Hw]; [by left|right].
    pose proof (ly_free _ _ _ _ Hly') as Hall. rewrite Forall_forall in Hall. by apply Hall in Hw as (_ & ? & _).
  - assert (y ∈ (base, 0) :: X') as Hin by (rewrite EX; apply elem_of_app; right; left).
    apply elem_of_cons in Hin as [->|Hin]; [left|right]. apply elem_of_app. by left.
  - apply Hst2.
  - intros a t [[<- <-]|[_ Ha]]%lookup_insert_Some; [right|by left]. eapply stored_word; [exact Hst2|unfold q; lia|exact Hq1].
  - exists q, F'. split_and!; try done. unfold F'. rewrite EF, !units_app. case_decide; rewrite !units_cons; cbn [fst snd]; lia.
Qed.

(** ** [morecore] *)

(** Growing the address space keeps the heap. *)
Lemma heap_grow F A u n w :
  heap lo F A u -> 0 <= n -> u_brk u + n <= 2 ^ 36 ->
  let m' := u_mem u ∪ list_to_map ((fun a => (a, 0)) <$> seqZ (u_brk u) n) in
  heap lo F A (u <| u_world := w |> <| u_mem := m' |> <| u_brk := u_brk u + n |>) /\
  (forall a, is_Some (u_mem u !! a) -> m' !! a = u_mem u !! a).
Proof.
  intros [Hst Hbrk (Hm1 & Hm2 & Hm3) Hly Hc (f & Hf & Hw) Hsz] Hn Hlim m'.
  assert (forall a, is_Some (u_mem u !! a) -> m' !! a = u_mem u !! a) as Hold.
  { intros a [b Hb]. unfold m'. rewrite Hb. by apply lookup_union_Some_l. }
  assert (forall k a v, word_at (u_mem u) k a v -> word_at m' k a v) as Hword.
  { intros k a v [Hb Hv]. split; [|done]. intros j b Hj. rewrite Hold; [by apply Hb|]. exists b. by apply Hb. }
  split; [|done]. split; try done.
  - cbn. lia.
  - cbn. split_and!; intros a Ha; [rewrite Hold; auto..|].
    destruct (decide (a < u_brk u)); [rewrite Hold; apply Hm3; lia|].
    apply lookup_union_is_Some. right. exists 0. apply elem_of_list_to_map_1.
    + rewrite <- list_fmap_compose. replace (fst ∘ (fun a => (a, 0))) with (fun a : Z => a) by done. rewrite list_fmap_id. apply NoDup_seqZ.
    + apply list_elem_of_fmap. exists a. split; [done|]. apply elem_of_seqZ. lia.
  - cbn. destruct Hly as [Hs Hfr Ha Hap Hd]. split; try done.
    + eapply Forall_impl; [exact Hfr|]. unfold block_in. lia.
    + intros a s Has. specialize (Ha a s Has). unfold block_in in *. lia.
  - cbn [u_mem upd]. cbn. clear -Hc Hword. change (chain m' ((base, 0) :: F) base). revert Hc.
    generalize ((base, 0) :: F). induction l as [|x N IH]; cbn; [done|]. intros [[H1 H2] Hc]. split; [split; by apply Hword|auto].
  - exists f. split; [done|]. by apply Hword.
  - intros a s Ha. by apply Hword, Hsz.
Qed.

(** The new memory as an allocated block. *)
Lemma heap_new_block F A u v hi m' n :
  heap lo F A u -> layout lo hi F A -> lo <= hi -> u_brk u = hi + 16 * n -> 1 <= n -> touched hi 16 (u_mem u) m' ->
  word_at m' 4 (hi + 8) n -> v = u <| u_mem := m' |> -> heap lo F (<[hi := n]> A) v.
Proof.
  intros [Hst Hbrk (Hm1 & Hm2 & Hm3) Hly Hc (f & Hf & Hw) Hsz] Hly0 Hlo Eb Hn Ht Hq ->.
  pose proof Hst as (Hs1 & Hs2 & Hs3 & Hs4 & Hs5). split; try done.
  - split_and!; intros a Ha; apply Ht; auto.
  - cbn. rewrite Eb. by apply layout_grow.
  - eapply touched_chain; [exact Ht| |exact Hc]. intros x [->|Hx]%elem_of_cons; right; [cbn; lia|].
    pose proof (ly_free _ _ _ _ Hly0) as Hall. rewrite Forall_forall in Hall. apply Hall in Hx. unfold block_in, block_end in Hx. lia.
  - exists f. split; [done|]. eapply word_at_ext; [|exact Hw]. intros a Ha. apply Ht. lia.
  - intros a s [[<- <-]|[_ Ha]]%lookup_insert_Some; [done|]. eapply word_at_ext; [|by apply Hsz].
    intros x Hx. apply Ht. apply (ly_alloc _ _ _ _ Hly0) in Ha. unfold block_in, block_end in Ha. cbn in Ha. lia.
Qed.

Definition more (n : Z) : Z := if n <? 4096 then 4096 else n.

Lemma morecore_run F A u n :
  heap lo F A u -> 1 <= n -> 16 * more n < 2 ^ 31 -> u_brk u + 16 * more n <= 2 ^ 36 ->
  exists r u', morecore n u = Ok r u' /\
    (r = 0 /\ heap lo F A u' /\ u_mem u' = u_mem u \/
     exists F', 0 < r /\ heap lo F' A u' /\ keeps A (u_mem u) (u_mem u') /\ word_at (u_mem u') 8 freep r /\
       units F' = units F + more n /\ Exists (fun x => n <= x.2) F' /\ (length F' <= S (length F))%nat).
Proof.
  intros Hp Hn Hnu Hlim. pose proof Hp as [Hst Hbrk (Hm1 & Hm2 & Hm3) Hly _ _ _]. pose proof Hst as (Hs1 & Hs2 & _).
  assert (n <= more n /\ 1 <= more n) as [Hnm Hm] by (unfold more; destruct (Z.ltb_spec n 4096); lia).
  unfold morecore. cbv zeta. fold (more n). change sizeof_Header with 16.
  rewrite (Z.mul_comm (more n)), s32_small by lia. unfold sbrk. rewrite bind_bind. unfold in_world at 1. unfold bind at 1. cbn beta.
  destruct (sys_grow (16 * more n) (u_world u)) as [ok w] eqn:Eg. cbn [obind].
  destruct ok; cbn [negb].
  2: { exists 0, (u <| u_world := w |>). split; [done|]. left. split_and!; [done| |done]. by destruct Hp. }
  destruct (Z.leb_spec 0 (16 * more n)); [|lia].
  destruct (heap_grow F A u (16 * more n) w Hp ltac:(lia) Hlim) as [Hp1 Hold].
  set (m0 := u_mem u ∪ list_to_map ((fun a => (a, 0)) <$> seqZ (u_brk u) (16 * more n))) in *.
  set (u1 := u <| u_world := w |> <| u_mem := m0 |> <| u_brk := u_brk u + 16 * more n |>) in *.
  erewrite bind_ok by reflexivity. change (u_brk u <| u_world := w |>) with (u_brk u). destruct (Z.eqb_spec (u_brk u) (-1)); [lia|].
  destruct (set_size_run u1 (u_brk u) (more n)) as (m1 & E1 & Ht1 & Hq1 & _).
  { intros a Ha. apply (hp_map _ _ _ _ Hp1). cbn. lia. }
  { lia. }
  assert (A !! u_brk u = None) as Hnone.
  { destruct (A !! u_brk u) as [t|] eqn:E; [|done]. apply (ly_alloc _ _ _ _ Hly) in E. unfold block_in, block_end in E. cbn in E. lia. }
  pose proof (heap_new_block F A u1 _ (u_brk u) m1 (more n) Hp1 Hly ltac:(lia) eq_refl Hm Ht1 Hq1 eq_refl) as Hp2.
  destruct (free_run lo F _ _ (u_brk u) (more n) Hp2 ltac:(apply lookup_insert_eq)) as (F' & m2 & E2 & Hp3 & Hk & Hun & Hbig & Hlen).
  rewrite delete_insert_id in Hp3, Hk by done. pose proof (hp_freep _ _ _ _ Hp3) as (f & Hf & Hwf).
  exists f.1, (u1 <| u_mem := m1 |> <| u_mem := m2 |>). split.
  { erewrite bind_ok by exact E1. erewrite bind_ok by exact E2. by apply uload_run. }
  right. exists F'. split_and!; [|exact Hp3| |done|done| |done].
  - apply elem_of_cons in Hf as [->|Hf]; [cbn; lia|]. pose proof (ly_free _ _ _ _ (hp_layout _ _ _ _ Hp3)) as Hall.
    rewrite Forall_forall in Hall. apply Hall in Hf as (_ & ? & _). lia.
  - intros a s x Ha Hx. cbn. rewrite (Hk a s x Ha Hx). cbn.
    pose proof (ly_alloc _ _ _ _ Hly _ _ Ha) as Hin. unfold block_in, block_end in Hin. cbn in Hin.
    destruct Ht1 as [-> _]; [|lia]. apply Hold, Hm3. lia.
  - eapply Exists_impl; [exact Hbig|]. cbn. lia.
Qed.

(** ** The search of [malloc] *)

Section walk.
Context (F : list (Z * Z)) (A : gmap Z Z) (u : user) (n : Z) (fi : nat).
Let N := (base, 0) :: F.
Context (Hp : heap lo F A u) (Hf : word_at (u_mem u) 8 freep (node N fi).1) (Hfi : (fi < length N)%nat).

Lemma walk_hdr i : hdr (u_mem u) (node N i).1 (node N (S i)).1 (node N i).2.
Proof. apply chain_node; [done|]. apply (hp_chain _ _ _ _ Hp). Qed.

(** A round at a block that is too small. *)
Lemma walk_step i :
  (node N (S i)).2 < n -> (S i mod length N <> fi)%nat ->
  malloc_step n ((node N i).1, (node N (S i)).1) u = Ok (inl ((node N (S i)).1, (node N (S (S i))).1)) u.
Proof.
  intros Hs Hi. unfold malloc_step. erewrite bind_ok by (eapply get_size_run, walk_hdr).
  destruct (Z.leb_spec n (node N (S i)).2); [lia|]. erewrite bind_ok by (apply uload_run; exact Hf).
  destruct (Z.eqb_spec (node N (S i)).1 (node N fi).1) as [E|_].
  - exfalso. apply Hi. apply node_inj in E; [|done|].
    + by rewrite (Nat.mod_small fi) in E.
    + pose proof (hp_statics _ _ _ _ Hp). eapply layout_ascending; [apply Hp|unfold statics_ok in *; lia].
  - by erewrite bind_ok by (eapply get_ptr_run, walk_hdr).
Qed.

(** The search stops at a block that is large enough, or has seen that all
    blocks up to [freep] are too small. *)
Lemma walk d : forall i k,
  ((S i + d) mod length N = fi)%nat -> (d < length N)%nat -> (d < k)%nat ->
  (exists j k', n <= (node N (S j)).2 /\
     iter k (malloc_step n) ((node N i).1, (node N (S i)).1) u = iter (S k') (malloc_step n) ((node N j).1, (node N (S j)).1) u) \/
  (forall e, (e <= d)%nat -> (node N (S i + e)).2 < n) /\
  exists y, iter k (malloc_step n) ((node N i).1, (node N (S i)).1) u = iter (k - d) (malloc_step n) (y, (node N fi).1) u.
Proof.
  induction d as [|d IH]; intros i k Hd Hl Hk.
  all: destruct (decide (n <= (node N (S i)).2)) as [Hb|Hs]; [left; exists i, (pred k); split; [done|by replace (S (pred k)) with k by lia]|].
  - right. split; [intros e He; replace e with O by lia; rewrite Nat.add_0_r; lia|]. exists (node N i).1.
    rewrite Nat.sub_0_r. rewrite Nat.add_0_r in Hd. do 3 f_equal. unfold node. by rewrite Hd, (Nat.mod_small fi).
  - assert (S i mod length N <> fi)%nat as Hne.
    { intros E. rewrite <- E in Hd. rewrite <- (Nat.Div0.add_mod_idemp_l (S i)) in Hd.
      rewrite Nat.add_comm in Hd. assert (length N <> 0)%nat as Hl0 by done. pose proof (Nat.mod_upper_bound (S i) (length N) Hl0).
      destruct (decide (S d + S i mod length N < length N)%nat); [rewrite Nat.mod_small in Hd by done; lia|].
      replace (S d + S i mod length N)%nat with (S d + S i mod length N - length N + 1 * length N)%nat in Hd at 1 by lia.
      rewrite Nat.Div0.mod_add, Nat.mod_small in Hd by lia. lia. }
    destruct k as [|k]; [lia|]. assert (iter (S k) (malloc_step n) ((node N i).1, (node N (S i)).1) u =
      iter k (malloc_step n) ((node N (S i)).1, (node N (S (S i))).1) u) as ->.
    { apply iter_continue, walk_step; [lia|done]. }
    destruct (IH (S i) k) as [(j & k' & Hb & E)|[Hall (y & E)]]; [rewrite <- Hd; f_equal; lia|lia|lia| |].
    + left. by exists j, k'.
    + right. split; [|exists y; by replace (S k - S d)%nat with (k - d)%nat by lia].
      intros [|e] He; [rewrite Nat.add_0_r; lia|]. replace (S i + S e)%nat with (S (S i) + e)%nat by lia. apply Hall. lia.
Qed.

(** One lap, from [freep]. *)
Lemma lap k :
  1 <= n -> (length N <= k)%nat ->
  (exists r m', iter k (malloc_step n) ((node N fi).1, (node N (S fi)).1) u = Ok r (u <| u_mem := m' |>) /\
     allocated n F A u r (u <| u_mem := m' |>)) \/
  Forall (fun x => x.2 < n) F /\
  exists y, iter k (malloc_step n) ((node N fi).1, (node N (S fi)).1) u =
    iter (S (k - length N)) (malloc_step n) (y, (node N fi).1) u.
Proof.
  intros Hn Hk. assert (0 < length N)%nat as HN by (cbn; lia).
  destruct (walk (pred (length N)) fi k) as [(j & k' & Hb & E)|[Hall (y & E)]]; [|lia|lia| |].
  - replace (S fi + pred (length N))%nat with (fi + 1 * length N)%nat by lia. by rewrite Nat.Div0.mod_add, Nat.mod_small.
  - left. destruct (node_split N j) as (X & Y & EN); [done| |].
    { intros E0. rewrite E0 in Hb. unfold node in Hb. rewrite Nat.Div0.mod_0_l in Hb. cbn in Hb. lia. }
    destruct (take_run F A u X _ _ Y n Hp EN) as (r & m' & Er & Ha).
    { split; [done|]. exact Hb. }
    exists r, m'. split; [|done]. rewrite E. apply iter_leave. unfold malloc_step.
    erewrite bind_ok by (eapply get_size_run, walk_hdr). destruct (Z.leb_spec n (node N (S j)).2); [|lia]. by erewrite bind_ok by exact Er.
  - right. split; [|exists y; by replace (S (k - length N)) with (k - pred (length N))%nat by lia].
    apply Forall_forall. intros x Hx. destruct (node_of N x) as (i & Hi & <-); [by right|].
    destruct (decide (S fi <= i)%nat).
    + replace i with (S fi + (i - S fi))%nat by lia. apply Hall. lia.
    + specialize (Hall (i + length N - S fi)%nat ltac:(lia)). revert Hall. unfold node.
      replace (S fi + (i + length N - S fi))%nat with (i + 1 * length N)%nat by lia. by rewrite Nat.Div0.mod_add.
Qed.

End walk.

(** ** [malloc] *)

(** The number of units [malloc] allocates. *)
Definition nunits (nbytes : Z) : Z := (nbytes + 15) / 16 + 1.

Lemma nunits_bounds nbytes : 0 <= nbytes -> 1 <= nunits nbytes /\ nbytes <= 16 * (nunits nbytes - 1) <= nbytes + 15.
Proof. intros Hn. unfold nunits. Z.div_mod_to_equations. lia. Qed.

Lemma malloc_search F A u f k n :
  heap lo F A u -> f ∈ (base, 0) :: F -> word_at (u_mem u) 8 freep f.1 ->
  1 <= n -> 16 * more n < 2 ^ 31 -> u_brk u + 16 * more n <= 2 ^ 36 -> (2 * length F + 3 <= k)%nat ->
  exists r u', (p <- get_ptr f.1 ;; iter k (malloc_step n) (f.1, p)) u = Ok r u' /\
    (r = 0 /\ heap lo F A u' /\ keeps A (u_mem u) (u_mem u') \/
     exists F1, (units F1 = units F \/ units F1 = units F + more n) /\ allocated n F1 A u r u').
Proof.
  intros Hp Hf Hw Hn Hm Hlim Hk. destruct (node_of _ _ Hf) as (fi & Hfi & Ef). rewrite <- Ef in Hw |- *.
  erewrite bind_ok by (eapply get_ptr_run, (walk_hdr F A u Hp)).
  destruct (lap F A u n fi Hp Hw Hfi k Hn) as [(r & m' & E & Ha)|[Hsmall (y & E)]]; [cbn; lia| |].
  { exists r, (u <| u_mem := m' |>). split; [done|]. right. exists F. split; [by left|done]. }
  rewrite E. clear E. cbn [length] in *.
  destruct (morecore_run F A u n Hp Hn Hm Hlim) as (r & u1 & Em & Hres).
  assert (malloc_step n (y, (node ((base, 0) :: F) fi).1) u =
    (if r =? 0 then leave 0 else next <- get_ptr r ;; continue (r, next)) u1) as Estep.
  { unfold malloc_step. erewrite bind_ok by (eapply get_size_run, (walk_hdr F A u Hp)).
    assert ((node ((base, 0) :: F) fi).2 < n) as Hfs.
    { pose proof (node_elem ((base, 0) :: F) fi ltac:(done)) as [->|Hin]%elem_of_cons; [cbn; lia|]. rewrite Forall_forall in Hsmall. auto. }
    destruct (Z.leb_spec n (node ((base, 0) :: F) fi).2); [lia|]. erewrite bind_ok by (apply uload_run; exact Hw).
    rewrite Z.eqb_refl. by erewrite bind_ok by exact Em. }
  destruct Hres as [(-> & Hp1 & Hm1)|(F' & Hr & Hp1 & Hk1 & Hw1 & Hun & Hbig & Hlen)].
  - exists 0, u1. split; [by apply iter_leave|]. left. split_and!; [done|done|]. intros a s x _ _. by rewrite Hm1.
  - destruct (hp_freep _ _ _ _ Hp1) as (f1 & Hf1 & Hwf1). destruct (node_of _ _ Hf1) as (fi1 & Hfi1 & Ef1).
    assert (r = f1.1) as -> by by eapply word_at_inj.
    rewrite <- Ef1 in *. set (k1 := (k - S (length F))%nat) in *.
    destruct (lap F' A u1 n fi1 Hp1 Hw1 Hfi1 k1 Hn) as [(r & m' & E & Ha)|[Hsmall' _]]; [cbn; lia| |].
    + exists r, (u1 <| u_mem := m' |>). split.
      * rewrite <- E. apply iter_continue. rewrite Estep. destruct (Z.eqb_spec (node ((base, 0) :: F') fi1).1 0); [lia|].
        by erewrite bind_ok by (eapply get_ptr_run, (walk_hdr F' A u1 Hp1)).
      * right. exists F'. split; [by right|]. destruct Ha as (q & F2 & E1 & Hq & Hh & Hk2 & Hu). exists q, F2. split_and!; try done.
        intros a s x Ha Hx. rewrite (Hk2 a s x Ha Hx). by apply (Hk1 a s x).
    + exfalso. rewrite Exists_exists in Hbig. destruct Hbig as (x & Hx & Hxn). rewrite Forall_forall in Hsmall'. apply Hsmall' in Hx. lia.
Qed.

(** Before the first call of [malloc]. *)
Record fresh (u : user) : Prop := {
  fr_statics : statics_ok lo;
  fr_brk : lo <= u_brk u <= 2 ^ 36;
  fr_map : writable (u_mem u) base 16 /\ writable (u_mem u) freep 8 /\ writable (u_mem u) lo (u_brk u - lo);
  fr_freep : word_at (u_mem u) 8 freep 0
}.

Lemma malloc_init u :
  fresh u ->
  exists m', (ustore 8 freep base ;; set_ptr base base ;; set_size base 0 ;; ret base) u = Ok base (u <| u_mem := m' |>) /\
    heap lo [] ∅ (u <| u_mem := m' |>) /\ word_at m' 8 freep base.
Proof.
  intros [Hst Hbrk (Hm1 & Hm2 & Hm3) Hf]. pose proof Hst as (Hs1 & Hs2 & Hs3 & Hs4 & Hs5).
  destruct (ustore_run 8 freep base u) as (m1 & E1 & Hst1); [done|lia|].
  assert (forall a, is_Some (u_mem u !! a) -> is_Some (m1 !! a)) as Hmap1 by (intros a; by apply (stored_mapped _ _ _ _ _ _ Hst1)).
  destruct (ustore_run 8 base base (u <| u_mem := m1 |>)) as (m2 & E2 & Hst2); [intros a Ha; apply Hmap1, Hm1; lia|lia|].
  assert (touched base 16 m1 m2) as Ht2.
  { split; [intros a Ha; apply Hst2; lia|]. intros a. by apply (stored_mapped _ _ _ _ _ _ Hst2). }
  destruct (set_size_run (u <| u_mem := m1 |> <| u_mem := m2 |>) base 0) as (m3 & E3 & Ht3 & _ & Hh3);
    [intros a Ha; by apply Ht2, Hmap1, Hm1|lia|]. cbn in Ht3, Hh3.
  assert (word_at m3 8 freep base) as Hf3.
  { eapply word_at_ext; [|apply Hst1]. intros a Ha. destruct Ht3 as [-> _]; [|lia]. apply Ht2. lia. }
  exists m3. split_and!; [erewrite bind_ok by exact E1; erewrite bind_ok by exact E2; by erewrite bind_ok by exact E3| |done].
  split; try done.
  - split_and!; intros a Ha; apply Ht3, Ht2, Hmap1; auto.
  - split; try done; constructor.
  - split; [apply Hh3, Hst2|done].
  - exists (base, 0). split; [left|done].
Qed.

(** The free blocks [F] and the allocated blocks [A], also before the first
    call. *)
Definition ready F A u : Prop := heap lo F A u \/ fresh u /\ F = [] /\ A = ∅.

Lemma malloc_run F A u nbytes :
  ready F A u -> 0 <= nbytes <= 2 ^ 31 - 32 -> u_brk u + 16 * more (nunits nbytes) <= 2 ^ 36 ->
  exists r u', malloc nbytes u = Ok r u' /\
    (r = 0 /\ heap lo F A u' /\ keeps A (u_mem u) (u_mem u') \/
     exists F1, (units F1 = units F \/ units F1 = units F + more (nunits nbytes)) /\ allocated (nunits nbytes) F1 A u r u').
Proof.
  intros Hr Hn Hlim. pose proof (nunits_bounds nbytes ltac:(lia)) as [Hn1 Hn2].
  assert (16 * more (nunits nbytes) < 2 ^ 31) as Hm by (unfold more; destruct (Z.ltb_spec (nunits nbytes) 4096); lia).
  unfold malloc. change sizeof_Header with 16. replace (nbytes + 16 - 1) with (nbytes + 15) by lia. fold (nunits nbytes).
  cbv zeta. rewrite (u32_small (nunits nbytes)) by lia.
  assert (exists f m1, (start <- uload 8 freep ;; if start =? 0 then ustore 8 freep base ;; set_ptr base base ;; set_size base 0 ;; ret base
      else ret start) u = Ok f.1 (u <| u_mem := m1 |>) /\ heap lo F A (u <| u_mem := m1 |>) /\ keeps A (u_mem u) m1 /\
      f ∈ (base, 0) :: F /\ word_at m1 8 freep f.1) as (f & m1 & E1 & Hp1 & Hk1 & Hf & Hw).
  { destruct Hr as [Hp|(Hfr & -> & ->)].
    - destruct (hp_freep _ _ _ _ Hp) as (f & Hf & Hw). exists f, (u_mem u). replace (u <| u_mem := u_mem u |>) with u by by destruct u.
      split_and!; try done. erewrite bind_ok by by apply uload_run. destruct (Z.eqb_spec f.1 0) as [E|]; [exfalso|done].
      apply elem_of_cons in Hf as [->|Hf]; [destruct (hp_statics _ _ _ _ Hp); cbn in E; lia|].
      pose proof (ly_free _ _ _ _ (hp_layout _ _ _ _ Hp)) as Hall. rewrite Forall_forall in Hall. apply Hall in Hf as (_ & ? & _).
      destruct (hp_statics _ _ _ _ Hp). lia.
    - destruct (malloc_init u Hfr) as (m1 & E1 & Hp & Hw). exists (base, 0), m1. split_and!; [|done|by intros a s x ?|left|done].
      erewrite bind_ok by (apply uload_run, Hfr). done. }
  destruct (malloc_search F A _ f (S (2 * S (size m1))) (nunits nbytes) Hp1 Hf Hw Hn1 Hm Hlim) as (r & u' & E2 & Hres).
  { pose proof (heap_node_count _ _ _ _ Hp1) as Hc. cbn in Hc. lia. }
  exists r, u'. split.
  - rewrite <- bind_bind. erewrite bind_ok by exact E1. unfold ufuel. rewrite bind_gets. exact E2.
  - destruct Hres as [(-> & Hp2 & Hk2)|(F1 & HF1 & q & F2 & Eq & Hq & Hp2 & Hk2 & Hu)].
    + left. split_and!; [done|done|]. intros a s x Ha Hx. rewrite (Hk2 a s x Ha Hx). cbn. by apply (Hk1 a s x).
    + right. exists F1. split; [done|]. exists q, F2. split_and!; try done. intros a s x Ha Hx. rewrite (Hk2 a s x Ha Hx). cbn. by apply (Hk1 a s x).
Qed.

(** ** Programs that allocate *)

(** A program allocates, frees blocks it holds, writes into them and makes
    other system calls; [A] holds its blocks. Requests beyond 2 GB and heaps
    beyond 64 GB are excluded. *)
Inductive client_step : gmap Z Z * user -> gmap Z Z * user -> Prop :=
| client_malloc A u nbytes r u' :
    0 <= nbytes <= 2 ^ 31 - 32 -> u_brk u + 16 * more (nunits nbytes) <= 2 ^ 36 -> malloc nbytes u = Ok r u' ->
    client_step (A, u) (if decide (r = 0) then A else <[r - 16 := nunits nbytes]> A, u')
| client_free A u a s u' : A !! a = Some s -> free (a + 16) u = Ok tt u' -> client_step (A, u) (delete a A, u')
| client_write A u a s x v :
    A !! a = Some s -> a + 16 <= x < a + 16 * s -> client_step (A, u) (A, u <| u_mem := <[x := v]> (u_mem u) |>)
| client_world A u w : client_step (A, u) (A, u <| u_world := w |>).

Definition client_ok (c : gmap Z Z * user) : Prop := exists F, ready F c.1 c.2.

Lemma client_write_ok F A u a s x v :
  ready F A u -> A !! a = Some s -> a + 16 <= x < a + 16 * s -> ready F A (u <| u_mem := <[x := v]> (u_mem u) |>).
Proof.
  intros [Hp|(_ & _ & ->)] Ha Hx; [|done]. left. pose proof Hp as [Hst Hbrk (Hm1 & Hm2 & Hm3) Hly Hc (f & Hf & Hw) Hsz].
  pose proof (ly_alloc _ _ _ _ Hly _ _ Ha) as Hin. unfold block_in, block_end in Hin. cbn in Hin. pose proof Hst as (Hs1 & Hs2 & Hs3 & Hs4 & _).
  split; try done.
  - split_and!; intros b Hb; cbn; apply insert_mapped; auto.
  - eapply chain_ext; [|exact Hc]. intros y b Hy Hb. cbn. apply lookup_insert_ne. intros <-.
    apply elem_of_cons in Hy as [->|Hy]; [cbn in Hb; lia|]. pose proof (ly_apart _ _ _ _ Hly _ _ _ Hy Ha) as Hd.
    pose proof (ly_free _ _ _ _ Hly) as Hall. rewrite Forall_forall in Hall. apply Hall in Hy.
    unfold disj, block_in, block_end in *. cbn in *. lia.
  - exists f. split; [done|]. eapply word_at_ext; [|exact Hw]. intros b Hb. cbn. apply lookup_insert_ne. lia.
  - intros b t Hb. eapply word_at_ext; [|by apply Hsz]. intros y Hy. cbn. apply lookup_insert_ne. intros <-.
    destruct (decide (a = b)) as [->|Hne]; [lia|]. pose proof (ly_disj _ _ _ _ Hly _ _ _ _ Ha Hb Hne) as Hd.
    pose proof (ly_alloc _ _ _ _ Hly _ _ Hb). unfold disj, block_in, block_end in *. cbn in *. lia.
Qed.

Lemma client_step_ok c c' : client_step c c' -> client_ok c -> client_ok c'.
Proof.
  intros Hs [F Hr]. destruct Hs as [A u nbytes r u' Hn Hl E|A u a s u' Ha E|A u a s x v Ha Hx|A u w]; cbn in *.
  - destruct (malloc_run F A u nbytes Hr Hn Hl) as (r' & u'' & E' & Hres). rewrite E' in E. injection E as <- <-.
    destruct Hres as [(-> & Hp & _)|(F1 & _ & q & F' & -> & _ & Hp & _)].
    + exists F. by left.
    + exists F'. left. cbn. pose proof (ly_alloc _ _ _ _ (hp_layout _ _ _ _ Hp) q _ ltac:(apply lookup_insert_eq)) as Hin.
      pose proof (hp_statics _ _ _ _ Hp). unfold block_in, statics_ok in *. cbn in Hin.
      rewrite decide_False by lia. by rewrite Z.add_simpl_r.
  - destruct Hr as [Hp|(_ & _ & ->)]; [|done]. destruct (free_run lo F A u a s Hp Ha) as (F' & m' & E' & Hp' & _).
    rewrite E' in E. injection E as <-. exists F'. by left.
  - exists F. by eapply client_write_ok.
  - exists F. destruct Hr as [Hp|([] & Hr)]; [left; by destruct Hp|right; by split].
Qed.


End alloc.
