(* ===== verification/Sh.v ===== *)
(** * The shell's parser ([user/sh.c])

    The parser works on the bytes of the input line in memory; a token is
    given by the addresses of its first character and of the character after
    it. The command structures are values of an inductive type: the parser
    never shares them, except that [parseexec] goes on filling in the
    [execcmd] that [parseredirs] has wrapped, which is modelled by wrapping
    it at the end; allocating them is taken to succeed. [panic] prints a
    message and exits; the message about leftovers is not modelled. Executing
    commands is in [ShRun.v]. *)

From S2P Require Import Prelude Ulib.

Definition MAXARGS : nat := 10.

(** [struct cmd] and its variants: [argv] with [eargv], [file] with
    [efile]. *)
Inductive cmd :=
| EXEC (argv : list (Z * Z))
| REDIR (c : cmd) (file efile mode fd : Z)
| PIPE (left right : cmd)
| LIST (left right : cmd)
| BACK (c : cmd).

(** [strchr] on the static arrays of characters; no element is NUL. *)
Definition one_of (set : list Z) (c : Z) : bool := bool_decide (c ∈ set).

Definition whitespace : list Z := [32; 9; 13; 10; 11].

(** [<|>&;()] *)
Definition symbols : list Z := [60; 124; 62; 38; 59; 40; 41].

Section sh.
Context `{UserSys}.

(** The loop [while(s < es && ...) s++] over characters with [p]. *)
Definition skip_while (p : Z -> bool) (s es : Z) : M user Z :=
  n <- ufuel ;;
  iter n (fun s => if negb (s <? es) then leave s else
    c <- uget s ;; if p c then continue (s + 1) else leave s) s.

(** The token, its bounds [q] and [eq], and the new [*ps]. ['a'] is 97. *)
Definition gettoken (ps es : Z) : M user (Z * Z * Z * Z) :=
  q <- skip_while (one_of whitespace) ps es ;;
  c <- uget q ;;
  r <- (if c =? 0 then ret (c, q)
        else if one_of [124; 40; 41; 59; 38; 60] c then ret (c, q + 1)
        else if c =? 62 then
          d <- uget (q + 1) ;;
          if d =? 62 then ret (43, q + 2) else ret (c, q + 1)
        else
          s <- skip_while (fun c => negb (one_of whitespace c) && negb (one_of symbols c)) q es ;;
          ret (97, s)) ;;
  let '(tok, eq) := r in
  s <- skip_while (one_of whitespace) eq es ;;
  ret (tok, q, eq, s).

(** Whether the next character is one of [toks], and the new [*ps]. *)
Definition peek (ps es : Z) (toks : list Z) : M user (bool * Z) :=
  s <- skip_while (one_of whitespace) ps es ;;
  c <- uget s ;;
  ret (ctrue c && one_of toks c, s).

(** A redirection: the arguments of [redircmd]. *)
Definition redir : Type := Z * Z * Z * Z.

Definition redircmd (c : cmd) (r : redir) : cmd :=
  let '(file, efile, mode, fd) := r in REDIR c file efile mode fd.

(** One turn of the loop of [parseredirs]; [O_WRONLY] is 1, [O_CREATE] 0x200,
    [O_TRUNC] 0x400. *)
Definition parseredirs_step (es : Z) : list redir * Z -> M user (list redir * Z + list redir * Z) := fun '(rs, s) =>
  b <- peek s es [60; 62] ;;
  let '(more, s) := b in
  if negb more then leave (rs, s) else
  t <- gettoken s es ;;
  let '(tok, _, _, s) := t in
  f <- gettoken s es ;;
  let '(tok', q, eq, s) := f in
  if negb (tok' =? 97) then panic "missing file for redirection" else
  let rs' := if tok =? 60 then [(q, eq, 0, 0)]
             else if tok =? 62 then [(q, eq, 0x601, 1)]
             else if tok =? 43 then [(q, eq, 0x201, 1)] else [] in
  continue (rs ++ rs', s).

(** The redirections in order and the new [*ps]. *)
Definition parseredirs (ps es : Z) : M user (list redir * Z) :=
  n <- ufuel ;; iter n (parseredirs_step es) ([], ps).

(** One turn of the loop of [parseexec], with the arguments and the
    redirections up to here. *)
Definition parseargs_step (es : Z) : list (Z * Z) * list redir * Z -> M user (list (Z * Z) * list redir * Z + cmd * Z) :=
  fun '(args, rs, s) =>
  b <- peek s es [124; 41; 38; 59] ;;
  let '(stop, s) := b in
  if stop : bool then leave (foldl redircmd (EXEC args) rs, s) else
  t <- gettoken s es ;;
  let '(tok, q, eq, s) := t in
  if tok =? 0 then leave (foldl redircmd (EXEC args) rs, s) else
  if negb (tok =? 97) then panic "syntax" else
  let args := args ++ [(q, eq)] in
  if (MAXARGS <=? length args)%nat then panic "too many args" else
  r <- parseredirs s es ;;
  continue (args, rs ++ r.1, r.2).

(** The loop over the arguments in [parseexec]. *)
Definition parseargs (ps es : Z) (rs : list redir) : M user (cmd * Z) :=
  n <- ufuel ;; iter n (parseargs_step es) ([], rs, ps).

(** One turn of the loop over [&] in [parseline]. *)
Definition parseback_step (es : Z) : cmd * Z -> M user (cmd * Z + cmd * Z) := fun '(c, s) =>
  b <- peek s es [38] ;;
  if b.1 then t <- gettoken b.2 es ;; continue (BACK c, t.2) else leave (c, b.2).

Fixpoint parseline (fuel : nat) (ps es : Z) : M user (cmd * Z) :=
  match fuel with
  | O => nofuel
  | S fuel' =>
      r <- parsepipe fuel' ps es ;;
      n <- ufuel ;;
      r <- iter n (parseback_step es) r ;;
      let '(c, s) := r in
      b <- peek s es [59] ;;
      if b.1 then
        t <- gettoken b.2 es ;;
        r <- parseline fuel' t.2 es ;;
        ret (LIST c r.1, r.2)
      else ret (c, b.2)
  end
with parsepipe (fuel : nat) (ps es : Z) : M user (cmd * Z) :=
  match fuel with
  | O => nofuel
  | S fuel' =>
      r <- parseexec fuel' ps es ;;
      let '(c, s) := r in
      b <- peek s es [124] ;;
      if b.1 then
        t <- gettoken b.2 es ;;
        r <- parsepipe fuel' t.2 es ;;
        ret (PIPE c r.1, r.2)
      else ret (c, b.2)
  end
with parseexec (fuel : nat) (ps es : Z) : M user (cmd * Z) :=
  match fuel with
  | O => nofuel
  | S fuel' =>
      b <- peek ps es [40] ;;
      if b.1 then parseblock fuel' b.2 es else
      r <- parseredirs b.2 es ;;
      parseargs r.2 es r.1
  end
with parseblock (fuel : nat) (ps es : Z) : M user (cmd * Z) :=
  match fuel with
  | O => nofuel
  | S fuel' =>
      b <- peek ps es [40] ;;
      if negb b.1 then panic "parseblock" else
      t <- gettoken b.2 es ;;
      r <- parseline fuel' t.2 es ;;
      b <- peek r.2 es [41] ;;
      if negb b.1 then panic "syntax - missing )" else
      t <- gettoken b.2 es ;;
      rs <- parseredirs t.2 es ;;
      ret (foldl redircmd r.1 rs.1, rs.2)
  end.

Fixpoint nulterminate (c : cmd) : M user unit :=
  match c with
  | EXEC argv => for_each argv (fun a => uput a.2 0)
  | REDIR c _ efile _ _ => nulterminate c ;; uput efile 0
  | PIPE l r => nulterminate l ;; nulterminate r
  | LIST l r => nulterminate l ;; nulterminate r
  | BACK c => nulterminate c
  end.

(** Each level of the recursive descent consumes a character. *)
Definition parsecmd (s : Z) : M user cmd :=
  n <- strlen s ;;
  let es := s + n in
  r <- parseline (8 * (S (Z.to_nat n))) s es ;;
  b <- peek r.2 es [] ;;
  if negb (b.2 =? es) then panic "syntax" else
  nulterminate r.1 ;;
  ret r.1.

(** [buf] has [nbuf] bytes; [$ ] is the prompt. *)
Definition getcmd (buf nbuf : Z) : M user Z :=
  in_world (sys_write 2 [36; 32]) ;;
  memset buf 0 nbuf ;;
  gets buf nbuf ;;
  c <- uget buf ;;
  ret (if c =? 0 then -1 else 0).

End sh.
