(* ===== verification/ShSpec.v ===== *)
(** * The shell's scanner

    The position of the parser in the input line is the rest of the line
    that it has not read. [lex] cuts a line into words and operators;
    [gettoken] and [peek] are described by what they do to the tokens of the
    rest. *)

From S2P Require Import Prelude Ulib UlibSpec Sh.

(** ** Tokens of a string *)

Fixpoint skip (p : Z -> bool) (t : list Z) : list Z :=
  match t with [] => [] | c :: t' => if p c then skip p t' else t end.

Definition is_ws : Z -> bool := one_of whitespace.

(** The characters of words. *)
Definition is_word (c : Z) : bool := negb (one_of whitespace c) && negb (one_of symbols c).

Definition skip_ws (t : list Z) : list Z := skip is_ws t.

(** The token that [t] begins with, after white space: its kind, the rest at
    its beginning and at its end, and the rest after white space. *)
Definition token (t : list Z) : Z * list Z * list Z * list Z :=
  match skip_ws t with
  | [] => (0, [], [], [])
  | c :: t1 =>
      if one_of [124; 40; 41; 59; 38; 60] c then (c, c :: t1, t1, skip_ws t1)
      else if c =? 62 then
        if hd 0 t1 =? 62 then (43, c :: t1, tl t1, skip_ws (tl t1)) else (c, c :: t1, t1, skip_ws t1)
      else (97, c :: t1, skip is_word (c :: t1), skip_ws (skip is_word (c :: t1)))
  end.

Definition peeks (t : list Z) (toks : list Z) : bool :=
  match skip_ws t with [] => false | c :: _ => one_of toks c end.

Lemma skip_suffix p t : exists s, t = s ++ skip p t /\ Forall (fun c => p c = true) s.
Proof.
  induction t as [|c t (s & E & Hs)]; [by exists []|]. cbn. destruct (p c) eqn:Ep; [|by exists []].
  exists (c :: s). split; [cbn; by rewrite <- E|by constructor].
Qed.

Lemma skip_length p t : (length (skip p t) <= length t)%nat.
Proof. destruct (skip_suffix p t) as (s & E & _). rewrite E at 2. rewrite length_app. lia. Qed.

Lemma skip_skip p t : skip p (skip p t) = skip p t.
Proof. induction t as [|c t IH]; [done|]. cbn. destruct (p c) eqn:Ep; [done|]. cbn. by rewrite Ep. Qed.

(** ** Words and operators *)

(** [|], [(], [)], [;], [&], [<], [>], [>>]. *)
Inductive op := Bar | LPar | RPar | Semi | Amp | Lt | Gt | GtGt.

Inductive tok := TWord (w : list Z) | TOp (o : op).

(** The first character of an operator. *)
Definition op_char (o : op) : Z :=
  match o with Bar => 124 | LPar => 40 | RPar => 41 | Semi => 59 | Amp => 38 | Lt => 60 | Gt | GtGt => 62 end.

(** What [gettoken] returns for it. *)
Definition op_code (o : op) : Z := match o with GtGt => 43 | _ => op_char o end.

Definition char_op (c : Z) : op :=
  if c =? 124 then Bar else if c =? 40 then LPar else if c =? 41 then RPar else if c =? 59 then Semi
  else if c =? 38 then Amp else if c =? 60 then Lt else Gt.

Definition flush (acc : list Z) (ts : list tok) : list tok := match acc with [] => ts | _ => TWord acc :: ts end.

(** The tokens of a line, [acc] being the beginning of a word before it. *)
Fixpoint lex_from (acc : list Z) (t : list Z) : list tok :=
  match t with
  | [] => flush acc []
  | c :: t' =>
      if is_ws c then flush acc (lex_from [] t')
      else if is_word c then lex_from (acc ++ [c]) t'
      else flush acc
        match t' with
        | d :: t'' => if (c =? 62) && (d =? 62) then TOp GtGt :: lex_from [] t'' else TOp (char_op c) :: lex_from [] t'
        | [] => [TOp (char_op c)]
        end
  end.

Definition lex : list Z -> list tok := lex_from [].

(** Whether the next token is an operator that begins with one of [toks]. *)
Definition sees (ts : list tok) (toks : list Z) : bool :=
  match ts with TOp o :: _ => one_of toks (op_char o) | _ => false end.

Lemma lex_ws t : lex (skip_ws t) = lex t.
Proof. unfold lex, skip_ws. induction t as [|c t IH]; [done|]. cbn. destruct (is_ws c) eqn:E; [done|]. cbn. by rewrite E. Qed.

Lemma skip_ws_head t c t' : skip_ws t = c :: t' -> is_ws c = false.
Proof.
  unfold skip_ws. induction t as [|d t IH]; [done|]. cbn. destruct (is_ws d) eqn:E; [done|]. by intros [= <- <-].
Qed.

Lemma lex_word t : forall acc, acc <> [] ->
  exists w, lex_from acc t = TWord (acc ++ w) :: lex (skip is_word t) /\ t = w ++ skip is_word t /\ Forall (fun c => is_word c = true) w.
Proof.
  induction t as [|c t IH]; intros acc Hacc.
  { exists []. destruct acc; [done|]. by rewrite app_nil_r. }
  cbn [lex_from skip]. destruct (is_ws c) eqn:Ew.
  { assert (is_word c = false) as Hc by (unfold is_word; unfold is_ws in Ew; by rewrite Ew). rewrite Hc. exists [].
    destruct acc; [done|]. rewrite app_nil_r. split_and!; [|done|done]. unfold lex. cbn. by rewrite Ew. }
  destruct (is_word c) eqn:Hc.
  - destruct (IH (acc ++ [c])) as (w & -> & E & Hw); [by destruct acc|]. exists (c :: w). rewrite <- app_assoc. cbn.
    split_and!; [done|by rewrite <- E|by constructor].
  - exists []. destruct acc; [done|]. rewrite app_nil_r. split_and!; [|done|done]. unfold lex. cbn [lex_from]. by rewrite Ew, Hc.
Qed.

Lemma is_word_false c : is_ws c = false -> is_word c = false -> c ∈ symbols.
Proof.
  unfold is_word, is_ws. intros ->. cbn. intros Hc. apply negb_false_iff in Hc. by apply bool_decide_eq_true in Hc.
Qed.

Lemma symbol_word c : c ∈ symbols -> is_word c = false.
Proof. unfold symbols. rewrite !elem_of_cons, elem_of_nil. by intros [-> | [-> | [-> | [-> | [-> | [-> | [-> | []]]]]]]]. Qed.

Lemma skip_false p t : p (hd 32 (skip p t)) = true -> skip p t = [].
Proof. induction t as [|c t IH]; [done|]. cbn. destruct (p c) eqn:E; [done|]. cbn. congruence. Qed.

(** An operator of one character. *)
Lemma lex_op c t :
  is_ws c = false -> c ∈ symbols -> (c = 62 -> hd 0 t <> 62) -> lex (c :: t) = TOp (char_op c) :: lex t.
Proof.
  intros Hws Hc Hd. unfold lex. cbn [lex_from]. rewrite Hws, symbol_word by done. cbn [flush]. destruct t as [|d t]; [done|].
  destruct (Z.eqb_spec c 62) as [->|]; [|done]. destruct (Z.eqb_spec d 62) as [->|]; [by destruct Hd|done].
Qed.

Lemma op_code_char c : one_of [124; 40; 41; 59; 38; 60] c = true -> op_code (char_op c) = c /\ c ∈ symbols /\ c <> 62.
Proof.
  intros Hc. apply bool_decide_eq_true in Hc. rewrite !elem_of_cons, elem_of_nil in Hc. unfold symbols. rewrite !elem_of_cons.
  destruct Hc as [-> | [-> | [-> | [-> | [-> | [-> | []]]]]]]; split_and!; try done; tauto.
Qed.

Lemma token_lex t :
  match lex t with
  | [] => token t = (0, [], [], [])
  | TWord w :: ts => exists t2, token t = (97, w ++ t2, t2, skip_ws t2) /\ lex t2 = ts /\ (length t2 < length t)%nat /\
      w <> [] /\ Forall (fun c => is_word c = true) w /\ is_word (hd 32 t2) = false
  | TOp o :: ts => exists t1 t2, token t = (op_code o, t1, t2, skip_ws t2) /\ lex t2 = ts /\ (length t2 < length t)%nat
  end.
Proof.
  rewrite <- lex_ws. unfold token. pose proof (skip_length is_ws t) as Hl. fold (skip_ws t) in Hl.
  destruct (skip_ws t) as [|c t'] eqn:Es; [done|]. apply skip_ws_head in Es as Hws. cbn [length] in Hl.
  destruct (one_of [124; 40; 41; 59; 38; 60] c) eqn:E1.
  { destruct (op_code_char c E1) as (Hcode & Hsym & Hne). rewrite lex_op by done. exists (c :: t'), t'. rewrite Hcode. split_and!; [done|done|lia]. }
  destruct (Z.eqb_spec c 62) as [->|E2].
  { destruct (Z.eqb_spec (hd 0 t') 62) as [Ed|Ed].
    - destruct t' as [|d t']; [done|]. cbn in Ed. subst d. unfold lex. cbn. exists (62 :: 62 :: t'), t'. cbn in Hl. split_and!; [done|done|lia].
    - rewrite lex_op; [|done|by unfold symbols; set_solver|done]. exists (62 :: t'), t'. split_and!; [done|done|lia]. }
  assert (is_word c = true) as Hc.
  { apply not_false_is_true. intros Hc. apply is_word_false in Hc; [|done]. apply bool_decide_eq_false in E1. apply E1.
    unfold symbols in Hc. rewrite !elem_of_cons in *. tauto. }
  assert (lex (c :: t') = lex_from [c] t') as -> by (unfold lex; cbn [lex_from]; by rewrite Hws, Hc).
  destruct (lex_word t' [c]) as (w & -> & E & Hw); [done|]. exists (skip is_word t'). cbn [skip]. rewrite Hc.
  assert (([c] ++ w) ++ skip is_word t' = c :: t') as Ew by (cbn; by rewrite <- E). rewrite Ew. pose proof (skip_length is_word t').
  split_and!; [done|done|lia|done|by constructor|].
  apply not_true_is_false. intros Hh. pose proof (skip_false is_word t' Hh) as Hn. by rewrite Hn in Hh.
Qed.

Lemma peeks_lex t toks : Forall (fun c => c ∈ symbols) toks -> peeks t toks = sees (lex t) toks.
Proof.
  intros Htoks. rewrite <- lex_ws. unfold peeks. destruct (skip_ws t) as [|c t'] eqn:Es; [done|]. apply skip_ws_head in Es as Hws.
  destruct (is_word c) eqn:Hc.
  - assert (lex (c :: t') = lex_from [c] t') as -> by (unfold lex; cbn [lex_from]; by rewrite Hws, Hc).
    destruct (lex_word t' [c]) as (w & -> & _); [done|]. cbn. apply bool_decide_eq_false. intros Hin.
    rewrite Forall_forall in Htoks. specialize (Htoks c Hin). by rewrite symbol_word in Hc.
  - apply is_word_false in Hc as Hsym; [|done]. unfold lex. cbn [lex_from]. rewrite Hws, Hc. cbn [flush].
    assert (op_char (char_op c) = c) as Hop.
    { unfold symbols in Hsym. rewrite !elem_of_cons, elem_of_nil in Hsym. by destruct Hsym as [-> | [-> | [-> | [-> | [-> | [-> | [-> | []]]]]]]]. }
    destruct t' as [|d t']; [cbn; by rewrite Hop|]. destruct (Z.eqb_spec c 62) as [->|]; [|cbn; by rewrite Hop].
    by destruct (d =? 62).
Qed.

Section parser.
Context `{UserSys} (u : user) (b : Z) (str : list Z).
Context (Hstr : string_at (u_mem u) b str).

Definition es : Z := b + Z.of_nat (length str).

(** The address of the rest [t] of the line. *)
Definition ptr (t : list Z) : Z := es - Z.of_nat (length t).

Definition rest_of (t : list Z) : Prop := t `suffix_of` str.

Lemma rest_string t : rest_of t -> string_at (u_mem u) (ptr t) t.
Proof.
  intros [pre E]. pose proof (string_at_drop _ _ _ (length pre) Hstr) as Hd. rewrite E in Hd. rewrite drop_app_length in Hd.
  unfold ptr, es. rewrite E, !length_app. replace (b + Z.of_nat (length pre + length t) - Z.of_nat (length t)) with (b + Z.of_nat (length pre)) by lia.
  apply Hd. rewrite length_app. lia.
Qed.

Lemma rest_skip p t : rest_of t -> rest_of (skip p t).
Proof. intros Ht. destruct (skip_suffix p t) as (s & E & _). unfold rest_of in *. etrans; [|exact Ht]. by exists s. Qed.

Lemma rest_tail c t : rest_of (c :: t) -> rest_of t.
Proof. intros Ht. unfold rest_of in *. etrans; [|exact Ht]. by exists [c]. Qed.

Lemma rest_length t : rest_of t -> (length t <= length str)%nat.
Proof. apply suffix_length. Qed.

Lemma ptr_cons c t : ptr (c :: t) + 1 = ptr t.
Proof. unfold ptr. cbn [length]. lia. Qed.

Lemma uget_ptr t : rest_of t -> uget (ptr t) u = Ok (hd 0 t) u.
Proof. intros Ht. by apply uget_string, rest_string. Qed.

(** Characters of the line are not NUL. *)
Lemma rest_char c t : rest_of (c :: t) -> 0 < c < 256.
Proof. intros Ht. by apply rest_string in Ht as (? & _). Qed.

Lemma fuel_enough t : rest_of t -> (length t < S (size (u_mem u)))%nat.
Proof. intros Ht. pose proof (rest_length t Ht). pose proof (string_at_size _ _ _ Hstr). lia. Qed.

Lemma skip_while_run p t : rest_of t -> skip_while p (ptr t) es u = Ok (ptr (skip p t)) u.
Proof.
  intros Ht. unfold skip_while, ufuel. rewrite bind_gets. pose proof (fuel_enough t Ht) as Hf. revert Hf.
  generalize (S (size (u_mem u))) as k. induction t as [|c t IH]; intros [|k] Hk; cbn [length] in Hk; try lia.
  - apply iter_leave. assert ((ptr [] <? es) = false) as -> by (apply Z.ltb_ge; unfold ptr; cbn; lia). done.
  - assert ((ptr (c :: t) <? es) = true) as Hlt by (apply Z.ltb_lt; unfold ptr; cbn [length]; lia). cbn [skip]. destruct (p c) eqn:Ep.
    + rewrite (iter_continue _ _ _ (ptr t) _ u); [apply IH; [by eapply rest_tail|lia]|]. rewrite Hlt. cbn [negb].
      erewrite bind_ok by by apply uget_ptr. cbn [hd]. by rewrite Ep, ptr_cons.
    + apply iter_leave. rewrite Hlt. cbn [negb]. erewrite bind_ok by by apply uget_ptr. cbn [hd]. by rewrite Ep.
Qed.

Lemma token_rest t tok t1 t2 t3 :
  rest_of t -> token t = (tok, t1, t2, t3) -> rest_of t1 /\ rest_of t2 /\ rest_of t3.
Proof.
  intros Ht. pose proof (rest_skip is_ws t Ht) as Hs. unfold token. unfold skip_ws in *. destruct (skip is_ws t) as [|c t'].
  { by intros [= <- <- <- <-]. }
  pose proof (rest_tail _ _ Hs) as Ht'. destruct (one_of _ c); [intros [= <- <- <- <-]; auto using rest_skip|].
  destruct (c =? 62).
  - destruct (Z.eqb_spec (hd 0 t') 62) as [E|_]; [|intros [= <- <- <- <-]; auto using rest_skip].
    destruct t' as [|d t']; [done|]. pose proof (rest_tail _ _ Ht') as Ht2. intros [= <- <- <- <-]. cbn. auto using rest_skip.
  - pose proof (rest_skip is_word _ Hs) as Hw. intros [= <- <- <- <-]. split_and!; [done|exact Hw|by apply rest_skip].
Qed.

Lemma gettoken_run t tok t1 t2 t3 :
  rest_of t -> token t = (tok, t1, t2, t3) -> gettoken (ptr t) es u = Ok (tok, ptr t1, ptr t2, ptr t3) u.
Proof.
  intros Ht Et. unfold gettoken. erewrite bind_ok by by apply skip_while_run. change (one_of whitespace) with is_ws.
  fold (skip_ws t). pose proof (rest_skip is_ws t Ht) as Hs. fold (skip_ws t) in Hs. erewrite bind_ok by by apply uget_ptr.
  unfold token in Et. destruct (skip_ws t) as [|c t'] eqn:Es; cbn [hd].
  { injection Et as <- <- <- <-. cbn [Z.eqb]. rewrite bind_ret. by erewrite bind_ok by (apply skip_while_run; done). }
  pose proof (rest_char _ _ Hs) as Hc. pose proof (rest_tail _ _ Hs) as Ht'. destruct (Z.eqb_spec c 0); [lia|].
  destruct (one_of [124; 40; 41; 59; 38; 60] c).
  { injection Et as <- <- <- <-. rewrite bind_ret, ptr_cons. by erewrite bind_ok by by apply skip_while_run. }
  destruct (c =? 62).
  - rewrite ptr_cons, bind_bind. erewrite bind_ok by by apply uget_ptr. destruct (Z.eqb_spec (hd 0 t') 62) as [E|_].
    + destruct t' as [|d t']; [done|]. injection Et as <- <- <- <-. rewrite bind_ret. cbn [tl].
      replace (ptr (c :: d :: t') + 2) with (ptr t') by (unfold ptr; cbn [length]; lia).
      by erewrite bind_ok by (apply skip_while_run; by eapply rest_tail).
    + injection Et as <- <- <- <-. rewrite bind_ret. by erewrite bind_ok by by apply skip_while_run.
  - rewrite bind_bind. erewrite bind_ok by by apply skip_while_run. rewrite bind_ret. injection Et as <- <- <- <-.
    erewrite bind_ok by (apply skip_while_run, rest_skip; done). done.
Qed.

Lemma peek_run t toks : rest_of t -> peek (ptr t) es toks u = Ok (peeks t toks, ptr (skip_ws t)) u.
Proof.
  intros Ht. unfold peek, peeks. erewrite bind_ok by by apply skip_while_run. change (skip (one_of whitespace) t) with (skip_ws t).
  pose proof (rest_skip is_ws t Ht) as Hs. fold (skip_ws t) in Hs. erewrite bind_ok by by apply uget_ptr.
  destruct (skip_ws t) as [|c t']; [done|]. pose proof (rest_char _ _ Hs). cbn. unfold ctrue. by destruct (Z.eqb_spec c 0); [lia|].
Qed.

(** ** The scanner on tokens *)

(** [q] and [eq] are the bounds of the word [w] of the line. *)
Definition tok_at (q eq : Z) (w : list Z) : Prop :=
  exists t, rest_of (w ++ t) /\ w <> [] /\ Forall (fun c => is_word c = true) w /\ is_word (hd 32 t) = false /\
    q = ptr (w ++ t) /\ eq = ptr t.

Lemma rest_skip_ws t : rest_of t -> rest_of (skip_ws t).
Proof. apply rest_skip. Qed.

Lemma skip_ws_length t : (length (skip_ws t) <= length t)%nat.
Proof. apply skip_length. Qed.

Lemma gettoken_end t : rest_of t -> lex t = [] -> exists q eq, gettoken (ptr t) es u = Ok (0, q, eq, ptr []) u.
Proof. intros Ht E. pose proof (token_lex t) as Hk. rewrite E in Hk. eexists _, _. by apply (gettoken_run t). Qed.

Lemma gettoken_op t o ts :
  rest_of t -> lex t = TOp o :: ts ->
  exists q eq t', gettoken (ptr t) es u = Ok (op_code o, q, eq, ptr t') u /\ rest_of t' /\ lex t' = ts /\ (length t' < length t)%nat.
Proof.
  intros Ht E. pose proof (token_lex t) as Hk. rewrite E in Hk. destruct Hk as (t1 & t2 & Hk & Hlex & Hl).
  destruct (token_rest _ _ _ _ _ Ht Hk) as (_ & _ & H3). pose proof (skip_ws_length t2).
  exists (ptr t1), (ptr t2), (skip_ws t2). rewrite lex_ws. split_and!; [by apply gettoken_run|done|done|lia].
Qed.

Lemma gettoken_word t w ts :
  rest_of t -> lex t = TWord w :: ts ->
  exists q eq t', gettoken (ptr t) es u = Ok (97, q, eq, ptr t') u /\ rest_of t' /\ lex t' = ts /\ (length t' < length t)%nat /\ tok_at q eq w.
Proof.
  intros Ht E. pose proof (token_lex t) as Hk. rewrite E in Hk. destruct Hk as (t2 & Hk & Hlex & Hl & Hne & Hw & Hend).
  destruct (token_rest _ _ _ _ _ Ht Hk) as (H1 & _ & H3). pose proof (skip_ws_length t2).
  exists (ptr (w ++ t2)), (ptr t2), (skip_ws t2). rewrite lex_ws. split_and!; [by apply gettoken_run|done|done|lia|by exists t2].
Qed.

Lemma peek_lex t toks :
  rest_of t -> Forall (fun c => c ∈ symbols) toks -> peek (ptr t) es toks u = Ok (sees (lex t) toks, ptr (skip_ws t)) u.
Proof. intros Ht Htoks. rewrite peek_run by done. by rewrite peeks_lex. Qed.

End parser.
