(* ===== verification/ShGrammar.v ===== *)
(** * The shell's grammar

    The context-free grammar of command lines over tokens. The parser
    terminates on every line, and what it returns is derived by the grammar
    from the tokens that it has read. *)

From S2P Require Import Prelude Ulib UlibSpec Sh ShSpec.

(** ** Commands and their grammar *)

(** A redirection: the file, the mode and the descriptor. *)
Definition sredir : Type := list Z * Z * Z.

(** A command, with its words. *)
Inductive scmd :=
| SExec (argv : list (list Z))
| SRedir (c : scmd) (file : list Z) (mode fd : Z)
| SPipe (l r : scmd)
| SList (l r : scmd)
| SBack (c : scmd).

Definition sredircmd (c : scmd) (r : sredir) : scmd := SRedir c r.1.1 r.1.2 r.2.

(** [<] reads; [>] creates and truncates; [>>] creates. *)
Definition redir_of (o : op) (w : list Z) : option sredir :=
  match o with
  | Lt => Some (w, 0, 0)
  | Gt => Some (w, 0x601, 1)
  | GtGt => Some (w, 0x201, 1)
  | _ => None
  end.

(** redirs ::= (redirection word)* *)
Inductive g_redirs : list tok -> list sredir -> Prop :=
| g_redirs_nil : g_redirs [] []
| g_redirs_cons o w r ts rs :
    redir_of o w = Some r -> g_redirs ts rs -> g_redirs (TOp o :: TWord w :: ts) (r :: rs).

(** args ::= (word redirs)* *)
Inductive g_args : list tok -> list (list Z) -> list sredir -> Prop :=
| g_args_nil : g_args [] [] []
| g_args_cons w ts rs ts' args rs' :
    g_redirs ts rs -> g_args ts' args rs' -> g_args (TWord w :: ts ++ ts') (w :: args) (rs ++ rs').

(** line ::= pipe [&]* | pipe [&]* ; line
    pipe ::= exec | exec [|] pipe
    exec ::= redirs args | ( line ) redirs *)
Inductive g_line : list tok -> scmd -> Prop :=
| g_line_last ts c k : g_pipe ts c -> g_line (ts ++ replicate k (TOp Amp)) (Nat.iter k SBack c)
| g_line_semi ts c k ts' r :
    g_pipe ts c -> g_line ts' r -> g_line (ts ++ replicate k (TOp Amp) ++ TOp Semi :: ts') (SList (Nat.iter k SBack c) r)
with g_pipe : list tok -> scmd -> Prop :=
| g_pipe_last ts c : g_exec ts c -> g_pipe ts c
| g_pipe_bar ts c ts' r : g_exec ts c -> g_pipe ts' r -> g_pipe (ts ++ TOp Bar :: ts') (SPipe c r)
with g_exec : list tok -> scmd -> Prop :=
| g_exec_args ts rs ts' args rs' :
    g_redirs ts rs -> g_args ts' args rs' -> (length args < MAXARGS)%nat ->
    g_exec (ts ++ ts') (foldl sredircmd (SExec args) (rs ++ rs'))
| g_exec_block ts c ts' rs :
    g_line ts c -> g_redirs ts' rs -> g_exec (TOp LPar :: ts ++ TOp RPar :: ts') (foldl sredircmd c rs).

Lemma g_args_snoc ts args rs w ts' rs' :
  g_args ts args rs -> g_redirs ts' rs' -> g_args (ts ++ TWord w :: ts') (args ++ [w]) (rs ++ rs').
Proof.
  intros Ha Hr. induction Ha as [|w0 ts0 rs0 ts1 args1 rs1 Hr0 Ha IH]; cbn.
  - rewrite <- (app_nil_r ts'), <- (app_nil_r rs'). apply g_args_cons; [done|constructor].
  - rewrite <- !app_assoc. by apply g_args_cons.
Qed.

Lemma g_redirs_snoc ts rs o w r :
  g_redirs ts rs -> redir_of o w = Some r -> g_redirs (ts ++ [TOp o; TWord w]) (rs ++ [r]).
Proof.
  intros Hr Ho. induction Hr as [|o0 w0 r0 ts0 rs0 H0 Hr IH]; cbn; [by repeat econstructor|]. by econstructor.
Qed.

Section grammar.
Context `{UserSys} (u : user) (b : Z) (str : list Z).
Context (Hstr : string_at (u_mem u) b str).

Local Abbreviation es := (es b str).
Local Abbreviation ptr := (ptr b str).
Local Abbreviation rest_of := (rest_of str).
Local Abbreviation tok_at := (tok_at b str).

(** ** What the parser's trees stand for *)

Definition spells_redir (r : redir) (sr : sredir) : Prop :=
  tok_at r.1.1.1 r.1.1.2 sr.1.1 /\ r.1.2 = sr.1.2 /\ r.2 = sr.2.

(** The tree refers to the words of the command in the line. *)
Inductive spells : cmd -> scmd -> Prop :=
| spells_exec argv ws : Forall2 (fun (a : Z * Z) w => tok_at a.1 a.2 w) argv ws -> spells (EXEC argv) (SExec ws)
| spells_redircmd c sc r sr : spells c sc -> spells_redir r sr -> spells (redircmd c r) (sredircmd sc sr)
| spells_pipe l r sl sr : spells l sl -> spells r sr -> spells (PIPE l r) (SPipe sl sr)
| spells_list l r sl sr : spells l sl -> spells r sr -> spells (LIST l r) (SList sl sr)
| spells_back c sc : spells c sc -> spells (BACK c) (SBack sc).

Lemma spells_redirs rs srs : Forall2 spells_redir rs srs ->
  forall c sc, spells c sc -> spells (foldl redircmd c rs) (foldl sredircmd sc srs).
Proof. induction 1 as [|r sr rs srs Hr _ IH]; intros c sc Hc; [done|]. cbn. apply IH. by constructor. Qed.

(** ** Every input is parsed or refused *)

(** A computation returns a value with [P] or panics, and leaves memory
    alone. *)
Definition good {A} (P : A -> Prop) (o : outcome user A) : Prop :=
  (exists a, o = Ok a u /\ P a) \/ exists msg, o = Panic msg u.

Lemma good_ret {A} (P : A -> Prop) a : P a -> good P (ret a u).
Proof. left. by exists a. Qed.

Lemma good_panic {A} (P : A -> Prop) msg : good P (panic msg u).
Proof. right. by exists msg. Qed.

Lemma good_bind {A B} (P : A -> Prop) (Q : B -> Prop) m f :
  good P (m u) -> (forall a, P a -> good Q (f a u)) -> good Q ((x <- m ;; f x) u).
Proof.
  intros [(a & E & Ha)|(msg & E)] Hf; [erewrite bind_ok by exact E; auto|]. right. exists msg. by erewrite bind_panic by exact E.
Qed.

Lemma good_iter {X A} (I : X -> Prop) (meas : X -> nat) (Q : A -> Prop) body k : forall x,
  (forall x, I x -> good (fun r => match r with inl x' => I x' /\ (meas x' < meas x)%nat | inr a => Q a end) (body x u)) ->
  I x -> (meas x < k)%nat -> good Q (iter k body x u).
Proof.
  induction k as [|k IH]; intros x Hb Hx Hk; [lia|]. cbn [iter]. eapply good_bind; [by apply Hb|].
  intros [x'|a]; [|apply good_ret]. intros [Hx' Hm]. apply IH; [done|done|lia].
Qed.

(** From [t] the parser has read tokens with [P] and stands at [s]. *)
Definition reads_to (t : list Z) (P : list tok -> Prop) (s : Z) : Prop :=
  exists t' ts, s = ptr t' /\ rest_of t' /\ (length t' <= length t)%nat /\ lex t = ts ++ lex t' /\ P ts.

(** The number of characters left. *)
Definition left_of (s : Z) : nat := Z.to_nat (es - s).

Lemma left_of_ptr t : left_of (ptr t) = length t.
Proof. unfold left_of, ShSpec.ptr. lia. Qed.

Lemma fuel_ptr t : rest_of t -> (left_of (ptr t) < S (size (u_mem u)))%nat.
Proof. intros Ht. rewrite left_of_ptr. by apply (fuel_enough u b str). Qed.

Lemma op_not_word o : (op_code o =? 97) = false.
Proof. by destruct o. Qed.

Lemma op_not_end o : (op_code o =? 0) = false.
Proof. by destruct o. Qed.

(** A redirection operator is next. *)
Lemma sees_redir ts : sees ts [60; 62] = true -> exists o ts', ts = TOp o :: ts' /\ forall w, exists r, redir_of o w = Some r.
Proof. destruct ts as [|[w|o] ts]; try done. destruct o; try done; intros _; eexists _, _; (split; [done|]); intros w; by eexists. Qed.

Lemma redir_spells o w q eq sr :
  redir_of o w = Some sr -> tok_at q eq w ->
  Forall2 spells_redir (if op_code o =? 60 then [(q, eq, 0, 0)] else if op_code o =? 62 then [(q, eq, 0x601, 1)]
    else if op_code o =? 43 then [(q, eq, 0x201, 1)] else []) [sr].
Proof. intros Ho Hw. destruct o; try done; injection Ho as <-; by repeat constructor. Qed.

Lemma parseredirs_good t :
  rest_of t -> good (fun r => exists srs, reads_to t (fun ts => g_redirs ts srs) r.2 /\ Forall2 spells_redir r.1 srs) (parseredirs (ptr t) es u).
Proof.
  intros Ht. unfold parseredirs, ufuel. rewrite bind_gets.
  apply (good_iter (fun x => exists srs, reads_to t (fun ts => g_redirs ts srs) x.2 /\ Forall2 spells_redir x.1 srs) (fun x => left_of x.2));
    [|exists []; split; [|done]; exists t, []; by repeat constructor|by apply fuel_ptr].
  intros [rs s] (srs & (t1 & ts & Hs & Ht1 & Hl & Hlex & Hg) & Hrs). cbn [fst snd] in *. subst s. cbn beta iota delta [parseredirs_step parseargs_step].
  erewrite bind_ok by (apply (peek_lex u b str Hstr); [done|by unfold symbols; repeat constructor; set_solver]).
  pose proof (skip_ws_length t1) as Hws. apply (rest_skip_ws str) in Ht1 as Ht2. destruct (sees (lex t1) [60; 62]) eqn:Esee; cbn [negb].
  2: { apply good_ret. exists srs. split; [|done]. exists (skip_ws t1), ts. rewrite lex_ws. split_and!; [done|done|lia|done|done]. }
  destruct (sees_redir _ Esee) as (o & ts1 & Elex & Ho). rewrite <- lex_ws in Elex.
  destruct (gettoken_op u b str Hstr _ _ _ Ht2 Elex) as (q0 & eq0 & t3 & Hget & Ht3 & Hlex3 & Hl3). erewrite bind_ok by exact Hget. cbn [fst snd].
  destruct (lex t3) as [|[w|o'] ts3] eqn:E3.
  - destruct (gettoken_end u b str Hstr _ Ht3 E3) as (q & eq & Hget'). erewrite bind_ok by exact Hget'. apply good_panic.
  - destruct (gettoken_word u b str Hstr _ _ _ Ht3 E3) as (q & eq & t4 & Hget' & Ht4 & Hlex4 & Hl4 & Hw).
    erewrite bind_ok by exact Hget'. cbn [Z.eqb Pos.eqb negb]. apply good_ret. destruct (Ho w) as [sr Hsr]. cbn [fst snd].
    split; [|rewrite !left_of_ptr; lia]. exists (srs ++ [sr]). split; [|apply Forall2_app; [done|by eapply redir_spells]].
    exists t4, (ts ++ [TOp o; TWord w]). split_and!; [done|done|lia| |by apply g_redirs_snoc].
    rewrite Hlex, <- app_assoc, <- lex_ws, Elex, <- Hlex3, Hlex4. done.
  - destruct (gettoken_op u b str Hstr _ _ _ Ht3 E3) as (q & eq & t4 & Hget' & _). erewrite bind_ok by exact Hget'.
    cbn beta iota. rewrite op_not_word. apply good_panic.
Qed.

Lemma parseargs_good t rs srs :
  rest_of t -> Forall2 spells_redir rs srs ->
  good (fun r => exists args srs', reads_to t (fun ts => g_args ts args srs' /\ (length args < MAXARGS)%nat) r.2 /\
    spells r.1 (foldl sredircmd (SExec args) (srs ++ srs'))) (parseargs (ptr t) es rs u).
Proof.
  intros Ht Hrs. unfold parseargs, ufuel. rewrite bind_gets.
  apply (good_iter (fun x => exists args srs', reads_to t (fun ts => g_args ts args srs' /\ (length args < MAXARGS)%nat) x.2 /\
      Forall2 (fun (a : Z * Z) w => tok_at a.1 a.2 w) x.1.1 args /\ Forall2 spells_redir x.1.2 (srs ++ srs')) (fun x => left_of x.2));
    [|exists [], []; split_and!; [exists t, []; repeat constructor; unfold MAXARGS; cbn; try done; lia|done|by rewrite app_nil_r]|by apply fuel_ptr].
  clear rs Hrs. intros [[al rs] s] (args & srs' & (t1 & ts & Hs & Ht1 & Hl & Hlex & Hg & Hm) & Hal & Hrs). cbn [fst snd] in *. subst s. cbn beta iota delta [parseredirs_step parseargs_step].
  erewrite bind_ok by (apply (peek_lex u b str Hstr); [done|by unfold symbols; repeat constructor; set_solver]).
  pose proof (skip_ws_length t1) as Hws. apply (rest_skip_ws str) in Ht1 as Ht2.
  assert (spells (foldl redircmd (EXEC al) rs) (foldl sredircmd (SExec args) (srs ++ srs'))) as Hdone
    by (apply spells_redirs; [done|by constructor]).
  destruct (sees (lex t1) _) eqn:Esee.
  { apply good_ret. exists args, srs'. split; [|done]. exists (skip_ws t1), ts. rewrite lex_ws. split_and!; [done|done|lia|done|done|done]. }
  destruct (lex (skip_ws t1)) as [|[w|o] ts2] eqn:E2.
  - destruct (gettoken_end u b str Hstr _ Ht2 E2) as (q & eq & Hget). erewrite bind_ok by exact Hget. cbn [Z.eqb].
    apply good_ret. exists args, srs'. split; [|done]. exists [], ts. rewrite lex_ws in E2. rewrite E2 in Hlex.
    split_and!; [done|by apply suffix_nil|cbn; lia|done|done|done].
  - destruct (gettoken_word u b str Hstr _ _ _ Ht2 E2) as (q & eq & t3 & Hget & Ht3 & Hlex3 & Hl3 & Hw). erewrite bind_ok by exact Hget.
    cbn [Z.eqb Pos.eqb negb]. destruct (Nat.leb_spec MAXARGS (length (al ++ [(q, eq)]))) as [|Hm']; [apply good_panic|].
    eapply good_bind; [by apply parseredirs_good|]. intros [rs' s'] (srs2 & (t4 & ts4 & Hs4 & Ht4 & Hl4 & Hlex4 & Hg4) & Hrs2). cbn [fst snd] in *. subst s'.
    apply good_ret. cbn [fst snd]. rewrite !left_of_ptr. split; [|lia]. exists (args ++ [w]), (srs' ++ srs2).
    rewrite (app_assoc srs). split_and!; [|apply Forall2_app; [done|by repeat constructor]|by apply Forall2_app].
    exists t4, (ts ++ TWord w :: ts4). split_and!; [done|done|lia| |by apply g_args_snoc|].
    + rewrite Hlex, <- app_assoc, <- lex_ws, E2, <- Hlex3, Hlex4. done.
    + rewrite length_app in *. apply Forall2_length in Hal. cbn in *. lia.
  - destruct (gettoken_op u b str Hstr _ _ _ Ht2 E2) as (q & eq & t3 & Hget & _). erewrite bind_ok by exact Hget.
    cbn beta iota. rewrite op_not_end, op_not_word. apply good_panic.
Qed.

(** *** Rules for the lookahead at one operator *)

Definition single (o : op) : Prop := match o with Gt | GtGt => False | _ => True end.

Lemma sees_op o ts : single o -> sees ts [op_char o] = true -> exists ts', ts = TOp o :: ts'.
Proof. destruct ts as [|[w|o'] ts]; try done. destruct o, o'; try done; by eexists. Qed.

Lemma good_peek {B} o (f : bool * Z -> M user B) (Q : B -> Prop) t :
  rest_of t -> single o ->
  (forall t', rest_of t' -> (length t' <= length t)%nat -> lex t' = lex t -> good Q (f (false, ptr t') u)) ->
  (forall t' ts, rest_of t' -> (length t' <= length t)%nat -> lex t = TOp o :: ts -> lex t' = TOp o :: ts -> good Q (f (true, ptr t') u)) ->
  good Q ((r <- peek (ptr t) es [op_char o] ;; f r) u).
Proof.
  intros Ht Ho Hno Hyes. erewrite bind_ok by (apply (peek_lex u b str Hstr); [done|by unfold symbols; destruct o; repeat constructor; set_solver]).
  pose proof (skip_ws_length t). apply (rest_skip_ws str) in Ht as Ht'. destruct (sees (lex t) _) eqn:E; [|apply Hno; [done|done|apply lex_ws]].
  destruct (sees_op _ _ Ho E) as [ts Ets]. eapply Hyes; [done|done|done|by rewrite lex_ws].
Qed.

Lemma good_op {B} o (f : Z * Z * Z * Z -> M user B) (Q : B -> Prop) t ts :
  rest_of t -> lex t = TOp o :: ts ->
  (forall r t', r.2 = ptr t' -> rest_of t' -> lex t' = ts -> (length t' < length t)%nat -> good Q (f r u)) ->
  good Q ((r <- gettoken (ptr t) es ;; f r) u).
Proof.
  intros Ht E Hf. destruct (gettoken_op u b str Hstr _ _ _ Ht E) as (q & eq & t' & Hget & Ht' & Hlex & Hl).
  erewrite bind_ok by exact Hget. by eapply Hf.
Qed.

Lemma reads_to_trans t t' ts (P Q : list tok -> Prop) s :
  (length t' <= length t)%nat -> lex t = ts ++ lex t' -> reads_to t' Q s -> (forall ts', Q ts' -> P (ts ++ ts')) -> reads_to t P s.
Proof.
  intros Hl Hlex (t2 & ts2 & -> & Ht2 & Hl2 & Hlex2 & HQ) HP. exists t2, (ts ++ ts2).
  split_and!; [done|done|lia|by rewrite Hlex, Hlex2, app_assoc|auto].
Qed.

(** The loop over [&] in [parseline]. *)
Lemma back_good c sc t :
  rest_of t -> spells c sc ->
  good (fun r => exists k, reads_to t (fun ts => ts = replicate k (TOp Amp)) r.2 /\ spells r.1 (Nat.iter k SBack sc))
    (iter (S (size (u_mem u))) (parseback_step es) (c, ptr t) u).
Proof.
  intros Ht Hc. apply (good_iter (fun x => exists k, reads_to t (fun ts => ts = replicate k (TOp Amp)) x.2 /\ spells x.1 (Nat.iter k SBack sc))
    (fun x => left_of x.2)); [|exists 0%nat; split; [by exists t, []|done]|by apply fuel_ptr].
  intros [c1 s] (k & (t1 & ts & Hs & Ht1 & Hl & Hlex & ->) & Hc1). cbn [fst snd] in *. subst s. unfold parseback_step.
  apply (good_peek Amp); [done|done| |]; cbn [fst snd].
  - intros t2 Ht2 Hl2 E2. apply good_ret. exists k. split; [|done]. exists t2, (replicate k (TOp Amp)). rewrite E2. split_and!; try done. lia.
  - intros t2 ts2 Ht2 Hl2 E E2. eapply good_op; [done|exact E2|]. intros r t3 Hr Ht3 E3 Hl3. apply good_ret. cbn [fst snd]. rewrite Hr, !left_of_ptr.
    split; [|lia]. exists (S k). split; [|by constructor]. exists t3, (replicate (S k) (TOp Amp)). split_and!; [done|done|lia| |done].
    rewrite Hlex, E, <- E3, replicate_S_end, <- app_assoc. done.
Qed.

Definition parses (G : list tok -> scmd -> Prop) (n : nat) (f : Z -> Z -> M user (cmd * Z)) : Prop :=
  forall t, rest_of t -> (length t <= n)%nat ->
    good (fun r => exists sc, reads_to t (fun ts => G ts sc) r.2 /\ spells r.1 sc) (f (ptr t) es u).

Lemma parseline_step k n :
  parses g_pipe n (parsepipe k) -> (forall n', (n' < n)%nat -> parses g_line n' (parseline k)) -> parses g_line n (parseline (S k)).
Proof.
  intros Hpipe Hline t Ht Hn. cbn [parseline]. eapply good_bind; [by apply Hpipe|].
  intros [c s1] (sc & (t1 & ts1 & Hs & Ht1 & Hl1 & E1 & Hg) & Hc). cbn [fst snd] in *. subst s1.
  unfold ufuel. rewrite bind_gets. eapply good_bind; [by apply (back_good c sc t1)|].
  intros [c2 s2] (j & (t2 & ts2 & Hs & Ht2 & Hl2 & E2 & Ej) & Hc2). cbn [fst snd] in *. subst s2.
  apply (good_peek Semi); [done|done| |]; cbn [fst snd].
  - intros t3 Ht3 Hl3 E3. apply good_ret. eexists. split; [|exact Hc2]. exists t3, (ts1 ++ ts2).
    split_and!; [done|done|lia|by rewrite E1, E2, E3, app_assoc|subst ts2; by constructor].
  - intros t3 ts3 Ht3 Hl3 E E3. eapply good_op; [done|exact E3|]. intros r t4 Hr Ht4 E4 Hl4. rewrite Hr.
    eapply good_bind; [apply (Hline (length t4)); [lia|done|done]|]. intros [c5 s5] (sc5 & Hto & Hc5). apply good_ret.
    eexists. split; [|by constructor]. eapply (reads_to_trans _ t4 (ts1 ++ ts2 ++ [TOp Semi])); [lia| |exact Hto|].
    + rewrite E1, E2, E, <- E4, <- !app_assoc. done.
    + intros ts' Hg'. subst ts2. rewrite <- !app_assoc. cbn. by constructor.
Qed.

Lemma parsepipe_step k n :
  parses g_exec n (parseexec k) -> (forall n', (n' < n)%nat -> parses g_pipe n' (parsepipe k)) -> parses g_pipe n (parsepipe (S k)).
Proof.
  intros Hexec Hpipe t Ht Hn. cbn [parsepipe]. eapply good_bind; [by apply Hexec|].
  intros [c s1] (sc & (t1 & ts1 & Hs & Ht1 & Hl1 & E1 & Hg) & Hc). cbn [fst snd] in *. subst s1.
  apply (good_peek Bar); [done|done| |]; cbn [fst snd].
  - intros t3 Ht3 Hl3 E3. apply good_ret. eexists. split; [|exact Hc]. exists t3, ts1. rewrite E3. split_and!; [done|done|lia|done|by constructor].
  - intros t3 ts3 Ht3 Hl3 E E3. eapply good_op; [done|exact E3|]. intros r t4 Hr Ht4 E4 Hl4. rewrite Hr.
    eapply good_bind; [apply (Hpipe (length t4)); [lia|done|done]|]. intros [c5 s5] (sc5 & Hto & Hc5). apply good_ret.
    eexists. split; [|by constructor]. eapply (reads_to_trans _ t4 (ts1 ++ [TOp Bar])); [lia| |exact Hto|].
    + rewrite E1, E, <- E4, <- app_assoc. done.
    + intros ts' Hg'. rewrite <- app_assoc. cbn. by constructor.
Qed.

Lemma parseblock_step k n :
  (forall n', (n' < n)%nat -> parses g_line n' (parseline k)) -> parses g_exec n (parseblock (S k)).
Proof.
  intros Hline t Ht Hn. cbn [parseblock]. apply (good_peek LPar); [done|done| |]; cbn [fst snd negb]; [intros; apply good_panic|].
  intros t1 ts1 Ht1 Hl1 E E1. eapply good_op; [done|exact E1|]. intros r t2 Hr Ht2 E2 Hl2. rewrite Hr.
  eapply good_bind; [apply (Hline (length t2)); [lia|done|done]|]. intros [c s3] (sc & (t3 & ts3 & Hs & Ht3 & Hl3 & E3 & Hg) & Hc). cbn [fst snd] in *. subst s3.
  apply (good_peek RPar); [done|done| |]; cbn [fst snd negb]; [intros; apply good_panic|].
  intros t4 ts4 Ht4 Hl4 E4' E4. eapply good_op; [done|exact E4|]. intros r' t5 Hr' Ht5 E5 Hl5. rewrite Hr'.
  eapply good_bind; [by apply parseredirs_good|]. intros [rs s6] (srs & Hto & Hrs). cbn [fst snd] in *. apply good_ret.
  eexists. split; [|by apply spells_redirs]. eapply (reads_to_trans _ t5 (TOp LPar :: ts3 ++ [TOp RPar])); [lia| |exact Hto|].
  - rewrite E, <- E2, E3, E4', <- E5. cbn. by rewrite <- app_assoc.
  - intros ts' Hg'. cbn. rewrite <- app_assoc. cbn. by constructor.
Qed.

Lemma parseexec_step k n : parses g_exec n (parseblock k) -> parses g_exec n (parseexec (S k)).
Proof.
  intros Hblock t Ht Hn. cbn [parseexec]. apply (good_peek LPar); [done|done| |]; cbn [fst snd].
  - intros t1 Ht1 Hl1 E1. eapply good_bind; [by apply parseredirs_good|].
    intros [rs s2] (srs & (t2 & ts2 & Hs & Ht2 & Hl2 & E2 & Hg) & Hrs). cbn [fst snd] in *. subst s2.
    destruct (parseargs_good t2 rs srs Ht2 Hrs) as [(r & E & args & srs' & Hto & Hc)|]; [left|by right]. exists r. split; [done|].
    eexists. split; [|exact Hc]. eapply (reads_to_trans _ t2 ts2); [lia|by rewrite <- E1|exact Hto|]. intros ts' [Ha Hm]. by constructor.
  - intros t1 ts1 Ht1 Hl1 E E1. destruct (Hblock t1 Ht1 ltac:(lia)) as [(r & Er & sc & Hto & Hc)|]; [left|by right]. exists r. split; [done|].
    exists sc. split; [|done]. eapply (reads_to_trans _ t1 []); [lia|by rewrite E, E1|exact Hto|done].
Qed.

(** Four calls per character left suffice. *)
Lemma parse_good k : forall n,
  ((4 * n + 4 <= k)%nat -> parses g_line n (parseline k)) /\ ((4 * n + 3 <= k)%nat -> parses g_pipe n (parsepipe k)) /\
  ((4 * n + 2 <= k)%nat -> parses g_exec n (parseexec k)) /\ ((4 * n + 1 <= k)%nat -> parses g_exec n (parseblock k)).
Proof.
  induction k as [|k IH]; intros n; [lia|]. destruct (IH n) as (IHl & IHp & IHe & IHb).
  assert (forall n', (n' < n)%nat -> (4 * n <= k)%nat -> parses g_line n' (parseline k)) as Hl by (intros n' ??; apply (IH n'); lia).
  assert (forall n', (n' < n)%nat -> (4 * n <= k)%nat -> parses g_pipe n' (parsepipe k)) as Hp by (intros n' ??; apply (IH n'); lia).
  split_and!; intros Hk.
  - apply parseline_step; [apply IHp; lia|intros; apply Hl; lia].
  - apply parsepipe_step; [apply IHe; lia|intros; apply Hp; lia].
  - apply parseexec_step. apply IHb; lia.
  - apply parseblock_step. intros; apply Hl; lia.
Qed.

End grammar.
