(* ===== verification/ShParse.v ===== *)
(** * Correctness of the shell's parser

    The parser accepts every line that the grammar derives, and terminates
    its words in memory: [parsecmd] returns exactly the command of the line,
    or refuses it. *)

From S2P Require Import Prelude Ulib UlibSpec Sh ShSpec ShGrammar.

Scheme g_line_min := Minimality for g_line Sort Prop
  with g_pipe_min := Minimality for g_pipe Sort Prop
  with g_exec_min := Minimality for g_exec Sort Prop.
Combined Scheme g_mutind from g_line_min, g_pipe_min, g_exec_min.

(** ** Tokens that may follow *)

(** After an [exec]. *)
Definition follows_exec (ts : list tok) : Prop := ts = [] \/ sees ts [124; 41; 38; 59] = true.

Definition follows_pipe (ts : list tok) : Prop := ts = [] \/ sees ts [41; 38; 59] = true.

Definition follows_line (ts : list tok) : Prop := ts = [] \/ sees ts [41] = true.

Lemma follows_redir ts : follows_exec ts -> sees ts [60; 62] = false.
Proof. intros [->|Hs]; [done|]. destruct ts as [|[w|o] ts]; [done|done|by destruct o]. Qed.

Lemma follows_args ts args rs ts' : g_args ts args rs -> follows_exec ts' -> sees (ts ++ ts') [60; 62] = false.
Proof. intros [] Hf; [by apply follows_redir|done]. Qed.

Lemma exec_no_block ts rs ts' args rs' ts'' :
  g_redirs ts rs -> g_args ts' args rs' -> follows_exec ts'' -> sees ((ts ++ ts') ++ ts'') [40] = false.
Proof.
  intros Hr Ha Hf. destruct Hr as [|o w r ts rs Ho Hr]; [|by destruct o]. destruct Ha; [|done].
  destruct Hf as [->|Hs]; [done|]. destruct ts'' as [|[w|o] ts'']; [done|done|by destruct o].
Qed.

Lemma pipe_follows ts : follows_pipe ts -> follows_exec ts /\ sees ts [124] = false.
Proof.
  intros [->|Hs]; [split; [by left|done]|]. destruct ts as [|[w|o] ts]; try done. unfold follows_exec. destruct o; try done; auto.
Qed.

Lemma line_follows k ts : follows_line ts -> follows_pipe (replicate k (TOp Amp) ++ ts) /\ sees ts [38] = false /\ sees ts [59] = false.
Proof.
  intros [->|Hs].
  - split; [|done]. destruct k; [by left|by right].
  - destruct ts as [|[w|o] ts]; try done. destruct o; try done. split; [|done]. destruct k; by right.
Qed.

Section parse.
Context `{UserSys} (u : user) (b : Z) (str : list Z).
Context (Hstr : string_at (u_mem u) b str).

Local Abbreviation es := (es b str).
Local Abbreviation ptr := (ptr b str).
Local Abbreviation rest_of := (rest_of str).
Local Abbreviation tok_at := (tok_at b str).
Local Abbreviation spells := (spells b str).
Local Abbreviation spells_redir := (spells_redir b str).

(** ** Every line of the grammar is accepted *)

Lemma run_peek toks t :
  rest_of t -> Forall (fun c => c ∈ symbols) toks ->
  exists t', rest_of t' /\ lex t' = lex t /\ (length t' <= length t)%nat /\ peek (ptr t) es toks u = Ok (sees (lex t) toks, ptr t') u.
Proof.
  intros Ht Htoks. exists (skip_ws t). split_and!; [by apply rest_skip_ws|apply lex_ws|apply skip_ws_length|].
  by apply (peek_lex u b str Hstr).
Qed.

Ltac run_peek t toks t1 Ht1 E1 Hl1 Hp :=
  destruct (run_peek toks t) as (t1 & Ht1 & E1 & Hl1 & Hp); [done|by unfold symbols; repeat constructor; set_solver|].

(** From [t] the computation reads to the tokens [ts'] and returns a value
    with [P]. *)
Definition runs {A} (t : list Z) (ts' : list tok) (P : A -> Prop) (o : outcome user (A * Z)) : Prop :=
  exists a t', o = Ok (a, ptr t') u /\ rest_of t' /\ lex t' = ts' /\ (length t' <= length t)%nat /\ P a.

Lemma runs_weaken {A} t t1 ts' (P Q : A -> Prop) o :
  (length t1 <= length t)%nat -> (forall a, P a -> Q a) -> runs t1 ts' P o -> runs t ts' Q o.
Proof. intros Hl HPQ (a & t' & E & Ht' & Hlex & Hl' & HP). exists a, t'. split_and!; auto. lia. Qed.

Lemma redirs_loop ts srs : g_redirs ts srs -> forall t ts' acc k,
  rest_of t -> lex t = ts ++ ts' -> sees ts' [60; 62] = false -> (length t < k)%nat ->
  runs t ts' (fun rs => exists rs', rs = acc ++ rs' /\ Forall2 spells_redir rs' srs) (iter k (parseredirs_step es) (acc, ptr t) u).
Proof.
  induction 1 as [|o w sr ts srs Ho Hg IH]; intros t ts' acc [|k] Ht E Hf Hk; try lia.
  - run_peek t [60; 62] t1 Ht1 E1 Hl1 Hp. rewrite E in *. exists acc, t1. split_and!; [|done|done|done|exists []; by rewrite app_nil_r].
    apply iter_leave. unfold parseredirs_step. erewrite bind_ok by exact Hp. cbn [app]. by rewrite Hf.
  - run_peek t [60; 62] t1 Ht1 E1 Hl1 Hp. rewrite E in *. cbn [app] in *.
    assert (sees (TOp o :: TWord w :: ts ++ ts') [60; 62] = true) as Hsee by by destruct o. rewrite Hsee in Hp.
    destruct (gettoken_op u b str Hstr _ _ _ Ht1 E1) as (q0 & eq0 & t2 & Hget & Ht2 & E2 & Hl2).
    destruct (gettoken_word u b str Hstr _ _ _ Ht2 E2) as (q & eq & t3 & Hget' & Ht3 & E3 & Hl3 & Hw).
    pose proof (redir_spells b str o w q eq sr Ho Hw) as Hsr. erewrite (iter_continue _ _ _ _ _ u).
    2: { unfold parseredirs_step. erewrite bind_ok by exact Hp. cbn [negb]. erewrite bind_ok by exact Hget. cbn beta iota.
         by erewrite bind_ok by exact Hget'. }
    eapply runs_weaken; [| |apply IH; [exact Ht3|exact E3|done|lia]]; [lia|].
    intros rs (rs' & -> & Hrs'). eexists. rewrite <- app_assoc. split; [done|]. change (sr :: srs) with ([sr] ++ srs). by apply Forall2_app.
Qed.

Lemma run_redirs ts srs t ts' :
  g_redirs ts srs -> rest_of t -> lex t = ts ++ ts' -> sees ts' [60; 62] = false ->
  runs t ts' (fun rs => Forall2 spells_redir rs srs) (parseredirs (ptr t) es u).
Proof.
  intros Hg Ht E Hf. unfold parseredirs, ufuel. rewrite bind_gets. pose proof (fuel_enough u b str Hstr t Ht).
  eapply runs_weaken; [| |eapply redirs_loop]; [done| |done|done|done|done|done]. by intros rs (? & -> & Hrs).
Qed.

Lemma args_loop ts args srs : g_args ts args srs -> forall t ts' al rs k,
  rest_of t -> lex t = ts ++ ts' -> follows_exec ts' -> (length al + length args < MAXARGS)%nat -> (length t < k)%nat ->
  runs t ts' (fun c => exists al' rs', c = foldl redircmd (EXEC (al ++ al')) (rs ++ rs') /\
    Forall2 (fun (a : Z * Z) w => tok_at a.1 a.2 w) al' args /\ Forall2 spells_redir rs' srs)
    (iter k (parseargs_step es) (al, rs, ptr t) u).
Proof.
  induction 1 as [|w ts srs ts2 args srs2 Hg Ha IH]; intros t ts' al rs [|k] Ht E Hf Hm Hk; try lia; cbn [app] in E.
  - run_peek t [124; 41; 38; 59] t1 Ht1 E1 Hl1 Hp. rewrite E in *. destruct Hf as [->|Hf].
    + destruct (gettoken_end u b str Hstr _ Ht1 E1) as (q & eq & Hget). eexists _, []. split_and!; [|by apply suffix_nil|done|cbn; lia|].
      * apply iter_leave. unfold parseargs_step. erewrite bind_ok by exact Hp. cbn beta iota delta [sees]. by erewrite bind_ok by exact Hget.
      * exists [], []. by rewrite !app_nil_r.
    + eexists _, t1. split_and!; [|done|done|lia|].
      * apply iter_leave. unfold parseargs_step. erewrite bind_ok by exact Hp. by rewrite Hf.
      * exists [], []. by rewrite !app_nil_r.
  - run_peek t [124; 41; 38; 59] t1 Ht1 E1 Hl1 Hp. rewrite E in *. cbn [sees] in Hp. rewrite <- app_assoc in E1.
    destruct (gettoken_word u b str Hstr _ _ _ Ht1 E1) as (q & eq & t2 & Hget & Ht2 & E2 & Hl2 & Hw).
    destruct (run_redirs ts srs t2 _ Hg Ht2 E2) as (rs1 & t3 & Hr & Ht3 & E3 & Hl3 & Hrs1); [by eapply follows_args|].
    cbn [length] in Hm. erewrite (iter_continue _ _ _ _ _ u).
    2: { unfold parseargs_step. erewrite bind_ok by exact Hp. cbn beta iota. erewrite bind_ok by exact Hget. cbn [Z.eqb Pos.eqb negb].
         destruct (Nat.leb_spec MAXARGS (length (al ++ [(q, eq)]))) as [Hl|_]; [rewrite length_app in Hl; cbn in Hl; lia|].
         by erewrite bind_ok by exact Hr. }
    cbn [fst snd]. eapply runs_weaken; [| |apply IH; [exact Ht3|exact E3|done|rewrite length_app; cbn; lia|lia]]; [lia|].
    intros c (al' & rs' & -> & Hal & Hrs). exists ((q, eq) :: al'), (rs1 ++ rs'). rewrite <- !app_assoc.
    split_and!; [done|by constructor|by apply Forall2_app].
Qed.

Lemma run_args ts args srs srs' t ts' rs :
  g_args ts args srs' -> rest_of t -> lex t = ts ++ ts' -> follows_exec ts' -> (length args < MAXARGS)%nat -> Forall2 spells_redir rs srs ->
  runs t ts' (fun c => spells c (foldl sredircmd (SExec args) (srs ++ srs'))) (parseargs (ptr t) es rs u).
Proof.
  intros Ha Ht E Hf Hm Hrs. unfold parseargs, ufuel. rewrite bind_gets. pose proof (fuel_enough u b str Hstr t Ht).
  eapply runs_weaken; [| |eapply args_loop]; [done| |done|done|done|done|done|done].
  intros c (al & rs' & -> & Hal & Hrs'). apply spells_redirs; [by apply Forall2_app|by constructor].
Qed.

Lemma back_loop j : forall c sc t ts' k,
  spells c sc -> rest_of t -> lex t = replicate j (TOp Amp) ++ ts' -> sees ts' [38] = false -> (length t < k)%nat ->
  runs t ts' (fun c => spells c (Nat.iter j SBack sc)) (iter k (parseback_step es) (c, ptr t) u).
Proof.
  induction j as [|j IH]; intros c sc t ts' [|k] Hc Ht E Hf Hk; try lia.
  - run_peek t [38] t1 Ht1 E1 Hl1 Hp. rewrite E in *. cbn [replicate app] in *. rewrite Hf in Hp. exists c, t1. split_and!; [|done|done|lia|done].
    apply iter_leave. unfold parseback_step. by erewrite bind_ok by exact Hp.
  - run_peek t [38] t1 Ht1 E1 Hl1 Hp. rewrite E in *. cbn [replicate app] in *.
    destruct (gettoken_op u b str Hstr _ _ _ Ht1 E1) as (q0 & eq0 & t2 & Hget & Ht2 & E2 & Hl2).
    rewrite (iter_continue _ _ _ (BACK c, ptr t2) _ u).
    2: { unfold parseback_step. erewrite bind_ok by exact Hp. cbn [fst snd]. change (sees _ [38]) with true. cbn beta iota. by erewrite bind_ok by exact Hget. }
    eapply runs_weaken; [| |apply (IH (BACK c) (SBack sc)); [by constructor|exact Ht2|exact E2|done|lia]]; [lia|].
    intros c'. by rewrite <- Nat.iter_succ_r.
Qed.

(** With [4 n + slack] calls for [n] characters, [f] accepts the tokens [ts]
    for [sc] when [F] holds of what follows. *)
Definition accepts (f : nat -> Z -> Z -> M user (cmd * Z)) (slack : nat) (F : list tok -> Prop) (ts : list tok) (sc : scmd) : Prop :=
  forall t ts' k, rest_of t -> lex t = ts ++ ts' -> F ts' -> (4 * length t + slack <= k)%nat ->
    runs t ts' (fun c => spells c sc) (f k (ptr t) es u).

Lemma accept_back ts c j t ts' k :
  accepts parsepipe 3 follows_pipe ts c -> rest_of t -> lex t = ts ++ replicate j (TOp Amp) ++ ts' ->
  follows_pipe (replicate j (TOp Amp) ++ ts') -> sees ts' [38] = false -> (4 * length t + 3 <= k)%nat ->
  exists r, parsepipe k (ptr t) es u = Ok r u /\
    runs t ts' (fun c' => spells c' (Nat.iter j SBack c)) (iter (S (size (u_mem u))) (parseback_step es) r u).
Proof.
  intros Hp Ht E Hf Hamp Hk. destruct (Hp t _ k Ht E Hf Hk) as (c1 & t1 & Hr & Ht1 & E1 & Hl1 & Hc1).
  eexists. split; [exact Hr|]. pose proof (fuel_enough u b str Hstr t1 Ht1).
  eapply (runs_weaken _ t1); [exact Hl1|intros a Ha; exact Ha|]. by apply back_loop.
Qed.

Lemma accept_line_last ts c j :
  accepts parsepipe 3 follows_pipe ts c -> accepts parseline 4 follows_line (ts ++ replicate j (TOp Amp)) (Nat.iter j SBack c).
Proof.
  intros Hp t ts' k Ht E Hf Hk. destruct k as [|k]; [lia|]. cbn [parseline]. rewrite <- app_assoc in E.
  destruct (line_follows j ts' Hf) as (Hfp & Hamp & Hsemi).
  destruct (accept_back ts c j t ts' k Hp Ht E Hfp Hamp ltac:(lia)) as (r & Hr & c1 & t1 & Hb & Ht1 & E1 & Hl1 & Hc1).
  erewrite bind_ok by exact Hr. unfold ufuel. rewrite bind_gets. erewrite bind_ok by exact Hb. cbn beta iota.
  run_peek t1 [59] t2 Ht2 E2 Hl2 Hpk. rewrite E1 in *. rewrite Hsemi in Hpk. erewrite bind_ok by exact Hpk.
  exists c1, t2. split_and!; [done|done|done|lia|done].
Qed.

Lemma accept_line_semi ts c j ts2 sc2 :
  accepts parsepipe 3 follows_pipe ts c -> accepts parseline 4 follows_line ts2 sc2 ->
  accepts parseline 4 follows_line (ts ++ replicate j (TOp Amp) ++ TOp Semi :: ts2) (SList (Nat.iter j SBack c) sc2).
Proof.
  intros Hp Hrec t ts' k Ht E Hf Hk. destruct k as [|k]; [lia|]. cbn [parseline]. rewrite <- !app_assoc in E. cbn [app] in E.
  assert (follows_pipe (replicate j (TOp Amp) ++ TOp Semi :: ts2 ++ ts')) as Hfp by (destruct j; by right).
  destruct (accept_back ts c j t _ k Hp Ht E Hfp eq_refl ltac:(lia)) as (r & Hr & c1 & t1 & Hb & Ht1 & E1 & Hl1 & Hc1).
  erewrite bind_ok by exact Hr. unfold ufuel. rewrite bind_gets. erewrite bind_ok by exact Hb. cbn beta iota.
  run_peek t1 [59] t2 Ht2 E2 Hl2 Hpk. rewrite E1 in *. erewrite bind_ok by exact Hpk. change (sees _ [59]) with true. cbn [fst snd].
  destruct (gettoken_op u b str Hstr _ _ _ Ht2 E2) as (q0 & eq0 & t3 & Hget & Ht3 & E3 & Hl3). erewrite bind_ok by exact Hget. cbn [fst snd].
  destruct (Hrec t3 ts' k Ht3 E3 Hf ltac:(lia)) as (c4 & t4 & Hr4 & Ht4 & E4 & Hl4 & Hc4). erewrite bind_ok by exact Hr4.
  exists (LIST c1 c4), t4. split_and!; [done|done|done|lia|by constructor].
Qed.

Lemma accept_pipe_last ts c : accepts parseexec 2 follows_exec ts c -> accepts parsepipe 3 follows_pipe ts c.
Proof.
  intros He t ts' k Ht E Hf Hk. destruct k as [|k]; [lia|]. cbn [parsepipe]. destruct (pipe_follows ts' Hf) as [Hfe Hbar].
  destruct (He t ts' k Ht E Hfe ltac:(lia)) as (c1 & t1 & Hr & Ht1 & E1 & Hl1 & Hc1). erewrite bind_ok by exact Hr. cbn beta iota.
  run_peek t1 [124] t2 Ht2 E2 Hl2 Hpk. rewrite E1 in *. rewrite Hbar in Hpk. erewrite bind_ok by exact Hpk.
  exists c1, t2. split_and!; [done|done|done|lia|done].
Qed.

Lemma accept_pipe_bar ts c ts2 sc2 :
  accepts parseexec 2 follows_exec ts c -> accepts parsepipe 3 follows_pipe ts2 sc2 ->
  accepts parsepipe 3 follows_pipe (ts ++ TOp Bar :: ts2) (SPipe c sc2).
Proof.
  intros He Hrec t ts' k Ht E Hf Hk. destruct k as [|k]; [lia|]. cbn [parsepipe]. rewrite <- app_assoc in E. cbn [app] in E.
  destruct (He t _ k Ht E ltac:(by right) ltac:(lia)) as (c1 & t1 & Hr & Ht1 & E1 & Hl1 & Hc1). erewrite bind_ok by exact Hr. cbn beta iota.
  run_peek t1 [124] t2 Ht2 E2 Hl2 Hpk. rewrite E1 in *. erewrite bind_ok by exact Hpk. change (sees _ [124]) with true. cbn [fst snd].
  destruct (gettoken_op u b str Hstr _ _ _ Ht2 E2) as (q0 & eq0 & t3 & Hget & Ht3 & E3 & Hl3). erewrite bind_ok by exact Hget. cbn [fst snd].
  destruct (Hrec t3 ts' k Ht3 E3 Hf ltac:(lia)) as (c4 & t4 & Hr4 & Ht4 & E4 & Hl4 & Hc4). erewrite bind_ok by exact Hr4.
  exists (PIPE c1 c4), t4. split_and!; [done|done|done|lia|by constructor].
Qed.

Lemma accept_args ts rs ts2 args rs' :
  g_redirs ts rs -> g_args ts2 args rs' -> (length args < MAXARGS)%nat ->
  accepts parseexec 2 follows_exec (ts ++ ts2) (foldl sredircmd (SExec args) (rs ++ rs')).
Proof.
  intros Hg Ha Hm t ts' k Ht E Hf Hk. destruct k as [|k]; [lia|]. cbn [parseexec].
  run_peek t [40] t1 Ht1 E1 Hl1 Hpk. rewrite E in *. rewrite (exec_no_block _ _ _ _ _ _ Hg Ha Hf) in Hpk. erewrite bind_ok by exact Hpk. cbn [fst snd].
  rewrite <- app_assoc in E1. destruct (run_redirs ts rs t1 _ Hg Ht1 E1) as (rs1 & t2 & Hr & Ht2 & E2 & Hl2 & Hrs1); [by eapply follows_args|].
  erewrite bind_ok by exact Hr. cbn [fst snd]. eapply (runs_weaken _ t2); [lia|intros a Ha'; exact Ha'|]. by eapply run_args.
Qed.

Lemma accept_block ts c ts2 rs :
  accepts parseline 4 follows_line ts c -> g_redirs ts2 rs ->
  accepts parseexec 2 follows_exec (TOp LPar :: ts ++ TOp RPar :: ts2) (foldl sredircmd c rs).
Proof.
  intros Hline Hg t ts' k Ht E Hf Hk. destruct k as [|[|k]]; [lia|lia|]. cbn [app] in E. rewrite <- app_assoc in E. cbn [app] in E.
  cbn [parseexec parseblock]. run_peek t [40] t0 Ht0 E0 Hl0 Hpk. rewrite E in *. erewrite bind_ok by exact Hpk. change (sees _ [40]) with true. cbn [fst snd].
  run_peek t0 [40] t1 Ht1 E1 Hl1 Hpk1. rewrite E0 in *. erewrite bind_ok by exact Hpk1. change (sees _ [40]) with true. cbn [fst snd negb].
  destruct (gettoken_op u b str Hstr _ _ _ Ht1 E1) as (q0 & eq0 & t2 & Hget & Ht2 & E2 & Hl2). erewrite bind_ok by exact Hget. cbn [fst snd].
  destruct (Hline t2 _ k Ht2 E2 ltac:(by right) ltac:(lia)) as (c3 & t3 & Hr3 & Ht3 & E3 & Hl3 & Hc3). erewrite bind_ok by exact Hr3. cbn [fst snd].
  run_peek t3 [41] t4 Ht4 E4 Hl4 Hpk4. rewrite E3 in *. erewrite bind_ok by exact Hpk4. change (sees _ [41]) with true. cbn [fst snd negb].
  destruct (gettoken_op u b str Hstr _ _ _ Ht4 E4) as (q5 & eq5 & t5 & Hget5 & Ht5 & E5 & Hl5). erewrite bind_ok by exact Hget5. cbn [fst snd].
  destruct (run_redirs ts2 rs t5 _ Hg Ht5 E5) as (rs1 & t6 & Hr & Ht6 & E6 & Hl6 & Hrs1); [by apply follows_redir|].
  erewrite bind_ok by exact Hr. eexists _, t6. split_and!; [done|done|done|lia|by apply spells_redirs].
Qed.

Lemma grammar_accepted :
  (forall ts sc, g_line ts sc -> accepts parseline 4 follows_line ts sc) /\
  (forall ts sc, g_pipe ts sc -> accepts parsepipe 3 follows_pipe ts sc) /\
  (forall ts sc, g_exec ts sc -> accepts parseexec 2 follows_exec ts sc).
Proof.
  apply g_mutind; intros; auto using accept_line_last, accept_line_semi, accept_pipe_last, accept_pipe_bar, accept_args, accept_block.
Qed.

End parse.

(** ** Termination of the words *)

(** The ends of the words of a tree. *)
Fixpoint ends (c : cmd) : list Z :=
  match c with
  | EXEC argv => argv.*2
  | REDIR c _ efile _ _ => ends c ++ [efile]
  | PIPE l r | LIST l r => ends l ++ ends r
  | BACK c => ends c
  end.

(** [m'] is [m] with NUL at the addresses [l]. *)
Definition zeroed (l : list Z) (m m' : gmap Z Z) : Prop :=
  forall a, m' !! a = if decide (a ∈ l) then Some 0 else m !! a.

Definition zeroes `{UserSys} (l : list Z) (f : M user unit) : Prop :=
  forall u, Forall (fun a => is_Some (u_mem u !! a)) l ->
    exists m, f u = Ok tt (u <| u_mem := m |>) /\ zeroed l (u_mem u) m.

Section terminate.
Context `{UserSys}.

Lemma zeroes_nil : zeroes [] (ret tt).
Proof. intros u _. exists (u_mem u). split; [by destruct u|done]. Qed.

Lemma zeroes_put a : zeroes [a] (uput a 0).
Proof.
  intros u [Ha _]%Forall_cons. eexists. split; [by apply uput_run|]. intros x. change (u8 0) with 0. destruct (decide (x = a)) as [->|Hne].
  - rewrite lookup_insert. rewrite decide_True by done. by rewrite decide_True by (by apply list_elem_of_singleton).
  - rewrite lookup_insert_ne by done. by rewrite decide_False by (by rewrite list_elem_of_singleton).
Qed.

Lemma zeroes_seq l l' f g : zeroes l f -> zeroes l' g -> zeroes (l ++ l') (f ;; g).
Proof.
  intros Hf Hg u [Hl Hl']%Forall_app. destruct (Hf u Hl) as (m & Ef & Hm). erewrite bind_ok by exact Ef.
  destruct (Hg (u <| u_mem := m |>)) as (m' & Eg & Hm').
  { eapply Forall_impl; [exact Hl'|]. intros a Ha. cbn. rewrite Hm. by case_decide. }
  exists m'. split; [rewrite Eg; by destruct u|]. intros a. rewrite Hm'. cbn. rewrite Hm.
  destruct (decide (a ∈ l')); [by rewrite decide_True by set_solver|]. destruct (decide (a ∈ l)); [by rewrite decide_True by set_solver|].
  rewrite decide_False; [done|]. rewrite elem_of_app. tauto.
Qed.

Lemma nulterminate_run c : zeroes (ends c) (nulterminate c).
Proof.
  induction c as [argv|c IH q eq mode fd|l IHl r IHr|l IHl r IHr|c IH]; cbn [ends nulterminate]; [|auto using zeroes_seq, zeroes_put..].
  induction argv as [|a argv IH]; [apply zeroes_nil|]. cbn [for_each fmap list_fmap]. apply (zeroes_seq [a.2]); [apply zeroes_put|exact IH].
Qed.

End terminate.

(** The tree stands for the command in memory: its words are strings. *)
Inductive denotes (m : gmap Z Z) : cmd -> scmd -> Prop :=
| denotes_exec argv ws : Forall2 (fun (a : Z * Z) w => string_at m a.1 w) argv ws -> denotes m (EXEC argv) (SExec ws)
| denotes_redir c sc q eq w mode fd : denotes m c sc -> string_at m q w -> denotes m (REDIR c q eq mode fd) (SRedir sc w mode fd)
| denotes_pipe l r sl sr : denotes m l sl -> denotes m r sr -> denotes m (PIPE l r) (SPipe sl sr)
| denotes_list l r sl sr : denotes m l sl -> denotes m r sr -> denotes m (LIST l r) (SList sl sr)
| denotes_back c sc : denotes m c sc -> denotes m (BACK c) (SBack sc).

Section words.
Context `{UserSys} (u : user) (b : Z) (str : list Z).
Context (Hstr : string_at (u_mem u) b str).

Lemma rest_unique t t' : rest_of str t -> rest_of str t' -> ptr b str t = ptr b str t' -> t = t'.
Proof.
  intros [p E] [p' E'] Hp. assert (length t = length t') as Hl by (unfold ptr in Hp; lia). rewrite E in E'.
  by apply app_inj_2 in E' as [_ ?].
Qed.

(** No word has its end inside a word. *)
Definition outside (a : Z) : Prop := exists t, rest_of str t /\ a = ptr b str t /\ is_word (hd 32 t) = false.

Lemma tok_end q eq w : tok_at b str q eq w -> outside eq.
Proof. intros (t & Hr & _ & _ & Hh & _ & ->). exists t. split_and!; [|done|done]. unfold rest_of in *. etrans; [|exact Hr]. by exists w. Qed.

Lemma spells_ends c sc : spells b str c sc -> Forall outside (ends c).
Proof.
  induction 1 as [argv ws Hw|c sc [[[q eq] mode] fd] sr Hc IH (Hr & _)|l r sl sr Hl IHl Hr IHr|l r sl sr Hl IHl Hr IHr|c sc Hc IH]; cbn [ends redircmd] in *.
  - induction Hw as [|a w argv ws Ha _ IH]; constructor; [by eapply tok_end|done].
  - apply Forall_app. split; [done|]. constructor; [by eapply tok_end|done].
  - by apply Forall_app.
  - by apply Forall_app.
  - done.
Qed.

Lemma zeroed_string l m q eq w :
  Forall outside l -> eq ∈ l -> zeroed l (u_mem u) m -> tok_at b str q eq w -> string_at m q w.
Proof.
  intros Hl Heq Hz (t & Hr & _ & Hw & _ & -> & ->). induction Hw as [|c w Hc Hw IH]; cbn [app] in *.
  - cbn. rewrite Hz. by rewrite decide_True by done.
  - cbn [string_at]. rewrite ptr_cons. pose proof (rest_char u b str Hstr _ _ Hr). split; [done|]. split; [|apply IH; by eapply rest_tail].
    rewrite Hz. rewrite decide_False.
    + apply (rest_string u b str Hstr) in Hr. by destruct Hr as (_ & ? & _).
    + intros Hin. rewrite Forall_forall in Hl. destruct (Hl _ Hin) as (t' & Hr' & Hp & Hh).
      apply rest_unique in Hp; [|done|done]. subst t'. cbn in Hh. congruence.
Qed.

Lemma spells_denotes l m c sc :
  Forall outside l -> zeroed l (u_mem u) m -> ends c ⊆ l -> spells b str c sc -> denotes m c sc.
Proof.
  intros Hl Hz Hsub Hc. revert Hsub.
  induction Hc as [argv ws Hw|c sc [[[q eq] mode] fd] [[w mode'] fd'] Hc IH (Hr & Hmode & Hfd)|cl r sl sr Hcl IHl Hr IHr|cl r sl sr Hcl IHl Hr IHr|c sc Hc IH];
    cbn in *; intros Hsub; try (constructor; [apply IHl|apply IHr]; set_solver).
  - constructor. induction Hw as [|a w argv ws Ha _ IH]; constructor; [|apply IH; set_solver].
    eapply zeroed_string; [done| |done|exact Ha]. set_solver.
  - subst. constructor; [apply IH; set_solver|]. eapply zeroed_string; [done| |done|exact Hr]. set_solver.
  - constructor; auto.
Qed.

Lemma tok_at_fun q eq w w' : tok_at b str q eq w -> tok_at b str q eq w' -> w = w'.
Proof.
  intros (t & Hr & _ & _ & _ & -> & ->) (t' & Hr' & _ & _ & _ & Hq & He).
  assert (rest_of str t /\ rest_of str t') as [Ht Ht'].
  { unfold rest_of in *. split; [etrans; [|exact Hr]; by exists w|etrans; [|exact Hr']; by exists w']. }
  apply rest_unique in He as <-; [|done|done]. apply rest_unique in Hq; [|done|done]. by apply app_inv_tail in Hq.
Qed.

(** A tree stands for one command. *)
Lemma spells_fun c sc : spells b str c sc -> forall sc', spells b str c sc' -> sc = sc'.
Proof.
  induction 1 as [argv ws Hw|c sc [[[q eq] mode] fd] [[w mode'] fd'] Hc IH (Hr & Hmode & Hfd)|cl r sl sr Hcl IHl Hr IHr|cl r sl sr Hcl IHl Hr IHr|c sc Hc IH];
    intros sc' Hsc'; inversion Hsc' as [argv0 ws0 Hw0|c0 sc0 [[[q0 eq0] mode0] fd0] [[w0 mode1] fd1] Hc0 (Hr0 & Hmode0 & Hfd0)| | |]; simplify_eq/=; try (f_equal; auto; fail).
  - f_equal. clear Hsc'. revert ws0 Hw0. induction Hw as [|a w argv ws Ha _ IH]; intros ws0 Hw0; inversion Hw0; subst; [done|].
    f_equal; [by eapply tok_at_fun|auto].
  - unfold sredircmd. cbn. rewrite (IH _ Hc0), (tok_at_fun _ _ _ _ Hr Hr0). done.
Qed.

(** The line read to its end. *)
Lemma lex_done t : lex t = [] -> skip_ws t = [].
Proof. intros E. pose proof (token_lex t) as Hk. rewrite E in Hk. unfold token in Hk. destruct (skip_ws t); [done|]. repeat case_match; done. Qed.

Lemma lex_not_done t : lex t <> [] -> skip_ws t <> [].
Proof. intros Hl E. apply Hl. by rewrite <- lex_ws, E. Qed.

End words.

Section parsecmd.
Context `{UserSys}.

(** What [parsecmd] does after [parseline]. *)
Lemma parsecmd_tail u b str c t :
  string_at (u_mem u) b str -> rest_of str t ->
  (b' <- peek (ptr b str t) (es b str) [] ;;
   if negb (b'.2 =? es b str) then panic "syntax" else nulterminate c ;; ret c) u =
  (if decide (lex t = []) then nulterminate c ;; ret c else panic "syntax") u.
Proof.
  intros Hstr Ht. erewrite bind_ok by (by apply (peek_run u b str Hstr)). cbn [snd]. case_decide as Hl.
  - rewrite (lex_done _ Hl). by destruct (Z.eqb_spec (ptr b str []) (es b str)) as [|Hne]; [|unfold ptr in Hne; cbn in Hne; lia].
  - apply lex_not_done in Hl. destruct (Z.eqb_spec (ptr b str (skip_ws t)) (es b str)) as [He|]; [|done].
    destruct (skip_ws t); [done|]. unfold ptr in He. cbn [length] in He. lia.
Qed.

Lemma ends_mapped u b str l : string_at (u_mem u) b str -> Forall (outside b str) l -> Forall (fun a => is_Some (u_mem u !! a)) l.
Proof.
  intros Hstr Hl. eapply Forall_impl; [exact Hl|]. intros a (t & Ht & -> & _). apply (rest_string u b str Hstr) in Ht.
  destruct t; cbn in Ht; [by eexists|]. destruct Ht as (_ & E & _). by eexists.
Qed.

(** [parsecmd] on a line that [parseline] reads to its end. *)
Lemma parsecmd_ok u b str c sc :
  string_at (u_mem u) b str -> spells b str c sc ->
  exists m, (nulterminate c ;; ret c) u = Ok c (u <| u_mem := m |>) /\ denotes m c sc /\
    forall a, ~ b <= a <= b + Z.of_nat (length str) -> m !! a = u_mem u !! a.
Proof.
  intros Hstr Hc. pose proof (spells_ends b str c sc Hc) as Hout.
  destruct (nulterminate_run c u) as (m & E & Hz); [by eapply ends_mapped|]. exists m. erewrite bind_ok by exact E.
  split; [done|]. split; [by eapply (spells_denotes u b str Hstr (ends c))|]. intros a Ha. rewrite Hz. rewrite decide_False; [done|].
  intros Hin. rewrite Forall_forall in Hout. destruct (Hout a Hin) as (t & Ht & -> & _). apply Ha.
  apply (rest_length str) in Ht. unfold ptr, es. lia.
Qed.

(** C3: the shell's parser is sound and complete for the grammar of command lines, and total: on every line [parsecmd] either returns the command that the grammar derives from the tokens of the line, its words being NUL-terminated strings in memory, with nothing changed outside the line; or it panics, and the grammar derives no command. The grammar is unambiguous on the line. *)
Theorem parsecmd_spec (u : user) (s : Z) (str : list Z) :
  string_at (u_mem u) s str -> Z.of_nat (length str) < 2 ^ 31 ->
  (exists c sc m, parsecmd s u = Ok c (u <| u_mem := m |>) /\ denotes m c sc /\
     (forall sc', g_line (lex str) sc' <-> sc' = sc) /\
     (forall a, ~ s <= a <= s + Z.of_nat (length str) -> m !! a = u_mem u !! a)) \/
  (exists msg, parsecmd s u = Panic msg u /\ forall sc, ~ g_line (lex str) sc).
Proof.
  intros Hstr Hlen. unfold parsecmd. erewrite bind_ok by (by apply strlen_run). rewrite Nat2Z.id. change (s + Z.of_nat (length str)) with (es s str).
  assert (rest_of str str) as Hr by (unfold rest_of; done). assert (s = ptr s str str) as Es by (unfold ptr, es; lia).
  destruct (grammar_accepted u s str Hstr) as [Hacc _].
  assert (forall sc, g_line (lex str) sc -> exists c t, parseline (8 * S (length str)) (ptr s str str) (es s str) u = Ok (c, ptr s str t) u /\
    rest_of str t /\ lex t = [] /\ spells s str c sc) as Hcomplete.
  { intros sc Hg. destruct (Hacc _ _ Hg str [] (8 * S (length str))%nat Hr) as (c & t & E & Ht & Hl & _ & Hc); [by rewrite app_nil_r|by left|lia|].
    by exists c, t. }
  destruct (parse_good u s str Hstr (8 * S (length str))%nat (length str)) as [Hline _].
  specialize (Hline ltac:(lia) str Hr ltac:(lia)). rewrite <- Es in Hline, Hcomplete.
  destruct Hline as [([c s'] & E & sc & (t & ts & Hs & Ht & _ & Hlex & Hg) & Hc)|(msg & E)].
  2: { right. exists msg. erewrite bind_panic by exact E. split; [done|]. intros sc Hg.
       destruct (Hcomplete sc Hg) as (c & t & E' & _). congruence. }
  cbn [fst snd] in *. subst s'. erewrite bind_ok by exact E. cbn [fst snd]. rewrite parsecmd_tail by done. case_decide as Hd.
  - left. destruct (parsecmd_ok u s str c sc Hstr Hc) as (m & Em & Hden & Hout). exists c, sc, m. split_and!; [done|done| |done].
    intros sc'. rewrite Hd, app_nil_r in Hlex. subst ts. split; [|by intros ->]. intros Hg'. destruct (Hcomplete sc' Hg') as (c' & t' & E' & _ & _ & Hc').
    rewrite E in E'. injection E' as <- _. symmetry. by eapply (spells_fun s str).
  - right. exists "syntax". split; [done|]. intros sc' Hg'. destruct (Hcomplete sc' Hg') as (c' & t' & E' & Ht' & Hd' & _).
    rewrite E in E'. injection E' as _ Hp. apply (rest_unique s str) in Hp; [|done|done]. by subst t'.
Qed.

End parsecmd.
