(* ===== verification/ShRun.v ===== *)
(** * The shell runs a command ([runcmd] of [user/sh.c])

    [runcmd] is a sequence of system calls of a process and of the processes
    it forks. It is modelled as the tree of these calls with their results;
    a step relation runs the processes in any order, with the descriptor
    tables that [fork], [dup], [close], [open] and [pipe] give them. A new
    descriptor is the lowest free one, as [fdalloc] of [kernel/sysfile.c]
    has it, and every call that can fail may fail. Programs that were
    started by [exec] are opaque; they end at any time. *)

From S2P Require Import Prelude Riscv Ulib UlibSpec Sh ShSpec ShGrammar ShParse.

(** ** Descriptor tables *)

(** An open file: one that was open when the shell started, a file with the
    name at an address, an end of the pipe of a PIPE command, which is named
    by its place in the command. *)
Inductive obj :=
| Inherited (n : Z)
| Opened (file mode : Z)
| ReadEnd (place : list bool)
| WriteEnd (place : list bool).

Abbreviation fdtable := (list (option obj)).

(** The lowest free descriptor. *)
Definition fd_free (t : fdtable) : option nat := fst <$> list_find (fun o => o = None) t.

(** The table with [o] in the lowest free place, and this place. *)
Definition fd_alloc (o : obj) (t : fdtable) : option (nat * fdtable) :=
  (fun i => (i, <[i := Some o]> t)) <$> fd_free t.

Definition fd_close (fd : Z) (t : fdtable) : fdtable := <[Z.to_nat fd := None]> t.

Definition fd_dup (fd : Z) (t : fdtable) : fdtable :=
  match t !! Z.to_nat fd with
  | Some (Some o) => match fd_alloc o t with Some (_, t') => t' | None => t end
  | _ => t
  end.

(** Both ends of the pipe, the one for reading first. *)
Definition fd_pipe (place : list bool) (t : fdtable) : option (nat * nat * fdtable) :=
  '(i, t) ← fd_alloc (ReadEnd place) t;
  '(j, t) ← fd_alloc (WriteEnd place) t;
  Some (i, j, t).

(** ** The system calls of a process *)

Inductive code :=
| Close (fd : Z) (k : code)
| Dup (fd : Z) (k : code)
| Open (file mode : Z) (k : Z -> code)
| Pipe (place : list bool) (k : option (Z * Z) -> code)
| Fork (child parent fail : code)
| Wait (k : code)
| Exec (path : Z) (argv : list Z) (k : code)
| Print (msg : string) (k : code)
| Exit (status : Z)
| Program                  (* a program that [exec] started *).

Definition sh_panic (s : string) : code := Print s (Exit 1).

Definition fork1 (child parent : code) : code := Fork child parent (sh_panic "fork").

(** [place] is the place of the command in the one that is run. After the
    [switch] the process exits with status 0. *)
Fixpoint runcmd (place : list bool) (c : cmd) : code :=
  match c with
  | EXEC argv =>
      match argv with
      | [] => Exit 1
      | (a, _) :: _ => Exec a argv.*1 (Print "exec failed" (Exit 0))
      end
  | REDIR c file _ mode fd =>
      Close fd (Open file mode (fun r =>
        if r <? 0 then Print "open failed" (Exit 1) else runcmd place c))
  | LIST l r =>
      fork1 (runcmd (place ++ [false]) l)
        (Wait (runcmd (place ++ [true]) r))
  | PIPE l r =>
      Pipe place (fun p =>
        match p with
        | None => sh_panic "pipe"
        | Some (p0, p1) =>
            fork1 (Close 1 (Dup p1 (Close p0 (Close p1 (runcmd (place ++ [false]) l)))))
              (fork1 (Close 0 (Dup p0 (Close p0 (Close p1 (runcmd (place ++ [true]) r)))))
                (Close p0 (Close p1 (Wait (Wait (Exit 0))))))
        end)
  | BACK c => fork1 (runcmd (place ++ [false]) c) (Exit 0)
  end.

(** ** The processes *)

Record sproc := mksproc { s_code : code; s_fds : fdtable; s_parent : nat; s_reaped : bool }.

#[export] Instance eta_sproc : Eta sproc := fun p => mksproc (s_code p) (s_fds p) (s_parent p) (s_reaped p).

(** A program that was started, with its descriptors. *)
Definition start : Type := Z * list Z * fdtable.

(** A call that concerns its process only: the programs it starts, and what
    the process goes on with. Calls fail only if [fails]. *)
Inductive call (fails : bool) : code -> fdtable -> list start -> code -> fdtable -> Prop :=
| call_close fd k t : call fails (Close fd k) t [] k (fd_close fd t)
| call_dup fd k t : call fails (Dup fd k) t [] k (fd_dup fd t)
| call_open file mode k t i t' :
    fd_alloc (Opened file mode) t = Some (i, t') -> call fails (Open file mode k) t [] (k (Z.of_nat i)) t'
| call_open_fails file mode k t : fails = true -> call fails (Open file mode k) t [] (k (-1)) t
| call_pipe place k t i j t' :
    fd_pipe place t = Some (i, j, t') -> call fails (Pipe place k) t [] (k (Some (Z.of_nat i, Z.of_nat j))) t'
| call_pipe_fails place k t : fails = true -> call fails (Pipe place k) t [] (k None) t
| call_fork_fails child parent fail t : fails = true -> call fails (Fork child parent fail) t [] fail t
| call_exec path argv k t : call fails (Exec path argv k) t [(path, argv, t)] Program t
| call_exec_fails path argv k t : fails = true -> call fails (Exec path argv k) t [] k t
| call_print msg k t : call fails (Print msg k) t [] k t
| call_ends status t : call fails Program t [] (Exit status) t.

(** The processes and the programs that were started so far. *)
Inductive sh_step (fails : bool) : list sproc * list start -> list sproc * list start -> Prop :=
| sh_call ps st i p l c t :
    ps !! i = Some p -> call fails (s_code p) (s_fds p) l c t ->
    sh_step fails (ps, st) (<[i := p <| s_code := c |> <| s_fds := t |>]> ps, st ++ l)
| sh_fork ps st i p child parent fail :
    ps !! i = Some p -> s_code p = Fork child parent fail ->
    sh_step fails (ps, st) (<[i := p <| s_code := parent |>]> ps ++ [mksproc child (s_fds p) i false], st)
| sh_wait ps st i p k j q status :
    ps !! i = Some p -> s_code p = Wait k -> ps !! j = Some q -> i <> j ->
    s_parent q = i -> s_code q = Exit status -> s_reaped q = false ->
    sh_step fails (ps, st) (<[i := p <| s_code := k |>]> (<[j := q <| s_reaped := true |>]> ps), st)
| sh_wait_none ps st i p k :
    ps !! i = Some p -> s_code p = Wait k ->
    (forall j q, ps !! j = Some q -> s_parent q = i -> j <> i -> s_reaped q = true) ->
    sh_step fails (ps, st) (<[i := p <| s_code := k |>]> ps, st).

(** ** What a command starts *)

(** The places of the programs of a command and of its waiting shells (no
    program), with their descriptors. *)
Fixpoint wiring (place : list bool) (c : cmd) (t : fdtable) : list (list bool * option (Z * list Z) * fdtable) :=
  match c with
  | EXEC argv => match argv with [] => [] | (a, _) :: _ => [(place, Some (a, argv.*1), t)] end
  | REDIR c file _ mode fd => wiring place c (<[Z.to_nat fd := Some (Opened file mode)]> t)
  | PIPE l r => (place, None, t) :: wiring (place ++ [false]) l (<[1%nat := Some (WriteEnd place)]> t) ++
                wiring (place ++ [true]) r (<[0%nat := Some (ReadEnd place)]> t)
  | LIST l r => (place, None, t) :: wiring (place ++ [false]) l t ++ wiring (place ++ [true]) r t
  | BACK c => wiring (place ++ [false]) c t
  end.

(** The programs. *)
Definition starts (w : list (list bool * option (Z * list Z) * fdtable)) : list start :=
  omap (fun e => (fun x => (x.1, x.2, e.2)) <$> e.1.2) w.

(** The redirections that the parser makes. *)
Fixpoint redirs_ok (c : cmd) : Prop :=
  match c with
  | EXEC _ => True
  | REDIR c _ _ _ fd => (fd = 0 \/ fd = 1) /\ redirs_ok c
  | PIPE l r | LIST l r => redirs_ok l /\ redirs_ok r
  | BACK c => redirs_ok c
  end.

(** Standard input and output are open, and two descriptors are free. *)
Definition std (t : fdtable) : Prop :=
  (exists o, t !! 0%nat = Some (Some o)) /\ (exists o, t !! 1%nat = Some (Some o)) /\
  exists i j, i <> j /\ t !! i = Some None /\ t !! j = Some None.

(** ** Tables *)

Lemma fd_alloc_lowest o t fd :
  t !! fd = Some None -> (forall m, (m < fd)%nat -> exists o', t !! m = Some (Some o')) ->
  fd_alloc o t = Some (fd, <[fd := Some o]> t).
Proof.
  intros Hfd Hlow. unfold fd_alloc, fd_free.
  assert (list_find (fun o => o = None) t = Some (fd, None)) as ->; [|done].
  apply list_find_Some. split_and!; [done|done|]. intros m x Hm Hlt. destruct (Hlow m Hlt) as [o' E]. by simplify_eq.
Qed.

Lemma fd_alloc_Some o t i t' : fd_alloc o t = Some (i, t') -> t !! i = Some None /\ t' = <[i := Some o]> t.
Proof.
  unfold fd_alloc, fd_free. destruct (list_find _ t) as [[k x]|] eqn:E; [|done]. intros [= <- <-].
  apply list_find_Some in E as (Hk & -> & _). done.
Qed.

Lemma fd_alloc_total o t k : t !! k = Some None -> exists i t', fd_alloc o t = Some (i, t').
Proof.
  intros Hk. unfold fd_alloc, fd_free. destruct (list_find _ t) as [[i x]|] eqn:E; [cbn; eauto|].
  apply list_find_None in E. eapply Forall_lookup_1 in E; [|exact Hk]. done.
Qed.

Lemma fd_pipe_run place t :
  std t -> exists i j, fd_pipe place t = Some (i, j, <[j := Some (WriteEnd place)]> (<[i := Some (ReadEnd place)]> t)) /\
    i <> j /\ t !! i = Some None /\ t !! j = Some None.
Proof.
  intros (_ & _ & a & b & Hab & Ha & Hb). unfold fd_pipe.
  destruct (fd_alloc_total (ReadEnd place) t a Ha) as (i & t1 & E1). rewrite E1. cbn [mbind option_bind].
  apply fd_alloc_Some in E1 as [Hi ->].
  assert (exists k, <[i := Some (ReadEnd place)]> t !! k = Some None) as [k Hk].
  { destruct (decide (i = a)) as [->|]; [exists b; by rewrite list_lookup_insert_ne|exists a; by rewrite list_lookup_insert_ne]. }
  destruct (fd_alloc_total (WriteEnd place) _ k Hk) as (j & t2 & E2). rewrite E2. cbn [mbind option_bind].
  apply fd_alloc_Some in E2 as [Hj ->]. exists i, j.
  apply list_lookup_insert_Some in Hj as [(_ & [=] & _)|[Hne Hj]]. done.
Qed.

Lemma std_insert t fd o : (fd = 0 \/ fd = 1)%nat -> std t -> std (<[fd := Some o]> t).
Proof.
  intros Hfd ((o0 & H0) & (o1 & H1) & i & j & Hij & Hi & Hj).
  assert (exists o', t !! fd = Some (Some o')) as [o' Ho] by (destruct Hfd; subst; eauto).
  assert (forall k x, t !! k = Some x -> exists y, <[fd := Some o]> t !! k = Some y /\ (y = None <-> x = None)) as Hk.
  { intros k x Hx. destruct (decide (k = fd)) as [->|Hne].
    - exists (Some o). rewrite list_lookup_insert_eq by by eapply lookup_lt_Some. split; [done|]. naive_solver.
    - exists x. by rewrite list_lookup_insert_ne. }
  split_and!.
  - destruct (Hk _ _ H0) as ([y|] & E & Hy); [by exists y|]. discriminate (proj1 Hy eq_refl).
  - destruct (Hk _ _ H1) as ([y|] & E & Hy); [by exists y|]. discriminate (proj1 Hy eq_refl).
  - exists i, j. split_and!; [done| |]; [destruct (Hk _ _ Hi) as (y & E & Hy)|destruct (Hk _ _ Hj) as (y & E & Hy)];
      rewrite E; f_equal; by apply Hy.
Qed.

(** [close(fd); open(...)] *)
Lemma redirect t fd o o0 o1 : (fd = 0 \/ fd = 1) -> t !! 0%nat = Some (Some o0) -> t !! 1%nat = Some (Some o1) ->
  fd_alloc o (fd_close fd t) = Some (Z.to_nat fd, <[Z.to_nat fd := Some o]> t).
Proof.
  intros Hfd H0 H1. unfold fd_close. rewrite (fd_alloc_lowest o _ (Z.to_nat fd)).
  - by rewrite list_insert_insert_eq.
  - apply list_lookup_insert_eq. destruct Hfd as [->| ->]; [apply lookup_lt_Some in H0|apply lookup_lt_Some in H1]; done.
  - intros m Hm. exists o0. destruct Hfd as [->| ->]; [cbn in Hm; lia|]. assert (m = 0%nat) as -> by (cbn in Hm; lia).
    by rewrite list_lookup_insert_ne.
Qed.

(** [close(p[0]); close(p[1])] *)
Lemma unplug (t : fdtable) i j x y :
  i <> j -> t !! i = Some None -> t !! j = Some None ->
  fd_close (Z.of_nat j) (fd_close (Z.of_nat i) (<[j := Some y]> (<[i := Some x]> t))) = t.
Proof.
  intros Hij Hi Hj. unfold fd_close. rewrite !Nat2Z.id. rewrite (list_insert_insert_ne _ i j) by done.
  rewrite !list_insert_insert_eq. by rewrite (list_insert_id t i), list_insert_id.
Qed.

(** [close(fd); dup(p[b]); close(p[0]); close(p[1])] *)
Lemma replug t fd i j x y o k :
  (fd = 0 \/ fd = 1) -> std t -> i <> j -> t !! i = Some None -> t !! j = Some None -> (k = i /\ o = x \/ k = j /\ o = y) ->
  fd_close (Z.of_nat j) (fd_close (Z.of_nat i) (fd_dup (Z.of_nat k) (fd_close fd (<[j := Some y]> (<[i := Some x]> t))))) =
  <[Z.to_nat fd := Some o]> t.
Proof.
  intros Hfd ((o0 & H0) & (o1 & H1) & _) Hij Hi Hj Hk.
  assert (i <> 0 /\ i <> 1 /\ j <> 0 /\ j <> 1)%nat as (?&?&?&?) by (split_and!; intros ->; congruence).
  assert (Z.to_nat fd = 0 \/ Z.to_nat fd = 1)%nat as Hn by lia.
  pose proof (lookup_lt_Some _ _ _ Hi) as Hil. pose proof (lookup_lt_Some _ _ _ Hj) as Hjl.
  set (t' := <[j := Some y]> (<[i := Some x]> t)).
  assert (fd_close fd t' !! k = Some (Some o)) as Hlk.
  { unfold fd_close, t'. rewrite list_lookup_insert_ne by lia. destruct Hk as [[-> ->]|[-> ->]].
    - rewrite list_lookup_insert_ne by done. by apply list_lookup_insert_eq.
    - apply list_lookup_insert_eq. by rewrite length_insert. }
  unfold fd_dup. rewrite Nat2Z.id, Hlk. rewrite (redirect t' fd o o0 o1).
  - unfold fd_close. rewrite !Nat2Z.id.
    rewrite (list_insert_insert_ne _ i (Z.to_nat fd)), (list_insert_insert_ne _ j (Z.to_nat fd)) by lia. f_equal.
    pose proof (unplug t i j x y Hij Hi Hj) as Hu. unfold fd_close in Hu. by rewrite !Nat2Z.id in Hu.
  - done.
  - unfold t'. by rewrite !list_lookup_insert_ne by done.
  - unfold t'. by rewrite !list_lookup_insert_ne by done.
Qed.

(** ** The programs to come *)

(** The programs that the process starts if no call fails. *)
Fixpoint pend (c : code) (t : fdtable) : list start :=
  match c with
  | Close fd k => pend k (fd_close fd t)
  | Dup fd k => pend k (fd_dup fd t)
  | Open file mode k =>
      match fd_alloc (Opened file mode) t with Some (i, t') => pend (k (Z.of_nat i)) t' | None => pend (k (-1)) t end
  | Pipe place k =>
      match fd_pipe place t with Some (i, j, t') => pend (k (Some (Z.of_nat i, Z.of_nat j))) t' | None => pend (k None) t end
  | Fork child parent _ => pend child t ++ pend parent t
  | Wait k => pend k t
  | Exec path argv _ => [(path, argv, t)]
  | Print _ k => pend k t
  | Exit _ | Program => []
  end.

(** Every shell waits with a table in [W], calls that fail start no program,
    and descriptors can be had. *)
Fixpoint tame (W : fdtable -> Prop) (c : code) (t : fdtable) : Prop :=
  match c with
  | Close fd k => tame W k (fd_close fd t)
  | Dup fd k => tame W k (fd_dup fd t)
  | Open file mode k => tame W (k (-1)) t /\ pend (k (-1)) t = [] /\
      exists i t', fd_alloc (Opened file mode) t = Some (i, t') /\ tame W (k (Z.of_nat i)) t'
  | Pipe place k => tame W (k None) t /\ pend (k None) t = [] /\
      exists i j t', fd_pipe place t = Some (i, j, t') /\ tame W (k (Some (Z.of_nat i, Z.of_nat j))) t'
  | Fork child parent fail => tame W child t /\ tame W parent t /\ tame W fail t /\ pend fail t = []
  | Wait k => W t /\ tame W k t
  | Exec _ _ k => tame W k t /\ pend k t = []
  | Print _ k => tame W k t
  | Exit _ | Program => True
  end.

Lemma call_tame fails W c t l c' t' : call fails c t l c' t' -> tame W c t -> tame W c' t'.
Proof.
  destruct 1 as [| |file mode k t i t' E| |place k t i j t' E| | | | | |]; cbn; intros Ht; try done; try apply Ht.
  - destruct Ht as (_ & _ & i' & t'' & E' & Ht). rewrite E in E'. by injection E' as <- <-.
  - destruct Ht as (_ & _ & i' & j' & t'' & E' & Ht). rewrite E in E'. by injection E' as <- <- <-.
Qed.

Lemma call_pend fails W c t l c' t' : call fails c t l c' t' -> tame W c t -> l ++ pend c' t' ⊆+ pend c t.
Proof.
  destruct 1 as [| |file mode k t i t' E| |place k t i j t' E| | | | | |]; cbn; intros Ht; try done.
  - by rewrite E.
  - destruct Ht as (_ & -> & _). apply submseteq_nil_l.
  - by rewrite E.
  - destruct Ht as (_ & -> & _). apply submseteq_nil_l.
  - destruct Ht as (_ & _ & _ & ->). apply submseteq_nil_l.
  - destruct Ht as (_ & ->). apply submseteq_nil_l.
Qed.

Lemma call_pend_ok c t l c' t' : call false c t l c' t' -> l ++ pend c' t' = pend c t.
Proof. destruct 1 as [| |file mode k t i t' E| |place k t i j t' E| | | | | |]; cbn; by rewrite ?E. Qed.

(** [runcmd] starts the programs of the command. *)
Lemma runcmd_pend c : forall place t,
  redirs_ok c -> std t -> pend (runcmd place c) t = starts (wiring place c t).
Proof.
  induction c as [argv|c IH file efile mode fd|l IHl r IHr|l IHl r IHr|c IH]; intros place t Hc Ht; cbn [runcmd wiring pend].
  - by destruct argv as [|[a e] argv].
  - destruct Hc as [Hfd Hc]. pose proof Ht as ((o0 & H0) & (o1 & H1) & _). rewrite (redirect t fd _ o0 o1) by done.
    rewrite (proj2 (Z.ltb_ge _ _)) by lia. apply IH; [done|]. apply std_insert; [lia|done].
  - destruct Hc as [Hl Hr]. destruct (fd_pipe_run place t Ht) as (i & j & E & Hij & Hi & Hj). rewrite E. cbn [fork1 pend].
    rewrite (replug t 1 i j _ _ (WriteEnd place) j), (replug t 0 i j _ _ (ReadEnd place) i) by auto.
    unfold fork1. cbn [pend]. rewrite app_nil_r. rewrite IHl, IHr by first [done|apply std_insert; auto].
    unfold starts. cbn. by rewrite omap_app.
  - destruct Hc as [Hl Hr]. unfold fork1. cbn [pend]. rewrite IHl, IHr by done. unfold starts. cbn. by rewrite omap_app.
  - unfold fork1. cbn [pend]. rewrite app_nil_r. by apply IH.
Qed.

Lemma runcmd_tame W c : forall place t,
  redirs_ok c -> std t -> (forall p t', (p, None, t') ∈ wiring place c t -> W t') -> tame W (runcmd place c) t.
Proof.
  induction c as [argv|c IH file efile mode fd|l IHl r IHr|l IHl r IHr|c IH]; intros place t Hc Ht HW;
    unfold fork1, sh_panic; cbn [runcmd wiring tame fork1 sh_panic pend] in *.
  - by destruct argv as [|[a e] argv].
  - destruct Hc as [Hfd Hc]. pose proof Ht as ((o0 & H0) & (o1 & H1) & _). split; [done|]. split; [done|].
    eexists _, _. split; [by apply (redirect t fd _ o0 o1)|]. rewrite (proj2 (Z.ltb_ge _ _)) by lia.
    apply IH; [done|apply std_insert; [lia|done]|done].
  - destruct Hc as [Hl Hr]. destruct (fd_pipe_run place t Ht) as (i & j & E & Hij & Hi & Hj). split; [done|]. split; [done|].
    eexists _, _, _. split; [exact E|]. rewrite (replug t 1 i j _ _ (WriteEnd place) j), (replug t 0 i j _ _ (ReadEnd place) i) by auto.
    rewrite unplug by done. setoid_rewrite elem_of_cons in HW. setoid_rewrite elem_of_app in HW.
    assert (W t) by eauto. split_and!; try done.
    + apply IHl; [done|apply std_insert; auto|eauto].
    + apply IHr; [done|apply std_insert; auto|eauto].
  - destruct Hc as [Hl Hr]. setoid_rewrite elem_of_cons in HW. setoid_rewrite elem_of_app in HW.
    split_and!; try done; [apply IHl; eauto|eauto|apply IHr; eauto].
  - split_and!; try done. by apply IH.
Qed.

(** ** The system *)

(** The programs that the processes start if no call fails. *)
Definition pends (ps : list sproc) : list start := ps ≫= (fun p => pend (s_code p) (s_fds p)).

Lemma pends_insert ps i p :
  ps !! i = Some p -> exists rest, pends ps ≡ₚ pend (s_code p) (s_fds p) ++ rest /\
    forall p', pends (<[i := p']> ps) ≡ₚ pend (s_code p') (s_fds p') ++ rest.
Proof.
  intros Hp. exists (pends (take i ps) ++ pends (drop (S i) ps)).
  assert (forall p', pends (take i ps ++ p' :: drop (S i) ps) ≡ₚ
    pend (s_code p') (s_fds p') ++ pends (take i ps) ++ pends (drop (S i) ps)) as Hsplit.
  { intros p'. unfold pends. rewrite bind_app. cbn [mbind list_bind]. apply Permutation_app_swap_app. }
  split; [by rewrite <- (take_drop_middle ps i p Hp) at 1|].
  intros p'. rewrite insert_take_drop by by eapply lookup_lt_Some. apply Hsplit.
Qed.

Definition all_tame (W : fdtable -> Prop) (ps : list sproc) : Prop := Forall (fun p => tame W (s_code p) (s_fds p)) ps.

Lemma step_tame fails W ps st ps' st' : sh_step fails (ps, st) (ps', st') -> all_tame W ps -> all_tame W ps'.
Proof.
  intros Hs Ht. assert (forall i p, ps !! i = Some p -> tame W (s_code p) (s_fds p)) as Hget.
  { intros i p Hp. by apply (Forall_lookup_1 _ _ _ _ Ht) in Hp. }
  unfold all_tame in *. inversion_clear Hs as [? ? i p l c t Hp Hc|? ? i p a b f Hp Hc|? ? i p k j q x Hp Hc Hq|? ? i p k Hp Hc]; specialize (Hget _ _ Hp).
  - apply Forall_insert; [done|]. by eapply call_tame.
  - rewrite Hc in Hget. destruct Hget as (Ha & Hb & _). rewrite Forall_app, Forall_singleton. split; [by apply Forall_insert|done].
  - rewrite Hc in Hget. apply Forall_insert; [|apply Hget]. apply Forall_insert; [done|]. cbn. by apply (Forall_lookup_1 _ _ _ _ Ht) in Hq.
  - rewrite Hc in Hget. apply Forall_insert; [done|apply Hget].
Qed.

Lemma step_pends fails W ps st ps' st' :
  sh_step fails (ps, st) (ps', st') -> all_tame W ps ->
  exists b, st' ++ pends ps' ≡ₚ st ++ b /\ b ⊆+ pends ps /\ (fails = false -> b ≡ₚ pends ps).
Proof.
  intros Hs Ht.
  assert (forall b, b ≡ₚ pends ps -> b ⊆+ pends ps /\ (fails = false -> b ≡ₚ pends ps)) as Hperm by (intros b ->; done).
  inversion_clear Hs as [? ? i p l c t Hp Hc|? ? i p x y f Hp Hc|? ? i p k j q x Hp Hc Hq Hij Hpar Hx|? ? i p k Hp Hc];
    destruct (pends_insert ps i p Hp) as (rest & E & E').
  - exists (l ++ pend c t ++ rest). split_and!; [by rewrite <- app_assoc, E'| |].
    + rewrite E, app_assoc. apply submseteq_app; [|done]. eapply call_pend; [done|]. by apply (Forall_lookup_1 _ _ _ _ Ht) in Hp.
    + intros ->. by rewrite E, app_assoc, (call_pend_ok _ _ _ _ _ Hc).
  - eexists. split; [done|]. apply Hperm. rewrite E, Hc. unfold pends at 1. rewrite bind_app. fold (pends (<[i := p <| s_code := y |>]> ps)).
    rewrite E'. cbn. solve_Permutation.
  - eexists. split; [done|]. apply Hperm. destruct (pends_insert ps j q Hq) as (rest2 & F & F').
    assert (<[j := q <| s_reaped := true |>]> ps !! i = Some p) as Hp2 by by rewrite list_lookup_insert_ne.
    destruct (pends_insert _ i p Hp2) as (rest3 & G & G'). rewrite G'. cbn. rewrite Hc in G. cbn in G. rewrite <- G, F'. by rewrite F.
  - eexists. split; [done|]. apply Hperm. rewrite E', E, Hc. done.
Qed.

(** A child has a larger index than its parent; the first process is its
    own parent. *)
Definition family (ps : list sproc) : Prop := forall j q, ps !! j = Some q -> (s_parent q <= j)%nat.

Lemma family_insert ps i p p' : ps !! i = Some p -> s_parent p' = s_parent p -> family ps -> family (<[i := p']> ps).
Proof.
  intros Hp Hpar Hf j q Hj. apply list_lookup_insert_Some in Hj as [(<- & <- & _)|[_ Hj]]; [rewrite Hpar|]; by apply Hf.
Qed.

Lemma step_family fails ps st ps' st' : sh_step fails (ps, st) (ps', st') -> family ps -> family ps'.
Proof.
  intros Hs Hf. inversion_clear Hs as [? ? i p l c t Hp Hc|? ? i p x y f Hp Hc|? ? i p k j q x Hp Hc Hq Hij Hpar Hx|? ? i p k Hp Hc].
  - by eapply family_insert.
  - intros j q Hj. apply lookup_app_Some in Hj as [Hj|[Hlen Hj]]; [by eapply (family_insert ps i p) in Hj|].
    apply list_lookup_singleton_Some in Hj as [Hj <-]. cbn. apply lookup_lt_Some in Hp. rewrite length_insert in *. lia.
  - eapply (family_insert _ i p); [by rewrite list_lookup_insert_ne|done|]. by eapply family_insert.
  - by eapply family_insert.
Qed.

Definition exited (p : sproc) : bool := match s_code p with Exit _ => true | _ => false end.

Lemma last_running ps :
  forallb exited ps = false -> exists i p, ps !! i = Some p /\ exited p = false /\ forall j q, (i < j)%nat -> ps !! j = Some q -> exited q = true.
Proof.
  induction ps as [|p ps IH] using rev_ind; [done|]. rewrite forallb_app. cbn [forallb]. rewrite andb_true_r. intros Hall.
  destruct (exited p) eqn:Hp.
  - rewrite andb_true_r in Hall. destruct (IH Hall) as (i & q & Hi & Hq & Hl). exists i, q.
    split_and!; [by apply lookup_app_l_Some|done|]. intros j r Hlt [Hj|[_ Hj]]%lookup_app_Some; [eauto|].
    by apply list_lookup_singleton_Some in Hj as [_ <-].
  - exists (length ps), p. split_and!; [by rewrite list_lookup_middle|done|].
    intros j q Hlt Hj%lookup_lt_Some. rewrite length_app in Hj. cbn in Hj. lia.
Qed.

Lemma find_child (P : nat -> sproc -> bool) (ps : list sproc) :
  (exists j q, ps !! j = Some q /\ P j q = true) \/ forall j q, ps !! j = Some q -> P j q = false.
Proof.
  revert P. induction ps as [|p ps IH]; intros P; [by right|]. destruct (P O p) eqn:E; [left; by exists O, p|].
  destruct (IH (fun j => P (S j))) as [(j & q & ?)|Hno]; [left; by exists (S j), q|right].
  intros [|j] q Hj; [by injection Hj as <-|by apply Hno].
Qed.

(** While a process has not exited, some process can go on, without a failed
    call. *)
Lemma sh_progress fails W ps st :
  all_tame W ps -> family ps -> forallb exited ps = false -> exists s, sh_step fails (ps, st) s.
Proof.
  intros Ht Hf Hall. destruct (last_running ps Hall) as (i & p & Hp & Hx & Hlast).
  pose proof (Forall_lookup_1 _ _ _ _ Ht Hp) as Hti. cbn beta in Hti. unfold exited in Hx.
  destruct (s_code p) as [fd k|fd k|file mode k|place k|a b f|k|path argv k|msg k|status|] eqn:Hc; try done;
    try (eexists; eapply sh_call; [exact Hp|rewrite Hc; first [apply (call_ends _ 0)|constructor]]; fail).
  - destruct Hti as (_ & _ & n & t' & E & _). eexists. eapply sh_call; [exact Hp|]. rewrite Hc. by constructor.
  - destruct Hti as (_ & _ & n & m & t' & E & _). eexists. eapply sh_call; [exact Hp|]. rewrite Hc. by constructor.
  - eexists. by eapply sh_fork.
  - destruct (find_child (fun j q => bool_decide (s_parent q = i) && bool_decide (j <> i) && negb (s_reaped q)) ps) as [(j & q & Hq & Hb)|Hno].
    + rewrite !andb_true_iff, !bool_decide_eq_true, negb_true_iff in Hb. destruct Hb as [[Hpar Hne] Hr].
      specialize (Hf j q Hq). pose proof (Hlast j q ltac:(lia) Hq) as Hex. unfold exited in Hex.
      destruct (s_code q) eqn:Hcq; try done. eexists.
      eapply (sh_wait _ _ _ i p k j q); [done|done|done|congruence|done|exact Hcq|done].
    + eexists. eapply sh_wait_none; [done..|]. intros j q Hq Hpar Hne. specialize (Hno j q Hq).
      rewrite !andb_false_iff, !bool_decide_eq_false, negb_false_iff in Hno. by destruct Hno as [[?|?]|?].
Qed.

Section run.
Context (W : fdtable -> Prop) (fails : bool) (S : list start).

(** What holds of every state: no program but those of [S], and without failed
    calls all of them in the end. *)
Definition sh_inv (s : list sproc * list start) : Prop :=
  all_tame W s.1 /\ family s.1 /\ s.2 ++ pends s.1 ⊆+ S /\ (fails = false -> s.2 ++ pends s.1 ≡ₚ S).

Lemma sh_step_inv s s' : sh_step fails s s' -> sh_inv s -> sh_inv s'.
Proof.
  destruct s as [ps st], s' as [ps' st']. intros Hs (Ht & Hf & Hsub & Hperm). cbn [fst snd] in *.
  destruct (step_pends fails W ps st ps' st' Hs Ht) as (b & Eb & Hb & Hb').
  split_and!; cbn [fst snd]; [by eapply step_tame|by eapply step_family| |].
  - rewrite Eb. etransitivity; [|exact Hsub]. by apply submseteq_app.
  - intros Hok. by rewrite Eb, (Hb' Hok), (Hperm Hok).
Qed.

Lemma sh_reach_inv s s' : rtc (sh_step fails) s s' -> sh_inv s -> sh_inv s'.
Proof. induction 1; eauto using sh_step_inv. Qed.
End run.

(** ** The commands of the parser *)

Fixpoint sredirs_ok (c : scmd) : Prop :=
  match c with
  | SExec _ => True
  | SRedir c _ _ fd => (fd = 0 \/ fd = 1) /\ sredirs_ok c
  | SPipe l r | SList l r => sredirs_ok l /\ sredirs_ok r
  | SBack c => sredirs_ok c
  end.

Lemma g_redirs_ok ts rs : g_redirs ts rs -> Forall (fun r => r.2 = 0 \/ r.2 = 1) rs.
Proof. induction 1 as [|o w r ts rs Ho _ IH]; [done|]. constructor; [|done]. destruct o; simplify_eq/=; auto. Qed.

Lemma sredircmds_ok rs : forall c, sredirs_ok c -> Forall (fun r => r.2 = 0 \/ r.2 = 1) rs -> sredirs_ok (foldl sredircmd c rs).
Proof. induction rs as [|r rs IH]; intros c Hc Hr; [done|]. apply Forall_cons in Hr as [Hr Hrs]. by apply IH. Qed.

Lemma grammar_redirs_ok :
  (forall ts c, g_line ts c -> sredirs_ok c) /\ (forall ts c, g_pipe ts c -> sredirs_ok c) /\ (forall ts c, g_exec ts c -> sredirs_ok c).
Proof.
  assert (forall k c, sredirs_ok c -> sredirs_ok (Nat.iter k SBack c)) as Hback by (intros k c Hc; by induction k).
  assert (forall ts args rs, g_args ts args rs -> Forall (fun r => r.2 = 0 \/ r.2 = 1) rs) as Hargs.
  { induction 1; [done|]. apply Forall_app. eauto using g_redirs_ok. }
  apply g_mutind; intros; cbn; auto; apply sredircmds_ok; try done; eauto using g_redirs_ok.
  apply Forall_app. eauto using g_redirs_ok.
Qed.

Lemma denotes_redirs_ok m c sc : denotes m c sc -> sredirs_ok sc -> redirs_ok c.
Proof. induction 1; cbn; tauto. Qed.

(** ** The descriptors of a program *)

(** How a descriptor of the part at [place] that is not the shell's came
    about: by a redirection, or as the end of a pipe that this part belongs
    to. *)
Definition plugged (place : list bool) (fd : nat) (o : obj) : Prop :=
  match o with
  | Inherited _ => False
  | Opened _ _ => (fd <= 1)%nat
  | ReadEnd pl => fd = 0%nat /\ pl ++ [true] `prefix_of` place
  | WriteEnd pl => fd = 1%nat /\ pl ++ [false] `prefix_of` place
  end.

Lemma wiring_plugged c : forall place t p w t',
  redirs_ok c -> (p, w, t') ∈ wiring place c t ->
  place `prefix_of` p /\ forall fd o, t' !! fd = Some (Some o) -> t !! fd = Some (Some o) \/ plugged p fd o.
Proof.
  assert (forall (place : list bool) b p, place ++ [b] `prefix_of` p -> place `prefix_of` p) as Hpre by (intros pl b p [l ->]; by eexists; rewrite <- app_assoc).
  induction c as [argv|c IH file efile mode fd|l IHl r IHr|l IHl r IHr|c IH]; intros place t p w t' Hc Hin; cbn [wiring] in Hin.
  - destruct argv as [|[a e] argv]; [by apply elem_of_nil in Hin|]. apply list_elem_of_singleton in Hin as [= -> -> ->]. auto.
  - destruct Hc as [Hfd Hc]. destruct (IH _ _ _ _ _ Hc Hin) as [Hp Hd]. split; [done|]. intros n o Hn.
    destruct (Hd n o Hn) as [[(<- & [= <-] & _)|[_ ?]]%list_lookup_insert_Some|?]; [right; cbn; lia|auto|auto].
  - destruct Hc as [Hl Hr]. apply elem_of_cons in Hin as [[= -> -> ->]|[Hin|Hin]%elem_of_app]; [by auto| |].
    + destruct (IHl _ _ _ _ _ Hl Hin) as [Hp Hd]. split; [by eapply Hpre|]. intros n o Hn.
      destruct (Hd n o Hn) as [[(<- & [= <-] & _)|[_ ?]]%list_lookup_insert_Some|?]; [by right|auto|auto].
    + destruct (IHr _ _ _ _ _ Hr Hin) as [Hp Hd]. split; [by eapply Hpre|]. intros n o Hn.
      destruct (Hd n o Hn) as [[(<- & [= <-] & _)|[_ ?]]%list_lookup_insert_Some|?]; [by right|auto|auto].
  - destruct Hc as [Hl Hr]. apply elem_of_cons in Hin as [[= -> -> ->]|[Hin|Hin]%elem_of_app]; [by auto| |].
    + destruct (IHl _ _ _ _ _ Hl Hin) as [Hp Hd]. split; [by eapply Hpre|done].
    + destruct (IHr _ _ _ _ _ Hr Hin) as [Hp Hd]. split; [by eapply Hpre|done].
  - destruct (IH _ _ _ _ _ Hc Hin) as [Hp Hd]. split; [by eapply Hpre|done].
Qed.

(** C8: [runcmd] runs a command that the parser returns: in every interleaving
    of the processes, and whichever calls fail, no program is started but
    those of the command, each at most once, with exactly the descriptors
    that its redirections and pipes say; an end of a pipe is open only in the
    part of the command on its side, as its input or output; a shell waits
    with its own descriptors only; some process can go on until all have
    exited; and if no call fails, all programs of the command have been
    started by then. *)
Theorem runcmd_spec fails ts m c sc t ps st :
  g_line ts sc -> denotes m c sc -> std t ->
  rtc (sh_step fails) ([mksproc (runcmd [] c) t 0 false], []) (ps, st) ->
  st ⊆+ starts (wiring [] c t) /\
  (forall place w t', (place, w, t') ∈ wiring [] c t -> forall fd o, t' !! fd = Some (Some o) -> t !! fd = Some (Some o) \/ plugged place fd o) /\
  (forall p k, p ∈ ps -> s_code p = Wait k -> exists place, (place, None, s_fds p) ∈ wiring [] c t) /\
  (forallb exited ps = false -> exists s, sh_step fails (ps, st) s) /\
  (fails = false -> forallb exited ps = true -> st ≡ₚ starts (wiring [] c t)).
Proof.
  intros Hg Hden Hstd Hrun. pose proof (denotes_redirs_ok m c sc Hden (proj1 grammar_redirs_ok ts sc Hg)) as Hc.
  set (W := fun t' => exists place, (place, None, t') ∈ wiring [] c t).
  destruct (sh_reach_inv W fails (starts (wiring [] c t)) _ _ Hrun) as (Ht & Hf & Hsub & Hperm); cbn [fst snd] in *.
  { unfold sh_inv, pends. cbn [fst snd mbind list_bind s_code s_fds app]. rewrite app_nil_r, runcmd_pend by done.
    split_and!; [|by intros [|j] q Hj; simplify_eq/=|done|done].
    apply Forall_singleton. apply runcmd_tame; [done|done|]. intros p t' Hin. by exists p. }
  split_and!.
  - etransitivity; [|exact Hsub]. by apply submseteq_inserts_r.
  - intros place w t' Hin. by apply (wiring_plugged c [] t place w t').
  - intros p k Hp Hk. unfold all_tame in Ht. rewrite Forall_forall in Ht. specialize (Ht p Hp). rewrite Hk in Ht. apply Ht.
  - intros Hall. by eapply sh_progress.
  - intros Hok Hall. rewrite <- (Hperm Hok). assert (pends ps = []) as ->; [|by rewrite app_nil_r].
    clear -Hall. induction ps as [|p ps IH]; [done|]. cbn in Hall. apply andb_true_iff in Hall as [Hp Hall].
    cbn. fold (pends ps). rewrite (IH Hall), app_nil_r. unfold exited in Hp. by destruct (s_code p).
Qed.
