(* ===== verification/Uprintf.v ===== *)
(** * Formatted output of user programs ([user/printf.c])

    The format is the list of the characters of a string literal; the string
    of [%s] is in the memory of the program. *)

From S2P Require Import Prelude Riscv PhysMem Ulib.

(** The variable arguments: integers of 32 or 64 bits and pointers. *)
Inductive va := VInt (x : Z) | VLong (x : Z) | VStr (s : Z).

(** [digits[i]] *)
Definition digits (i : Z) : Z := if i <? 10 then 48 + i else 65 + (i - 10).

Section printf.
Context `{UserSys}.

Definition putc (fd c : Z) : M user unit := in_world (sys_write fd [u8 c]) ;; ret tt.

(** [buf] with its [i] characters; it has 16 of them. *)
Definition printint (fd xx base : Z) (sgn : bool) : M user unit :=
  let neg := sgn && (xx <? 0) in
  buf <- iter 16 (fun '(buf, x) =>
    let buf := buf ++ [digits (x mod base)] in
    let x := x / base in
    if negb (x =? 0) then continue (buf, x) else leave buf) ([], if neg then u32 (- xx) else u32 xx) ;;
  let buf := if neg then buf ++ [45] else buf in
  for_each (reverse buf) (putc fd).

Definition printptr (fd x : Z) : M user unit :=
  putc fd 48 ;;
  putc fd 120 ;;
  iter 17 (fun '(i, x) =>
    if i <? 16 then putc fd (digits (Z.shiftr x 60)) ;; continue (i + 1, u64 (Z.shiftl x 4))
    else leave tt) (0, x).

(** The loop of [%s]. *)
Definition putstr (fd s : Z) : M user unit :=
  n <- ufuel ;;
  iter n (fun s =>
    c <- uget s ;;
    if ctrue c then putc fd c ;; continue (s + 1) else leave tt) s.

(** The characters [d l x p s c %] are 100, 108, 120, 112, 115, 99, 37;
    [state] is whether the last character was a [%]. A missing or ill-typed
    argument is undefined behaviour. *)
Fixpoint vprintf_loop (fd : Z) (fmt : list Z) (state : bool) (ap : list va) : M user unit :=
  match fmt with
  | [] => ret tt
  | c :: fmt =>
      if negb state then
        if c =? 37 then vprintf_loop fd fmt true ap else putc fd c ;; vprintf_loop fd fmt false ap
      else if c =? 100 then
        match ap with
        | VInt x :: ap => printint fd (s32 x) 10 true ;; vprintf_loop fd fmt false ap
        | _ => undef "vprintf: %d"
        end
      else if c =? 108 then
        match ap with
        | VLong x :: ap => printint fd (s32 x) 10 false ;; vprintf_loop fd fmt false ap
        | _ => undef "vprintf: %l"
        end
      else if c =? 120 then
        match ap with
        | VInt x :: ap => printint fd (s32 x) 16 false ;; vprintf_loop fd fmt false ap
        | _ => undef "vprintf: %x"
        end
      else if c =? 112 then
        match ap with
        | VLong x :: ap => printptr fd (u64 x) ;; vprintf_loop fd fmt false ap
        | _ => undef "vprintf: %p"
        end
      else if c =? 115 then
        match ap with
        | VStr s :: ap =>
            (if s =? 0 then for_each (chars "(null)") (putc fd) else putstr fd s) ;;
            vprintf_loop fd fmt false ap
        | _ => undef "vprintf: %s"
        end
      else if c =? 99 then
        match ap with
        | VInt x :: ap => putc fd x ;; vprintf_loop fd fmt false ap
        | _ => undef "vprintf: %c"
        end
      else if c =? 37 then putc fd c ;; vprintf_loop fd fmt false ap
      else putc fd 37 ;; putc fd c ;; vprintf_loop fd fmt false ap
  end.

Definition vprintf (fd : Z) (fmt : list Z) (ap : list va) : M user unit := vprintf_loop fd fmt false ap.

Definition fprintf (fd : Z) (fmt : list Z) (args : list va) : M user unit := vprintf fd fmt args.

Definition printf (fmt : list Z) (args : list va) : M user unit := vprintf 1 fmt args.

End printf.
