(* ===== verification/UprintfSpec.v ===== *)
(** * What [printf] prints

    Each conversion appends its text to the output of the program and leaves
    its memory alone; the text of a number is read back by [atoi]. *)

From S2P Require Import Prelude Riscv PhysMem Ulib UlibSpec GrepIO Uprintf.

(** ** Numerals *)

(** The digits of [x], the least significant one first. *)
Fixpoint rdigits (n : nat) (base x : Z) : list Z :=
  match n with
  | O => []
  | S n' => digits (x mod base) :: if x / base =? 0 then [] else rdigits n' base (x / base)
  end.

(** The text of a natural number below [base ^ 16]. *)
Definition numeral (base x : Z) : list Z := reverse (rdigits 16 base x).

(** The text of an [int]. *)
Definition dec (x : Z) : list Z := if x <? 0 then 45 :: numeral 10 (- x) else numeral 10 x.

Definition is_digit (c : Z) : Prop := 48 <= c <= 57.

(** The number that the digits [ds] continue [n] to. *)
Definition value (n : Z) (ds : list Z) : Z := foldl (fun v c => v * 10 + (c - 48)) n ds.

Lemma digits_byte i : 0 <= i < 16 -> 0 < digits i < 256.
Proof. intros Hi. unfold digits. destruct (Z.ltb_spec i 10); lia. Qed.

Lemma rdigits_byte n base x : 2 <= base <= 16 -> Forall (fun c => 0 < c < 256) (rdigits n base x).
Proof.
  intros Hb. revert x. induction n as [|n IH]; intros x; cbn; [done|].
  constructor; [apply digits_byte; pose proof (Z.mod_pos_bound x base); lia|]. destruct (_ =? _); [done|apply IH].
Qed.

Lemma numeral_byte base x : 2 <= base <= 16 -> Forall (fun c => 0 < c < 256) (numeral base x).
Proof. intros Hb. apply Forall_reverse. by apply rdigits_byte. Qed.

Lemma dec_byte x : Forall (fun c => 0 < c < 256) (dec x).
Proof. unfold dec. destruct (x <? 0); [constructor; [done|]|]; by apply numeral_byte. Qed.

Lemma rdigits_value n x : 0 <= x < 10 ^ Z.of_nat n -> Forall is_digit (rdigits n 10 x) /\ value 0 (reverse (rdigits n 10 x)) = x.
Proof.
  revert x. induction n as [|n IH]; intros x Hx; cbn [rdigits]; [cbn in *; split; [done|cbn; lia]|].
  pose proof (Z.mod_pos_bound x 10 eq_refl) as Hm. pose proof (Z.div_mod x 10 ltac:(done)) as Hd.
  assert (digits (x mod 10) = 48 + x mod 10) as -> by (unfold digits; destruct (Z.ltb_spec (x mod 10) 10); lia).
  rewrite reverse_cons. unfold value. rewrite foldl_app. cbn [foldl]. destruct (Z.eqb_spec (x / 10) 0) as [E|E].
  - split; [repeat constructor; unfold is_digit; lia|]. cbn. lia.
  - rewrite Nat2Z.inj_succ, Z.pow_succ_r in Hx by lia.
    destruct (IH (x / 10)) as [Hf Hv]; [split; [apply Z.div_pos; lia|apply Z.div_lt_upper_bound; lia]|].
    split; [constructor; [unfold is_digit; lia|done]|]. unfold value in Hv. rewrite Hv. lia.
Qed.

Lemma numeral_value x : 0 <= x < 2 ^ 32 -> Forall is_digit (numeral 10 x) /\ value 0 (numeral 10 x) = x.
Proof.
  intros Hx. destruct (rdigits_value 16 x) as [Hf Hv]; [cbn; lia|]. split; [by apply Forall_reverse|done].
Qed.

Lemma value_mono ds : forall n, Forall is_digit ds -> 0 <= n -> n <= value n ds.
Proof.
  induction ds as [|c ds IH]; intros n Hds Hn; cbn; [lia|]. apply Forall_cons in Hds as [Hc Hds]. unfold is_digit in Hc.
  specialize (IH (n * 10 + (c - 48)) Hds ltac:(lia)). unfold value in IH. lia.
Qed.

(** The [i]-th of the 16 hexadecimal digits of [x]. *)
Definition hex_digit (x : Z) (i : nat) : Z := digits (x / 16 ^ (15 - Z.of_nat i) mod 16).

Definition hex16 (x : Z) : list Z := hex_digit x <$> seq 0 16.

Lemma hex_digit_byte x i : 0 < hex_digit x i < 256.
Proof. apply digits_byte, Z.mod_pos_bound. done. Qed.

(** The digit that the shifts of [printptr] bring to the top. *)
Lemma hex_shift x i : (i < 16)%nat -> digits (Z.shiftr (x * 16 ^ Z.of_nat i mod 2 ^ 64) 60) = hex_digit x i.
Proof.
  intros Hi. unfold hex_digit. f_equal. rewrite Z.shiftr_div_pow2 by lia. set (j := Z.of_nat i). assert (0 <= j < 16) as Hj by lia.
  assert (0 < 16 ^ j) by (apply Z.pow_pos_nonneg; lia). assert (0 < 16 ^ (15 - j)) by (apply Z.pow_pos_nonneg; lia).
  replace (2 ^ 64) with (16 ^ (15 - j) * 16 * 16 ^ j).
  2: { change (2 ^ 64) with (16 ^ 15 * 16). replace 15 with (15 - j + j) at 2 by lia. rewrite Z.pow_add_r by lia. ring. }
  replace (2 ^ 60) with (16 ^ (15 - j) * 16 ^ j) by (rewrite <- Z.pow_add_r by lia; by replace (15 - j + j) with 15 by lia).
  rewrite Z.mul_mod_distr_r, Z.div_mul_cancel_r by lia. rewrite Z.rem_mul_r by lia.
  rewrite Z.mul_comm, Z.div_add by lia. by rewrite Z.div_small by (apply Z.mod_pos_bound; lia).
Qed.

Lemma hex_next x i : u64 (Z.shiftl (x * 16 ^ Z.of_nat i mod 2 ^ 64) 4) = x * 16 ^ Z.of_nat (S i) mod 2 ^ 64.
Proof.
  unfold u64. rewrite Z.shiftl_mul_pow2 by lia. rewrite Z.mul_mod_idemp_l by done. f_equal.
  rewrite Nat2Z.inj_succ, Z.pow_succ_r by lia. change (2 ^ 4) with 16. ring.
Qed.

(** ** Output *)

Section emits.
Context `{UserSys} (fd : Z) `{!FileIO fd}.
Implicit Types (u : user) (cs : list Z).

(** [m] appends [cs] to the output and changes nothing else. *)
Definition emits (m : M user unit) (cs : list Z) (u : user) : Prop :=
  exists w, m u = Ok tt (u <| u_world := w |>) /\ output w = output (u_world u) ++ cs /\ input w = input (u_world u).

Lemma emits_ret u : emits (ret tt) [] u.
Proof. exists (u_world u). rewrite app_nil_r. by destruct u. Qed.

Lemma emits_bind m f cs cs' u : emits m cs u -> (forall w, emits f cs' (u <| u_world := w |>)) -> emits (m ;; f) (cs ++ cs') u.
Proof.
  intros (w & E & Ho & Hi) Hf. destruct (Hf w) as (w' & E' & Ho' & Hi'). exists w'. cbn in *.
  erewrite bind_ok by exact E. rewrite E', Ho', Ho, Hi', Hi, app_assoc. done.
Qed.

Lemma emits_putc c u : 0 <= c < 256 -> emits (putc 1 c) [c] u.
Proof.
  intros Hc. destruct (write_law [c] (u_world u)) as (w & E & Ho & Hi). exists w. split; [|done].
  unfold putc, in_world, bind. rewrite u8_small by done. by rewrite E.
Qed.

Lemma emits_char c u : emits (putc 1 c) [u8 c] u.
Proof. destruct (emits_putc (u8 c) u) as (w & E & Hw); [apply u8_range|]. exists w. split; [|done]. rewrite <- E. unfold putc. by rewrite u8_u8. Qed.

Lemma emits_puts cs : forall u, Forall (fun c => 0 < c < 256) cs -> emits (for_each cs (putc 1)) cs u.
Proof.
  induction cs as [|c cs IH]; intros u Hcs; [apply emits_ret|]. apply Forall_cons in Hcs as [Hc Hcs].
  apply (emits_bind _ _ [c]); [apply emits_putc; lia|]. intros w. by apply IH.
Qed.

Lemma printint_loop base n : forall x buf u,
  2 <= base -> 0 <= x < base ^ Z.of_nat n -> (n <> 0)%nat ->
  iter n (fun '(buf, x) =>
    let buf := buf ++ [digits (x mod base)] in
    let x := x / base in
    if negb (x =? 0) then continue (buf, x) else leave buf) (buf, x) u = Ok (buf ++ rdigits n base x) u.
Proof.
  induction n as [|n IH]; intros x buf u Hb Hx Hn; [done|]. cbn [rdigits].
  destruct (Z.eqb_spec (x / base) 0) as [E|E]; [by apply iter_leave; rewrite E|].
  erewrite iter_continue by by rewrite (proj2 (Z.eqb_neq _ _) E).
  rewrite Nat2Z.inj_succ, Z.pow_succ_r in Hx by lia. rewrite IH; [by rewrite <- app_assoc|done| |].
  - split; [apply Z.div_pos; lia|apply Z.div_lt_upper_bound; lia].
  - intros ->. cbn in Hx. apply E, Z.div_small. lia.
Qed.

(** [%d] *)
Lemma printint_dec x u : - 2 ^ 31 <= x < 2 ^ 31 -> emits (printint 1 x 10 true) (dec x) u.
Proof.
  intros Hx. unfold printint. cbn [andb]. assert (emits (for_each (dec x) (putc 1)) (dec x) u) as (w & Hw) by apply emits_puts, dec_byte.
  exists w. split; [|apply Hw]. rewrite <- (proj1 Hw). unfold dec, numeral. destruct (Z.ltb_spec x 0) as [Hn|Hn]; cbn [andb].
  - erewrite bind_ok by (apply printint_loop; [done|unfold u32; rewrite Z.mod_small; cbn; lia|done]).
    unfold u32. rewrite Z.mod_small by lia. cbn [app]. by rewrite reverse_snoc.
  - erewrite bind_ok by (apply printint_loop; [done|unfold u32; rewrite Z.mod_small; cbn; lia|done]).
    unfold u32. by rewrite Z.mod_small by lia.
Qed.

(** [%l] and [%x] *)
Lemma printint_unsigned base x u : 10 <= base <= 16 -> emits (printint 1 x base false) (numeral base (u32 x)) u.
Proof.
  intros Hb. unfold printint. cbn [andb]. destruct (emits_puts (numeral base (u32 x)) u) as (w & E & Hw); [apply numeral_byte; lia|].
  exists w. split; [|done]. rewrite <- E. erewrite bind_ok; [done|]. apply printint_loop; [lia| |done].
  change (Z.of_nat 16) with 16. pose proof (u32_range x). pose proof (Z.pow_le_mono_l 10 base 16 ltac:(lia)) as Hp. change (10 ^ 16) with 10000000000000000 in Hp. lia.
Qed.

(** [%p] *)
Lemma printptr_run x u : 0 <= x < 2 ^ 64 -> emits (printptr 1 x) (48 :: 120 :: hex16 x) u.
Proof.
  intros Hx. apply (emits_bind _ _ [48]); [by apply emits_putc|]. intros w1. apply (emits_bind _ _ [120]); [by apply emits_putc|].
  intros w2. generalize (u <| u_world := w1 |> <| u_world := w2 |>). clear u w1 w2. intros u.
  assert (forall k i u, (i + k = 16)%nat -> emits (iter (S k) (fun '(i, x) =>
    if i <? 16 then putc 1 (digits (Z.shiftr x 60)) ;; continue (i + 1, u64 (Z.shiftl x 4)) else leave tt)
    (Z.of_nat i, x * 16 ^ Z.of_nat i mod 2 ^ 64)) (hex_digit x <$> seq i k) u) as Hloop.
  { clear u. induction k as [|k IH]; intros i u Hi.
    - destruct (emits_ret u) as (w & E & Hw). exists w. split; [|done]. rewrite <- E. apply iter_leave.
      by rewrite (proj2 (Z.ltb_ge _ _)) by lia.
    - destruct (emits_putc (hex_digit x i) u) as (w & E & Ho & Hin); [pose proof (hex_digit_byte x i); lia|].
      destruct (IH (S i) (u <| u_world := w |>) ltac:(lia)) as (w' & E' & Ho' & Hi').
      exists w'. cbn in Ho', Hi'. rewrite Ho', Hi', Ho, Hin, <- app_assoc. split; [|done].
      etransitivity; [|exact E']. apply iter_continue. rewrite (proj2 (Z.ltb_lt _ _)) by lia.
      rewrite hex_shift, hex_next by lia. erewrite bind_ok by exact E.
      by replace (Z.of_nat i + 1) with (Z.of_nat (S i)) by lia. }
  destruct (Hloop 16%nat O u eq_refl) as (w & E & Hw). exists w. split; [|done]. rewrite <- E. cbn [Z.of_nat].
  by rewrite Z.pow_0_r, Z.mul_1_r, Z.mod_small by done.
Qed.

(** [%s] *)
Lemma putstr_run a s u : string_at (u_mem u) a s -> emits (putstr 1 a) s u.
Proof.
  intros Hs. pose proof (string_at_size _ _ _ Hs) as Hsz. unfold putstr, ufuel.
  assert (forall s n a u, string_at (u_mem u) a s -> (length s < n)%nat ->
    emits (iter n (fun s => c <- uget s ;; if ctrue c then putc 1 c ;; continue (s + 1) else leave tt) a) s u) as Hloop.
  { clear. induction s as [|c s IH]; intros [|n] a u Hs Hn; cbn [length] in Hn; try lia.
    - destruct (emits_ret u) as (w & E & Hw). exists w. split; [|done]. rewrite <- E. apply iter_leave.
      by erewrite bind_ok by by apply uget_string with (s := []).
    - destruct (emits_putc c u) as (w & E & Ho & Hi); [destruct Hs; lia|].
      destruct (IH n (a + 1) (u <| u_world := w |>)) as (w' & E' & Ho' & Hi'); [apply Hs|lia|].
      exists w'. cbn in Ho', Hi'. rewrite Ho', Hi', Ho, Hi, <- app_assoc. split; [|done].
      etransitivity; [|exact E']. apply iter_continue. erewrite bind_ok by by eapply uget_string.
      unfold ctrue. cbn [hd]. destruct (Z.eqb_spec c 0); [destruct Hs; lia|]. cbn. by erewrite bind_ok by exact E. }
  destruct (Hloop s (S (size (u_mem u))) a u) as (w & E & Hw); [done|lia|]. exists w. split; [|done]. by rewrite <- E.
Qed.
End emits.

(** ** Reading a number back *)

Lemma atoi_run `{UserSys} u a ds :
  Forall is_digit ds -> value 0 ds < 2 ^ 31 -> string_at (u_mem u) a ds -> atoi a u = Ok (value 0 ds) u.
Proof.
  intros Hds Hv Hs. pose proof (string_at_size _ _ _ Hs) as Hsz. unfold atoi, ufuel. rewrite bind_gets.
  assert (forall ds k n a, Forall is_digit ds -> 0 <= n -> value n ds < 2 ^ 31 -> string_at (u_mem u) a ds -> (length ds < k)%nat ->
    iter k (fun '(n, s) => c <- uget s ;;
      if (48 <=? c) && (c <=? 57) then continue (s32 (n * 10 + c - 48), s + 1) else leave n) (n, a) u = Ok (value n ds) u) as Hloop.
  { clear. induction ds as [|c ds IH]; intros [|k] n a Hds Hn Hv Hs Hk; cbn [length] in Hk; try lia.
    - apply iter_leave. by erewrite bind_ok by by apply uget_string with (s := []).
    - apply Forall_cons in Hds as [Hc Hds]. unfold is_digit in Hc. unfold value in *. cbn [foldl] in *.
      pose proof (value_mono ds (n * 10 + (c - 48)) Hds ltac:(lia)) as Hmono. unfold value in Hmono.
      rewrite <- (IH k (n * 10 + (c - 48)) (a + 1) Hds); [|lia|done|apply Hs|lia].
      apply iter_continue. erewrite bind_ok by by eapply uget_string. cbn [hd].
      rewrite (proj2 (Z.leb_le 48 c)), (proj2 (Z.leb_le c 57)) by lia. cbn [andb].
      by rewrite s32_small by lia; rewrite Z.add_sub_assoc. }
  apply Hloop; [done|lia|done|done|lia].
Qed.

(** ** The format *)

(** The meaning of an argument. *)
Inductive arg := Int (x : Z) | Long (x : Z) | Str (s : list Z).

Definition means (m : gmap Z Z) (v : va) (a : arg) : Prop :=
  match v, a with
  | VInt x, Int y => x = y /\ - 2 ^ 31 <= x < 2 ^ 31
  | VLong x, Long y => x = y /\ 0 <= x < 2 ^ 64
  | VStr p, Str s => p <> 0 /\ string_at m p s
  | _, _ => False
  end.

(** The text of the argument of the conversion [c]. *)
Definition arg_text (c : Z) (a : arg) : option (list Z) :=
  match a with
  | Int x => if c =? 100 then Some (dec x) else if c =? 120 then Some (numeral 16 (x mod 2 ^ 32))
             else if c =? 99 then Some [x mod 256] else None
  | Long x => if c =? 108 then Some (numeral 10 (x mod 2 ^ 32)) else if c =? 112 then Some (48 :: 120 :: hex16 x) else None
  | Str s => if c =? 115 then Some s else None
  end.

(** The text that a format describes. *)
Fixpoint text (fmt : list Z) (args : list arg) : option (list Z) :=
  match fmt with
  | [] => Some []
  | c :: fmt =>
      if negb (c =? 37) then cons c <$> text fmt args else
      match fmt with
      | [] => Some []
      | c :: fmt =>
          if bool_decide (c ∈ [100; 108; 120; 112; 115; 99]) then
            match args with
            | a :: args => match arg_text c a with Some t => app t <$> text fmt args | None => None end
            | [] => None
            end
          else app (if c =? 37 then [37] else [37; c]) <$> text fmt args
      end
  end.

Lemma chars_byte s : Forall (fun c => 0 <= c < 256) (chars s).
Proof. apply Forall_fmap, Forall_true. intros a. cbn. pose proof (Ascii.N_ascii_bounded a). lia. Qed.

Lemma u32_s32 x : u32 (s32 x) = u32 x.
Proof.
  unfold s32, u32. rewrite Zminus_mod_idemp_l. f_equal. lia.
Qed.

Section format.
Context `{UserSys} (fd : Z) `{!FileIO fd}.

Lemma means_world m ap args (u : user) w : u_mem u = m -> Forall2 (means m) ap args -> Forall2 (means (u_mem (u <| u_world := w |>))) ap args.
Proof. by intros <-. Qed.

(** One conversion with an argument. *)
Lemma conv_run c v a t fmt ap u t' :
  means (u_mem u) v a -> arg_text c a = Some t ->
  (forall w, emits fd (vprintf_loop 1 fmt false ap) t' (u <| u_world := w |>)) ->
  emits fd (vprintf_loop 1 (c :: fmt) true (v :: ap)) (t ++ t') u.
Proof.
  intros Hm Ht Hrest. cbn [vprintf_loop negb].
  destruct v as [x|x|p], a as [y|y|s]; try done; cbn in Hm; destruct Hm as [Hm1 Hm2]; cbn in Ht.
  - subst y. destruct (Z.eqb_spec c 100) as [->|]; [|destruct (Z.eqb_spec c 120) as [->|]; [|destruct (Z.eqb_spec c 99) as [->|]; [|done]]];
      apply (inj Some) in Ht as <-; cbn [Z.eqb Pos.eqb]; (apply emits_bind; [|done]).
    + rewrite s32_small by lia. by apply printint_dec.
    + rewrite s32_small by lia. by apply printint_unsigned.
    + apply emits_char.
  - subst y. destruct (Z.eqb_spec c 108) as [->|]; [|destruct (Z.eqb_spec c 112) as [->|]; [|done]];
      apply (inj Some) in Ht as <-; cbn [Z.eqb Pos.eqb]; (apply emits_bind; [|done]).
    + replace (x mod 2 ^ 32) with (u32 (s32 x)) by apply u32_s32. by apply printint_unsigned.
    + rewrite u64_small by done. by apply printptr_run.
  - destruct (Z.eqb_spec c 115) as [->|]; [|done]. injection Ht as <-. cbn [Z.eqb Pos.eqb].
    rewrite (proj2 (Z.eqb_neq p 0) Hm1). apply emits_bind; [by apply putstr_run|done].
Qed.

Lemma vprintf_run n : forall fmt ap args t u,
  (length fmt < n)%nat -> Forall (fun c => 0 <= c < 256) fmt -> Forall2 (means (u_mem u)) ap args ->
  text fmt args = Some t -> emits fd (vprintf_loop 1 fmt false ap) t u.
Proof.
  induction n as [|n IH]; intros [|c fmt] ap args t u Hn Hf Hm Ht; cbn [length] in Hn; try lia; cbn [text] in Ht.
  { injection Ht as <-. apply emits_ret. }
  apply Forall_cons in Hf as [Hc Hf]. cbn [vprintf_loop negb]. destruct (Z.eqb_spec c 37) as [->|Hne]; cbn [negb] in Ht.
  - destruct fmt as [|c fmt]; [injection Ht as <-; apply emits_ret|]. apply Forall_cons in Hf as [Hc' Hf]. cbn [length] in Hn.
    case_bool_decide as Hin.
    + inversion Hm as [|v a ap' args' Hva Hm']; subst; [done|]. destruct (arg_text c a) as [t1|] eqn:E1; [|done].
      apply fmap_Some in Ht as (t2 & E2 & ->). apply (conv_run c v a); [done|done|].
      intros w. eapply IH; [lia|done|by apply (means_world (u_mem u))|done].
    + apply fmap_Some in Ht as (t2 & E2 & ->). cbn [vprintf_loop negb]. rewrite !not_elem_of_cons in Hin.
      destruct Hin as (?&?&?&?&?&?&_). rewrite !(proj2 (Z.eqb_neq c _)) by done.
      destruct (Z.eqb_spec c 37) as [->|].
      * apply emits_bind; [by apply emits_putc|]. intros w. eapply IH; [lia|done|by apply (means_world (u_mem u))|done].
      * apply (emits_bind _ _ _ [37] (c :: t2)); [by apply emits_putc|]. intros w.
        apply (emits_bind _ _ _ [c]); [by apply emits_putc|]. intros w'. eapply IH; [lia|done|by apply (means_world (u_mem u))|done].
  - apply fmap_Some in Ht as (t2 & E2 & ->). apply (emits_bind _ _ _ [c]); [by apply emits_putc|].
    intros w. eapply IH; [lia|done|by apply (means_world (u_mem u))|done].
Qed.
End format.


(** The text that [printf] prints for an [int] is read back by [atoi], up
    to the sign, which [atoi] does not know. *)
Theorem printf_atoi `{UserSys} fd `{!FileIO fd} x u :
  - 2 ^ 31 < x < 2 ^ 31 ->
  exists t, emits fd (printf (chars "%d") [VInt x]) (if x <? 0 then 45 :: t else t) u /\
    forall u' a, string_at (u_mem u') a t -> atoi a u' = Ok (Z.abs x) u'.
Proof.
  intros Hx. exists (numeral 10 (Z.abs x)). destruct (numeral_value (Z.abs x)) as [Hd Hv]; [lia|]. split.
  - assert (text (chars "%d") [Int x] = Some (dec x)) as Ht.
    { change (app (dec x) <$> Some [] = Some (dec x)). cbn [fmap option_fmap option_map]. by rewrite app_nil_r. }
    replace (if x <? 0 then _ else _) with (dec x).
    + apply (vprintf_run fd 3 _ _ [Int x]); [cbn; lia|apply chars_byte|repeat constructor; lia|exact Ht].
    + unfold dec. destruct (Z.ltb_spec x 0); [by rewrite Z.abs_neq by lia|by rewrite Z.abs_eq by lia].
  - intros u' a Hs. rewrite (atoi_run u' a _ Hd); [by rewrite Hv|lia|done].
Qed.
