(* ===== verification/Wc.v ===== *)
(** * [wc] and [cat] ([user/wc.c], [user/cat.c])

    Both read a file in pieces of at most 512 bytes into a static array. *)

From S2P Require Import Prelude Riscv PhysMem Ulib Uprintf.

Section utilities.
Context `{UserSys}.

(** The end of the program; no program exits with another status. *)
Definition exit {A} (status : Z) : M user A := panic (if status =? 0 then "exit(0)" else "exit(1)").

(** ** [user/cat.c] *)

(** [buf] is the address of the array, [fuel] bounds the number of reads. *)
Definition cat (fuel : nat) (buf fd : Z) : M user unit :=
  n <- iter fuel (fun _ =>
    n <- read fd buf 512 ;;
    if negb (0 <? n) then leave n else
    r <- write 1 buf n ;;
    if negb (r =? n) then fprintf 2 (chars "cat: write error" ++ [10]) [] ;; exit 1
    else continue tt) tt ;;
  if n <? 0 then fprintf 2 (chars "cat: read error" ++ [10]) [] ;; exit 1 else ret tt.

(** ** [user/wc.c] *)

(** The counters of a file. *)
Record counts := mkcounts { wc_l : Z; wc_w : Z; wc_c : Z; wc_inword : bool }.

(** An [int] is incremented; signed overflow is undefined behaviour. *)
Definition incr (x : Z) : M user Z := if x =? 2 ^ 31 - 1 then undef "int overflow" else ret (x + 1).

(** The space, [\r], [\t], [\n] and [\v] that [strchr] looks for. *)
Definition is_space (c : Z) : bool := bool_decide (c ∈ [32; 13; 9; 10; 11]).

(** The body of the [for] loop for the character [b]. *)
Definition wc_char (k : counts) (b : Z) : M user counts :=
  c <- incr (wc_c k) ;;
  l <- (if b =? 10 then incr (wc_l k) else ret (wc_l k)) ;;
  if is_space b then ret (mkcounts l (wc_w k) c false)
  else if negb (wc_inword k) then w <- incr (wc_w k) ;; ret (mkcounts l w c true)
  else ret (mkcounts l (wc_w k) c true).

Definition wc_piece (buf n : Z) (k : counts) : M user counts :=
  iter (S (Z.to_nat n)) (fun '(i, k) =>
    if negb (i <? n) then leave k else
    b <- uget (buf + i) ;;
    k <- wc_char k b ;;
    continue (i + 1, k)) (0, k).

Definition wc (fuel : nat) (buf fd name : Z) : M user unit :=
  r <- iter fuel (fun k =>
    n <- read fd buf 512 ;;
    if negb (0 <? n) then leave (n, k) else
    k <- wc_piece buf n k ;;
    continue k) (mkcounts 0 0 0 false) ;;
  let (n, k) := r in
  if n <? 0 then printf (chars "wc: read error" ++ [10]) [] ;; exit 1 else
  printf (chars "%d %d %d %s" ++ [10]) [VInt (wc_l k); VInt (wc_w k); VInt (wc_c k); VStr name].

End utilities.
