(* ===== verification/WcSpec.v ===== *)
(** * What [wc] and [cat] do with a file

    The results do not depend on the pieces in which [read] returns the
    file. *)

From S2P Require Import Prelude Riscv PhysMem Ulib UlibSpec GrepIO Uprintf UprintfSpec Wc.

(** ** Words *)

(** The text between the separators. *)
Fixpoint fields (l : list Z) : list (list Z) :=
  match l with
  | [] => [[]]
  | c :: l => if is_space c then [] :: fields l
              else match fields l with f :: fs => (c :: f) :: fs | [] => [[c]] end
  end.

Definition words (l : list Z) : list (list Z) := filter (fun f => f <> []) (fields l).

Definition lines (l : list Z) : Z := Z.of_nat (length (filter (fun c => c = 10) l)).

(** What the loop of [wc] adds for the text [l]: the words, but for the one it
    is in. *)
Definition new_words (inword : bool) (l : list Z) : nat :=
  if inword then length (filter (fun f => f <> []) (tail (fields l))) else length (words l).

Lemma fields_cons l : exists f fs, fields l = f :: fs.
Proof. destruct l as [|c l]; cbn; [eauto|]. destruct (is_space c); [eauto|]. destruct (fields l); eauto. Qed.

Lemma new_words_nil inword : new_words inword [] = 0%nat.
Proof. by destruct inword. Qed.

Lemma new_words_space inword c l : is_space c = true -> new_words inword (c :: l) = new_words false l.
Proof. intros Hc. unfold new_words, words. cbn. rewrite Hc. by destruct inword. Qed.

Lemma new_words_char inword c l : is_space c = false -> new_words inword (c :: l) = ((if inword then 0 else 1) + new_words true l)%nat.
Proof.
  intros Hc. unfold new_words, words. cbn [fields]. rewrite Hc. destruct (fields_cons l) as (f & fs & ->).
  destruct inword; [done|]. rewrite filter_cons_True by done. done.
Qed.

(** The counters after the text [l]. *)
Definition counted (k : counts) (l : list Z) (k' : counts) : Prop :=
  wc_l k' = wc_l k + lines l /\ wc_w k' = wc_w k + Z.of_nat (new_words (wc_inword k) l) /\
  wc_c k' = wc_c k + Z.of_nat (length l) /\ forall l', new_words (wc_inword k) (l ++ l') = (new_words (wc_inword k) l + new_words (wc_inword k') l')%nat.

(** The counters are in range: no more lines and words than characters. *)
Definition small (k : counts) : Prop := 0 <= wc_l k <= wc_c k /\ 0 <= wc_w k <= wc_c k.

Section wc.
Context `{UserSys} (fd : Z) `{!FileIO fd}.
Implicit Types (u : user) (k : counts).

Lemma incr_run x u : x < 2 ^ 31 - 1 -> incr x u = Ok (x + 1) u.
Proof. intros Hx. unfold incr. by rewrite (proj2 (Z.eqb_neq _ _)) by lia. Qed.

Lemma wc_char_run k b u :
  small k -> wc_c k < 2 ^ 31 - 1 -> exists k', wc_char k b u = Ok k' u /\ small k' /\ counted k [b] k'.
Proof.
  intros [Hl Hw] Hc. unfold wc_char. erewrite bind_ok by by apply incr_run.
  set (l := if b =? 10 then wc_l k + 1 else wc_l k).
  erewrite (bind_ok _ _ _ l). 2: { unfold l. destruct (b =? 10); [apply incr_run; lia|done]. }
  assert (l = wc_l k + lines [b]) as Hlb.
  { unfold l, lines. destruct (Z.eqb_spec b 10); [rewrite filter_cons_True by done|rewrite filter_cons_False by done]; cbn; lia. }
  assert (wc_l k <= l <= wc_l k + 1) as Hle by (unfold l; destruct (b =? 10); lia).
  unfold counted, small. destruct (is_space b) eqn:Hb; [|destruct (wc_inword k) eqn:Hi; cbn [negb]].
  - eexists. split; [done|]. cbn [wc_l wc_w wc_c wc_inword app length]. rewrite new_words_space, new_words_nil by done.
    split_and!; try lia. intros l'. by rewrite new_words_space.
  - eexists. split; [done|]. cbn [wc_l wc_w wc_c wc_inword app length]. rewrite new_words_char, new_words_nil by done.
    split_and!; try lia. intros l'. by rewrite new_words_char.
  - erewrite bind_ok by (apply incr_run; lia). eexists. split; [done|]. cbn [wc_l wc_w wc_c wc_inword app length].
    rewrite new_words_char, new_words_nil by done. split_and!; try lia. intros l'. by rewrite new_words_char.
Qed.

Lemma counted_nil k : counted k [] k.
Proof. unfold counted, lines. rewrite new_words_nil. split_and!; [cbn; lia..|]. by intros l'. Qed.

Lemma counted_app k1 k2 k3 l l' : counted k1 l k2 -> counted k2 l' k3 -> counted k1 (l ++ l') k3.
Proof.
  intros (Hl & Hw & Hc & Hn) (Hl' & Hw' & Hc' & Hn'). unfold counted, lines in *.
  rewrite filter_app, !length_app, Hn. split_and!; [lia|lia|lia|].
  intros l''. rewrite <- app_assoc, !Hn, Hn'. lia.
Qed.

Lemma wc_piece_run bs buf u k :
  bytes_at (u_mem u) buf bs -> Forall (fun b => 0 <= b < 256) bs -> small k -> wc_c k + Z.of_nat (length bs) < 2 ^ 31 ->
  exists k', wc_piece buf (Z.of_nat (length bs)) k u = Ok k' u /\ small k' /\ counted k bs k'.
Proof.
  intros Hm Hb Hk Hc. unfold wc_piece. rewrite Nat2Z.id.
  assert (forall done_ todo k, bs = done_ ++ todo -> small k -> wc_c k + Z.of_nat (length todo) < 2 ^ 31 ->
    exists k', iter (S (length todo)) (fun '(i, k) =>
      if negb (i <? Z.of_nat (length bs)) then leave k else
      b <- uget (buf + i) ;; k <- wc_char k b ;; continue (i + 1, k)) (Z.of_nat (length done_), k) u = Ok k' u /\
      small k' /\ counted k todo k') as Hloop; [|by apply (Hloop [])].
  clear k Hk Hc. intros done_ todo. revert done_. induction todo as [|b todo IH]; intros done_ k E Hk Hc.
  - exists k. split; [|split; [done|apply counted_nil]]. apply iter_leave. rewrite E, app_nil_r. by rewrite Z.ltb_irrefl.
  - destruct (wc_char_run k b u Hk) as (k1 & E1 & Hk1 & Hc1); [cbn in Hc; lia|].
    destruct (IH (done_ ++ [b]) k1) as (k2 & E2 & Hk2 & Hc2); [by rewrite <- app_assoc|done| |].
    { destruct Hc1 as (_ & _ & -> & _). cbn in *. lia. }
    exists k2. split; [|split; [done|by apply (counted_app _ k1 _ [b])]]. rewrite <- E2.
    assert (bs !! length done_ = Some b) as Hlk by (rewrite E; by apply list_lookup_middle).
    cbn [length]. rewrite length_app, Nat2Z.inj_add. apply iter_continue.
    rewrite (proj2 (Z.ltb_lt _ _)) by (rewrite E, length_app; cbn; lia). cbn [negb].
    erewrite bind_ok by (apply uget_byte; [by apply Hm|by eapply (Forall_lookup_1 _ _ _ _ Hb)]). by erewrite bind_ok by exact E1.
Qed.

(** ** Reading the file *)

Context (buf : Z).

(** The array of 512 bytes. *)
Definition array (u : user) : Prop := forall j, 0 <= j < 512 -> is_Some (u_mem u !! (buf + j)).

(** Memory outside the array. *)
Definition rest_same (m m' : gmap Z Z) : Prop := forall x, ~ buf <= x < buf + 512 -> m' !! x = m !! x.

(** One [read] into the array. *)
Lemma piece_run u :
  array u -> Forall (fun b => 0 <= b < 256) (input (u_world u)) ->
  exists bs u', read fd buf 512 u = Ok (Z.of_nat (length bs)) u' /\ array u' /\ bytes_at (u_mem u') buf bs /\
    Forall (fun b => 0 <= b < 256) bs /\ rest_same (u_mem u) (u_mem u') /\ output (u_world u') = output (u_world u) /\
    input (u_world u) = bs ++ input (u_world u') /\ (bs = [] -> input (u_world u) = []).
Proof.
  intros Ha Hin. destruct (read_run fd buf 512 u Ha Hin) as (bs & m & w & E & Hm & Hout & Hb & Ei & Eo & Hn & H0).
  exists bs, (u <| u_world := w |> <| u_mem := m |>). cbn. split_and!; [done| |done|done| |done|done|].
  - intros j Hj. cbn. destruct (decide (j < Z.of_nat (length bs))) as [Hlt|Hge].
    + destruct (lookup_lt_is_Some_2 bs (Z.to_nat j)) as [b Eb]; [lia|]. apply Hm in Eb. rewrite Z2Nat.id in Eb by lia. eauto.
    + rewrite Hout by lia. by apply Ha.
  - intros x Hx. apply Hout. lia.
  - intros Hnil. destruct (H0 Hnil); [lia|done].
Qed.

Lemma wc_loop n : forall k u,
  array u -> Forall (fun b => 0 <= b < 256) (input (u_world u)) -> small k ->
  wc_c k + Z.of_nat (length (input (u_world u))) < 2 ^ 31 -> (length (input (u_world u)) < n)%nat ->
  exists k' u', iter n (fun k => n <- read fd buf 512 ;; if negb (0 <? n) then leave (n, k) else
      k <- wc_piece buf n k ;; continue k) k u = Ok (0, k') u' /\
    small k' /\ counted k (input (u_world u)) k' /\ rest_same (u_mem u) (u_mem u') /\ output (u_world u') = output (u_world u).
Proof.
  induction n as [|n IH]; intros k u Ha Hin Hk Hc Hn; [lia|].
  destruct (piece_run u Ha Hin) as (bs & u1 & E1 & Ha1 & Hm1 & Hb1 & Hr1 & Ho1 & Ei & Hnil). destruct (decide (bs = [])) as [->|Hne].
  - exists k, u1. rewrite (Hnil eq_refl). split_and!; [|done|apply counted_nil|done|done].
    apply iter_leave. by erewrite bind_ok by exact E1.
  - assert (0 < length bs)%nat as Hpos by (destruct bs; [done|cbn; lia]). rewrite Ei, length_app in Hn, Hc. rewrite Ei in Hin.
    apply Forall_app in Hin as [_ Hin1].
    destruct (wc_piece_run bs buf u1 k Hm1 Hb1 Hk) as (k1 & E2 & Hk1 & Hc1); [lia|].
    destruct (IH k1 u1) as (k2 & u2 & E3 & Hk2 & Hc2 & Hr2 & Ho2); [done..| |lia|].
    { destruct Hc1 as (_ & _ & -> & _). lia. }
    exists k2, u2. split_and!; [|done|rewrite Ei; by eapply counted_app| |congruence].
    + rewrite <- E3. apply iter_continue. erewrite bind_ok by exact E1. rewrite (proj2 (Z.ltb_lt _ _)) by lia. cbn [negb].
      by erewrite bind_ok by exact E2.
    + intros x Hx. by rewrite Hr2, Hr1.
Qed.

(** The line that [wc] prints. *)
Definition wc_line (l : list Z) (name : list Z) : list Z :=
  dec (lines l) ++ 32 :: dec (Z.of_nat (length (words l))) ++ 32 :: dec (Z.of_nat (length l)) ++ 32 :: name ++ [10].

Lemma wc_text a b c s :
  text (chars "%d %d %d %s" ++ [10]) [Int a; Int b; Int c; Str s] =
  Some (dec a ++ 32 :: dec b ++ 32 :: dec c ++ 32 :: s ++ [10]).
Proof. reflexivity. Qed.

(** C35: [wc] prints the numbers of newlines, of words (maximal sequences of
    characters that are no space) and of bytes of its file, and its name,
    whatever pieces [read] returns; the file has less than 2^31 bytes. *)
Theorem wc_spec fuel name s u :
  array u -> Forall (fun b => 0 <= b < 256) (input (u_world u)) ->
  string_at (u_mem u) name s -> name <> 0 -> name + Z.of_nat (length s) < buf \/ buf + 512 <= name ->
  Z.of_nat (length (input (u_world u))) < 2 ^ 31 -> (length (input (u_world u)) < fuel)%nat ->
  exists u', wc fuel buf fd name u = Ok tt u' /\ output (u_world u') = output (u_world u) ++ wc_line (input (u_world u)) s.
Proof.
  intros Ha Hin Hs Hn0 Hout Hlen Hf.
  destruct (wc_loop fuel (mkcounts 0 0 0 false) u) as (k & u1 & E & [Hkl Hkw] & (Hl & Hw & Hc & _) & Hr & Ho); [done..|by cbn|done|done|].
  cbn in Hl, Hw, Hc.
  destruct (vprintf_run fd 20 (chars "%d %d %d %s" ++ [10]) [VInt (wc_l k); VInt (wc_w k); VInt (wc_c k); VStr name]
    [Int (wc_l k); Int (wc_w k); Int (wc_c k); Str s] (wc_line (input (u_world u)) s) u1) as (w & E2 & Ho2 & _).
  - cbn. lia.
  - apply Forall_app. split; [apply chars_byte|by repeat constructor].
  - repeat (apply Forall2_cons; split); [cbn; lia|cbn; lia|cbn; lia| |by apply Forall2_nil].
    split; [done|]. eapply string_at_ext; [|exact Hs]. intros x Hx. apply Hr. lia.
  - rewrite Hl, Hw, Hc. apply wc_text.
  - exists (u1 <| u_world := w |>). split; [|cbn; by rewrite Ho2, Ho]. unfold wc. by erewrite bind_ok by exact E.
Qed.

(** [cat] copies its file to the output. *)
Lemma cat_run fuel u :
  array u -> Forall (fun b => 0 <= b < 256) (input (u_world u)) -> (length (input (u_world u)) < fuel)%nat ->
  exists u', cat fuel buf fd u = Ok tt u' /\ output (u_world u') = output (u_world u) ++ input (u_world u).
Proof.
  intros Ha Hin Hn. cut (exists u', iter fuel (fun _ => n <- read fd buf 512 ;; if negb (0 <? n) then leave n else
      r <- write 1 buf n ;; if negb (r =? n) then fprintf 2 (chars "cat: write error" ++ [10]) [] ;; exit 1 else continue tt) tt u = Ok 0 u' /\
    output (u_world u') = output (u_world u) ++ input (u_world u)).
  { intros (u' & E & Ho). exists u'. split; [|done]. unfold cat. by erewrite bind_ok by exact E. }
  revert u Ha Hin Hn. induction fuel as [|n IH]; intros u Ha Hin Hn; [lia|].
  destruct (piece_run u Ha Hin) as (bs & u1 & E1 & Ha1 & Hm1 & Hb1 & Hr1 & Ho1 & Ei & Hnil). destruct (decide (bs = [])) as [->|Hne].
  - exists u1. rewrite (Hnil eq_refl), app_nil_r. split; [|done]. apply iter_leave. by erewrite bind_ok by exact E1.
  - assert (0 < length bs)%nat as Hpos by (destruct bs; [done|cbn; lia]). rewrite Ei, length_app in Hn. rewrite Ei in Hin.
    apply Forall_app in Hin as [_ Hin1].
    destruct (write_run fd buf _ bs u1 Hm1 Hb1 eq_refl) as (w & E2 & Ho2 & Hi2).
    destruct (IH (u1 <| u_world := w |>)) as (u2 & E3 & Ho3); [done|cbn; by rewrite Hi2|cbn; rewrite Hi2; lia|].
    exists u2. split; [|rewrite Ho3; cbn; by rewrite Ho2, Hi2, Ho1, Ei, <- app_assoc].
    rewrite <- E3. apply iter_continue. erewrite bind_ok by exact E1. rewrite (proj2 (Z.ltb_lt _ _)) by lia. cbn [negb].
    erewrite bind_ok by exact E2. by rewrite Z.eqb_refl.
Qed.
End wc.
