(* ===== verification/Umain.v ===== *)
(** * The [main] functions of the small programs, and [ls]

    ([user/cat.c], [user/wc.c], [user/grep.c], [user/echo.c], [user/kill.c],
    [user/ln.c], [user/mkdir.c], [user/rm.c], [user/ls.c]). [argv] is the list
    of the addresses of the arguments; a program ends in a call of [exit]. The
    results are about programs that only use their streams: [cat], [grep] and
    [echo]; and about [fmtname] of [ls]. *)

From S2P Require Import Prelude Riscv PhysMem Fs Ulib UlibSpec Grep GrepSpec GrepIO Uprintf UprintfSpec Wc WcSpec.

(** Four more system calls; each returns an [int]. *)
Class FileCalls `{UserSys} := {
  sys_link : list Z -> list Z -> world -> Z * world;
  sys_unlink : list Z -> world -> Z * world;
  sys_mkdir : list Z -> world -> Z * world;
  sys_kill : Z -> world -> Z * world
}.

Section mains.
Context `{UserSys}.

(** A path, as the kernel fetches it. *)
Definition upath (name : Z) : M user (list Z) := n <- strlen name ;; uget_bytes (Z.to_nat n) name.

(** [open(name, O_RDONLY)] and [close(fd)] *)
Definition open (name : Z) : M user Z := path <- upath name ;; in_world (sys_open path 0).

Definition close (fd : Z) : M user unit := in_world (fun w => (tt, sys_close fd w)).

(** [fuel] bounds the number of reads of a file; [buf] is the array. *)
Definition cat_main (fuel : nat) (buf : Z) (argv : list Z) : M user unit :=
  if Z.of_nat (length argv) <=? 1 then cat fuel buf 0 ;; exit 0 else
  for_each (drop 1 argv) (fun arg =>
    fd <- open arg ;;
    if fd <? 0 then fprintf 2 (chars "cat: cannot open %s" ++ [10]) [VStr arg] ;; exit 1 else
    cat fuel buf fd ;;
    close fd) ;;
  exit 0.

(** [empty] is the address of the string literal for the name of the
    standard input. *)
Definition wc_main (fuel : nat) (buf empty : Z) (argv : list Z) : M user unit :=
  if Z.of_nat (length argv) <=? 1 then wc fuel buf 0 empty ;; exit 0 else
  for_each (drop 1 argv) (fun arg =>
    fd <- open arg ;;
    if fd <? 0 then printf (chars "wc: cannot open %s" ++ [10]) [VStr arg] ;; exit 1 else
    wc fuel buf fd arg ;;
    close fd) ;;
  exit 0.

Definition grep_main (fuel : nat) (buf : Z) (argv : list Z) : M user unit :=
  if Z.of_nat (length argv) <=? 1 then fprintf 2 (chars "usage: grep pattern [file ...]" ++ [10]) [] ;; exit 1 else
  let pattern := default 0 (argv !! 1%nat) in
  if Z.of_nat (length argv) <=? 2 then grep fuel buf pattern 0 ;; exit 0 else
  for_each (drop 2 argv) (fun arg =>
    fd <- open arg ;;
    if fd <? 0 then printf (chars "grep: cannot open %s" ++ [10]) [VStr arg] ;; exit 1 else
    grep fuel buf pattern fd ;;
    close fd) ;;
  exit 0.

(** ** [user/echo.c] *)

Fixpoint echo_args (args : list Z) : M user unit :=
  match args with
  | [] => ret tt
  | arg :: args =>
      n <- strlen arg ;;
      write 1 arg (s32 n) ;;
      in_world (sys_write 1 (match args with [] => [10] | _ => [32] end)) ;;
      echo_args args
  end.

Definition echo_main (argv : list Z) : M user unit := echo_args (drop 1 argv) ;; exit 0.

(** ** [user/kill.c], [user/ln.c], [user/mkdir.c], [user/rm.c] *)

Context `{!FileCalls}.

Definition kill_main (argv : list Z) : M user unit :=
  if Z.of_nat (length argv) <? 2 then fprintf 2 (chars "usage: kill pid..." ++ [10]) [] ;; exit 1 else
  for_each (drop 1 argv) (fun arg => pid <- atoi arg ;; in_world (sys_kill pid) ;; ret tt) ;;
  exit 0.

Definition ln_main (argv : list Z) : M user unit :=
  match argv with
  | [_; old; new] =>
      p <- upath old ;;
      q <- upath new ;;
      r <- in_world (sys_link p q) ;;
      when (r <? 0) (fprintf 2 (chars "link %s %s: failed" ++ [10]) [VStr old; VStr new]) ;;
      exit 0
  | _ => fprintf 2 (chars "Usage: ln old new" ++ [10]) [] ;; exit 1
  end.

(** The [break] of the loop. *)
Definition mkdir_main (argv : list Z) : M user unit :=
  if Z.of_nat (length argv) <? 2 then fprintf 2 (chars "Usage: mkdir files..." ++ [10]) [] ;; exit 1 else
  scan (drop 1 argv) (fun arg =>
    p <- upath arg ;;
    r <- in_world (sys_mkdir p) ;;
    if r <? 0 then fprintf 2 (chars "mkdir: %s failed to create" ++ [10]) [VStr arg] ;; ret (Some tt) else ret None) ;;
  exit 0.

Definition rm_main (argv : list Z) : M user unit :=
  if Z.of_nat (length argv) <? 2 then fprintf 2 (chars "Usage: rm files..." ++ [10]) [] ;; exit 1 else
  scan (drop 1 argv) (fun arg =>
    p <- upath arg ;;
    r <- in_world (sys_unlink p) ;;
    if r <? 0 then fprintf 2 (chars "rm: %s failed to delete" ++ [10]) [VStr arg] ;; ret (Some tt) else ret None) ;;
  exit 0.
End mains.

(** ** [user/ls.c] *)

Section ls.
Context `{UserSys}.

(** The addresses of the static array of [fmtname], of the local variables
    [buf], [de] and [st] of [ls], and of the string ["."]. *)
Variables (fmtbuf buf de st dot : Z).

Definition fmtname (path : Z) : M user Z :=
  n <- strlen path ;;
  p <- iter (S (S (Z.to_nat n))) (fun p =>
    if p <? path then leave p else
    c <- uget p ;;
    if c =? 47 then leave p else continue (p - 1)) (path + n) ;;
  let p := p + 1 in
  n <- strlen p ;;
  if DIRSIZ <=? n then ret p else
  n <- strlen p ;;
  memmove fmtbuf p n ;;
  n <- strlen p ;;
  m <- strlen p ;;
  memset (fmtbuf + n) 32 (DIRSIZ - m) ;;
  ret fmtbuf.

(** The fields [type], [ino] and [size] of [st]. *)
Definition stat_args : M user (Z * Z * Z) :=
  type <- uload 2 (st + 8) ;;
  ino <- uload 4 (st + 4) ;;
  size <- uload 8 (st + 16) ;;
  ret (s16 type, ino, size).

(** [fuel] bounds the number of entries of a directory. *)
Definition ls (fuel : nat) (path : Z) : M user unit :=
  fd <- open path ;;
  if fd <? 0 then fprintf 2 (chars "ls: cannot open %s" ++ [10]) [VStr path] else
  r <- in_world (sys_fstat fd) ;;
  match r with
  | None => fprintf 2 (chars "ls: cannot stat %s" ++ [10]) [VStr path] ;; close fd
  | Some bs =>
      uput_bytes st bs ;;
      s <- stat_args ;;
      let '(type, ino, size) := s in
      (if (type =? T_DEVICE) || (type =? T_FILE) then
         name <- fmtname path ;;
         printf (chars "%s %d %d %l" ++ [10]) [VStr name; VInt type; VInt ino; VLong size]
       else if type =? T_DIR then
         n <- strlen path ;;
         if 512 <? n + 1 + DIRSIZ + 1 then printf (chars "ls: path too long" ++ [10]) [] else
         strcpy buf path ;;
         n <- strlen buf ;;
         uput (buf + n) 47 ;;
         let p := buf + n + 1 in
         iter fuel (fun _ =>
           r <- read fd de 16 ;;
           if negb (r =? 16) then leave tt else
           inum <- uload 2 de ;;
           if inum =? 0 then continue tt else
           memmove p (de + 2) DIRSIZ ;;
           uput (p + DIRSIZ) 0 ;;
           name <- upath buf ;;
           r <- stat name st ;;
           if r <? 0 then printf (chars "ls: cannot stat %s" ++ [10]) [VStr buf] ;; continue tt else
           name <- fmtname buf ;;
           s <- stat_args ;;
           let '(type, ino, size) := s in
           printf (chars "%s %d %d %d" ++ [10]) [VStr name; VInt type; VInt ino; VInt size] ;;
           continue tt) tt
       else ret tt) ;;
      close fd
  end.

Definition ls_main (fuel : nat) (argv : list Z) : M user unit :=
  if Z.of_nat (length argv) <? 2 then ls fuel dot ;; exit 0 else
  for_each (drop 1 argv) (ls fuel) ;;
  exit 0.
End ls.

(** ** The standard input *)

Section stdin.
Context `{UserSys} `{!FileIO 0}.
Implicit Types u : user.

(** [cat] without arguments copies its input. *)
Lemma cat_main_stdin fuel buf name u :
  array buf u -> Forall (fun b => 0 <= b < 256) (input (u_world u)) -> (length (input (u_world u)) < fuel)%nat ->
  exists u', cat_main fuel buf [name] u = Panic "exit(0)" u' /\ output (u_world u') = output (u_world u) ++ input (u_world u).
Proof.
  intros Ha Hin Hf. destruct (cat_run 0 buf fuel u Ha Hin Hf) as (u' & E & Ho). exists u'. split; [|done].
  unfold cat_main. change (Z.of_nat (length [name]) <=? 1) with true. cbv iota. by erewrite bind_ok by exact E.
Qed.

(** [grep] with a pattern alone prints the matching lines of its input. *)
Lemma grep_main_stdin fuel buf name pat P u A ls rest :
  0 < buf -> pat + Z.of_nat (length P) < buf \/ buf + 1024 <= pat ->
  buffer buf pat P A u -> input (u_world u) = unlines ls ++ rest -> Forall line_ok ls -> line_ok rest ->
  Forall (fun l => length l <= 1022)%nat ls -> (length rest <= 1023)%nat -> (length (input (u_world u)) < fuel)%nat ->
  exists u', grep_main fuel buf [name; pat] u = Panic "exit(0)" u' /\
    output (u_world u') = output (u_world u) ++ unlines (filter (selects P) ls).
Proof.
  intros Hb Hp HA E Hls Hr Hll Hrl Hf.
  destruct (grep_run 0 buf pat P Hb Hp u A ls rest fuel) as (u' & E1 & Ho); [done..|]. exists u'. split; [|done].
  unfold grep_main. change (Z.of_nat (length [name; pat]) <=? 1) with false. change (Z.of_nat (length [name; pat]) <=? 2) with true. cbv iota zeta.
  by erewrite bind_ok by exact E1.
Qed.
End stdin.

(** ** [echo] *)

(** The words of a line, as [echo] separates and ends them. *)
Fixpoint unwords (ws : list (list Z)) : list Z :=
  match ws with
  | [] => []
  | w :: ws => w ++ match ws with [] => [10] | _ => [32] end ++ unwords ws
  end.

Section echo.
Context `{UserSys} `{!FileIO 0}.
Implicit Types u : user.

Lemma echo_args_run args ws u :
  Forall2 (string_at (u_mem u)) args ws -> Forall (fun w => Z.of_nat (length w) < 2 ^ 31) ws ->
  exists u', echo_args args u = Ok tt u' /\ output (u_world u') = output (u_world u) ++ unwords ws.
Proof.
  intros Hs. revert u Hs. revert ws. induction args as [|a args IH]; intros ws u Hs Hl.
  { apply Forall2_nil_inv_l in Hs as ->. exists u. split; [done|]. cbn. by rewrite app_nil_r. }
  apply Forall2_cons_inv_l in Hs as (w & ws' & Hw & Hs & ->). apply Forall_cons in Hl as [Hlw Hl]. cbn [echo_args].
  erewrite bind_ok by by apply strlen_run. apply string_at_bytes in Hw as [Hb Hr]. apply bytes_at_app in Hb as [Hb _].
  destruct (write_run 0 a (s32 (Z.of_nat (length w))) w u Hb) as (w1 & E1 & Ho1 & _).
  { eapply Forall_impl; [exact Hr|]. cbn. lia. }
  { unfold s32. rewrite Z.mod_small; lia. }
  erewrite bind_ok by exact E1.
  destruct (write_law (FileIO := FileIO0) (match args with [] => [10] | _ => [32] end) w1) as (w2 & E2 & Ho2 & _).
  erewrite bind_ok by (unfold in_world; cbn; rewrite E2; reflexivity).
  destruct (IH ws' (mkuser _ (u_mem u) (u_brk u) w2) Hs Hl) as (u' & E3 & Ho3). exists u'. split; [exact E3|].
  rewrite Ho3. cbn. rewrite Ho2, Ho1, <- !app_assoc.
  by destruct Hs.
Qed.

(** [echo] prints its arguments, separated by blanks, on a line. *)
Lemma echo_main_run name args ws u :
  Forall2 (string_at (u_mem u)) args ws -> Forall (fun w => Z.of_nat (length w) < 2 ^ 31) ws ->
  exists u', echo_main (name :: args) u = Panic "exit(0)" u' /\ output (u_world u') = output (u_world u) ++ unwords ws.
Proof.
  intros Hs Hl. destruct (echo_args_run args ws u Hs Hl) as (u' & E & Ho). exists u'. split; [|done].
  unfold echo_main. cbn [drop]. by erewrite bind_ok by exact E.
Qed.
End echo.

(** ** [fmtname] *)

Section fmtname.
Context `{UserSys}.
Implicit Types u : user.

Lemma memset_run u dst c n :
  0 <= n -> writable (u_mem u) dst n ->
  exists m, Ulib.memset dst c n u = Ok dst (u <| u_mem := m |>) /\
    forall a, m !! a = if decide (dst <= a < dst + n) then Some (u8 c) else u_mem u !! a.
Proof.
  intros Hn Hw. unfold Ulib.memset. assert (forall k i u, 0 <= i -> i + Z.of_nat k = n -> writable (u_mem u) dst n ->
    exists m, iter (S k) (fun i => if i <? n then uput (dst + i) c ;; continue (i + 1) else leave dst) i u = Ok dst (u <| u_mem := m |>) /\
      forall a, m !! a = if decide (dst + i <= a < dst + n) then Some (u8 c) else u_mem u !! a) as Hk.
  - induction k as [|k IH]; intros i v Hi Hik Hv.
    + exists (u_mem v). split; [|intros a; by rewrite decide_False by lia].
      apply iter_leave. destruct (Z.ltb_spec i n); [lia|]. by destruct v.
    + destruct (IH (i + 1) (v <| u_mem := <[dst + i := u8 c]> (u_mem v) |>)) as (m & E & Hm); [lia|lia| |].
      { intros a Ha. apply insert_mapped. by apply Hv. }
      exists m. split.
      * erewrite iter_continue; [exact E|]. destruct (Z.ltb_spec i n); [|lia]. erewrite bind_ok; [done|]. apply uput_run, Hv. lia.
      * intros a. rewrite Hm. cbn. destruct (decide (dst + i = a)) as [<-|Hne].
        -- rewrite decide_False by lia. rewrite decide_True by lia. apply lookup_insert_eq.
        -- rewrite lookup_insert_ne by done. destruct (decide (dst + (i + 1) <= a < dst + n)); [by rewrite decide_True by lia|].
           by rewrite decide_False by lia.
  - destruct (Hk (Z.to_nat n) 0 u) as (m & E & Hm); [lia|lia|done|]. exists m. split; [exact E|]. intros a. by rewrite Hm, Z.add_0_r.
Qed.

Definition slash_step (path : Z) (p : Z) : M user (Z + Z) :=
  if p <? path then leave p else c <- uget p ;; if c =? 47 then leave p else continue (p - 1).

(** The search goes past the characters of the name and its NUL. *)
Lemma slash_step_name u path pre base j :
  string_at (u_mem u) path (pre ++ base) -> Forall (fun c => c <> 47) base -> (j <= length base)%nat ->
  slash_step path (path + Z.of_nat (length pre + j)) u = Ok (inl (path + Z.of_nat (length pre + j) - 1)) u.
Proof.
  intros Hs Hb Hj. unfold slash_step. destruct (Z.ltb_spec (path + Z.of_nat (length pre + j)) path); [lia|].
  erewrite bind_ok by (eapply uget_string, string_at_drop; [exact Hs|rewrite length_app; lia]).
  rewrite drop_app_add. destruct (Z.eqb_spec (hd 0 (drop j base)) 47) as [E|]; [exfalso|done].
  destruct (drop j base) as [|c l] eqn:Ed; [done|]. cbn in E. subst c.
  apply (Forall_drop _ j) in Hb. rewrite Ed in Hb. by inversion Hb.
Qed.

(** It ends at the last slash, or before the path. *)
Lemma slash_step_end u path pre base :
  string_at (u_mem u) path (pre ++ base) -> pre = [] \/ last pre = Some 47 ->
  slash_step path (path + Z.of_nat (length pre) - 1) u = Ok (inr (path + Z.of_nat (length pre) - 1)) u.
Proof.
  intros Hs Hpre. unfold slash_step. destruct (Z.ltb_spec (path + Z.of_nat (length pre) - 1) path); [done|].
  destruct Hpre as [->|(q & ->)%last_Some]; [cbn in *; lia|]. rewrite length_app, Nat.add_1_r in *.
  replace (path + Z.of_nat (S (length q)) - 1) with (path + Z.of_nat (length q)) by lia.
  erewrite bind_ok by (eapply uget_string, string_at_drop; [exact Hs|rewrite !length_app; lia]).
  by rewrite <- app_assoc, drop_app_length.
Qed.

Lemma last_slash u path pre base :
  string_at (u_mem u) path (pre ++ base) -> pre = [] \/ last pre = Some 47 -> Forall (fun c => c <> 47) base ->
  forall k j, (j <= length base)%nat -> (j < k)%nat ->
  iter (S k) (slash_step path) (path + Z.of_nat (length pre + j)) u = Ok (path + Z.of_nat (length pre) - 1) u.
Proof.
  intros Hs Hpre Hb k j. revert k. induction j as [|j IH]; intros k Hj Hk.
  all: rewrite (iter_continue _ _ _ _ _ _ (slash_step_name u path pre base _ Hs Hb Hj)).
  - rewrite Nat.add_0_r. destruct k as [|k]; [lia|]. apply iter_leave. by apply slash_step_end with base.
  - destruct k as [|k]; [lia|]. replace (path + Z.of_nat (length pre + S j) - 1) with (path + Z.of_nat (length pre + j)) by lia.
    apply IH; lia.
Qed.

(** The padded name in the array. *)
Lemma padded_name m m1 m2 fmtbuf p base :
  string_at m p base -> Z.of_nat (length base) < DIRSIZ -> m !! (fmtbuf + DIRSIZ) = Some 0 ->
  moved fmtbuf p (Z.of_nat (length base)) m m1 ->
  (forall a, m2 !! a = if decide (fmtbuf + Z.of_nat (length base) <= a < fmtbuf + DIRSIZ) then Some 32 else m1 !! a) ->
  string_at m2 fmtbuf (base ++ replicate (Z.to_nat DIRSIZ - length base) 32) /\
  forall a, ~ fmtbuf <= a < fmtbuf + DIRSIZ -> m2 !! a = m !! a.
Proof.
  intros Hs Hl Hz H1 H2. apply string_at_bytes in Hs as [Hb Hr]. split.
  - apply string_at_bytes. split; [|apply Forall_app; split; [done|by apply Forall_replicate]].
    rewrite <- app_assoc. apply bytes_at_app. split; [|apply bytes_at_app; rewrite length_replicate; split].
    + intros i b Hi. pose proof (lookup_lt_Some _ _ _ Hi). rewrite H2, decide_False by lia. rewrite H1, decide_True by lia.
      replace (p + (fmtbuf + Z.of_nat i - fmtbuf)) with (p + Z.of_nat i) by lia. apply Hb. by apply lookup_app_l_Some.
    + intros i b Hi. apply lookup_replicate in Hi as [-> Hi]. by rewrite H2, decide_True by lia.
    + apply bytes_at_cons. split; [|by intros i b Hi]. rewrite H2, decide_False, H1, decide_False by lia.
      by replace (fmtbuf + _ + _) with (fmtbuf + DIRSIZ) by lia.
  - intros a Ha. by rewrite H2, decide_False, H1, decide_False by lia.
Qed.

(** [fmtname] returns the last element of the path, padded with blanks to
    [DIRSIZ] characters. *)
Lemma fmtname_run u fmtbuf path pre base :
  string_at (u_mem u) path (pre ++ base) -> pre = [] \/ last pre = Some 47 -> Forall (fun c => c <> 47) base ->
  Z.of_nat (length (pre ++ base)) < 2 ^ 31 ->
  writable (u_mem u) fmtbuf DIRSIZ -> u_mem u !! (fmtbuf + DIRSIZ) = Some 0 ->
  fmtbuf + DIRSIZ < path \/ path + Z.of_nat (length (pre ++ base)) < fmtbuf ->
  exists p m, fmtname fmtbuf path u = Ok p (u <| u_mem := m |>) /\
    string_at m p (base ++ replicate (Z.to_nat DIRSIZ - length base) 32) /\
    forall a, ~ fmtbuf <= a < fmtbuf + DIRSIZ -> m !! a = u_mem u !! a.
Proof.
  intros Hs Hpre Hb Hl Hw Hz Hd. unfold fmtname. erewrite bind_ok by by apply strlen_run.
  change (fun p => if p <? path then _ else _) with (slash_step path). rewrite length_app in *.
  erewrite bind_ok by (rewrite Nat2Z.id; eapply last_slash; [done..|lia|lia]). cbv zeta.
  replace (path + Z.of_nat (length pre) - 1 + 1) with (path + Z.of_nat (length pre)) by lia.
  assert (string_at (u_mem u) (path + Z.of_nat (length pre)) base) as Hsb.
  { rewrite <- (drop_app_length pre base). apply string_at_drop; [done|rewrite length_app; lia]. }
  erewrite bind_ok by (apply strlen_run; [exact Hsb|lia]). destruct (Z.leb_spec DIRSIZ (Z.of_nat (length base))) as [Hn|Hn].
  - exists (path + Z.of_nat (length pre)), (u_mem u). split_and!; [by destruct u| |done].
    replace (Z.to_nat DIRSIZ - length base)%nat with O by lia. by rewrite app_nil_r.
  - erewrite bind_ok by (apply strlen_run; [exact Hsb|lia]).
    destruct (memmove_run u fmtbuf (path + Z.of_nat (length pre)) (Z.of_nat (length base))) as (m1 & E1 & H1); [lia| | |].
    { intros x Hx. apply string_at_bytes in Hsb as [Hsb Hr]. 
      destruct (lookup_lt_is_Some_2 base (Z.to_nat (x - (path + Z.of_nat (length pre))))) as [b Hi]; [lia|]. exists b. split.
      - pose proof (Hsb _ b (lookup_app_l_Some _ [0] _ _ Hi)) as E. by rewrite Z2Nat.id, Zplus_minus in E by lia.
      - apply (Forall_lookup_1 _ _ _ _ Hr) in Hi. lia. }
    { intros x Hx. apply Hw. lia. }
    erewrite bind_ok by exact E1. set (v := u <| u_mem := m1 |>).
    assert (string_at (u_mem v) (path + Z.of_nat (length pre)) base) as Hsv.
    { eapply string_at_ext; [|exact Hsb]. intros x Hx. cbn. rewrite H1, decide_False; [done|lia]. }
    do 2 (erewrite bind_ok by (apply strlen_run; [exact Hsv|lia])).
    destruct (memset_run v (fmtbuf + Z.of_nat (length base)) 32 (DIRSIZ - Z.of_nat (length base))) as (m2 & E2 & H2); [lia| |].
    { intros x Hx. cbn. rewrite H1, decide_False by lia. apply Hw. lia. }
    erewrite bind_ok by exact E2. exists fmtbuf, m2. split; [done|]. eapply padded_name; [exact Hsb|done|done|exact H1|].
    intros a. rewrite H2. by replace (fmtbuf + Z.of_nat (length base) + (DIRSIZ - Z.of_nat (length base))) with (fmtbuf + DIRSIZ) by lia.
Qed.
End fmtname.
