(* ===== verification/UserWitness.v ===== *)
(** * Instances of the user-level results

    A system with an input and an output stream; [grep], [wc], [printf], the
    allocator and the shell on it. *)

From S2P Require Import Prelude Ulib UlibSpec Grep GrepSpec GrepIO Umalloc UmallocSpec UmallocHeap UmallocAlloc Sh ShSpec ShGrammar ShParse ShRun PhysMem Uprintf UprintfSpec Wc WcSpec.

(** The input that is left and the output; [read] returns at most 5 bytes. *)
#[export] Instance streams : UserSys := {|
  world := list Z * list Z;
  sys_read fd n w := (Some (take (Z.to_nat (Z.min 5 n)) w.1), (drop (Z.to_nat (Z.min 5 n)) w.1, w.2));
  sys_write fd bs w := (Z.of_nat (length bs), (w.1, w.2 ++ bs));
  sys_open path mode w := (3, w);
  sys_close fd w := w;
  sys_fstat fd w := (None, w);
  sys_grow n w := (true, w)
|}.

#[export] Instance streams_io : FileIO 0.
Proof.
  refine {| input := fst; output := snd |}.
  - intros n w. eexists _, _. split; [done|]. cbn. rewrite take_drop. split_and!; [done|done|rewrite length_take; lia|].
    intros Hn. destruct (decide (n <= 0)) as [|Hp]; [by left|right]. destruct w as [[|c i] o]; [done|]. cbn in Hn.
    by replace (Z.to_nat (5 `min` n)) with (S (Z.to_nat (5 `min` n) - 1)) in Hn by lia.
  - intros bs w. eexists. split; [done|]. done.
Defined.

Definition place (a : Z) (bs : list Z) : gmap Z Z := list_to_map (zip (seqZ a (Z.of_nat (length bs))) bs).

(** ** [match] and [grep] *)

(** The pattern [ab*] and the text [xabb]. *)
Definition match_user : user := mkuser _ (place 100 [97; 98; 42; 0] ∪ place 200 [120; 97; 98; 98; 0]) 0 ([], []).

Lemma match_spec_witness : exists r, match_ 100 200 match_user = Ok r match_user /\ (ctrue r = true <-> selects [97; 98; 42] [120; 97; 98; 98]).
Proof. apply (match_spec match_user 100 200 [97; 98; 42] [120; 97; 98; 98]); vm_compute; tauto. Defined.

(** The pattern [b$], the lines [ab], [ba] and [b]. *)
Definition grep_user : user :=
  mkuser _ (place 10 [98; 36; 0] ∪ place 100 (replicate 1024 0)) 0 ([97; 98; 10; 98; 97; 10; 98; 10], []).

Lemma grep_user_buffer : buffer 100 10 [98; 36] (replicate 1024 0) grep_user.
Proof.
  split; [by rewrite length_replicate|by apply Forall_replicate| |by vm_compute; intuition].
  intros i c Hi. apply lookup_replicate in Hi as [-> Hi].
  cut (Forall (fun i => u_mem grep_user !! (100 + Z.of_nat i) = Some 0) (seq 0 1024)).
  - rewrite Forall_forall. intros Hall. apply Hall, elem_of_seq. lia.
  - apply (bool_decide_unpack _). by vm_compute.
Qed.


(** ** The allocator *)

#[export] Instance statics : MallocStatics := {| base := 16; freep := 32 |}.

(** An empty heap from 48 on. *)
Definition heap_user : user := mkuser _ (place 16 (replicate 32 0)) 48 ([], []).

Lemma heap_user_fresh : fresh 48 heap_user.
Proof.
  assert (forall a, 16 <= a < 48 -> u_mem heap_user !! a = Some 0) as Hm.
  { cut (Forall (fun a => u_mem heap_user !! a = Some 0) (seqZ 16 32)).
    - rewrite Forall_forall. intros Hall a Ha. apply Hall, elem_of_seqZ. lia.
    - apply (bool_decide_unpack _). by vm_compute. }
  split; [unfold statics_ok; cbn; lia|cbn; lia| |].
  - split_and!; intros a Ha; cbn in *; [rewrite Hm by lia; by eexists..|lia].
  - split; [|done]. intros i b Hi. change (le_bytes 8 0) with (replicate 8 0) in Hi. apply lookup_replicate in Hi as [-> Hi].
    apply Hm. cbn. lia.
Qed.



(** ** The parser *)

(** [ls <f | (w;x)&] *)
Definition sh_line : list Z := [108; 115; 32; 60; 102; 32; 124; 32; 40; 119; 59; 120; 41; 38].

Definition sh_user : user := mkuser _ (place 100 (sh_line ++ [0])) 0 ([], []).

Definition sh_tree : scmd :=
  SBack (SPipe (SRedir (SExec [[108; 115]]) [102] 0 0) (SList (SExec [[119]]) (SExec [[120]]))).

Lemma parsecmd_spec_witness :
  exists c m, parsecmd 100 sh_user = Ok c (sh_user <| u_mem := m |>) /\ denotes m c sh_tree.
Proof.
  destruct (parsecmd_spec sh_user 100 sh_line) as [(c & sc & m & E & Hd & Hg & _)|(msg & E & _)].
  - vm_compute. intuition.
  - done.
  - exists c, m. split; [exact E|]. replace sh_tree with sc; [exact Hd|]. symmetry. apply Hg.
    change (lex sh_line) with ([TWord [108; 115]; TOp Lt; TWord [102]; TOp Bar; TOp LPar; TWord [119]; TOp Semi; TWord [120]; TOp RPar] ++ replicate 1 (TOp Amp)).
    apply (g_line_last _ _ 1).
    apply (g_pipe_bar [TWord [108; 115]; TOp Lt; TWord [102]] _ [TOp LPar; TWord [119]; TOp Semi; TWord [120]; TOp RPar]).
    + apply (g_exec_args [] [] _ [[108; 115]] [([102], 0, 0)]); [constructor| |by vm_compute; repeat constructor].
      apply (g_args_cons [108; 115] [TOp Lt; TWord [102]] [([102], 0, 0)] [] [] []); by repeat econstructor.
    + constructor. apply (g_exec_block [TWord [119]; TOp Semi; TWord [120]] _ [] []); [|constructor].
      apply (g_line_semi [TWord [119]] (SExec [[119]]) 0 [TWord [120]] (SExec [[120]])).
      * constructor. apply (g_exec_args [] [] [TWord [119]] [[119]] []); [constructor| |by vm_compute; repeat constructor].
        apply (g_args_cons [119] [] [] [] [] []); constructor.
      * apply (g_line_last [TWord [120]] _ 0). constructor. apply (g_exec_args [] [] [TWord [120]] [[120]] []); [constructor| |by vm_compute; repeat constructor].
        apply (g_args_cons [120] [] [] [] [] []); constructor.
  - vm_compute in E. discriminate E.
Defined.

(** ** [runcmd] on [a | b] *)

Definition sh_pipe : cmd := PIPE (EXEC [(100, 101)]) (EXEC [(104, 105)]).

Definition sh_pipe_mem : gmap Z Z := place 100 [97; 0] ∪ place 104 [98; 0].

Definition sh_fds : list (option obj) := [Some (Inherited 0); Some (Inherited 1); Some (Inherited 2)] ++ replicate 13 None.

Definition sh_pipe_init : list sproc * list start := ([mksproc (runcmd [] sh_pipe) sh_fds 0 false], []).

Ltac sh_call i := eapply rtc_l; [eapply (sh_call false _ _ i); [reflexivity|cbn; constructor; vm_compute; reflexivity]|cbn].

Ltac sh_fork i := eapply rtc_l; [eapply (sh_fork false _ _ i); reflexivity|cbn].

Ltac sh_exit i := eapply rtc_l; [eapply (ShRun.sh_call false _ _ i); [reflexivity|cbn; apply (call_ends _ 0)]|cbn].

Ltac sh_wait j := eapply rtc_l; [eapply (ShRun.sh_wait false _ _ 0%nat _ _ j); [reflexivity|reflexivity|reflexivity|discriminate|reflexivity..]|cbn].

(** A run to the end, the programs being started in turn. *)
Lemma sh_pipe_run : exists ps st, rtc (sh_step false) sh_pipe_init (ps, st) /\ forallb exited ps = true.
Proof.
  eexists _, _. split.
  - unfold sh_pipe_init. cbn. sh_call 0%nat. sh_fork 0%nat. sh_fork 0%nat. do 2 sh_call 0%nat. do 5 sh_call 2%nat. do 5 sh_call 1%nat.
    sh_exit 1%nat. sh_wait 1%nat. sh_exit 2%nat. sh_wait 2%nat. apply rtc_refl.
  - reflexivity.
Qed.

Lemma sh_pipe_grammar : g_line [TWord [97]; TOp Bar; TWord [98]] (SPipe (SExec [[97]]) (SExec [[98]])).
Proof.
  assert (forall w, g_exec [TWord w] (SExec [w])) as Hw.
  { intros w. apply (g_exec_args [] [] [TWord w] [w] []); [constructor|apply (g_args_cons w [] [] [] [] []); constructor|vm_compute; lia]. }
  apply (g_line_last [TWord [97]; TOp Bar; TWord [98]] (SPipe (SExec [[97]]) (SExec [[98]])) 0).
  apply (g_pipe_bar [TWord [97]] _ [TWord [98]]); [apply Hw|constructor; apply Hw].
Qed.

Lemma runcmd_spec_witness :
  exists ps st, rtc (sh_step false) sh_pipe_init (ps, st) /\ st ≡ₚ
    [(100, [100], <[1%nat := Some (WriteEnd [])]> sh_fds); (104, [104], <[0%nat := Some (ReadEnd [])]> sh_fds)].
Proof.
  destruct sh_pipe_run as (ps & st & Hrun & Hex). exists ps, st. split; [exact Hrun|].
  apply (runcmd_spec false [TWord [97]; TOp Bar; TWord [98]] sh_pipe_mem sh_pipe (SPipe (SExec [[97]]) (SExec [[98]])) sh_fds ps st).
  - exact sh_pipe_grammar.
  - repeat constructor; vm_compute; auto; lia.
  - split; [by eexists|]. split; [by eexists|]. exists 3%nat, 4%nat. done.
  - exact Hrun.
  - reflexivity.
  - exact Hex.
Defined.

(** ** [wc] and [printf] *)

(** The file [f] holds [a b], a newline and [c]. *)
Definition wc_user : user := mkuser _ (place 10 [102; 0] ∪ place 1000 (replicate 512 0)) 0 ([97; 32; 98; 10; 99], []).

Lemma wc_spec_witness : exists u', wc 6 1000 0 10 wc_user = Ok tt u' /\ output (u_world u') = chars "1 3 5 f" ++ [10].
Proof.
  destruct (wc_spec 0 1000 6 10 [102] wc_user) as (u' & E & Ho).
  - cut (Forall (fun j => is_Some (u_mem wc_user !! (1000 + j))) (seqZ 0 512)).
    + intros Hall j Hj. rewrite Forall_forall in Hall. apply Hall, elem_of_seqZ. lia.
    + apply (bool_decide_unpack _). by vm_compute.
  - apply (bool_decide_unpack _). by vm_compute.
  - by vm_compute.
  - discriminate.
  - left. cbn. lia.
  - cbn. lia.
  - cbn. lia.
  - exists u'. split; [exact E|]. rewrite Ho. vm_compute. reflexivity.
Defined.


Lemma printf_atoi_witness : exists t, emits 0 (printf (chars "%d") [VInt 407]) t wc_user /\
  forall u' a, string_at (u_mem u') a t -> atoi a u' = Ok 407 u'.
Proof. apply (printf_atoi 0 407 wc_user). lia. Defined.
